(* ===== verification/_CoqProject ===== *)
-Q . S2P
Config.v
Prelude.v
Utf8.v
StrUtil.v
Wildmat.v
StrList.v
NameList.v
Lookup.v
Dbm.v
Monad.v
CLib.v
Options.v
IcbDb.v
Log.v
SslConf.v
PktBuffers.v
Queue.v
SslSocket.v
PktSocket.v
QueueSend.v
PktServ.v
Ports.v
TlsServ.v
State.v
Resolver.v
Tables.v
Send.v
GroupCast.v
World.v
Access.v
GroupChange.v
GroupMod.v
GroupStatus.v
Lifecycle.v
UserCmd.v
Who.v
Info.v
Admin.v
Auto.v
Msgs.v
Login.v
Typing.v
TypedSend.v
TypedGroup.v
TypedUser.v
TypedPacket.v
Dump.v
Places.v
Kept.v
Moves.v
Streams.v
Server.v
Rooms.v
Boot.v
Program.v
Delivery.v
TlsProgram.v
