(* ===== verification/Config.v ===== *)
(** * icbd: a verification of the ICB chat server

    icbd is a single-threaded chat server.  Clients connect over TCP, with or
    without TLS, send packets (a length byte, a command byte, fields separated
    by \001) and are grouped into named groups; the server relays messages,
    keeps a user and a group table in static arrays, and a small database of
    registered nicknames.  The program has two layers: the packet library
    (src/pktserv), which turns bytes into packets under a poll loop, and the
    server proper (src/server), which is called back for each packet, each new
    or lost connection and each tick.  [Program] puts the two together.

    ** Parts, files and sources

    Text, lists and data:
    - [Config], [Prelude], [Monad], [CLib]: limits (icb_config.h), bytes and C
      strings, the state monad with undefined behaviour, [atoi] and [%d].
    - [Utf8] (server/utf8.c), [StrUtil] (server/strutil.c), [Wildmat]
      (server/wildmat.c): text.
    - [StrList] (server/strlist.c), [NameList] (server/namelist.c): linked lists
      on an explicit heap with allocation failure.
    - [Lookup] (server/lookup.c and the tables of server/globals.c).
    - [Dbm] (server/icb_dbm.c), [IcbDb] (server/icbdb.c): the database.
    - [Options] (server/main.c, server/s_admin.c): the command line, and the
      arguments that a restart hands on.
    - [Log] (server/mdb.c, server/icbutil.c): the log.

    The packet library:
    - [PktBuffers] (pktserv/pktbuffers.c): connections, and the kernel's side of
      them as a value; [SslSocket] (pktserv/sslsocket.c): the calls of OpenSSL;
      [SslConf] (pktserv/sslconf.c): the context;
      [PktSocket] (pktserv/pktsocket.c): reading and writing packets.
    - [Queue] (pktserv/bsdqueue.h): the send queues at the level of pointers;
      [QueueSend] (pktserv/pktserv.c, pktserv/pktsocket.c): sending with them.
    - [PktServ] (pktserv/pktserv.c): the poll set, accepting, the state machine,
      the main loop; [Ports]: opening ports; [TlsServ]: TLS connections in the
      state machine.
    - [Resolver] (pktserv/getrname.c): names of connections.
    - [Streams]: what is written on a connection, over all of its life.

    The server:
    - [State] (server/server.h, server/globals.c): the records USER_ITEM and
      GROUP_ITEM, the global arrays, and a log of what leaves the server.
    - [Tables] (server/users.c, server/groups.c), [Send] (server/send.c).
    - [GroupCast], [GroupChange], [GroupMod], [GroupStatus]: server/s_group.c.
    - [Access] (server/access.c): accounts, passwords, stored messages; [Auto]
      (server/s_auto.c): the resident user, who is told to manage them.
    - [Lifecycle] (server/ipcf.c, the start in main.c): the periodic sweep, lost
      connections.
    - [UserCmd] (server/s_user.c, s_person.c, s_beep.c), [Who] (s_who.c), [Info]
      (the files shown to users, s_stats.c, s_shuttime.c), [Admin] (s_admin.c).
    - [Msgs] (server/msgs.c, dispatch.c): packets; [Login]: logging in.
    - [Dump] (server/icbutil.c, pktserv_dumpsockets, pktserv_loadsockets): the
      file through which a restart keeps the tables.

    The whole:
    - [World]: the invariant of the two tables that the commands maintain.
    - [Server]: the process from its start, input after input.
    - [Typing], [TypedSend], [TypedGroup], [TypedUser], [TypedPacket]: every
      handler keeps the state well typed.
    - [Places]: an abstract machine of who is in which group; [Kept], [Moves]:
      which handlers make which of its steps; [Rooms]: the refinement.
    - [Boot] (server/main.c): the start, up to the main loop.
    - [Program] (server/main.c): the server behind the packet library.
    - [Delivery]: an open message from its bytes to the streams of the others.
    - [TlsProgram]: what a packet in two TLS records does to the program.

    ** How code is modelled

    A pure C function is a function on byte lists, a stateful one a computation
    in [M], a state monad whose failure [None] is undefined behaviour of the C
    program: an index outside an array, a null or freed pointer, a copy that
    does not fit, a signed overflow.  The fields of a packet, which the code
    keeps in the global [fields], are arguments of the handlers.  The state
    counts how many entries of [fields] [split] has set so far ([fields_set];
    the others are null).  A handler that uses an entry that its own packet did
    not set ([stale_field]: a fifth field, a packet that was not split, the
    idle boot, the spam check) is undefined when the entry is null, and
    otherwise unless the storage of the earlier packet, which was freed, can
    still be used ([stale_storage] of [Host]).  A name list is the sequence of its names in [State] and above;
    [NameList] shows that the linked lists implement these sequences.
    [time(NULL)] reads the clock of the state, which a command does not change.
    Reading a message buffer that [filtertext] left unterminated is undefined
    too.  A handler marks it with the event [EvOverread] in the log, and the
    program is undefined at the mark ([Program.perform]); what the model of the
    handler does after it is of no account.  So where a theorem about a single
    handler says that it completes and which messages it sends, it is to be read
    up to the first mark; [Send.senders_bounded] says exactly which texts leave
    one: those that fill the buffer they are filtered into.  The theorems of
    [Program], [Delivery] and [TlsProgram] are about runs without a mark.  The
    handlers leave out what they only write to the
    log file and the scratch buffer [mbuf]; what becomes of a message to the log
    file is in [Log].  The name of the server is an element of [Host];
    [own_name] is how [main] finds it.  The senders call back into the command
    interpreter for messages to the resident user; this call is the interface
    [Commands], which [Msgs] implements.  The machine is the class [Host] (the
    database environment, the printed form of times, host name, administrator
    password, files), the build the class [BuildConfig] (MAX_USERS, at least 2).
    BRICK and MAX_IDLE are not compiled, as icb_config.h has it; TLS is.

    What the system does is part of the state and arbitrary: the segments that
    [read] meets, what [write] accepts, the results of SSL_accept, SSL_read,
    SSL_write and SSL_get_error, the connections that [accept] returns, the
    events of [poll], the answers of the resolver.

    In [Program] a callback runs a handler on the tables and then makes the
    calls of [pktserv_send] and [pktserv_disconnect] that it logged.  No handler
    looks at the packet library's state, and [doSend] treats no result of
    [pktserv_send] but -2 specially, which it never returns; so the order is
    that of the code as far as anything can tell.  After [exit] callbacks do
    nothing and there are no further turns.

    ** What the theorems show

    - Text: the UTF-8 automaton decides well-formed UTF-8; the filters
      terminate, stay in their buffers and produce clean text; [split] inverts
      joining; the wildcard matcher decides its declarative meaning.
    - Lists and database: the heap operations refine sequences; the hash table
      is a finite map; closing and opening is the identity; a flush is atomic.
    - Queues: the macros make a list and lose no memory, and sending with them is
      sending with a list.
    - Packets: framing does not depend on segmentation; sending is first in,
      first out; poll set and event mask are right; a disconnection completes
      and is reported once;
      a port is opened on the first address that works.
    - TLS: the handshake is silent, ends accepted exactly when the library
      says so, and closes the connection when it fails; a packet that comes
      whole is dispatched; one that comes in two records hangs the program; what the context is good for when it is ready.
    - Tables and groups: searches are right; every group command keeps the
      invariant [world], is refused to those it should be refused to, and has
      the effect it should have; messages reach exactly the members they should.
    - Users and accounts: logging in, losing a connection, the sweep, renaming,
      hushing, notification, passwords, stored messages, the listings and the
      administrator's commands do what they should, to whom they should.
    - The start and the log: when the program serves, and which messages are
      written.
    - The restart: a dump that is loaded gives the same tables; the arguments
      give the same options.
    - The whole server: every state that any sequence of inputs reaches is well
      typed ([Server]); seen from the names in the tables the server is the
      machine of [Places], whose order is an invariant ([Rooms]).
    - The whole program: its tables are always in such a state, whatever the
      kernel does; what a client receives is always whole packets; and what a
      handler sends is what the client's stream grows by ([Program]).  An open
      message that arrives on one connection is on the streams of exactly those
      who should hear it when the turn ends ([Delivery]).
    - Defects: each theorem that shows one says so in its comment.

    ** Fuel

    Loops that are not structural take fuel that is shown to be enough, or is
    the length of what they consume: [flag_loop] and [status_loop] the length of
    the line, [skip_to_end] two words, [s_change_to] one level (a group name
    never starts with an at sign), [filtertext] twice the length of its input
    and two more, [free_all], [drain] and the walks the size of the heap,
    [getopt_loop] the number of arguments, [xread] the
    number of bytes asked for, [lost_mods] MAX_GROUPS (each turn takes a group
    from the lost moderator), [show_text] the length of the file, [perm_tokens]
    that of the line, [load_sockets] the number of descriptors and the length of
    the file.  Commands to the resident user may nest in one another; each is
    shorter than the one around it, so [commands] nests MAX_PKT_LEN deep.
    Running out counts as undefined behaviour, so that every theorem that a
    command completes covers it.  [sm_loop] alone is stated for every fuel,
    because the code's loop can spin.

    ** Not modelled

    Signals, as interruptions: the functions that are their handlers are modelled
    ([icbexit], [icbdump], [icbload], [icbcyclelogs]), but not that they may run
    between any two instructions.  The limit of descriptors, the [fork] and the
    execution of the program are results of system calls that the model is
    given; the file with the process number is output.  The socket options that
    only tune a connection and the tuning of the resolver are left out.  The
    formatting of messages to the log is the C library's.  Of the queue macros,
    a vendored header, those are modelled that the server uses.  The support
    scripts, the tests and the documentation are no part of the server. *)

From Stdlib Require Import ZArith.

(** ** Limits of icb_config.h *)

Definition MAX_PKT_LEN : nat := 256.
Definition MAX_PKT_DATA : nat := MAX_PKT_LEN - 2.
Definition MAX_GROUPS : nat := 300.
Definition MAX_FIELDS : nat := 20.
Definition MAX_GROUPLEN : nat := 8.
Definition MAX_IDLEN : nat := 12.
Definition MAX_NICKLEN : nat := 12.
Definition MAX_NODELEN : nat := 64.
Definition MAX_PASSWDLEN : nat := 12.
Definition MAX_REALLEN : nat := 64.
Definition MAX_TOPICLEN : nat := 32.
Definition MAX_INVITES : nat := 50.
Definition MAX_HUSHED : nat := 32.
Definition MAX_NOTIFIES : nat := 40.
Definition MAX_WRITES : Z := 20%Z.
Definition MAX_INPUTSTR : nat := 250 - MAX_NICKLEN - MAX_NICKLEN - 6.
Definition MAX_AWAY_LEN : nat := MAX_INPUTSTR - 17.
Definition MAX_SENDPACKET_QUEUE : nat := 10.
Definition MAX_SENDPACKET_RETRIES : nat := 10.
Definition DEFAULT_PORT : Z := 7326%Z.
Definition DEFAULT_SSLPORT : Z := 7327%Z.

(** ** The kinds of messages for the log (mdb.h) *)

Definition MSG_ALL : Z := (-1)%Z.
Definition MSG_NONE : Z := 0%Z.
Definition MSG_ERR : Z := 1%Z.
Definition MSG_WARN : Z := 2%Z.
Definition MSG_INFO : Z := 3%Z.
Definition MSG_DEBUG : Z := 4%Z.
Definition MSG_VERBOSE : Z := 5%Z.

(** ** The build configuration *)

(** [MAX_USERS] is chosen when the server is built; the build refuses values
    below 2.  File descriptors index the tables, so it also bounds them. *)
Class BuildConfig := {
  MAX_USERS : nat;
  MAX_USERS_min : (2 <= MAX_USERS)%nat
}.
