(* ===== verification/Prelude.v ===== *)
(** * Prelude: bytes, C strings and shared automation

    C strings are lists of bytes without the terminating NUL.  The file holds
    the byte predicates of <ctype.h> the server relies on, the comparisons of
    <string.h>, string literals, the development's tactics and hint database,
    and the generic list lemmas that the component files share. *)

From Stdlib Require Import ZArith Lia String.
From Stdlib Require Export Strings.Byte.
Export String.StringSyntax.
From stdpp Require Export prelude list.


Local Open Scope Z_scope.

(** ** Automation *)

Create HintDb icb discriminated.
Create Rewrite HintDb icb_simpl.

(** Split conjunctions and existentials of the context, substitute. *)
Ltac inv H := inversion H; subst; clear H.

Ltac crush_hyps :=
  repeat match goal with
  | H : _ ∧ _ |- _ => destruct H
  | H : ∃ _, _ |- _ => destruct H
  | H : Some _ = Some _ |- _ => injection H as H; subst
  | H : (_, _) = (_, _) |- _ => injection H as ? ?; subst
  | H : Some _ = None |- _ => discriminate H
  | H : None = Some _ |- _ => discriminate H
  end.

(** Case on the scrutinee of a conditional of the goal. *)
Ltac case_if :=
  match goal with
  | |- context [if ?b then _ else _] => let E := fresh "E" in destruct b eqn:E
  end.

(** A property of all bytes is checked on the 256 of them. *)
Ltac all_bytes b := destruct b; vm_compute; try reflexivity; try discriminate; try tauto.

(** ** Bytes *)

#[export] Instance byte_eq_dec : EqDecision byte := Byte.byte_eq_dec.

(** The value of a byte as [unsigned char] and as [signed char]. *)
Definition uchar (b : byte) : Z := Z.of_N (Byte.to_N b).
Definition schar (b : byte) : Z := if uchar b <? 128 then uchar b else uchar b - 256.

(** Conversion to [unsigned char] reduces modulo 256. *)
Definition to_uchar (z : Z) : byte :=
  default x00 (Byte.of_N (Z.to_N (z mod 256))).

Lemma uchar_range b : 0 ≤ uchar b < 256.
Proof.
  unfold uchar. pose proof (Byte.to_N_bounded b). lia.
Qed.

Lemma uchar_to_uchar z : uchar (to_uchar z) = z mod 256.
Proof.
  pose proof (Z.mod_pos_bound z 256 eq_refl) as Hb.
  unfold to_uchar, uchar.
  destruct (Byte.of_N (Z.to_N (z mod 256))) as [b|] eqn:E; simpl.
  - apply Byte.to_of_N in E. rewrite E. lia.
  - apply Byte.of_N_None_iff in E. lia.
Qed.

Lemma uchar_inj a b : uchar a = uchar b → a = b.
Proof.
  unfold uchar. intros H%N2Z.inj.
  pose proof (Byte.of_to_N a) as Ha. pose proof (Byte.of_to_N b) as Hb.
  rewrite H in Ha. congruence.
Qed.

Lemma to_uchar_uchar b : to_uchar (uchar b) = b.
Proof.
  apply uchar_inj. rewrite uchar_to_uchar. apply Z.mod_small, uchar_range.
Qed.

(** ** Character classes *)

Definition in_range (lo hi b : byte) : bool := (uchar lo <=? uchar b) && (uchar b <=? uchar hi).
Definition is_upper (b : byte) : bool := in_range "A" "Z" b.
Definition is_lower (b : byte) : bool := in_range "a" "z" b.
Definition is_digit (b : byte) : bool := in_range "0" "9" b.
Definition is_alnum (b : byte) : bool := is_upper b || is_lower b || is_digit b.

(** [tolower] of the C locale. *)
Definition tolower (b : byte) : byte := if is_upper b then to_uchar (uchar b + 32) else b.

(** ** C strings *)

Notation cstring := (list byte).

(** String literals of the program. *)
Definition str (s : string) : cstring := list_byte_of_string s.
Arguments str !s%_string / : simpl nomatch.

(** [strchr(s, c) != NULL], for a [c] that is not the terminator. *)
Definition has_char (s : cstring) (c : byte) : bool := existsb (Byte.eqb c) s.

(** [strcmp] and [strcasecmp]: the sign of the comparison, which is all that
    the standard promises and all that the program looks at. *)
Fixpoint strcmp_by (f : byte → Z) (a b : cstring) : Z :=
  match a, b with
  | [], [] => 0
  | [], _ :: _ => -1
  | _ :: _, [] => 1
  | x :: a', y :: b' =>
      if f x <? f y then -1 else if f y <? f x then 1 else strcmp_by f a' b'
  end.

Definition strcmp : cstring → cstring → Z := strcmp_by uchar.
Definition strcasecmp : cstring → cstring → Z := strcmp_by (λ c, uchar (tolower c)).

(** Equality as the program tests it: [strcmp(a,b) == 0]. *)
Definition streq (a b : cstring) : bool := strcmp a b =? 0.
Definition strcaseeq (a b : cstring) : bool := strcasecmp a b =? 0.

(** [strncpy(dst, s, n)] into a zeroed buffer of more than [n] bytes. *)
Definition strncpy (s : cstring) (n : nat) : cstring := take n s.

Section strcmp_by.
Context (f : byte → Z).

Lemma strcmp_by_eq0 a b : strcmp_by f a b = 0 ↔ map f a = map f b.
Proof.
  revert b; induction a as [|x a IH]; intros [|y b]; simpl; try (split; congruence).
  destruct (Z.ltb_spec (f x) (f y)); [split; [lia|intros [=]; lia]|].
  destruct (Z.ltb_spec (f y) (f x)); [split; [lia|intros [=]; lia]|].
  rewrite IH. assert (f x = f y) as -> by lia. split; congruence.
Qed.

Lemma strcmp_by_refl a : strcmp_by f a a = 0.
Proof. by apply strcmp_by_eq0. Qed.

Lemma strcmp_by_antisym a b : strcmp_by f b a = - strcmp_by f a b.
Proof.
  revert b; induction a as [|x a IH]; intros [|y b]; simpl; try done.
  destruct (Z.ltb_spec (f x) (f y)), (Z.ltb_spec (f y) (f x)); try lia. apply IH.
Qed.

Lemma strcmp_by_le_trans a b c :
  strcmp_by f a b ≤ 0 → strcmp_by f b c ≤ 0 → strcmp_by f a c ≤ 0.
Proof.
  revert b c; induction a as [|x a IH]; intros [|y b] [|z c]; simpl; try lia.
  destruct (Z.ltb_spec (f x) (f y)), (Z.ltb_spec (f y) (f x)),
    (Z.ltb_spec (f y) (f z)), (Z.ltb_spec (f z) (f y)),
    (Z.ltb_spec (f x) (f z)), (Z.ltb_spec (f z) (f x)); try lia.
  apply IH.
Qed.
End strcmp_by.

(** The case-folded form of a string: the key under which the server
    identifies nicknames, groups and list entries. *)
Definition casefold (s : cstring) : cstring := map tolower s.

Lemma strcaseeq_casefold a b : strcaseeq a b = true ↔ casefold a = casefold b.
Proof.
  unfold strcaseeq, strcasecmp. rewrite Z.eqb_eq, strcmp_by_eq0. unfold casefold.
  rewrite <-!(map_map tolower uchar). split; [|congruence].
  generalize (map tolower a) as u, (map tolower b) as v.
  induction u as [|x u IH]; intros [|y v]; simpl; try done.
  intros [= Hx Hr]. f_equal; [by apply uchar_inj|by apply IH].
Qed.

Lemma strcaseeq_dec a b : strcaseeq a b = bool_decide (casefold a = casefold b).
Proof.
  apply eq_true_iff_eq. by rewrite strcaseeq_casefold, bool_decide_eq_true.
Qed.

Lemma streq_eq a b : streq a b = true ↔ a = b.
Proof.
  unfold streq, strcmp. rewrite Z.eqb_eq, strcmp_by_eq0.
  split; [|congruence]. revert b.
  induction a as [|x a IH]; intros [|y b]; simpl; try done.
  intros [= Hx Hr]. f_equal; [by apply uchar_inj|by apply IH].
Qed.

Lemma strcaseeq_refl a : strcaseeq a a = true.
Proof. by apply strcaseeq_casefold. Qed.

Lemma strcaseeq_sym a b : strcaseeq a b = strcaseeq b a.
Proof. rewrite !strcaseeq_dec. apply bool_decide_ext; split; congruence. Qed.

#[export] Hint Resolve strcaseeq_refl uchar_range : icb.
#[export] Hint Rewrite strcaseeq_refl strcmp_by_refl to_uchar_uchar uchar_to_uchar : icb_simpl.

(** ** Generic list lemmas *)

Lemma Forall_take' {A} (P : A → Prop) n (l : list A) : Forall P l → Forall P (take n l).
Proof. apply Forall_take. Qed.

Lemma length_take_le' {A} n (l : list A) : (length (take n l) ≤ n)%nat.
Proof. rewrite length_take. lia. Qed.

Lemma filter_all {A} (P : A → Prop) `{∀ x, Decision (P x)} (l : list A) :
  (∀ x, x ∈ l → P x) → filter P l = l.
Proof.
  induction l as [|x l IH]; intros HP; [done|]. rewrite filter_cons_True by (apply HP; by left).
  f_equal. apply IH. intros y Hy. apply HP. by right.
Qed.

(** The first index whose element satisfies a boolean test: the shape of the
    table searches [for (i=0; i<N; i++) if (...) { result = i; break; }]. *)
Fixpoint find_index {A} (p : A → bool) (l : list A) : option nat :=
  match l with
  | [] => None
  | x :: l' => if p x then Some 0%nat else S <$> find_index p l'
  end.

Section find_index.
Context {A : Type} (p : A → bool).

Lemma find_index_Some l i :
  find_index p l = Some i ↔
  (∃ x, l !! i = Some x ∧ p x = true) ∧
  ∀ j y, (j < i)%nat → l !! j = Some y → p y = false.
Proof.
  revert i; induction l as [|x l IH]; intros i; simpl.
  { split; [done|]. intros [(y & Hy & _) _]. by rewrite lookup_nil in Hy. }
  destruct (p x) eqn:Ep.
  - split.
    + intros [= <-]. split; [by exists x|lia].
    + intros [(y & Hy & Hp) Hmin]. destruct i as [|i]; [done|].
      specialize (Hmin 0%nat x ltac:(lia) eq_refl). congruence.
  - destruct i as [|i].
    { split.
      - by destruct (find_index p l).
      - intros [(y & [= ->] & Hp) _]. congruence. }
    rewrite fmap_Some. split.
    + intros (k & Hk & [= ->]). apply IH in Hk as [Hx Hmin]. split; [done|].
      intros [|j] y Hj Hy; [by injection Hy as <-|apply (Hmin j); [lia|done]].
    + intros [Hx Hmin]. exists i. split; [|done]. apply IH. split; [done|].
      intros j y Hj Hy. apply (Hmin (S j)); [lia|done].
Qed.

Lemma find_index_None l :
  find_index p l = None ↔ ∀ i x, l !! i = Some x → p x = false.
Proof.
  induction l as [|x l IH]; simpl.
  { split; [|done]. intros _ i x Hx. by rewrite lookup_nil in Hx. }
  destruct (p x) eqn:Ep.
  - split; [done|]. intros H. specialize (H 0%nat x eq_refl). congruence.
  - rewrite fmap_None, IH. split.
    + intros H [|i] y Hy; [by injection Hy as <-|eauto].
    + intros H i y Hy. by apply (H (S i)).
Qed.

Lemma find_index_lt l i : find_index p l = Some i → (i < length l)%nat.
Proof. intros [(x & Hx & _) _]%find_index_Some. by eapply lookup_lt_Some. Qed.
End find_index.

#[export] Hint Resolve find_index_lt : icb.
