(* ===== verification/Utf8.v ===== *)
(** * UTF-8 decoding (server/utf8.c)

    The table-driven automaton [decode], the counter [countCodePoints], and a
    reference definition of UTF-8 (RFC 3629: the encoder [encode] of Unicode
    scalar values).  The theorems say that the automaton accepts exactly the
    concatenations of encoded scalar values, and computes them. *)

From Stdlib Require Import ZArith Lia.
From S2P Require Import Prelude.

Local Open Scope Z_scope.

Definition UTF8_ACCEPT : Z := 0.
Definition UTF8_REJECT : Z := 1.

Definition utf8d : list Z :=
  [0;0;0;0;0;0;0;0;0;0;0;0;0;0;0;0;0;0;0;0;0;0;0;0;0;0;0;0;0;0;0;0;
   0;0;0;0;0;0;0;0;0;0;0;0;0;0;0;0;0;0;0;0;0;0;0;0;0;0;0;0;0;0;0;0;
   0;0;0;0;0;0;0;0;0;0;0;0;0;0;0;0;0;0;0;0;0;0;0;0;0;0;0;0;0;0;0;0;
   0;0;0;0;0;0;0;0;0;0;0;0;0;0;0;0;0;0;0;0;0;0;0;0;0;0;0;0;0;0;0;0;
   1;1;1;1;1;1;1;1;1;1;1;1;1;1;1;1;9;9;9;9;9;9;9;9;9;9;9;9;9;9;9;9;
   7;7;7;7;7;7;7;7;7;7;7;7;7;7;7;7;7;7;7;7;7;7;7;7;7;7;7;7;7;7;7;7;
   8;8;2;2;2;2;2;2;2;2;2;2;2;2;2;2;2;2;2;2;2;2;2;2;2;2;2;2;2;2;2;2;
   0xa;0x3;0x3;0x3;0x3;0x3;0x3;0x3;0x3;0x3;0x3;0x3;0x3;0x4;0x3;0x3;
   0xb;0x6;0x6;0x6;0x5;0x8;0x8;0x8;0x8;0x8;0x8;0x8;0x8;0x8;0x8;0x8;
   0x0;0x1;0x2;0x3;0x5;0x8;0x7;0x1;0x1;0x1;0x4;0x6;0x1;0x1;0x1;0x1;
   1;1;1;1;1;1;1;1;1;1;1;1;1;1;1;1;1;0;1;1;1;1;1;0;1;0;1;1;1;1;1;1;
   1;2;1;1;1;1;1;2;1;2;1;1;1;1;1;1;1;1;1;1;1;1;1;2;1;1;1;1;1;1;1;1;
   1;2;1;1;1;1;1;1;1;2;1;1;1;1;1;1;1;1;1;1;1;1;1;3;1;3;1;1;1;1;1;1;
   1;3;1;1;1;1;1;3;1;3;1;1;1;1;1;1;1;3;1;1;1;1;1;1;1;1;1;1;1;1;1;1].

(** [utf8d[i]]; the proofs below show that no index leaves the table. *)
Definition utf8d_at (i : Z) : Z := default 0 (utf8d !! Z.to_nat i).

(** One step: the new state and the new code point, on 32-bit words. *)
Definition decode (state codep : Z) (b : byte) : Z * Z :=
  let type := utf8d_at (uchar b) in
  let codep' :=
    if negb (state =? UTF8_ACCEPT)
    then Z.lor (Z.land (uchar b) 0x3f) (Z.shiftl codep 6 mod 2 ^ 32)
    else Z.land (Z.shiftr 0xff type) (uchar b) in
  (utf8d_at (256 + state * 16 + type), codep').

Arguments decode : simpl never.

(** [countCodePoints]: the count and the return value ([true] for 1). *)
Fixpoint countCodePoints_loop (state codep count : Z) (s : cstring) : Z * bool :=
  match s with
  | [] => (count, negb (state =? UTF8_ACCEPT))
  | c :: s' =>
      let '(state', codep') := decode state codep c in
      countCodePoints_loop state' codep' (if state' =? 0 then count + 1 else count) s'
  end.

Definition countCodePoints (s : cstring) : Z * bool := countCodePoints_loop 0 0 0 s.

(** ** Reference definition *)

Definition is_scalar (cp : Z) : Prop := 0 ≤ cp < 0xD800 ∨ 0xE000 ≤ cp ≤ 0x10FFFF.

Definition encode (cp : Z) : cstring :=
  if cp <? 0x80 then [to_uchar cp]
  else if cp <? 0x800 then [to_uchar (0xC0 + cp / 64); to_uchar (0x80 + cp mod 64)]
  else if cp <? 0x10000 then
    [to_uchar (0xE0 + cp / 4096); to_uchar (0x80 + cp / 64 mod 64); to_uchar (0x80 + cp mod 64)]
  else
    [to_uchar (0xF0 + cp / 262144); to_uchar (0x80 + cp / 4096 mod 64);
     to_uchar (0x80 + cp / 64 mod 64); to_uchar (0x80 + cp mod 64)].

Definition encode_all (cps : list Z) : cstring := concat (map encode cps).

(** The transition function the table stands for, by ranges of bytes.  State 2
    awaits one continuation byte, 3 two of them, 4 and 5 the restricted second
    byte after E0 and ED, 6, 7 and 8 the second byte after F0, F1..F3 and F4. *)
Definition utf8_next (state : Z) (b : byte) : Z :=
  let v := uchar b in
  let within lo hi t := if (lo <=? v) && (v <=? hi) then t else 1 in
  if state =? 0 then
    if v <? 0x80 then 0 else if v <? 0xC2 then 1 else if v <? 0xE0 then 2
    else if v =? 0xE0 then 4 else if v =? 0xED then 5 else if v <? 0xF0 then 3
    else if v =? 0xF0 then 6 else if v <? 0xF4 then 7 else if v =? 0xF4 then 8 else 1
  else if state =? 2 then within 0x80 0xBF 0
  else if state =? 3 then within 0x80 0xBF 2
  else if state =? 4 then within 0xA0 0xBF 2
  else if state =? 5 then within 0x80 0x9F 2
  else if state =? 6 then within 0x90 0xBF 3
  else if state =? 7 then within 0x80 0xBF 3
  else if state =? 8 then within 0x80 0x8F 3
  else 1.

(** The code point bits that a first byte contributes. *)
Definition lead_bits (b : byte) : Z :=
  let v := uchar b in
  if v <? 0x80 then v else if v <? 0xE0 then v - 0xC0 else if v <? 0xF0 then v - 0xE0 else v - 0xF0.

(** Running the automaton over a string. *)
Fixpoint decode_run (state codep : Z) (s : cstring) : Z * Z :=
  match s with
  | [] => (state, codep)
  | c :: s' => let '(state', codep') := decode state codep c in decode_run state' codep' s'
  end.

(** ** The table implements the reference transitions *)

Lemma decode_state state codep b :
  0 ≤ state ≤ 8 → fst (decode state codep b) = utf8_next state b.
Proof.
  intros H.
  assert (state ∈ [0;1;2;3;4;5;6;7;8]) as Hs.
  { repeat (rewrite elem_of_cons || rewrite elem_of_nil). lia. }
  clear H. revert Hs. unfold decode; cbn [fst].
  repeat (rewrite elem_of_cons || rewrite elem_of_nil).
  intros H; repeat (destruct H as [->|H]; [destruct b; vm_compute; reflexivity|]). done.
Qed.

Lemma utf8_next_range state b : 0 ≤ utf8_next state b ≤ 8.
Proof. unfold utf8_next. repeat case_if; lia. Qed.

(** No access of [decode] leaves the table. *)
Lemma decode_in_table state b :
  0 ≤ state ≤ 8 →
  (Z.to_nat (uchar b) < length utf8d)%nat ∧
  (Z.to_nat (256 + state * 16 + utf8d_at (uchar b)) < length utf8d)%nat.
Proof.
  intros H. change (length utf8d) with 400%nat. pose proof (uchar_range b).
  assert (0 ≤ utf8d_at (uchar b) ≤ 11) by (destruct b; vm_compute; split; discriminate). lia.
Qed.

Lemma decode_lead codep b : utf8_next 0 b ≠ 1 → snd (decode 0 codep b) = lead_bits b.
Proof. unfold decode; cbn [snd]. destruct b; vm_compute; congruence. Qed.

Lemma land_63 b : 0x80 ≤ uchar b ≤ 0xBF → Z.land (uchar b) 0x3f = uchar b - 0x80.
Proof. destruct b; vm_compute; intuition congruence. Qed.

Lemma land_shift6 c x : 0 ≤ x < 64 → Z.land (Z.shiftl c 6) x = 0.
Proof.
  intros Hx. apply Z.bits_inj'; intros n Hn. rewrite Z.land_spec, Z.bits_0.
  destruct (Z.lt_ge_cases n 6); [by rewrite Z.shiftl_spec_low by lia|].
  replace x with (x mod 2 ^ 6) by (apply Z.mod_small; lia).
  rewrite Z.mod_pow2_bits_high by lia. apply andb_false_r.
Qed.

Lemma lor_shift6 c x : 0 ≤ x < 64 → Z.lor x (c * 64) = c * 64 + x.
Proof.
  intros Hx. pose proof (land_shift6 c x Hx) as Hl.
  rewrite Z.shiftl_mul_pow2 in Hl by lia. change (2 ^ 6) with 64 in Hl.
  rewrite Z.lor_comm, <-Z.lxor_lor, <-Z.add_nocarry_lxor by done. done.
Qed.

Lemma decode_cont state codep b :
  state ≠ 0 → 0 ≤ codep < 2 ^ 21 → 0x80 ≤ uchar b ≤ 0xBF →
  snd (decode state codep b) = codep * 64 + (uchar b - 0x80).
Proof.
  intros Hs Hc Hb. unfold decode; cbn [snd].
  destruct (Z.eqb_spec state UTF8_ACCEPT) as [->|_]; [done|]. cbn [negb].
  rewrite land_63, Z.shiftl_mul_pow2 by lia.
  change (2 ^ 6) with 64. rewrite Z.mod_small by lia. apply lor_shift6. lia.
Qed.

Lemma decode_eq state codep b :
  0 ≤ state ≤ 8 → decode state codep b = (utf8_next state b, snd (decode state codep b)).
Proof. intros H. rewrite <-(decode_state _ codep _ H). by destruct (decode _ _ _). Qed.

Lemma decode_run_app state codep s t :
  decode_run state codep (s ++ t) = let '(st, cp) := decode_run state codep s in decode_run st cp t.
Proof.
  revert state codep; induction s as [|b s IH]; intros; simpl; [done|].
  destruct (decode state codep b). apply IH.
Qed.

(** ** Acceptance *)

Lemma decode_run_reject codep s : fst (decode_run 1 codep s) = 1.
Proof.
  revert codep; induction s as [|b s IH]; intros codep; [done|].
  cbn [decode_run]. rewrite (decode_eq 1) by lia. apply IH.
Qed.

(** One accepted character: the bytes [bs] lead from the accepting state back
    to it, not visiting it in between, and [cp] is the computed code point. *)
Definition one_char (bs : cstring) (cp : Z) : Prop :=
  ∀ c0, decode_run 0 c0 bs = (0, cp).

Ltac uchar_simpl :=
  repeat (rewrite uchar_to_uchar); rewrite ?Z.mod_small by (Z.div_mod_to_equations; lia).

Ltac next_ranges :=
  unfold utf8_next; cbn [Z.eqb Pos.eqb]; uchar_simpl;
  repeat match goal with
  | |- context [?a <? ?b] => destruct (Z.ltb_spec a b); try (Z.div_mod_to_equations; lia)
  | |- context [?a <=? ?b] => destruct (Z.leb_spec a b); try (Z.div_mod_to_equations; lia)
  | |- context [?a =? ?b] => destruct (Z.eqb_spec a b); try (Z.div_mod_to_equations; lia)
  end; cbn [andb]; try reflexivity; try (exfalso; Z.div_mod_to_equations; lia).

(** The automaton from any continuation state on one continuation byte. *)
Lemma decode_run_cont state codep b s :
  2 ≤ state ≤ 8 → 0 ≤ codep < 2 ^ 21 → 0x80 ≤ uchar b ≤ 0xBF →
  decode_run state codep (b :: s) =
  decode_run (utf8_next state b) (codep * 64 + (uchar b - 0x80)) s.
Proof.
  intros Hs Hc Hb. cbn [decode_run]. rewrite decode_eq by lia. by rewrite decode_cont by lia.
Qed.

Lemma decode_run_lead c0 b s :
  utf8_next 0 b ≠ 1 → decode_run 0 c0 (b :: s) = decode_run (utf8_next 0 b) (lead_bits b) s.
Proof. intros H. cbn [decode_run]. rewrite decode_eq by lia. by rewrite decode_lead. Qed.

(** The computed code point of a byte sequence, by its length. *)
Definition cp1 (b : byte) : Z := uchar b.
Definition cp2 (b0 b1 : byte) : Z := (uchar b0 - 0xC0) * 64 + (uchar b1 - 0x80).
Definition cp3 (b0 b1 b2 : byte) : Z :=
  ((uchar b0 - 0xE0) * 64 + (uchar b1 - 0x80)) * 64 + (uchar b2 - 0x80).
Definition cp4 (b0 b1 b2 b3 : byte) : Z :=
  (((uchar b0 - 0xF0) * 64 + (uchar b1 - 0x80)) * 64 + (uchar b2 - 0x80)) * 64 + (uchar b3 - 0x80).

(** Well-formed byte sequences (the ranges of RFC 3629). *)
Definition wf2 (b0 b1 : byte) : Prop := 0xC2 ≤ uchar b0 ≤ 0xDF ∧ 0x80 ≤ uchar b1 ≤ 0xBF.
Definition wf3 (b0 b1 b2 : byte) : Prop :=
  0xE0 ≤ uchar b0 ≤ 0xEF ∧ 0x80 ≤ uchar b1 ≤ 0xBF ∧ 0x80 ≤ uchar b2 ≤ 0xBF ∧
  (uchar b0 = 0xE0 → 0xA0 ≤ uchar b1) ∧ (uchar b0 = 0xED → uchar b1 ≤ 0x9F).
Definition wf4 (b0 b1 b2 b3 : byte) : Prop :=
  0xF0 ≤ uchar b0 ≤ 0xF4 ∧ 0x80 ≤ uchar b1 ≤ 0xBF ∧ 0x80 ≤ uchar b2 ≤ 0xBF ∧
  0x80 ≤ uchar b3 ≤ 0xBF ∧ (uchar b0 = 0xF0 → 0x90 ≤ uchar b1) ∧
  (uchar b0 = 0xF4 → uchar b1 ≤ 0x8F).

Ltac encode_case :=
  unfold encode;
  repeat match goal with
  | |- context [?a <? ?b] => destruct (Z.ltb_spec a b); try (Z.div_mod_to_equations; lia)
  end;
  repeat f_equal; apply uchar_inj; rewrite uchar_to_uchar; Z.div_mod_to_equations; lia.

Lemma encode_cp1 b : uchar b < 0x80 → encode (cp1 b) = [b].
Proof. intros H. pose proof (uchar_range b). unfold cp1. encode_case. Qed.

Lemma encode_cp2 b0 b1 : wf2 b0 b1 → encode (cp2 b0 b1) = [b0; b1].
Proof. intros [H0 H1]. unfold cp2. encode_case. Qed.

Lemma encode_cp3 b0 b1 b2 : wf3 b0 b1 b2 → encode (cp3 b0 b1 b2) = [b0; b1; b2].
Proof. intros (H0 & H1 & H2 & H3 & H4). unfold cp3. encode_case. Qed.

Lemma encode_cp4 b0 b1 b2 b3 : wf4 b0 b1 b2 b3 → encode (cp4 b0 b1 b2 b3) = [b0; b1; b2; b3].
Proof. intros (H0 & H1 & H2 & H3 & H4 & H5). unfold cp4. encode_case. Qed.

(** Every scalar value is the value of a well-formed sequence, its encoding. *)
Inductive char_view : Z → cstring → Prop :=
| view1 b : uchar b < 0x80 → char_view (cp1 b) [b]
| view2 b0 b1 : wf2 b0 b1 → char_view (cp2 b0 b1) [b0; b1]
| view3 b0 b1 b2 : wf3 b0 b1 b2 → char_view (cp3 b0 b1 b2) [b0; b1; b2]
| view4 b0 b1 b2 b3 : wf4 b0 b1 b2 b3 → char_view (cp4 b0 b1 b2 b3) [b0; b1; b2; b3].

Lemma char_view_encode cp bs : char_view cp bs → encode cp = bs ∧ is_scalar cp.
Proof.
  intros H; inv H; (split; [auto using encode_cp1, encode_cp2, encode_cp3, encode_cp4|]);
    unfold is_scalar, cp1, cp2, cp3, cp4, wf2, wf3, wf4 in *; [pose proof (uchar_range b)|..]; lia.
Qed.

Lemma scalar_char_view cp : is_scalar cp → char_view cp (encode cp).
Proof.
  intros Hs. unfold is_scalar in Hs. unfold encode.
  destruct (Z.ltb_spec cp 0x80); [|destruct (Z.ltb_spec cp 0x800);
    [|destruct (Z.ltb_spec cp 0x10000)]].
  - replace cp with (cp1 (to_uchar cp)) at 1
      by (unfold cp1; uchar_simpl; lia). apply view1. uchar_simpl. lia.
  - replace cp with (cp2 (to_uchar (0xC0 + cp / 64)) (to_uchar (0x80 + cp mod 64))) at 1
      by (unfold cp2; uchar_simpl; Z.div_mod_to_equations; lia).
    apply view2. split; uchar_simpl; Z.div_mod_to_equations; lia.
  - replace cp with (cp3 (to_uchar (0xE0 + cp / 4096)) (to_uchar (0x80 + cp / 64 mod 64))
        (to_uchar (0x80 + cp mod 64))) at 1
      by (unfold cp3; uchar_simpl; Z.div_mod_to_equations; lia).
    apply view3. repeat split; uchar_simpl; try (Z.div_mod_to_equations; lia).
  - replace cp with (cp4 (to_uchar (0xF0 + cp / 262144)) (to_uchar (0x80 + cp / 4096 mod 64))
        (to_uchar (0x80 + cp / 64 mod 64)) (to_uchar (0x80 + cp mod 64))) at 1
      by (unfold cp4; uchar_simpl; Z.div_mod_to_equations; lia).
    apply view4. repeat split; uchar_simpl; try (Z.div_mod_to_equations; lia).
Qed.

(** The bytes read since the last character boundary, with the state and the
    code point the automaton has reached on them. *)
Inductive partial : Z → Z → cstring → Prop :=
| part_none cp : partial 0 cp []
| part_lead b0 : 0xC2 ≤ uchar b0 ≤ 0xF4 → partial (utf8_next 0 b0) (lead_bits b0) [b0]
| part_2of3 b0 b1 :
    0xE0 ≤ uchar b0 ≤ 0xEF → 0x80 ≤ uchar b1 ≤ 0xBF →
    (uchar b0 = 0xE0 → 0xA0 ≤ uchar b1) → (uchar b0 = 0xED → uchar b1 ≤ 0x9F) →
    partial 2 ((uchar b0 - 0xE0) * 64 + (uchar b1 - 0x80)) [b0; b1]
| part_2of4 b0 b1 :
    0xF0 ≤ uchar b0 ≤ 0xF4 → 0x80 ≤ uchar b1 ≤ 0xBF →
    (uchar b0 = 0xF0 → 0x90 ≤ uchar b1) → (uchar b0 = 0xF4 → uchar b1 ≤ 0x8F) →
    partial 3 ((uchar b0 - 0xF0) * 64 + (uchar b1 - 0x80)) [b0; b1]
| part_3of4 b0 b1 b2 :
    0xF0 ≤ uchar b0 ≤ 0xF4 → 0x80 ≤ uchar b1 ≤ 0xBF → 0x80 ≤ uchar b2 ≤ 0xBF →
    (uchar b0 = 0xF0 → 0x90 ≤ uchar b1) → (uchar b0 = 0xF4 → uchar b1 ≤ 0x8F) →
    partial 2 (((uchar b0 - 0xF0) * 64 + (uchar b1 - 0x80)) * 64 + (uchar b2 - 0x80)) [b0; b1; b2].

Lemma partial_range st cp p : partial st cp p → 0 ≤ st ≤ 8 ∧ st ≠ 1 ∧ (length p ≤ 3)%nat.
Proof.
  intros H; inv H; simpl; try lia.
  split; [apply utf8_next_range|split; [|lia]]. next_ranges; lia.
Qed.

Ltac split_ranges H :=
  repeat match type of H with
  | context [?a <? ?b] => destruct (Z.ltb_spec a b); try (exfalso; lia); simpl in H
  | context [?a <=? ?b] => destruct (Z.leb_spec a b); try (exfalso; lia); simpl in H
  | context [?a =? ?b] => destruct (Z.eqb_spec a b); try (exfalso; lia); simpl in H
  end.

(** The next byte from a partial character: it ends the character, continues
    it, or is rejected. *)
Inductive step_view (st cp : Z) (p : cstring) (b : byte) : Z → Z → Prop :=
| sv_reject cp' : step_view st cp p b 1 cp'
| sv_more st' cp' : 2 ≤ st' ≤ 8 → partial st' cp' (p ++ [b]) → step_view st cp p b st' cp'
| sv_char cp' : char_view cp' (p ++ [b]) → step_view st cp p b 0 cp'.

Lemma lead_step c0 b : step_view 0 c0 [] b (utf8_next 0 b) (snd (decode 0 c0 b)).
Proof.
  destruct (decide (utf8_next 0 b = 1)) as [->|Hn]; [apply sv_reject|].
  rewrite decode_lead by done. pose proof (uchar_range b) as Hb.
  destruct (Z.lt_ge_cases (uchar b) 0x80).
  - assert (utf8_next 0 b = 0) as -> by next_ranges.
    replace (lead_bits b) with (cp1 b)
      by (unfold lead_bits; by destruct (Z.ltb_spec (uchar b) 0x80); [|lia]).
    by apply sv_char, (view1 b).
  - assert (0xC2 ≤ uchar b ≤ 0xF4) as Hr.
    { clear -Hn Hb H. unfold utf8_next in Hn. simpl in Hn. split_ranges Hn; lia. }
    apply sv_more; [|by apply part_lead]. clear Hn H. next_ranges; lia.
Qed.

Lemma lead_bits_of b :
  0xC2 ≤ uchar b ≤ 0xF4 →
  lead_bits b = uchar b - (if uchar b <? 0xE0 then 0xC0 else if uchar b <? 0xF0 then 0xE0 else 0xF0).
Proof.
  intros H. unfold lead_bits.
  destruct (Z.ltb_spec (uchar b) 0x80), (Z.ltb_spec (uchar b) 0xE0), (Z.ltb_spec (uchar b) 0xF0); lia.
Qed.

(** The range of continuation bytes of a state, and where they lead. *)
Definition next_lo (st : Z) : Z := if st =? 4 then 0xA0 else if st =? 6 then 0x90 else 0x80.
Definition next_hi (st : Z) : Z := if st =? 5 then 0x9F else if st =? 8 then 0x8F else 0xBF.
Definition next_st (st : Z) : Z := if st =? 2 then 0 else if st <=? 5 then 2 else 3.

Lemma utf8_next_within st b :
  2 ≤ st ≤ 8 → utf8_next st b ≠ 1 →
  next_lo st ≤ uchar b ≤ next_hi st ∧ utf8_next st b = next_st st.
Proof.
  intros Hs. assert (st = 2 ∨ st = 3 ∨ st = 4 ∨ st = 5 ∨ st = 6 ∨ st = 7 ∨ st = 8) as Hc by lia.
  destruct Hc as [->|[->|[->|[->|[->|[->| ->]]]]]]; unfold utf8_next; simpl; intros Hn;
    match type of Hn with (if ?c then _ else _) ≠ 1 => destruct c eqn:E; [|done] end;
    apply andb_true_iff in E as [?%Z.leb_le ?%Z.leb_le]; by split.
Qed.

Lemma lead_next b0 :
  0xC2 ≤ uchar b0 ≤ 0xF4 →
  utf8_next 0 b0 =
    if uchar b0 <? 0xE0 then 2 else if uchar b0 =? 0xE0 then 4 else if uchar b0 =? 0xED then 5
    else if uchar b0 <? 0xF0 then 3 else if uchar b0 =? 0xF0 then 6
    else if uchar b0 <? 0xF4 then 7 else 8.
Proof. intros H. next_ranges. Qed.

Lemma second_step b0 b :
  0xC2 ≤ uchar b0 ≤ 0xF4 →
  step_view (utf8_next 0 b0) (lead_bits b0) [b0] b (utf8_next (utf8_next 0 b0) b)
    (snd (decode (utf8_next 0 b0) (lead_bits b0) b)).
Proof.
  intros H0. pose proof (lead_next b0 H0) as Hst.
  assert (2 ≤ utf8_next 0 b0 ≤ 8) as Hs by (rewrite Hst; repeat case_if; lia).
  destruct (decide (utf8_next (utf8_next 0 b0) b = 1)) as [->|Hn]; [apply sv_reject|].
  destruct (utf8_next_within _ _ Hs Hn) as [Hr ->].
  assert (0x80 ≤ uchar b ≤ 0xBF) as Hc by (unfold next_lo, next_hi in Hr; split_ranges Hr; lia).
  rewrite (lead_bits_of b0) by done. rewrite decode_cont by (repeat case_if; lia).
  clear Hs Hn. rewrite Hst in *.
  destruct (Z.ltb_spec (uchar b0) 0xE0).
  { apply sv_char, (view2 b0 b). split; lia. }
  destruct (Z.ltb_spec (uchar b0) 0xF0).
  - destruct (Z.eqb_spec (uchar b0) 0xE0); [|destruct (Z.eqb_spec (uchar b0) 0xED)];
      unfold next_lo, next_hi, next_st in *; simpl in *;
      (apply sv_more; [lia|apply part_2of3; lia]).
  - destruct (Z.eqb_spec (uchar b0) 0xE0); [lia|]. destruct (Z.eqb_spec (uchar b0) 0xED); [lia|].
    destruct (Z.eqb_spec (uchar b0) 0xF0); [|destruct (Z.ltb_spec (uchar b0) 0xF4)];
      unfold next_lo, next_hi, next_st in *; simpl in *;
      (apply sv_more; [lia|apply part_2of4; lia]).
Qed.

Lemma later_step st cp b :
  st = 2 ∨ st = 3 → 0 ≤ cp < 2 ^ 21 →
  utf8_next st b = 1 ∨
  (0x80 ≤ uchar b ≤ 0xBF ∧ utf8_next st b = (if st =? 2 then 0 else 2) ∧
   snd (decode st cp b) = cp * 64 + (uchar b - 0x80)).
Proof.
  intros Hst Hcp. pose proof (uchar_range b).
  destruct (decide (0x80 ≤ uchar b ≤ 0xBF)) as [Hc|Hc].
  - right. split; [done|]. rewrite decode_cont by lia. split; [|done].
    destruct Hst as [->| ->]; next_ranges.
  - left. destruct Hst as [->| ->]; next_ranges.
Qed.

Lemma partial_step st cp p b :
  partial st cp p → step_view st cp p b (utf8_next st b) (snd (decode st cp b)).
Proof.
  intros H; inv H; [apply lead_step|by apply second_step|..].
  all: match goal with |- step_view ?st ?cp _ _ _ _ =>
         destruct (later_step st cp b) as [->|(Hc & -> & ->)]; [lia|lia|apply sv_reject|] end.
  - apply sv_char. apply (view3 b0 b1 b). unfold wf3; auto.
  - apply sv_more; [done|]. by apply part_3of4.
  - apply sv_char. apply (view4 b0 b1 b2 b). unfold wf4; auto 10.
Qed.

(** States and code points after each byte. *)
Fixpoint decode_trace (state codep : Z) (s : cstring) : list (Z * Z) :=
  match s with
  | [] => []
  | c :: s' => let r := decode state codep c in r :: decode_trace (fst r) (snd r) s'
  end.

Lemma decode_trace_cont st cp b s :
  2 ≤ st ≤ 8 → 0 ≤ cp < 2 ^ 21 → 0x80 ≤ uchar b ≤ 0xBF → next_lo st ≤ uchar b ≤ next_hi st →
  decode_trace st cp (b :: s) =
  (next_st st, cp * 64 + (uchar b - 0x80)) ::
    decode_trace (next_st st) (cp * 64 + (uchar b - 0x80)) s.
Proof.
  intros Hs Hc Hb Hr.
  assert (utf8_next st b = next_st st) as E.
  { assert (st = 2 ∨ st = 3 ∨ st = 4 ∨ st = 5 ∨ st = 6 ∨ st = 7 ∨ st = 8) as Hcs by lia.
    destruct Hcs as [->|[->|[->|[->|[->|[->| ->]]]]]];
      unfold next_lo, next_hi in Hr; simpl in Hr; next_ranges. }
  cbn [decode_trace]. rewrite decode_eq by lia. rewrite decode_cont by lia. by rewrite E.
Qed.

Lemma decode_trace_lead c0 b s :
  0xC2 ≤ uchar b ≤ 0xF4 →
  decode_trace 0 c0 (b :: s) =
  (utf8_next 0 b, lead_bits b) :: decode_trace (utf8_next 0 b) (lead_bits b) s.
Proof.
  intros H. assert (utf8_next 0 b ≠ 1) by (rewrite lead_next by done; repeat case_if; lia).
  cbn [decode_trace]. rewrite decode_eq by lia. by rewrite decode_lead.
Qed.

(** Reading an encoded character: only the last step accepts, with the value. *)
Lemma char_view_trace cp bs c0 :
  char_view cp bs →
  ∃ mid, decode_trace 0 c0 bs = mid ++ [(0, cp)] ∧ Forall (λ x, 2 ≤ fst x ≤ 8) mid.
Proof.
  intros H; inv H.
  - exists []. split; [|done]. cbn [decode_trace]. rewrite decode_eq by lia.
    pose proof (uchar_range b).
    assert (utf8_next 0 b = 0) as E by next_ranges. rewrite decode_lead by lia. rewrite E.
    cbn [app]. do 3 f_equal. unfold lead_bits. by destruct (Z.ltb_spec (uchar b) 0x80); [|lia].
  - destruct H0 as [H0 H1]. rewrite decode_trace_lead, lead_bits_of, lead_next by lia.
    destruct (Z.ltb_spec (uchar b0) 0xE0); [|lia].
    rewrite decode_trace_cont; try (unfold next_lo, next_hi; simpl; lia).
    eexists [_]. split; [done|]. apply Forall_singleton; simpl; lia.
  - destruct H0 as (H0 & H1 & H2 & H3 & H4).
    rewrite decode_trace_lead, lead_bits_of, lead_next by lia.
    destruct (Z.ltb_spec (uchar b0) 0xE0); [lia|]. destruct (Z.ltb_spec (uchar b0) 0xF0); [|lia].
    destruct (Z.eqb_spec (uchar b0) 0xE0); [|destruct (Z.eqb_spec (uchar b0) 0xED)];
      (do 2 (rewrite decode_trace_cont; try (unfold next_lo, next_hi, next_st; simpl; lia));
       eexists [_; _]; split; [done|]; constructor; [|apply Forall_singleton]; unfold next_st; simpl; lia).
  - destruct H0 as (H0 & H1 & H2 & H3 & H4 & H5).
    rewrite decode_trace_lead, lead_bits_of, lead_next by lia.
    destruct (Z.ltb_spec (uchar b0) 0xE0); [lia|]. destruct (Z.ltb_spec (uchar b0) 0xF0); [lia|].
    destruct (Z.eqb_spec (uchar b0) 0xE0); [lia|]. destruct (Z.eqb_spec (uchar b0) 0xED); [lia|].
    destruct (Z.eqb_spec (uchar b0) 0xF0); [|destruct (Z.ltb_spec (uchar b0) 0xF4)];
      (do 3 (rewrite decode_trace_cont; try (unfold next_lo, next_hi, next_st; simpl; lia));
       eexists [_; _; _]; split; [done|];
       constructor; [|constructor; [|apply Forall_singleton]]; unfold next_st; simpl; lia).
Qed.

Lemma decode_run_trace st cp s : decode_run st cp s = default (st, cp) (last (decode_trace st cp s)).
Proof.
  revert st cp; induction s as [|b s IH]; intros st cp; [done|].
  cbn [decode_run decode_trace]. destruct (decode st cp b) as [st' cp'] eqn:E.
  rewrite IH. cbn [fst snd]. rewrite last_cons. by destruct (last (decode_trace st' cp' s)).
Qed.

(** Decoding an encoded scalar value gives the value back. *)
Lemma encode_one_char cp : is_scalar cp → one_char (encode cp) cp.
Proof.
  intros Hs c0. destruct (char_view_trace _ _ c0 (scalar_char_view _ Hs)) as (mid & E & _).
  by rewrite decode_run_trace, E, last_snoc.
Qed.

Lemma countCodePoints_loop_app st cp n s t :
  countCodePoints_loop st cp n (s ++ t) =
  let z := Z.of_nat (length (List.filter (λ x, fst x =? 0) (decode_trace st cp s))) in
  let '(st', cp') := decode_run st cp s in countCodePoints_loop st' cp' (n + z) t.
Proof.
  revert st cp n; induction s as [|b s IH]; intros st cp n.
  { simpl. by rewrite Z.add_0_r. }
  cbn [app countCodePoints_loop decode_run decode_trace List.filter].
  destruct (decode st cp b) as [st' cp'] eqn:E. cbn [fst snd]. rewrite IH.
  destruct (st' =? 0); cbn [length]; destruct (decode_run st' cp' s); cbn zeta; f_equal; lia.
Qed.

Lemma countCodePoints_encode cps c0 n :
  Forall is_scalar cps →
  countCodePoints_loop 0 c0 n (encode_all cps) = (n + Z.of_nat (length cps), false).
Proof.
  intros H. revert c0 n. induction H as [|cp cps Hcp Hcps IH]; intros c0 n.
  { simpl. by rewrite Z.add_0_r. }
  change (encode_all (cp :: cps)) with (encode cp ++ encode_all cps).
  rewrite countCodePoints_loop_app. cbn zeta.
  destruct (char_view_trace _ _ c0 (scalar_char_view _ Hcp)) as (mid & E & Hm).
  rewrite (encode_one_char cp Hcp c0), E, List.filter_app.
  replace (List.filter _ mid) with (@nil (Z * Z)).
  - rewrite IH. simpl. f_equal; lia.
  - clear E. induction Hm as [|x mid Hx Hm IHm]; simpl; [done|].
    destruct (Z.eqb_spec (fst x) 0); [lia|done].
Qed.

Lemma partial_accept cp p : partial 0 cp p → p = [].
Proof.
  inversion 1 as [|b0 Hb Hst| | |]; [done|]. exfalso.
  rewrite lead_next in Hst by done. revert Hst. repeat case_if; lia.
Qed.

Lemma countCodePoints_sound st cp p s n m :
  partial st cp p → countCodePoints_loop st cp n s = (m, false) →
  ∃ cps, Forall is_scalar cps ∧ p ++ s = encode_all cps ∧ m = n + Z.of_nat (length cps).
Proof.
  revert st cp p n; induction s as [|b s IH]; intros st cp p n Hp.
  { simpl. intros [= <- Hst%negb_false_iff%Z.eqb_eq]. unfold UTF8_ACCEPT in Hst. subst.
    exists []. rewrite (partial_accept _ _ Hp). simpl. split_and!; [done|done|lia]. }
  cbn [countCodePoints_loop]. rewrite decode_eq by (apply partial_range in Hp; lia).
  destruct (partial_step st cp p b Hp) as [cp'|st' cp' Hst' Hp'|cp' Hv].
  - intros H. exfalso. revert H. clear. simpl. revert cp' n.
    induction s as [|c s IH]; intros cp' n; [simpl; done|].
    cbn [countCodePoints_loop]. rewrite decode_eq by lia. apply IH.
  - destruct (Z.eqb_spec st' 0); [lia|]. intros H.
    destruct (IH _ _ _ _ Hp' H) as (cps & Hc & E & Hm). exists cps.
    by rewrite <-app_assoc in E.
  - simpl. intros H. destruct (IH _ _ _ _ (part_none cp') H) as (cps & Hc & E & Hm).
    destruct (char_view_encode _ _ Hv) as [Hen Hsc].
    exists (cp' :: cps). split; [by constructor|]. split; [|simpl; lia].
    change (encode_all (cp' :: cps)) with (encode cp' ++ encode_all cps).
    rewrite Hen, <-app_assoc. by rewrite <-E.
Qed.

(** [countCodePoints] returns 0 exactly on well-formed UTF-8, and then
    the count is the number of encoded scalar values. *)
Theorem countCodePoints_spec s n :
  countCodePoints s = (n, false) ↔
  ∃ cps, Forall is_scalar cps ∧ s = encode_all cps ∧ n = Z.of_nat (length cps).
Proof.
  split.
  - intros H. apply (countCodePoints_sound 0 0 [] s 0 n (part_none 0) H).
  - intros (cps & Hc & -> & ->). by apply countCodePoints_encode.
Qed.

(** ** The debug printer

    The code points a text is made of, each when its last byte is read, and
    whether the text is not well-formed at the end. *)
Fixpoint printCodePoints_loop (state codep : Z) (s : cstring) : list Z * bool :=
  match s with
  | [] => ([], negb (state =? UTF8_ACCEPT))
  | c :: s' =>
      let '(state', codep') := decode state codep c in
      let '(l, bad) := printCodePoints_loop state' codep' s' in
      (if state' =? 0 then codep' :: l else l, bad)
  end.

(** The conversion [%04X] of a 32-bit number. *)
Definition hex_digit (d : Z) : byte := to_uchar (if d <? 10 then 48 + d else 55 + d).
Fixpoint hex (digits : nat) (n : Z) : cstring :=
  match digits with O => [] | S d => hex d (n / 16) ++ [hex_digit (n mod 16)] end.
Definition hex04 (n : Z) : cstring :=
  hex (if n <? 16 ^ 4 then 4 else if n <? 16 ^ 5 then 5 else if n <? 16 ^ 6 then 6 else if n <? 16 ^ 7 then 7 else 8) n.

(** The messages that [printCodePoints] logs. *)
Definition printCodePoints (s : cstring) : list cstring :=
  let '(l, bad) := printCodePoints_loop 0 0 s in
  map (λ cp, str "U+" ++ hex04 cp ++ [x0a]) l ++ (if bad : bool then [str "The string is not well-formed" ++ [x0a]] else []).

Lemma printCodePoints_loop_trace st cp s t :
  printCodePoints_loop st cp (s ++ t) =
  let '(st', cp') := decode_run st cp s in
  let '(l, bad) := printCodePoints_loop st' cp' t in
  (map snd (List.filter (λ x, fst x =? 0) (decode_trace st cp s)) ++ l, bad).
Proof.
  revert st cp. induction s as [|b s IH]; intros st cp.
  { cbn. by destruct (printCodePoints_loop st cp t). }
  cbn [app printCodePoints_loop decode_run decode_trace List.filter].
  destruct (decode st cp b) as [st' cp'] eqn:E. cbn [fst snd]. rewrite IH.
  destruct (decode_run st' cp' s) as [st2 cp2]. destruct (printCodePoints_loop st2 cp2 t). by destruct (st' =? 0).
Qed.

(** A well-formed text is printed as the code points that it encodes. *)
Theorem printCodePoints_encode cps :
  Forall is_scalar cps → printCodePoints (encode_all cps) = map (λ cp, str "U+" ++ hex04 cp ++ [x0a]) cps.
Proof.
  intros H. unfold printCodePoints. cut (∀ c0, printCodePoints_loop 0 c0 (encode_all cps) = (cps, false)).
  { intros ->. apply app_nil_r. }
  induction H as [|cp cps Hcp Hcps IH]; intros c0; [done|].
  change (encode_all (cp :: cps)) with (encode cp ++ encode_all cps). rewrite printCodePoints_loop_trace.
  destruct (char_view_trace _ _ c0 (scalar_char_view _ Hcp)) as (mid & E & Hm).
  rewrite (encode_one_char cp Hcp c0), E, IH, List.filter_app.
  replace (List.filter _ mid) with (@nil (Z * Z)); [done|].
  clear E. induction Hm as [|x mid Hx Hm IHm]; simpl; [done|]. destruct (Z.eqb_spec (fst x) 0); [lia|done].
Qed.

Example printCodePoints_euro :
  printCodePoints [xe2; x82; xac; x41; xc3] = [str "U+20AC" ++ [x0a]; str "U+0041" ++ [x0a]; str "The string is not well-formed" ++ [x0a]].
Proof. reflexivity. Qed.
