(* ===== verification/StrUtil.v ===== *)
(** * String utilities (server/strutil.c)

    The filters applied to nicknames, group names and message text, the format
    checker of user-supplied messages, case conversion, and the splitting of
    command lines and packets into words and fields. *)

From Stdlib Require Import ZArith Lia Wf_nat.
From S2P Require Import Config Prelude Utf8.

Local Open Scope Z_scope.

(** [strlen(s) == 0]. *)
Definition is_empty (s : cstring) : bool := match s with [] => true | _ :: _ => false end.

Definition OKGROUPCHARS : cstring := str "-.!'$+,/?_~".
Definition OKNICKCHARS : cstring := str "-.!'$+,/?_@".

(** ** Names *)

Definition filter_name_char (ok : cstring) (c : byte) : byte :=
  if is_upper c || is_lower c || is_digit c then c
  else if has_char ok c then c
  else if Byte.eqb c " " then "_"%byte else "?"%byte.

Definition filternickname (txt : cstring) : cstring := map (filter_name_char OKNICKCHARS) txt.
Definition filtergroupname (txt : cstring) : cstring := map (filter_name_char OKGROUPCHARS) txt.

Definition name_char (ok : cstring) (c : byte) : bool := is_alnum c || has_char ok c.

(** ** Message text *)

(** [*(s-k)] for a pointer [s] to index [i] of [src]. *)
Definition at_back (src : cstring) (i k : nat) : byte := default x00 (src !! (i - k)%nat).

(** The bytes copied for an accepted code point. *)
Definition filtertext_emit (src : cstring) (i : nat) (c : byte) (codepoint : Z) : cstring :=
  if (0x20 <=? codepoint) && (codepoint <=? 0x7F) then [c]
  else if (0x80 <=? codepoint) && (codepoint <=? 0x7FF) then [at_back src i 1; c]
  else if (0x800 <=? codepoint) && (codepoint <=? 0xFFFF) then
    [at_back src i 2; at_back src i 1; c]
  else if (0x10000 <=? codepoint) && (codepoint <=? 0x10FFFF) then
    [at_back src i 3; at_back src i 2; at_back src i 1; c]
  else [].

(** The scanning loop; [i] is [s - src], [out] what [dest] holds up to
    [offset].  [None] stands for exhausted fuel. *)
Fixpoint filtertext_loop (fuel : nat) (src : cstring) (len i : nat)
    (prevState curState codepoint : Z) (out : cstring) : option cstring :=
  match fuel with
  | O => None
  | S fuel' =>
      match src !! i with
      | None => Some out
      | Some c =>
          if (len <=? i)%nat then Some out
          else
            let '(cur, cp) := decode curState codepoint c in
            if cur =? UTF8_ACCEPT then
              filtertext_loop fuel' src len (S i) cur cur cp (out ++ filtertext_emit src i c cp)
            else if cur =? UTF8_REJECT then
              filtertext_loop fuel' src len
                (if negb (prevState =? UTF8_ACCEPT) then i else S i)
                UTF8_ACCEPT UTF8_ACCEPT cp (out ++ ["?"%byte])
            else filtertext_loop fuel' src len (S i) cur cur cp out
      end
  end.

Definition filtertext_out (src : cstring) (len : nat) : option cstring :=
  filtertext_loop (2 * length src + 2) src len 0 UTF8_ACCEPT UTF8_ACCEPT 0 [].

(** The destination buffer of [len] bytes after the call: zeroed, then written
    from its start. *)
Definition filtertext (src : cstring) (len : nat) : cstring :=
  let out := default [] (filtertext_out src len) in
  out ++ replicate (len - length out) x00.

(** A buffer read as a C string; [None] when no NUL is found in it, so that
    the reader runs past its end. *)
Fixpoint c_str (buf : list byte) : option cstring :=
  match buf with
  | [] => None
  | c :: buf' => if Byte.eqb c x00 then Some [] else cons c <$> c_str buf'
  end.

(** ** Format strings *)

(** [num_s] and [num_bad] of [filterfmt]. *)
Fixpoint fmt_counts (s : cstring) : Z * Z :=
  match s with
  | [] => (0, 0)
  | c :: s' =>
      if Byte.eqb c "%" then
        match s' with
        | [] => (0, 1)
        | d :: s'' =>
            let '(ns, nb) := fmt_counts s'' in
            if Byte.eqb d "s" then (ns + 1, nb)
            else if Byte.eqb d "%" then (ns, nb)
            else (ns, nb + 1)
        end
      else fmt_counts s'
  end.

Inductive fmt_error : Type :=
| FmtBad                    (* "Message can't include %d, %f and such..." *)
| FmtCount (wanted : Z).    (* "Message must contain (only) %d %%s..." *)

(** [filterfmt(newstr, &n)]: the message returned, if any, and [n] on return. *)
Definition filterfmt (newstr : cstring) (n : Z) : option fmt_error * Z :=
  let '(num_s, num_bad) := fmt_counts newstr in
  if 0 <? num_bad then (Some FmtBad, -1)
  else if negb (num_s =? n) then
    (Some (if n =? 0 then FmtBad else FmtCount n), num_s)
  else (None, n).

(** ** Case conversion *)

Definition lcase_char (c : byte) : byte :=
  if is_upper c then to_uchar (Z.lor (uchar c) 0x20) else c.
Definition ucase_char (c : byte) : byte :=
  if is_lower c then to_uchar (Z.lxor (uchar c) 0x20) else c.
Definition lcaseit (s : cstring) : cstring := map lcase_char s.
Definition ucaseit (s : cstring) : cstring := map ucase_char s.

(** ** Words *)

Definition is_blank (c : byte) : bool := Byte.eqb c " " || Byte.eqb c x09.

Definition WORD_SIZE : nat := 64.

(** The loop of [getword]: [n] is [w - word]. *)
Fixpoint getword_loop (s : cstring) (n : nat) : cstring :=
  match s with
  | [] => []
  | c :: s' => if negb (is_blank c) && (n <? WORD_SIZE)%nat then c :: getword_loop s' (S n) else []
  end.

Definition getword (s : cstring) : cstring := getword_loop s 0.

(** The index in the 64-byte [word] array at which the terminator is stored. *)
Definition getword_nul_index (s : cstring) : nat := length (getword s).

Fixpoint skip_word (s : cstring) : cstring :=
  match s with
  | c :: s' => if negb (is_blank c) then skip_word s' else s
  | [] => []
  end.

Fixpoint skip_blanks (s : cstring) : cstring :=
  match s with
  | c :: s' => if is_blank c then skip_blanks s' else s
  | [] => []
  end.

Definition get_tail (s : cstring) : cstring := skip_blanks (skip_word s).

(** ** Fields of a packet *)

(** The text up to the next [^A], and what follows the delimiter if there is
    one: the inner [while] of [split]. *)
Fixpoint next_field (s : cstring) : cstring * option cstring :=
  match s with
  | [] => ([], None)
  | c :: s' =>
      if Byte.eqb c x01 then ([], Some s')
      else let '(f, r) := next_field s' in (c :: f, r)
  end.

(** The loop of [split] from [i] fields already delimited: the fields written
    from index [i] on, and the value returned. *)
Fixpoint split_loop (fuel i : nat) (s : cstring) : list cstring * nat :=
  match fuel with
  | O => ([], i)
  | S fuel' =>
      let '(f, r) := next_field s in
      if (MAX_FIELDS <? S i)%nat then ([s], MAX_FIELDS)
      else
        match r with
        | Some rest => let '(fs, n) := split_loop fuel' (S i) rest in (f :: fs, n)
        | None => ([f], S i)
        end
  end.

(** [split(s)]: the entries of [fields] it writes, from [fields[0]] on, and the
    number it returns. *)
Definition split (s : cstring) : list cstring * nat := split_loop (S MAX_FIELDS) 0 s.

(** ** Properties of names *)

Section filter_name.
Context (ok : cstring).
Hypothesis ok_underscore : has_char ok "_" = true.
Hypothesis ok_question : has_char ok "?" = true.

Lemma filter_name_char_ok c : name_char ok (filter_name_char ok c) = true.
Proof.
  unfold filter_name_char, name_char, is_alnum.
  destruct (is_upper c || is_lower c || is_digit c) eqn:Ea; [by rewrite Ea|].
  destruct (has_char ok c) eqn:Eo; [by rewrite Eo, orb_true_r|].
  case_if; rewrite ?ok_underscore, ?ok_question; apply orb_true_r.
Qed.

Lemma filter_name_char_id c : name_char ok c = true → filter_name_char ok c = c.
Proof.
  unfold filter_name_char, name_char, is_alnum. intros H.
  destruct (is_upper c || is_lower c || is_digit c); [done|]. simpl in H. by rewrite H.
Qed.

Lemma filter_name_spec txt :
  length (map (filter_name_char ok) txt) = length txt ∧
  Forall (λ c, name_char ok c = true) (map (filter_name_char ok) txt) ∧
  (Forall (λ c, name_char ok c = true) txt → map (filter_name_char ok) txt = txt).
Proof.
  split; [apply length_map|]. split.
  - induction txt; simpl; constructor; auto using filter_name_char_ok.
  - induction 1; simpl; [done|]. f_equal; auto using filter_name_char_id.
Qed.
End filter_name.

(** Filtering a name keeps its length, leaves only characters allowed in
    names, and does not change an allowed name. *)
Theorem filter_names_correct txt :
  (length (filternickname txt) = length txt ∧
   Forall (λ c, name_char OKNICKCHARS c = true) (filternickname txt) ∧
   (Forall (λ c, name_char OKNICKCHARS c = true) txt → filternickname txt = txt)) ∧
  (length (filtergroupname txt) = length txt ∧
   Forall (λ c, name_char OKGROUPCHARS c = true) (filtergroupname txt) ∧
   (Forall (λ c, name_char OKGROUPCHARS c = true) txt → filtergroupname txt = txt)).
Proof. split; by apply filter_name_spec. Qed.

(** ** Properties of case conversion *)

Lemma lcaseit_casefold s : lcaseit s = casefold s.
Proof. unfold lcaseit, casefold. apply map_ext. intros c. all_bytes c. Qed.

Lemma casefold_ucaseit s : casefold (ucaseit s) = casefold s.
Proof. unfold ucaseit, casefold. rewrite map_map. apply map_ext. intros c. all_bytes c. Qed.

Lemma ucaseit_casefold s : ucaseit (casefold s) = ucaseit s.
Proof. unfold ucaseit, casefold. rewrite map_map. apply map_ext. intros c. all_bytes c. Qed.

(** Two strings have the same upper-cased form exactly when they compare
    equal without regard to case, and upper-casing keeps the comparison. *)
Theorem ucaseit_key a b :
  (ucaseit a = ucaseit b ↔ strcaseeq a b = true) ∧ strcaseeq (ucaseit a) a = true ∧
  length (ucaseit a) = length a.
Proof.
  rewrite !strcaseeq_casefold. split; [|split; [apply casefold_ucaseit|apply length_map]].
  split; intros H.
  - by rewrite <-(casefold_ucaseit a), H, casefold_ucaseit.
  - by rewrite <-(ucaseit_casefold a), H, ucaseit_casefold.
Qed.

(** ** Properties of words *)

Lemma getword_loop_take s n : (n ≤ WORD_SIZE)%nat →
  ∃ rest, s = getword_loop s n ++ rest ∧ Forall (λ c, is_blank c = false) (getword_loop s n) ∧
    (n + length (getword_loop s n) ≤ WORD_SIZE)%nat ∧
    ((n + length (getword_loop s n) < WORD_SIZE)%nat →
     match rest with [] => True | c :: _ => is_blank c = true end).
Proof.
  revert n; induction s as [|c s IH]; intros n Hn; simpl.
  { exists []. repeat split; [constructor|lia]. }
  destruct (is_blank c) eqn:Ec; simpl.
  { exists (c :: s). repeat split; [constructor|lia|done]. }
  destruct (Nat.ltb_spec n WORD_SIZE); simpl.
  - destruct (IH (S n)) as (rest & E & HF & Hl & Hm); [lia|].
    exists rest. split; [by f_equal|]. split; [by constructor|]. split; [lia|].
    intros. apply Hm. lia.
  - exists (c :: s). repeat split; [constructor|lia|lia].
Qed.

Lemma skip_word_spec s :
  ∃ w, s = w ++ skip_word s ∧ Forall (λ c, is_blank c = false) w ∧
    match skip_word s with [] => True | c :: _ => is_blank c = true end.
Proof.
  induction s as [|c s (w & E & HF & Hm)]; simpl; [by exists []|].
  destruct (is_blank c) eqn:Ec; simpl; [by exists []; rewrite Ec|].
  exists (c :: w). split; [simpl; by f_equal|]. split; [by constructor|done].
Qed.

Lemma skip_blanks_spec s :
  ∃ w, s = w ++ skip_blanks s ∧ Forall (λ c, is_blank c = true) w ∧
    match skip_blanks s with [] => True | c :: _ => is_blank c = false end.
Proof.
  induction s as [|c s (w & E & HF & Hm)]; simpl; [by exists []|].
  destruct (is_blank c) eqn:Ec; simpl; [|by exists []; rewrite Ec].
  exists (c :: w). split; [simpl; by f_equal|]. split; [by constructor|done].
Qed.

Lemma getword_prefix w t n :
  Forall (λ c, is_blank c = false) w →
  match t with [] => True | c :: _ => is_blank c = true end →
  (n ≤ WORD_SIZE)%nat → getword_loop (w ++ t) n = take (WORD_SIZE - n) w.
Proof.
  intros Hw Ht. revert n. induction Hw as [|c w Hc Hw IH]; intros n Hn.
  { rewrite take_nil. destruct t as [|c t]; [done|]. simpl. by rewrite Ht. }
  cbn [app getword_loop]. rewrite Hc. cbn [negb andb].
  destruct (Nat.ltb_spec n WORD_SIZE) as [Hlt|Hge].
  - rewrite IH by lia. by replace (WORD_SIZE - n)%nat with (S (WORD_SIZE - S n)) by lia.
  - by replace (WORD_SIZE - n)%nat with 0%nat by lia.
Qed.

Lemma line_decompose s :
  ∃ word blanks, s = word ++ blanks ++ get_tail s ∧
    Forall (λ c, is_blank c = false) word ∧ Forall (λ c, is_blank c = true) blanks ∧
    match blanks ++ get_tail s with [] => True | c :: _ => is_blank c = true end ∧
    match get_tail s with [] => True | c :: _ => is_blank c = false end.
Proof.
  destruct (skip_word_spec s) as (w & Ew & Hw & Hwm).
  destruct (skip_blanks_spec (skip_word s)) as (bl & Eb & Hb & Hbm). fold (get_tail s) in *.
  exists w, bl. rewrite <-Eb. done.
Qed.

Lemma get_tail_shorter s : s ≠ [] → (length (get_tail s) < length s)%nat.
Proof.
  intros Hne. destruct (line_decompose s) as (w & bl & E & _ & Hb & Hm & Ht).
  pose proof (f_equal length E) as El. rewrite !length_app in El.
  destruct w as [|x w]; [|simpl in El; lia]. destruct bl as [|y bl]; [|simpl in El; lia].
  simpl in E, Hm. destruct (get_tail s); [done|congruence].
Qed.

(** [getword] and [get_tail] decompose a line: the first word, blanks,
    and the tail; [getword] is the first word cut to the 64 bytes of its
    buffer, the tail does not start with a blank, and scanning a line with
    [get_tail] makes progress. *)
Theorem getword_get_tail s :
  ∃ word blanks, s = word ++ blanks ++ get_tail s ∧
    Forall (λ c, is_blank c = false) word ∧ Forall (λ c, is_blank c = true) blanks ∧
    getword s = take WORD_SIZE word ∧
    match get_tail s with [] => True | c :: _ => is_blank c = false end ∧
    (s ≠ [] → (length (get_tail s) < length s)%nat).
Proof.
  destruct (line_decompose s) as (w & bl & E & Hw & Hb & Hm & Ht).
  exists w, bl. split_and!; try done; [|apply get_tail_shorter].
  rewrite E at 1. unfold getword. by rewrite getword_prefix by (done || lia).
Qed.

(** [getword] stores its terminator one byte past the end of [word]
    exactly when the first word has 64 bytes or more. *)
Theorem getword_overflow s w t :
  s = w ++ t → Forall (λ c, is_blank c = false) w →
  match t with [] => True | c :: _ => is_blank c = true end →
  getword_nul_index s = WORD_SIZE ↔ (WORD_SIZE ≤ length w)%nat.
Proof.
  intros -> Hw Ht. unfold getword_nul_index, getword. rewrite getword_prefix by (done || lia).
  rewrite length_take. lia.
Qed.

(** ** Properties of packet fields *)

(** The text of a packet with the given fields. *)
Fixpoint join (fs : list cstring) : cstring :=
  match fs with
  | [] => []
  | [f] => f
  | f :: fs' => f ++ x01 :: join fs'
  end.

Definition no_sep (f : cstring) : Prop := x01 ∉ f.
#[global] Instance no_sep_dec f : Decision (no_sep f).
Proof. unfold no_sep. apply _. Defined.
Definition num_seps (s : cstring) : nat := length (filter (λ c, c = x01) s).

Lemma next_field_end f : no_sep f → next_field f = (f, None).
Proof.
  unfold no_sep. induction f as [|c f IH]; simpl; [done|]. intros [Hc Hf]%not_elem_of_cons.
  destruct (Byte.eqb c x01) eqn:E; [apply Byte.byte_dec_bl in E; congruence|]. by rewrite IH.
Qed.

Lemma next_field_sep f r : no_sep f → next_field (f ++ x01 :: r) = (f, Some r).
Proof.
  unfold no_sep. induction f as [|c f IH]; simpl; [done|]. intros [Hc Hf]%not_elem_of_cons.
  destruct (Byte.eqb c x01) eqn:E; [apply Byte.byte_dec_bl in E; congruence|]. by rewrite IH.
Qed.

Lemma next_field_seps s :
  num_seps s = match (next_field s).2 with None => 0%nat | Some r => S (num_seps r) end.
Proof.
  unfold num_seps. induction s as [|c s IH]; [done|]. cbn [next_field].
  rewrite filter_cons. destruct (decide (c = x01)) as [->|Hc]; [done|].
  destruct (Byte.eqb c x01) eqn:E; [apply Byte.byte_dec_bl in E; congruence|].
  rewrite IH. by destruct (next_field s) as [? [?|]].
Qed.

Lemma split_loop_join fs fuel i :
  Forall no_sep fs → fs ≠ [] → (i + length fs ≤ MAX_FIELDS)%nat → (length fs ≤ fuel)%nat →
  split_loop fuel i (join fs) = (fs, i + length fs)%nat.
Proof.
  intros HF. revert fuel i. induction HF as [|f fs Hf HF IH]; intros fuel i Hne Hi Hfuel; [done|].
  simpl in Hi, Hfuel. destruct fuel as [|fuel]; [lia|]. cbn [split_loop].
  destruct fs as [|g fs].
  - cbn [join]. rewrite next_field_end by done.
    destruct (Nat.ltb_spec MAX_FIELDS (S i)); [simpl in *; lia|]. simpl. f_equal. lia.
  - change (join (f :: g :: fs)) with (f ++ x01 :: join (g :: fs)).
    rewrite next_field_sep by done.
    destruct (Nat.ltb_spec MAX_FIELDS (S i)); [simpl in *; lia|].
    rewrite IH by (done || simpl in *; lia). simpl. f_equal. lia.
Qed.

Lemma split_loop_counts fuel i s : (i + fuel = S MAX_FIELDS)%nat → (0 < fuel)%nat →
  length (split_loop fuel i s).1 = (fuel `min` S (num_seps s))%nat ∧
  (split_loop fuel i s).2 = (MAX_FIELDS `min` (i + S (num_seps s)))%nat.
Proof.
  revert i s. induction fuel as [|fuel IH]; intros i s Hi Hf; [lia|].
  cbn [split_loop]. rewrite (next_field_seps s). destruct (next_field s) as [f r] eqn:En. cbn [snd].
  destruct (Nat.ltb_spec MAX_FIELDS (S i)); [cbn [fst snd length]; lia|].
  destruct r as [r|]; [|cbn [fst snd length]; lia].
  destruct (IH (S i) r) as [H1 H2]; [lia|lia|].
  destruct (split_loop fuel (S i) r) as [fs n]. cbn [fst snd length] in *. lia.
Qed.

(** A packet of up to [MAX_FIELDS] fields is split into exactly its fields. *)
Theorem split_join fs :
  Forall no_sep fs → (1 ≤ length fs ≤ MAX_FIELDS)%nat → split (join fs) = (fs, length fs).
Proof.
  intros HF Hl. unfold split. rewrite split_loop_join; try done; try lia. by intros ->; simpl in Hl; lia.
Qed.

Lemma split_join_witness :
  split (join [str "bob"; []; str "hi there"]) = ([str "bob"; []; str "hi there"], 3%nat).
Proof.
  apply (split_join [str "bob"; []; str "hi there"]); [|vm_compute; lia].
  by apply (bool_decide_unpack (Forall no_sep _)).
Defined.

(** [split] never returns more than [MAX_FIELDS], but on a packet with
    [MAX_FIELDS] separators or more it stores one pointer past the end of the
    array [fields]. *)
Theorem split_bounds s :
  (split s).2 = (MAX_FIELDS `min` S (num_seps s))%nat ∧
  length (split s).1 = (S MAX_FIELDS `min` S (num_seps s))%nat ∧
  ((MAX_FIELDS < length (split s).1)%nat ↔ (MAX_FIELDS ≤ num_seps s)%nat).
Proof.
  unfold split. destruct (split_loop_counts (S MAX_FIELDS) 0 s) as [H1 H2]; [lia|lia|].
  rewrite H1, H2. lia.
Qed.

(** ** Properties of message text *)

(** The bytes emitted for a character are those it was read from. *)
Lemma filtertext_emit_view pre p b rest cp :
  char_view cp (p ++ [b]) →
  filtertext_emit (pre ++ (p ++ [b]) ++ rest) (length pre + length p) b cp =
  if 0x20 <=? cp then p ++ [b] else [].
Proof.
  remember (p ++ [b]) as bs eqn:E. intros H.
  assert (∀ k x, (k ≤ length p)%nat → bs !! (length p - k)%nat = Some x →
    at_back (pre ++ bs ++ rest) (length pre + length p) k = x) as Hb.
  { intros k x Hk Hx. unfold at_back.
    rewrite lookup_app_r by lia.
    replace (length pre + length p - k - length pre)%nat with (length p - k)%nat by lia.
    by rewrite (lookup_app_l_Some _ _ _ _ Hx). }
  unfold filtertext_emit.
  destruct H as [b0 H|b0 b1 H|b0 b1 b2 H|b0 b1 b2 b3 H]; unfold cp1, cp2, cp3, cp4, wf2, wf3, wf4 in *;
    [pose proof (uchar_range b0)|..];
    destruct p as [|x0 [|x1 [|x2 [|x3 [|x4 p]]]]]; simplify_eq/=;
    repeat match goal with
    | |- context [at_back _ _ ?k] => erewrite (Hb k) by (reflexivity || lia)
    | |- context [?a <=? ?c] => destruct (Z.leb_spec a c); simpl; try lia
    end; try done.
Qed.

(** Text as [filtertext] produces it: well-formed UTF-8 without control
    characters. *)
Definition printable (cp : Z) : Prop := is_scalar cp ∧ 0x20 ≤ cp.
Definition clean_text (s : cstring) : Prop := ∃ cps, s = encode_all cps ∧ Forall printable cps.

Lemma encode_all_snoc cps cp : encode_all (cps ++ [cp]) = encode_all cps ++ encode cp.
Proof. unfold encode_all. rewrite map_app, concat_app. simpl. by rewrite app_nil_r. Qed.

Lemma clean_text_snoc s cp : clean_text s → printable cp → clean_text (s ++ encode cp).
Proof.
  intros (cps & -> & H) Hc. exists (cps ++ [cp]). split; [by rewrite encode_all_snoc|].
  apply Forall_app_2; [done|by constructor].
Qed.

Lemma clean_text_emit out pre p b rest cp :
  clean_text out → char_view cp (p ++ [b]) →
  clean_text (out ++ filtertext_emit (pre ++ (p ++ [b]) ++ rest) (length pre + length p) b cp) ∧
  (length (filtertext_emit (pre ++ (p ++ [b]) ++ rest) (length pre + length p) b cp) ≤ S (length p))%nat.
Proof.
  intros Ho Hv. rewrite filtertext_emit_view by done.
  destruct (char_view_encode _ _ Hv) as [He Hs].
  destruct (Z.leb_spec 0x20 cp); [|rewrite app_nil_r; split; [done|simpl; lia]].
  split; [rewrite <-He; by apply clean_text_snoc|rewrite length_app; simpl; lia].
Qed.

(** The state of the scan: [pre] consumed, [p] the bytes of the character being
    read, [rest] not yet read. *)
Lemma filtertext_loop_inv fuel pre p rest len st cp out :
  partial st cp p → clean_text out → (length out ≤ length pre)%nat →
  (length pre + length p ≤ len)%nat → (2 * length rest + length p < fuel)%nat →
  ∃ r, filtertext_loop fuel (pre ++ p ++ rest) len (length pre + length p) st st cp out = Some r ∧
    clean_text r ∧ (length r ≤ len `min` length (pre ++ p ++ rest))%nat.
Proof.
  revert pre p rest st cp out. induction fuel as [|fuel IH]; intros pre p rest st cp out Hp Ho Hl Hlen Hf;
    [lia|].
  pose proof (partial_range _ _ _ Hp) as (Hst & Hst1 & Hp3).
  cbn [filtertext_loop].
  rewrite lookup_app_r, lookup_app_r by lia.
  replace (length pre + length p - length pre - length p)%nat with 0%nat by lia.
  destruct rest as [|b rest]; cbn [lookup list_lookup].
  { exists out. split; [done|]. split; [done|]. rewrite !length_app. simpl. lia. }
  destruct (Nat.leb_spec len (length pre + length p)) as [Hge|Hlt].
  { exists out. split; [done|]. split; [done|]. rewrite !length_app. simpl. lia. }
  rewrite decode_eq by done. simpl in Hf.
  assert (pre ++ p ++ b :: rest = pre ++ (p ++ [b]) ++ rest) as Esrc by by rewrite <-app_assoc.
  destruct (partial_step st cp p b Hp) as [cp'|st' cp' Hst' Hp'|cp' Hv].
  - (* rejected *)
    change (1 =? UTF8_ACCEPT) with false; change (1 =? UTF8_REJECT) with true; cbn iota.
    assert (clean_text (out ++ ["?"%byte])) by (apply (clean_text_snoc _ 0x3f); [done|unfold printable, is_scalar; lia]).
    destruct (decide (st = 0)) as [->|Hne].
    + apply partial_accept in Hp as ->. change (negb (0 =? UTF8_ACCEPT)) with false; cbn iota.
      rewrite !app_nil_l, (cons_middle b pre rest), app_assoc.
      destruct (IH (pre ++ [b]) [] rest 0 cp' (out ++ ["?"%byte])) as (r & Hr & Hr2);
        [constructor|done|rewrite !length_app; simpl; lia|rewrite length_app; simpl in *; lia|simpl in *; lia|].
      exists r. rewrite length_app in Hr. simpl in Hr |- *.
      replace (S (length pre + 0)) with (length pre + 1 + 0)%nat by lia. done.
    + destruct (Z.eqb_spec st UTF8_ACCEPT); [done|]. cbn [negb]; cbn iota.
      assert (p ≠ []) as Hpne by (intros ->; inv Hp; done).
      assert (0 < length p)%nat by (by destruct p; simpl; [|lia]).
      rewrite app_assoc.
      destruct (IH (pre ++ p) [] (b :: rest) 0 cp' (out ++ ["?"%byte])) as (r & Hr & Hr2);
        [constructor|done|rewrite !length_app; simpl; lia|rewrite length_app; simpl in *; lia|simpl in *; lia|].
      exists r. rewrite length_app in Hr. simpl in Hr. rewrite Nat.add_0_r in Hr. done.
  - (* inside a character *)
    destruct (Z.eqb_spec st' UTF8_ACCEPT) as [E|_]; [unfold UTF8_ACCEPT in *; lia|].
    destruct (Z.eqb_spec st' UTF8_REJECT) as [E|_]; [unfold UTF8_REJECT in *; lia|].
    rewrite Esrc.
    destruct (IH pre (p ++ [b]) rest st' cp' out) as (r & Hr & Hr2);
      [done|done|done|rewrite length_app; simpl; lia|rewrite length_app; simpl; lia|].
    exists r. rewrite length_app in Hr. simpl in Hr.
    replace (S (length pre + length p)) with (length pre + (length p + 1))%nat by lia. done.
  - (* a character completed *)
    change (0 =? UTF8_ACCEPT) with true; cbn iota. rewrite Esrc.
    destruct (clean_text_emit out pre p b rest cp' Ho Hv) as [Hc He].
    set (em := filtertext_emit _ _ _ _) in *. rewrite app_assoc.
    destruct (IH (pre ++ (p ++ [b])) [] rest 0 cp' (out ++ em)) as (r & Hr & Hr2);
      [constructor|done|rewrite !length_app; simpl; lia|rewrite !length_app; simpl; lia|simpl; lia|].
    exists r. rewrite !length_app in Hr. simpl in Hr.
    replace (S (length pre + length p)) with (length pre + (length p + 1) + 0)%nat by lia. done.
Qed.

Lemma filtertext_total src len :
  ∃ out, filtertext_out src len = Some out ∧ clean_text out ∧ (length out ≤ len `min` length src)%nat.
Proof.
  apply (filtertext_loop_inv _ [] [] src); [constructor|by exists []|simpl; lia..].
Qed.

(** Clean text has no control characters. *)
Lemma clean_text_byte out x : clean_text out → x ∈ out → 0x20 ≤ uchar x.
Proof.
  intros (cps & -> & HF). unfold encode_all.
  induction HF as [|cp cps [Hs Hcp] HF IH]; simpl; [by intros ?%not_elem_of_nil|].
  rewrite elem_of_app. intros [Hin|Hin]; [|by apply IH]. revert Hin. clear IH HF.
  pose proof (scalar_char_view _ Hs) as Hv. remember (encode cp) as bs. clear Heqbs Hs.
  destruct Hv as [b H|b0 b1 H|b0 b1 b2 H|b0 b1 b2 b3 H]; unfold cp1, wf2, wf3, wf4 in *;
    rewrite !elem_of_cons, elem_of_nil; intros Hin;
    repeat (destruct Hin as [->|Hin]; [lia|]); done.
Qed.

Lemma clean_text_no_nul out : clean_text out → x00 ∉ out.
Proof. intros Hc Hin. apply (clean_text_byte _ _ Hc) in Hin. by vm_compute in Hin. Qed.

(** The scan of [filtertext] ends, writes at most [min(len, strlen(src))]
    bytes, so it stays inside [dest], and what it writes is well-formed UTF-8
    without control characters: a filtered message contains no field separator. *)
Theorem filtertext_clean src len :
  ∃ out, filtertext_out src len = Some out ∧ clean_text out ∧
    (length out ≤ len `min` length src)%nat ∧ length (filtertext src len) = len ∧ no_sep out.
Proof.
  destruct (filtertext_total src len) as (out & E & Hc & Hl). exists out. split_and!; try done.
  - unfold filtertext. rewrite E. simpl. rewrite length_app, length_replicate. lia.
  - intros Hin. apply (clean_text_byte _ _ Hc) in Hin. by vm_compute in Hin.
Qed.

(** One whole character of the input: [mid] the steps before the last. *)
Lemma filtertext_loop_char src len cp mid bs fuel i st c0 out b :
  decode_trace st c0 (bs ++ [b]) = mid ++ [(0, cp)] → Forall (λ x, 2 ≤ fst x ≤ 8) mid →
  (∀ k, (k < length (bs ++ [b]))%nat → src !! (i + k)%nat = (bs ++ [b]) !! k) →
  (i + length bs < len)%nat →
  filtertext_loop (length bs + S fuel) src len i st st c0 out =
  filtertext_loop fuel src len (i + S (length bs)) 0 0 cp
    (out ++ filtertext_emit src (i + length bs) b cp).
Proof.
  revert mid i st c0. induction bs as [|x bs IH]; intros mid i st c0 Htr Hmid Hsrc Hlen.
  - pose proof (Hsrc 0%nat ltac:(simpl; lia)) as Hb. cbn in Hb, Hlen. rewrite Nat.add_0_r in Hb, Hlen.
    cbn [app length Nat.add filtertext_loop decode_trace] in *. rewrite Nat.add_0_r.
    rewrite Hb. destruct (Nat.leb_spec len i); [lia|].
    destruct mid as [|m [|m' mid]]; [|discriminate Htr..].
    assert (decode st c0 b = (0, cp)) as -> by by apply (f_equal (default (0, 0) ∘ head)) in Htr.
    simpl. by replace (i + 1)%nat with (S i) by lia.
  - pose proof (Hsrc 0%nat ltac:(simpl; lia)) as Hb. simpl in Hb. rewrite Nat.add_0_r in Hb.
    cbn [app length Nat.add filtertext_loop] in *. rewrite Hb. destruct (Nat.leb_spec len i); [lia|].
    cbn [decode_trace] in Htr. destruct mid as [|m mid].
    { exfalso. injection Htr as _ Htr. by destruct bs. }
    inv Hmid. destruct (decode st c0 x) as [st' c'] eqn:E. injection Htr as <- Htr. simpl in *.
    destruct (Z.eqb_spec st' UTF8_ACCEPT) as [E'|_]; [unfold UTF8_ACCEPT in *; lia|].
    destruct (Z.eqb_spec st' UTF8_REJECT) as [E'|_]; [unfold UTF8_REJECT in *; lia|].
    rewrite (IH mid (S i) st' c'); [|done|done| |lia].
    + by replace (S i + S (length bs))%nat with (i + S (S (length bs)))%nat by lia;
        replace (S i + length bs)%nat with (i + S (length bs))%nat by lia.
    + intros k Hk. specialize (Hsrc (S k) ltac:(simpl; lia)).
      by replace (S i + k)%nat with (i + S k)%nat by lia.
Qed.

Lemma filtertext_loop_encode cps pre len fuel c0 out :
  Forall printable cps → (length pre + length (encode_all cps) ≤ len)%nat →
  (length (encode_all cps) < fuel)%nat →
  filtertext_loop fuel (pre ++ encode_all cps) len (length pre) 0 0 c0 out = Some (out ++ encode_all cps).
Proof.
  intros HF. revert pre fuel c0 out. induction HF as [|cp cps [Hs Hcp] HF IH]; intros pre fuel c0 out Hl Hfu.
  { destruct fuel; simpl in *; [lia|]. by rewrite app_nil_r, lookup_ge_None_2, app_nil_r by lia. }
  change (encode_all (cp :: cps)) with (encode cp ++ encode_all cps) in *.
  pose proof (scalar_char_view _ Hs) as Hv.
  destruct (char_view_trace _ _ c0 Hv) as (mid & Etr & Hm).
  remember (encode cp) as bs0 eqn:Ebs0.
  destruct bs0 as [|b bs _] using rev_ind; [inv Hv|].
  rewrite !length_app in Hl, Hfu. simpl in Hl, Hfu.
  replace fuel with (length bs + S (fuel - S (length bs)))%nat by lia.
  erewrite filtertext_loop_char; [|done|done| |lia].
  2:{ intros k Hk. rewrite lookup_app_r by lia. replace (length pre + k - length pre)%nat with k by lia.
      rewrite lookup_app_l by done. done. }
  rewrite filtertext_emit_view by done. destruct (Z.leb_spec 0x20 cp); [|lia].
  specialize (IH (pre ++ (bs ++ [b])) (fuel - S (length bs))%nat cp (out ++ (bs ++ [b]))).
  rewrite !length_app in IH. simpl in IH. rewrite <-!app_assoc in *. simpl in *.
  replace (length bs + 1)%nat with (S (length bs)) in IH by lia. apply IH; lia.
Qed.

Lemma filtertext_same src len :
  clean_text src → (length src ≤ len)%nat → filtertext_out src len = Some src.
Proof.
  intros (cps & -> & HF) Hl. unfold filtertext_out.
  by rewrite (filtertext_loop_encode cps [] len) by (done || simpl; lia).
Qed.

(** Text that is already clean and fits in the buffer is copied unchanged. *)
Theorem filtertext_identity src len :
  clean_text src → (length src ≤ len)%nat → filtertext_out src len = Some src.
Proof. apply filtertext_same. Qed.

Lemma filtertext_identity_witness :
  filtertext_out (encode_all [0x68; 0xe9; 0x20ac; 0x1f600]) 12 =
  Some (encode_all [0x68; 0xe9; 0x20ac; 0x1f600]).
Proof.
  apply filtertext_identity; [|vm_compute; lia].
  eexists; split; [reflexivity|]. unfold printable, is_scalar. repeat constructor; lia.
Defined.

Lemma c_str_app s n : x00 ∉ s → c_str (s ++ replicate n x00) = if (n =? 0)%nat then None else Some s.
Proof.
  induction s as [|c s IH]; intros Hs; simpl.
  - by destruct n.
  - apply not_elem_of_cons in Hs as [Hc Hs].
    destruct (Byte.eqb c x00) eqn:E; [apply Byte.byte_dec_bl in E; congruence|].
    rewrite IH by done. by destruct n.
Qed.

(** Clean text of at least the size of the buffer fills it without a
    terminating NUL, and reading the buffer as a string runs past its end;
    with one byte to spare the buffer holds the text as a string. *)
Theorem filtertext_termination src len :
  clean_text src → x00 ∉ src → (length src ≤ len)%nat →
  c_str (filtertext src len) = if (length src =? len)%nat then None else Some src.
Proof.
  intros (cps & -> & HF) H0 Hl. unfold filtertext, filtertext_out.
  rewrite (filtertext_loop_encode cps [] len) by (done || simpl; lia). simpl.
  rewrite c_str_app by done.
  destruct (Nat.eqb_spec (length (encode_all cps)) len), (Nat.eqb_spec (len - length (encode_all cps)) 0);
    (done || lia).
Qed.

Lemma filtertext_termination_witness :
  c_str (filtertext (str "hello") 5) = None ∧ c_str (filtertext (str "hello") 6) = Some (str "hello").
Proof.
  assert (clean_text (str "hello")) as Hc.
  { exists [0x68; 0x65; 0x6c; 0x6c; 0x6f]. split; [reflexivity|].
    unfold printable, is_scalar. repeat constructor; lia. }
  assert (x00 ∉ str "hello") as H0 by (by apply (bool_decide_unpack _)).
  split.
  - exact (filtertext_termination (str "hello") 5 Hc H0 ltac:(simpl; lia)).
  - exact (filtertext_termination (str "hello") 6 Hc H0 ltac:(simpl; lia)).
Defined.

(** ** Properties of format strings *)

(** [printf] with a format of [%s] and [%%] conversions only: the text and the
    arguments left over; [None] where the call is undefined or the conversion
    is another one. *)
Fixpoint sprintf_s (fmt : cstring) (args : list cstring) : option (cstring * list cstring) :=
  match fmt with
  | [] => Some ([], args)
  | c :: fmt' =>
      if Byte.eqb c "%" then
        match fmt' with
        | [] => None
        | d :: fmt'' =>
            if Byte.eqb d "s" then
              match args with
              | [] => None
              | a :: args' => prod_map (app a) id <$> sprintf_s fmt'' args'
              end
            else if Byte.eqb d "%" then prod_map (cons c) id <$> sprintf_s fmt'' args
            else None
        end
      else prod_map (cons c) id <$> sprintf_s fmt' args
  end.

Lemma fmt_counts_nonneg s : 0 ≤ (fmt_counts s).1 ∧ 0 ≤ (fmt_counts s).2.
Proof.
  induction s as [s IH] using (induction_ltof1 _ (@length byte)); unfold ltof in IH.
  destruct s as [|c [|d s]]; cbn [fmt_counts]; [simpl; lia|case_if; simpl; lia|].
  case_if; [|apply (IH (d :: s)); simpl; lia].
  specialize (IH s ltac:(simpl; lia)). destruct (fmt_counts s). repeat case_if; simpl in *; lia.
Qed.

Lemma sprintf_counts fmt args :
  (fmt_counts fmt).2 = 0 ∧ (fmt_counts fmt).1 ≤ Z.of_nat (length args) →
  ∃ out, sprintf_s fmt args = Some (out, drop (Z.to_nat (fmt_counts fmt).1) args).
Proof.
  revert args. induction fmt as [s IH] using (induction_ltof1 _ (@length byte)); unfold ltof in IH.
  intros args. destruct s as [|c [|d s]]; cbn [fmt_counts sprintf_s].
  - intros _. by exists [].
  - case_if; [simpl; lia|]. intros _. by eexists.
  - pose proof (fmt_counts_nonneg s) as Hnn. destruct (Byte.eqb c "%") eqn:Ec.
    + specialize (IH s ltac:(simpl; lia)). destruct (fmt_counts s) as [ns nb]. simpl in *.
      destruct (Byte.eqb d "s"); [|destruct (Byte.eqb d "%")]; simpl; intros [Hb Hn]; [| |lia].
      * destruct args as [|a args]; simpl in Hn; [lia|].
        destruct (IH args) as [out ->]; [lia|]. eexists. simpl.
        replace (Z.to_nat (ns + 1)) with (S (Z.to_nat ns)) by lia. reflexivity.
      * destruct (IH args) as [out ->]; [lia|]. eexists. reflexivity.
    + intros H. destruct (IH (d :: s) ltac:(simpl; lia) args H) as [out E].
      cbn [sprintf_s] in E. rewrite E. by eexists.
Qed.

Lemma sprintf_counts_inv fmt args r :
  sprintf_s fmt args = Some r →
  (fmt_counts fmt).2 = 0 ∧ Z.of_nat (length args) = (fmt_counts fmt).1 + Z.of_nat (length r.2).
Proof.
  revert args r. induction fmt as [s IH] using (induction_ltof1 _ (@length byte)); unfold ltof in IH.
  intros args r. destruct s as [|c [|d s]]; cbn [fmt_counts sprintf_s].
  - intros [= <-]. simpl. lia.
  - case_if; [done|]. intros [= <-]. simpl. lia.
  - destruct (Byte.eqb c "%") eqn:Ec.
    + specialize (IH s ltac:(simpl; lia)). destruct (fmt_counts s) as [ns nb]. simpl in *.
      destruct (Byte.eqb d "s"); [|destruct (Byte.eqb d "%")]; simpl; [| |done].
      * destruct args as [|a args]; [done|]. intros (r' & Hr & ->)%fmap_Some.
        apply IH in Hr. simpl. lia.
      * intros (r' & Hr & ->)%fmap_Some. apply IH in Hr. simpl. lia.
    + intros (r' & Hr & ->)%fmap_Some.
      destruct (IH (d :: s) ltac:(simpl; lia) args r' Hr) as [H1 H2]. simpl in *. done.
Qed.

(** [filterfmt] accepts a message for [n] arguments exactly when
    formatting it with any [n] strings is defined and uses all of them. *)
Theorem filterfmt_correct fmt n :
  (filterfmt fmt (Z.of_nat n)).1 = None ↔
  ∀ args, length args = n → ∃ out, sprintf_s fmt args = Some (out, []).
Proof.
  pose proof (fmt_counts_nonneg fmt) as Hnn.
  pose proof (sprintf_counts fmt) as Hs. pose proof (sprintf_counts_inv fmt) as Hi.
  unfold filterfmt. destruct (fmt_counts fmt) as [ns nb]. simpl in *. split.
  - destruct (Z.ltb_spec 0 nb); [done|]. destruct (Z.eqb_spec ns (Z.of_nat n)); [|done]. simpl.
    intros _ args Ha. destruct (Hs args) as [out E]; [lia|]. exists out. rewrite E.
    by rewrite drop_ge by lia.
  - intros H. destruct (H (replicate n [])) as [out E]; [apply length_replicate|].
    apply Hi in E as [E1 E2]. rewrite length_replicate in E2. simpl in E2.
    destruct (Z.ltb_spec 0 nb); [lia|]. by destruct (Z.eqb_spec ns (Z.of_nat n)); [|lia].
Qed.
