(* ===== verification/Wildmat.v ===== *)
(** * Wildcard matching (server/wildmat.c)

    [DoMatch] with its three results, on texts and patterns given as C strings.
    A pattern that ends inside a character class makes the C code read past the
    terminating NUL of the pattern; the model reports this as [OVERREAD].  The
    reference is a grammar of patterns and a matcher on the parsed tokens that
    backtracks without [ABORT]. *)

From Stdlib Require Import ZArith Lia Wf_nat.
From S2P Require Import Prelude.

Local Open Scope Z_scope.

(** ** The code *)

Inductive wresult : Type := WTRUE | WFALSE | ABORT | OVERREAD.
#[global] Instance wresult_eq_dec : EqDecision wresult.
Proof. solve_decision. Defined.

Definition NEGATE_CLASS : byte := "^".

(** The loop over the members of a character class: [p] is what follows the
    current position.  Returns [matched] and what follows the closing bracket,
    [None] there when the pattern ended first; no result when the loop itself
    reads past the end. *)
Fixpoint class_loop (p : cstring) (last : Z) (c : byte) (matched : bool)
    : option (bool * option cstring) :=
  match p with
  | [] => Some (matched, None)
  | d :: p' =>
      if Byte.eqb d "]" then Some (matched, Some p')
      else if Byte.eqb d "-" then
        match p' with
        | [] => None
        | hi :: p'' =>
            if Byte.eqb hi "]" then class_loop p' (schar d) c (matched || Byte.eqb c d)
            else class_loop p'' (schar hi) c
                   (matched || ((schar c <=? schar hi) && (last <=? schar c)))
        end
      else class_loop p' (schar d) c (matched || Byte.eqb c d)
  end.

(** The case ['['] up to the comparison with [reverse]: [p] follows the bracket. *)
Definition class_start (p : cstring) : bool * byte * cstring :=
  match p with
  | d :: p' => if Byte.eqb d NEGATE_CLASS then (true, d, p') else (false, "["%byte, p)
  | [] => (false, "["%byte, p)
  end.

Definition class_match (p : cstring) (c : byte) : option (bool * bool * option cstring) :=
  let '(reverse, cur, q) := class_start p in
  let '(matched, cur, q) :=
    match q with
    | d :: q' => if Byte.eqb d "]" || Byte.eqb d "-" then (Byte.eqb d c, d, q') else (false, cur, q)
    | [] => (false, cur, q)
    end in
  r ← class_loop q (schar cur) c matched; Some (reverse, r.1, r.2).

Fixpoint skip_stars (p : cstring) : cstring :=
  match p with
  | d :: p' => if Byte.eqb d "*" then skip_stars p' else p
  | [] => []
  end.

(** [while ( *text ) if ((matched = DoMatch(text++, p)) != FALSE) return matched;
    return ABORT;] *)
Fixpoint star_loop (rec : cstring → option wresult) (text : cstring) : option wresult :=
  match text with
  | [] => Some ABORT
  | _ :: t =>
      match rec text with
      | Some WFALSE => star_loop rec t
      | r => r
      end
  end.

Fixpoint DoMatch (fuel : nat) (text p : cstring) : option wresult :=
  match fuel with
  | O => None
  | S fuel =>
      match p with
      | [] => Some (match text with [] => WTRUE | _ => WFALSE end)
      | pc :: p1 =>
          if Byte.eqb pc "*" then
            match skip_stars p1 with
            | [] => Some WTRUE
            | q => star_loop (λ t, DoMatch fuel t q) text
            end
          else
            match text with
            | [] => Some ABORT
            | c :: t =>
                if Byte.eqb pc "\" then
                  match p1 with
                  | [] => Some WFALSE
                  | e :: p2 => if Byte.eqb c e then DoMatch fuel t p2 else Some WFALSE
                  end
                else if Byte.eqb pc "?" then DoMatch fuel t p1
                else if Byte.eqb pc "[" then
                  match class_match p1 c with
                  | None => Some OVERREAD
                  | Some (reverse, matched, rest) =>
                      if Bool.eqb matched reverse then Some WFALSE
                      else
                        match rest with
                        | None => Some OVERREAD
                        | Some p2 => DoMatch fuel t p2
                        end
                  end
                else if Byte.eqb c pc then DoMatch fuel t p1 else Some WFALSE
            end
      end
  end.

(** [wildmat(text, p)]; no result when the matcher runs off the pattern. *)
Definition wildmat (text p : cstring) : option bool :=
  if bool_decide (p = ["*"%byte]) then Some true
  else
    match DoMatch (S (length p)) text p with
    | Some WTRUE => Some true
    | Some (WFALSE | ABORT) => Some false
    | Some OVERREAD | None => None
    end.

(** ** Reference: the grammar of patterns and a backtracking matcher *)

(** Members of a class as ranges of [signed char] values. *)
Fixpoint class_items (p : cstring) (last : Z) : option (list (Z * Z) * cstring) :=
  match p with
  | [] => None
  | d :: p' =>
      if Byte.eqb d "]" then Some ([], p')
      else if Byte.eqb d "-" then
        match p' with
        | [] => None
        | hi :: p'' =>
            if Byte.eqb hi "]" then prod_map (cons (schar d, schar d)) id <$> class_items p' (schar d)
            else prod_map (cons (last, schar hi)) id <$> class_items p'' (schar hi)
        end
      else prod_map (cons (schar d, schar d)) id <$> class_items p' (schar d)
  end.

Definition parse_class (p : cstring) : option (bool * list (Z * Z) * cstring) :=
  let '(neg, cur, q) := class_start p in
  match q with
  | [] => None
  | d :: q' =>
      if Byte.eqb d "]" || Byte.eqb d "-" then
        r ← class_items q' (schar d); Some (neg, (schar d, schar d) :: r.1, r.2)
      else r ← class_items q (schar cur); Some (neg, r.1, r.2)
  end.

Inductive token : Type :=
| TLit (c : byte)
| TAny
| TStar
| TClass (neg : bool) (items : list (Z * Z))
| TNever.

(** Well-formed patterns, every class of which is closed. *)
Inductive pattern : cstring → list token → Prop :=
| pat_end : pattern [] []
| pat_star p ts : pattern p ts → pattern ("*"%byte :: p) (TStar :: ts)
| pat_any p ts : pattern p ts → pattern ("?"%byte :: p) (TAny :: ts)
| pat_escape c p ts : pattern p ts → pattern ("\"%byte :: c :: p) (TLit c :: ts)
| pat_escape_end : pattern ["\"%byte] [TNever]
| pat_class q neg items p ts :
    parse_class q = Some (neg, items, p) → pattern p ts →
    pattern ("["%byte :: q) (TClass neg items :: ts)
| pat_lit c p ts :
    c ∉ ["*"; "?"; "\"; "["]%byte → pattern p ts → pattern (c :: p) (TLit c :: ts).

Definition in_items (items : list (Z * Z)) (c : byte) : bool :=
  existsb (λ r, (r.1 <=? schar c) && (schar c <=? r.2)) items.

Definition token_char (t : token) (c : byte) : bool :=
  match t with
  | TLit d => Byte.eqb c d
  | TAny => true
  | TClass neg items => xorb neg (in_items items c)
  | TStar | TNever => false
  end.

Fixpoint tails (t : cstring) : list cstring :=
  t :: match t with [] => [] | _ :: t' => tails t' end.

Fixpoint tmatch (ts : list token) (t : cstring) : bool :=
  match ts with
  | [] => match t with [] => true | _ => false end
  | TStar :: ts' => existsb (tmatch ts') (tails t)
  | tok :: ts' => match t with [] => false | c :: t' => token_char tok c && tmatch ts' t' end
  end.

(** ** Characters of a class *)

Lemma schar_inj a b : schar a = schar b → a = b.
Proof.
  unfold schar. intros H. apply uchar_inj. pose proof (uchar_range a). pose proof (uchar_range b).
  destruct (Z.ltb_spec (uchar a) 128), (Z.ltb_spec (uchar b) 128); lia.
Qed.

Lemma single_item c d : (schar d <=? schar c) && (schar c <=? schar d) = Byte.eqb c d.
Proof.
  apply eq_true_iff_eq. rewrite andb_true_iff, !Z.leb_le. split.
  - intros H. assert (c = d) as -> by (apply schar_inj; lia). by apply Byte.byte_dec_lb.
  - intros ->%Byte.byte_dec_bl. lia.
Qed.

Lemma class_loop_items p last c m items rest :
  class_items p last = Some (items, rest) →
  class_loop p last c m = Some (m || in_items items c, Some rest) ∧ (length rest < length p)%nat.
Proof.
  revert last m items rest.
  induction p as [p IH] using (induction_ltof1 _ (@length byte)); unfold ltof in IH.
  intros last m items rest. destruct p as [|d p]; cbn [class_items class_loop]; [done|].
  destruct (Byte.eqb d "]"); [intros [= <- <-]; rewrite orb_false_r; simpl; auto|].
  assert (∀ q lst m' x,
    (length q < length (d :: p))%nat →
    (prod_map (cons x) id <$> class_items q lst) = Some (items, rest) →
    m' = m || ((x.1 <=? schar c) && (schar c <=? x.2)) →
    class_loop q lst c m' = Some (m || in_items items c, Some rest) ∧
    (length rest < length (d :: p))%nat) as Hrec.
  { intros q lst m' x Hq ([items' rest'] & E & [= -> ->])%fmap_Some ->.
    destruct (IH q Hq lst (m || ((x.1 <=? schar c) && (schar c <=? x.2))) _ _ E) as [-> Hl].
    split; [|simpl in *; lia]. by rewrite <-orb_assoc. }
  destruct (Byte.eqb d "-").
  - destruct p as [|hi p]; [done|]. destruct (Byte.eqb hi "]"); intros E.
    + by eapply Hrec; [simpl; lia|exact E|simpl; by rewrite single_item].
    + by eapply Hrec; [simpl; lia|exact E|simpl; rewrite andb_comm].
  - intros E. by eapply Hrec; [simpl; lia|exact E|simpl; by rewrite single_item].
Qed.

Lemma class_start_length p : (length (class_start p).2 ≤ length p)%nat.
Proof. destruct p as [|d p]; simpl; [lia|]. destruct (Byte.eqb d NEGATE_CLASS); simpl; lia. Qed.

Lemma class_match_parse p c neg items rest :
  parse_class p = Some (neg, items, rest) →
  class_match p c = Some (neg, in_items items c, Some rest) ∧ (length rest < length p)%nat.
Proof.
  pose proof (class_start_length p) as Hl. unfold parse_class, class_match.
  destruct (class_start p) as [[rev cur] q]. simpl in Hl. destruct q as [|d q]; [done|].
  destruct (Byte.eqb d "]" || Byte.eqb d "-") eqn:Ed; intros ([its r] & E & [= <- <- <-])%bind_Some;
    destruct (class_loop_items _ _ c (if Byte.eqb d "]" || Byte.eqb d "-" then Byte.eqb d c else false)
      _ _ E) as [El Hr]; rewrite Ed in El; rewrite El; simpl in *; (split; [|lia]); [|done].
  unfold in_items; simpl. rewrite single_item.
  assert (Byte.eqb d c = Byte.eqb c d) as ->; [|done].
  apply eq_true_iff_eq. split; intros H%Byte.byte_dec_bl; apply Byte.byte_dec_lb; congruence.
Qed.

(** ** Stars *)

Lemma tmatch_star_star ts t : tmatch (TStar :: TStar :: ts) t = tmatch (TStar :: ts) t.
Proof.
  apply eq_true_iff_eq. cbn [tmatch]. rewrite !existsb_exists. split.
  - intros (u & Hu & (v & Hv & Hm)%existsb_exists). exists v. split; [|done].
    revert u Hu Hv. induction t as [|c t IH]; intros u; simpl.
    + intros [<-|[]]. done.
    + intros [<-|Hu]; [done|]. intros Hv. right. by eapply IH.
  - intros (u & Hu & Hm). exists t. split; [by destruct t; left|]. rewrite existsb_exists. eauto.
Qed.

Lemma skip_stars_pattern p ts :
  pattern p ts →
  ∃ ts', pattern (skip_stars p) ts' ∧ (length (skip_stars p) ≤ length p)%nat ∧
    (∀ t, tmatch (TStar :: ts) t = tmatch (TStar :: ts') t) ∧
    match ts' with TStar :: _ => False | _ => True end.
Proof.
  assert (∀ q us, skip_stars q = q → pattern q us → match us with TStar :: _ => False | _ => True end →
    ∃ ts', pattern (skip_stars q) ts' ∧ (length (skip_stars q) ≤ length q)%nat ∧
      (∀ t, tmatch (TStar :: us) t = tmatch (TStar :: ts') t) ∧
      match ts' with TStar :: _ => False | _ => True end) as Hbase.
  { intros q us Hq. rewrite Hq. exists us. auto. }
  induction 1 as [|p ts Hp (ts' & H1 & H2 & H3 & H4)| | | | |c p ts Hc Hp]; try by apply Hbase; [..|done]; econstructor.
  - exists ts'. cbn [skip_stars]. change (Byte.eqb "*" "*") with true; cbn iota.
    split_and!; [done|simpl; lia| |done]. intros t. rewrite tmatch_star_star. apply H3.
  - apply Hbase; [|by constructor|done]. simpl. destruct (Byte.eqb c "*") eqn:E; [|done].
    apply Byte.byte_dec_bl in E as ->. exfalso. apply Hc. by left.
Qed.

(** What a result of [DoMatch] says of the text: [ABORT] means that no tail of
    the text matches. *)
Definition sound (ts : list token) (text : cstring) (r : option wresult) : Prop :=
  match r with
  | Some WTRUE => tmatch ts text = true
  | Some WFALSE => tmatch ts text = false
  | Some ABORT => ∀ t, In t (tails text) → tmatch ts t = false
  | Some OVERREAD | None => False
  end.

Lemma tails_self t : In t (tails t).
Proof. by destruct t; left. Qed.

Lemma tails_nil t : In [] (tails t).
Proof. induction t; simpl; auto. Qed.

Lemma tails_trans t u v : In u (tails t) → In v (tails u) → In v (tails t).
Proof.
  revert u. induction t as [|c t IH]; intros u; simpl.
  - intros [<-|[]]. done.
  - intros [<-|Hu]; [done|]. intros Hv. right. by eapply IH.
Qed.

Lemma tmatch_nil_nonstar ts :
  match ts with TStar :: _ | [] => False | _ => True end → tmatch ts [] = false.
Proof. by destruct ts as [|[] ?]. Qed.

(** A token that consumes one character. *)
Lemma sound_char tok ts c t r :
  tok ≠ TStar → token_char tok c = true → sound ts t r → sound (tok :: ts) (c :: t) r.
Proof.
  intros Hns Hc Hr.
  assert (∀ u, tmatch (tok :: ts) u = match u with [] => false | d :: u' => token_char tok d && tmatch ts u' end)
    as Hm by (intros u; by destruct tok).
  destruct r as [[]|]; unfold sound in *; try done; rewrite ?Hm, ?Hc, ?Hr; try done.
  intros u [<-|Hu]; rewrite Hm; [rewrite Hc; by apply Hr, tails_self|].
  destruct u as [|d u]; [done|]. rewrite (Hr u), andb_false_r; [done|].
  eapply tails_trans; [exact Hu|]. right. apply tails_self.
Qed.

Lemma sound_mismatch tok ts c t :
  tok ≠ TStar → token_char tok c = false → sound (tok :: ts) (c :: t) (Some WFALSE).
Proof. intros Hns Hc. unfold sound. by destruct tok; simpl in *; rewrite ?Hc. Qed.

Lemma sound_abort_nil tok ts : tok ≠ TStar → sound (tok :: ts) [] (Some ABORT).
Proof. intros Hns t [<-|[]]. by destruct tok. Qed.

Lemma sound_star rec ts text :
  match ts with TStar :: _ | [] => False | _ => True end →
  (∀ t, sound ts t (rec t)) → sound (TStar :: ts) text (star_loop rec text).
Proof.
  intros Hts Hrec.
  assert (∀ t u, In u (tails t) → tmatch (TStar :: ts) u = true → tmatch (TStar :: ts) t = true) as Hsub.
  { intros t u Hu. cbn [tmatch]. rewrite !existsb_exists. intros (v & Hv & Hm).
    exists v. split; [by eapply tails_trans|done]. }
  assert (∀ t, (∀ u, In u (tails t) → tmatch ts u = false) → tmatch (TStar :: ts) t = false) as Hnone.
  { intros t Ht. cbn [tmatch]. apply not_true_is_false. rewrite existsb_exists.
    intros (v & Hv & Hm). rewrite Ht in Hm; done. }
  assert (∀ t, tmatch (TStar :: ts) t = false → ∀ u, In u (tails t) → tmatch (TStar :: ts) u = false) as Hall.
  { intros t Ht u Hu. apply not_true_is_false. intros Hm. rewrite (Hsub t u) in Ht; done. }
  induction text as [|c t IH]; cbn [star_loop].
  { intros u [<-|[]]. apply Hnone. intros u [<-|[]]. by apply tmatch_nil_nonstar. }
  specialize (Hrec (c :: t)). destruct (rec (c :: t)) as [[]|]; unfold sound in Hrec; try done.
  - cbn [sound tmatch tails existsb]. by rewrite Hrec.
  - assert (tmatch (TStar :: ts) (c :: t) = tmatch (TStar :: ts) t) as Heq.
    { cbn [tmatch tails existsb]. by rewrite Hrec. }
    destruct (star_loop rec t) as [[]|]; unfold sound in *; try done; try congruence.
    intros u [<-|Hu]; [rewrite Heq; apply IH, tails_self|by apply IH].
  - exact (Hall _ (Hnone _ Hrec)).
Qed.

Lemma eqb_false_neq (a b : byte) : a ≠ b → Byte.eqb a b = false.
Proof. intros H. destruct (Byte.eqb a b) eqn:E; [by apply Byte.byte_dec_bl in E|done]. Qed.

Lemma DoMatch_sound p ts :
  pattern p ts → ∀ fuel text, (length p < fuel)%nat → sound ts text (DoMatch fuel text p).
Proof.
  intros Hp fuel. revert p ts Hp.
  induction fuel as [|fuel IH]; intros p ts Hp text Hf; [lia|].
  destruct Hp as [|p ts Hp|p ts Hp|c p ts Hp| |q neg items p ts Hq Hp|c p ts Hc Hp]; cbn [DoMatch].
  - by destruct text.
  - destruct (skip_stars_pattern p ts Hp) as (ts' & Hp' & Hl & Heq & Hns). simpl in Hf.
    change (Byte.eqb "*" "*") with true; cbn iota.
    assert (∀ r, sound (TStar :: ts') text r → sound (TStar :: ts) text r) as Htr.
    { intros [[]|]; unfold sound; try done; rewrite ?Heq; try done. intros H u Hu. rewrite Heq. by apply H. }
    apply Htr. destruct (skip_stars p) as [|d q] eqn:Eq.
    + inv Hp'. cbn [sound tmatch]. rewrite existsb_exists. exists []. split; [apply tails_nil|done].
    + apply sound_star; [by inv Hp'; try done|]. intros t. apply IH; [done|lia].
  - destruct text as [|d t]; [by apply sound_abort_nil|]. apply sound_char; [done..|]. apply IH; [done|simpl in *; lia].
  - destruct text as [|d t]; [by apply sound_abort_nil|]. simpl in Hf.
    change (Byte.eqb "\" "*") with false; change (Byte.eqb "\" "\") with true; cbn iota.
    destruct (Byte.eqb d c) eqn:E; [apply sound_char; [done..|]; apply IH; [done|lia]|by apply sound_mismatch].
  - destruct text as [|d t]; [by apply sound_abort_nil|by apply sound_mismatch].
  - destruct text as [|d t]; [by apply sound_abort_nil|]. simpl in Hf.
    change (Byte.eqb "[" "*") with false; change (Byte.eqb "[" "\") with false;
      change (Byte.eqb "[" "?") with false; change (Byte.eqb "[" "[") with true; cbn iota.
    destruct (class_match_parse q d neg items p Hq) as [-> Hl].
    destruct (Bool.eqb (in_items items d) neg) eqn:E.
    + apply sound_mismatch; [done|]. simpl. by destruct neg, (in_items items d).
    + apply sound_char; [done| |apply IH; [done|lia]]. simpl. by destruct neg, (in_items items d).
  - assert (c ≠ "*"%byte ∧ c ≠ "?"%byte ∧ c ≠ "\"%byte ∧ c ≠ "["%byte) as (N1 & N2 & N3 & N4)
      by (split_and!; intros ->; apply Hc; by apply (bool_decide_unpack _)).
    rewrite !(eqb_false_neq c) by done. simpl in Hf.
    destruct text as [|d t]; [by apply sound_abort_nil|].
    destruct (Byte.eqb d c) eqn:E; [apply sound_char; [done..|]; apply IH; [done|lia]|by apply sound_mismatch].
Qed.

Lemma tmatch_star text : tmatch [TStar] text = true.
Proof. cbn [tmatch]. apply existsb_exists. exists []. split; [apply tails_nil|done]. Qed.

Lemma wildmat_pattern text p ts : pattern p ts → wildmat text p = Some (tmatch ts text).
Proof.
  intros Hp. pose proof (DoMatch_sound p ts Hp (S (length p)) text ltac:(lia)) as Hs.
  unfold wildmat. case_bool_decide as E.
  - subst. inv Hp; [inv H0; by rewrite tmatch_star|]. exfalso; apply H1; by left.
  - destruct (DoMatch _ _ _) as [[]|]; unfold sound in Hs; try done; try by rewrite Hs.
    by rewrite (Hs text (tails_self text)).
Qed.

(** C32: on a well-formed pattern [wildmat] ends, does not read past the
    pattern, and decides the reference match: [ABORT] only prunes the search. *)
Theorem wildmat_correct text p ts : pattern p ts → wildmat text p = Some (tmatch ts text).
Proof. apply wildmat_pattern. Qed.

Lemma wildmat_correct_witness :
  wildmat (str "hoche") (str "h*[a-d]h?") =
  Some (tmatch [TLit "h"; TStar; TClass false [(97,97);(97,100)]; TLit "h"; TAny] (str "hoche")).
Proof.
  apply wildmat_correct.
  apply pat_lit; [by apply (bool_decide_unpack _)|]. apply pat_star. eapply pat_class; [reflexivity|].
  apply pat_lit; [by apply (bool_decide_unpack _)|]. apply pat_any, pat_end.
Defined.

(** A pattern that ends inside a class, such as [[c] on a text that
    starts with [c], makes the matcher step past the terminating NUL of the
    pattern. *)
Theorem wildmat_unclosed_class c t :
  has_char (str "]-^") c = false → wildmat (c :: t) ["["%byte; c] = None.
Proof. intros H. revert H. destruct c; vm_compute; done. Qed.

Lemma wildmat_unclosed_class_witness : wildmat (str "ab") (str "[a") = None.
Proof. exact (wildmat_unclosed_class "a" (str "b") eq_refl). Defined.
