(* ===== verification/StrList.v ===== *)
(** * Doubly linked lists of strings (server/strlist.c)

    The operations at the level of pointers: a heap of nodes, [None] where the
    C code would follow a null or dangling pointer (or a cyclic list for ever).
    [dlist h e l] says that the ends [e] delimit in heap [h] a well-formed
    doubly linked list with the nodes and strings of [l]; each operation is
    proved to implement the corresponding operation on [l] and to leave every
    other node of the heap alone, so that the many lists of the server can
    share one heap. *)

From Stdlib Require Import ZArith Lia.
From stdpp Require Import gmap sorting.
From S2P Require Import Prelude Wildmat.

Local Open Scope Z_scope.

(** ** Memory *)

Notation loc := positive.

Record node : Type := Node { next : option loc; prev : option loc; n_str : cstring }.

Notation heap := (gmap loc node).

Definition set_next (h : heap) (x : loc) (v : option loc) : option heap :=
  nd ← h !! x; Some (<[x := Node v (prev nd) (n_str nd)]> h).
Definition set_prev (h : heap) (x : loc) (v : option loc) : option heap :=
  nd ← h !! x; Some (<[x := Node (next nd) v (n_str nd)]> h).
Definition set_str (h : heap) (x : loc) (v : cstring) : option heap :=
  nd ← h !! x; Some (<[x := Node (next nd) (prev nd) v]> h).

(** The two end pointers the operations take by reference. *)
Record ends : Type := Ends { l_head : option loc; l_tail : option loc }.

(** [malloc(size)]: a fresh block with unspecified contents, or [NULL]. *)
Class Malloc := {
  malloc : heap → Z → option (loc * node);
  malloc_fresh h n x nd : malloc h n = Some (x, nd) → h !! x = None
}.

(** [free(p)] of a live block. *)
Definition free (h : heap) (x : loc) : option heap :=
  _ ← h !! x; Some (delete x h).

(** Bytes of a [STRLIST] on a 64-bit machine: two pointers and [str[1]], padded. *)
Definition sizeof_STRLIST : Z := 24.

(** ** The code *)

(** [strmakenode(size)]: the new node, [None] inside when out of memory. *)
Definition strmakenode `{Malloc} (h : heap) (size : Z) : heap * option loc :=
  match malloc h (sizeof_STRLIST + size) with
  | None => (h, None)
  | Some (p, _) => (<[p := Node None None []]> h, Some p)
  end.

Definition strlinkhead (s : loc) (h : heap) (e : ends) : option (heap * ends) :=
  match l_tail e with
  | None =>
      h ← set_next h s None;
      h ← set_prev h s None;
      Some (h, Ends (Some s) (Some s))
  | Some _ =>
      hd ← l_head e;
      h ← set_prev h hd (Some s);
      h ← set_prev h s None;
      h ← set_next h s (l_head e);
      Some (h, Ends (Some s) (l_tail e))
  end.

Definition strlinktail (s : loc) (h : heap) (e : ends) : option (heap * ends) :=
  match l_head e with
  | None =>
      h ← set_next h s None;
      h ← set_prev h s None;
      Some (h, Ends (Some s) (Some s))
  | Some _ =>
      tl ← l_tail e;
      h ← set_next h tl (Some s);
      h ← set_prev h s (l_tail e);
      h ← set_next h s None;
      Some (h, Ends (l_head e) (Some s))
  end.

Definition strlinkafter (s i : loc) (h : heap) (e : ends) : option (heap * ends) :=
  h ← set_prev h s (Some i);
  ni ← h !! i;
  h ← set_next h s (next ni);
  h ← set_next h i (Some s);
  if decide (Some i = l_tail e) then Some (h, Ends (l_head e) (Some s))
  else
    ns ← h !! s;
    sn ← next ns;
    h ← set_prev h sn (Some s);
    Some (h, e).

Definition strlinkbefore (s i : loc) (h : heap) (e : ends) : option (heap * ends) :=
  ni ← h !! i;
  h ← set_prev h s (prev ni);
  h ← set_next h s (Some i);
  h ← set_prev h i (Some s);
  ns ← h !! s;
  match prev ns with
  | Some sp => h ← set_next h sp (Some s); Some (h, e)
  | None => Some (h, Ends (Some s) (l_tail e))
  end.

Definition strunlink (s : loc) (h : heap) (e : ends) : option (heap * ends) :=
  ns ← h !! s;
  match prev ns, next ns with
  | None, Some sn => h ← set_prev h sn None; Some (h, Ends (Some sn) (l_tail e))
  | None, None => Some (h, Ends None None)
  | Some sp, None => h ← set_next h sp None; Some (h, Ends (l_head e) (Some sp))
  | Some sp, Some sn =>
      h ← set_next h sp (Some sn);
      h ← set_prev h sn (Some sp);
      Some (h, e)
  end.

(** A walk [for (i = start; i; i = i->next)] up to the first node that
    satisfies [stop], which may itself be undefined. *)
Fixpoint walk (fuel : nat) (stop : cstring → option bool) (h : heap) (i : option loc)
    : option (option loc) :=
  match i with
  | None => Some None
  | Some x =>
      match fuel with
      | O => None
      | S fuel =>
          nd ← h !! x;
          b ← stop (n_str nd);
          if b : bool then Some (Some x) else walk fuel stop h (next nd)
      end
  end.

Definition str_compare (caseindep : bool) : cstring → cstring → Z :=
  if caseindep then strcasecmp else strcmp.

Definition strlinkalpha (s : loc) (h : heap) (e : ends) (caseindep : bool)
    : option (heap * ends) :=
  match l_head e with
  | None => strlinkhead s h e
  | Some hd =>
      ns ← h !! s;
      i ← walk (S (size h)) (λ x, Some (str_compare caseindep (n_str ns) x <? 0)) h (Some hd);
      match i with
      | Some i => if decide (i = hd) then strlinkhead s h e else strlinkbefore s i h e
      | None => strlinktail s h e
      end
  end.

Definition str_test (s : cstring) (caseindep pattern : bool) (x : cstring) : option bool :=
  if pattern then wildmat s x else Some (str_compare caseindep s x =? 0).

Definition strgetnode (s : cstring) (h : heap) (head : option loc) (caseindep pattern : bool)
    : option (option loc) :=
  walk (S (size h)) (str_test s caseindep pattern) h head.

(** ** The representation predicate *)

Notation entry := (loc * cstring)%type.

Definition locs (l : list entry) : list loc := map fst l.

Definition head_or (l : list entry) (nn : option loc) : option loc :=
  match l with [] => nn | x :: _ => Some x.1 end.
Definition last_or (pp : option loc) (l : list entry) : option loc :=
  match last l with None => pp | Some x => Some x.1 end.

(** A segment between a predecessor [pp] and a successor [nn]. *)
Fixpoint dseg (h : heap) (pp : option loc) (l : list entry) (nn : option loc) : Prop :=
  match l with
  | [] => True
  | x :: l' => h !! x.1 = Some (Node (head_or l' nn) pp x.2) ∧ dseg h (Some x.1) l' nn
  end.

Definition dlist (h : heap) (e : ends) (l : list entry) : Prop :=
  dseg h None l None ∧ NoDup (locs l) ∧ e = Ends (head_or l None) (last_or None l).

(** Nodes outside [xs] are the same in both heaps. *)
Definition frame (xs : list loc) (h h' : heap) : Prop := ∀ x, x ∉ xs → h' !! x = h !! x.

Lemma head_or_app l1 l2 nn : head_or (l1 ++ l2) nn = head_or l1 (head_or l2 nn).
Proof. by destruct l1. Qed.

Lemma last_or_app pp l1 l2 : last_or pp (l1 ++ l2) = last_or (last_or pp l1) l2.
Proof. unfold last_or. rewrite last_app. by destruct (last l2). Qed.

Lemma last_or_cons pp x l : last_or pp (x :: l) = last_or (Some x.1) l.
Proof. apply (last_or_app pp [x] l). Qed.

Lemma locs_app l1 l2 : locs (l1 ++ l2) = locs l1 ++ locs l2.
Proof. apply map_app. Qed.

Lemma dseg_app h pp l1 l2 nn :
  dseg h pp (l1 ++ l2) nn ↔ dseg h pp l1 (head_or l2 nn) ∧ dseg h (last_or pp l1) l2 nn.
Proof.
  revert pp. induction l1 as [|x l1 IH]; intros pp; simpl; [tauto|].
  rewrite IH, head_or_app, last_or_cons. tauto.
Qed.

Lemma dseg_agree h h' pp l nn :
  (∀ x, x ∈ locs l → h' !! x = h !! x) → dseg h pp l nn → dseg h' pp l nn.
Proof.
  revert pp. induction l as [|x l IH]; intros pp Ha; [done|]. intros [Hx Hd]. split.
  - rewrite Ha; [done|]. by left.
  - apply IH; [|done]. intros y Hy. apply Ha. by right.
Qed.

Lemma dseg_insert h pp l nn x nd : x ∉ locs l → dseg h pp l nn → dseg (<[x := nd]> h) pp l nn.
Proof.
  intros Hx. apply dseg_agree. intros y Hy. apply lookup_insert_ne. by intros ->.
Qed.

Lemma dseg_delete h pp l nn x : x ∉ locs l → dseg h pp l nn → dseg (delete x h) pp l nn.
Proof.
  intros Hx. apply dseg_agree. intros y Hy. apply lookup_delete_ne. by intros ->.
Qed.

Lemma dseg_lookup h pp l nn x : dseg h pp l nn → x ∈ locs l → is_Some (h !! x).
Proof.
  revert pp. induction l as [|y l IH]; intros pp; [intros _ H; inv H|].
  intros [Hy Hd] Hx. unfold locs in Hx; simpl in Hx. apply elem_of_cons in Hx as [->|Hx]; [by rewrite Hy|eauto].
Qed.

Lemma dlist_frame xs h h' e l :
  frame xs h h' → locs l ## xs → dlist h e l → dlist h' e l.
Proof.
  intros Hf Hd (Hs & Hn & He). split; [|done]. eapply dseg_agree; [|done].
  intros x Hx. apply Hf. set_solver.
Qed.

(** The nodes of a list are distinct blocks of the heap, so a walk of as many
    steps as the heap has blocks reaches its end. *)
Lemma dlist_size h pp l nn : dseg h pp l nn → NoDup (locs l) → (length l ≤ size h)%nat.
Proof.
  intros Hd Hn. rewrite <-(length_map fst l). fold (locs l).
  rewrite <-(size_list_to_set (C := gset loc)) by done. rewrite <-size_dom.
  apply subseteq_size. intros x Hx%elem_of_list_to_set. apply elem_of_dom.
  by eapply dseg_lookup.
Qed.

#[export] Hint Resolve dseg_insert dseg_delete : icb.

(** ** Specifications of the operations *)

Section ops.
Implicit Types (h : heap) (l : list entry).

Lemma set_next_Some h x nd v : h !! x = Some nd →
  set_next h x v = Some (<[x := Node v (prev nd) (n_str nd)]> h).
Proof. intros H. unfold set_next. by rewrite H. Qed.
Lemma set_prev_Some h x nd v : h !! x = Some nd →
  set_prev h x v = Some (<[x := Node (next nd) v (n_str nd)]> h).
Proof. intros H. unfold set_prev. by rewrite H. Qed.

(** The result of an operation: the list is now [l'], and only the nodes
    [xs] were written. *)
Definition op_spec (h : heap) (r : option (heap * ends)) (xs : list loc) (l' : list entry) : Prop :=
  ∃ h' e', r = Some (h', e') ∧ dlist h' e' l' ∧ frame xs h h'.

Lemma frame_insert xs h h' x nd : x ∈ xs → frame xs h h' → frame xs h (<[x := nd]> h').
Proof. intros Hx Hf y Hy. rewrite lookup_insert_ne by (by intros ->). by apply Hf. Qed.
Lemma frame_refl xs h : frame xs h h.
Proof. by intros x Hx. Qed.
End ops.

(** Evaluate reads and writes of nodes known to be present. *)
Ltac heap_step :=
  repeat match goal with
  | |- context [set_next ?h ?x ?v] =>
      erewrite (set_next_Some h x _ v); [|repeat first [rewrite lookup_insert_eq; reflexivity
        | eassumption | rewrite lookup_insert_ne by congruence]]; cbn [mbind option_bind]
  | |- context [set_prev ?h ?x ?v] =>
      erewrite (set_prev_Some h x _ v); [|repeat first [rewrite lookup_insert_eq; reflexivity
        | eassumption | rewrite lookup_insert_ne by congruence]]; cbn [mbind option_bind]
  end; cbn [next prev n_str l_head l_tail].

Ltac frame_tac := repeat (apply frame_insert; [set_solver|]); apply frame_refl.

(** ** Splicing *)

Section splice.
Implicit Types (h : heap) (l : list entry).

Lemma last_or_in l x : last_or None l = Some x → x ∈ locs l.
Proof.
  unfold last_or. destruct (last l) as [[y t]|] eqn:E; [|done]. intros [= <-].
  apply last_Some in E as [l' ->]. unfold locs. rewrite map_app. set_solver.
Qed.
Lemma head_or_in l x : head_or l None = Some x → x ∈ locs l.
Proof. destruct l as [|[y t] l]; [done|]. intros [= <-]. by left. Qed.

(** Redirecting the successor of a segment. *)
Lemma dseg_nn h h' pp l nn nn' :
  NoDup (locs l) → dseg h pp l nn →
  (∀ x nd, last_or None l = Some x → h !! x = Some nd → h' !! x = Some (Node nn' (prev nd) (n_str nd))) →
  (∀ x, x ∈ locs l → last_or None l ≠ Some x → h' !! x = h !! x) →
  dseg h' pp l nn'.
Proof.
  destruct l as [|[y t] l _] using rev_ind; [done|]. intros Hn Hd Hl Ho.
  rewrite last_or_app in Hl, Ho. apply dseg_app in Hd as [Hd1 [Hy _]]. apply dseg_app. split.
  - eapply dseg_agree; [|exact Hd1]. intros x Hx. apply Ho; [rewrite locs_app; set_solver|].
    intros [= ->]. rewrite locs_app, NoDup_app in Hn. destruct Hn as (_ & Hn & _). apply (Hn x Hx). by left.
  - split; [|done]. apply (Hl y _ eq_refl) in Hy. done.
Qed.

(** Redirecting the predecessor of a segment. *)
Lemma dseg_pp h h' pp pp' l nn :
  NoDup (locs l) → dseg h pp l nn →
  (∀ x nd, head_or l None = Some x → h !! x = Some nd → h' !! x = Some (Node (next nd) pp' (n_str nd))) →
  (∀ x, x ∈ locs l → head_or l None ≠ Some x → h' !! x = h !! x) →
  dseg h' pp' l nn.
Proof.
  destruct l as [|[y t] l]; [done|]. intros Hn [Hy Hd] Hh Ho. split.
  - apply (Hh y _ eq_refl) in Hy. done.
  - eapply dseg_agree; [|exact Hd]. intros x Hx. apply Ho; [by right|].
    intros [= ->]. by apply NoDup_cons in Hn as [? _].
Qed.

(** Node [s] goes in between [l1] and [l2]. *)
Lemma splice_in h h' l1 l2 s t :
  dseg h None (l1 ++ l2) None → NoDup (locs (l1 ++ l2)) → s ∉ locs (l1 ++ l2) →
  h' !! s = Some (Node (head_or l2 None) (last_or None l1) t) →
  (∀ x nd, last_or None l1 = Some x → h !! x = Some nd → h' !! x = Some (Node (Some s) (prev nd) (n_str nd))) →
  (∀ x nd, head_or l2 None = Some x → h !! x = Some nd → h' !! x = Some (Node (next nd) (Some s) (n_str nd))) →
  (∀ x, x ≠ s → last_or None l1 ≠ Some x → head_or l2 None ≠ Some x → h' !! x = h !! x) →
  dseg h' None (l1 ++ (s, t) :: l2) None ∧ NoDup (locs (l1 ++ (s, t) :: l2)) ∧
  frame (s :: locs (l1 ++ l2)) h h'.
Proof.
  intros Hd Hn Hs H1 H2 H3 H4. apply dseg_app in Hd as [Hd1 Hd2].
  rewrite locs_app in Hn, Hs. apply NoDup_app in Hn as (Hn1 & Hn12 & Hn2). split_and!.
  - apply dseg_app. split; [|split; [done|]].
    + eapply dseg_nn; [done|exact Hd1|done|]. intros x Hx Hlx. apply H4; [set_solver|done|].
      intros Hh%head_or_in. set_solver.
    + eapply dseg_pp; [done|exact Hd2|done|]. intros x Hx Hhx. apply H4; [set_solver| |done].
      intros Hl%last_or_in. set_solver.
  - rewrite locs_app. apply NoDup_app. simpl. split_and!; [done|set_solver|]. apply NoDup_cons. set_solver.
  - intros x Hx. rewrite locs_app in Hx. apply H4; [set_solver|intros ?%last_or_in; set_solver|
      intros ?%head_or_in; set_solver].
Qed.

(** Node [s] is taken out from between [l1] and [l2]. *)
Lemma splice_out h h' l1 l2 s t :
  dseg h None (l1 ++ (s, t) :: l2) None → NoDup (locs (l1 ++ (s, t) :: l2)) →
  (∀ x nd, last_or None l1 = Some x → h !! x = Some nd → h' !! x = Some (Node (head_or l2 None) (prev nd) (n_str nd))) →
  (∀ x nd, head_or l2 None = Some x → h !! x = Some nd → h' !! x = Some (Node (next nd) (last_or None l1) (n_str nd))) →
  (∀ x, last_or None l1 ≠ Some x → head_or l2 None ≠ Some x → h' !! x = h !! x) →
  dseg h' None (l1 ++ l2) None ∧ NoDup (locs (l1 ++ l2)) ∧ frame (locs (l1 ++ (s, t) :: l2)) h h'.
Proof.
  intros Hd Hn H2 H3 H4. apply dseg_app in Hd as [Hd1 [Hs Hd2]].
  rewrite locs_app in Hn. apply NoDup_app in Hn as (Hn1 & Hn12 & [Hn2 Hn3]%NoDup_cons). simpl in Hn2, Hn3.
  fold (locs l2) in *. split_and!.
  - apply dseg_app. split.
    + eapply dseg_nn; [done|exact Hd1|done|]. intros x Hx Hlx. apply H4; [done|].
      intros Hh%head_or_in. set_solver.
    + eapply dseg_pp; [done|exact Hd2|done|]. intros x Hx Hhx. apply H4; [|done].
      intros Hl%last_or_in. set_solver.
  - rewrite locs_app. apply NoDup_app. set_solver.
  - intros x Hx. rewrite locs_app in Hx. simpl in Hx.
    apply H4; [intros ?%last_or_in|intros ?%head_or_in]; set_solver.
Qed.

(** What the neighbours of a position are. *)
Lemma dseg_last_lookup h pp l nn x :
  dseg h pp l nn → last_or None l = Some x → ∃ nd, h !! x = Some nd.
Proof. intros Hd ?%last_or_in. by eapply dseg_lookup. Qed.
Lemma dseg_head_lookup h pp l nn x :
  dseg h pp l nn → head_or l None = Some x → ∃ nd, h !! x = Some nd.
Proof. intros Hd ?%head_or_in. by eapply dseg_lookup. Qed.
End splice.

(** ** Each operation implements its list operation *)

Section spec.
Implicit Types (h : heap) (l : list entry).

Lemma op_spec_in h h' e l l1 l2 s t :
  l = l1 ++ l2 →
  dseg h None l None → NoDup (locs l) → s ∉ locs l →
  h' !! s = Some (Node (head_or l2 None) (last_or None l1) t) →
  (∀ x nd, last_or None l1 = Some x → h !! x = Some nd → h' !! x = Some (Node (Some s) (prev nd) (n_str nd))) →
  (∀ x nd, head_or l2 None = Some x → h !! x = Some nd → h' !! x = Some (Node (next nd) (Some s) (n_str nd))) →
  (∀ x, x ≠ s → last_or None l1 ≠ Some x → head_or l2 None ≠ Some x → h' !! x = h !! x) →
  l_head e = head_or l1 (Some s) → l_tail e = last_or (Some s) l2 →
  op_spec h (Some (h', e)) (s :: locs l) (l1 ++ (s, t) :: l2).
Proof.
  intros -> Hd Hn Hs H1 H2 H3 H4 He1 He2.
  destruct (splice_in h h' l1 l2 s t) as (Hd' & Hn' & Hf); [done..|].
  exists h', e. split; [done|]. split; [|done]. split; [done|]. split; [done|].
  destruct e as [hd tl]; simpl in *; subst. by rewrite head_or_app, last_or_app, last_or_cons.
Qed.

Lemma op_spec_out h h' e l1 l2 s t :
  dseg h None (l1 ++ (s, t) :: l2) None → NoDup (locs (l1 ++ (s, t) :: l2)) →
  (∀ x nd, last_or None l1 = Some x → h !! x = Some nd → h' !! x = Some (Node (head_or l2 None) (prev nd) (n_str nd))) →
  (∀ x nd, head_or l2 None = Some x → h !! x = Some nd → h' !! x = Some (Node (next nd) (last_or None l1) (n_str nd))) →
  (∀ x, last_or None l1 ≠ Some x → head_or l2 None ≠ Some x → h' !! x = h !! x) →
  l_head e = head_or (l1 ++ l2) None → l_tail e = last_or None (l1 ++ l2) →
  op_spec h (Some (h', e)) (locs (l1 ++ (s, t) :: l2)) (l1 ++ l2).
Proof.
  intros Hd Hn H2 H3 H4 He1 He2.
  destruct (splice_out h h' l1 l2 s t) as (Hd' & Hn' & Hf); [done..|].
  exists h', e. split; [done|]. split; [|done]. split; [done|]. split; [done|].
  destruct e; simpl in *; by subst.
Qed.

(** Lookups in a chain of writes. *)
Ltac looks :=
  intros; simplify_map_eq; rewrite ?lookup_insert_ne by congruence; try done; try congruence.

Lemma last_or_snoc pp l x : last_or pp (l ++ [x]) = Some x.1.
Proof. by rewrite last_or_app. Qed.

Lemma last_or_Some pp x l : ∃ z, last_or pp (x :: l) = Some z ∧ z ∈ locs (x :: l).
Proof.
  rewrite last_or_cons. unfold last_or. destruct (last l) as [y|] eqn:E.
  - exists y.1. split; [done|]. apply last_Some in E as [l' ->]. rewrite app_comm_cons, locs_app. set_solver.
  - exists x.1. split; [done|]. by left.
Qed.

Lemma strlinkhead_ok h e l s nd :
  dlist h e l → s ∉ locs l → h !! s = Some nd →
  op_spec h (strlinkhead s h e) (s :: locs l) ((s, n_str nd) :: l).
Proof.
  intros (Hd & Hn & ->) Hs Hnd. unfold strlinkhead. cbn [l_tail l_head].
  destruct l as [|[y t] l].
  { cbn [last_or last]. heap_step. apply (op_spec_in h _ _ [] [] []); looks. }
  assert (y ≠ s) by (intros ->; set_solver). pose proof Hd as [Hy _].
  destruct (last_or_Some None (y, t) l) as (z & Ez & _). rewrite Ez.
  cbn [head_or fst snd mbind option_bind] in *. heap_step.
  apply (op_spec_in h _ _ _ [] ((y, t) :: l)); looks. by rewrite <-Ez, !last_or_cons.
Qed.

Lemma strlinktail_ok h e l s nd :
  dlist h e l → s ∉ locs l → h !! s = Some nd →
  op_spec h (strlinktail s h e) (s :: locs l) (l ++ [(s, n_str nd)]).
Proof.
  intros (Hd & Hn & ->) Hs Hnd. unfold strlinktail. cbn [l_tail l_head].
  destruct l as [|[z t] l _] using rev_ind.
  { cbn [head_or app]. heap_step. apply (op_spec_in h _ _ [] [] []); looks. }
  assert (z ≠ s) by (intros ->; apply Hs; rewrite locs_app; set_solver).
  pose proof Hd as [_ [Hz _]]%dseg_app. cbn [fst snd head_or] in Hz.
  assert (∃ hd, ∀ nn, head_or (l ++ [(z, t)]) nn = Some hd) as [hd Ehd] by (destruct l; by eexists).
  rewrite Ehd, last_or_snoc. cbn [fst mbind option_bind]. heap_step.
  apply (op_spec_in h _ _ _ (l ++ [(z, t)]) []); rewrite ?last_or_snoc, ?app_nil_r, ?Ehd; looks.
Qed.

Lemma strlinkafter_ok h e l1 l2 i ti s nd :
  dlist h e (l1 ++ (i, ti) :: l2) → s ∉ locs (l1 ++ (i, ti) :: l2) → h !! s = Some nd →
  op_spec h (strlinkafter s i h e) (s :: locs (l1 ++ (i, ti) :: l2)) ((l1 ++ [(i, ti)]) ++ (s, n_str nd) :: l2).
Proof.
  intros (Hd & Hn & ->) Hs Hnd. unfold strlinkafter. cbn [l_tail l_head].
  pose proof Hd as [_ [Hi Hd2]]%dseg_app. cbn [fst snd] in Hi, Hd2.
  assert (i ≠ s) by (intros ->; apply Hs; rewrite locs_app; set_solver).
  heap_step. rewrite lookup_insert_ne by congruence. rewrite Hi. cbn [mbind option_bind]. heap_step.
  destruct l2 as [|[y t] l2].
  - rewrite decide_True by by rewrite last_or_snoc.
    apply (op_spec_in h _ _ _ (l1 ++ [(i, ti)]) []); rewrite ?last_or_snoc, ?app_nil_r; looks.
    by rewrite !head_or_app.
  - destruct Hd2 as [Hy Hd2]. cbn [fst snd] in *.
    assert (y ≠ s) by (intros ->; apply Hs; rewrite locs_app; set_solver).
    assert (i ∉ locs ((y, t) :: l2)) as Hi2 by (rewrite locs_app, NoDup_app in Hn;
      destruct Hn as (_ & _ & [? _]%NoDup_cons); done).
    assert (y ≠ i) by (intros ->; apply Hi2; by left).
    destruct (last_or_Some (Some i) (y, t) l2) as (z & Ez & Hz).
    rewrite last_or_app, last_or_cons. cbn [fst]. rewrite Ez, decide_False by congruence.
    cbn [head_or fst]. rewrite lookup_insert_ne, lookup_insert_eq by congruence.
    cbn [mbind option_bind next]. heap_step.
    apply (op_spec_in h _ _ _ (l1 ++ [(i, ti)]) ((y, t) :: l2)); rewrite ?last_or_snoc, <-?app_assoc; looks.
    + by rewrite !head_or_app.
    + by rewrite <-Ez, !last_or_cons.
Qed.

Lemma strlinkbefore_ok h e l1 l2 i ti s nd :
  dlist h e (l1 ++ (i, ti) :: l2) → s ∉ locs (l1 ++ (i, ti) :: l2) → h !! s = Some nd →
  op_spec h (strlinkbefore s i h e) (s :: locs (l1 ++ (i, ti) :: l2)) (l1 ++ (s, n_str nd) :: (i, ti) :: l2).
Proof.
  intros (Hd & Hn & ->) Hs Hnd. unfold strlinkbefore. cbn [l_tail l_head].
  pose proof Hd as [Hd1 [Hi Hd2]]%dseg_app. cbn [fst snd] in Hi, Hd2.
  assert (i ≠ s) by (intros ->; apply Hs; rewrite locs_app; set_solver).
  rewrite Hi. cbn [mbind option_bind prev]. heap_step.
  rewrite lookup_insert_ne, lookup_insert_eq by congruence. cbn [mbind option_bind prev].
  destruct l1 as [|[p tp] l1 _] using rev_ind.
  - cbn [last_or last]. apply (op_spec_in h _ _ _ [] ((i, ti) :: l2)); looks.
    destruct (last_or_Some None (i, ti) l2) as (z & Ez & _). by rewrite !last_or_cons.
  - pose proof Hd1 as [_ [Hp _]]%dseg_app. cbn [fst snd head_or] in Hp.
    rewrite last_or_snoc. cbn [fst].
    assert (p ≠ s) by (intros ->; apply Hs; rewrite !locs_app; set_solver).
    assert (p ≠ i) by (intros ->; rewrite !locs_app, !NoDup_app in Hn; destruct Hn as (_ & Hn & _);
      apply (Hn i); set_solver).
    heap_step.
    apply (op_spec_in h _ _ _ (l1 ++ [(p, tp)]) ((i, ti) :: l2)); rewrite ?last_or_snoc; looks.
    + by rewrite !head_or_app.
    + by rewrite !last_or_app, !last_or_cons.
Qed.

Lemma strunlink_ok h e l1 l2 s t :
  dlist h e (l1 ++ (s, t) :: l2) →
  op_spec h (strunlink s h e) (locs (l1 ++ (s, t) :: l2)) (l1 ++ l2).
Proof.
  intros (Hd & Hn & ->). unfold strunlink. cbn [l_tail l_head].
  pose proof Hd as [Hd1 [Hs Hd2]]%dseg_app. cbn [fst snd] in Hs, Hd2.
  rewrite Hs. cbn [mbind option_bind prev next].
  destruct l1 as [|[p tp] l1 _] using rev_ind; destruct l2 as [|[y ty] l2]; cbn [app].
  - apply (op_spec_out h _ _ [] []); looks.
  - destruct Hd2 as [Hy Hd2]. cbn [last_or last head_or fst snd] in *. heap_step.
    apply (op_spec_out h _ _ [] ((y, ty) :: l2)); looks.
  - pose proof Hd1 as [_ [Hp _]]%dseg_app. cbn [fst snd head_or] in Hp.
    rewrite last_or_snoc. cbn [fst head_or]. heap_step.
    apply (op_spec_out h _ _ (l1 ++ [(p, tp)]) []); rewrite ?app_nil_r, ?last_or_snoc; looks.
    by rewrite !head_or_app.
  - pose proof Hd1 as [_ [Hp _]]%dseg_app. destruct Hd2 as [Hy Hd2]. cbn [fst snd head_or] in *.
    rewrite last_or_snoc. cbn [fst head_or].
    assert (p ≠ y) by (intros ->; rewrite !locs_app, !NoDup_app in Hn; destruct Hn as (_ & Hn & _);
      apply (Hn y); set_solver).
    heap_step.
    apply (op_spec_out h _ _ (l1 ++ [(p, tp)]) ((y, ty) :: l2)); rewrite ?last_or_snoc; looks.
    + by rewrite !head_or_app.
    + by rewrite !last_or_app, !last_or_cons.
Qed.
End spec.

(** No string is changed by relinking. *)
Definition same_strs (h h' : heap) : Prop :=
  ∀ x nd, h !! x = Some nd → ∃ nd', h' !! x = Some nd' ∧ n_str nd' = n_str nd.

Lemma set_next_strs h x v h' : set_next h x v = Some h' → same_strs h h'.
Proof.
  unfold set_next. intros (nd & Hnd & [= <-])%bind_Some y ny Hy.
  destruct (decide (x = y)) as [->|]; simplify_map_eq; eauto.
Qed.
Lemma set_prev_strs h x v h' : set_prev h x v = Some h' → same_strs h h'.
Proof.
  unfold set_prev. intros (nd & Hnd & [= <-])%bind_Some y ny Hy.
  destruct (decide (x = y)) as [->|]; simplify_map_eq; eauto.
Qed.
#[global] Instance same_strs_preorder : PreOrder same_strs.
Proof.
  split; [by intros h x nd Hx; eauto|]. intros h1 h2 h3 H12 H23 x nd Hx.
  destruct (H12 x nd Hx) as (n2 & H2 & E2). destruct (H23 x n2 H2) as (n3 & H3 & E3).
  exists n3. split; [done|congruence].
Qed.

Lemma strunlink_strs s h e h' e' : strunlink s h e = Some (h', e') → same_strs h h'.
Proof.
  unfold strunlink. intros (nd & Hnd & E)%bind_Some.
  destruct (prev nd), (next nd).
  - apply bind_Some in E as (h1 & E1 & (h2 & E2 & [= <- <-])%bind_Some).
    etrans; [by eapply set_next_strs|by eapply set_prev_strs].
  - apply bind_Some in E as (h1 & E1 & [= <- <-]). by eapply set_next_strs.
  - apply bind_Some in E as (h1 & E1 & [= <- <-]). by eapply set_prev_strs.
  - injection E as <- <-. done.
Qed.

(** ** Walks, alphabetical insertion and search *)

Section walk.
Implicit Types (h : heap) (l : list entry).

Lemma walk_dseg fuel stop f h pp l :
  dseg h pp l None → (length l ≤ fuel)%nat →
  Forall (λ x, stop x.2 = Some (f x.2)) l →
  walk fuel stop h (head_or l None) = Some (fst <$> List.find (λ x, f x.2) l).
Proof.
  revert pp l. induction fuel as [|fuel IH]; intros pp l Hd Hl Hf.
  { destruct l as [|x l]; simpl in *; [done|lia]. }
  destruct l as [|[x t] l]; [done|]. destruct Hd as [Hx Hd]. simpl in *.
  inv Hf. rewrite Hx. simpl in *. rewrite H1. simpl. destruct (f t); [done|]. eapply IH; [done|lia|done].
Qed.

Lemma find_split (f : entry → bool) l :
  (∃ l1 x l2, l = l1 ++ x :: l2 ∧ Forall (λ y, f y = false) l1 ∧ f x = true ∧ List.find f l = Some x) ∨
  (Forall (λ y, f y = false) l ∧ List.find f l = None).
Proof.
  induction l as [|x l IH]; simpl; [by right|]. destruct (f x) eqn:E.
  - left. exists [], x, l. auto.
  - destruct IH as [(l1 & y & l2 & -> & Hf & Hy & Hfind)|[Hf Hn]].
    + left. exists (x :: l1), y, l2. split_and!; auto.
    + right. auto.
Qed.

(** The place of a new entry: before the first one that it precedes. *)
Fixpoint insert_alpha (caseindep : bool) (s : entry) l : list entry :=
  match l with
  | [] => [s]
  | y :: l' => if str_compare caseindep s.2 y.2 <? 0 then s :: l else y :: insert_alpha caseindep s l'
  end.

Lemma insert_alpha_split ci s l1 l2 :
  Forall (λ y, (str_compare ci s.2 y.2 <? 0) = false) l1 →
  match l2 with [] => True | y :: _ => (str_compare ci s.2 y.2 <? 0) = true end →
  insert_alpha ci s (l1 ++ l2) = l1 ++ s :: l2.
Proof.
  intros H1 H2. induction H1 as [|y l1 Hy H1 IH]; simpl.
  - destruct l2 as [|y l2]; [done|]. simpl. by rewrite H2.
  - by rewrite Hy, IH.
Qed.

Lemma strlinkalpha_ok h e l s nd ci :
  dlist h e l → s ∉ locs l → h !! s = Some nd →
  op_spec h (strlinkalpha s h e ci) (s :: locs l) (insert_alpha ci (s, n_str nd) l).
Proof.
  intros Hl Hs Hnd. pose proof Hl as (Hd & Hn & He). unfold strlinkalpha.
  destruct l as [|x l]; [subst e; by apply strlinkhead_ok|].
  rewrite He at 1. cbn [l_head head_or]. rewrite Hnd. cbn [mbind option_bind].
  pose proof (dlist_size _ _ _ _ Hd Hn) as Hsz.
  rewrite (walk_dseg _ _ (λ t, str_compare ci (n_str nd) t <? 0) h None (x :: l)); [|done|lia|].
  2:{ by apply Forall_forall. }
  cbn [mbind option_bind].
  destruct (find_split (λ y, str_compare ci (n_str nd) y.2 <? 0) (x :: l))
    as [(l1 & y & l2 & El & Hl1 & Hy & ->)|[Hf ->]]; cbn [fmap option_fmap option_map].
  - rewrite El, insert_alpha_split by done. destruct l1 as [|z l1].
    + injection El as -> ->. rewrite decide_True by done. by apply strlinkhead_ok.
    + injection El as -> ->. rewrite decide_False.
      * destruct y as [y ty]. by apply (strlinkbefore_ok h e (z :: l1)).
      * intros Hyz. apply NoDup_cons in Hn as [Hn _]. apply Hn.
        rewrite <-Hyz. change (y.1 ∈ locs (l1 ++ y :: l2)). rewrite locs_app, elem_of_app. right. by left.
  - pose proof (insert_alpha_split ci (s, n_str nd) (x :: l) [] Hf I) as Hi. rewrite app_nil_r in Hi.
    rewrite Hi. by apply strlinktail_ok.
Qed.

Lemma insert_alpha_perm ci s l : insert_alpha ci s l ≡ₚ s :: l.
Proof.
  induction l as [|y l IH]; simpl; [done|]. case_if; [done|]. rewrite IH. apply perm_swap.
Qed.

Lemma str_compare_flip ci a b : str_compare ci b a = - str_compare ci a b.
Proof. unfold str_compare, strcasecmp, strcmp. destruct ci; apply strcmp_by_antisym. Qed.

Lemma insert_alpha_sorted ci s l :
  Sorted (λ x y, str_compare ci x.2 y.2 ≤ 0) l →
  Sorted (λ x y, str_compare ci x.2 y.2 ≤ 0) (insert_alpha ci s l).
Proof.
  induction 1 as [|y l Hl IH Hy]; simpl; [by repeat constructor|].
  destruct (Z.ltb_spec (str_compare ci s.2 y.2) 0) as [Hlt|Hge].
  - constructor; [by constructor|]. constructor. lia.
  - constructor; [done|]. pose proof (str_compare_flip ci s.2 y.2).
    destruct l as [|z l]; simpl; [constructor; lia|]. inv Hy. case_if; constructor; lia.
Qed.

Lemma strgetnode_ok h e l s ci pat f :
  dlist h e l → Forall (λ x, str_test s ci pat x.2 = Some (f x.2)) l →
  strgetnode s h (l_head e) ci pat = Some (fst <$> List.find (λ x, f x.2) l).
Proof.
  intros (Hd & Hn & ->) Hf. pose proof (dlist_size _ _ _ _ Hd Hn). unfold strgetnode.
  cbn [l_head]. eapply walk_dseg; [done|lia|done].
Qed.
End walk.

(** ** Main properties *)

(** On a well-formed list every operation is defined (no null or dangling
    pointer is followed), yields a well-formed list, and implements its list
    operation: insertion at the head, at the tail, after and before a node, and
    removal of a node; nodes outside the list and the new node are not written. *)
Theorem strlist_ops_correct h e l1 i ti l2 s nd :
  dlist h e (l1 ++ (i, ti) :: l2) → s ∉ locs (l1 ++ (i, ti) :: l2) → h !! s = Some nd →
  let l := l1 ++ (i, ti) :: l2 in
  op_spec h (strlinkhead s h e) (s :: locs l) ((s, n_str nd) :: l) ∧
  op_spec h (strlinktail s h e) (s :: locs l) (l ++ [(s, n_str nd)]) ∧
  op_spec h (strlinkafter s i h e) (s :: locs l) ((l1 ++ [(i, ti)]) ++ (s, n_str nd) :: l2) ∧
  op_spec h (strlinkbefore s i h e) (s :: locs l) (l1 ++ (s, n_str nd) :: (i, ti) :: l2) ∧
  op_spec h (strunlink i h e) (locs l) (l1 ++ l2).
Proof.
  intros Hl Hs Hnd. split_and!; [by apply strlinkhead_ok|by apply strlinktail_ok|
    by apply strlinkafter_ok|by apply strlinkbefore_ok|by apply strunlink_ok].
Qed.

(** A list of two nodes and a third, unlinked node. *)
Definition example_heap : heap :=
  <[1%positive := Node (Some 2%positive) None (str "amy")]>
  (<[2%positive := Node None (Some 1%positive) (str "Zoe")]>
  (<[3%positive := Node None None (str "bob")]> ∅)).
Definition example_ends : ends := Ends (Some 1%positive) (Some 2%positive).
Definition example_list : list entry := [(1%positive, str "amy"); (2%positive, str "Zoe")].

Lemma example_dlist : dlist example_heap example_ends example_list.
Proof. split; [by repeat split|]. split; [by apply (bool_decide_unpack _)|done]. Qed.

Lemma strlist_ops_correct_witness :
  op_spec example_heap (strunlink 2 example_heap example_ends) [1; 2]%positive [(1%positive, str "amy")].
Proof.
  destruct (strlist_ops_correct example_heap example_ends [(1%positive, str "amy")] 2 (str "Zoe") [] 3
    (Node None None (str "bob")) example_dlist) as (_ & _ & _ & _ & H); [|reflexivity|exact H].
  by apply (bool_decide_unpack _).
Defined.

(** Alphabetical insertion keeps a sorted list sorted, adds exactly the
    new entry, and is defined on every well-formed list. *)
Theorem strlinkalpha_sorted h e l s nd ci :
  dlist h e l → s ∉ locs l → h !! s = Some nd →
  Sorted (λ x y, str_compare ci x.2 y.2 ≤ 0) l →
  ∃ h' e' l', strlinkalpha s h e ci = Some (h', e') ∧ dlist h' e' l' ∧
    l' ≡ₚ (s, n_str nd) :: l ∧ Sorted (λ x y, str_compare ci x.2 y.2 ≤ 0) l'.
Proof.
  intros Hl Hs Hnd Hso. destruct (strlinkalpha_ok h e l s nd ci Hl Hs Hnd) as (h' & e' & E & Hl' & _).
  exists h', e', (insert_alpha ci (s, n_str nd) l). split_and!; [done|done|apply insert_alpha_perm|].
  by apply insert_alpha_sorted.
Qed.

Lemma strlinkalpha_sorted_witness :
  ∃ h' e' l', strlinkalpha 3 example_heap example_ends true = Some (h', e') ∧ dlist h' e' l' ∧
    l' ≡ₚ (3%positive, str "bob") :: example_list ∧ Sorted (λ x y, str_compare true x.2 y.2 ≤ 0) l'.
Proof.
  apply (strlinkalpha_sorted example_heap example_ends example_list 3 (Node None None (str "bob")));
    [exact example_dlist|by apply (bool_decide_unpack _)|reflexivity|].
  repeat constructor. vm_compute. discriminate.
Defined.
