(* ===== verification/NameList.v ===== *)
(** * Name lists (server/namelist.c)

    Bounded most-recently-used lists of names on top of [StrList]: the
    invitation, hush and notify lists of the server.  The operations work on the
    shared heap; [nl_rep] ties a [NAMLIST] to the sequence of its names and the
    position of its cursor, and every operation is shown to refine an operation
    on that sequence ([mru_put], [mru_delete], ...).  The handlers of the other
    files use these sequences. *)

From Stdlib Require Import ZArith Lia.
From stdpp Require Import gmap.
From S2P Require Import Prelude Wildmat StrList.

Local Open Scope Z_scope.

Record namlist : Type := Namlist {
  nl_ends : ends; nl_p : option loc; nl_num : Z; nl_max : Z
}.

(** ** The code *)

Section code.
Context `{Malloc}.

Definition case_test (name x : cstring) : option bool := Some (strcasecmp name x =? 0).

(** A new node with the name, at the head: [malloc], [strcpy], [strlinkhead],
    [num++]; the last component tells whether [malloc] succeeded. *)
Definition nl_new (h : heap) (nl : namlist) (name : cstring) : option (heap * namlist * bool) :=
  match malloc h (sizeof_STRLIST + Z.of_nat (length name)) with
  | None => Some (h, nl, false)
  | Some (sp, nd) =>
      let h := <[sp := Node (next nd) (prev nd) name]> h in
      '(h, e) ← strlinkhead sp h (nl_ends nl);
      Some (h, Namlist e (nl_p nl) (nl_num nl + 1) (nl_max nl), true)
  end.

(** [nl->p = nl->head] *)
Definition reset_p (nl : namlist) : namlist :=
  Namlist (nl_ends nl) (l_head (nl_ends nl)) (nl_num nl) (nl_max nl).

Definition nlput (h : heap) (nl : namlist) (name : cstring) : option (heap * namlist) :=
  found ← walk (S (size h)) (case_test name) h (l_head (nl_ends nl));
  match found with
  | Some sp =>
      '(h, e) ← strunlink sp h (nl_ends nl);
      '(h, e) ← strlinkhead sp h e;
      Some (h, reset_p (Namlist e (nl_p nl) (nl_num nl) (nl_max nl)))
  | None =>
      if nl_num nl <? nl_max nl then
        '(h, nl, ok) ← nl_new h nl name;
        Some (h, if ok : bool then reset_p nl else nl)
      else
        sp ← l_tail (nl_ends nl);
        '(h, e) ← strunlink sp h (nl_ends nl);
        h ← free h sp;
        '(h, nl, ok) ← nl_new h (Namlist e (nl_p nl) (nl_num nl - 1) (nl_max nl)) name;
        Some (h, if ok : bool then reset_p nl else nl)
  end.

Definition nlget (h : heap) (nl : namlist) : option (cstring * namlist) :=
  p ← nl_p nl;
  nd ← h !! p;
  let p' := match next nd with None => l_head (nl_ends nl) | q => q end in
  Some (n_str nd, Namlist (nl_ends nl) p' (nl_num nl) (nl_max nl)).

(** [nl.num] converted to [unsigned int]. *)
Definition nlcount (nl : namlist) : Z := nl_num nl mod 2 ^ 32.

Fixpoint free_all (fuel : nat) (h : heap) (p : option loc) : option heap :=
  match p with
  | None => Some h
  | Some x =>
      match fuel with
      | O => None
      | S fuel => nd ← h !! x; h' ← free h x; free_all fuel h' (next nd)
      end
  end.

Definition nlclear (h : heap) (nl : namlist) : option (heap * namlist) :=
  h' ← free_all (S (size h)) h (l_head (nl_ends nl));
  Some (h', Namlist (Ends None None) None 0 (nl_max nl)).

Definition nlinit (max : Z) : namlist := Namlist (Ends None None) None 0 max.

(** Returns 0 or -1 with the new state. *)
Definition nldelete (h : heap) (nl : namlist) (name : cstring) : option (heap * namlist * Z) :=
  namep ← strgetnode name h (l_head (nl_ends nl)) true false;
  match namep with
  | None => Some (h, nl, -1)
  | Some x =>
      '(h, e) ← strunlink x h (nl_ends nl);
      h ← free h x;
      let nl := reset_p (Namlist e (nl_p nl) (nl_num nl) (nl_max nl)) in
      if 0 <? nl_num nl then
        let n := nl_num nl - 1 in
        Some (h, Namlist (nl_ends nl) (if n =? 0 then None else nl_p nl) n (nl_max nl), 0)
      else Some (h, nl, 0)
  end.

Definition nlpresent (h : heap) (name : cstring) (nl : namlist) : option bool :=
  if 0 <? nl_num nl then
    r ← strgetnode name h (l_head (nl_ends nl)) true false; Some (bool_decide (is_Some r))
  else Some false.

Definition nlmatch (h : heap) (name : cstring) (nl : namlist) : option bool :=
  if 0 <? nl_num nl then
    r ← strgetnode name h (l_head (nl_ends nl)) true true; Some (bool_decide (is_Some r))
  else Some false.
End code.

(** ** The sequence of names and its operations *)

(** The entry equal to [name] without regard to case moves to the front with
    the spelling it had; a new name goes to the front, and the last one is
    discarded when the list is full. *)
Fixpoint mru_remove (name : cstring) (l : list cstring) : list cstring :=
  match l with
  | [] => []
  | x :: l' => if strcaseeq name x then l' else x :: mru_remove name l'
  end.

Definition mru_present (name : cstring) (l : list cstring) : bool := existsb (strcaseeq name) l.

Definition mru_put (max : nat) (name : cstring) (l : list cstring) : list cstring :=
  match List.find (strcaseeq name) l with
  | Some x => x :: mru_remove name l
  | None => name :: (if (length l <? max)%nat then l else take (length l - 1) l)
  end.

Definition mru_delete (name : cstring) (l : list cstring) : list cstring * Z :=
  if mru_present name l then (mru_remove name l, 0) else (l, -1).

(** ** Representation *)

Definition nl_rep (h : heap) (nl : namlist) (l : list entry) (cursor : nat) : Prop :=
  dlist h (nl_ends nl) l ∧ nl_num nl = Z.of_nat (length l) ∧ nl_num nl ≤ nl_max nl < 2 ^ 31 ∧
  nl_p nl = fst <$> l !! cursor ∧ (cursor < length l ∨ (cursor = 0 ∧ l = []))%nat.

Definition names (l : list entry) : list cstring := map snd l.

(** Live nodes outside the list are not touched. *)
Definition others (l : list entry) (h h' : heap) : Prop :=
  ∀ x nd, h !! x = Some nd → x ∉ locs l → h' !! x = Some nd.

Lemma others_rep l h h' nl2 l2 c2 :
  others l h h' → locs l2 ## locs l → nl_rep h nl2 l2 c2 → nl_rep h' nl2 l2 c2.
Proof.
  intros Ho Hd ((Hs & Hn & He) & Hr). split; [|done]. split; [|done].
  eapply dseg_agree; [|done]. intros x Hx. destruct (dseg_lookup _ _ _ _ x Hs Hx) as [nd Hnd].
  rewrite Hnd. apply Ho; [done|]. set_solver.
Qed.

Section proofs.
Context `{Malloc}.
Implicit Types (h : heap) (l : list entry) (nl : namlist).

Lemma reset_p_rep h e l p max :
  dlist h e l → Z.of_nat (length l) ≤ max < 2 ^ 31 →
  nl_rep h (reset_p (Namlist e p (Z.of_nat (length l)) max)) l 0.
Proof.
  intros Hd Hm. split; [done|]. split; [done|]. split; [done|]. split.
  - destruct Hd as (_ & _ & ->). by destruct l as [|[x t] l].
  - destruct l; simpl; [by right|left; lia].
Qed.

Lemma find_names name l1 x l2 :
  Forall (λ y, strcaseeq name y.2 = false) l1 → strcaseeq name x.2 = true →
  List.find (strcaseeq name) (names (l1 ++ x :: l2)) = Some x.2 ∧
  mru_remove name (names (l1 ++ x :: l2)) = names (l1 ++ l2).
Proof.
  intros Hl Hx. unfold names. rewrite !map_app. induction Hl as [|y l1 Hy Hl [IH1 IH2]]; simpl.
  - by rewrite Hx.
  - simpl in *. by rewrite Hy, IH1, IH2.
Qed.

Lemma find_names_none name l :
  Forall (λ y, strcaseeq name y.2 = false) l →
  List.find (strcaseeq name) (names l) = None ∧ mru_present name (names l) = false.
Proof. induction 1 as [|y l Hy Hl [IH1 IH2]]; simpl; [done|]. by rewrite Hy, IH1. Qed.

Lemma free_dlist h e l x :
  dlist h e l → x ∉ locs l → dlist (delete x h) e l.
Proof. intros (Hd & Hn & He) Hx. split; [by apply dseg_delete|done]. Qed.

Lemma nl_new_ok h e l p max name x nd :
  dlist h e l → Z.of_nat (length l) < max < 2 ^ 31 →
  malloc h (sizeof_STRLIST + Z.of_nat (length name)) = Some (x, nd) →
  ∃ h' nl', nl_new h (Namlist e p (Z.of_nat (length l)) max) name = Some (h', nl', true) ∧
    nl_rep h' (reset_p nl') ((x, name) :: l) 0 ∧ nl_max nl' = max ∧ others l h h'.
Proof.
  intros Hd Hm Em. pose proof (malloc_fresh _ _ _ _ Em) as Hfr. unfold nl_new. rewrite Em. cbn [nl_ends].
  assert (x ∉ locs l) as Hx.
  { intros Hin. destruct Hd as (Hd & _). destruct (dseg_lookup _ _ _ _ x Hd Hin); congruence. }
  assert (dlist (<[x := Node (next nd) (prev nd) name]> h) e l) as Hd'.
  { destruct Hd as (Hd & ?). split; [by apply dseg_insert|done]. }
  destruct (strlinkhead_ok _ _ _ x _ Hd' Hx (lookup_insert_eq _ _ _)) as (h' & e' & -> & Hd2 & Hf).
  cbn [mbind option_bind nl_p nl_num nl_max]. do 2 eexists. split; [reflexivity|]. split_and!.
  - replace (Z.of_nat (length l) + 1) with (Z.of_nat (length ((x, name) :: l))) by (simpl; lia).
    apply reset_p_rep; [done|simpl; lia].
  - done.
  - intros y ny Hy Hyl. assert (y ≠ x) by congruence.
    rewrite (Hf y), lookup_insert_ne by set_solver. done.
Qed.

(** Moving an entry to the front. *)
Lemma move_front_ok h e l1 x t l2 :
  dlist h e (l1 ++ (x, t) :: l2) →
  ∃ h1 e1 h2 e2, strunlink x h e = Some (h1, e1) ∧ strlinkhead x h1 e1 = Some (h2, e2) ∧
    dlist h2 e2 ((x, t) :: l1 ++ l2) ∧ others (l1 ++ (x, t) :: l2) h h2.
Proof.
  intros Hd. destruct (strunlink_ok _ _ _ _ _ _ Hd) as (h1 & e1 & E1 & Hd1 & Hf1).
  pose proof Hd as (Hs & Hn & _). apply dseg_app in Hs as [_ [Hx _]]. cbn [fst snd] in Hx.
  assert (x ∉ locs (l1 ++ l2)) as Hxl.
  { rewrite locs_app, NoDup_app in Hn. destruct Hn as (_ & Hn1 & [Hn2 _]%NoDup_cons).
    rewrite locs_app. set_solver. }
  assert (∃ nd, h1 !! x = Some nd ∧ n_str nd = t) as (nd & Hnd & <-).
  { by destruct (strunlink_strs _ _ _ _ _ E1 _ _ Hx) as (nd & ? & ?); exists nd. }
  destruct (strlinkhead_ok _ _ _ x _ Hd1 Hxl Hnd) as (h2 & e2 & E2 & Hd2 & Hf2).
  exists h1, e1, h2, e2. split_and!; try done.
  intros y ny Hy Hyl. rewrite (Hf2 y), (Hf1 y); [done|done|].
  rewrite locs_app in *. set_solver.
Qed.

Lemma case_walk h e l name :
  dlist h e l →
  walk (S (size h)) (case_test name) h (l_head e) = Some (fst <$> List.find (λ x, strcaseeq name x.2) l).
Proof.
  intros (Hd & Hn & ->). cbn [l_head]. pose proof (dlist_size _ _ _ _ Hd Hn).
  apply (walk_dseg _ _ (strcaseeq name) h None); [done|lia|]. by apply Forall_forall.
Qed.

Lemma unlink_free_ok h e l1 x t l2 :
  dlist h e (l1 ++ (x, t) :: l2) →
  ∃ h1 e1, strunlink x h e = Some (h1, e1) ∧ free h1 x = Some (delete x h1) ∧
    dlist (delete x h1) e1 (l1 ++ l2) ∧ others (l1 ++ (x, t) :: l2) h (delete x h1) ∧
    delete x h1 !! x = None.
Proof.
  intros Hd. destruct (strunlink_ok _ _ _ _ _ _ Hd) as (h1 & e1 & E1 & Hd1 & Hf1).
  pose proof Hd as (Hs & Hn & _). apply dseg_app in Hs as [_ [Hx _]]. cbn [fst snd] in Hx.
  assert (x ∉ locs (l1 ++ l2)) as Hxl.
  { rewrite locs_app, NoDup_app in Hn. destruct Hn as (_ & Hn1 & [Hn2 _]%NoDup_cons).
    rewrite locs_app. set_solver. }
  destruct (strunlink_strs _ _ _ _ _ E1 _ _ Hx) as (nd & Hnd & _).
  exists h1, e1. split_and!; [done| | |intros y ny Hy Hyl|apply lookup_delete_eq].
  - unfold free. by rewrite Hnd.
  - by apply free_dlist.
  - rewrite lookup_delete_ne; [by rewrite (Hf1 y)|]. intros ->. apply Hyl. rewrite locs_app. set_solver.
Qed.

(** The list and cursor after [nlput], for a [malloc] that succeeds. *)
Lemma nlput_ok h nl l c name :
  nl_rep h nl l c → 0 < nl_max nl → (∀ h', is_Some (malloc h' (sizeof_STRLIST + Z.of_nat (length name)))) →
  ∃ h' nl' l', nlput h nl name = Some (h', nl') ∧ nl_rep h' nl' l' 0 ∧
    names l' = mru_put (Z.to_nat (nl_max nl)) name (names l) ∧ nl_max nl' = nl_max nl ∧ others l h h'.
Proof.
  intros (Hd & Hnum & Hmax & Hp & Hc) H0 Hm. unfold nlput, mru_put.
  rewrite (case_walk _ _ _ _ Hd). cbn [mbind option_bind].
  destruct (find_split (λ x, strcaseeq name x.2) l)
    as [(l1 & [x t] & l2 & -> & Hl1 & Hx & ->)|[Hf ->]]; cbn [fmap option_fmap option_map fst].
  - destruct (find_names name l1 (x, t) l2 Hl1 Hx) as [-> ->].
    destruct (move_front_ok _ _ _ _ _ _ Hd) as (h1 & e1 & h2 & e2 & -> & E2 & Hd2 & Ho).
    cbn [mbind option_bind]. rewrite E2. cbn [mbind option_bind].
    do 3 eexists. split; [reflexivity|].
    assert (length (l1 ++ (x, t) :: l2) = length ((x, t) :: l1 ++ l2)) as El
      by (simpl; rewrite !length_app; simpl; lia).
    rewrite Hnum in *. rewrite El in *. split; [by apply reset_p_rep|]. done.
  - destruct (find_names_none name l Hf) as [-> _].
    unfold names; rewrite length_map.
    destruct (Z.ltb_spec (nl_num nl) (nl_max nl)) as [Hlt|Hge].
    + destruct (Hm h) as [[x nd] Em]. destruct nl as [e p num max]. cbn [nl_num nl_max nl_ends nl_p] in *. subst num.
      destruct (nl_new_ok h e l p max name x nd) as (h' & nl' & -> & Hr & <- & Ho); [done|lia|done|].
      cbn [mbind option_bind]. exists h', (reset_p nl'), ((x, name) :: l). split_and!; try done.
      simpl. destruct (Nat.ltb_spec (length l) (Z.to_nat (nl_max nl'))); [done|lia].
    + destruct l as [|[z tz] l _] using rev_ind; [simpl in *; lia|].
      pose proof Hd as (_ & _ & He).
      assert (l_tail (nl_ends nl) = Some z) as -> by (rewrite He; cbn [l_tail]; by rewrite last_or_snoc).
      cbn [mbind option_bind].
      destruct (unlink_free_ok _ _ l z tz [] Hd) as (h1 & e1 & -> & Ef & Hd1 & Ho1 & Hz).
      cbn [mbind option_bind]. rewrite Ef. cbn [mbind option_bind]. rewrite app_nil_r in Hd1.
      destruct (Hm (delete z h1)) as [[x nd] Em].
      rewrite length_app in *. cbn [length] in *.
      replace (nl_num nl - 1) with (Z.of_nat (length l)) by lia.
      destruct (nl_new_ok (delete z h1) e1 l (nl_p nl) (nl_max nl) name x nd)
        as (h' & nl' & -> & Hr & Hmx & Ho); [done|lia|done|].
      cbn [mbind option_bind]. exists h', (reset_p nl'), ((x, name) :: l). split_and!; try done.
      * simpl. destruct (Nat.ltb_spec (length l + 1) (Z.to_nat (nl_max nl))); [lia|].
        f_equal. replace (length l + 1 - 1)%nat with (length l) by lia.
        by rewrite firstn_map, take_app_length.
      * intros y ny Hy Hyl. apply Ho; [by apply Ho1|]. rewrite locs_app in Hyl. set_solver.
Qed.

Lemma names_present name l :
  mru_present name (names l) = existsb (λ x, strcaseeq name x.2) l.
Proof. unfold mru_present, names. induction l as [|x l IH]; simpl; [done|]. by rewrite IH. Qed.

Lemma getnode_case h e l name :
  dlist h e l →
  strgetnode name h (l_head e) true false = Some (fst <$> List.find (λ x, strcaseeq name x.2) l).
Proof. intros Hd. eapply (strgetnode_ok _ _ _ _ _ _ (strcaseeq name)); [done|]. by apply Forall_forall. Qed.

Lemma nldelete_ok h nl l c name :
  nl_rep h nl l c →
  ∃ h' nl' l' c', nldelete h nl name = Some (h', nl', (mru_delete name (names l)).2) ∧
    nl_rep h' nl' l' c' ∧ names l' = (mru_delete name (names l)).1 ∧
    nl_max nl' = nl_max nl ∧ others l h h'.
Proof.
  intros Hrep. pose proof Hrep as (Hd & Hnum & Hmax & Hp & Hc). unfold nldelete, mru_delete.
  rewrite (getnode_case _ _ _ _ Hd), names_present. cbn [mbind option_bind].
  destruct (find_split (λ x, strcaseeq name x.2) l)
    as [(l1 & [x t] & l2 & -> & Hl1 & Hx & ->)|[Hf ->]]; cbn [fmap option_fmap option_map fst].
  - destruct (find_names name l1 (x, t) l2 Hl1 Hx) as [_ Hrm]. rewrite Hrm.
    assert (existsb (λ x, strcaseeq name x.2) (l1 ++ (x, t) :: l2) = true) as ->.
    { rewrite existsb_app. simpl. cbn [snd] in Hx. rewrite Hx. by rewrite orb_true_r. }
    destruct (unlink_free_ok _ _ _ _ _ _ Hd) as (h1 & e1 & -> & Ef & Hd1 & Ho & _).
    cbn [mbind option_bind]. rewrite Ef. cbn [mbind option_bind].
    rewrite length_app in *. cbn [length] in *. cbn [nl_num reset_p nl_ends nl_p nl_max fst snd].
    destruct (Z.ltb_spec 0 (nl_num nl)); [|lia]. do 2 eexists. exists (l1 ++ l2), 0%nat.
    split; [reflexivity|]. split_and!; try done.
    replace (nl_num nl - 1) with (Z.of_nat (length (l1 ++ l2))) by (rewrite length_app; lia).
    destruct (reset_p_rep (delete x h1) e1 (l1 ++ l2) (nl_p nl) (nl_max nl)) as (R1 & R2 & R3 & R4 & R5);
      [done|rewrite length_app; lia|].
    split; [done|]. split; [done|]. split; [done|]. split; [|done].
    cbn [nl_p reset_p nl_ends] in *. rewrite R4. destruct (Z.eqb_spec (Z.of_nat (length (l1 ++ l2))) 0); [|done]. by destruct (l1 ++ l2).
  - assert (existsb (λ x, strcaseeq name x.2) l = false) as ->.
    { rewrite <-names_present. by apply find_names_none. }
    exists h, nl, l, c. split; [done|]. split; [done|]. split; [done|]. split; [done|]. by intros ???.
Qed.

Lemma nlget_ok h nl l c :
  nl_rep h nl l c → l ≠ [] →
  ∃ nl', nlget h nl = Some (default [] (names l !! c), nl') ∧ nl_rep h nl' l (S c mod length l).
Proof.
  intros (Hd & Hnum & Hmax & Hp & Hc) Hne. destruct Hc as [Hc|[_ ->]]; [|done].
  destruct (lookup_lt_is_Some_2 l c Hc) as [[x t] Hx].
  unfold nlget. rewrite Hp, Hx. cbn [fmap option_fmap option_map mbind option_bind fst].
  pose proof (take_drop_middle l c (x, t) Hx) as El. destruct Hd as (Hs & Hn & He).
  pose proof Hs as Hs'. rewrite <-El in Hs'. apply dseg_app in Hs' as [_ [Hnd _]]. cbn [fst snd] in Hnd.
  rewrite Hnd. cbn [mbind option_bind next n_str].
  exists (Namlist (nl_ends nl) (fst <$> l !! (S c mod length l)%nat) (nl_num nl) (nl_max nl)).
  assert (names l !! c = Some t) as ->. { unfold names. rewrite list_lookup_fmap, Hx. done. }
  split.
  - do 3 f_equal. destruct (drop (S c) l) as [|y l2] eqn:Ed.
    + assert (S c = length l) as HSc.
      { apply (f_equal length) in Ed. rewrite length_drop in Ed. simpl in Ed. lia. }
      rewrite HSc, Nat.Div0.mod_same, He. simpl. by destruct l.
    + assert (S c < length l)%nat as HSc.
      { apply (f_equal length) in Ed. rewrite length_drop in Ed. simpl in Ed. lia. }
      rewrite Nat.mod_small by done. simpl. rewrite <-(Nat.add_0_r (S c)), <-lookup_drop, Ed. done.
  - split; [done|]. split; [done|]. split; [done|]. split; [done|]. left. apply Nat.mod_upper_bound. by destruct l.
Qed.

Lemma free_all_ok fuel h pp l :
  dseg h pp l None → NoDup (locs l) → (length l ≤ fuel)%nat →
  ∃ h', free_all fuel h (head_or l None) = Some h' ∧
    ∀ x, h' !! x = if decide (x ∈ locs l) then None else h !! x.
Proof.
  revert h pp fuel. induction l as [|[x t] l IH]; intros h pp fuel Hd Hn Hl.
  { exists h. split; [by destruct fuel|]. intros x. rewrite decide_False; [done|]. apply not_elem_of_nil. }
  destruct fuel as [|fuel]; simpl in Hl; [lia|]. destruct Hd as [Hx Hd]. cbn [fst snd] in *.
  apply NoDup_cons in Hn as [Hxl Hn]. cbn [free_all head_or fst]. rewrite Hx. cbn [mbind option_bind next].
  unfold free. rewrite Hx. cbn [mbind option_bind].
  destruct (IH (delete x h) (Some x) fuel) as (h' & -> & Hh'); [by apply dseg_delete|done|lia|].
  exists h'. split; [done|]. intros y. rewrite Hh'.
  destruct (decide (y ∈ locs l)) as [Hy|Hy].
  - rewrite decide_True; [done|]. by right.
  - destruct (decide (y = x)) as [->|Hyx].
    + rewrite decide_True by by left. apply lookup_delete_eq.
    + rewrite decide_False by (intros [->|?]%elem_of_cons; done). by apply lookup_delete_ne.
Qed.
End proofs.

(** ** Main properties *)

(** C31: [nlput] refines the most-recently-used list: it is defined (follows no
    null or dangling pointer), moves a known name to the front, adds a new one
    and discards the oldest when full; the count never exceeds [max], the cursor
    is at the front, and the nodes of every other list are left alone. *)
Theorem nlput_refines `{Malloc} h nl l c name :
  nl_rep h nl l c → 0 < nl_max nl →
  (∀ h', is_Some (malloc h' (sizeof_STRLIST + Z.of_nat (length name)))) →
  ∃ h' nl' l', nlput h nl name = Some (h', nl') ∧ nl_rep h' nl' l' 0 ∧
    names l' = mru_put (Z.to_nat (nl_max nl)) name (names l) ∧ nl_max nl' = nl_max nl ∧ others l h h'.
Proof. apply nlput_ok. Qed.

(** A [malloc] that takes the first address not in use. *)
Definition bump_malloc (h : heap) (size : Z) : option (loc * node) :=
  Some (fresh (dom h), Node None None []).
Lemma bump_malloc_fresh h n x nd : bump_malloc h n = Some (x, nd) → h !! x = None.
Proof. intros [= <- _]. apply not_elem_of_dom, is_fresh. Qed.
Definition BumpMalloc : Malloc := {| malloc := bump_malloc; malloc_fresh := bump_malloc_fresh |}.

Definition example_nl : namlist := Namlist example_ends (Some 2%positive) 2 2.
Lemma example_nl_rep : nl_rep example_heap example_nl example_list 1.
Proof. split; [exact example_dlist|]. repeat split; simpl; lia. Qed.

Lemma nlput_refines_witness :
  ∃ h' nl' l', nlput (H := BumpMalloc) example_heap example_nl (str "cat") = Some (h', nl') ∧
    nl_rep h' nl' l' 0 ∧ names l' = [str "cat"; str "amy"] ∧ nl_max nl' = 2 ∧
    others example_list example_heap h'.
Proof.
  apply (nlput_refines (H := BumpMalloc) example_heap example_nl example_list 1 (str "cat") example_nl_rep);
    [reflexivity|]. intros h'. eexists. reflexivity.
Defined.

(** [nldelete] removes the entry equal to the name without regard to
    case and returns 0, or returns -1 and changes nothing. *)
Theorem nldelete_refines h nl l c name :
  nl_rep h nl l c →
  ∃ h' nl' l' c', nldelete h nl name = Some (h', nl', (mru_delete name (names l)).2) ∧
    nl_rep h' nl' l' c' ∧ names l' = (mru_delete name (names l)).1 ∧
    nl_max nl' = nl_max nl ∧ others l h h'.
Proof. apply nldelete_ok. Qed.

Lemma nldelete_refines_witness :
  ∃ h' nl' l' c', nldelete example_heap example_nl (str "AMY") = Some (h', nl', 0) ∧
    nl_rep h' nl' l' c' ∧ names l' = [str "Zoe"] ∧ nl_max nl' = 2 ∧ others example_list example_heap h'.
Proof. exact (nldelete_refines example_heap example_nl example_list 1 (str "AMY") example_nl_rep). Defined.

(** The results of [n] calls of [nlget]. *)
Fixpoint nlget_n (n : nat) (h : heap) (nl : namlist) : option (list cstring * namlist) :=
  match n with
  | O => Some ([], nl)
  | S n => '(s, nl) ← nlget h nl; '(ss, nl) ← nlget_n n h nl; Some (s :: ss, nl)
  end.

Lemma nlget_n_ok h nl l c n :
  nl_rep h nl l c → l ≠ [] → (c + n ≤ length l)%nat →
  ∃ nl', nlget_n n h nl = Some (take n (drop c (names l)), nl') ∧
    nl_rep h nl' l ((c + n) mod length l).
Proof.
  intros Hr Hne. revert nl c Hr. induction n as [|n IH]; intros nl c Hr Hn.
  { exists nl. split; [done|]. destruct Hr as (R1 & R2 & R3 & R4 & R5).
    destruct R5 as [R5|[_ ->]]; [|done]. rewrite Nat.add_0_r, Nat.mod_small by done. do 4 (split; [done|]). by left. }
  destruct (nlget_ok h nl l c Hr Hne) as (nl1 & E1 & Hr1). cbn [nlget_n]. rewrite E1. cbn [mbind option_bind].
  assert (c < length l)%nat as Hc by lia.
  destruct (lookup_lt_is_Some_2 (names l) c) as [t Ht]; [unfold names; by rewrite length_map|].
  rewrite (drop_S _ _ _ Ht), Ht. cbn [default].
  destruct n as [|n].
  { cbn [nlget_n mbind option_bind]. exists nl1. split; [done|]. by replace (c + 1)%nat with (S c) by lia. }
  rewrite Nat.mod_small in Hr1 by lia. destruct (IH nl1 (S c) Hr1) as (nl' & -> & Hr'); [lia|].
  cbn [mbind option_bind]. exists nl'. split; [done|]. by replace (c + S (S n))%nat with (S c + S n)%nat by lia.
Qed.

(** [length] successive calls of [nlget] after a reset return the names
    in order, once each, and bring the cursor back to the front. *)
Theorem nlget_cycles h nl l :
  nl_rep h nl l 0 → l ≠ [] →
  ∃ nl', nlget_n (Z.to_nat (nlcount nl)) h nl = Some (names l, nl') ∧ nl_rep h nl' l 0.
Proof.
  intros Hr Hne. pose proof Hr as (_ & Hnum & Hmax & _).
  assert (Z.to_nat (nlcount nl) = length l) as ->.
  { unfold nlcount. rewrite Z.mod_small by lia. lia. }
  destruct (nlget_n_ok h nl l 0 (length l) Hr Hne) as (nl' & E & Hr'); [lia|]. exists nl'.
  rewrite E. simpl in Hr'. rewrite Nat.Div0.mod_same in Hr'. split; [|done].
  rewrite drop_0, take_ge; [done|]. unfold names. by rewrite length_map.
Qed.

Lemma nlget_cycles_witness :
  ∃ nl', nlget_n 2 example_heap (Namlist example_ends (Some 1%positive) 2 2) =
    Some ([str "amy"; str "Zoe"], nl') ∧ nl_rep example_heap nl' example_list 0.
Proof.
  apply (nlget_cycles example_heap (Namlist example_ends (Some 1%positive) 2 2) example_list); [|done].
  split; [exact example_dlist|]. repeat split; simpl; lia.
Defined.

(** [nlclear] releases exactly the nodes of the list and leaves it empty. *)
Theorem nlclear_frees h nl l c :
  nl_rep h nl l c →
  ∃ h' nl', nlclear h nl = Some (h', nl') ∧ nl_rep h' nl' [] 0 ∧ nl_max nl' = nl_max nl ∧
    ∀ x, h' !! x = if decide (x ∈ locs l) then None else h !! x.
Proof.
  intros ((Hd & Hn & He) & Hnum & Hmax & _). unfold nlclear. rewrite He. cbn [l_head].
  pose proof (dlist_size _ _ _ _ Hd Hn).
  destruct (free_all_ok (S (size h)) h None l Hd Hn) as (h' & -> & Hh'); [lia|]. cbn [mbind option_bind].
  do 2 eexists. split; [reflexivity|]. split_and!; try done. cbn. unfold nl_rep, dlist. simpl.
  split_and!; try done; try lia; [constructor|]. by right.
Qed.

Lemma nlclear_frees_witness :
  ∃ h' nl', nlclear example_heap example_nl = Some (h', nl') ∧ nl_rep h' nl' [] 0 ∧ nl_max nl' = 2 ∧
    ∀ x, h' !! x = if decide (x ∈ locs example_list) then None else example_heap !! x.
Proof. exact (nlclear_frees example_heap example_nl example_list 1 example_nl_rep). Defined.

Lemma find_is_Some (g : entry → bool) l :
  bool_decide (is_Some (fst <$> List.find g l)) = existsb g l.
Proof. induction l as [|x l IH]; [done|]. simpl. by destruct (g x). Qed.

(** [nlpresent] tells whether the name is on the list, without regard to
    case; [nlmatch] whether it matches an entry, when every entry is a
    well-formed pattern. *)
Theorem nl_tests_correct h nl l c name ts :
  nl_rep h nl l c → Forall2 pattern (names l) ts →
  nlpresent h name nl = Some (mru_present name (names l)) ∧
  nlmatch h name nl = Some (existsb (λ t, tmatch t name) ts).
Proof.
  intros (Hd & Hnum & _) Hts. unfold nlpresent, nlmatch. destruct (Z.ltb_spec 0 (nl_num nl)) as [Hlt|Hge].
  - rewrite (getnode_case _ _ _ _ Hd), names_present. cbn [mbind option_bind].
    set (f := λ p, default false (wildmat name p)).
    assert (Forall (λ x : entry, str_test name true true x.2 = Some (f x.2)) l ∧
      existsb (λ x : entry, f x.2) l = existsb (λ t, tmatch t name) ts) as [Hf Hex].
    { clear -Hts. revert ts Hts. unfold names. induction l as [|x l IH]; simpl; intros ts Hts; inv Hts; [done|].
      destruct (IH _ H3) as [IH1 IH2]. pose proof (wildmat_pattern name _ _ H1) as Hw. split.
      - constructor; [|done]. unfold f. simpl. by rewrite Hw.
      - simpl. rewrite IH2. unfold f. by rewrite Hw. }
    rewrite (strgetnode_ok _ _ _ _ _ _ f Hd Hf). cbn [mbind option_bind]. rewrite <-Hex.
    by rewrite !find_is_Some.
  - destruct l; simpl in *; [|lia]. inv Hts. done.
Qed.

Lemma nl_tests_correct_witness :
  nlpresent example_heap (str "zoe") example_nl = Some true ∧
  nlmatch example_heap (str "amy") example_nl = Some true.
Proof.
  destruct (nl_tests_correct example_heap example_nl example_list 1 (str "zoe")
    [TLit <$> str "amy"; TLit <$> str "Zoe"]%byte example_nl_rep) as [H _].
  { repeat constructor; by apply (bool_decide_unpack _). }
  destruct (nl_tests_correct example_heap example_nl example_list 1 (str "amy")
    [TLit <$> str "amy"; TLit <$> str "Zoe"]%byte example_nl_rep) as [_ H'].
  { repeat constructor; by apply (bool_decide_unpack _). }
  by split.
Defined.

(** When [nlput] runs out of memory on a full list, after it has released
    the last entry, a cursor that was on that entry is left dangling, and the
    next [nlget] reads freed memory. *)
Theorem nlput_oom_dangling `{Malloc} h nl l x t name :
  nl_rep h nl (l ++ [(x, t)]) (length l) → nl_num nl = nl_max nl →
  mru_present name (names (l ++ [(x, t)])) = false → (∀ h' n, malloc h' n = None) →
  ∃ h' nl', nlput h nl name = Some (h', nl') ∧ nlget h' nl' = None.
Proof.
  intros (Hd & Hnum & Hmax & Hp & Hc) Hfull Hnp Hm. unfold nlput.
  rewrite (case_walk _ _ _ _ Hd). cbn [mbind option_bind].
  destruct (find_split (λ x, strcaseeq name x.2) (l ++ [(x, t)]))
    as [(l1 & y & l2 & El & Hl1 & Hy & ->)|[Hf ->]].
  { exfalso. rewrite names_present, El, existsb_app in Hnp. simpl in Hnp. rewrite Hy, orb_true_r in Hnp. done. }
  cbn [fmap option_fmap option_map]. destruct (Z.ltb_spec (nl_num nl) (nl_max nl)); [lia|].
  pose proof Hd as (_ & _ & He).
  assert (l_tail (nl_ends nl) = Some x) as -> by (rewrite He; cbn [l_tail]; by rewrite last_or_snoc).
  cbn [mbind option_bind].
  destruct (unlink_free_ok _ _ l x t [] Hd) as (h1 & e1 & -> & Ef & _ & _ & Hx).
  cbn [mbind option_bind]. rewrite Ef. cbn [mbind option_bind]. unfold nl_new. rewrite Hm.
  cbn [mbind option_bind]. do 2 eexists. split; [reflexivity|].
  unfold nlget. cbn [nl_p]. rewrite Hp, list_lookup_middle by done. cbn [fmap option_fmap option_map mbind option_bind fst].
  by rewrite Hx.
Qed.

Definition FailMalloc : Malloc := {|
  malloc := λ _ _, None; malloc_fresh := λ h n x nd (E : None = Some (x, nd)), ltac:(discriminate)
|}.

Lemma nlput_oom_dangling_witness :
  ∃ h' nl', nlput (H := FailMalloc) example_heap example_nl (str "cat") = Some (h', nl') ∧ nlget h' nl' = None.
Proof.
  apply (nlput_oom_dangling (H := FailMalloc) example_heap example_nl [(1%positive, str "amy")] 2 (str "Zoe"));
    [exact example_nl_rep|reflexivity|reflexivity|done].
Defined.
