(* ===== verification/Lookup.v ===== *)
(** * Command tables (server/lookup.c, server/lookup.h, server/globals.c)

    The tables that give commands, group settings and server commands their
    numbers, and the case-insensitive search in them. *)

From Stdlib Require Import ZArith Lia.
From S2P Require Import Prelude.

Local Open Scope Z_scope.

Definition command_table : list cstring :=
  [str "drop"; str "shutdown"; str "wall"; str "beep"; str "cancel"; str "g"; str "invite"; str
   "pass"; str "boot"; str "status"; str "topic"; str "motd"; str "m"; str "echoback"; str
   "name"; str "v"; str "w"; str "whereis"; str "restart"; str "news"; str "hush"; str "shush";
   str "s_help"; str "exclude"; str "shuttime"; str "notify"; str "talk"; str "ping"; str
   "nobeep"; str "away"; str "noaway"; str "log"; str "stats"; str "brick"].

Definition status_table : list cstring :=
  [str "r"; str "m"; str "p"; str "i"; str "s"; str "v"; str "q"; str "n"; str "l"; str "name";
   str "?"; str "c"; str "#"; str "b"; str "idlebootmsg"; str "im"].

Definition auto_table : list cstring :=
  [str "read"; str "whois"; str "p"; str "rname"; str "write"; str "text"; str "addr"; str
   "phone"; str "delete"; str "info"; str "help"; str "?"; str "cp"; str "email"; str "secure";
   str "nosecure"; str "www"].

(** The settings of lookup.h. *)
Definition SET_RESTRICT := 0.
Definition SET_MODERATE := 1.
Definition SET_PUBLIC := 2.
Definition SET_INVISIBLE := 3.
Definition SET_SECRET := 4.
Definition SET_VISIBLE := 5.
Definition SET_QUIET := 6.
Definition SET_NORMAL := 7.
Definition SET_LOUD := 8.
Definition SET_NAME := 9.
Definition SET_QUESTION := 10.
Definition SET_CONTROL := 11.
Definition SET_SIZE := 12.
Definition SET_IDLEBOOT := 13.
Definition SET_IDLEBOOT_MSG := 14.
Definition SET_IDLEMOD := 15.

(** The loop of [lookup] from index [i] on. *)
Fixpoint lookup_from (i : Z) (s : cstring) (table : list cstring) : Z :=
  match table with
  | [] => -1
  | t :: table' => if strcasecmp s t =? 0 then i else lookup_from (i + 1) s table'
  end.

(** [lookup(s, table)]: the tables end with a null pointer, here the end of the list. *)
Definition lookup_cmd (s : cstring) (table : list cstring) : Z := lookup_from 0 s table.

Lemma lookup_from_spec i s T :
  lookup_from i s T =
  match find_index (strcaseeq s) T with Some k => i + Z.of_nat k | None => -1 end.
Proof.
  revert i. induction T as [|t T IH]; intros i; simpl; [done|]. fold (strcaseeq s t).
  destruct (strcaseeq s t); [simpl; lia|]. rewrite IH. destruct (find_index _ T); simpl; lia.
Qed.

Lemma lookup_cmd_spec s T :
  lookup_cmd s T = match find_index (strcaseeq s) T with Some k => Z.of_nat k | None => -1 end.
Proof. unfold lookup_cmd. rewrite lookup_from_spec. by destruct (find_index _ T). Qed.

(** Any spelling of an entry of a table without duplicates is found at its index. *)
Lemma lookup_cmd_unique T s i t :
  NoDup (map casefold T) → T !! i = Some t → strcaseeq s t = true → lookup_cmd s T = Z.of_nat i.
Proof.
  intros Hn Ht Hs. rewrite lookup_cmd_spec.
  assert (find_index (strcaseeq s) T = Some i) as ->; [|done].
  apply find_index_Some. split; [by exists t|]. intros j y Hj Hy.
  destruct (strcaseeq s y) eqn:E; [|done]. exfalso.
  apply strcaseeq_casefold in E, Hs.
  assert (j = i); [|lia]. eapply (NoDup_lookup (map casefold T)); [done| |].
  - by rewrite list_lookup_fmap, Hy.
  - by rewrite list_lookup_fmap, Ht; simpl; congruence.
Qed.

(** In each of the three tables every entry, in any mixture of cases, is
    looked up to its own index, and a word that is no entry gives -1. *)
Theorem lookup_tables s T :
  T ∈ [command_table; status_table; auto_table] →
  (∀ i t, T !! i = Some t → strcaseeq s t = true → lookup_cmd s T = Z.of_nat i) ∧
  (lookup_cmd s T = -1 ↔ ∀ t, t ∈ T → strcaseeq s t = false).
Proof.
  intros HT. assert (NoDup (map casefold T)) as Hn.
  { rewrite !elem_of_cons, elem_of_nil in HT. destruct HT as [->|[->|[->|[]]]]; by apply (bool_decide_unpack _). }
  split; [intros; by eapply lookup_cmd_unique|]. rewrite lookup_cmd_spec. split.
  - destruct (find_index _ T) as [k|] eqn:E; [lia|]. intros _ t [i Hi]%list_elem_of_lookup.
    by eapply find_index_None.
  - intros Ha. assert (find_index (strcaseeq s) T = None) as ->; [|done].
    apply find_index_None. intros i x Hx. apply Ha. by eapply list_elem_of_lookup_2.
Qed.

Lemma lookup_tables_witness :
  lookup_cmd (str "IdleBootMsg") status_table = SET_IDLEBOOT_MSG ∧ lookup_cmd (str "kick") command_table = -1.
Proof.
  split.
  - destruct (lookup_tables (str "IdleBootMsg") status_table) as [H _]; [by apply (bool_decide_unpack _)|].
    exact (H 14%nat (str "idlebootmsg") eq_refl eq_refl).
  - destruct (lookup_tables (str "kick") command_table) as [_ H]; [by apply (bool_decide_unpack _)|].
    apply H. apply Forall_forall. by apply (bool_decide_unpack (Forall (λ t, strcaseeq (str "kick") t = false) command_table)).
Defined.
