(* ===== verification/Dbm.v ===== *)
(** * The record store (server/icb_dbm.c)

    The replacement of ndbm: a chained hash table in memory, loaded from and
    flushed to one flat file.  Keys and values are byte strings whose lengths
    are the [klen] and [vlen] of the code; 32-bit arithmetic is written out.
    Allocation may fail at each call ([mem]), the device may fill up, and the
    file calls may fail ([io]).  The table is shown to implement a finite map,
    and the file format to round-trip. *)

From Stdlib Require Import ZArith Lia.
From S2P Require Import Prelude.

Local Open Scope Z_scope.

Definition bytes := list byte.

(** ** Little-endian 32-bit integers *)

Definition u32 (z : Z) : Z := z mod 2 ^ 32.

Definition put32 (v : Z) : bytes :=
  [to_uchar v; to_uchar (Z.shiftr v 8); to_uchar (Z.shiftr v 16); to_uchar (Z.shiftr v 24)].

Definition get32 (b : bytes) : Z :=
  let at_ i := uchar (default x00 (b !! i)) in
  Z.lor (Z.lor (Z.lor (at_ 0%nat) (Z.shiftl (at_ 1%nat) 8)) (Z.shiftl (at_ 2%nat) 16))
        (Z.shiftl (at_ 3%nat) 24).

(** ** Hashing *)

Definition fnv1a_step (h : Z) (c : byte) : Z := u32 (Z.lxor h (uchar c) * 16777619).
Definition fnv1a (data : bytes) : Z := foldl fnv1a_step 2166136261 data.

(** ** State *)

Record dentry : Type := Entry { key : bytes; val : bytes }.

Record dbm : Type := Dbm {
  dirty : bool;
  buckets : list (list dentry);
  nentries : Z;
  fetch_buf : bytes
}.

Definition nbuckets (db : dbm) : Z := Z.of_nat (length (buckets db)).

Definition ICB_DBM_INIT_BUCKETS : nat := 128.
Definition ICB_DBM_MAX_RECSIZE : Z := 2 ^ 20.
Definition ICB_DBM_MAGIC : bytes := ["I"; "D"; "B"; x01]%byte.

(** The outcome of the allocations of one call, by site. *)
Record mem : Type := Mem { mem_table : bool; mem_entry : bool; mem_value : bool }.

(** ** Hash-table operations *)

Definition bucket_of (bs : list (list dentry)) (k : bytes) : nat :=
  Z.to_nat (fnv1a k mod Z.of_nat (length bs)).

(** [e->next = nb[h]; nb[h] = e;] *)
Definition push_entry (bs : list (list dentry)) (e : dentry) : list (list dentry) :=
  alter (cons e) (bucket_of bs (key e)) bs.

Definition ht_resize (ok : bool) (db : dbm) (new_n : Z) : option dbm :=
  if ok then
    Some (Dbm (dirty db)
      (foldl (λ nb b, foldl push_entry nb b) (replicate (Z.to_nat new_n) []) (buckets db))
      (nentries db) (fetch_buf db))
  else None.

Definition key_is (k : bytes) (e : dentry) : bool := bool_decide (key e = k).

Definition ht_find (db : dbm) (k : bytes) : option dentry :=
  List.find (key_is k) (default [] (buckets db !! bucket_of (buckets db) k)).

(** [if (db->nentries * 4 >= db->nbuckets * 3) ht_resize(db, db->nbuckets * 2)] *)
Definition ht_grow (ok : bool) (db : dbm) : option dbm :=
  if u32 (nbuckets db * 3) <=? u32 (nentries db * 4) then ht_resize ok db (u32 (nbuckets db * 2))
  else Some db.

(** Unlinking the entry that [ht_find] returns. *)
Fixpoint bucket_remove (k : bytes) (b : list dentry) : list dentry :=
  match b with
  | [] => []
  | e :: b' => if key_is k e then b' else e :: bucket_remove k b'
  end.

(** Replacing its value in place. *)
Fixpoint bucket_set (k v : bytes) (b : list dentry) : list dentry :=
  match b with
  | [] => []
  | e :: b' => if key_is k e then Entry (key e) v :: b' else e :: bucket_set k v b'
  end.

(** Linking a new entry at the head of its bucket, [nentries++]. *)
Definition ht_insert (db : dbm) (e : dentry) (d : bool) : dbm :=
  Dbm d (push_entry (buckets db) e) (u32 (nentries db + 1)) (fetch_buf db).

(** ** Fetch, store, delete *)

(** The value, and the handle with its fetch buffer; the buffer cannot grow when
    [realloc] fails. *)
Definition dbm_fetch (ok : bool) (db : dbm) (k : bytes) : option bytes * dbm :=
  match ht_find db k with
  | None => (None, db)
  | Some e =>
      let need := (length (val e) + 1)%nat in
      if (length (fetch_buf db) <? need)%nat && negb ok then (None, db)
      else
        (Some (val e),
         Dbm (dirty db) (buckets db) (nentries db)
           (val e ++ [x00] ++ drop need (fetch_buf db)))
  end.

Inductive store_flag : Type := DBM_INSERT | DBM_REPLACE.

Definition dbm_store (m : mem) (db : dbm) (k v : bytes) (flags : store_flag) : Z * dbm :=
  match ht_find db k with
  | Some _ =>
      match flags with
      | DBM_INSERT => (1, db)
      | DBM_REPLACE =>
          if mem_value m then
            (0, Dbm true (alter (bucket_set k v) (bucket_of (buckets db) k) (buckets db))
                  (nentries db) (fetch_buf db))
          else (-1, db)
      end
  | None =>
      match ht_grow (mem_table m) db with
      | None => (-1, db)
      | Some db =>
          if mem_entry m then (0, ht_insert db (Entry k v) true) else (-1, db)
      end
  end.

Definition dbm_delete (db : dbm) (k : bytes) : Z * dbm :=
  match ht_find db k with
  | None => (-1, db)
  | Some _ =>
      (0, Dbm true (alter (bucket_remove k) (bucket_of (buckets db) k) (buckets db))
            (u32 (nentries db - 1)) (fetch_buf db))
  end.

(** ** Files *)

(** [xread]: the [i]-th [read] returns at most [S (chunk i)] bytes; [None] at
    the end of the file. *)
Fixpoint xread (chunk : nat → nat) (fuel i : nat) (file : bytes) (n : nat) : option (bytes * bytes) :=
  match n with
  | O => Some ([], file)
  | _ =>
      match fuel with
      | O => None
      | S fuel =>
          let r := (n `min` (S (chunk i) `min` length file))%nat in
          if (r =? 0)%nat then None
          else
            '(bs, rest) ← xread chunk fuel (S i) (drop r file) (n - r);
            Some (take r file ++ bs, rest)
      end
  end.

Definition xread_n (chunk : nat → nat) (file : bytes) (n : nat) : option (bytes * bytes) :=
  xread chunk n 0 file n.

(** [xwrite] on a device that accepts [cap] bytes in all: the new contents. *)
Definition xwrite (cap : nat) (out buf : bytes) : option bytes :=
  if (length out + length buf <=? cap)%nat then Some (out ++ buf) else None.

(** *** Loading *)

Section load.
Context (chunk : nat → nat) (m : nat → mem).

(** The loop over the records: [i] of them are still to be read. *)
Fixpoint load_records (n : nat) (db : dbm) (file : bytes) : option dbm :=
  match n with
  | O => Some db
  | S n' =>
      '(rh, file) ← xread_n chunk file 8;
      let klen := get32 rh in
      let vlen := get32 (drop 4 rh) in
      if (ICB_DBM_MAX_RECSIZE <? klen) || (ICB_DBM_MAX_RECSIZE <? vlen) then None
      else if negb (mem_value (m n)) then None
      else
        '(k, file) ← xread_n chunk file (Z.to_nat klen);
        '(v, file) ← xread_n chunk file (Z.to_nat vlen);
        db ← ht_grow (mem_table (m n)) db;
        if mem_entry (m n) then load_records n' (ht_insert db (Entry k v) (dirty db)) file
        else None
  end.

(** [load_file]: [None] for the result -1.  [file] is [None] when the file
    does not exist. *)
Definition load_file (db : dbm) (file : option bytes) : option dbm :=
  match file with
  | None => Some db
  | Some file =>
      '(hdr, file) ← xread_n chunk file 8;
      if negb (bool_decide (take 4 hdr = ICB_DBM_MAGIC)) then None
      else load_records (Z.to_nat (get32 (drop 4 hdr))) db file
  end.

Definition empty_dbm : dbm := Dbm false (replicate ICB_DBM_INIT_BUCKETS []) 0 [].

Definition dbm_open (file : option bytes) : option dbm := load_file empty_dbm file.
End load.

(** *** Flushing *)

(** The database file and the temporary file beside it. *)
Record disk : Type := Disk { main_file : option bytes; tmp_file : option bytes }.

(** Which of the calls of [flush_file] fail, and the room on the device. *)
Record flush_io : Type := FlushIo { io_open : bool; io_cap : nat; io_fsync : bool; io_rename : bool }.

Definition record_header (e : dentry) : bytes :=
  put32 (u32 (Z.of_nat (length (key e)))) ++ put32 (u32 (Z.of_nat (length (val e)))).

Definition write_entry (cap : nat) (out : bytes) (e : dentry) : option bytes :=
  out ← xwrite cap out (record_header e);
  out ← xwrite cap out (key e);
  xwrite cap out (val e).

Definition write_all (cap : nat) (db : dbm) : option bytes :=
  out ← xwrite cap [] (ICB_DBM_MAGIC ++ put32 (nentries db));
  foldl (λ out b, foldl (λ out e, out ← out; write_entry cap out e) out b) (Some out) (buckets db).

Definition flush_file (io : flush_io) (db : dbm) (d : disk) : Z * dbm * disk :=
  if negb (dirty db) then (0, db, d)
  else if negb (io_open io) then (-1, db, d)
  else
    match write_all (io_cap io) db with
    | None => (-1, db, Disk (main_file d) None)
    | Some out =>
        if negb (io_fsync io) then (-1, db, Disk (main_file d) None)
        else if negb (io_rename io) then (-1, db, Disk (main_file d) (Some out))
        else (0, Dbm false (buckets db) (nentries db) (fetch_buf db), Disk (Some out) None)
    end.

(** [dbm_close]: the memory is released; what remains is the disk. *)
Definition dbm_close (io : flush_io) (db : dbm) (d : disk) : disk := (flush_file io db d).2.

(** ** 32-bit integers on disk *)

Lemma get32_cons a b c d r :
  get32 (a :: b :: c :: d :: r) =
  Z.lor (Z.lor (Z.lor (uchar a) (Z.shiftl (uchar b) 8)) (Z.shiftl (uchar c) 16)) (Z.shiftl (uchar d) 24).
Proof. reflexivity. Qed.

Lemma get32_put32_app v r : 0 ≤ v < 2 ^ 32 → get32 (put32 v ++ r) = v.
Proof.
  intros Hv. unfold put32. cbn [app]. rewrite get32_cons.
  rewrite !uchar_to_uchar, !Z.shiftr_div_pow2, !Z.shiftl_mul_pow2 by lia.
  set (a := v mod 256). set (b := v / 2 ^ 8 mod 256). set (c := v / 2 ^ 16 mod 256).
  set (d := v / 2 ^ 24 mod 256).
  assert (0 ≤ a < 256 ∧ 0 ≤ b < 256 ∧ 0 ≤ c < 256 ∧ 0 ≤ d < 256) as (Ha & Hb & Hc & Hd)
    by (split_and!; apply Z.mod_pos_bound; lia).
  assert (∀ x y n, 0 ≤ n → 0 ≤ x < 2 ^ n → Z.lor x (y * 2 ^ n) = x + y * 2 ^ n) as Hlor.
  { intros x y n Hn Hx. rewrite <-Z.lxor_lor, <-Z.add_nocarry_lxor; [done| |];
      apply Z.bits_inj'; intros i Hi; rewrite Z.land_spec, Z.bits_0;
      (destruct (Z.lt_ge_cases i n); [rewrite (Z.mul_pow2_bits_low y) by lia; apply andb_false_r|]);
      (replace x with (x mod 2 ^ n) by (apply Z.mod_small; lia));
      by rewrite Z.mod_pow2_bits_high by lia. }
  rewrite (Hlor a b 8), (Hlor (a + b * 2 ^ 8) c 16), (Hlor (a + b * 2 ^ 8 + c * 2 ^ 16) d 24) by lia.
  subst a b c d. Z.div_mod_to_equations. lia.
Qed.

Lemma put32_length v : length (put32 v) = 4%nat.
Proof. done. Qed.

(** ** Buckets *)

Definition entries (db : dbm) : list dentry := concat (buckets db).

Definition placed (bs : list (list dentry)) : Prop :=
  ∀ i b e, bs !! i = Some b → e ∈ b → bucket_of bs (key e) = i.

Definition wf (db : dbm) : Prop :=
  placed (buckets db) ∧ NoDup (map key (entries db)) ∧
  nentries db = Z.of_nat (length (entries db)) ∧
  128 ≤ nbuckets db ∧ nentries db * 4 < nbuckets db * 3 + 4.

Lemma bucket_of_lt bs k : (0 < length bs)%nat → (bucket_of bs k < length bs)%nat.
Proof.
  intros H. unfold bucket_of. pose proof (Z.mod_pos_bound (fnv1a k) (Z.of_nat (length bs))). lia.
Qed.

Lemma bucket_of_length bs bs' k : length bs = length bs' → bucket_of bs k = bucket_of bs' k.
Proof. intros H. unfold bucket_of. by rewrite H. Qed.

Lemma bucket_split (bs : list (list dentry)) i :
  (i < length bs)%nat →
  ∃ l1 b l2, bs = l1 ++ b :: l2 ∧ bs !! i = Some b ∧ ∀ f, alter f i bs = l1 ++ f b :: l2.
Proof.
  intros Hi. destruct (lookup_lt_is_Some_2 bs i Hi) as [b Hb].
  exists (take i bs), b, (drop (S i) bs). pose proof (take_drop_middle bs i b Hb) as E.
  split_and!; [done|done|]. intros f. rewrite <-E at 1.
  assert (length (take i bs) = i) as Hl by (rewrite length_take; lia).
  rewrite <-Hl at 1. by rewrite <-(Nat.add_0_r (length (take i bs))), alter_app_r.
Qed.

Lemma placed_alter bs i f :
  placed bs → (∀ b e, bs !! i = Some b → e ∈ f b → bucket_of bs (key e) = i) → placed (alter f i bs).
Proof.
  intros Hp Hf j b e Hj He. rewrite (bucket_of_length _ bs) by apply length_alter.
  destruct (decide (i = j)) as [->|Hne].
  - rewrite list_lookup_alter, decide_True in Hj by done. apply fmap_Some in Hj as (b' & Hb' & ->). by eapply Hf.
  - rewrite list_lookup_alter_ne in Hj by done. by eapply Hp.
Qed.

Lemma push_entry_perm bs e :
  (0 < length bs)%nat → concat (push_entry bs e) ≡ₚ e :: concat bs.
Proof.
  intros Hl. unfold push_entry.
  destruct (bucket_split bs (bucket_of bs (key e))) as (l1 & b & l2 & E & _ & ->); [by apply bucket_of_lt|].
  rewrite E at 1. rewrite !concat_app. simpl. by rewrite <-Permutation_middle.
Qed.

Lemma push_entry_length bs e : length (push_entry bs e) = length bs.
Proof. apply length_alter. Qed.

Lemma push_entry_placed bs e : placed bs → placed (push_entry bs e).
Proof.
  intros Hp. apply placed_alter; [done|]. intros b e' Hb [->|He]%elem_of_cons; [done|by eapply Hp].
Qed.

Lemma foldl_push bs es :
  (0 < length bs)%nat → placed bs →
  placed (foldl push_entry bs es) ∧ concat (foldl push_entry bs es) ≡ₚ es ++ concat bs ∧
  length (foldl push_entry bs es) = length bs.
Proof.
  revert bs. induction es as [|e es IH]; intros bs Hl Hp; simpl; [done|].
  destruct (IH (push_entry bs e)) as (H1 & H2 & H3);
    [by rewrite push_entry_length|by apply push_entry_placed|].
  split_and!; [done| |by rewrite H3, push_entry_length].
  rewrite H2, push_entry_perm by done. by rewrite <-Permutation_middle.
Qed.

Lemma foldl_buckets nb bbs :
  foldl (λ nb b, foldl push_entry nb b) nb bbs = foldl push_entry nb (concat bbs).
Proof. revert nb. induction bbs as [|b bbs IH]; intros nb; simpl; [done|]. by rewrite foldl_app, IH. Qed.

Lemma concat_replicate_nil {A} n : concat (replicate n (@nil A)) = [].
Proof. induction n; simpl; auto. Qed.

Lemma placed_empty n : placed (replicate n []).
Proof. intros i b e [-> _]%lookup_replicate He. by apply elem_of_nil in He. Qed.

Lemma entries_empty : entries empty_dbm = [].
Proof. apply (concat_replicate_nil ICB_DBM_INIT_BUCKETS). Qed.

Lemma empty_wf : wf empty_dbm.
Proof.
  unfold wf. rewrite entries_empty. split_and!; [apply placed_empty|constructor|done..].
Qed.

(** Growing keeps the entries. *)
Lemma ht_resize_ok db n :
  wf db → nbuckets db ≤ n →
  ∃ db', ht_resize true db n = Some db' ∧ wf db' ∧ entries db' ≡ₚ entries db ∧
    nbuckets db' = n ∧ nentries db' = nentries db ∧ dirty db' = dirty db.
Proof.
  intros (Hp & Hn & He & Hb & Hload) Hn'. unfold ht_resize. eexists. split; [reflexivity|].
  rewrite foldl_buckets.
  destruct (foldl_push (replicate (Z.to_nat n) []) (concat (buckets db))) as (H1 & H2 & H3);
    [rewrite length_replicate; lia|apply placed_empty|].
  rewrite concat_replicate_nil, app_nil_r in H2. rewrite length_replicate in H3.
  unfold wf, entries, nbuckets in *. cbn [buckets nentries dirty]. rewrite H3. split_and!; try done; try lia.
  - by rewrite H2.
  - by rewrite H2.
Qed.

Lemma ht_grow_ok db :
  wf db → nbuckets db ≤ 2 ^ 30 →
  ∃ db', ht_grow true db = Some db' ∧ wf db' ∧ entries db' ≡ₚ entries db ∧
    nentries db' = nentries db ∧ dirty db' = dirty db ∧ nentries db' * 4 < nbuckets db' * 3 ∧
    (nbuckets db' = nbuckets db ∨ nbuckets db' * 3 ≤ nentries db' * 8) ∧
    nbuckets db' ≤ 2 * nbuckets db.
Proof.
  intros Hwf Hnb. pose proof Hwf as (_ & _ & He & Hb & Hload). unfold ht_grow, u32.
  rewrite !Z.mod_small by lia. destruct (Z.leb_spec (nbuckets db * 3) (nentries db * 4)) as [Hle|Hlt].
  - destruct (ht_resize_ok db (nbuckets db * 2) Hwf) as (db' & E & Hwf' & Hperm & Hnb' & Hne & Hd); [lia|].
    exists db'. split_and!; try done; lia.
  - exists db. split_and!; try done; [by left|lia].
Qed.

(** ** The table as a map *)

Definition get (db : dbm) (k : bytes) : option bytes := val <$> ht_find db k.

Lemma key_is_spec k e : key_is k e = true ↔ key e = k.
Proof. apply bool_decide_eq_true. Qed.

Lemma NoDup_key_eq es e1 e2 :
  NoDup (map key es) → e1 ∈ es → e2 ∈ es → key e1 = key e2 → e1 = e2.
Proof.
  intros Hn [i Hi]%list_elem_of_lookup [j Hj]%list_elem_of_lookup Hk.
  assert (i = j) as ->; [|congruence].
  eapply (NoDup_lookup (map key es)); [done|by rewrite list_lookup_fmap, Hi|].
  by rewrite list_lookup_fmap, Hj; simpl; rewrite Hk.
Qed.

Lemma in_entries db e : e ∈ entries db ↔ ∃ i b, buckets db !! i = Some b ∧ e ∈ b.
Proof.
  unfold entries. rewrite list_elem_of_In, in_concat. split.
  - intros (b & Hb & He). apply list_elem_of_In, list_elem_of_lookup in Hb as [i Hi].
    exists i, b. by rewrite list_elem_of_In.
  - intros (i & b & Hi & He). exists b. rewrite <-!list_elem_of_In. split; [by eapply list_elem_of_lookup_2|done].
Qed.

Lemma ht_find_iff db k e : wf db → ht_find db k = Some e ↔ e ∈ entries db ∧ key e = k.
Proof.
  intros (Hp & Hn & _ & Hb & _). unfold ht_find.
  assert ((bucket_of (buckets db) k < length (buckets db))%nat) as Hlt
    by (apply bucket_of_lt; unfold nbuckets in Hb; lia).
  destruct (lookup_lt_is_Some_2 _ _ Hlt) as [b Eb]. rewrite Eb. change (default [] (Some b)) with b. split.
  - intros [Hin Hk]%List.find_some. apply key_is_spec in Hk. split; [|done].
    apply in_entries. do 2 eexists. rewrite list_elem_of_In. done.
  - intros [Hin Hk]. destruct (List.find (key_is k) b) as [e'|] eqn:E.
    + apply List.find_some in E as [Hin' Hk'%key_is_spec]. f_equal.
      eapply NoDup_key_eq; [done| |done|congruence]. apply in_entries. do 2 eexists. by rewrite list_elem_of_In.
    + exfalso. apply in_entries in Hin as (i & b' & Hi & He).
      pose proof (Hp _ _ _ Hi He) as Hbk. rewrite Hk in Hbk. assert (b' = b) as -> by congruence.
      eapply List.find_none in E; [|by rewrite <-list_elem_of_In].
      apply not_true_iff_false in E. apply E. by apply key_is_spec.
Qed.

Lemma get_iff db k v : wf db → get db k = Some v ↔ Entry k v ∈ entries db.
Proof.
  intros Hwf. unfold get. rewrite fmap_Some. split.
  - intros (e & [He Hk]%ht_find_iff & ->); [|done]. by destruct e; simpl in *; subst.
  - intros He. exists (Entry k v). split; [|done]. by apply ht_find_iff.
Qed.

Lemma get_ext db db' k :
  wf db → wf db' → (∀ v, Entry k v ∈ entries db ↔ Entry k v ∈ entries db') → get db k = get db' k.
Proof.
  intros Hw Hw' He. apply option_eq. intros v. rewrite !get_iff by done. apply He.
Qed.

Lemma get_None db k : wf db → get db k = None ↔ k ∉ map key (entries db).
Proof.
  intros Hw. split.
  - intros Hg (e & -> & He)%list_elem_of_fmap. destruct e as [k v].
    apply (get_iff db k v Hw) in He. simpl in Hg. congruence.
  - intros Hk. destruct (get db k) as [v|] eqn:E; [|done]. apply get_iff in E; [|done].
    exfalso. apply Hk. apply list_elem_of_fmap. by exists (Entry k v).
Qed.

Lemma ht_find_None db k : wf db → ht_find db k = None → k ∉ map key (entries db).
Proof. intros Hw H. apply get_None; [done|]. unfold get. by rewrite H. Qed.

(** *** Insertion of a new key *)

Lemma ht_insert_ok db k v d :
  wf db → k ∉ map key (entries db) → nentries db * 4 < nbuckets db * 3 → nbuckets db < 2 ^ 32 →
  wf (ht_insert db (Entry k v) d) ∧ entries (ht_insert db (Entry k v) d) ≡ₚ Entry k v :: entries db ∧
  nbuckets (ht_insert db (Entry k v) d) = nbuckets db ∧
  nentries (ht_insert db (Entry k v) d) = nentries db + 1.
Proof.
  intros (Hp & Hn & He & Hb & Hl) Hk Hload Hnb.
  assert (entries (ht_insert db (Entry k v) d) ≡ₚ Entry k v :: entries db) as Hperm.
  { apply push_entry_perm. unfold nbuckets in Hb. lia. }
  assert (nbuckets (ht_insert db (Entry k v) d) = nbuckets db) as Hnb'.
  { unfold nbuckets, ht_insert. cbn [buckets]. by rewrite push_entry_length. }
  assert (nentries (ht_insert db (Entry k v) d) = nentries db + 1) as Hne.
  { unfold ht_insert, u32. cbn [nentries]. apply Z.mod_small. lia. }
  split; [|done]. unfold wf. rewrite Hne, Hnb', Hperm. split_and!; try lia.
  - by apply push_entry_placed.
  - simpl. by constructor.
  - simpl. lia.
Qed.

(** *** Changes inside the bucket of a key *)

Lemma bucket_set_keys k v b : map key (bucket_set k v b) = map key b.
Proof. induction b as [|e b IH]; simpl; [done|]. destruct (key_is k e); simpl; congruence. Qed.

Lemma bucket_set_length k v b : length (bucket_set k v b) = length b.
Proof. by rewrite <-(length_map key), bucket_set_keys, length_map. Qed.

Lemma bucket_set_other k v b e : key e ≠ k → e ∈ bucket_set k v b ↔ e ∈ b.
Proof.
  intros Hk. induction b as [|x b IH]; simpl; [done|]. destruct (key_is k x) eqn:E.
  - apply key_is_spec in E. rewrite !elem_of_cons. split; (intros [->|H]; [|by right]);
      simpl in Hk; congruence.
  - rewrite !elem_of_cons, IH. done.
Qed.

Lemma bucket_set_self k v b : k ∈ map key b → Entry k v ∈ bucket_set k v b.
Proof.
  induction b as [|x b IH]; simpl; [intros H; by apply elem_of_nil in H|].
  destruct (key_is k x) eqn:E.
  - apply key_is_spec in E as <-. intros _. by left.
  - apply not_true_iff_false in E. rewrite key_is_spec in E.
    intros [->|H]%elem_of_cons; [done|]. right. by apply IH.
Qed.

Lemma bucket_remove_perm k e b :
  List.find (key_is k) b = Some e → b ≡ₚ e :: bucket_remove k b.
Proof.
  induction b as [|x b IH]; simpl; [done|]. destruct (key_is k x); [by intros [= ->]|].
  intros H. rewrite (IH H) at 1. apply perm_swap.
Qed.

Lemma bucket_alter_split db k :
  wf db →
  ∃ l1 b l2, buckets db = l1 ++ b :: l2 ∧ default [] (buckets db !! bucket_of (buckets db) k) = b ∧
    ∀ f, alter f (bucket_of (buckets db) k) (buckets db) = l1 ++ f b :: l2.
Proof.
  intros (_ & _ & _ & Hb & _).
  destruct (bucket_split (buckets db) (bucket_of (buckets db) k)) as (l1 & b & l2 & E1 & E2 & E3).
  { apply bucket_of_lt. unfold nbuckets in Hb. lia. }
  exists l1, b, l2. by rewrite E2.
Qed.

(** ** Store, delete, fetch *)

Definition mem_ok : mem := Mem true true true.

Lemma dbm_store_ok db k v :
  wf db → nbuckets db ≤ 2 ^ 30 →
  ∃ db', dbm_store mem_ok db k v DBM_REPLACE = (0, db') ∧ wf db' ∧ dirty db' = true ∧
    (∀ k', get db' k' = if decide (k' = k) then Some v else get db k') ∧
    nbuckets db' ≤ 2 * nbuckets db.
Proof.
  intros Hw Hnb. unfold dbm_store. destruct (ht_find db k) as [e|] eqn:Ef.
  - eexists. split; [reflexivity|]. apply ht_find_iff in Ef as [Hin Hke]; [|done].
    destruct (bucket_alter_split db k Hw) as (l1 & b & l2 & E1 & E2 & E3). cbn [mem_ok mem_value].
    set (db' := Dbm _ _ _ _). pose proof Hw as (Hp & Hn & He & Hb & Hl).
    assert (map key (entries db') = map key (entries db)) as Hkeys.
    { unfold entries, db'. cbn [buckets]. rewrite E3, E1, !concat_app, !map_app. simpl.
      by rewrite !map_app, bucket_set_keys. }
    assert (nbuckets db' = nbuckets db) as Hnb' by (unfold nbuckets, db'; cbn [buckets]; by rewrite length_alter).
    assert (wf db') as Hw'.
    { unfold wf. rewrite Hkeys, Hnb'. split_and!; try done.
      - apply placed_alter; [done|]. intros b' e' Hb' He'.
        assert (key e' ∈ map key (bucket_set k v b')) as Hk' by (apply list_elem_of_fmap; eauto).
        rewrite bucket_set_keys in Hk'. apply list_elem_of_fmap in Hk' as (e'' & -> & He'').
        by eapply Hp.
      - rewrite <-(length_map key (entries db')), Hkeys, length_map. done. }
    split_and!; [done|done| |lia]. intros k'. destruct (decide (k' = k)) as [->|Hne].
    + apply get_iff; [done|]. unfold entries, db'. cbn [buckets]. rewrite E3, concat_app. simpl.
      rewrite !elem_of_app. right. left. apply bucket_set_self.
      assert (b = default [] (buckets db !! bucket_of (buckets db) k)) as -> by done.
      unfold entries in Hin. apply in_entries in Hin as (i & b' & Hi & Hb').
      pose proof (Hp _ _ _ Hi Hb') as Hbk. rewrite Hke in Hbk. rewrite <-Hbk in Hi. rewrite Hi. simpl.
      apply list_elem_of_fmap. eauto.
    + apply get_ext; [done..|]. intros w. unfold entries, db'. cbn [buckets]. rewrite E3, E1, !concat_app. simpl.
      rewrite !elem_of_app, bucket_set_other by done. done.
  - destruct (ht_grow_ok db Hw Hnb) as (db1 & E1 & Hw1 & Hperm & Hne & Hd & Hload & Hnb1 & Hnb2).
    cbn [mem_ok mem_table mem_entry]. rewrite E1.
    assert (k ∉ map key (entries db1)) as Hk by (rewrite Hperm; by apply ht_find_None).
    pose proof Hw as (_ & _ & _ & _ & Hl).
    destruct (ht_insert_ok db1 k v true Hw1 Hk) as (Hw2 & Hp2 & Hnb3 & _); [lia|lia|].
    eexists. split; [reflexivity|]. split_and!; [done|done| |lia]. intros k'.
    destruct (decide (k' = k)) as [->|Hne'].
    + apply get_iff; [done|]. rewrite Hp2. by left.
    + apply get_ext; [done..|]. intros w. rewrite Hp2, Hperm, elem_of_cons. naive_solver.
Qed.

Lemma dbm_delete_ok db k :
  wf db → nbuckets db < 2 ^ 30 →
  ∃ db', dbm_delete db k = (if get db k then 0 else -1, db') ∧ wf db' ∧ nbuckets db' = nbuckets db ∧
    ∀ k', get db' k' = if decide (k' = k) then None else get db k'.
Proof.
  intros Hw Hnb. unfold dbm_delete, get at 1. destruct (ht_find db k) as [e|] eqn:Ef; simpl.
  - eexists. split; [reflexivity|]. pose proof Ef as Ef'. apply ht_find_iff in Ef' as [Hin Hke]; [|done].
    destruct (bucket_alter_split db k Hw) as (l1 & b & l2 & E1 & E2 & E3).
    unfold ht_find in Ef. rewrite E2 in Ef. pose proof (bucket_remove_perm k e b Ef) as Hrm.
    set (db' := Dbm _ _ _ _). pose proof Hw as (Hp & Hn & He & Hb & Hl).
    assert (entries db ≡ₚ e :: entries db') as Hperm.
    { unfold entries, db'. cbn [buckets]. rewrite E3, E1, !concat_app. simpl. rewrite Hrm at 1.
      simpl. by rewrite <-Permutation_middle. }
    assert (nbuckets db' = nbuckets db) as Hnb' by (unfold nbuckets, db'; cbn [buckets]; by rewrite length_alter).
    assert (nentries db' = nentries db - 1) as Hne.
    { unfold db', u32. cbn [nentries]. apply Z.mod_small. rewrite Hperm in He. simpl in He. lia. }
    rewrite Hperm in Hn. simpl in Hn. apply NoDup_cons in Hn as [Hn1 Hn2].
    assert (wf db') as Hw'.
    { unfold wf. rewrite Hnb', Hne. rewrite Hperm in He. simpl in He. split_and!; try done; try lia.
      apply placed_alter; [done|]. intros b' e' Hb' He'. eapply Hp; [done|].
      rewrite Hb' in E2. simpl in E2. subst b'. rewrite Hrm. by right. }
    split_and!; [done|done|]. intros k'. destruct (decide (k' = k)) as [->|Hne'].
    + apply get_None; [done|]. by rewrite <-Hke.
    + apply get_ext; [done..|]. intros w. rewrite Hperm, elem_of_cons. naive_solver.
  - eexists. split; [reflexivity|]. split_and!; [done|done|]. intros k'.
    destruct (decide (k' = k)) as [->|]; [|done]. unfold get. by rewrite Ef.
Qed.

(** ** Files *)

Lemma xread_ok chunk fuel i file n :
  (n ≤ fuel)%nat →
  xread chunk fuel i file n =
  if (n <=? length file)%nat then Some (take n file, drop n file) else None.
Proof.
  revert i file n. induction fuel as [|fuel IH]; intros i file n Hn.
  { destruct n; [|lia]. done. }
  destruct n as [|n]; [done|]. cbn [xread].
  set (r := (S n `min` (S (chunk i) `min` length file))%nat).
  destruct (Nat.eqb_spec r 0) as [Hr|Hr].
  { destruct file as [|c file]; [done|]. simpl in r. lia. }
  rewrite IH by lia. rewrite length_drop.
  destruct (Nat.leb_spec (S n - r) (length file - r)), (Nat.leb_spec (S n) (length file));
    try lia; cbn [mbind option_bind]; [|done].
  do 2 f_equal.
  - rewrite <-(take_drop r (take (S n) file)). rewrite take_take, Nat.min_l by lia.
    f_equal. rewrite skipn_firstn_comm. done.
  - rewrite drop_drop. f_equal. lia.
Qed.

Lemma xread_app chunk a b : xread_n chunk (a ++ b) (length a) = Some (a, b).
Proof.
  unfold xread_n. rewrite xread_ok by done. rewrite length_app.
  destruct (Nat.leb_spec (length a) (length a + length b)); [|lia].
  by rewrite take_app_length, drop_app_length.
Qed.

Definition entry_bytes (e : dentry) : bytes := record_header e ++ key e ++ val e.
Definition file_bytes (db : dbm) : bytes :=
  ICB_DBM_MAGIC ++ put32 (nentries db) ++ concat (map entry_bytes (entries db)).

Lemma xwrite_seq cap out a b :
  (out' ← xwrite cap out a; xwrite cap out' b) = xwrite cap out (a ++ b).
Proof.
  unfold xwrite. rewrite length_app.
  destruct (Nat.leb_spec (length out + length a) cap); cbn [mbind option_bind].
  - rewrite length_app, <-app_assoc, Nat.add_assoc. done.
  - destruct (Nat.leb_spec (length out + (length a + length b)) cap); [lia|done].
Qed.

Lemma write_entry_eq cap out e : write_entry cap out e = xwrite cap out (entry_bytes e).
Proof.
  unfold write_entry, entry_bytes. rewrite <-xwrite_seq.
  destruct (xwrite cap out (record_header e)); cbn [mbind option_bind]; [|done]. apply xwrite_seq.
Qed.

Lemma write_list cap es o :
  foldl (λ out e, out ← out; write_entry cap out e) o es =
  (out ← o; match es with [] => Some out | _ => xwrite cap out (concat (map entry_bytes es)) end).
Proof.
  revert o. induction es as [|e es IH]; intros o; [by destruct o|]. cbn [foldl].
  rewrite IH. destruct o as [out|]; [|done]. cbn [mbind option_bind]. rewrite write_entry_eq.
  cbn [map concat]. rewrite <-xwrite_seq. destruct (xwrite cap out (entry_bytes e)) as [out'|] eqn:E; [|done].
  cbn [mbind option_bind]. destruct es; [|done]. unfold xwrite in *. simpl.
  destruct (Nat.leb_spec (length out + length (entry_bytes e)) cap); [|done]. injection E as <-.
  rewrite length_app, Nat.add_0_r, app_nil_r. by destruct (Nat.leb_spec (length out + length (entry_bytes e)) cap); [|lia].
Qed.

Lemma foldl_concat {A B} (f : A → B → A) (a : A) (bs : list (list B)) :
  foldl (λ a b, foldl f a b) a bs = foldl f a (concat bs).
Proof. revert a. induction bs as [|b bs IH]; intros a; simpl; [done|]. by rewrite foldl_app, IH. Qed.

Lemma write_all_eq cap db :
  write_all cap db = if (length (file_bytes db) <=? cap)%nat then Some (file_bytes db) else None.
Proof.
  unfold write_all. destruct (xwrite cap [] _) as [out|] eqn:E.
  - cbn [mbind option_bind]. rewrite (foldl_concat (λ out e, out ← out; write_entry cap out e)), write_list.
    fold (entries db). cbn [mbind option_bind]. unfold xwrite in E.
    destruct (Nat.leb_spec (length (@nil byte) + length (ICB_DBM_MAGIC ++ put32 (nentries db))) cap); [|done].
    injection E as <-. unfold file_bytes. destruct (entries db) as [|e es] eqn:Ee.
    + cbn [concat map app]. rewrite app_nil_r. by destruct (Nat.leb_spec (length (ICB_DBM_MAGIC ++ put32 (nentries db))) cap); simpl in *; [|lia].
    + unfold xwrite. rewrite app_assoc, !length_app. by cbn [app].
  - unfold xwrite in E. destruct (Nat.leb_spec (length (@nil byte) + length (ICB_DBM_MAGIC ++ put32 (nentries db))) cap); [done|].
    destruct (Nat.leb_spec (length (file_bytes db)) cap) as [H1|]; [|done].
    unfold file_bytes in H1. rewrite app_assoc, length_app in H1. simpl in *. lia.
Qed.

Definition small_entry (e : dentry) : Prop :=
  Z.of_nat (length (key e)) ≤ ICB_DBM_MAX_RECSIZE ∧ Z.of_nat (length (val e)) ≤ ICB_DBM_MAX_RECSIZE.

(** The record header read back. *)
Lemma record_header_read e :
  Z.of_nat (length (key e)) < 2 ^ 32 → Z.of_nat (length (val e)) < 2 ^ 32 →
  get32 (record_header e) = Z.of_nat (length (key e)) ∧
  get32 (drop 4 (record_header e)) = Z.of_nat (length (val e)).
Proof.
  intros Hk Hv. unfold record_header, u32. rewrite !Z.mod_small by lia.
  split; [by apply get32_put32_app; lia|].
  rewrite drop_app_length' by done. rewrite <-(app_nil_r (put32 _)). apply get32_put32_app. lia.
Qed.

Section load_proofs.
Context (chunk : nat → nat).

Definition fill (db : dbm) : Prop :=
  nbuckets db = 128 ∨ nbuckets db * 3 ≤ nentries db * 8.

Lemma load_records_ok es db :
  wf db → fill db → Forall small_entry es → NoDup (map key (es ++ entries db)) →
  nentries db + Z.of_nat (length es) ≤ 2 ^ 28 →
  ∃ db', load_records chunk (λ _, mem_ok) (length es) db (concat (map entry_bytes es)) = Some db' ∧
    wf db' ∧ entries db' ≡ₚ es ++ entries db ∧ dirty db' = dirty db.
Proof.
  revert db. induction es as [|e es IH]; intros db Hw Hf Hs Hn Hsz; [by exists db|].
  inv Hs. destruct H1 as [Hk Hv]. unfold ICB_DBM_MAX_RECSIZE in *.
  cbn [length load_records map concat] in *. unfold entry_bytes at 1. rewrite <-!app_assoc.
  rewrite (xread_app chunk (record_header e) _ : xread_n chunk _ 8 = _). cbn [mbind option_bind].
  destruct (record_header_read e) as [-> ->]; [lia|lia|]. unfold ICB_DBM_MAX_RECSIZE.
  destruct (Z.ltb_spec (2 ^ 20) (Z.of_nat (length (key e)))); [lia|].
  destruct (Z.ltb_spec (2 ^ 20) (Z.of_nat (length (val e)))); [lia|]. cbn [orb mem_ok mem_value negb].
  rewrite !Nat2Z.id, xread_app. cbn [mbind option_bind]. rewrite xread_app. cbn [mbind option_bind].
  pose proof Hw as (_ & _ & _ & Hb128 & _).
  destruct (ht_grow_ok db Hw) as (db1 & E1 & Hw1 & Hp1 & Hne1 & Hd1 & Hload & Hnb1 & _).
  { destruct Hf; lia. }
  cbn [mem_table mem_entry mem_ok]. rewrite E1. cbn [mbind option_bind].
  simpl in Hn. apply NoDup_cons in Hn as [Hn1 Hn2]. rewrite map_app in Hn1, Hn2.
  destruct (ht_insert_ok db1 (key e) (val e) (dirty db1) Hw1) as (Hw2 & Hp2 & Hnb2 & Hne2);
    [rewrite Hp1; set_solver|lia|destruct Hf; lia|].
  destruct e as [k v]; cbn [key val] in *.
  destruct (IH (ht_insert db1 (Entry k v) (dirty db1))) as (db' & E' & Hw' & Hp' & Hd'); [done| |done| | |].
  - unfold fill in *. lia.
  - rewrite map_app, Hp2, Hp1. simpl. rewrite <-Permutation_middle. by constructor.
  - lia.
  - exists db'. split_and!; [done|done| |by rewrite Hd'].
    rewrite Hp', Hp2, Hp1. by rewrite <-Permutation_middle.
Qed.

Lemma load_records_oversize es db :
  Exists (λ e, ¬ small_entry e) es →
  Forall (λ e, Z.of_nat (length (key e)) < 2 ^ 31 ∧ Z.of_nat (length (val e)) < 2 ^ 31) es →
  load_records chunk (λ _, mem_ok) (length es) db (concat (map entry_bytes es)) = None.
Proof.
  intros He Hl. revert db. induction Hl as [|e es [Hk Hv] Hl IH]; intros db; [inv He|].
  cbn [length load_records map concat]. unfold entry_bytes at 1. rewrite <-!app_assoc.
  rewrite (xread_app chunk (record_header e) _ : xread_n chunk _ 8 = _). cbn [mbind option_bind].
  destruct (record_header_read e) as [-> ->]; [lia|lia|].
  destruct (Z.ltb_spec ICB_DBM_MAX_RECSIZE (Z.of_nat (length (key e)))); [done|].
  destruct (Z.ltb_spec ICB_DBM_MAX_RECSIZE (Z.of_nat (length (val e)))); [done|]. cbn [orb mem_ok mem_value negb].
  rewrite !Nat2Z.id, xread_app. cbn [mbind option_bind]. rewrite xread_app. cbn [mbind option_bind].
  destruct (ht_grow _ db); [|done]. cbn [mbind option_bind mem_entry mem_ok]. apply IH.
  inv He; [|done]. exfalso. apply H2. done.
Qed.
End load_proofs.

(** ** Main properties *)

(** C28: the hash table implements a finite map.  With memory available,
    [dbm_store] with [DBM_REPLACE] binds exactly the key, growing the table when
    needed; [dbm_delete] unbinds exactly the key and reports whether it was
    bound; [DBM_INSERT] of a bound key changes nothing; [dbm_fetch] returns the
    bound value and leaves the table alone; and every operation keeps the table
    well-formed. *)
Theorem dbm_is_map db k v :
  wf db → nbuckets db < 2 ^ 30 →
  (∃ db', dbm_store mem_ok db k v DBM_REPLACE = (0, db') ∧ wf db' ∧ dirty db' = true ∧
     ∀ k', get db' k' = if decide (k' = k) then Some v else get db k') ∧
  (∃ db', dbm_delete db k = (if get db k then 0 else -1, db') ∧ wf db' ∧
     ∀ k', get db' k' = if decide (k' = k) then None else get db k') ∧
  (is_Some (get db k) → dbm_store mem_ok db k v DBM_INSERT = (1, db)) ∧
  ((dbm_fetch true db k).1 = get db k ∧ buckets (dbm_fetch true db k).2 = buckets db).
Proof.
  intros Hw Hnb. split_and!.
  - destruct (dbm_store_ok db k v Hw) as (db' & E & Hw' & Hd & Hg & _); [lia|]. by exists db'.
  - destruct (dbm_delete_ok db k Hw Hnb) as (db' & E & Hw' & _ & Hg). by exists db'.
  - unfold get, dbm_store. destruct (ht_find db k); [done|]. by intros [? ?].
  - unfold get, dbm_fetch. destruct (ht_find db k); [|done]. by rewrite andb_false_r.
  - unfold dbm_fetch. destruct (ht_find db k); [|done]. by rewrite andb_false_r.
Qed.

Lemma dbm_is_map_witness :
  (dbm_fetch true (dbm_store mem_ok empty_dbm (str "a.nick") (str "x") DBM_REPLACE).2 (str "a.nick")).1 = Some (str "x") ∧
  ∃ db', dbm_store mem_ok empty_dbm (str "a.nick") (str "x") DBM_REPLACE = (0, db') ∧ get db' (str "a.nick") = Some (str "x").
Proof.
  destruct (dbm_is_map empty_dbm (str "a.nick") (str "x") empty_wf) as [(db' & E & _ & _ & Hg) _]; [reflexivity|].
  split; [vm_compute; reflexivity|]. exists db'. split; [exact E|]. rewrite Hg. reflexivity.
Defined.

(** C29: closing a modified database and opening it again gives a well-formed
    table with the same bindings, whatever the sizes of the individual reads,
    when no key or value exceeds the cap of 1 MiB. *)
Theorem dbm_close_open chunk io db d :
  wf db → dirty db = true → nentries db ≤ 2 ^ 28 → Forall small_entry (entries db) →
  io_open io = true → io_fsync io = true → io_rename io = true →
  (length (file_bytes db) ≤ io_cap io)%nat →
  ∃ db', dbm_open chunk (λ _, mem_ok) (main_file (dbm_close io db d)) = Some db' ∧
    wf db' ∧ dirty db' = false ∧ ∀ k, get db' k = get db k.
Proof.
  intros Hw Hd Hne Hs H1 H2 H3 Hcap. unfold dbm_close, flush_file. rewrite Hd, H1, H2, H3, write_all_eq.
  cbn [negb]. destruct (Nat.leb_spec (length (file_bytes db)) (io_cap io)); [|lia]. cbn [snd main_file].
  unfold dbm_open, load_file, file_bytes. rewrite app_assoc.
  rewrite (xread_app chunk (ICB_DBM_MAGIC ++ put32 (nentries db)) _ : xread_n chunk _ 8 = _).
  cbn [mbind option_bind]. rewrite take_app_length' by done. rewrite bool_decide_true by done. cbn [negb].
  rewrite drop_app_length' by done. rewrite <-(app_nil_r (put32 _)).
  pose proof Hw as (_ & Hn & He & _). rewrite get32_put32_app, He, Nat2Z.id by lia.
  destruct (load_records_ok chunk (entries db) empty_dbm) as (db' & -> & Hw' & Hp' & Hd');
    [apply empty_wf|by left|done|by rewrite entries_empty, app_nil_r|simpl; lia|].
  exists db'. split_and!; try done. rewrite entries_empty, app_nil_r in Hp'.
  intros k. apply get_ext; [done..|]. intros v. by rewrite Hp'.
Qed.

Definition example_db : dbm :=
  (dbm_store mem_ok (dbm_store mem_ok empty_dbm (str "a.nick") (str "x") DBM_REPLACE).2
    (str "a.home") (str "a@b") DBM_REPLACE).2.

Lemma example_db_wf : wf example_db ∧ dirty example_db = true.
Proof.
  destruct (dbm_store_ok empty_dbm (str "a.nick") (str "x") empty_wf) as (db1 & E1 & Hw1 & _); [done|].
  destruct (dbm_store_ok db1 (str "a.home") (str "a@b") Hw1) as (db2 & E2 & Hw2 & Hd2 & _).
  { assert (db1 = (dbm_store mem_ok empty_dbm (str "a.nick") (str "x") DBM_REPLACE).2) as -> by (by rewrite E1).
    vm_compute. discriminate. }
  unfold example_db. rewrite E1. cbn [snd]. rewrite E2. done.
Qed.

Lemma dbm_close_open_witness :
  ∃ db', dbm_open (λ _, 2%nat) (λ _, mem_ok)
      (main_file (dbm_close (FlushIo true 4096 true true) example_db (Disk None None))) = Some db' ∧
    wf db' ∧ dirty db' = false ∧ ∀ k, get db' k = get example_db k.
Proof.
  apply (dbm_close_open (λ _, 2%nat) (FlushIo true 4096 true true) example_db (Disk None None));
    [apply example_db_wf|apply example_db_wf|vm_compute; discriminate| |reflexivity..|].
  - assert (entries example_db = [Entry (str "a.home") (str "a@b"); Entry (str "a.nick") (str "x")] ∨
      entries example_db = [Entry (str "a.nick") (str "x"); Entry (str "a.home") (str "a@b")]) as [->| ->]
      by (first [left; vm_compute; reflexivity|right; vm_compute; reflexivity]);
      repeat constructor; vm_compute; discriminate.
  - apply Nat.leb_le. vm_compute. reflexivity.
Defined.

(** C30: a flush that fails, at any of its system calls or for lack of room,
    returns -1 and leaves the database file as it was; otherwise the file is
    the old one or the complete new one. *)
Theorem flush_atomic io db d :
  let '(r, db', d') := flush_file io db d in
  (r = -1 → main_file d' = main_file d ∧ db' = db) ∧
  (r = 0 → dirty db' = false ∧
     main_file d' = if dirty db then Some (file_bytes db) else main_file d) ∧
  (r = 0 ∨ r = -1) ∧ entries db' = entries db.
Proof.
  unfold flush_file. rewrite write_all_eq.
  destruct (dirty db) eqn:Ed, (io_open io), (io_fsync io), (io_rename io),
    (Nat.leb_spec (length (file_bytes db)) (io_cap io)); cbn [negb];
    repeat split; try discriminate; auto.
Qed.

(** [dbm_store] accepts records larger than the cap that [load_file]
    enforces: a database that holds one is flushed without error and cannot be
    opened again. *)
Theorem dbm_oversize_lost chunk io db d :
  wf db → dirty db = true → nentries db < 2 ^ 32 → Exists (λ e, ¬ small_entry e) (entries db) →
  Forall (λ e, Z.of_nat (length (key e)) < 2 ^ 31 ∧ Z.of_nat (length (val e)) < 2 ^ 31) (entries db) →
  (flush_file io db d).1.1 = 0 →
  dbm_open chunk (λ _, mem_ok) (main_file (dbm_close io db d)) = None.
Proof.
  intros Hw Hd Hne Hbig Hl. unfold dbm_close. pose proof Hw as (_ & _ & He & _).
  unfold flush_file. rewrite write_all_eq, Hd. cbn [negb].
  destruct (io_open io); cbn [negb fst]; [|done].
  destruct (Nat.leb_spec (length (file_bytes db)) (io_cap io)); [|done].
  destruct (io_fsync io); cbn [negb fst]; [|done].
  destruct (io_rename io); cbn [negb fst]; [|done]. intros _. cbn [snd main_file].
  unfold dbm_open, load_file, file_bytes. rewrite app_assoc.
  rewrite (xread_app chunk (ICB_DBM_MAGIC ++ put32 (nentries db)) _ : xread_n chunk _ 8 = _).
  cbn [mbind option_bind]. rewrite take_app_length' by done. rewrite bool_decide_true by done. cbn [negb].
  rewrite drop_app_length' by done. rewrite <-(app_nil_r (put32 _)).
  rewrite get32_put32_app, He, Nat2Z.id by lia. by apply load_records_oversize.
Qed.

(** A database with one record, of a given value. *)
Definition one_record (v : bytes) : dbm := (dbm_store mem_ok empty_dbm (str "k") v DBM_REPLACE).2.
Lemma one_record_entries v : entries (one_record v) = [Entry (str "k") v] ∧ nentries (one_record v) = 1.
Proof. split; vm_compute; reflexivity. Qed.

Lemma dbm_oversize_lost_witness :
  ∃ io db, (flush_file io db (Disk None None)).1.1 = 0 ∧
    dbm_open (λ _, 0%nat) (λ _, mem_ok) (main_file (dbm_close io db (Disk None None))) = None.
Proof.
  set (v := replicate (Z.to_nat (2 ^ 20 + 1)) x00).
  assert (Z.of_nat (length v) = 2 ^ 20 + 1) as Hv by (unfold v; rewrite length_replicate; lia).
  exists (FlushIo true (length (file_bytes (one_record v))) true true), (one_record v).
  destruct (one_record_entries v) as [He Hn].
  destruct (dbm_store_ok empty_dbm (str "k") v empty_wf) as (db1 & E1 & Hw1 & Hd1 & _); [done|].
  assert (one_record v = db1) as E by (unfold one_record; by rewrite E1). clearbody v.
  assert ((flush_file (FlushIo true (length (file_bytes (one_record v))) true true) (one_record v)
    (Disk None None)).1.1 = 0) as Hf.
  { unfold flush_file. rewrite write_all_eq, E, Hd1. cbn [io_open io_cap io_fsync io_rename negb].
    destruct (Nat.leb_spec (length (file_bytes db1)) (length (file_bytes db1))); [done|lia]. }
  split; [exact Hf|].
  apply (dbm_oversize_lost (λ _, 0%nat) _ (one_record v) (Disk None None)); [by rewrite E|by rewrite E|lia| | |exact Hf].
  - rewrite He. apply Exists_cons_hd. unfold small_entry, ICB_DBM_MAX_RECSIZE. cbn [key val]. lia.
  - rewrite He. constructor; [|constructor]. cbn [key val]. split; [vm_compute; reflexivity|lia].
Defined.
