(* ===== verification/Monad.v ===== *)
(** * Stateful code with undefined behaviour

    The monad in which the stateful components are written: a computation takes
    a state and returns a value and a state, or nothing where the C program has
    undefined behaviour (a null or dangling pointer, an access outside an
    array).  [preserves] is the judgement by which invariants and frame
    properties are proved along the structure of a computation. *)

From Stdlib Require Import ZArith Lia.
From S2P Require Import Prelude.

Definition M (S A : Type) : Type := S → option (A * S).

Section monad.
Context {S : Type}.

Definition ret {A} (a : A) : M S A := λ s, Some (a, s).
Definition bind {A B} (m : M S A) (f : A → M S B) : M S B :=
  λ s, match m s with Some (a, s') => f a s' | None => None end.
(** Undefined behaviour. *)
Definition ub {A} : M S A := λ _, None.
Definition getS : M S S := λ s, Some (s, s).
Definition gets {A} (f : S → A) : M S A := λ s, Some (f s, s).
Definition putS (s : S) : M S unit := λ _, Some (tt, s).
Definition modify (f : S → S) : M S unit := λ s, Some (tt, f s).
Definition lift {A} (o : option A) : M S A := λ s, match o with Some a => Some (a, s) | None => None end.
Definition when (b : bool) (m : M S unit) : M S unit := if b then m else ret tt.

(** [for (i = i0; ...; i++)] over the elements of a list, with [continue] as
    the end of the body. *)
Fixpoint for_each {A} (l : list A) (body : A → M S unit) : M S unit :=
  match l with
  | [] => ret tt
  | x :: l' => bind (body x) (λ _, for_each l' body)
  end.

(** The same with an accumulator and an early exit: the body returns [inr]
    to leave the loop. *)
Fixpoint for_acc {A B C} (l : list A) (acc : B) (body : A → B → M S (B + C)) : M S (B + C) :=
  match l with
  | [] => ret (inl acc)
  | x :: l' =>
      bind (body x acc) (λ r, match r with inl acc' => for_acc l' acc' body | inr c => ret (inr c) end)
  end.
End monad.

Declare Scope icb_monad_scope.
Delimit Scope icb_monad_scope with icb.
Notation "x <- m ;; k" := (bind m (λ x, k))
  (at level 100, m at next level, right associativity, only parsing) : icb_monad_scope.
Notation "' p <- m ;; k" := (bind m (λ x, let p := x in k))
  (at level 100, p pattern, m at next level, right associativity, only parsing) : icb_monad_scope.
Notation "m ;; k" := (bind m (λ _, k))
  (at level 100, right associativity, only parsing) : icb_monad_scope.

(** ** Preservation along a computation *)

Section preserves.
Context {S : Type} (R : S → S → Prop) `{!PreOrder R}.

(** Every completed run relates its initial and final states. *)
Definition preserves {A} (m : M S A) : Prop := ∀ s a s', m s = Some (a, s') → R s s'.

Lemma preserves_ret {A} (a : A) : preserves (ret a).
Proof. intros s x s' [= -> ->]. reflexivity. Qed.
Lemma preserves_bind {A B} (m : M S A) (f : A → M S B) :
  preserves m → (∀ a, preserves (f a)) → preserves (bind m f).
Proof.
  intros Hm Hf s b s'. unfold bind. destruct (m s) as [[a s1]|] eqn:E; [|done].
  intros E'. transitivity s1; [by eapply Hm|by eapply Hf].
Qed.
Lemma preserves_ub {A} : preserves (@ub S A).
Proof. done. Qed.
Lemma preserves_getS : preserves getS.
Proof. intros s x s' [= -> ->]. reflexivity. Qed.
Lemma preserves_gets {A} (f : S → A) : preserves (gets f).
Proof. intros s x s' [= _ ->]. reflexivity. Qed.
Lemma preserves_modify f : (∀ s, R s (f s)) → preserves (modify f).
Proof. intros Hf s x s' [= _ <-]. apply Hf. Qed.
Lemma preserves_lift {A} (o : option A) : preserves (lift o).
Proof. destruct o; [|done]. intros s x s' [= _ ->]. reflexivity. Qed.
Lemma preserves_when b m : (b = true → preserves m) → preserves (when b m).
Proof. destruct b; simpl; [auto|]. intros _. apply preserves_ret. Qed.
Lemma preserves_for_each {A} (l : list A) body :
  (∀ x, preserves (body x)) → preserves (for_each l body).
Proof.
  intros Hb. induction l as [|x l IH]; simpl; [apply preserves_ret|].
  apply preserves_bind; [apply Hb|done].
Qed.
Lemma preserves_for_acc {A B C} (l : list A) (acc : B) (body : A → B → M S (B + C)) :
  (∀ x b, preserves (body x b)) → preserves (for_acc l acc body).
Proof.
  intros Hb. revert acc. induction l as [|x l IH]; intros acc; simpl; [apply preserves_ret|].
  apply preserves_bind; [apply Hb|]. intros [b|c]; [apply IH|apply preserves_ret].
Qed.
End preserves.

#[export] Hint Resolve preserves_ret preserves_ub preserves_getS preserves_gets preserves_lift : icb.

(** Decompose a preservation goal along the computation, using the hints of
    [icb] for the calls. *)
Ltac pres_step :=
  match goal with
  | |- preserves _ (bind _ _) => apply preserves_bind; [..|intros ?]
  | |- preserves _ (when _ _) => refine (preserves_when _ _ _ _); intros ?
  | |- preserves _ (for_each _ _) => refine (preserves_for_each _ _ _ _); intros ?
  | |- preserves _ (for_acc _ _ _) => refine (preserves_for_acc _ _ _ _ _); intros ? ?
  | |- preserves _ (ret _) => apply preserves_ret
  | |- preserves _ ub => apply preserves_ub
  | |- preserves _ getS => apply preserves_getS
  | |- preserves _ (gets _) => apply preserves_gets
  | |- preserves _ (lift _) => apply preserves_lift
  | |- preserves _ (if ?b then _ else _) => destruct b eqn:?
  | |- preserves _ (match ?x with _ => _ end) => destruct x eqn:?
  | |- preserves _ (let _ := _ in _) => cbv zeta
  end.
Ltac pres := repeat (first [progress (auto with icb typeclass_instances; fail) | pres_step]); auto with icb typeclass_instances.

(** ** Results under an invariant

    [yields I P m]: from a state that satisfies [I] every completed run of [m]
    ends in such a state and returns a value that satisfies [P]. *)
Section yields.
Context {S : Type} (I : S → Prop).

Definition yields {A} (P : A → Prop) (m : M S A) : Prop :=
  ∀ s a s', I s → m s = Some (a, s') → I s' ∧ P a.

Lemma yields_mono {A} (P Q : A → Prop) m : yields P m → (∀ a, P a → Q a) → yields Q m.
Proof. intros Hm HPQ s a s' Hs E. destruct (Hm s a s' Hs E). auto. Qed.
Lemma yields_ret {A} (P : A → Prop) a : P a → yields P (ret a).
Proof. by intros Ha s x s' Hs [= <- <-]. Qed.
(** The most precise property of a returned value. *)
Lemma yields_ret_eq {A} (a : A) : yields (eq a) (ret a).
Proof. by apply yields_ret. Qed.
Lemma yields_bind {A B} (P : A → Prop) (Q : B → Prop) m (f : A → M S B) :
  yields P m → (∀ a, P a → yields Q (f a)) → yields Q (bind m f).
Proof.
  intros Hm Hf s b s' Hs. unfold bind. destruct (m s) as [[a s1]|] eqn:E; [|done].
  destruct (Hm s a s1 Hs E) as [Hs1 Ha]. by apply Hf.
Qed.
Lemma yields_ub {A} (P : A → Prop) : yields P ub.
Proof. done. Qed.
Lemma yields_getS : yields I getS.
Proof. by intros s a s' Hs [= <- <-]. Qed.
Lemma yields_gets {A} (P : A → Prop) f : (∀ s, I s → P (f s)) → yields P (gets f).
Proof. intros Hf s a s' Hs [= <- <-]. auto. Qed.
Lemma yields_modify (P : unit → Prop) f : (∀ s, I s → I (f s)) → P tt → yields P (modify f).
Proof. intros Hf HP s [] s' Hs [= <-]. auto. Qed.
Lemma yields_lift {A} (P : A → Prop) o : (∀ a, o = Some a → P a) → yields P (lift o).
Proof. intros Ho s a s' Hs. destruct o; [|done]. intros [= <- <-]. auto. Qed.
Lemma yields_when (P : unit → Prop) (b : bool) m : (b = true → yields P m) → P tt → yields P (when b m).
Proof. destruct b; [auto|]. intros _ HP. by apply yields_ret. Qed.
Lemma yields_for_each {A} (l : list A) body :
  (∀ x, x ∈ l → yields (λ _, True) (body x)) → yields (λ _, True) (for_each l body).
Proof.
  induction l as [|x l IH]; intros Hb; simpl; [by apply yields_ret|].
  eapply yields_bind; [apply Hb; set_solver|]. intros _ _. apply IH. intros y Hy. apply Hb. set_solver.
Qed.
End yields.

(** [run m s] of a computation that is defined. *)
Definition runs {S A} (m : M S A) (s : S) (a : A) (s' : S) : Prop := m s = Some (a, s').

Lemma bind_runs {S A B} (m : M S A) (f : A → M S B) s a s1 :
  m s = Some (a, s1) → bind m f s = f a s1.
Proof. intros H. unfold bind. by rewrite H. Qed.

(** ** Total correctness

    [wp m Q s]: from [s] the computation [m] is defined and ends in a value and
    a state that satisfy [Q]. *)
Definition wp {S A} (m : M S A) (Q : A → S → Prop) (s : S) : Prop :=
  match m s with Some (a, s') => Q a s' | None => False end.

Section wp.
Context {S : Type}.
Implicit Types s : S.

Lemma wp_run {A} (m : M S A) Q s : wp m Q s ↔ ∃ a s', m s = Some (a, s') ∧ Q a s'.
Proof.
  unfold wp. destruct (m s) as [[a s']|]; split.
  - eauto.
  - by intros (? & ? & [= -> ->] & ?).
  - done.
  - by intros (? & ? & ? & ?).
Qed.

Lemma wp_run_unit (m : M S unit) (Q : S → Prop) s : wp m (λ _, Q) s → ∃ s', m s = Some (tt, s') ∧ Q s'.
Proof. intros ([] & s' & Hm & HQ)%wp_run. eauto. Qed.

Lemma wp_mono {A} (m : M S A) (Q Q' : A → S → Prop) s :
  wp m Q s → (∀ a s', Q a s' → Q' a s') → wp m Q' s.
Proof. unfold wp. destruct (m s) as [[a s']|]; auto. Qed.

Lemma wp_ret {A} (a : A) Q s : Q a s → wp (ret a) Q s.
Proof. done. Qed.
Lemma wp_bind {A B} (m : M S A) (f : A → M S B) Q s :
  wp m (λ a, wp (f a) Q) s → wp (bind m f) Q s.
Proof. unfold wp, bind. by destruct (m s) as [[a s']|]. Qed.
(** Two steps of a sequence taken together. *)
Lemma wp_seq {A B C} (m : M S A) (h : A → M S B) (k : B → M S C) Q s :
  wp (bind m h) (λ b, wp (k b) Q) s → wp (bind m (λ a, bind (h a) k)) Q s.
Proof. unfold wp, bind. destruct (m s) as [[a s']|]; [|done]. by destruct (h a s') as [[b s'']|]. Qed.
Lemma wp_getS Q s : Q s s → wp getS Q s.
Proof. done. Qed.
Lemma wp_gets {A} (f : S → A) Q s : Q (f s) s → wp (gets f) Q s.
Proof. done. Qed.
Lemma wp_modify f Q s : Q tt (f s) → wp (modify f) Q s.
Proof. done. Qed.
Lemma wp_lift {A} (o : option A) a Q s : o = Some a → Q a s → wp (lift o) Q s.
Proof. by intros ->. Qed.
Lemma wp_when (b : bool) m Q s :
  (b = true → wp m Q s) → (b = false → Q tt s) → wp (when b m) Q s.
Proof. destruct b; intros H1 H2; [by apply H1|by apply H2]. Qed.

(** A loop with an invariant indexed by the elements already treated. *)
Lemma wp_for_each {A} (I : list A → S → Prop) (l : list A) body s :
  I [] s →
  (∀ pre x rest s, l = pre ++ x :: rest → I pre s → wp (body x) (λ _, I (pre ++ [x])) s) →
  wp (for_each l body) (λ _, I l) s.
Proof.
  intros H0 Hb.
  assert (∀ rest pre s, l = pre ++ rest → I pre s → wp (for_each rest body) (λ _, I l) s) as H.
  { induction rest as [|x rest IH]; intros pre s' E Hi; simpl.
    - apply wp_ret. rewrite app_nil_r in E. by rewrite E.
    - apply wp_bind. eapply wp_mono; [by eapply Hb|]. intros ? s1 H1.
      apply (IH (pre ++ [x])); [|done]. by rewrite <-app_assoc. }
  by apply (H l [] s).
Qed.

(** The same for a loop that is known to complete. *)
Lemma for_each_inv {A} (I : list A → S → Prop) (l : list A) body s s' :
  (∀ pre x rest s s', l = pre ++ x :: rest → I pre s → body x s = Some (tt, s') → I (pre ++ [x]) s') →
  I [] s → for_each l body s = Some (tt, s') → I l s'.
Proof.
  intros Hb.
  assert (∀ rest pre s, l = pre ++ rest → I pre s → for_each rest body s = Some (tt, s') → I l s') as H.
  { induction rest as [|x rest IH]; intros pre s0 E Hi; cbn [for_each].
    - intros [= ->]. rewrite app_nil_r in E. by rewrite E.
    - unfold bind. destruct (body x s0) as [[[] s1]|] eqn:Ex; [|done]. apply (IH (pre ++ [x])).
      + by rewrite <-app_assoc.
      + by eapply Hb. }
  by apply (H l []).
Qed.
End wp.

(** Decompose a [wp] goal along the computation. *)
Ltac wp_step :=
  match goal with
  | |- wp (bind _ _) _ _ => apply wp_bind
  | |- wp (ret _) _ _ => apply wp_ret
  | |- wp getS _ _ => apply wp_getS
  | |- wp (gets _) _ _ => apply wp_gets
  | |- wp (modify _) _ _ => apply wp_modify
  | |- wp (lift (Some _)) _ _ => eapply wp_lift; [reflexivity|]
  | |- wp (let _ := _ in _) _ _ => cbv zeta
  end.
