(* ===== verification/CLib.v ===== *)
(** * Numbers as text

    [atoi] and the conversion [%d] of the C library, which the database layer
    and the commands use to read and print integers. *)

From Stdlib Require Import ZArith Lia.
From S2P Require Import Prelude.

Local Open Scope Z_scope.

Definition INT_MAX : Z := 2 ^ 31 - 1.
Definition INT_MIN : Z := - 2 ^ 31.
Definition LONG_MAX : Z := 2 ^ 63 - 1.
Definition LONG_MIN : Z := - 2 ^ 63.

(** Conversion to [int] keeps the low 32 bits. *)
Definition to_int (z : Z) : Z := (z + 2 ^ 31) mod 2 ^ 32 - 2 ^ 31.

Definition is_space (c : byte) : bool :=
  (uchar c =? 32) || ((9 <=? uchar c) && (uchar c <=? 13)).

Definition digit_val (c : byte) : Z := uchar c - 48.

Fixpoint read_digits (acc : Z) (s : cstring) : Z :=
  match s with
  | c :: s' => if is_digit c then read_digits (acc * 10 + digit_val c) s' else acc
  | [] => acc
  end.

Fixpoint skip_space (s : cstring) : cstring :=
  match s with
  | c :: s' => if is_space c then skip_space s' else s
  | [] => []
  end.

(** [strtol(s, NULL, 10)] saturates. *)
Definition strtol10 (s : cstring) : Z :=
  let s := skip_space s in
  let '(neg, s) :=
    match s with
    | c :: s' => if Byte.eqb c "-" then (true, s') else if Byte.eqb c "+" then (false, s') else (false, s)
    | [] => (false, s)
    end in
  let v := read_digits 0 s in
  Z.max LONG_MIN (Z.min LONG_MAX (if neg : bool then - v else v)).

Definition atoi (s : cstring) : Z := to_int (strtol10 s).

(** The decimal digits of a natural number. *)
Fixpoint print_nat (fuel : nat) (n : Z) (acc : cstring) : cstring :=
  match fuel with
  | O => acc
  | S fuel =>
      let acc := to_uchar (48 + n mod 10) :: acc in
      if n <? 10 then acc else print_nat fuel (n / 10) acc
  end.

(** The conversion [%d]; an [int] has at most ten digits. *)
Definition itoa (z : Z) : cstring :=
  if z <? 0 then "-"%byte :: print_nat 20 (- z) [] else print_nat 20 z [].

(** ** Reading back what was printed *)

Lemma digit_char d : 0 ≤ d < 10 → is_digit (to_uchar (48 + d)) = true ∧ digit_val (to_uchar (48 + d)) = d.
Proof.
  intros Hd. unfold is_digit, in_range, digit_val. rewrite !uchar_to_uchar, !Z.mod_small by lia.
  change (uchar "0") with 48. change (uchar "9") with 57.
  destruct (Z.leb_spec 48 (48 + d)), (Z.leb_spec (48 + d) 57); simpl; lia.
Qed.

Lemma read_digits_app acc d s :
  0 ≤ d < 10 → read_digits acc (to_uchar (48 + d) :: s) = read_digits (acc * 10 + d) s.
Proof. intros Hd. destruct (digit_char d Hd) as [E1 E2]. cbn [read_digits]. by rewrite E1, E2. Qed.

Lemma read_print fuel n acc a :
  0 ≤ n < 10 ^ Z.of_nat fuel → (0 < fuel)%nat →
  ∃ k, 1 ≤ k ∧ read_digits a (print_nat fuel n acc) = read_digits (a * 10 ^ k + n) acc.
Proof.
  revert n acc. induction fuel as [|fuel IH]; intros n acc Hn Hf; [lia|]. cbn [print_nat].
  pose proof (Z.mod_pos_bound n 10 ltac:(lia)) as Hm.
  destruct (Z.ltb_spec n 10) as [Hlt|Hge].
  - exists 1. rewrite read_digits_app by done. rewrite Z.mod_small by lia. split; [lia|]. f_equal.
  - assert (0 < fuel)%nat as Hf'. { destruct fuel; [simpl in Hn; lia|lia]. }
    rewrite Nat2Z.inj_succ, Z.pow_succ_r in Hn by lia.
    destruct (IH (n / 10) (to_uchar (48 + n mod 10) :: acc)) as (k & Hk & ->); [|done|].
    { split; [apply Z.div_pos; lia|]. apply Z.div_lt_upper_bound; lia. }
    exists (k + 1). split; [lia|]. rewrite read_digits_app by done. f_equal.
    rewrite Z.pow_add_r by lia. change (10 ^ 1) with 10. pose proof (Z.div_mod n 10 ltac:(lia)). lia.
Qed.

Lemma read_digits_print n : 0 ≤ n < 10 ^ 20 → read_digits 0 (print_nat 20 n []) = n.
Proof. intros Hn. destruct (read_print 20 n [] 0) as (k & _ & ->); [done|lia|]. simpl. lia. Qed.

Lemma print_nat_head fuel n acc :
  0 ≤ n → (0 < fuel)%nat → ∃ d s, print_nat fuel n acc = to_uchar (48 + d) :: s ∧ 0 ≤ d < 10.
Proof.
  revert n acc. induction fuel as [|fuel IH]; intros n acc Hn Hf; [lia|]. cbn [print_nat].
  pose proof (Z.mod_pos_bound n 10 ltac:(lia)) as Hm.
  destruct (Z.ltb_spec n 10) as [Hlt|Hge]; [by do 2 eexists|].
  destruct fuel as [|fuel]; [by do 2 eexists|]. apply IH; [apply Z.div_pos; lia|lia].
Qed.

Lemma digit_not_nul d : 0 ≤ d < 10 → to_uchar (48 + d) ≠ x00.
Proof. intros Hd E. destruct (digit_char d Hd) as [Ed _]. rewrite E in Ed. discriminate Ed. Qed.

Lemma print_nat_no_nul fuel n acc : 0 ≤ n → x00 ∉ acc → x00 ∉ print_nat fuel n acc.
Proof.
  revert n acc. induction fuel as [|fuel IH]; intros n acc Hn Ha; [done|]. cbn [print_nat].
  pose proof (Z.mod_pos_bound n 10 ltac:(lia)) as Hm.
  assert (x00 ∉ to_uchar (48 + n mod 10) :: acc) as Hc.
  { intros [E|?]%elem_of_cons; [|done]. by apply (digit_not_nul (n mod 10)). }
  destruct (n <? 10); [done|]. apply IH; [by apply Z.div_pos|done].
Qed.

Lemma itoa_no_nul z : x00 ∉ itoa z.
Proof.
  assert (x00 ∉ []) by apply not_elem_of_nil. unfold itoa. destruct (Z.ltb_spec z 0); [|by apply print_nat_no_nul].
  intros [?|Hin]%elem_of_cons; [done|]. revert Hin. by apply print_nat_no_nul; [lia|].
Qed.

Lemma digit_not_special d : 0 ≤ d < 10 →
  is_space (to_uchar (48 + d)) = false ∧ Byte.eqb (to_uchar (48 + d)) "-" = false ∧
  Byte.eqb (to_uchar (48 + d)) "+" = false.
Proof.
  intros Hd. assert (d = 0 ∨ d = 1 ∨ d = 2 ∨ d = 3 ∨ d = 4 ∨ d = 5 ∨ d = 6 ∨ d = 7 ∨ d = 8 ∨ d = 9) as H by lia.
  repeat (destruct H as [->|H]; [by vm_compute|]). by subst d.
Qed.

Lemma to_int_id z : INT_MIN ≤ z ≤ INT_MAX → to_int z = z.
Proof. unfold to_int, INT_MIN, INT_MAX. intros H. rewrite Z.mod_small by lia. lia. Qed.

Lemma atoi_itoa z : INT_MIN ≤ z ≤ INT_MAX → atoi (itoa z) = z.
Proof.
  intros Hz. unfold atoi. rewrite <-(to_int_id z Hz) at 2. f_equal.
  unfold INT_MIN, INT_MAX in Hz. unfold strtol10, itoa.
  destruct (Z.ltb_spec z 0).
  - cbn [skip_space]. change (is_space "-") with false; cbn iota.
    change (Byte.eqb "-" "-") with true; cbn iota. rewrite read_digits_print by lia.
    unfold LONG_MIN, LONG_MAX. lia.
  - destruct (print_nat_head 20 z []) as (d & s & E & Hd); [lia|lia|].
    pose proof (read_digits_print z ltac:(lia)) as Hr. rewrite E in *.
    destruct (digit_not_special d Hd) as (E1 & E2 & E3). cbn [skip_space]. rewrite E1, E2, E3, Hr.
    unfold LONG_MIN, LONG_MAX. lia.
Qed.

Lemma itoa_inj a b : INT_MIN ≤ a ≤ INT_MAX → INT_MIN ≤ b ≤ INT_MAX → itoa a = itoa b → a = b.
Proof. intros Ha Hb E. by rewrite <-(atoi_itoa a Ha), <-(atoi_itoa b Hb), E. Qed.

#[export] Hint Rewrite atoi_itoa using lia : icb_simpl.
