(* ===== verification/Options.v ===== *)
(** * The command line and the restart (server/main.c, server/s_admin.c)

    The options that [main] takes from its arguments with [getopt], the name and
    the ports the server then uses, and the arguments that a restart hands to
    the program that takes its place. *)

From Stdlib Require Import ZArith Lia String.
From S2P Require Import Config Prelude CLib.

Local Open Scope Z_scope.

(** ** Parsing *)

Record options : Type := Options {
  o_log_level : Z;
  o_bindhost : option cstring;
  o_restart : Z;
  o_quiet : Z;
  o_fork : Z;
  o_clearargs : Z;
  o_port : Z;
  o_sslport : Z
}.

Definition default_options : options := Options 0 None 0 0 0 0 DEFAULT_PORT 0.

Definition optstring : cstring := str "cl:p:s::fRqb:".

(** What follows an option letter in [optstring]. *)
Inductive arg_kind : Type := NoArg | ReqArg | OptArg.

Fixpoint opt_kind (c : byte) (spec : cstring) : option arg_kind :=
  match spec with
  | [] => None
  | d :: rest =>
      if Byte.eqb c d && negb (Byte.eqb c ":") then
        Some match rest with
             | x3a :: x3a :: _ => OptArg
             | x3a :: _ => ReqArg
             | _ => NoArg
             end
      else opt_kind c rest
  end.

(** The cases of the switch: an option without an argument, and one with. *)
Definition take_flag (c : byte) (o : options) : options :=
  let '(Options l b r q f w p s) := o in
  if Byte.eqb c "R" then Options l b (r + 1) q f w p s
  else if Byte.eqb c "q" then Options l b r (q + 1) f w p s
  else if Byte.eqb c "f" then Options l b r q (f + 1) w p s
  else Options l b r q f (w + 1) p s.

Definition take_arg (c : byte) (optarg : cstring) (o : options) : options :=
  let '(Options l b r q f w p s) := o in
  if Byte.eqb c "l" then Options (atoi optarg) b r q f w p s
  else if Byte.eqb c "b" then Options l (Some optarg) r q f w p s
  else Options l b r q f w (atoi optarg) s.

(** [-s] takes the next argument too, unless it starts with a dash. *)
Definition starts_dash (a : cstring) : bool := match a with c :: _ => Byte.eqb c "-" | [] => false end.

Definition take_ssl (attached : cstring) (next : list cstring) (o : options) : list cstring * options :=
  let '(Options l b r q f w p s) := o in
  let '(s, next) :=
    match attached, next with
    | _ :: _, _ => (atoi attached, next)
    | [], a :: next' => if starts_dash a then (s, next) else (atoi a, next')
    | [], [] => (s, next)
    end in
  (next, Options l b r q f w p (if s =? 0 then DEFAULT_SSLPORT else s)).

(** The letters of one argument; [next] are the arguments behind it.  [None]
    stands for the usage message and [exit(-1)]. *)
Fixpoint cluster (cs : cstring) (next : list cstring) (o : options) : option (list cstring * options) :=
  match cs with
  | [] => Some (next, o)
  | c :: cs' =>
      match opt_kind c optstring with
      | None => None
      | Some NoArg => cluster cs' next (take_flag c o)
      | Some OptArg => Some (take_ssl cs' next o)
      | Some ReqArg =>
          match cs', next with
          | _ :: _, _ => Some (next, take_arg c cs' o)
          | [], a :: next' => Some (next', take_arg c a o)
          | [], [] => None
          end
      end
  end.

Definition is_option (a : cstring) : bool := starts_dash a && (1 <? length a)%nat.

(** The loop of [main].  An argument that is not an option is skipped, or
    ends the options where [getopt] does not permute the arguments; two dashes
    end them everywhere. *)
Fixpoint getopt_loop (permutes : bool) (fuel : nat) (args : list cstring) (o : options) : option options :=
  match args, fuel with
  | [], _ => Some o
  | _, O => None
  | a :: next, S fuel =>
      if streq a (str "--") then Some o
      else if is_option a then
        match cluster (tail a) next o with
        | None => None
        | Some (next, o) => getopt_loop permutes fuel next o
        end
      else if permutes then getopt_loop permutes fuel next o else Some o
  end.

Definition parse_args (permutes : bool) (args : list cstring) : option options :=
  getopt_loop permutes (length args) args default_options.

(** ** The name of the server *)

(** [thishost], an array of MAXHOSTNAMELEN + 1 bytes that was cleared: what
    [gethostname] wrote, if it succeeded, and the host of [-b] over it. *)
Definition MAXHOSTNAMELEN : nat := 64.

Definition own_name (gethostname : option cstring) (bindhost : option cstring) : cstring :=
  let thishost := match gethostname with Some h => take MAXHOSTNAMELEN h | None => [] end in
  match bindhost with
  | Some (c :: h) => strncpy (c :: h) MAXHOSTNAMELEN
  | _ => thishost
  end.

(** ** Wiping the arguments (unix.c) *)

Definition clearargs (argv : list cstring) : list cstring :=
  match argv with [] => [] | a :: args => a :: map (map (λ _, " "%byte)) args end.

(** ** The arguments of a restart *)

(** A slot of [restart_argv]: a string, a null pointer, or what [malloc] left. *)
Inductive slot : Type := Arg (s : cstring) | Null | Unwritten.

(** What [main] saves: [argv[0]] to [argv[argc]], in an array of [argc + 2]. *)
Definition saved_args (argv : list cstring) : list slot := map Arg argv ++ [Null; Unwritten].

Definition restart_flag (quiet : bool) : cstring := str (if quiet then "-Rq" else "-R").
Definition is_restart_flag (s : cstring) : bool := streq s (str "-R") || streq s (str "-Rq").

(** The loop of [s_restart]; the result says whether a flag was found.
    Reading a slot that was never written is undefined. *)
Fixpoint find_flag (quiet : bool) (l : list slot) : option (bool * list slot) :=
  match l with
  | [] => Some (false, [])
  | Unwritten :: _ => None
  | x :: l' =>
      match x with
      | Arg s =>
          if is_restart_flag s then
            Some (true, Arg (if quiet && streq s (str "-R") then str "-Rq"
                             else if negb quiet && streq s (str "-Rq") then str "-R" else s) :: l')
          else r ← find_flag quiet l'; Some (r.1, x :: r.2)
      | _ => r ← find_flag quiet l'; Some (r.1, x :: r.2)
      end
  end.

Definition mark_restart (quiet : bool) (l : list slot) : option (list slot) :=
  match find_flag quiet l with
  | None => None
  | Some (true, l') => Some l'
  | Some (false, l') => Some (<[length l - 1 := Null]> (<[length l - 2 := Arg (restart_flag quiet)]> l'))%nat
  end.

(** What [execve] reads: the strings up to the first null pointer. *)
Fixpoint exec_args (l : list slot) : option (list cstring) :=
  match l with
  | Null :: _ => Some []
  | Arg s :: l' => r ← exec_args l'; Some (s :: r)
  | _ => None
  end.

(** ** What the loop consumes *)

Lemma take_ssl_spec attached next o next' o' :
  take_ssl attached next o = (next', o') →
  next' `suffix_of` next ∧
  ∀ rest, (starts_dash (hd [] rest) = true ∨ rest = []) → take_ssl attached (next ++ rest) o = (next' ++ rest, o').
Proof.
  destruct o as [l b r q f w p s]. unfold take_ssl. intros E.
  destruct attached as [|c cs]; [destruct next as [|a next]|].
  - injection E as <- <-. split; [done|]. intros [|a rest] [Hr|Hr]; try done. cbn in *. by rewrite Hr.
  - destruct (starts_dash a) eqn:Ea; injection E as <- <-; split; try done.
    + intros rest _. cbn [app]. by rewrite Ea.
    + by exists [a].
    + intros rest _. cbn [app]. by rewrite Ea.
  - injection E as <- <-. split; [done|]. intros rest _. done.
Qed.

Lemma cluster_spec cs next o next' o' :
  cluster cs next o = Some (next', o') →
  next' `suffix_of` next ∧
  ∀ rest, (starts_dash (hd [] rest) = true ∨ rest = []) → cluster cs (next ++ rest) o = Some (next' ++ rest, o').
Proof.
  revert o. induction cs as [|c cs IH]; intros o; cbn [cluster]; [by intros [= <- <-]|].
  destruct (opt_kind c optstring) as [[]|]; [apply IH| | |done].
  - destruct cs as [|c' cs']; [destruct next as [|a next]; [done|]|]; intros [= <- <-]; (split; [|done]).
    + by exists [a].
    + done.
  - intros [= E]. apply take_ssl_spec in E as [Hs Hr]. split; [done|]. intros rest Hrest. by rewrite Hr.
Qed.

Lemma loop_fuel permutes f g args o :
  (length args ≤ f)%nat → (length args ≤ g)%nat → getopt_loop permutes f args o = getopt_loop permutes g args o.
Proof.
  revert g args o. induction f as [|f IH]; intros [|g] [|a next] o Hf Hg; cbn in Hf, Hg; try lia; try done.
  cbn [getopt_loop]. destruct (streq a _); [done|]. destruct (is_option a).
  - destruct (cluster _ _ _) as [[next' o']|] eqn:E; [|done]. apply cluster_spec in E as [[l ->] _].
    rewrite length_app in Hf, Hg. apply IH; lia.
  - destruct permutes; [apply IH; lia|done].
Qed.

(** What was parsed stays parsed when more arguments follow. *)
Lemma loop_app f args o o' rest :
  str "--" ∉ args → (starts_dash (hd [] rest) = true ∨ rest = []) → (length args ≤ f)%nat →
  getopt_loop true f args o = Some o' →
  getopt_loop true (f + length rest) (args ++ rest) o = getopt_loop true (length rest) rest o'.
Proof.
  intros Hd Hr. revert args o Hd. induction f as [|f IH]; intros [|a next] o Hd Hf; cbn in Hf; try lia.
  - by intros [= <-].
  - cbn [getopt_loop]. intros [= <-]. apply loop_fuel; cbn; lia.
  - apply not_elem_of_cons in Hd as [Ha Hd]. cbn [app Nat.add getopt_loop].
    destruct (streq a (str "--")) eqn:Es; [apply streq_eq in Es; by subst|]. destruct (is_option a); [|apply IH; [done|lia]].
    destruct (cluster _ next o) as [[next' o1]|] eqn:E; [|done]. apply cluster_spec in E as [[l ->] E]. rewrite (E _ Hr).
    apply not_elem_of_app in Hd as [_ Hd]. rewrite length_app in Hf. apply IH; [done|lia].
Qed.

Lemma parse_app args o rest :
  parse_args true args = Some o → str "--" ∉ args → (starts_dash (hd [] rest) = true ∨ rest = []) →
  parse_args true (args ++ rest) = getopt_loop true (length rest) rest o.
Proof. intros Hp Hd Hr. unfold parse_args. rewrite length_app. by apply loop_app. Qed.

(** ** The restart *)

(** An option that asks for the restart. *)
Definition restarted (quiet : bool) (o : options) : options :=
  let '(Options l b r q f w p s) := o in Options l b (r + 1) (if quiet then q + 1 else q) f w p s.

Lemma exec_args_app argv l : exec_args (map Arg argv ++ Null :: l) = Some argv.
Proof. induction argv as [|a argv IH]; [done|]. cbn. by rewrite IH. Qed.

Lemma find_flag_app quiet argv l :
  Forall (λ a, is_restart_flag a = false) argv →
  find_flag quiet (map Arg argv ++ l) = r ← find_flag quiet l; Some (r.1, map Arg argv ++ r.2).
Proof.
  induction 1 as [|a argv Ha _ IH]; cbn; [by destruct (find_flag quiet l) as [[]|]|].
  rewrite Ha, IH. by destruct (find_flag quiet l) as [[]|].
Qed.

(** What [s_restart] looks at is not what [getopt] understands: after two
    dashes everything is skipped, the flag that asks for the restart too. *)
Theorem restart_flag_after_dashes args post o quiet :
  parse_args true args = Some o → str "--" ∉ args →
  parse_args true (args ++ str "--" :: post ++ [restart_flag quiet]) = Some o.
Proof. intros Hp Hd. rewrite (parse_app args o) by (done || by left). done. Qed.

Lemma restart_flag_after_dashes_witness :
  parse_args true [str "-p"; str "7000"; str "--"; str "-R"] = Some (Options 0 None 0 0 0 0 7000 0).
Proof.
  apply (restart_flag_after_dashes [str "-p"; str "7000"] [] (Options 0 None 0 0 0 0 7000 0) false).
  - vm_compute. reflexivity.
  - by apply (bool_decide_unpack _).
Defined.

(** C35: the arguments of a restart.  The first restart of a server that was not
    started with a flag for it reads the last slot of the saved arguments, which
    nothing has written: its behaviour is undefined.  If a null pointer happens
    to be there, the program is executed again with its arguments and the flag
    that was asked for; after that every restart finds the flag, writes the one
    asked for over it and reads nothing else.  The options that the new process
    takes from them are those of the old one, with the restart, and the quiet
    restart if it was one, asked for once more. *)
Theorem restart_arguments prog args o quiet before :
  parse_args true args = Some o → str "--" ∉ args → Forall (λ a, is_restart_flag a = false) (prog :: args) →
  let argv := prog :: args in
  let next := prog :: args ++ [restart_flag quiet] in
  mark_restart quiet (saved_args argv) = None ∧
  mark_restart quiet (map Arg argv ++ [Null; Null]) = Some (map Arg next ++ [Null]) ∧
  mark_restart quiet (saved_args (argv ++ [restart_flag before])) = Some (saved_args next) ∧
  (∀ l, exec_args (map Arg next ++ Null :: l) = Some next) ∧
  parse_args true (tail next) = Some (restarted quiet o).
Proof.
  intros Hp Hd Hf argv next. split_and!.
  - unfold mark_restart, saved_args. by rewrite find_flag_app.
  - unfold mark_restart. rewrite find_flag_app by done. cbn [find_flag mbind option_bind fst snd].
    rewrite length_app, length_map. cbn [length]. replace (length argv + 2 - 2)%nat with (length argv + 0)%nat by lia.
    replace (length argv + 2 - 1)%nat with (length argv + 1)%nat by lia. rewrite <-(length_map Arg argv), !insert_app_r.
    unfold next. cbn. by rewrite map_app, <-app_assoc.
  - unfold mark_restart, saved_args, next. rewrite map_app, <-app_assoc, find_flag_app by done.
    destruct quiet, before; cbn; by rewrite map_app, <-app_assoc.
  - intros l. apply exec_args_app.
  - cbn [tail next]. unfold next. cbn [tail]. rewrite (parse_app args o) by (done || left; by destruct quiet).
    destruct quiet, o; reflexivity.
Qed.

Lemma restart_arguments_witness :
  mark_restart true (saved_args [str "icbd"; str "-s"; str "-l3"]) = None ∧
  parse_args true [str "-s"; str "-l3"; str "-Rq"] = Some (Options 3 None 1 1 0 0 DEFAULT_PORT DEFAULT_SSLPORT).
Proof.
  destruct (restart_arguments (str "icbd") [str "-s"; str "-l3"] (Options 3 None 0 0 0 0 DEFAULT_PORT DEFAULT_SSLPORT) true false)
    as (H1 & _ & _ & _ & H2).
  - vm_compute. reflexivity.
  - by apply (bool_decide_unpack _).
  - by repeat constructor.
  - split; [exact H1|exact H2].
Defined.

(** ** Examples *)

Example options_ssl_next : parse_args true [str "-s"; str "7000"; str "-fp"; str "23"] =
  Some (Options 0 None 0 0 1 0 23 7000).
Proof. reflexivity. Qed.
Example options_ssl_flag : parse_args true [str "-sR"] = Some (Options 0 None 0 0 0 0 DEFAULT_PORT DEFAULT_SSLPORT).
Proof. reflexivity. Qed.
Example options_unknown : parse_args true [str "-x"] = None ∧ parse_args true [str "-p"] = None.
Proof. done. Qed.

(** ** The name fits its array *)

Lemma own_name_fits gethostname bindhost : (length (own_name gethostname bindhost) ≤ MAXHOSTNAMELEN)%nat.
Proof.
  assert (length (match gethostname with Some h => take MAXHOSTNAMELEN h | None => [] end) ≤ MAXHOSTNAMELEN)%nat as Hn.
  { destruct gethostname; [rewrite length_take; lia|cbn; lia]. }
  unfold own_name, strncpy. destruct bindhost as [[|c h]|]; [done|rewrite length_take; lia|done].
Qed.
