(* ===== verification/IcbDb.v ===== *)
(** * The user database (server/icbdb.c)

    The layer over [Dbm] that the registration and message services use: keys
    built from a category and an attribute, string and integer values, lists of
    values kept under numbered keys, and the reference-counted opening and
    closing of the database file.  No result stands for undefined behaviour:
    here, a value that does not fit in the static buffer. *)

From Stdlib Require Import ZArith Lia.
From S2P Require Import Prelude StrUtil CLib Monad NameList Dbm.

Local Open Scope Z_scope.
Local Open Scope icb_monad_scope.

Definition DBLKSIZ : nat := Z.to_nat 4096.
Lemma DBLKSIZ_val : Z.of_nat DBLKSIZ = 4096.
Proof. reflexivity. Qed.

(** The static variables of the file, and the disk. *)
Record icbdb : Type := Icbdb {
  db : option dbm;
  open_count : Z;
  icbdb_multiuser : bool;
  databuf : cstring;
  idisk : disk
}.

Inductive icbdb_type : Type := ICBDB_INT | ICBDB_STRING.
Inductive dbval : Type := VInt (z : Z) | VStr (s : cstring).
#[global] Instance dbval_eq_dec : EqDecision dbval.
Proof. solve_decision. Defined.

Definition set_db (d : option dbm) (s : icbdb) : icbdb :=
  Icbdb d (open_count s) (icbdb_multiuser s) (databuf s) (idisk s).
Definition set_databuf (b : cstring) (s : icbdb) : icbdb :=
  Icbdb (db s) (open_count s) (icbdb_multiuser s) b (idisk s).

(** What the allocator and the file system do for the calls. *)
Record dbenv : Type := DbEnv {
  e_chunk : nat → nat; e_load : nat → mem; e_mem : mem; e_fetch : bool; e_io : flush_io
}.

(** The bytes of a buffer before its first NUL. *)
Fixpoint until_nul (b : bytes) : cstring :=
  match b with
  | [] => []
  | c :: b' => if Byte.eqb c x00 then [] else c :: until_nul b'
  end.

(** The results of [icbdb_list_find]. *)
Record found_at : Type := FoundAt {
  fa_found : bool; fa_index : Z; fa_max_index : Z; fa_first_empty : Z; fa_last_valid : Z
}.

Section code.
Context (E : dbenv).

Definition icbdb_open : M icbdb bool := λ s,
  let s := Icbdb (db s) (open_count s + 1) (icbdb_multiuser s) (databuf s) (idisk s) in
  match db s with
  | Some _ => Some (true, s)
  | None =>
      match dbm_open (e_chunk E) (e_load E) (main_file (idisk s)) with
      | None => Some (false, s)
      | Some d => Some (true, set_db (Some d) s)
      end
  end.

Definition icbdb_close : M icbdb unit := λ s,
  let s := Icbdb (db s) (open_count s - 1) (icbdb_multiuser s) (databuf s) (idisk s) in
  if (0 <? open_count s) || negb (icbdb_multiuser s) then Some (tt, s)
  else
    Some (tt, Icbdb None (open_count s) (icbdb_multiuser s) (databuf s)
      match db s with Some d => dbm_close (e_io E) d (idisk s) | None => idisk s end).

Definition icbdb_set_multiuser (value : bool) : M icbdb unit :=
  modify (λ s, Icbdb (db s) (open_count s + 1) value (databuf s) (idisk s)) ;; icbdb_close.

(** [ICBDB_OPEN(); ... ICBDB_DONE(r)]; the macro returns 0, here [fail], when
    the database cannot be opened. *)
Definition with_db {A} (fail : A) (body : M icbdb A) : M icbdb A :=
  ok <- icbdb_open ;;
  if ok : bool then (r <- body ;; icbdb_close ;; ret r) else ret fail.

(** The key for an optional category and an attribute: [snprintf] into a
    buffer of [DBLKSIZ] bytes, then lower case. *)
Definition icbdb_make_key (category : option cstring) (attribute : cstring) : bytes :=
  lcaseit (take (DBLKSIZ - 1)
    (match category with None => attribute | Some c => c ++ str "." ++ attribute end)).

(** The fetch of [icbdb_get]; [want] tells whether [value] is not [NULL]. *)
Definition icbdb_get (want : bool) (category : option cstring) (attribute : cstring)
    (type : icbdb_type) : M icbdb (option dbval) :=
  with_db None (
    o <- gets db ;;
    d <- lift o ;;
    let '(data, d) := dbm_fetch (e_fetch E) d (icbdb_make_key category attribute) in
    modify (set_db (Some d)) ;;
    match data with
    | None => ret None
    | Some v =>
        if negb want then ret (Some (VStr []))
        else if (DBLKSIZ <=? length v)%nat then ub
        else
          modify (set_databuf (until_nul v)) ;;
          ret (Some match type with ICBDB_STRING => VStr (until_nul v) | ICBDB_INT => VInt (atoi (until_nul v)) end)
    end).

Definition icbdb_set (category : option cstring) (attribute : cstring) (value : dbval) : M icbdb Z :=
  with_db 0 (
    let k := icbdb_make_key category attribute in
    data <- match value with
            | VStr v => ret v
            | VInt z => modify (set_databuf (itoa z)) ;; ret (itoa z)
            end ;;
    o <- gets db ;;
    d <- lift o ;;
    let '(r, d) := dbm_store (e_mem E) d k data DBM_REPLACE in
    modify (set_db (Some d)) ;; ret r).

Definition icbdb_delete (category : option cstring) (attribute : cstring) : M icbdb Z :=
  with_db 0 (
    o <- gets db ;;
    d <- lift o ;;
    let '(r, d) := dbm_delete d (icbdb_make_key category attribute) in
    modify (set_db (Some d)) ;; ret r).

Definition ICBDB_LIST_INDEX_MAX : Z := -1.

(** The attribute of an element of a list, or of its highest index. *)
Definition list_attr (attribute : cstring) (index : Z) : cstring :=
  take (DBLKSIZ - 1)
    (attribute ++ str "." ++ (if index =? ICBDB_LIST_INDEX_MAX then str "max" else itoa index)).

Definition icbdb_list_get_index category attribute index type : M icbdb (option dbval) :=
  icbdb_get true category (list_attr attribute index) type.
Definition icbdb_list_set_index category attribute index value : M icbdb Z :=
  icbdb_set category (list_attr attribute index) value.
Definition icbdb_list_delete_index category attribute index : M icbdb Z :=
  icbdb_delete category (list_attr attribute index).

Definition type_of (value : dbval) : icbdb_type :=
  match value with VInt _ => ICBDB_INT | VStr _ => ICBDB_STRING end.

(** The loop of [icbdb_list_find] for [n] more indices: found, index, first
    empty and last valid index. *)
Fixpoint list_find_loop (category : option cstring) (attribute : cstring) (value : dbval)
    (n : nat) (index first_empty last_valid : Z) : M icbdb (bool * Z * Z * Z) :=
  match n with
  | O => ret (false, index, first_empty, last_valid)
  | S n =>
      compare <- icbdb_list_get_index category attribute index (type_of value) ;;
      match compare with
      | None =>
          list_find_loop category attribute value n (index + 1)
            (if first_empty =? -1 then 0 else first_empty) last_valid
      | Some x =>
          if bool_decide (x = value) then ret (true, index, first_empty, last_valid)
          else list_find_loop category attribute value n (index + 1) first_empty index
      end
  end.

(** The highest index of a list, -1 when there is none. *)
Definition list_max category attribute : M icbdb Z :=
  r <- icbdb_list_get_index category attribute ICBDB_LIST_INDEX_MAX ICBDB_INT ;;
  ret match r with Some (VInt z) => z | _ => -1 end.

Definition icbdb_list_find category attribute value : M icbdb found_at :=
  with_db (FoundAt false (-1) (-1) (-1) (-1)) (
    max_index <- list_max category attribute ;;
    '(found, index, fe, lv) <- list_find_loop category attribute value (Z.to_nat (max_index + 1)) 0 (-1) (-1) ;;
    ret (FoundAt found index max_index (if fe =? -1 then max_index + 1 else fe) lv)).

Definition icbdb_list_add category attribute value : M icbdb Z :=
  with_db 0 (
    r <- icbdb_list_find category attribute value ;;
    if fa_found r then ret 1
    else
      icbdb_list_set_index category attribute (fa_first_empty r) value ;;
      (if fa_max_index r <? fa_first_empty r then
         icbdb_list_set_index category attribute ICBDB_LIST_INDEX_MAX (VInt (fa_first_empty r)) ;; ret tt
       else ret tt) ;;
      ret 1).

Definition icbdb_list_delete category attribute value : M icbdb Z :=
  with_db 0 (
    r <- icbdb_list_find category attribute value ;;
    if negb (fa_found r) then ret 1
    else
      icbdb_list_delete_index category attribute (fa_index r) ;;
      (if fa_index r =? fa_max_index r then
         if fa_last_valid r =? -1 then
           icbdb_list_delete_index category attribute ICBDB_LIST_INDEX_MAX
         else
           icbdb_list_set_index category attribute ICBDB_LIST_INDEX_MAX (VInt (fa_last_valid r))
       else ret 0) ;;
      ret 1).

(** The indices [0 .. max_index]. *)
Definition indices (max_index : Z) : list Z := map Z.of_nat (seq 0 (Z.to_nat (max_index + 1))).

(** Loading into a name list of at most [max] entries. *)
Fixpoint list_load_loop category attribute (max : nat) (idxs : list Z) (nl : list cstring)
    : M icbdb (list cstring) :=
  match idxs with
  | [] => ret nl
  | i :: idxs' =>
      v <- icbdb_list_get_index category attribute i ICBDB_STRING ;;
      list_load_loop category attribute max idxs'
        match v with Some (VStr s) => mru_put max s nl | _ => nl end
  end.

Definition icbdb_list_load category attribute (max : nat) (nl : list cstring) : M icbdb (Z * list cstring) :=
  with_db (0, nl) (
    max_index <- list_max category attribute ;;
    nl <- list_load_loop category attribute max (indices max_index) nl ;;
    ret (1, nl)).

(** Saving the names that [nlcount] calls of [nlget] return. *)
Definition icbdb_list_save category attribute (nl : list cstring) : M icbdb Z :=
  with_db 0 (
    for_each nl (λ cp,
      if bool_decide (cp = []) then ret tt
      else icbdb_list_add category attribute (VStr cp) ;; ret tt) ;;
    ret 1).

Definition icbdb_list_clear category attribute : M icbdb Z :=
  with_db 0 (
    max_index <- list_max category attribute ;;
    icbdb_list_delete_index category attribute ICBDB_LIST_INDEX_MAX ;;
    for_each (indices max_index) (λ i, icbdb_list_delete_index category attribute i ;; ret tt) ;;
    ret 1).
End code.

(** ** The disk in single-user mode *)

(** As long as [icbdb_multiuser] is not set, nothing reaches the disk. *)
Definition disk_kept (s s' : icbdb) : Prop :=
  icbdb_multiuser s = false → icbdb_multiuser s' = false ∧ idisk s' = idisk s.

#[global] Instance disk_kept_preorder : PreOrder disk_kept.
Proof.
  split; [by intros s|]. intros s1 s2 s3 H12 H23 H. destruct (H12 H) as [H2 E2].
  destruct (H23 H2) as [H3 E3]. split; [done|congruence].
Qed.

Section disk.
Context (E : dbenv).

Lemma icbdb_open_disk : preserves disk_kept (icbdb_open E).
Proof.
  intros s a s'. unfold icbdb_open. cbn. destruct (db s); [by intros [= _ <-]|].
  destruct (dbm_open _ _ _); by intros [= _ <-].
Qed.
Lemma icbdb_close_disk : preserves disk_kept (icbdb_close E).
Proof.
  intros s a s'. unfold icbdb_close. cbn. intros Ec Hm. rewrite Hm, orb_true_r in Ec.
  by injection Ec as _ <-.
Qed.
Lemma set_db_disk d : preserves disk_kept (modify (set_db d)).
Proof. by apply preserves_modify. Qed.
Lemma set_databuf_disk b : preserves disk_kept (modify (set_databuf b)).
Proof. by apply preserves_modify. Qed.
#[local] Hint Resolve icbdb_open_disk icbdb_close_disk set_db_disk set_databuf_disk : icb.

Lemma with_db_disk {A} (fail : A) body :
  preserves disk_kept body → preserves disk_kept (with_db E fail body).
Proof. intros Hb. unfold with_db. pres. Qed.
Lemma icbdb_get_disk w c a t : preserves disk_kept (icbdb_get E w c a t).
Proof. apply with_db_disk. pres. Qed.
Lemma icbdb_set_disk c a v : preserves disk_kept (icbdb_set E c a v).
Proof. apply with_db_disk. pres. Qed.
Lemma icbdb_delete_disk c a : preserves disk_kept (icbdb_delete E c a).
Proof. apply with_db_disk. pres. Qed.
#[local] Hint Resolve with_db_disk icbdb_get_disk icbdb_set_disk icbdb_delete_disk : icb.

Lemma list_max_disk c a : preserves disk_kept (list_max E c a).
Proof. unfold list_max, icbdb_list_get_index. pres. Qed.
Lemma list_find_loop_disk c a v n i fe lv : preserves disk_kept (list_find_loop E c a v n i fe lv).
Proof.
  revert i fe lv. induction n as [|n IH]; intros i fe lv; cbn [list_find_loop]; unfold icbdb_list_get_index; pres.
Qed.
#[local] Hint Resolve list_max_disk list_find_loop_disk : icb.
Lemma icbdb_list_find_disk c a v : preserves disk_kept (icbdb_list_find E c a v).
Proof. apply with_db_disk. pres. Qed.
#[local] Hint Resolve icbdb_list_find_disk : icb.
Lemma icbdb_list_add_disk c a v : preserves disk_kept (icbdb_list_add E c a v).
Proof. apply with_db_disk. unfold icbdb_list_set_index. pres. Qed.
#[local] Hint Resolve icbdb_list_add_disk : icb.
Lemma icbdb_list_delete_disk c a v : preserves disk_kept (icbdb_list_delete E c a v).
Proof. apply with_db_disk. unfold icbdb_list_set_index, icbdb_list_delete_index. pres. Qed.
Lemma icbdb_list_load_disk c a max nl : preserves disk_kept (icbdb_list_load E c a max nl).
Proof.
  apply with_db_disk.
  assert (∀ idxs nl, preserves disk_kept (list_load_loop E c a max idxs nl)) as Hl.
  { induction idxs as [|i idxs IH]; intros nl'; cbn [list_load_loop]; unfold icbdb_list_get_index; pres. }
  pres.
Qed.
Lemma icbdb_list_save_disk c a nl : preserves disk_kept (icbdb_list_save E c a nl).
Proof. apply with_db_disk. pres. Qed.
Lemma icbdb_list_clear_disk c a : preserves disk_kept (icbdb_list_clear E c a).
Proof. apply with_db_disk. unfold icbdb_list_delete_index. pres. Qed.
End disk.

(** One call of the interface that the rest of the server uses, under any
    behaviour of the allocator and the file system. *)
Inductive db_call : icbdb → icbdb → Prop :=
| call_open E r s s' : icbdb_open E s = Some (r, s') → db_call s s'
| call_close E r s s' : icbdb_close E s = Some (r, s') → db_call s s'
| call_get E w c a t r s s' : icbdb_get E w c a t s = Some (r, s') → db_call s s'
| call_set E c a v r s s' : icbdb_set E c a v s = Some (r, s') → db_call s s'
| call_delete E c a r s s' : icbdb_delete E c a s = Some (r, s') → db_call s s'
| call_list_find E c a v r s s' : icbdb_list_find E c a v s = Some (r, s') → db_call s s'
| call_list_add E c a v r s s' : icbdb_list_add E c a v s = Some (r, s') → db_call s s'
| call_list_delete E c a v r s s' : icbdb_list_delete E c a v s = Some (r, s') → db_call s s'
| call_list_load E c a m nl r s s' : icbdb_list_load E c a m nl s = Some (r, s') → db_call s s'
| call_list_save E c a nl r s s' : icbdb_list_save E c a nl s = Some (r, s') → db_call s s'
| call_list_clear E c a r s s' : icbdb_list_clear E c a s = Some (r, s') → db_call s s'.

(** From the initial state, in which [icbdb_multiuser] is 0, no sequence of
    calls of the database interface ever changes the database file: stored
    values live in memory only, until [icbdb_set_multiuser] is called. *)
Theorem icbdb_never_flushed s s' :
  rtc db_call s s' → icbdb_multiuser s = false → idisk s' = idisk s.
Proof.
  intros Hr. assert (disk_kept s s') as Hk; [|intros Hm; by apply Hk].
  induction Hr as [s|s1 s2 s3 Hc Hr IH]; [reflexivity|]. transitivity s2; [|done].
  destruct Hc;
    [eapply icbdb_open_disk|eapply icbdb_close_disk|eapply icbdb_get_disk|eapply icbdb_set_disk|
     eapply icbdb_delete_disk|eapply icbdb_list_find_disk|eapply icbdb_list_add_disk|
     eapply icbdb_list_delete_disk|eapply icbdb_list_load_disk|eapply icbdb_list_save_disk|
     eapply icbdb_list_clear_disk]; done.
Qed.

Definition env_good : dbenv := DbEnv (λ _, 0%nat) (λ _, mem_ok) mem_ok true (FlushIo true 65536 true true).
Definition init_db : icbdb := Icbdb None 0 false [] (Disk None None).

Lemma icbdb_never_flushed_witness :
  ∃ s', db_call init_db s' ∧ idisk s' = Disk None None.
Proof.
  destruct (icbdb_set env_good (Some (str "bob")) (str "nick") (VStr (str "x")) init_db) as [[r s']|] eqn:Es;
    [|vm_compute in Es; discriminate].
  exists s'. split; [by eapply call_set|].
  apply (icbdb_never_flushed init_db s'); [|reflexivity]. apply rtc_once. by eapply call_set.
Defined.

(** ** The database as a map, in single-user mode *)

(** The table is in memory, has at most [nb] buckets and binds keys as [f] does. *)
Definition ready (f : bytes → option bytes) (nb : Z) (s : icbdb) : Prop :=
  ∃ d, db s = Some d ∧ wf d ∧ nbuckets d ≤ nb ∧ icbdb_multiuser s = false ∧ ∀ k, get d k = f k.

Lemma ready_mono f nb nb' s : ready f nb s → nb ≤ nb' → ready f nb' s.
Proof.
  intros (d & H1 & H2 & H3 & H4) Hle. exists d. split; [done|]. split; [done|]. split; [lia|done].
Qed.
Lemma ready_pos f nb s : ready f nb s → 128 ≤ nb.
Proof. intros (d & _ & (_ & _ & _ & Hb & _) & Hn & _). lia. Qed.

Definition upd (f : bytes → option bytes) (k : bytes) (v : option bytes) : bytes → option bytes :=
  λ k', if decide (k' = k) then v else f k'.

(** Memory is available. *)
Definition env_ok (E : dbenv) : Prop := e_mem E = mem_ok ∧ e_fetch E = true.

Section map.
Context (E : dbenv) (HE : env_ok E).

(** A run that keeps the bindings [f] and returns [r]. *)
Definition reads {A} (m : M icbdb A) (f : bytes → option bytes) (nb : Z) (s : icbdb) (r : A) : Prop :=
  ∃ s', m s = Some (r, s') ∧ ready f nb s'.

Lemma with_db_ready {A} (fail : A) body f nb s r f' nb' :
  ready f nb s →
  (∀ s1, ready f nb s1 → ∃ s2, body s1 = Some (r, s2) ∧ ready f' nb' s2) →
  ∃ s', with_db E fail body s = Some (r, s') ∧ ready f' nb' s'.
Proof.
  intros (d & Hd & Hw & Hn & Hm & Hg) Hb. unfold with_db, bind, icbdb_open. cbn. rewrite Hd. cbn.
  destruct (Hb (Icbdb (Some d) (open_count s + 1) (icbdb_multiuser s) (databuf s) (idisk s)))
    as (s2 & E2 & (d2 & Hd2 & Hw2 & Hn2 & Hm2 & Hg2)); [by exists d|].
  rewrite E2. unfold icbdb_close. cbn. rewrite Hm2, orb_true_r. cbn. eexists. split; [reflexivity|].
  by exists d2.
Qed.

Definition read_as (type : icbdb_type) (v : bytes) : dbval :=
  match type with ICBDB_STRING => VStr (until_nul v) | ICBDB_INT => VInt (atoi (until_nul v)) end.

Lemma icbdb_get_ready f nb s c a t :
  ready f nb s →
  (∀ v, f (icbdb_make_key c a) = Some v → (length v < DBLKSIZ)%nat) →
  reads (icbdb_get E true c a t) f nb s (read_as t <$> f (icbdb_make_key c a)).
Proof.
  intros Hr Hlen. destruct HE as [_ Hf]. apply with_db_ready with (f := f) (nb := nb); [done|].
  intros s1 (d & Hd & Hw & Hn & Hm & Hg). unfold bind, gets, lift. rewrite Hd. cbn [fst snd].
  unfold dbm_fetch. rewrite <-Hg in *. unfold get in *.
  destruct (ht_find d (icbdb_make_key c a)) as [e|] eqn:Ef; cbn [fmap option_fmap option_map] in *.
  - rewrite Hf, andb_false_r. cbn [modify]. specialize (Hlen _ eq_refl).
    destruct (Nat.leb_spec DBLKSIZ (length (val e))); [lia|]. cbn.
    eexists. split; [destruct t; reflexivity|].
    eexists. split; [reflexivity|]. split_and!; try done; by destruct Hw as (?&?&?&?&?).
  - cbn. eexists. split; [reflexivity|]. by exists d.
Qed.

Definition text_of (v : dbval) : bytes := match v with VStr s => s | VInt z => itoa z end.

Lemma icbdb_set_ready f nb s c a v :
  ready f nb s → nb ≤ 2 ^ 30 →
  ∃ s', icbdb_set E c a v s = Some (0, s') ∧
    ready (upd f (icbdb_make_key c a) (Some (text_of v))) (2 * nb) s'.
Proof.
  intros Hr Hnb. destruct HE as [Hm _]. apply with_db_ready with (f := f) (nb := nb); [done|].
  intros s1 (d & Hd & Hw & Hn & Hmu & Hg).
  destruct (dbm_store_ok d (icbdb_make_key c a) (text_of v) Hw) as (d' & Ed & Hw' & _ & Hg' & Hn'); [lia|].
  unfold bind, gets, lift. destruct v as [z|v]; cbn in *; rewrite Hd, Hm, Ed;
    (eexists; split; [reflexivity|]; exists d'; split_and!; [done|done|lia|done|]);
    intros k; rewrite Hg'; unfold upd; by destruct (decide _).
Qed.

Lemma icbdb_delete_ready f nb s c a :
  ready f nb s → nb < 2 ^ 30 →
  ∃ s', icbdb_delete E c a s = Some (if f (icbdb_make_key c a) then 0 else -1, s') ∧
    ready (upd f (icbdb_make_key c a) None) nb s'.
Proof.
  intros Hr Hnb. apply with_db_ready with (f := f) (nb := nb); [done|].
  intros s1 (d & Hd & Hw & Hn & Hmu & Hg).
  destruct (dbm_delete_ok d (icbdb_make_key c a) Hw) as (d' & Ed & Hw' & Hn' & Hg'); [lia|].
  unfold bind, gets, lift. rewrite Hd, Ed. cbn. rewrite Hg.
  eexists; split; [reflexivity|]; exists d'; split_and!; [done|done|lia|done|].
  intros k; rewrite Hg'; unfold upd; by destruct (decide _).
Qed.
End map.

(** ** Keys *)

Lemma lcaseit_app s t : lcaseit (s ++ t) = lcaseit s ++ lcaseit t.
Proof. apply map_app. Qed.

(** Two spellings of a category and attribute that differ in case only share a key. *)
Lemma make_key_case c a c' a' :
  strcaseeq c c' = true → strcaseeq a a' = true →
  icbdb_make_key (Some c) a = icbdb_make_key (Some c') a'.
Proof.
  intros Hc Ha. apply strcaseeq_casefold in Hc, Ha. unfold icbdb_make_key.
  unfold lcaseit. rewrite <-!firstn_map. fold (lcaseit (c ++ str "." ++ a)) (lcaseit (c' ++ str "." ++ a')).
  rewrite !lcaseit_app, !lcaseit_casefold. congruence.
Qed.

Definition short (c a : cstring) : Prop := (length c + length a + 40 < DBLKSIZ)%nat.

Definition elem_key (c a : cstring) (i : Z) : bytes := icbdb_make_key (Some c) (list_attr a i).

Lemma print_nat_length fuel n acc : (length (print_nat fuel n acc) ≤ fuel + length acc)%nat.
Proof.
  revert n acc. induction fuel as [|fuel IH]; intros n acc; cbn [print_nat]; [lia|].
  case_if; [simpl; lia|]. etrans; [apply IH|]. simpl. lia.
Qed.

Lemma itoa_length z : (length (itoa z) ≤ 21)%nat.
Proof.
  unfold itoa. pose proof (print_nat_length 20 (- z) []) as H1. pose proof (print_nat_length 20 z []) as H2.
  cbn [length] in H1, H2. case_if; cbn [length]; lia.
Qed.

Definition idx_text (i : Z) : cstring := if i =? ICBDB_LIST_INDEX_MAX then str "max" else itoa i.

Lemma elem_key_eq c a i :
  short c a → elem_key c a i = lcaseit (c ++ str "." ++ a ++ str ".") ++ lcaseit (idx_text i).
Proof.
  intros Hs. unfold short in Hs. pose proof DBLKSIZ_val. unfold elem_key, icbdb_make_key, list_attr.
  fold (idx_text i). assert (length (idx_text i) ≤ 21)%nat as Hl.
  { unfold idx_text. case_if; [cbn; lia|apply itoa_length]. }
  assert (∀ t u, (length (t ++ str "." ++ u) = length t + 1 + length u)%nat) as Hdot
    by (intros t u; rewrite length_app; cbn; lia).
  rewrite (take_ge (a ++ _)), take_ge by (rewrite ?Hdot; lia). rewrite <-lcaseit_app. f_equal.
  by rewrite <-!app_assoc.
Qed.

Lemma lcase_digit c : is_digit c = true → lcase_char c = c.
Proof. revert c. intros []; vm_compute; done. Qed.

Lemma lcaseit_print fuel n acc :
  0 ≤ n → lcaseit acc = acc → lcaseit (print_nat fuel n acc) = print_nat fuel n acc.
Proof.
  revert n acc. induction fuel as [|fuel IH]; intros n acc Hn Ha; cbn [print_nat]; [done|].
  pose proof (Z.mod_pos_bound n 10 ltac:(lia)) as Hm.
  assert (lcaseit (to_uchar (48 + n mod 10) :: acc) = to_uchar (48 + n mod 10) :: acc) as Hc.
  { cbn [lcaseit map]. fold (lcaseit acc). rewrite Ha. f_equal. by apply lcase_digit, digit_char. }
  case_if; [done|]. apply IH; [apply Z.div_pos; lia|done].
Qed.

Lemma lcaseit_itoa z : lcaseit (itoa z) = itoa z.
Proof.
  unfold itoa. destruct (Z.ltb_spec z 0); [|by apply lcaseit_print].
  cbn [lcaseit map]. f_equal. apply lcaseit_print; [lia|done].
Qed.

Lemma itoa_not_max z : -1 ≤ z → itoa z ≠ str "max".
Proof.
  intros Hz. unfold itoa. destruct (Z.ltb_spec z 0).
  - by intros [=].
  - destruct (print_nat_head 20 z []) as (d & s & -> & Hd); [lia|lia|]. intros [= E _].
    apply (f_equal uchar) in E. rewrite uchar_to_uchar, Z.mod_small in E by lia. change (uchar "m") with 109 in E. lia.
Qed.

Lemma elem_key_inj c a i j :
  short c a → -1 ≤ i ≤ INT_MAX → -1 ≤ j ≤ INT_MAX → elem_key c a i = elem_key c a j → i = j.
Proof.
  intros Hs Hi Hj. rewrite !elem_key_eq by done. intros E%app_inv_head. unfold idx_text, ICBDB_LIST_INDEX_MAX in E.
  destruct (Z.eqb_spec i (-1)), (Z.eqb_spec j (-1)); subst; [done|..]; rewrite ?lcaseit_itoa in E.
  - exfalso. apply (itoa_not_max j); [lia|by symmetry].
  - exfalso. by apply (itoa_not_max i); [lia|].
  - unfold INT_MAX in *. apply itoa_inj; unfold INT_MIN, INT_MAX; try lia. done.
Qed.

(** ** Lists *)

(** The values at indices [i], [i+1], ... of a list. *)
Definition slot (f : bytes → option bytes) (c a : cstring) (i : Z) : option bytes := f (elem_key c a i).

(** What [icbdb_list_find] computes from the slots. *)
Fixpoint find_slots (t : icbdb_type) (v : dbval) (slots : list (option bytes)) (i fe lv : Z) : bool * Z * Z * Z :=
  match slots with
  | [] => (false, i, fe, lv)
  | None :: l => find_slots t v l (i + 1) (if fe =? -1 then 0 else fe) lv
  | Some x :: l =>
      if bool_decide (read_as t x = v) then (true, i, fe, lv) else find_slots t v l (i + 1) fe i
  end.

Definition slots_from (f : bytes → option bytes) (c a : cstring) (i : Z) (n : nat) : list (option bytes) :=
  map (λ k, slot f c a (i + Z.of_nat k)) (seq 0 n).

Lemma slots_from_S f c a i n : slots_from f c a i (S n) = slot f c a i :: slots_from f c a (i + 1) n.
Proof.
  unfold slots_from. cbn [seq map]. rewrite Z.add_0_r, <-seq_shift, map_map.
  apply (f_equal (cons (slot f c a i))).
  apply map_ext. intros k. by replace (i + Z.of_nat (S k)) with (i + 1 + Z.of_nat k) by lia.
Qed.

Definition all_short (f : bytes → option bytes) : Prop := ∀ k v, f k = Some v → (length v < DBLKSIZ)%nat.

Section lists.
Context (E : dbenv) (HE : env_ok E) (c a : cstring).

Lemma list_find_loop_ready f nb s v n i fe lv :
  ready f nb s → all_short f →
  reads (list_find_loop E (Some c) a v n i fe lv) f nb s
    (find_slots (type_of v) v (slots_from f c a i n) i fe lv).
Proof.
  intros Hr Hf. revert s i fe lv Hr. induction n as [|n IH]; intros s i fe lv Hr.
  { exists s. done. }
  cbn [list_find_loop]. rewrite slots_from_S. unfold reads, bind, icbdb_list_get_index.
  destruct (icbdb_get_ready E HE f nb s (Some c) (list_attr a i) (type_of v) Hr) as (s1 & E1 & Hr1);
    [intros ?; apply Hf|].
  rewrite E1. cbn [find_slots]. unfold slot, elem_key.
  destruct (f (icbdb_make_key (Some c) (list_attr a i))) as [x|]; cbn [fmap option_fmap option_map].
  - destruct (bool_decide (read_as (type_of v) x = v)); [by exists s1|by apply IH].
  - by apply IH.
Qed.

(** A list whose highest index is [m]. *)
Definition list_top (f : bytes → option bytes) (m : Z) : Prop :=
  -1 ≤ m < INT_MAX ∧ f (elem_key c a (-1)) = (if m =? -1 then None else Some (itoa m)).

Lemma until_nul_itoa z : until_nul (itoa z) = itoa z.
Proof.
  assert (∀ fuel n acc, 0 ≤ n → until_nul acc = acc → until_nul (print_nat fuel n acc) = print_nat fuel n acc) as Hp.
  { induction fuel as [|fuel IH]; intros n acc Hn Ha; cbn [print_nat]; [done|].
    pose proof (Z.mod_pos_bound n 10 ltac:(lia)) as Hm.
    assert (until_nul (to_uchar (48 + n mod 10) :: acc) = to_uchar (48 + n mod 10) :: acc) as Hc.
    { cbn [until_nul]. rewrite Ha. destruct (Byte.eqb _ x00) eqn:Ez; [|done].
      apply Byte.byte_dec_bl, (f_equal uchar) in Ez. rewrite uchar_to_uchar, Z.mod_small in Ez by lia.
      change (uchar x00) with 0 in Ez. lia. }
    case_if; [done|]. apply IH; [apply Z.div_pos; lia|done]. }
  unfold itoa. destruct (Z.ltb_spec z 0); [cbn [until_nul]; rewrite Hp by (done || lia); done|by apply Hp].
Qed.

Lemma list_max_ready f nb s m :
  ready f nb s → all_short f → list_top f m → reads (list_max E (Some c) a) f nb s m.
Proof.
  intros Hr Hf [Hm Ht]. unfold reads, list_max, bind, icbdb_list_get_index.
  destruct (icbdb_get_ready E HE f nb s (Some c) (list_attr a ICBDB_LIST_INDEX_MAX) ICBDB_INT Hr) as (s1 & E1 & Hr1);
    [intros ?; apply Hf|].
  exists s1. split; [|done]. rewrite E1. fold (elem_key c a ICBDB_LIST_INDEX_MAX).
  unfold ICBDB_LIST_INDEX_MAX. rewrite Ht.
  destruct (Z.eqb_spec m (-1)) as [->|Hne]; cbn [fmap option_fmap option_map read_as]; [done|].
  rewrite until_nul_itoa, atoi_itoa; [done|]. unfold INT_MIN, INT_MAX in *. lia.
Qed.

Lemma icbdb_list_find_ready f nb s v m :
  ready f nb s → all_short f → list_top f m →
  let '(found, i, fe, lv) := find_slots (type_of v) v (slots_from f c a 0 (Z.to_nat (m + 1))) 0 (-1) (-1) in
  reads (icbdb_list_find E (Some c) a v) f nb s
    (FoundAt found i m (if fe =? -1 then m + 1 else fe) lv).
Proof.
  intros Hr Hf Ht. destruct (find_slots _ _ _ _ _ _) as [[[found i] fe] lv] eqn:Ef.
  apply with_db_ready with (f := f) (nb := nb); [done|]. intros s1 Hr1.
  destruct (list_max_ready f nb s1 m Hr1 Hf Ht) as (s2 & E2 & Hr2).
  destruct (list_find_loop_ready f nb s2 v (Z.to_nat (m + 1)) 0 (-1) (-1) Hr2 Hf) as (s3 & E3 & Hr3).
  exists s3. split; [|done]. unfold bind. by rewrite E2, E3, Ef.
Qed.
End lists.

(** ** Main properties *)

Definition holds_value (t : icbdb_type) (v : dbval) (o : option bytes) : bool :=
  match o with Some x => bool_decide (read_as t x = v) | None => false end.
Definition is_hole (o : option bytes) : bool := match o with None => true | Some _ => false end.

Lemma find_slots_miss t v l i fe lv :
  existsb (holds_value t v) l = false →
  ∃ lv', find_slots t v l i fe lv =
    (false, i + Z.of_nat (length l), if existsb is_hole l then (if fe =? -1 then 0 else fe) else fe, lv').
Proof.
  revert i fe lv. induction l as [|[x|] l IH]; intros i fe lv; cbn [existsb find_slots length].
  - exists lv. by rewrite Z.add_0_r.
  - intros [Hx Hl]%orb_false_iff. cbn [holds_value] in Hx. rewrite Hx. cbn [is_hole orb].
    destruct (IH (i + 1) fe i Hl) as [lv' ->]. exists lv'. do 3 f_equal. lia.
  - intros Hl. cbn [is_hole orb]. destruct (IH (i + 1) (if fe =? -1 then 0 else fe) lv Hl) as [lv' ->].
    exists lv'. f_equal. f_equal; [f_equal; lia|].
    destruct (Z.eqb_spec fe (-1)) as [->|Hne]; [by destruct (existsb is_hole l)|].
    destruct (Z.eqb_spec fe (-1)); [done|]. by destruct (existsb is_hole l).
Qed.

Lemma find_slots_hit t v l i fe lv :
  existsb (holds_value t v) l = true → (find_slots t v l i fe lv).1.1.1 = true.
Proof.
  revert i fe lv. induction l as [|[x|] l IH]; intros i fe lv; cbn [existsb find_slots]; [done| |by apply IH].
  cbn [holds_value]. destruct (bool_decide _); [done|]. by apply IH.
Qed.

Definition storable (v : dbval) : Prop :=
  match v with
  | VStr t => (length t < DBLKSIZ)%nat ∧ x00 ∉ t
  | VInt z => INT_MIN ≤ z ≤ INT_MAX
  end.

Lemma until_nul_id t : x00 ∉ t → until_nul t = t.
Proof.
  induction t as [|x t IH]; cbn [until_nul]; [done|]. intros [Hx Ht]%not_elem_of_cons.
  destruct (Byte.eqb x x00) eqn:Ex; [apply Byte.byte_dec_bl in Ex; congruence|]. by rewrite IH.
Qed.

Lemma read_as_text v : storable v → read_as (type_of v) (text_of v) = v.
Proof.
  destruct v as [z|t]; cbn [storable type_of text_of read_as].
  - intros Hz. by rewrite until_nul_itoa, atoi_itoa.
  - intros [_ Ht]. by rewrite until_nul_id.
Qed.

Lemma storable_length v : storable v → (length (text_of v) < DBLKSIZ)%nat.
Proof.
  pose proof DBLKSIZ_val. destruct v as [z|t]; cbn [storable text_of]; [|by intros [? _]].
  intros _. pose proof (itoa_length z). lia.
Qed.

(** A value stored under a category and attribute is read back, as the
    same integer or string, under any spelling of them that differs in case. *)
Theorem icbdb_set_get E f nb s c a c' a' v :
  env_ok E → ready f nb s → nb ≤ 2 ^ 30 → storable v → strcaseeq c c' = true → strcaseeq a a' = true →
  ∃ s1 s2, icbdb_set E (Some c) a v s = Some (0, s1) ∧
    icbdb_get E true (Some c') a' (type_of v) s1 = Some (Some v, s2).
Proof.
  intros HE Hr Hnb Hv Hc Ha. destruct (icbdb_set_ready E HE f nb s (Some c) a v Hr Hnb) as (s1 & E1 & Hr1).
  exists s1. rewrite (make_key_case c a c' a' Hc Ha) in Hr1. set (f1 := upd _ _ _) in Hr1.
  assert (f1 (icbdb_make_key (Some c') a') = Some (text_of v)) as Hf1 by (unfold f1, upd; by rewrite decide_True).
  destruct (icbdb_get_ready E HE f1 (2 * nb) s1 (Some c') a' (type_of v) Hr1) as (s2 & E2 & _).
  { intros x Hx. rewrite Hf1 in Hx. injection Hx as <-. by apply storable_length. }
  exists s2. split; [done|]. rewrite E2, Hf1. cbn [fmap option_fmap option_map]. by rewrite read_as_text.
Qed.

Definition ready_db : icbdb := Icbdb (Some empty_dbm) 0 false [] (Disk None None).
Lemma ready_db_ready : ready (λ _, None) 128 ready_db.
Proof.
  exists empty_dbm. split_and!; try done; [apply empty_wf|]. intros k. apply get_None; [apply empty_wf|].
  rewrite entries_empty. apply not_elem_of_nil.
Qed.
Lemma env_good_ok : env_ok env_good.
Proof. done. Qed.

Lemma icbdb_set_get_witness :
  ∃ s1 s2, icbdb_set env_good (Some (str "Bob")) (str "nummsg") (VInt 12) ready_db = Some (0, s1) ∧
    icbdb_get env_good true (Some (str "bob")) (str "NumMsg") ICBDB_INT s1 = Some (Some (VInt 12), s2).
Proof.
  apply (icbdb_set_get env_good (λ _, None) 128 ready_db (str "Bob") (str "nummsg") (str "bob") (str "NumMsg") (VInt 12)
    env_good_ok ready_db_ready); [lia|unfold storable, INT_MIN, INT_MAX; lia|reflexivity|reflexivity].
Defined.

(** [icbdb_list_add] leaves the list alone when the value is present;
    appends it after the highest index when it is not and the list has no hole;
    and, when there is a hole anywhere, stores it at index 0, over the value
    that is there, and not in the hole. *)
Theorem icbdb_list_add_spec E f nb s c a v m :
  env_ok E → ready f nb s → nb ≤ 2 ^ 29 → all_short f → short c a → list_top c a f m → m < INT_MAX - 1 →
  let slots := slots_from f c a 0 (Z.to_nat (m + 1)) in
  ∃ s', icbdb_list_add E (Some c) a v s = Some (1, s') ∧
    ready (if existsb (holds_value (type_of v) v) slots then f
           else if existsb is_hole slots then upd f (elem_key c a 0) (Some (text_of v))
           else upd (upd f (elem_key c a (m + 1)) (Some (text_of v))) (elem_key c a (-1)) (Some (itoa (m + 1))))
      (4 * nb) s'.
Proof.
  intros HE Hr Hnb Hf Hs Ht Hm slots. pose proof Ht as [Hm1 _].
  pose proof (ready_pos _ _ _ Hr) as Hpos.
  apply with_db_ready with (f := f) (nb := nb); [done|]. intros s1 Hr1.
  pose proof (icbdb_list_find_ready E HE c a f nb s1 v m Hr1 Hf Ht) as Hfind. fold slots in Hfind.
  destruct (existsb (holds_value (type_of v) v) slots) eqn:Eh.
  - pose proof (find_slots_hit (type_of v) v slots 0 (-1) (-1) Eh) as Hh.
    destruct (find_slots _ _ _ _ _ _) as [[[found i] fe] lv]. cbn [fst] in Hh. subst found.
    destruct Hfind as (s2 & E2 & Hr2). exists s2. unfold bind. rewrite E2. split; [done|]. eapply ready_mono; [done|lia].
  - destruct (find_slots_miss (type_of v) v slots 0 (-1) (-1) Eh) as [lv Ef]. rewrite Ef in Hfind.
    destruct Hfind as (s2 & E2 & Hr2). unfold bind. rewrite E2. cbn [fa_found fa_first_empty fa_max_index].
    change (-1 =? -1) with true in *. cbn iota in *.
    destruct (existsb is_hole slots) eqn:Eo.
    + change (0 =? -1) with false. cbn iota.
      destruct (icbdb_set_ready E HE f nb s2 (Some c) (list_attr a 0) v Hr2) as (s3 & E3 & Hr3); [lia|].
      unfold icbdb_list_set_index at 1. rewrite E3.
      destruct (Z.ltb_spec m 0) as [Hneg|Hge].
      { exfalso. unfold slots in Eo. replace (Z.to_nat (m + 1)) with 0%nat in Eo by lia. done. }
      exists s3. split; [done|]. eapply ready_mono; [exact Hr3|lia].
    + change (-1 =? -1) with true. cbn iota.
      destruct (icbdb_set_ready E HE f nb s2 (Some c) (list_attr a (m + 1)) v Hr2) as (s3 & E3 & Hr3); [lia|].
      unfold icbdb_list_set_index at 1. rewrite E3. destruct (Z.ltb_spec m (m + 1)); [|lia].
      destruct (icbdb_set_ready E HE _ _ s3 (Some c) (list_attr a ICBDB_LIST_INDEX_MAX) (VInt (m + 1)) Hr3)
        as (s4 & E4 & Hr4); [lia|].
      unfold icbdb_list_set_index. rewrite E4. exists s4. split; [done|].
      replace (4 * nb) with (2 * (2 * nb)) by lia. exact Hr4.
Qed.

(** Adding "eve" to the friends amy and dan, with a hole between them where cat
    was, loses amy. *)
Definition holed_list : M icbdb (Z * list cstring) :=
  let add x := icbdb_list_add env_good (Some (str "bob")) (str "friends") (VStr x) in
  add (str "amy") ;; add (str "cat") ;; add (str "dan") ;;
  icbdb_list_delete env_good (Some (str "bob")) (str "friends") (VStr (str "cat")) ;;
  add (str "eve") ;;
  icbdb_list_load env_good (Some (str "bob")) (str "friends") 10 [].

Example holed_list_loses_entry : fst <$> holed_list ready_db = Some (1, [str "dan"; str "eve"]).
Proof. vm_compute. reflexivity. Qed.

Lemma icbdb_list_add_spec_witness :
  ∃ s', icbdb_list_add env_good (Some (str "bob")) (str "friends") (VStr (str "amy")) ready_db = Some (1, s') ∧
    ready (upd (upd (λ _, None) (elem_key (str "bob") (str "friends") 0) (Some (str "amy")))
      (elem_key (str "bob") (str "friends") (-1)) (Some (itoa 0))) 512 s'.
Proof.
  apply (icbdb_list_add_spec env_good (λ _, None) 128 ready_db (str "bob") (str "friends") (VStr (str "amy")) (-1)
    env_good_ok ready_db_ready).
  - lia.
  - done.
  - unfold short. pose proof DBLKSIZ_val. cbn. lia.
  - unfold list_top, INT_MAX. split; [lia|reflexivity].
  - unfold INT_MAX. lia.
Defined.
