(* ===== verification/Log.v ===== *)
(** * The log (server/mdb.c, the log files of server/icbutil.c)

    Which messages are written, the text of a line, and when the file is open:
    [main] opens it, the command that changes the level opens and closes it, a
    hangup signal opens it again, and a restart closes it. *)

From Stdlib Require Import ZArith Lia String.
From stdpp Require Import relations.
From S2P Require Import Config Prelude CLib Monad IcbDb.

Local Open Scope Z_scope.
Local Open Scope icb_monad_scope.

Definition msgtypelist : list cstring :=
  [str "[ERR] "; str "[WARN] "; str "[INFO] "; str "[DEBUG] "; str "[VERBOSE] "].
Definition num_msg_types : Z := 5.

(** [BUFSIZ] of the C library. *)
Definition BUFSIZ : nat := Z.to_nat 8192.

(** [icbd_log] and [log_level]; the descriptors of the log file that are open;
    the results of the coming calls of [open], of which failures are [None]; and
    the lines that were written, each with its descriptor. *)
Record log : Type := Log {
  icbd_log : Z;
  log_level : Z;
  files : list Z;
  opens : list (option Z);
  written : list (Z * cstring)
}.

Section code.
(** What [strftime] makes of the time, and the name of the host. *)
Context (timebuf thishost : cstring).

Definition enabled (level : Z) (s : log) : bool :=
  ((level =? MSG_ALL) || (level <=? log_level s)) && (0 <=? icbd_log s).

Definition msgtype (level : Z) : cstring :=
  if (0 <? level) && (level <=? num_msg_types) then nth (Z.to_nat (level - 1)) msgtypelist [] else [].

(** [snprintf(tmp, BUFSIZ, "%s %s %s: %s\n", ...)]. *)
Definition line_text (level : Z) (message : cstring) : cstring :=
  msgtype level ++ str " " ++ timebuf ++ str " " ++ thishost ++ str ": " ++ message ++ [x0a].
Definition log_line (level : Z) (message : cstring) : cstring := take (BUFSIZ - 1) (line_text level message).

(** [write(icbd_log, ...)], whose result is not looked at. *)
Definition write_log (line : cstring) : M log unit :=
  modify (λ s, if bool_decide (icbd_log s ∈ files s)
               then Log (icbd_log s) (log_level s) (files s) (opens s) (written s ++ [(icbd_log s, line)]) else s).

Definition mdb (level : Z) (message : cstring) : M log unit :=
  e <- gets (enabled level) ;; when e (write_log (log_line level message)).

(** The message is what the format and its arguments make. *)
Definition vmdb (level : Z) (message : cstring) : M log unit :=
  e <- gets (enabled level) ;; when e (mdb level (take (BUFSIZ - 1) message)).

(** [str] and [len] of a message of the TLS library. *)
Definition sslmdb (text : list byte) (len : nat) : M log Z :=
  mdb MSG_ERR (until_nul (take (len `min` BUFSIZ) text)) ;; ret 0.

(** [false] stands for [exit(1)]. *)
Definition icbopenlogs : M log bool :=
  s <- getS ;;
  match opens s with
  | Some fd :: l =>
      modify (λ s, Log fd (log_level s) (files s ++ [fd]) l (written s)) ;; ret true
  | _ => ret false
  end.

Definition icbcloselogs : M log unit :=
  modify (λ s, Log (-1) (log_level s) (filter (λ fd, fd ≠ icbd_log s) (files s)) (opens s) (written s)).

Definition icbcyclelogs : M log bool := icbcloselogs ;; icbopenlogs.

(** The start ([-l level]) and the command that sets the level. *)
Definition start_log (level : Z) : M log bool :=
  modify (λ s, Log (-1) level (files s) (opens s) (written s)) ;;
  if 0 <=? level then icbopenlogs else ret true.

Definition change_level (wanted : Z) : M log bool :=
  let new_level := Z.max 0 wanted in
  old <- gets log_level ;;
  ok <- (if (0 <? new_level) && (old =? 0) then icbopenlogs
         else if (new_level =? 0) && (0 <? old) then icbcloselogs ;; ret true
         else ret true) ;;
  if negb ok then ret false
  else
    modify (λ s, Log (icbd_log s) new_level (files s) (opens s) (written s)) ;;
    vmdb MSG_ALL (str "Log level changed to " ++ itoa new_level) ;; ret true.

(** ** What happens to the log *)

Inductive log_step : log → log → Prop :=
| step_message level message s s' : vmdb level message s = Some (tt, s') → log_step s s'
| step_tls text len r s s' : sslmdb text len s = Some (r, s') → log_step s s'
| step_level n s s' : change_level n s = Some (true, s') → log_step s s'
| step_hangup s s' : icbcyclelogs s = Some (true, s') → log_step s s'.

Inductive logging : log → Prop :=
| logging_start level l s :
    0 ≤ level → Forall (λ o, ∀ fd, o = Some fd → 0 ≤ fd) l → start_log level (Log 0 0 [] l []) = Some (true, s) → logging s
| logging_step s s' : logging s → log_step s s' → logging s'.

(** The file is open at every level but 0. *)
Record log_ok (s : log) : Prop := {
  lo_level : 0 ≤ log_level s;
  lo_open : 0 < log_level s → icbd_log s ∈ files s;
  lo_files : Forall (λ fd, 0 ≤ fd) (files s);
  lo_opens : Forall (λ o, ∀ fd, o = Some fd → 0 ≤ fd) (opens s)
}.

(** What messages leave alone. *)
Definition log_same (s s' : log) : Prop :=
  icbd_log s' = icbd_log s ∧ log_level s' = log_level s ∧ files s' = files s ∧ opens s' = opens s.

#[local] Instance log_same_pre : PreOrder log_same.
Proof. split; [done|]. intros s1 s2 s3 (?&?&?&?) (?&?&?&?). split_and!; congruence. Qed.

Lemma mdb_same level message : preserves log_same (mdb level message).
Proof.
  unfold mdb, write_log. pres. apply preserves_modify. intros s. by case_bool_decide.
Qed.
Lemma vmdb_same level message : preserves log_same (vmdb level message).
Proof. unfold vmdb. pres. apply mdb_same. Qed.

Lemma log_same_ok s s' : log_same s s' → log_ok s → log_ok s'.
Proof. intros (E1 & E2 & E3 & E4) []. by split; rewrite ?E1, ?E2, ?E3, ?E4. Qed.

Lemma open_inv s b s' :
  icbopenlogs s = Some (b, s') →
  b = false ∧ s' = s ∨ b = true ∧ ∃ fd l, opens s = Some fd :: l ∧ s' = Log fd (log_level s) (files s ++ [fd]) l (written s).
Proof.
  unfold icbopenlogs, bind, getS. destruct (opens s) as [|[fd|] l]; intros [= <- <-]; [by left| |by left].
  right. eauto.
Qed.

Lemma change_level_inv n s s' :
  change_level n s = Some (true, s') →
  ∃ s1, log_same (Log (icbd_log s1) (Z.max 0 n) (files s1) (opens s1) (written s1)) s' ∧
    (0 < n ∧ log_level s = 0 ∧ icbopenlogs s = Some (true, s1) ∨
     n ≤ 0 ∧ 0 < log_level s ∧ icbcloselogs s = Some (tt, s1) ∨
     s1 = s ∧ (0 < n → log_level s ≠ 0)).
Proof.
  unfold change_level, bind at 1, gets. set (new := Z.max 0 n).
  assert (∀ s1, (modify (λ s, Log (icbd_log s) new (files s) (opens s) (written s)) ;;
      vmdb MSG_ALL (str "Log level changed to " ++ itoa new) ;; ret true) s1 = Some (true, s') →
      log_same (Log (icbd_log s1) new (files s1) (opens s1) (written s1)) s') as Hend.
  { intros s1. unfold bind, modify. destruct (vmdb _ _ _) as [[[] s2]|] eqn:E; [|done]. intros [= <-]. by eapply vmdb_same. }
  unfold bind at 1. destruct (Z.ltb_spec 0 new); cbn [andb].
  - destruct (Z.eqb_spec (log_level s) 0).
    + destruct (icbopenlogs s) as [[[] s1]|] eqn:E; cbn [negb]; try done. intros Hs%Hend. exists s1. split; [done|]. left. split; [lia|done].
    + destruct (Z.eqb_spec new 0); [lia|]. cbn [andb]. intros Hs%Hend. exists s. split; [done|]. right. by right.
  - assert (n ≤ 0) by lia. destruct (Z.eqb_spec new 0); [|lia]. destruct (Z.ltb_spec 0 (log_level s)); cbn [andb].
    + intros Hs%Hend. eexists. split; [exact Hs|]. right. left. by split_and!.
    + intros Hs%Hend. exists s. split; [done|]. right. right. split; [done|lia].
Qed.

Lemma forall_filter {A} (P Q : A → Prop) `{∀ x, Decision (Q x)} l : Forall P l → Forall P (filter Q l).
Proof. rewrite !Forall_forall. intros Hl x [_ Hx]%list_elem_of_filter. auto. Qed.

Lemma close_ok s level : log_ok s → level = 0 → log_ok (Log (-1) level (filter (λ fd, fd ≠ icbd_log s) (files s)) (opens s) (written s)).
Proof. intros [] ->. split; cbn; [done|lia|by apply forall_filter|done]. Qed.

Lemma open_ok s s' level :
  Forall (λ fd, 0 ≤ fd) (files s) → Forall (λ o, ∀ fd, o = Some fd → 0 ≤ fd) (opens s) → 0 ≤ level →
  icbopenlogs s = Some (true, s') → log_ok (Log (icbd_log s') level (files s') (opens s') (written s')).
Proof.
  intros Hf Ho Hl E. apply open_inv in E as [[? _]|(_ & fd & l & El & ->)]; [done|]. rewrite El in Ho.
  apply Forall_cons in Ho as [Hfd Ho]. split; cbn; [done| | |done].
  - intros _. apply elem_of_app. right. by apply list_elem_of_singleton.
  - apply Forall_app_2; [done|]. apply Forall_singleton. auto.
Qed.

Lemma log_step_ok s s' : log_step s s' → log_ok s → log_ok s'.
Proof.
  intros [level message s1 s2 H|text len r s1 s2 H|n s1 s2 H|s1 s2 H] Hs; [eapply log_same_ok; [by eapply vmdb_same|done]| | |].
  - eapply log_same_ok, Hs. revert H. unfold sslmdb, bind. destruct (mdb _ _ _) as [[[] s3]|] eqn:E; [|done].
    intros [= _ <-]. by eapply mdb_same.
  - apply change_level_inv in H as (s3 & Hsame & Hc). eapply log_same_ok; [exact Hsame|].
    destruct Hc as [(Hn & _ & E)|[(Hn & Hl & [= <-])|[-> Hn]]].
    + eapply open_ok, E; [apply Hs|apply Hs|lia].
    + refine (close_ok s1 (Z.max 0 n) Hs _). lia.
    + destruct Hs as [H1 H2 H3 H4]. split; cbn; [lia| |done|done]. intros Hp. apply H2. specialize (Hn ltac:(lia)). lia.
  - revert H. unfold icbcyclelogs, bind, icbcloselogs, modify. intros E.
    eapply (open_ok _ _ (log_level s1)) in E as Hok; [|by apply forall_filter, Hs|apply Hs|apply Hs].
    apply open_inv in E as [[? _]|(_ & fd & l & _ & ->)]; done.
Qed.

Lemma logging_ok s : logging s → log_ok s.
Proof.
  induction 1 as [level l s Hl Hf E|s s' _ IH Hst]; [|by eapply log_step_ok].
  revert E. unfold start_log, bind, modify. destruct (Z.leb_spec 0 level); [|lia]. intros E.
  eapply (open_ok _ _ level) in E as Hok; [|done..]. by apply open_inv in E as [[? _]|(_ & fd & l' & _ & ->)].
Qed.

(** A line, when the message and what is put before it leave room. *)
Definition line_fits (level : Z) (message : cstring) : Prop := (length (line_text level message) < BUFSIZ)%nat.

Lemma mdb_run level message s :
  enabled level s = true → icbd_log s ∈ files s →
  mdb level message s = Some (tt, Log (icbd_log s) (log_level s) (files s) (opens s) (written s ++ [(icbd_log s, log_line level message)])).
Proof.
  intros He Hi. unfold mdb, bind, gets. rewrite He. cbn [when]. unfold write_log, modify. by rewrite bool_decide_true.
Qed.

Lemma line_fits_message level message : line_fits level message → take (BUFSIZ - 1) message = message.
Proof. unfold line_fits, line_text. rewrite !length_app. intros Hl. apply take_ge. lia. Qed.
End code.

(** ** Main properties *)

(** C36: a message that the level of the log lets through is written, as a whole
    line with its kind, the time and the name of the host, when it fits the
    line.  This is so in every log that was started with a level that is not
    negative and has since only been written to, by the server and the TLS
    library, been given other levels, and been opened again after the signal for
    it (both successfully): a file is open at every level but 0.  Other messages
    are not written.  It is not so in a log that was started with a negative
    level or was closed for a restart, see below. *)
Theorem messages_logged timebuf thishost s level message :
  logging timebuf thishost s → 1 ≤ level ≤ num_msg_types → line_fits timebuf thishost level message →
  vmdb timebuf thishost level message s =
    Some (tt, if level <=? log_level s
              then Log (icbd_log s) (log_level s) (files s) (opens s)
                     (written s ++ [(icbd_log s, line_text timebuf thishost level message)])
              else s) ∧
  (level ≤ log_level s → icbd_log s ∈ files s).
Proof.
  intros Hs Hl Hf. apply logging_ok in Hs as [H1 H2 H3 H4]. assert (level ≤ log_level s → icbd_log s ∈ files s) as Hi by (intros ?; apply H2; lia).
  split; [|done]. unfold vmdb, bind, gets. destruct (enabled level s) eqn:He.
  - cbn [when]. rewrite (line_fits_message _ _ _ _ Hf). pose proof He as He'. apply andb_true_iff in He' as [Hg _].
    apply orb_true_iff in Hg as [Hg%Z.eqb_eq|Hg%Z.leb_le]; [unfold MSG_ALL in Hg; lia|].
    rewrite mdb_run by auto. unfold log_line. rewrite take_ge by (unfold line_fits in Hf; lia).
    by destruct (Z.leb_spec level (log_level s)); [|lia].
  - destruct (Z.leb_spec level (log_level s)) as [Hle|?]; [|done]. exfalso.
    rewrite Forall_forall in H3. specialize (H3 _ (Hi Hle)). unfold enabled in He.
    apply andb_false_iff in He as [Hg|Hg%Z.leb_gt]; [|lia]. apply orb_false_iff in Hg as [_ Hg%Z.leb_gt]. lia.
Qed.

(** The log of a server that was started with level 3. *)
Definition demo_log : log := Log 5 3 [5] [] [].

Lemma messages_logged_witness :
  vmdb (str "Jan 01") (str "icb") MSG_WARN (str "late") demo_log = Some (tt, Log 5 3 [5] [] [(5, str "[WARN]  Jan 01 icb: late" ++ [x0a])]).
Proof.
  destruct (messages_logged (str "Jan 01") (str "icb") demo_log MSG_WARN (str "late")) as [E _].
  - apply (logging_start _ _ 3 [Some 5]); [lia| |reflexivity]. apply Forall_singleton. intros fd [= <-]. lia.
  - unfold MSG_WARN, num_msg_types. lia.
  - apply Nat.ltb_lt. vm_compute. reflexivity.
  - exact E.
Defined.

(** A descriptor that was left behind. *)
Definition left_open (a : Z) (s : log) : Prop := a ∈ files s ∧ icbd_log s ≠ a ∧ Some a ∉ opens s.

Lemma left_open_close timebuf thishost a s s' : 0 ≤ a → log_step timebuf thishost s s' → left_open a s → left_open a s'.
Proof.
  assert (∀ s s', log_same s s' → left_open a s → left_open a s') as Hsame.
  { intros s0 s1 (E1 & E2 & E3 & E4) (H1 & H2 & H3). split_and!; by rewrite ?E1, ?E3, ?E4. }
  assert (∀ s s', icbopenlogs s = Some (true, s') → a ∈ files s → Some a ∉ opens s → left_open a s') as Hopen.
  { intros s0 s1 [[? _]|(_ & fd & l & El & ->)]%open_inv Hf Ho; [done|]. rewrite El in Ho.
    apply not_elem_of_cons in Ho as [Hn Ho]. split_and!; cbn; [apply elem_of_app; by left|congruence|done]. }
  intros Ha [level message s1 s2 H|text len r s1 s2 H|n s1 s2 H|s1 s2 H] (H1 & H2 & H3); [eapply Hsame; [by eapply vmdb_same|done]| | |].
  - eapply Hsame; [|done]. revert H. unfold sslmdb, bind. destruct (mdb _ _ _ _ _) as [[[] s3]|] eqn:E; [|done].
    intros [= _ <-]. by eapply mdb_same.
  - apply change_level_inv in H as (s3 & Hs & Hc). eapply Hsame; [exact Hs|].
    destruct Hc as [(_ & _ & E)|[(_ & _ & [= <-])|[-> _]]].
    + by destruct (Hopen _ _ E H1 H3).
    + split_and!; cbn; [by apply list_elem_of_filter|lia|done].
    + done.
  - revert H. unfold icbcyclelogs, bind, icbcloselogs, modify. intros E. apply (Hopen _ _ E); cbn; [by apply list_elem_of_filter|done].
Qed.

(** [main] opens the log at level 0 too, but the command takes level 0 to mean
    that it is closed: raising the level of a server that was started without
    -l opens the file once more and leaves the first descriptor open for good. *)
Theorem raised_level_leaks timebuf thishost a b l n s s1 s2 :
  start_log 0 (Log 0 0 [] (Some a :: Some b :: l) []) = Some (true, s) →
  0 ≤ a → a ≠ b → Some a ∉ l → 0 < n → change_level timebuf thishost n s = Some (true, s1) →
  rtc (log_step timebuf thishost) s1 s2 → a ∈ files s2 ∧ icbd_log s2 ≠ a.
Proof.
  intros [= <-] Ha Hab Hl Hn Hc Hst. cut (left_open a s2); [by intros (? & ? & _)|].
  assert (left_open a s1) as H1.
  { apply change_level_inv in Hc as (s0 & (E1 & _ & E3 & E4) & [(_ & _ & [= <-])|[(? & _)|[-> Hx]]]); [|lia|by apply Hx in Hn].
    cbn in *. split_and!; rewrite ?E1, ?E3, ?E4; [by left|done|done]. }
  clear Hc. induction Hst as [|x y z Hxy _ IH]; [done|]. apply IH. by eapply left_open_close.
Qed.

Lemma raised_level_leaks_witness :
  let s := Log 6 3 [5; 6] [] [(6, str " Jan 01 icb: Log level changed to 3" ++ [x0a])] in 5 ∈ files s ∧ icbd_log s ≠ 5.
Proof.
  intros s. apply (raised_level_leaks (str "Jan 01") (str "icb") 5 6 [] 3 (Log 5 0 [5] [Some 6] []) s s).
  - reflexivity.
  - lia.
  - lia.
  - apply not_elem_of_nil.
  - lia.
  - vm_compute. reflexivity.
  - apply rtc_refl.
Defined.

(** A server that was started with a negative level never writes a line,
    whatever level it is given afterwards, until it is given level 0. *)
Example negative_level_silent :
  ∃ s s1, start_log (-1) (Log 0 0 [] [Some 5] []) = Some (true, s) ∧
    change_level (str "Jan 01") (str "icb") 5 s = Some (true, s1) ∧ log_level s1 = 5 ∧ icbd_log s1 = -1.
Proof. by do 2 eexists. Qed.

(** After the log was closed for a restart nothing is written, so that a
    restart that fails leaves no line. *)
Lemma closed_log_silent timebuf thishost level message s s1 :
  icbcloselogs s = Some (tt, s1) → vmdb timebuf thishost level message s1 = Some (tt, s1).
Proof. intros [= <-]. unfold vmdb, bind, gets, enabled. cbn [icbd_log]. by rewrite andb_false_r. Qed.
