(* ===== verification/SslConf.v ===== *)
(** * The context of the TLS library (pktserv/sslconf.c)

    [init_ssl] over the results of the calls of the library, which are
    arbitrary; the context is what was set on it. *)

From Stdlib Require Import ZArith Lia String.
From S2P Require Import Config Prelude CLib Monad IcbDb Log.

Local Open Scope Z_scope.
Local Open Scope icb_monad_scope.

Inductive protocol : Type := SSLv2 | SSLv3 | TLSv1 | TLSv1_1 | TLSv1_2 | TLSv1_3.
#[global] Instance protocol_eq_dec : EqDecision protocol.
Proof. solve_decision. Defined.
Definition version (p : protocol) : Z :=
  match p with SSLv2 => 0 | SSLv3 => 1 | TLSv1 => 2 | TLSv1_1 => 3 | TLSv1_2 => 4 | TLSv1_3 => 5 end.

(** A context: the protocols that are switched off, the least protocol, the
    other options, the cipher lists, and the files of the key and the
    certificate. *)
Record SSL_CTX : Type := Ctx {
  x_off : list protocol;
  x_min : option protocol;
  x_no_compression : bool;
  x_server_preference : bool;
  x_ciphers : option cstring;
  x_suites : option cstring;
  x_key : option cstring;
  x_cert : option cstring
}.
Definition new_ctx : SSL_CTX := Ctx [] None false false None None None None.

(** Which of the calls the build found in the library, and what they return. *)
Record ssl_env : Type := SslEnv {
  HAVE_SSL_CTX_SET_MIN_PROTO_VERSION : bool;
  HAVE_SSL_CTX_SET_CIPHERSUITES : bool;
  r_new : bool;
  r_min : bool;
  r_ciphers : bool;
  r_suites : bool;
  r_key : Z;
  r_cert : Z;
  r_check : bool
}.

(** The global [ctx], how many contexts were freed, and what was logged. *)
Record ssl_state : Type := SslState { ctx : option SSL_CTX; freed : nat; logged : list (Z * cstring) }.

Definition note (level : Z) (text : cstring) : M ssl_state unit :=
  modify (λ s, SslState (ctx s) (freed s) (logged s ++ [(level, text)])).
Definition on_ctx (f : SSL_CTX → SSL_CTX) : M ssl_state unit :=
  modify (λ s, SslState (f <$> ctx s) (freed s) (logged s)).

Definition switch_off (l : list protocol) (x : SSL_CTX) : SSL_CTX :=
  Ctx (x_off x ++ l) (x_min x) (x_no_compression x) (x_server_preference x) (x_ciphers x) (x_suites x) (x_key x) (x_cert x).
Definition set_options (x : SSL_CTX) : SSL_CTX :=
  Ctx (x_off x ++ [SSLv2; SSLv3]) (x_min x) true true (x_ciphers x) (x_suites x) (x_key x) (x_cert x).
Definition set_min (p : protocol) (x : SSL_CTX) : SSL_CTX :=
  Ctx (x_off x) (Some p) (x_no_compression x) (x_server_preference x) (x_ciphers x) (x_suites x) (x_key x) (x_cert x).
Definition set_ciphers (l : cstring) (x : SSL_CTX) : SSL_CTX :=
  Ctx (x_off x) (x_min x) (x_no_compression x) (x_server_preference x) (Some l) (x_suites x) (x_key x) (x_cert x).
Definition set_suites (l : cstring) (x : SSL_CTX) : SSL_CTX :=
  Ctx (x_off x) (x_min x) (x_no_compression x) (x_server_preference x) (x_ciphers x) (Some l) (x_key x) (x_cert x).
Definition set_key (f : cstring) (x : SSL_CTX) : SSL_CTX :=
  Ctx (x_off x) (x_min x) (x_no_compression x) (x_server_preference x) (x_ciphers x) (x_suites x) (Some f) (x_cert x).
Definition set_cert (f : cstring) (x : SSL_CTX) : SSL_CTX :=
  Ctx (x_off x) (x_min x) (x_no_compression x) (x_server_preference x) (x_ciphers x) (x_suites x) (x_key x) (Some f).

Definition cipher_list : cstring := str "HIGH:!aNULL:!eNULL:!MD5:!RC4:!3DES:!DES:!EXP:!PSK:!SRP".
Definition cipher_suites : cstring := str "TLS_AES_256_GCM_SHA384:TLS_AES_128_GCM_SHA256:TLS_CHACHA20_POLY1305_SHA256".

(** The settings that only warn when they fail. *)
Definition harden (e : ssl_env) : M ssl_state unit :=
  on_ctx set_options ;;
  (if HAVE_SSL_CTX_SET_MIN_PROTO_VERSION e then
     if r_min e then on_ctx (set_min TLSv1_2) else note MSG_WARN (str "Could not set minimum TLS version to 1.2")
   else on_ctx (switch_off [TLSv1; TLSv1_1])) ;;
  (if r_ciphers e then on_ctx (set_ciphers cipher_list)
   else note MSG_WARN (str "Could not set TLS cipher list; using library defaults")) ;;
  when (HAVE_SSL_CTX_SET_CIPHERSUITES e)
    (if r_suites e then on_ctx (set_suites cipher_suites)
     else note MSG_WARN (str "Could not set TLS 1.3 cipher suites; using library defaults")).

(** [init_ssl(pem)]. *)
Definition init_ssl (pem : cstring) (e : ssl_env) : M ssl_state Z :=
  old <- gets ctx ;;
  modify (λ s, SslState (if r_new e then Some new_ctx else None) (freed s + match old with Some _ => 1 | None => 0 end) (logged s)) ;;
  if negb (r_new e) then note MSG_ERR (str "Unable to create SSL ctx.") ;; ret (-1)
  else
    harden e ;;
    if r_key e <=? 0 then note MSG_ERR (str "No SSL private key found in " ++ pem ++ str ".") ;; ret (-1)
    else
      on_ctx (set_key pem) ;;
      if r_cert e <=? 0 then note MSG_ERR (str "No SSL cert file found in " ++ pem ++ str ".") ;; ret (-1)
      else
        on_ctx (set_cert pem) ;;
        if negb (r_check e) then note MSG_ERR (str "SSL key mismatch in " ++ pem ++ str ".") ;; ret (-1)
        else ret 0.

(** ** What it does *)

(** The protocols a client may ask for. *)
Definition allows (x : SSL_CTX) (p : protocol) : bool :=
  bool_decide (p ∉ x_off x) && match x_min x with Some q => version q <=? version p | None => true end.

(** What [harden] makes of a context, and its warnings. *)
Definition hardened (e : ssl_env) (x : SSL_CTX) : SSL_CTX :=
  let x := set_options x in
  let x := if HAVE_SSL_CTX_SET_MIN_PROTO_VERSION e then if r_min e then set_min TLSv1_2 x else x
           else switch_off [TLSv1; TLSv1_1] x in
  let x := if r_ciphers e then set_ciphers cipher_list x else x in
  if HAVE_SSL_CTX_SET_CIPHERSUITES e && r_suites e then set_suites cipher_suites x else x.

Lemma harden_spec e s :
  ∃ l, harden e s = Some (tt, SslState (hardened e <$> ctx s) (freed s) (logged s ++ l)) ∧ MSG_ERR ∉ l.*1.
Proof.
  unfold harden, hardened, when, bind, note, on_ctx, modify, ret. destruct s as [x n l]. cbn [ctx freed logged].
  destruct (HAVE_SSL_CTX_SET_MIN_PROTO_VERSION e), (r_min e), (r_ciphers e), (HAVE_SSL_CTX_SET_CIPHERSUITES e), (r_suites e);
    cbn [andb ctx freed logged]; rewrite <-?app_assoc, <-?option_fmap_compose.
  all: try (eexists; split; [destruct x; reflexivity|cbn; by apply (bool_decide_unpack _)]).
  all: exists []; split; [rewrite app_nil_r; destruct x; reflexivity|apply not_elem_of_nil].
Qed.

Lemma hardened_allows e p :
  allows (hardened e new_ctx) p =
  if HAVE_SSL_CTX_SET_MIN_PROTO_VERSION e && negb (r_min e) then version TLSv1 <=? version p else version TLSv1_2 <=? version p.
Proof.
  unfold hardened. destruct (HAVE_SSL_CTX_SET_MIN_PROTO_VERSION e), (r_min e), (r_ciphers e), (HAVE_SSL_CTX_SET_CIPHERSUITES e), (r_suites e), p;
    reflexivity.
Qed.

Lemma init_ssl_result pem e s :
  ∃ s', init_ssl pem e s =
    Some (if r_new e && (0 <? r_key e) && (0 <? r_cert e) && r_check e then 0 else -1, s').
Proof.
  unfold init_ssl, bind at 1, gets. unfold bind at 1, modify at 1. destruct (r_new e); cbn [negb andb]; [|by eexists].
  unfold bind at 1. edestruct harden_spec as (l & -> & _). rewrite !Z.ltb_antisym.
  destruct (r_key e <=? 0); cbn [negb andb]; [by eexists|]. destruct (r_cert e <=? 0); cbn [negb andb]; [by eexists|].
  destruct (r_check e); by eexists.
Qed.

(** C37: the context is ready exactly when it can be made and holds a key and a
    certificate that belong together; otherwise the error is logged and -1
    returned.  The old context is freed, and in any case there is nothing older
    than TLS 1.2 to be had, unless the library refuses to set the least version:
    that is a warning, and TLS 1.0 and 1.1 stay on. *)
Theorem init_ssl_correct pem e s :
  ∃ r x l, init_ssl pem e s = Some (r, SslState x (freed s + match ctx s with Some _ => 1 | None => 0 end) (logged s ++ l)) ∧
    (r = 0 ↔ r_new e = true ∧ 0 < r_key e ∧ 0 < r_cert e ∧ r_check e = true) ∧ (r = 0 ∨ r = -1) ∧
    (r = 0 ↔ MSG_ERR ∉ l.*1) ∧ (is_Some x ↔ r_new e = true) ∧
    (r = 0 → ∃ c, x = Some c ∧ x_key c = Some pem ∧ x_cert c = Some pem ∧ x_no_compression c = true ∧
       ∀ p, allows c p = if HAVE_SSL_CTX_SET_MIN_PROTO_VERSION e && negb (r_min e)
                         then version TLSv1 <=? version p else version TLSv1_2 <=? version p).
Proof.
  unfold init_ssl, bind at 1, gets. unfold bind at 1, modify at 1. set (n := (freed s + _)%nat).
  destruct (r_new e) eqn:En; cbn [negb].
  2:{ exists (-1), None, [(MSG_ERR, str "Unable to create SSL ctx.")]. split; [done|]. split; [split; [done|by intros [? _]]|]. split; [by right|].
      split; [split; [done|]|]. { intros Hn. destruct Hn. by left. } split; [|done]. split; [by intros []|done]. }
  unfold bind at 1. destruct (harden_spec e (SslState (Some new_ctx) n (logged s))) as (l & -> & Hl). cbn [ctx freed logged fmap option_fmap option_map].
  assert (∀ t, MSG_ERR ∈ (l ++ [(MSG_ERR, t)]).*1) as Herr.
  { intros t. rewrite fmap_app. apply elem_of_app. right. by left. }
  assert (∀ t x, SslState x n ((logged s ++ l) ++ [(MSG_ERR, t)]) = SslState x n (logged s ++ l ++ [(MSG_ERR, t)])) as Ha by (intros; by rewrite app_assoc).
  destruct (Z.leb_spec (r_key e) 0).
  { do 3 eexists. split; [unfold note, bind, modify, ret; cbn [ctx freed logged]; rewrite Ha; reflexivity|]. split_and!; [|by right| |done|done].
    - split; [done|lia]. - split; [done|]. intros Hn. by destruct (Hn (Herr _)). }
  unfold bind at 1, on_ctx at 1, modify. cbn [ctx freed logged fmap option_fmap option_map].
  destruct (Z.leb_spec (r_cert e) 0).
  { do 3 eexists. split; [unfold note, bind, modify, ret; cbn [ctx freed logged]; rewrite Ha; reflexivity|]. split_and!; [|by right| |done|done].
    - split; [done|lia]. - split; [done|]. intros Hn. by destruct (Hn (Herr _)). }
  unfold bind at 1, on_ctx at 1, modify. cbn [ctx freed logged fmap option_fmap option_map].
  destruct (r_check e) eqn:Ec; cbn [negb].
  2:{ do 3 eexists. split; [unfold note, bind, modify, ret; cbn [ctx freed logged]; rewrite Ha; reflexivity|]. split_and!; [|by right| |done|done].
    - split; [done|intuition discriminate]. - split; [done|]. intros Hn. by destruct (Hn (Herr _)). }
  exists 0, (Some (set_cert pem (set_key pem (hardened e new_ctx)))), l. split; [done|]. split_and!; [done|by left|done|done|].
  intros _. eexists. split; [done|]. split; [done|]. split; [done|]. split.
  - unfold hardened. by destruct (HAVE_SSL_CTX_SET_MIN_PROTO_VERSION e), (r_min e), (r_ciphers e), (HAVE_SSL_CTX_SET_CIPHERSUITES e), (r_suites e).
  - intros p. rewrite <-hardened_allows. done.
Qed.
