(* ===== verification/PktBuffers.v ===== *)
(** * Connections and what the kernel makes of them (pktserv/pktbuffers.[ch])

    Client buffers with their allocation, and the other side of a connection as
    a value: the segments that successive [read] calls meet, what successive
    [write] calls accept, the bytes written so far, and, for a TLS connection,
    what the calls of the TLS library do.  Those are arbitrary: a theorem about
    every such value is one about every kernel and every peer. *)

From Stdlib Require Import ZArith Lia String.
From S2P Require Import Config Prelude.

Local Open Scope Z_scope.

(** ** Buffers *)

Inductive SocketState : Type :=
| DISCONNECTED | ACCEPTED | IDLE | WANT_SSL_ACCEPT | WANT_SSL_READ | WANT_SSL_WRITE
| WANT_HEADER | WANT_READ | WANT_WRITE | WANT_DISCONNECT | WANT_RAW_DISCONNECT
| COMPLETE_PACKET | LISTEN_SOCKET | LISTEN_SOCKET_SSL.
#[global] Instance SocketState_eq_dec : EqDecision SocketState.
Proof. solve_decision. Defined.

(** The name of a state in the log. *)
Definition socketStateStr (state : SocketState) : cstring :=
  str match state with
      | DISCONNECTED => "DISCONNECTED" | ACCEPTED => "ACCEPTED" | IDLE => "IDLE"
      | WANT_SSL_ACCEPT => "WANT_SSL_ACCEPT" | WANT_SSL_READ => "WANT_SSL_READ" | WANT_SSL_WRITE => "WANT_SSL_WRITE"
      | WANT_HEADER => "WANT_HEADER" | WANT_READ => "WANT_READ" | WANT_WRITE => "WANT_WRITE"
      | WANT_DISCONNECT => "WANT_DISCONNECT" | WANT_RAW_DISCONNECT => "WANT_RAW_DISCONNECT"
      | COMPLETE_PACKET => "COMPLETE_PACKET" | LISTEN_SOCKET => "LISTEN_SOCKET" | LISTEN_SOCKET_SSL => "LISTEN_SOCKET_SSL"
      end%string.

(** Names in the log tell the states apart. *)
#[global] Instance socketStateStr_inj : Inj (=) (=) socketStateStr.
Proof. intros [] []; done. Qed.

Inductive SocketDisposition : Type := OK | BLOCKED | IGNORE.
#[global] Instance SocketDisposition_eq_dec : EqDecision SocketDisposition.
Proof. solve_decision. Defined.

(** A message buffer of [m_sz] bytes: [m_len] bytes of message, of which those
    up to [pos] are [m_done] (read so far) in a read buffer; in a write buffer
    [m_done] have been written and [m_rest] remain. *)
Record msgbuf : Type := MsgBuf { m_sz : Z; m_len : Z; m_done : list byte; m_rest : list byte }.

(** [c_ssl_con] says whether [ssl_con] points to a TLS session. *)
Record cbuf : Type := Cbuf {
  c_id : Z;
  c_fd : Z;
  c_state : SocketState;
  c_disp : SocketDisposition;
  c_rbuf : option msgbuf;
  c_newmsg : bool;
  c_wlist : list msgbuf;
  c_wlist_size : Z;
  c_retries : Z;
  c_is_ssl : bool;
  c_ssl_con : bool
}.

Definition set_state (x : SocketState) (c : cbuf) : cbuf :=
  Cbuf (c_id c) (c_fd c) x (c_disp c) (c_rbuf c) (c_newmsg c) (c_wlist c) (c_wlist_size c) (c_retries c) (c_is_ssl c) (c_ssl_con c).
Definition set_disp (x : SocketDisposition) (c : cbuf) : cbuf :=
  Cbuf (c_id c) (c_fd c) (c_state c) x (c_rbuf c) (c_newmsg c) (c_wlist c) (c_wlist_size c) (c_retries c) (c_is_ssl c) (c_ssl_con c).
Definition set_rbuf (x : option msgbuf) (c : cbuf) : cbuf :=
  Cbuf (c_id c) (c_fd c) (c_state c) (c_disp c) x (c_newmsg c) (c_wlist c) (c_wlist_size c) (c_retries c) (c_is_ssl c) (c_ssl_con c).
Definition set_newmsg (x : bool) (c : cbuf) : cbuf :=
  Cbuf (c_id c) (c_fd c) (c_state c) (c_disp c) (c_rbuf c) x (c_wlist c) (c_wlist_size c) (c_retries c) (c_is_ssl c) (c_ssl_con c).
Definition set_wlist (l : list msgbuf) (n : Z) (c : cbuf) : cbuf :=
  Cbuf (c_id c) (c_fd c) (c_state c) (c_disp c) (c_rbuf c) (c_newmsg c) l n (c_retries c) (c_is_ssl c) (c_ssl_con c).
Definition set_retries (x : Z) (c : cbuf) : cbuf :=
  Cbuf (c_id c) (c_fd c) (c_state c) (c_disp c) (c_rbuf c) (c_newmsg c) (c_wlist c) (c_wlist_size c) x (c_is_ssl c) (c_ssl_con c).

Definition set_is_ssl (x : bool) (c : cbuf) : cbuf :=
  Cbuf (c_id c) (c_fd c) (c_state c) (c_disp c) (c_rbuf c) (c_newmsg c) (c_wlist c) (c_wlist_size c) (c_retries c) x (c_ssl_con c).
Definition set_ssl_con (x : bool) (c : cbuf) : cbuf :=
  Cbuf (c_id c) (c_fd c) (c_state c) (c_disp c) (c_rbuf c) (c_newmsg c) (c_wlist c) (c_wlist_size c) (c_retries c) (c_is_ssl c) x.

(** [_msgbuf_alloc(msgbuf, sz)]: a buffer that is large enough is reused;
    otherwise one is allocated, if memory allows. *)
Definition msgbuf_alloc (mem : bool) (m : option msgbuf) (sz : Z) : option msgbuf :=
  match m with
  | Some m => if sz <=? m_sz m then Some (MsgBuf (m_sz m) 0 [] [])
              else if mem then Some (MsgBuf sz 0 [] []) else None
  | None => if mem then Some (MsgBuf sz 0 [] []) else None
  end.

(** A zeroed [cbuf_t], as [calloc] and [memset] leave it. *)
Definition zero_cbuf : cbuf := Cbuf 0 0 DISCONNECTED OK None false [] 0 0 false false.

(** One entry of [cbufs_reset]. *)
Definition cbuf_reset (c : cbuf) : cbuf := set_wlist [] (c_wlist_size c) (set_newmsg true c).

(** ** The kernel *)

(** What a [read] meets: bytes, no data for now, the end of the stream, an error. *)
Inductive segment : Type := Data (bs : list byte) | WouldBlock | Eof | ReadError.
(** What a [write] does: accept at most so many bytes, block, fail. *)
Inductive write_slot : Type := Accept (n : nat) | WBlock | WError.


(** The results of [SSL_get_error]. *)
Inductive ssl_error : Type :=
| SSL_ERROR_SSL | SSL_ERROR_WANT_READ | SSL_ERROR_WANT_WRITE | SSL_ERROR_WANT_X509_LOOKUP
| SSL_ERROR_SYSCALL | SSL_ERROR_ZERO_RETURN | SSL_ERROR_OTHER.

(** What an [SSL_read] meets: bytes, of which it returns as many as were asked
    for, with [SSL_pending] afterwards; when it returns none, what
    [SSL_get_error] says and whether [errno] is [EWOULDBLOCK]. *)
Record tls_read : Type := TRead { tr_data : list byte; tr_pending : bool; tr_error : ssl_error; tr_again : bool }.
(** The same for [SSL_write], which accepts at most so many bytes. *)
Record tls_write : Type := TWrite { tw_count : nat; tw_pending : bool; tw_error : ssl_error; tw_again : bool }.

(** The TLS session: whether [SSL_new] can make it, the results of successive
    [SSL_accept] calls ([None] is success), reads and writes. *)
Record tls : Type := Tls {
  t_new : bool;
  t_accept : list (option ssl_error);
  t_read : list tls_read;
  t_write : list tls_write
}.
Definition no_tls : tls := Tls false [] [] [].

Record kernel : Type := Kernel { k_in : list segment; k_wr : list write_slot; k_out : list byte; k_tls : tls }.

Inductive io_result : Type := Bytes (bs : list byte) | EWOULDBLOCK | EIO.

(** [read(fd, buf, n)]. *)
Definition k_read (n : nat) (k : kernel) : io_result * kernel :=
  match n, k_in k with
  | O, _ => (Bytes [], k)
  | _, [] => (EWOULDBLOCK, k)
  | _, Data bs :: l =>
      (Bytes (take n bs),
       Kernel (if decide (drop n bs = []) then l else Data (drop n bs) :: l) (k_wr k) (k_out k) (k_tls k))
  | _, WouldBlock :: l => (EWOULDBLOCK, Kernel l (k_wr k) (k_out k) (k_tls k))
  | _, Eof :: _ => (Bytes [], k)
  | _, ReadError :: l => (EIO, Kernel l (k_wr k) (k_out k) (k_tls k))
  end.

(** [write(fd, buf, n)]: the number of bytes accepted. *)
Definition k_write (bs : list byte) (k : kernel) : io_result * kernel :=
  match k_wr k with
  | [] => (EWOULDBLOCK, k)
  | Accept n :: l => (Bytes (take n bs), Kernel (k_in k) l (k_out k ++ take n bs) (k_tls k))
  | WBlock :: l => (EWOULDBLOCK, Kernel (k_in k) l (k_out k) (k_tls k))
  | WError :: l => (EIO, Kernel (k_in k) l (k_out k) (k_tls k))
  end.

(** [close(fd)]: what was written so far belongs to a connection that is gone. *)
Definition k_close (k : kernel) : kernel := Kernel (k_in k) (k_wr k) [] (k_tls k).
