(* ===== verification/Queue.v ===== *)
(** * The send queues at the level of pointers (pktserv/bsdqueue.h)

    The macros of the tail queue that the packet server uses, on a heap of
    message buffers: the head holds the first element and the address of the
    last [tqe_next] field, an element its successor and the address of the field
    that points to it.  [PktBuffers] has the queue of a connection as a list;
    the operations that the packet server makes of the macros are proved to
    implement this list, for a head that was initialised and for one that was
    only cleared, to give back the memory of what leaves the queue, and to leave
    the queues of other connections alone. *)

From Stdlib Require Import ZArith Lia.
From stdpp Require Import gmap.
From S2P Require Import Config Prelude PktBuffers.

Local Open Scope Z_scope.

Notation loc := positive.

(** The address of a field that points to an element: none, [tqh_first] of the
    head, or [tqe_next] of an element. *)
Inductive link : Type := LNull | LHead | LNext (x : loc).

Record head : Type := Head { tqh_first : option loc; tqh_last : link }.
(** A [msgbuf_t] with its [entries]. *)
Record node : Type := Node { tqe_next : option loc; tqe_prev : link; n_buf : msgbuf }.

Notation heap := (gmap loc node).

Implicit Types (h : heap) (q : head).

(** ** The macros; [None] is an access through a null or dangling pointer *)

Definition set_next (x : loc) (v : option loc) h : option heap :=
  nd ← h !! x; Some (<[x := Node v (tqe_prev nd) (n_buf nd)]> h).
Definition set_prev (x : loc) (v : link) h : option heap :=
  nd ← h !! x; Some (<[x := Node (tqe_next nd) v (n_buf nd)]> h).
(** [*l = v] *)
Definition store (l : link) (v : option loc) h q : option (heap * head) :=
  match l with
  | LNull => None
  | LHead => Some (h, Head v (tqh_last q))
  | LNext x => h ← set_next x v h; Some (h, q)
  end.

Definition TAILQ_EMPTY q : bool := bool_decide (tqh_first q = None).
Definition TAILQ_FIRST q : option loc := tqh_first q.
Definition TAILQ_NEXT (x : loc) h : option (option loc) := tqe_next <$> h !! x.
Definition TAILQ_INIT : head := Head None LHead.

Definition TAILQ_INSERT_HEAD (elm : loc) h q : option (heap * head) :=
  h ← set_next elm (TAILQ_FIRST q) h;
  hq ← match TAILQ_FIRST q with
       | Some x => h ← set_prev x (LNext elm) h; Some (h, q)
       | None => Some (h, Head (tqh_first q) (LNext elm))
       end;
  h ← set_prev elm LHead hq.1;
  Some (h, Head (Some elm) (tqh_last hq.2)).

Definition TAILQ_INSERT_TAIL (elm : loc) h q : option (heap * head) :=
  h ← set_next elm None h;
  h ← set_prev elm (tqh_last q) h;
  hq ← store (tqh_last q) (Some elm) h q;
  Some (hq.1, Head (tqh_first hq.2) (LNext elm)).

Definition TAILQ_REMOVE (elm : loc) h q : option (heap * head) :=
  nd ← h !! elm;
  hq ← match tqe_next nd with
       | Some x => h ← set_prev x (tqe_prev nd) h; Some (h, q)
       | None => Some (h, Head (tqh_first q) (tqe_prev nd))
       end;
  store (tqe_prev nd) (tqe_next nd) hq.1 hq.2.

(** ** What the packet server does with them *)

(** Memory for a buffer: a fresh block with unspecified contents. *)
Class Malloc := {
  malloc : heap → loc * node;
  malloc_fresh h : h !! (malloc h).1 = None
}.

(** [pktserv_send]: a buffer is allocated, filled and put in the queue. *)
Definition enqueue `{Malloc} (m : msgbuf) h q : option (heap * head) :=
  let '(x, nd) := malloc h in
  let h := <[x := Node (tqe_next nd) (tqe_prev nd) m]> h in
  if TAILQ_EMPTY q then TAILQ_INSERT_HEAD x h q else TAILQ_INSERT_TAIL x h q.

(** [pktsocket_write]: the buffer in front was sent in part, or as a whole. *)
Definition sent_part (f : msgbuf → msgbuf) h q : option (heap * head) :=
  if TAILQ_EMPTY q then Some (h, q)
  else
    x ← TAILQ_FIRST q;
    nd ← h !! x;
    Some (<[x := Node (tqe_next nd) (tqe_prev nd) (f (n_buf nd))]> h, q).

Definition remove_first h q : option (heap * head) :=
  x ← TAILQ_FIRST q;
  hq ← TAILQ_REMOVE x h q;
  _ ← hq.1 !! x;
  Some (delete x hq.1, hq.2).

Definition sent_all h q : option (heap * head) := if TAILQ_EMPTY q then Some (h, q) else remove_first h q.

(** The loop of [handle_disconnect]. *)
Fixpoint drain (fuel : nat) h q : option (heap * head) :=
  if TAILQ_EMPTY q then Some (h, q)
  else
    match fuel with
    | O => None
    | S fuel => hq ← remove_first h q; drain fuel hq.1 hq.2
    end.

(** ** What a queue is *)

(** The elements between the link [p], which points to [f], and the link [p'],
    which points to [f']. *)
Fixpoint seg h (p : link) (f : option loc) (l : list (loc * msgbuf)) (p' : link) (f' : option loc) : Prop :=
  match l with
  | [] => p' = p ∧ f' = f
  | (x, m) :: l => f = Some x ∧ ∃ nx, h !! x = Some (Node nx p m) ∧ seg h (LNext x) nx l p' f'
  end.

(** The last link of an empty queue may be anything. *)
Definition queue h q (l : list (loc * msgbuf)) : Prop :=
  NoDup l.*1 ∧ match l with [] => tqh_first q = None | _ => seg h LHead (tqh_first q) l (tqh_last q) None end.

Lemma seg_app h p f l1 l2 p' f' :
  seg h p f (l1 ++ l2) p' f' ↔ ∃ p1 f1, seg h p f l1 p1 f1 ∧ seg h p1 f1 l2 p' f'.
Proof.
  revert p f. induction l1 as [|[x m] l1 IH]; intros p f; cbn.
  - split; [intros Hs; by exists p, f|by intros (p1 & f1 & [-> ->] & Hs)].
  - split.
    + intros (-> & nx & Hx & (p1 & f1 & H1 & H2)%IH). exists p1, f1. split; [|done]. split; [done|]. by exists nx.
    + intros (p1 & f1 & (-> & nx & Hx & H1) & H2). split; [done|]. exists nx. split; [done|]. apply IH. by exists p1, f1.
Qed.

Lemma seg_frame h h' p f l p' f' :
  (∀ x, x ∈ l.*1 → h' !! x = h !! x) → seg h p f l p' f' → seg h' p f l p' f'.
Proof.
  revert p f. induction l as [|[x m] l IH]; intros p f Hh; cbn; [done|]. intros (-> & nx & Hx & Hs). split; [done|].
  exists nx. rewrite Hh by (by left). split; [done|]. apply IH; [|done]. intros y Hy. apply Hh. by right.
Qed.

Lemma seg_in h p f l p' f' x : seg h p f l p' f' → x ∈ l.*1 → is_Some (h !! x).
Proof.
  revert p f. induction l as [|[y m] l IH]; intros p f; cbn; [by intros _ ?%not_elem_of_nil|].
  intros (-> & nx & Hy & Hs) [->|Hx]%elem_of_cons; [by rewrite Hy|by eapply IH].
Qed.

Lemma queue_in h q l x : queue h q l → x ∈ l.*1 → is_Some (h !! x).
Proof. destruct l; [by intros _ ?%not_elem_of_nil|]. intros [_ Hs]. by eapply seg_in. Qed.

Lemma queue_empty h q l : queue h q l → TAILQ_EMPTY q = bool_decide (l = []).
Proof.
  intros [_ Hs]. unfold TAILQ_EMPTY. apply bool_decide_ext. destruct l as [|[x m] l]; [done|]. destruct Hs as [-> _]. done.
Qed.

(** ** The operations implement those of a list *)

(** Every other block is as it was. *)
Definition untouched (xs : list loc) h h' : Prop := ∀ y, y ∉ xs → h' !! y = h !! y.

Ltac heap_simpl := repeat first
  [rewrite lookup_insert_eq | rewrite lookup_insert_ne by congruence | rewrite lookup_delete_ne by congruence].

Lemma insert_head_spec x m nd h q :
  tqh_first q = None → h !! x = Some nd → n_buf nd = m →
  ∃ h' q', TAILQ_INSERT_HEAD x h q = Some (h', q') ∧ queue h' q' [(x, m)] ∧ untouched [x] h h'.
Proof.
  intros Hq Hx Hm. unfold TAILQ_INSERT_HEAD, set_next, set_prev, TAILQ_FIRST. rewrite Hx, Hq. cbn. heap_simpl. cbn.
  do 2 eexists. split; [done|]. split.
  - split; [apply NoDup_singleton|]. cbn. split; [done|]. heap_simpl. rewrite Hm. by eexists.
  - intros y Hy. apply not_elem_of_cons in Hy as [Hy _]. by heap_simpl.
Qed.

Lemma insert_tail_spec x m nd h q l :
  l ≠ [] → queue h q l → x ∉ l.*1 → h !! x = Some nd → n_buf nd = m →
  ∃ h' q', TAILQ_INSERT_TAIL x h q = Some (h', q') ∧ queue h' q' (l ++ [(x, m)]) ∧ untouched (x :: l.*1) h h'.
Proof.
  intros Hne [Hnd Hs] Hxl Hx Hm. destruct l as [|[y my] l0 _] using rev_ind; [done|].
  assert (seg h LHead (tqh_first q) (l0 ++ [(y, my)]) (tqh_last q) None) as Hs' 
    by (revert Hs; destruct (l0 ++ [(y, my)]) eqn:E; [by destruct l0|done]).
  clear Hs. apply seg_app in Hs' as (p & f & H1 & -> & nx & Hy & Hl & Hn). cbn in Hl. subst nx.
  rewrite fmap_app in Hnd, Hxl. apply NoDup_app in Hnd as (Hnd & Hyl & _). cbn in Hyl, Hxl.
  assert (y ∉ l0.*1) as Hy0 by (intros Hin; apply (Hyl y Hin); by left).
  apply not_elem_of_app in Hxl as [Hx0 Hxy%not_elem_of_cons]. destruct Hxy as [Hxy _].
  unfold TAILQ_INSERT_TAIL, set_next, set_prev, store, set_next. rewrite Hx, Hl. cbn. heap_simpl. cbn. heap_simpl. rewrite Hy. cbn.
  do 2 eexists. split; [reflexivity|]. split.
  - split.
    + rewrite !fmap_app, <-app_assoc. cbn. apply NoDup_app. split; [done|]. split.
      * intros z Hz [->|[->|?%not_elem_of_nil]%elem_of_cons]%elem_of_cons; done.
      * repeat constructor; [|by intros ?%not_elem_of_nil]. intros ->%list_elem_of_singleton. done.
    + match goal with |- context [seg ?h' _ _ _ _ _] => set (h1 := h') end. cut (seg h1 LHead (tqh_first q) ((l0 ++ [(y, my)]) ++ [(x, m)]) (LNext x) None).
      { destruct ((l0 ++ [(y, my)]) ++ [(x, m)]) eqn:E; [|done]. by destruct l0. }
      apply seg_app. exists (LNext y), (Some x). split.
      * apply seg_app. exists p, (Some y). split.
        -- eapply seg_frame, H1. intros z Hz. unfold h1. by heap_simpl.
        -- cbn. split; [done|]. exists (Some x). unfold h1. heap_simpl. done.
      * cbn. split; [done|]. exists None. unfold h1. heap_simpl. by rewrite Hm.
  - intros z Hz. rewrite fmap_app in Hz. cbn in Hz. apply not_elem_of_cons in Hz as [Hzx Hz].
    apply not_elem_of_app in Hz as [Hz Hzy%not_elem_of_cons]. destruct Hzy as [Hzy _]. by heap_simpl.
Qed.

Lemma remove_first_spec x m h q l :
  queue h q ((x, m) :: l) →
  ∃ h' q', remove_first h q = Some (h', q') ∧ queue h' q' l ∧ untouched (x :: l.*1) h h' ∧ dom h' = dom h ∖ {[x]}.
Proof.
  intros [Hnd Hs]. cbn in Hnd, Hs. destruct Hs as (Hq & nx & Hx & Hs). apply NoDup_cons in Hnd as [Hxl Hnd].
  unfold remove_first, TAILQ_FIRST, TAILQ_REMOVE. rewrite Hq. cbn. rewrite Hx. cbn. destruct l as [|[y my] l].
  - destruct Hs as [Hl <-]. cbn. rewrite Hx. cbn. do 2 eexists. split; [done|]. split; [by split; [constructor|]|]. split; [|by rewrite dom_delete_L].
    intros z Hz. apply not_elem_of_cons in Hz as [Hz _]. by heap_simpl.
  - cbn in Hs. destruct Hs as (-> & ny & Hy & Hs). cbn in Hxl, Hnd. apply NoDup_cons in Hnd as [Hyl Hnd].
    apply not_elem_of_cons in Hxl as [Hxy Hxl]. unfold set_prev. cbn. rewrite Hy. cbn. heap_simpl. rewrite Hx. cbn.
    do 2 eexists. split; [done|]. split; [|split].
    + split; [by constructor|]. cbn. split; [done|]. exists ny. heap_simpl. split; [done|].
      eapply seg_frame, Hs. intros z Hz. assert (z ≠ x ∧ z ≠ y) as [? ?] by (split; congruence). by heap_simpl.
    + intros z Hz. apply not_elem_of_cons in Hz as [Hzx Hz]. apply not_elem_of_cons in Hz as [Hzy _]. by heap_simpl.
    + rewrite dom_delete_L, dom_insert_L. assert (y ∈ dom h) by (apply elem_of_dom; by rewrite Hy). set_solver.
Qed.

(** ** Sequences of operations *)

Inductive queue_op : Type := Enqueue (m : msgbuf) | SentPart (f : msgbuf → msgbuf) | SentAll | Drain.

Definition run_op `{Malloc} (o : queue_op) h q : option (heap * head) :=
  match o with
  | Enqueue m => enqueue m h q
  | SentPart f => sent_part f h q
  | SentAll => sent_all h q
  | Drain => drain (size h) h q
  end.

Fixpoint run_ops `{Malloc} (os : list queue_op) h q : option (heap * head) :=
  match os with [] => Some (h, q) | o :: os => hq ← run_op o h q; run_ops os hq.1 hq.2 end.

(** The same on the list. *)
Definition list_op (o : queue_op) (l : list msgbuf) : list msgbuf :=
  match o with
  | Enqueue m => l ++ [m]
  | SentPart f => match l with [] => [] | m :: l => f m :: l end
  | SentAll => tail l
  | Drain => []
  end.

(** The blocks that do not belong to the queue. *)
Definition others h (nl : list (loc * msgbuf)) : heap := filter (λ p, p.1 ∉ nl.*1) h.

Lemma lookup_others h nl y : others h nl !! y = if decide (y ∈ nl.*1) then None else h !! y.
Proof.
  unfold others. case_decide as Hy.
  - apply map_lookup_filter_None. right. intros nd _. by intros Hn.
  - destruct (h !! y) as [nd|] eqn:E.
    + by apply map_lookup_filter_Some.
    + apply map_lookup_filter_None. by left.
Qed.

(** The state and its list behind an operation. *)
Definition implements h q (nl : list (loc * msgbuf)) (l : list msgbuf) (r : option (heap * head)) : Prop :=
  ∃ h' q' nl', r = Some (h', q') ∧ queue h' q' nl' ∧ nl'.*2 = l ∧ others h' nl' = others h nl.

Lemma enqueue_spec `{Malloc} m h q nl : queue h q nl → implements h q nl (nl.*2 ++ [m]) (enqueue m h q).
Proof.
  intros Hq. unfold enqueue. pose proof (malloc_fresh h) as Hx. destruct (malloc h) as [x nd]. cbn in Hx.
  set (h1 := <[x := _]> h). assert (∀ y, y ∈ nl.*1 → y ≠ x) as Hne.
  { intros y Hy ->. destruct (queue_in _ _ _ _ Hq Hy) as [? E]. congruence. }
  assert (∀ h' q', queue h' q' (nl ++ [(x, m)]) → untouched (x :: nl.*1) h1 h' → implements h q nl (nl.*2 ++ [m]) (Some (h', q'))) as Hend.
  { intros h' q' Hq' Hu. exists h', q', (nl ++ [(x, m)]). split_and!; [done|done|by rewrite fmap_app|].
    apply map_eq. intros y. rewrite !lookup_others, fmap_app. destruct (decide (y = x)) as [->|Hyx].
    - rewrite (decide_True (P := x ∈ _)) by set_solver. by rewrite Hx; case_decide.
    - destruct (decide (y ∈ nl.*1)) as [Hy|Hy]; [by rewrite decide_True by set_solver|].
      rewrite decide_False by set_solver. rewrite Hu by set_solver. unfold h1. by heap_simpl. }
  assert (h1 !! x = Some (Node (tqe_next nd) (tqe_prev nd) m)) as Hx1 by (unfold h1; by heap_simpl).
  rewrite (queue_empty _ _ _ Hq). case_bool_decide as Hl.
  - subst nl. destruct (insert_head_spec x m (Node (tqe_next nd) (tqe_prev nd) m) h1 q) as (h' & q' & -> & H1 & H2); [apply Hq|exact Hx1|done|].
    apply Hend; [done|]. exact H2.
  - assert (queue h1 q nl) as Hq1.
    { destruct Hq as [Hn Hs]. split; [done|]. destruct nl; [done|]. eapply seg_frame, Hs. intros y Hy%Hne. unfold h1. by heap_simpl. }
    destruct (insert_tail_spec x m (Node (tqe_next nd) (tqe_prev nd) m) h1 q nl Hl Hq1) as (h' & q' & -> & H1 & H2); [|exact Hx1|done|by apply Hend].
    intros Hin. by apply (Hne x Hin).
Qed.

Lemma remove_first_implements x m h q nl :
  queue h q ((x, m) :: nl) → implements h q ((x, m) :: nl) nl.*2 (remove_first h q).
Proof.
  intros Hq. destruct (remove_first_spec _ _ _ _ _ Hq) as (h' & q' & -> & Hq' & Hu & Hd).
  exists h', q', nl. split_and!; try done. apply map_eq. intros y. rewrite !lookup_others. cbn.
  destruct Hq as [[Hxl _]%NoDup_cons _]. destruct (decide (y = x)) as [->|Hyx].
  - rewrite (decide_True (P := x ∈ x :: _)) by by left. case_decide; [done|]. apply not_elem_of_dom. set_solver.
  - destruct (decide (y ∈ nl.*1)) as [Hy|Hy]; [by rewrite decide_True by (by right)|].
    rewrite decide_False by set_solver. apply Hu. set_solver.
Qed.

Lemma drain_spec fuel h q nl :
  queue h q nl → (length nl ≤ fuel)%nat → implements h q nl [] (drain fuel h q).
Proof.
  revert h q nl. induction fuel as [|fuel IH]; intros h q [|[x m] nl] Hq Hf; cbn in Hf; try lia;
    cbn [drain]; rewrite (queue_empty _ _ _ Hq); try by exists h, q, [].
  rewrite bool_decide_false by done. destruct (remove_first_implements _ _ _ _ _ Hq) as (h1 & q1 & nl1 & -> & H1 & H2 & H3).
  cbn [mbind option_bind fst snd]. destruct (IH h1 q1 nl1) as (h' & q' & nl' & E & G1 & G2 & G3); [done|rewrite <-(length_fmap snd nl1), H2, length_fmap; lia|].
  exists h', q', nl'. split_and!; [done..|congruence].
Qed.

Lemma sent_part_spec f h q nl : queue h q nl → implements h q nl (list_op (SentPart f) nl.*2) (sent_part f h q).
Proof.
  intros Hq. unfold sent_part. rewrite (queue_empty _ _ _ Hq). destruct nl as [|[x m] nl]; [by exists h, q, []|].
  rewrite bool_decide_false by done. destruct Hq as [Hn (Hf & nx & Hx & Hs)]. unfold TAILQ_FIRST. rewrite Hf. cbn. rewrite Hx. cbn.
  eexists _, q, ((x, f m) :: nl). split; [done|]. cbn in Hn. apply NoDup_cons in Hn as Hn'. destruct Hn' as [Hxl _]. split_and!; [|done|].
  - split; [done|]. cbn. split; [done|]. exists nx. heap_simpl. split; [done|]. eapply seg_frame, Hs. intros y Hy. by heap_simpl.
  - apply map_eq. intros y. rewrite !lookup_others. cbn. case_decide as Hy; [done|]. apply not_elem_of_cons in Hy as [? _]. by heap_simpl.
Qed.

Lemma queue_length h q nl : queue h q nl → (length nl ≤ size h)%nat.
Proof.
  intros Hq. rewrite <-(length_fmap fst), <-size_dom. rewrite <-(size_list_to_set (C := gset loc) nl.*1) by apply Hq.
  apply subseteq_size. intros x Hx%elem_of_list_to_set. apply elem_of_dom. by eapply queue_in.
Qed.

Lemma run_op_spec `{Malloc} o h q nl : queue h q nl → implements h q nl (list_op o nl.*2) (run_op o h q).
Proof.
  intros Hq. destruct o as [m|f| |]; cbn [run_op list_op].
  - by apply enqueue_spec.
  - by apply sent_part_spec.
  - unfold sent_all. rewrite (queue_empty _ _ _ Hq). destruct nl as [|[x m] nl]; [by exists h, q, []|].
    rewrite bool_decide_false by done. by apply remove_first_implements.
  - apply drain_spec; [done|by eapply queue_length].
Qed.

(** ** Main properties *)

(** The send queue of a connection is a list.  From a head that was initialised
    or only cleared (an accepted connection is), every sequence of sending,
    sending in part or as a whole and disconnecting is defined; the buffers in
    the queue are those of the list, in order, the memory of a buffer that left
    the queue is free again, and every other block, the queues of the other
    connections among them, is as it was. *)
Theorem send_queue_refines `{Malloc} os h q :
  tqh_first q = None →
  ∃ h' q' nl, run_ops os h q = Some (h', q') ∧ queue h' q' nl ∧ nl.*2 = foldl (λ l o, list_op o l) [] os ∧ others h' nl = h.
Proof.
  intros Hf. cut (∀ nl h q, queue h q nl → implements h q nl (foldl (λ l o, list_op o l) nl.*2 os) (run_ops os h q)).
  { intros Hos. destruct (Hos [] h q) as (h' & q' & nl & H1 & H2 & H3 & H4); [by split; [constructor|]|].
    exists h', q', nl. split_and!; try done. rewrite H4. apply map_eq. intros y. by rewrite lookup_others. }
  clear. induction os as [|o os IH]; intros nl h q Hq; cbn [run_ops foldl]; [by exists h, q, nl|].
  destruct (run_op_spec o h q nl Hq) as (h1 & q1 & nl1 & -> & H1 & H2 & H3). cbn [mbind option_bind fst snd]. rewrite <-H2.
  destruct (IH nl1 h1 q1 H1) as (h' & q' & nl' & E & G1 & G2 & G3). exists h', q', nl'. split_and!; [done..|congruence].
Qed.

(** Memory that is handed out in order. *)
#[local] Program Instance demo_malloc : Malloc := {| malloc h := (fresh (dom h), Node None LNull (MsgBuf 0 0 [] [])) |}.
Next Obligation. intros h. cbn. apply not_elem_of_dom, is_fresh. Qed.

(** A cleared head. *)
Definition zero_head : head := Head None LNull.

Lemma send_queue_refines_witness :
  let a := MsgBuf 1 1 [] [x61] in let b := MsgBuf 1 1 [] [x62] in let c := MsgBuf 1 1 [] [x63] in
  ∃ h' q' nl, run_ops [Enqueue a; Enqueue b; SentAll; Enqueue c] ∅ zero_head = Some (h', q') ∧ queue h' q' nl ∧ nl.*2 = [b; c] ∧ size h' = 2%nat.
Proof.
  intros a b c. destruct (send_queue_refines [Enqueue a; Enqueue b; SentAll; Enqueue c] ∅ zero_head eq_refl) as (h' & q' & nl & E & H1 & H2 & _).
  exists h', q', nl. split; [exact E|]. split; [exact H1|]. split; [exact H2|]. clear -E.
  assert (match run_ops [Enqueue a; Enqueue b; SentAll; Enqueue c] ∅ zero_head with Some (h', _) => size h' | None => 0%nat end = 2%nat) as Hs
    by (vm_compute; reflexivity).
  rewrite E in Hs. exact Hs.
Defined.

(** The test before the insertion matters: at the tail of a cleared head the
    macro writes through a null pointer. *)
Example insert_tail_cleared x nd h : h !! x = Some nd → TAILQ_INSERT_TAIL x h zero_head = None.
Proof. intros Hx. unfold TAILQ_INSERT_TAIL, set_next, set_prev. rewrite Hx. cbn. by heap_simpl. Qed.
