(* ===== verification/SslSocket.v ===== *)
(** * TLS connections (pktserv/sslsocket.c)

    The wrappers around the calls of the TLS library: they translate its
    results into the states of a connection.  A retry is a result of 0 bytes, a
    failure that of a failed [read] or [write].  Following a null session is
    undefined behaviour. *)

From Stdlib Require Import ZArith Lia.
From S2P Require Import Config Prelude PktBuffers.

Local Open Scope Z_scope.

(** ** Calls of the library *)

Definition set_tls (t : tls) (k : kernel) : kernel := Kernel (k_in k) (k_wr k) (k_out k) t.

(** Without a result that was foreseen the call has to wait. *)
Definition SSL_accept (k : kernel) : option ssl_error * kernel :=
  let t := k_tls k in
  match t_accept t with
  | [] => (Some SSL_ERROR_WANT_READ, k)
  | r :: l => (r, set_tls (Tls (t_new t) l (t_read t) (t_write t)) k)
  end.

Definition SSL_read (n : nat) (k : kernel) : tls_read * kernel :=
  let t := k_tls k in
  match t_read t with
  | [] => (TRead [] false SSL_ERROR_WANT_READ false, k)
  | r :: l =>
      let rest := drop n (tr_data r) in
      let l' := if decide (rest = []) then l else TRead rest (tr_pending r) (tr_error r) (tr_again r) :: l in
      (TRead (take n (tr_data r)) (tr_pending r) (tr_error r) (tr_again r),
       set_tls (Tls (t_new t) (t_accept t) l' (t_write t)) k)
  end.

(** The bytes that are accepted count as written. *)
Definition SSL_write (bs : list byte) (k : kernel) : tls_write * kernel :=
  let t := k_tls k in
  match t_write t with
  | [] => (TWrite 0 false SSL_ERROR_WANT_WRITE false, k)
  | r :: l =>
      (TWrite (tw_count r `min` length bs) (tw_pending r) (tw_error r) (tw_again r),
       Kernel (k_in k) (k_wr k) (k_out k ++ take (tw_count r) bs) (Tls (t_new t) (t_accept t) (t_read t) l))
  end.

(** ** sslsocket.c *)

Definition sslsocket_accept (c : cbuf) (k : kernel) : Z * cbuf * kernel :=
  if negb (c_ssl_con c) && negb (t_new (k_tls k)) then (-1, c, k)
  else
    let c := set_ssl_con true c in
    let '(r, k) := SSL_accept k in
    match r with
    | None => (0, set_state ACCEPTED (set_is_ssl true c), k)
    | Some (SSL_ERROR_WANT_READ | SSL_ERROR_WANT_WRITE) => (0, set_state WANT_SSL_ACCEPT c, k)
    | Some (SSL_ERROR_ZERO_RETURN | SSL_ERROR_WANT_X509_LOOKUP | SSL_ERROR_SYSCALL | SSL_ERROR_SSL) =>
        (-1, set_state WANT_RAW_DISCONNECT c, k)
    | Some SSL_ERROR_OTHER => (-1, c, k)
    end.

(** The state after a call that succeeded. *)
Definition ssl_done (pending : bool) (c : cbuf) : cbuf :=
  set_state (if c_wlist_size c =? 0 then if pending then WANT_SSL_READ else IDLE else WANT_SSL_WRITE) c.

(** A call that returned no bytes: [Bytes []] for a retry. *)
Definition ssl_failed (e : ssl_error) (again : bool) (c : cbuf) : io_result * cbuf :=
  let fail := if again then EWOULDBLOCK else EIO in
  match e with
  | SSL_ERROR_WANT_READ => (Bytes [], set_state WANT_SSL_READ c)
  | SSL_ERROR_WANT_WRITE => (Bytes [], set_state WANT_SSL_WRITE c)
  | SSL_ERROR_ZERO_RETURN | SSL_ERROR_WANT_X509_LOOKUP | SSL_ERROR_SYSCALL | SSL_ERROR_SSL =>
      (fail, set_state WANT_DISCONNECT c)
  | SSL_ERROR_OTHER => (fail, c)
  end.

Definition sslsocket_read (c : cbuf) (n : nat) (k : kernel) : option (io_result * cbuf * kernel) :=
  if negb (c_ssl_con c) then None
  else
    let '(r, k) := SSL_read n k in
    match tr_data r with
    | _ :: _ => Some (Bytes (tr_data r), ssl_done (tr_pending r) c, k)
    | [] => let '(x, c) := ssl_failed (tr_error r) (tr_again r) c in Some (x, c, k)
    end.

Definition sslsocket_write (c : cbuf) (bs : list byte) (k : kernel) : option (io_result * cbuf * kernel) :=
  if negb (c_ssl_con c) then None
  else
    let '(r, k) := SSL_write bs k in
    match tw_count r with
    | S n => Some (Bytes (take (S n) bs), ssl_done (tw_pending r) c, k)
    | O => let '(x, c) := ssl_failed (tw_error r) (tw_again r) c in Some (x, c, k)
    end.
