(* ===== verification/PktSocket.v ===== *)
(** * Reading and writing packets (pktserv/pktsocket.c)

    A packet is a length byte and that many bytes of body; it is read from and
    written to a connection, cleartext or TLS, as far as the kernel lets it.
    No result stands for a null pointer that is followed. *)

From Stdlib Require Import ZArith Lia.
From S2P Require Import Config Prelude PktBuffers SslSocket.

Local Open Scope Z_scope.

(** ** Reading *)

(** [read(cbuf->fd, ...)], or [sslsocket_read] on a TLS connection. *)
Definition sock_read (c : cbuf) (n : nat) (k : kernel) : option (io_result * cbuf * kernel) :=
  if c_is_ssl c then sslsocket_read c n k
  else let '(r, k) := k_read n k in Some (r, c, k).

(** A result of 0: the end of a cleartext stream, a retry on a TLS one. *)
Definition read_nothing (c : cbuf) (k : kernel) : Z * cbuf * kernel :=
  if c_is_ssl c then (0, c, k) else (-1, set_state WANT_DISCONNECT c, k).

(** The header part of [pktsocket_read]: [inl] when the function returns. *)
Definition read_header (mem : bool) (c : cbuf) (k : kernel)
    : option ((Z * cbuf * kernel) + (cbuf * kernel)) :=
  match msgbuf_alloc mem (c_rbuf c) (Z.of_nat MAX_PKT_LEN) with
  | None => Some (inl (-1, set_state WANT_DISCONNECT (set_rbuf None c), k))
  | Some m =>
      match sock_read (set_rbuf (Some m) c) 1 k with
      | None => None
      | Some (EWOULDBLOCK, c, k) => Some (inl (0, c, k))
      | Some (EIO, c, k) => Some (inl (-1, set_state WANT_DISCONNECT c, k))
      | Some (Bytes [], c, k) => Some (inl (read_nothing c k))
      | Some (Bytes (b :: _), c, k) =>
          let len := uchar b + 1 in
          let c := set_newmsg false (set_rbuf (Some (MsgBuf (m_sz m) len [b] [])) c) in
          if Z.of_nat MAX_PKT_LEN - 1 <? len then Some (inl (-1, set_state WANT_DISCONNECT c, k))
          else Some (inr (c, k))
      end
  end.

(** The body part, from [remain = ...] on. *)
Definition read_body (c : cbuf) (k : kernel) : option (Z * cbuf * kernel) :=
  match c_rbuf c with
  | None => None
  | Some m =>
      let remain := (Z.to_nat (m_len m) - length (m_done m))%nat in
      match sock_read c remain k with
      | None => None
      | Some (EWOULDBLOCK, c, k) => Some (0, set_state WANT_READ c, k)
      | Some (EIO, c, k) => Some (-1, set_state WANT_DISCONNECT c, k)
      | Some (Bytes [], c, k) => Some (read_nothing c k)
      | Some (Bytes bs, c, k) =>
          let c := set_rbuf (Some (MsgBuf (m_sz m) (m_len m) (m_done m ++ bs) [])) c in
          Some (0, set_state (if (remain - length bs =? 0)%nat then COMPLETE_PACKET else WANT_READ) c, k)
      end
  end.

Definition pktsocket_read (mem : bool) (c : cbuf) (k : kernel) : option (Z * cbuf * kernel) :=
  if decide (c_state c = WANT_HEADER) then
    match read_header mem c k with
    | None => None
    | Some (inl r) => Some r
    | Some (inr (c, k)) => read_body c k
    end
  else read_body c k.

(** ** Writing *)

Definition sock_write (c : cbuf) (bs : list byte) (k : kernel) : option (io_result * cbuf * kernel) :=
  if c_is_ssl c then sslsocket_write c bs k
  else let '(r, k) := k_write bs k in Some (r, c, k).

(** A packet that has to be tried again. *)
Definition retry_later (x : SocketState) (c : cbuf) : cbuf := set_retries (c_retries c + 1) (set_state x c).

(** The loop of [pktsocket_write] over the send list. *)
Fixpoint write_loop (l : list msgbuf) (c : cbuf) (k : kernel) : option (Z * cbuf * kernel) :=
  match l with
  | [] => Some (0, set_state WANT_HEADER c, k)
  | m :: l' =>
      match sock_write c (m_rest m) k with
      | None => None
      | Some (EWOULDBLOCK, c, k) => Some (0, retry_later WANT_WRITE c, k)
      | Some (EIO, c, k) => Some (-1, set_state WANT_DISCONNECT c, k)
      | Some (Bytes bs, c, k) =>
          if c_is_ssl c && (length bs =? 0)%nat then Some (0, retry_later WANT_SSL_WRITE c, k)
          else if (length bs <? length (m_rest m))%nat then
            let m' := MsgBuf (m_sz m) (m_len m) (m_done m ++ bs) (drop (length bs) (m_rest m)) in
            Some (0, set_wlist (m' :: l') (c_wlist_size c) (retry_later WANT_WRITE c), k)
          else
            write_loop l' (set_retries 0 (set_wlist l' (c_wlist_size c - 1) c)) k
      end
  end.

Definition pktsocket_write (c : cbuf) (k : kernel) : option (Z * cbuf * kernel) :=
  if Z.of_nat MAX_SENDPACKET_RETRIES <? c_retries c then Some (-1, c, k)
  else write_loop (c_wlist c) c k.

(** [pktserv_send(s, pkt, len)] on the connection of [s]. *)
Definition pktserv_send (mem : bool) (c : cbuf) (k : kernel) (pkt : list byte) : option (Z * cbuf * kernel) :=
  if decide (c_state c = WANT_DISCONNECT ∨ c_state c = WANT_RAW_DISCONNECT) then Some (-1, c, k)
  else
    let c := set_state WANT_WRITE c in
    if Z.of_nat MAX_SENDPACKET_QUEUE <=? c_wlist_size c then Some (-1, c, k)
    else
      match msgbuf_alloc mem None (Z.of_nat (length pkt)) with
      | None => Some (-1, c, k)
      | Some m =>
          let m := MsgBuf (m_sz m) (Z.of_nat (length pkt)) [] pkt in
          let c := set_wlist (c_wlist c ++ [m]) (c_wlist_size c + 1) c in
          match pktsocket_write (set_state WANT_WRITE c) k with
          | None => None
          | Some (r, c, k) => if r <? 0 then Some (-1, set_state WANT_DISCONNECT c, k) else Some (0, c, k)
          end
      end.

(** [pktserv_disconnect(s)]. *)
Definition pktserv_disconnect (c : cbuf) : cbuf := set_state WANT_DISCONNECT c.

(** ** The send queue *)

(** Bytes accepted from callers and not yet written. *)
Definition pending (c : cbuf) : list byte := concat (map m_rest (c_wlist c)).

Definition queue_ok (c : cbuf) : Prop :=
  c_wlist_size c = Z.of_nat (length (c_wlist c)) ∧ c_wlist_size c ≤ Z.of_nat MAX_SENDPACKET_QUEUE.

(** A TLS connection has its session. *)
Definition sessioned (c : cbuf) : Prop := c_is_ssl c = true → c_ssl_con c = true.

Lemma take_min_length {A} n (l : list A) : take (n `min` length l) l = take n l.
Proof.
  destruct (Nat.min_spec n (length l)) as [[Hl ->]|[Hl ->]]; [done|]. by rewrite firstn_all, take_ge.
Qed.

(** All but the state. *)
Definition same_but_state (c c' : cbuf) : Prop := ∃ x, c' = set_state x c.

Lemma sslsocket_write_spec c bs k :
  c_ssl_con c = true →
  ∃ r c' k', sslsocket_write c bs k = Some (r, c', k') ∧ same_but_state c c' ∧ k_in k' = k_in k ∧
    match r with Bytes x => x = take (length x) bs ∧ k_out k' = k_out k ++ x | _ => k_out k' = k_out k end.
Proof.
  intros Hc. unfold sslsocket_write, SSL_write. rewrite Hc. cbn [negb].
  assert (∀ e a, same_but_state c (ssl_failed e a c).2) as Hf.
  { intros [] []; cbn; first [by eexists|exists (c_state c); by destruct c]. }
  destruct (t_write (k_tls k)) as [|w l]; cbn [tw_count tw_error tw_again tw_pending].
  - do 3 eexists. split; [reflexivity|]. split; [by eexists|]. split; [done|]. cbn. by rewrite app_nil_r.
  - destruct (tw_count w `min` length bs)%nat as [|n] eqn:En.
    + assert (take (tw_count w) bs = []) as Ht.
      { apply nil_length_inv. rewrite length_take. done. }
      specialize (Hf (tw_error w) (tw_again w)). destruct (ssl_failed _ _ c) as [x c'] eqn:Ex. do 3 eexists. split; [reflexivity|].
      split; [exact Hf|]. split; [done|]. cbn. rewrite Ht, app_nil_r. unfold ssl_failed in Ex.
      destruct (tw_error w), (tw_again w); injection Ex as <- _; cbn; by rewrite ?app_nil_r.
    + do 3 eexists. split; [reflexivity|]. split; [by eexists|]. split; [done|]. cbn [k_out].
      rewrite <-En, take_min_length. split; [|done]. by rewrite length_take, take_min_length.
Qed.

Lemma sock_write_spec c bs k :
  sessioned c →
  ∃ r c' k', sock_write c bs k = Some (r, c', k') ∧ same_but_state c c' ∧ k_in k' = k_in k ∧
    match r with Bytes x => x = take (length x) bs ∧ k_out k' = k_out k ++ x | _ => k_out k' = k_out k end.
Proof.
  intros Hs. unfold sock_write. destruct (c_is_ssl c) eqn:Es; [by apply sslsocket_write_spec, Hs|].
  assert (same_but_state c c) as Hc by (exists (c_state c); by destruct c).
  unfold k_write. destruct (k_wr k) as [|[n| |] w]; do 3 eexists; (split; [reflexivity|]); split_and!; try done.
  by rewrite length_take, take_min_length.
Qed.

Lemma write_loop_spec l c k :
  c_wlist c = l → c_wlist_size c = Z.of_nat (length l) → sessioned c →
  ∃ r c' k', write_loop l c k = Some (r, c', k') ∧
    k_out k' ++ pending c' = k_out k ++ concat (map m_rest l) ∧
    c_wlist_size c' = Z.of_nat (length (c_wlist c')) ∧ (length (c_wlist c') ≤ length l)%nat ∧
    c_rbuf c' = c_rbuf c ∧ k_in k' = k_in k ∧ (r = 0 ∨ r = -1).
Proof.
  revert c k. induction l as [|m l IH]; intros c k Hl Hn Hs; cbn [write_loop].
  { do 3 eexists. split; [reflexivity|]. unfold pending. cbn. rewrite Hl. auto 10. }
  destruct (sock_write_spec c (m_rest m) k Hs) as (r & c1 & k1 & -> & (x & ->) & Hi & Hr).
  destruct r as [bs| |]; try (do 3 eexists; split; [reflexivity|]; unfold pending; cbn; rewrite Hl, Hr; by auto 10).
  destruct Hr as [Hb Ho]. cbn [c_is_ssl set_state]. destruct (c_is_ssl c && (length bs =? 0)%nat) eqn:E0.
  { apply andb_true_iff in E0 as [_ ->%Nat.eqb_eq%nil_length_inv]. do 3 eexists. split; [reflexivity|].
    unfold pending. cbn. rewrite Hl, Ho, app_nil_r. auto 10. }
  destruct (Nat.ltb_spec (length bs) (length (m_rest m))) as [Hlt|Hge].
  - do 3 eexists. split; [reflexivity|]. unfold pending. cbn. rewrite Ho, <-app_assoc. split_and!; auto.
    f_equal. rewrite app_assoc. f_equal. rewrite Hb at 1. apply take_drop.
  - edestruct (IH (set_retries 0 (set_wlist l (c_wlist_size c - 1) (set_state x c))) k1)
      as (r & c' & k' & E & H1 & H2 & H3 & H4 & H5 & H6); [done|cbn in *; lia|done|].
    cbn [c_wlist_size set_state]. exists r, c', k'. split; [exact E|]. cbn in *. split_and!; try done; [|lia|congruence].
    rewrite H1, Ho, <-app_assoc. do 2 f_equal. rewrite Hb. by apply take_ge.
Qed.

(** C25: whatever the kernel accepts, [pktserv_send] keeps the queue within
    [MAX_SENDPACKET_QUEUE] and its count exact, and the bytes written followed
    by the bytes queued are those from before the call, followed by the new
    packet if it returns 0: nothing is lost, repeated or reordered.  On -1 the
    packet was refused whole, or the connection is given up. *)
Theorem pktserv_send_fifo mem c k pkt :
  queue_ok c → sessioned c →
  ∃ r c' k', pktserv_send mem c k pkt = Some (r, c', k') ∧
    queue_ok c' ∧ k_in k' = k_in k ∧ c_rbuf c' = c_rbuf c ∧
    (r = 0 ∧ k_out k' ++ pending c' = k_out k ++ pending c ++ pkt ∨
     r = -1 ∧ (k_out k' = k_out k ∧ pending c' = pending c ∨
       c_state c' = WANT_DISCONNECT ∧ k_out k' ++ pending c' = k_out k ++ pending c ++ pkt)).
Proof.
  intros [Hn Hq] Hs. unfold pktserv_send. destruct (decide _) as [Hd|Hd].
  { do 3 eexists. split; [reflexivity|]. by repeat split; auto. }
  cbn [c_wlist_size set_state]. destruct (Z.leb_spec (Z.of_nat MAX_SENDPACKET_QUEUE) (c_wlist_size c)).
  { do 3 eexists. split; [reflexivity|]. by repeat split; auto. }
  destruct mem; cbn [msgbuf_alloc]; [|do 3 eexists; split; [reflexivity|]; by repeat split; auto].
  unfold pktsocket_write. cbn [c_retries set_state set_wlist m_sz].
  destruct (Z.ltb_spec (Z.of_nat MAX_SENDPACKET_RETRIES) (c_retries c)).
  - do 3 eexists. split; [reflexivity|]. unfold queue_ok, pending. cbn. rewrite map_app, concat_app, length_app. cbn.
    rewrite app_nil_r. split_and!; try done; try lia. right. auto.
  - cbn [c_wlist set_state set_wlist]. set (m := MsgBuf _ _ _ _).
    match goal with |- context [write_loop _ ?c'] => set (c1 := c') end.
    destruct (write_loop_spec (c_wlist c ++ [m]) c1 k eq_refl) as (r & c' & k' & -> & H1 & H2 & H3 & H4 & H5 & H6);
      [cbn; rewrite length_app; cbn; lia|done|].
    rewrite map_app, concat_app in H1. cbn in H1. rewrite app_nil_r in H1. rewrite length_app in H3. cbn in H3.
    destruct H6 as [->| ->]; cbn; do 3 eexists; (split; [reflexivity|]); unfold queue_ok, pending in *; cbn;
      split_and!; try done; try lia; auto.
Qed.

(** A connection in the middle of a packet: "ab" of a body of five bytes. *)
Definition mid_packet : cbuf :=
  Cbuf 0 5 WANT_READ OK (Some (MsgBuf 256 6 [x05; "a"; "b"]%byte [])) false [] 0 0 false false.

(** A TLS session that takes one byte, and then has to wait. *)
Definition slow_tls : tls := Tls true [] [] [TWrite 1 false SSL_ERROR_SSL false].

Lemma pktserv_send_fifo_witness :
  queue_ok mid_packet ∧ sessioned (set_ssl_con true (set_is_ssl true mid_packet)) ∧
  ∃ r c' k', pktserv_send true (set_ssl_con true (set_is_ssl true mid_packet)) (Kernel [] [] [] slow_tls) [x01; "X"]%byte =
      Some (r, c', k') ∧
    queue_ok c' ∧ k_in k' = [] ∧ r = 0 ∧ k_out k' ++ pending c' = [x01; "X"]%byte.
Proof.
  assert (queue_ok mid_packet) as Hq by (split; [done|vm_compute; discriminate]). split; [done|]. split; [done|].
  destruct (pktserv_send_fifo true (set_ssl_con true (set_is_ssl true mid_packet)) (Kernel [] [] [] slow_tls) [x01; "X"]%byte)
    as (r & c' & k' & E & H1 & H2 & _); [exact Hq|done|]. exists r, c', k'. split; [exact E|]. split; [exact H1|].
  split; [exact H2|]. vm_compute in E. injection E as <- <- <-. done.
Defined.

(** A packet sent to a client while one from it is half read puts the
    connection back to reading a header: the rest of the incoming packet will
    be taken for a new one. *)
Theorem send_drops_partial_read c k pkt n w :
  c_state c = WANT_READ → c_is_ssl c = false → c_wlist c = [] → c_wlist_size c = 0 →
  0 ≤ c_retries c ≤ Z.of_nat MAX_SENDPACKET_RETRIES → k_wr k = Accept n :: w → (length pkt ≤ n)%nat →
  ∃ c' k', pktserv_send true c k pkt = Some (0, c', k') ∧ c_state c' = WANT_HEADER ∧ c_rbuf c' = c_rbuf c.
Proof.
  intros Hs Hssl Hl Hn Hr Hw Hlen. unfold pktserv_send. rewrite Hs, decide_False by (intros [?|?]; done).
  cbn [c_wlist_size set_state]. rewrite Hn. change (Z.of_nat MAX_SENDPACKET_QUEUE <=? 0) with false. cbn [msgbuf_alloc].
  unfold pktsocket_write. cbn [c_retries set_state set_wlist].
  destruct (Z.ltb_spec (Z.of_nat MAX_SENDPACKET_RETRIES) (c_retries c)); [lia|].
  cbn [c_wlist set_state set_wlist]. rewrite Hl. cbn [app write_loop m_rest]. unfold sock_write. cbn [c_is_ssl set_state set_wlist].
  rewrite Hssl. unfold k_write. rewrite Hw, take_ge by lia. cbn [c_is_ssl set_state set_wlist]. rewrite Hssl. cbn [andb].
  destruct (Nat.ltb_spec (length pkt) (length pkt)); [lia|]. by do 2 eexists.
Qed.

Lemma send_drops_partial_read_witness :
  ∃ c' k', pktserv_send true mid_packet (Kernel [] [Accept 10] [] no_tls) [x01; "X"]%byte = Some (0, c', k') ∧
    c_state c' = WANT_HEADER ∧ c_rbuf c' = c_rbuf mid_packet.
Proof.
  apply (send_drops_partial_read mid_packet (Kernel [] [Accept 10] [] no_tls) [x01; "X"]%byte 10 []);
    try reflexivity; [vm_compute; split; discriminate|vm_compute; lia].
Defined.

(** ** Framing *)

Definition frame (p : list byte) : list byte := to_uchar (Z.of_nat (length p)) :: p.
Definition body_ok (p : list byte) : Prop := (1 ≤ length p ≤ MAX_PKT_DATA)%nat.

(** A read followed, on a complete packet, by the hand-over to the dispatcher
    and the release of the buffer. *)
Definition rx_step (mem : bool) (c : cbuf) (k : kernel) : option (list (list byte) * cbuf * kernel) :=
  match pktsocket_read mem c k with
  | None => None
  | Some (_, c, k) =>
      match c_state c, c_rbuf c with
      | COMPLETE_PACKET, Some m => Some ([m_done m], set_state WANT_HEADER (set_rbuf None c), k)
      | COMPLETE_PACKET, None => None
      | _, _ => Some ([], c, k)
      end
  end.

(** Reading as long as the kernel has something: the packets dispatched. *)
Fixpoint rx_run (fuel : nat) (c : cbuf) (k : kernel) : option (list (list byte) * cbuf * kernel) :=
  match k_in k with
  | [] => Some ([], c, k)
  | _ =>
      match fuel with
      | O => None
      | S fuel =>
          match rx_step true c k with
          | None => None
          | Some (ps, c, k) =>
              match rx_run fuel c k with
              | None => None
              | Some (qs, c, k) => Some (ps ++ qs, c, k)
              end
          end
      end
  end.

(** The bytes of an input without end or error. *)
Definition seg_ok (s : segment) : Prop := match s with Data bs => bs ≠ [] | WouldBlock => True | _ => False end.
Definition seg_bytes (s : segment) : list byte := match s with Data bs => bs | _ => [] end.
Definition in_bytes (k : kernel) : list byte := concat (map seg_bytes (k_in k)).

(** The reader is between packets, or has read a proper part [d] of a frame. *)
Inductive rx_inv (c : cbuf) (k : kernel) : list (list byte) → Prop :=
| rx_header ps :
    c_is_ssl c = false → c_state c = WANT_HEADER → in_bytes k = concat (map frame ps) → Forall body_ok ps → rx_inv c k ps
| rx_body m p ps :
    c_is_ssl c = false → c_state c = WANT_READ → c_rbuf c = Some m → m_len m = Z.of_nat (length (frame p)) →
    (1 ≤ length (m_done m) < length (frame p))%nat →
    m_done m ++ in_bytes k = frame p ++ concat (map frame ps) →
    body_ok p → Forall body_ok ps → rx_inv c k (p :: ps).

Definition work (k : kernel) : nat := length (in_bytes k) + length (k_in k).

Lemma k_read_data n k :
  (0 < n)%nat → Forall seg_ok (k_in k) →
  let '(r, k') := k_read n k in
  Forall seg_ok (k_in k') ∧
  (r = EWOULDBLOCK ∧ in_bytes k' = in_bytes k ∧ (k_in k ≠ [] → work k' < work k)%nat ∧ (work k' ≤ work k)%nat ∨
   ∃ bs, r = Bytes bs ∧ bs ≠ [] ∧ (length bs ≤ n)%nat ∧ in_bytes k = bs ++ in_bytes k' ∧ (work k' < work k)%nat).
Proof.
  intros Hn Hs. unfold k_read. destruct n as [|n]; [lia|]. destruct k as [ins wr out]; cbn [k_in k_wr k_out] in *.
  destruct ins as [|[bs| | |] l]; inv Hs; try done.
  - split; [constructor|]. left. split_and!; try done.
  - cbn [seg_ok] in H1. split.
    { cbn. destruct (decide _); [done|]. by constructor. }
    right. exists (take (S n) bs). split_and!; [done| | | |].
    + by destruct bs.
    + rewrite length_take. lia.
    + unfold in_bytes. cbn. destruct (decide (drop (S n) bs = [])) as [Hd|Hd].
      * rewrite <-(take_drop (S n) bs) at 1. by rewrite Hd, app_nil_r.
      * cbn. by rewrite app_assoc, take_drop.
    + unfold work, in_bytes. cbn. destruct (decide (drop (S n) bs = [])) as [Hd|Hd]; cbn; rewrite ?length_app, ?length_drop.
      * destruct bs; [done|]. cbn. lia.
      * destruct bs; [done|]. cbn. lia.
  - split; [done|]. left. unfold work, in_bytes. cbn. split_and!; try done; try lia.
Qed.

Lemma frame_length p : length (frame p) = S (length p).
Proof. done. Qed.

Lemma frame_head p : body_ok p → uchar (to_uchar (Z.of_nat (length p))) = Z.of_nat (length p).
Proof.
  intros Hp. rewrite uchar_to_uchar, Z.mod_small; [done|]. unfold body_ok in Hp. change MAX_PKT_DATA with 254%nat in Hp. lia.
Qed.

Lemma sock_read_clear c n k : c_is_ssl c = false → sock_read c n k = let '(r, k') := k_read n k in Some (r, c, k').
Proof. intros Hc. unfold sock_read. by rewrite Hc. Qed.

Lemma read_body_ok c k m p rest :
  c_is_ssl c = false → c_rbuf c = Some m → m_len m = Z.of_nat (length (frame p)) →
  (1 ≤ length (m_done m) < length (frame p))%nat → m_done m ++ in_bytes k = frame p ++ rest →
  Forall seg_ok (k_in k) →
  ∃ r c' k' m', read_body c k = Some (r, c', k') ∧ Forall seg_ok (k_in k') ∧
    (work k' ≤ work k)%nat ∧ (k_in k ≠ [] → (work k' < work k)%nat) ∧
    c_is_ssl c' = false ∧ c_rbuf c' = Some m' ∧ m_len m' = m_len m ∧ m_done m' ++ in_bytes k' = frame p ++ rest ∧
    (c_state c' = WANT_READ ∧ (1 ≤ length (m_done m') < length (frame p))%nat ∨
     c_state c' = COMPLETE_PACKET ∧ m_done m' = frame p).
Proof.
  intros Hc Hm Hlen Hd Heq Hs. unfold read_body. rewrite Hm, Hlen, Nat2Z.id, sock_read_clear by done.
  pose proof (k_read_data (length (frame p) - length (m_done m)) k ltac:(lia) Hs) as Hr.
  destruct (k_read _ k) as [r k']. destruct Hr as [Hs' [(-> & Hb & Hw & Hw')|(bs & -> & Hne & Hl & Hb & Hw)]].
  - do 4 eexists. split; [reflexivity|]. split_and!; try done; [by rewrite Hb|]. by left.
  - destruct bs as [|b bs]; [done|]. do 4 eexists. split; [reflexivity|]. cbn [c_rbuf set_state set_rbuf m_len m_done].
    split_and!; try done; try lia; cbn [m_done]; [by rewrite <-app_assoc, <-Hb|].
    destruct (Nat.eqb_spec (length (frame p) - length (m_done m) - length (b :: bs)) 0) as [He|He].
    + right. split; [done|]. apply (app_inj_1 _ _ (in_bytes k') rest); [|by rewrite <-app_assoc, <-Hb].
      rewrite length_app. lia.
    + left. split; [done|]. rewrite length_app. lia.
Qed.

Lemma msgbuf_alloc_true m sz : ∃ m', msgbuf_alloc true m sz = Some m'.
Proof. destruct m; cbn; [case_if|]; by eexists. Qed.

Lemma rx_step_body c k m p ps (read := read_body c k) :
  c_is_ssl c = false → c_rbuf c = Some m → m_len m = Z.of_nat (length (frame p)) →
  (1 ≤ length (m_done m) < length (frame p))%nat → m_done m ++ in_bytes k = frame p ++ concat (map frame ps) →
  body_ok p → Forall body_ok ps → Forall seg_ok (k_in k) →
  ∃ r c1 k1, read = Some (r, c1, k1) ∧ Forall seg_ok (k_in k1) ∧ (work k1 ≤ work k)%nat ∧
    (k_in k ≠ [] → (work k1 < work k)%nat) ∧
    ∃ out c' ps', match c_state c1, c_rbuf c1 with
      | COMPLETE_PACKET, Some m => Some ([m_done m], set_state WANT_HEADER (set_rbuf None c1), k1)
      | COMPLETE_PACKET, None => None
      | _, _ => Some ([], c1, k1)
      end = Some (out, c', k1) ∧ map frame (p :: ps) = out ++ map frame ps' ∧ rx_inv c' k1 ps'.
Proof.
  intros Hc Hm Hlen Hd Heq Hp Hps Hs. subst read.
  destruct (read_body_ok c k m p _ Hc Hm Hlen Hd Heq Hs)
    as (r & c1 & k1 & m1 & E & Hs1 & Hw & Hw' & Hc1 & Hm1 & Hlen1 & Heq1 & Hst).
  exists r, c1, k1. split_and!; try done. rewrite Hm1. destruct Hst as [[Hst1 Hd1]|[Hst1 Hd1]]; rewrite Hst1.
  - exists [], c1, (p :: ps). split_and!; try done. apply (rx_body c1 k1 m1 p ps); try done. congruence.
  - exists [frame p]. eexists _, ps. split; [by rewrite Hd1|]. split; [done|]. apply rx_header; try done.
    rewrite Hd1 in Heq1. by apply app_inv_head in Heq1.
Qed.

Lemma rx_step_ok c k ps :
  rx_inv c k ps → Forall seg_ok (k_in k) → k_in k ≠ [] →
  ∃ out c' k' ps', rx_step true c k = Some (out, c', k') ∧ map frame ps = out ++ map frame ps' ∧
    rx_inv c' k' ps' ∧ Forall seg_ok (k_in k') ∧ (work k' < work k)%nat.
Proof.
  intros Hinv Hs Hne. unfold rx_step, pktsocket_read. destruct Hinv as [ps Hc Hst Hb Hps|m p ps Hc Hst Hm Hlen Hd Heq Hp Hps].
  - rewrite decide_True by done. unfold read_header.
    destruct (msgbuf_alloc_true (c_rbuf c) (Z.of_nat MAX_PKT_LEN)) as [m0 ->]. rewrite sock_read_clear by done.
    pose proof (k_read_data 1 k ltac:(lia) Hs) as Hr. destruct (k_read 1 k) as [r k1].
    destruct Hr as [Hs1 [(-> & Hb1 & Hw & _)|(bs & -> & Hbne & Hl & Hb1 & Hw)]].
    + cbn. rewrite Hst. do 4 eexists. split; [reflexivity|]. split; [done|]. split; [|auto].
      apply rx_header; try done. congruence.
    + destruct bs as [|b [|b' bs]]; [done| |cbn in Hl; lia].
      destruct ps as [|p ps]; [cbn in Hb; rewrite Hb1 in Hb; done|].
      inv Hps. rename H1 into Hp, H2 into Hps. cbn [map concat] in Hb. rewrite Hb1 in Hb.
      injection Hb as Hbb Hb. subst b. rewrite frame_head by done. cbn zeta iota.
      destruct (Z.ltb_spec (Z.of_nat MAX_PKT_LEN - 1) (Z.of_nat (length p) + 1)) as [Hov|_].
      { exfalso. unfold body_ok in Hp. change MAX_PKT_DATA with 254%nat in Hp. change MAX_PKT_LEN with 256%nat in Hov. lia. }
      edestruct (rx_step_body) with (p := p) (ps := ps) (k := k1)
        as (r & c1 & k2 & -> & Hs2 & Hw2 & _ & out & c' & ps' & E & Hmap & Hinv'); [done|reflexivity|..].
      * cbn. lia.
      * cbn. unfold body_ok in Hp. lia.
      * cbn. by rewrite Hb.
      * done.
      * done.
      * done.
      * exists out, c', k2, ps'. split_and!; try done. lia.
  - rewrite decide_False by congruence.
    destruct (rx_step_body c k m p ps Hc Hm Hlen Hd Heq Hp Hps Hs)
      as (r & c1 & k1 & -> & Hs1 & _ & Hw & out & c' & ps' & E & Hmap & Hinv').
    exists out, c', k1, ps'. split_and!; auto.
Qed.

Lemma rx_run_ok fuel c k ps :
  rx_inv c k ps → Forall seg_ok (k_in k) → (work k ≤ fuel)%nat →
  ∃ qs c' k' ps', rx_run fuel c k = Some (qs, c', k') ∧ map frame ps = qs ++ map frame ps' ∧
    rx_inv c' k' ps' ∧ k_in k' = [].
Proof.
  revert c k ps. induction fuel as [|fuel IH]; intros c k ps Hinv Hs Hw.
  - assert (k_in k = []) as Hk. { unfold work in Hw. destruct (k_in k); [done|]. cbn in Hw. lia. }
    exists [], c, k, ps. cbn. rewrite Hk. done.
  - destruct (k_in k) as [|s l] eqn:Hk.
    { exists [], c, k, ps. cbn. rewrite Hk. done. }
    cbn [rx_run]. rewrite Hk.
    destruct (rx_step_ok c k ps Hinv) as (out & c1 & k1 & ps1 & -> & Hm1 & Hinv1 & Hs1 & Hw1);
      [by rewrite Hk|by rewrite Hk|].
    destruct (IH c1 k1 ps1 Hinv1 Hs1) as (qs & c2 & k2 & ps2 & -> & Hm2 & Hinv2 & Hk2); [lia|].
    exists (out ++ qs), c2, k2, ps2. split_and!; try done. by rewrite Hm1, Hm2, app_assoc.
Qed.

(** C24: on a connection in clear text the framing does not depend on how the
    stream is cut up.  When the bytes that arrive are those of a sequence of packets with bodies of 1 to 254
    bytes, in any segments and with any pauses, the reader dispatches exactly
    those packets in order, and ends ready for the next one. *)
Theorem framing_segmentation c segs ps wr out t :
  c_is_ssl c = false → c_state c = WANT_HEADER → Forall seg_ok segs → Forall body_ok ps →
  concat (map seg_bytes segs) = concat (map frame ps) →
  ∃ c' k', rx_run (length (concat (map frame ps)) + length segs) c (Kernel segs wr out t) =
      Some (map frame ps, c', k') ∧ c_state c' = WANT_HEADER ∧ k_in k' = [].
Proof.
  intros Hc Hst Hs Hps Hb.
  destruct (rx_run_ok (length (concat (map frame ps)) + length segs) c (Kernel segs wr out t) ps)
    as (qs & c' & k' & ps' & -> & Hm & Hinv & Hk); [by apply rx_header|done| |].
  { unfold work, in_bytes. cbn. rewrite Hb. lia. }
  exists c', k'. unfold in_bytes in Hinv.
  destruct Hinv as [ps' _ Hst' Hb' Hps'|m p ps' _ Hst' Hm' Hlen Hd Heq Hp Hps'].
  - unfold in_bytes in Hb'. rewrite Hk in Hb'. cbn in Hb'. destruct ps' as [|p ps']; [|done].
    cbn in Hm. rewrite app_nil_r in Hm. by rewrite Hm.
  - exfalso. unfold in_bytes in Heq. rewrite Hk in Heq. cbn [map concat] in Heq.
    rewrite app_nil_r in Heq. apply (f_equal length) in Heq. rewrite length_app in Heq. lia.
Qed.

Lemma framing_segmentation_witness :
  let ps := [str "hi"; str "x"] in
  let segs := [Data [x02; "h"]%byte; WouldBlock; Data ["i"; x01]%byte; Data ["x"]%byte] in
  ∃ c' k', rx_run 9 (set_state WANT_HEADER zero_cbuf) (Kernel segs [] [] no_tls) = Some (map frame ps, c', k') ∧
    c_state c' = WANT_HEADER ∧ k_in k' = [].
Proof.
  apply (framing_segmentation (set_state WANT_HEADER zero_cbuf)
    [Data [x02; "h"]%byte; WouldBlock; Data ["i"; x01]%byte; Data ["x"]%byte] [str "hi"; str "x"]);
    [reflexivity|reflexivity| |unfold body_ok; repeat constructor|reflexivity].
  repeat constructor; discriminate.
Defined.

(** A length byte of 255, which the protocol allows, and a length byte of
    0 both end the connection; no other length byte does. *)
Theorem header_rejected c b l wr out t :
  c_is_ssl c = false → c_state c = WANT_HEADER →
  let k := Kernel (Data (b :: l) :: []) wr out t in
  (∃ c' k', pktsocket_read true c k = Some (-1, c', k') ∧ c_state c' = WANT_DISCONNECT) ↔
  b = x00 ∨ b = xff.
Proof.
  intros Hc Hst k. unfold pktsocket_read. rewrite decide_True by done. unfold read_header.
  destruct (msgbuf_alloc_true (c_rbuf c) (Z.of_nat MAX_PKT_LEN)) as [m ->]. rewrite sock_read_clear by done.
  unfold k_read at 1. cbn [k_in k k_wr k_out take drop]. pose proof (uchar_range b) as Hb.
  change (Z.of_nat MAX_PKT_LEN - 1) with 255.
  destruct (Z.ltb_spec 255 (uchar b + 1)) as [Hov|Hok].
  { split; [|intros _; eauto]. intros _. right. apply uchar_inj. change (uchar xff) with 255. lia. }
  unfold read_body. cbn [c_rbuf set_newmsg set_rbuf m_len m_done length]. rewrite sock_read_clear by done.
  destruct (decide (b = x00)) as [->|Hne].
  { split; [auto|]. intros _. cbn. change (Z.to_nat (0 + 1) - 1)%nat with 0%nat. cbn.
    unfold read_nothing. cbn. rewrite Hc. eauto. }
  split.
  - intros (c' & k' & E & Hc'). exfalso. revert E.
    assert (1 ≤ uchar b) as Hpos. { destruct (decide (uchar b = 0)); [|lia]. exfalso. apply Hne. by apply uchar_inj. }
    replace (Z.to_nat (uchar b + 1) - 1)%nat with (S (Z.to_nat (uchar b - 1))) by lia.
    unfold k_read. cbn [k_in]. destruct (decide (l = [])) as [->|Hl]; cbn.
    + by intros [=].
    + destruct l as [|x l]; [done|]. cbn. by intros [=].
  - intros [->| ->]; [done|]. change (uchar xff) with 255 in Hok. lia.
Qed.

Lemma header_rejected_witness :
  ∃ c' k', pktsocket_read true (set_state WANT_HEADER zero_cbuf) (Kernel [Data (xff :: str "abc")] [] [] no_tls) =
    Some (-1, c', k') ∧ c_state c' = WANT_DISCONNECT.
Proof.
  apply (header_rejected (set_state WANT_HEADER zero_cbuf) xff (str "abc") [] [] no_tls eq_refl eq_refl). by right.
Defined.
