(* ===== verification/QueueSend.v ===== *)
(** * Sending with the queue on the heap (pktserv/pktserv.c, pktserv/pktsocket.c)

    [PktSocket] has the send queue of a connection as the list [c_wlist].  Here
    the functions that use it are written as the code has them, with the macros
    of [Queue] on the heap of buffers; they are proved to do the same, undefined
    behaviour included, to free the buffers that were sent, and to leave every
    other block alone. *)

From Stdlib Require Import ZArith Lia.
From stdpp Require Import gmap.
From S2P Require Import Config Prelude PktBuffers SslSocket PktSocket Queue.

Local Open Scope Z_scope.

(** ** The code *)

Section code.
Context `{Malloc}.
Implicit Types (c : cbuf) (k : kernel) (h : heap) (q : head).

Definition set_wlist_size (n : Z) c : cbuf := set_wlist (c_wlist c) n c.

(** [msgbuf->pos += result]. *)
Definition advance (bs : list byte) (m : msgbuf) : msgbuf :=
  MsgBuf (m_sz m) (m_len m) (m_done m ++ bs) (drop (length bs) (m_rest m)).

(** The loop of [pktsocket_write]; the queue of [c] is [q] in [h]. *)
Fixpoint write_queue (fuel : nat) c k h q : option (Z * cbuf * kernel * (heap * head)) :=
  if TAILQ_EMPTY q then Some (0, set_state WANT_HEADER c, k, (h, q))
  else
    match fuel with
    | O => None
    | S fuel =>
        x ← TAILQ_FIRST q;
        nd ← h !! x;
        let rest := m_rest (n_buf nd) in
        match sock_write c rest k with
        | None => None
        | Some (EWOULDBLOCK, c, k) => Some (0, retry_later WANT_WRITE c, k, (h, q))
        | Some (EIO, c, k) => Some (-1, set_state WANT_DISCONNECT c, k, (h, q))
        | Some (Bytes bs, c, k) =>
            if c_is_ssl c && (length bs =? 0)%nat then Some (0, retry_later WANT_SSL_WRITE c, k, (h, q))
            else if (length bs <? length rest)%nat then
              hq ← sent_part (advance bs) h q;
              Some (0, retry_later WANT_WRITE c, k, hq)
            else
              hq ← remove_first h q;
              write_queue fuel (set_retries 0 (set_wlist_size (c_wlist_size c - 1) c)) k hq.1 hq.2
        end
    end.

(** [pktsocket_write]; no queue is longer than the heap is large. *)
Definition pktsocket_write_queue c k h q : option (Z * cbuf * kernel * (heap * head)) :=
  if Z.of_nat MAX_SENDPACKET_RETRIES <? c_retries c then Some (-1, c, k, (h, q)) else write_queue (size h) c k h q.

(** [pktserv_send]. *)
Definition pktserv_send_queue (mem : bool) c k (pkt : list byte) h q : option (Z * cbuf * kernel * (heap * head)) :=
  if decide (c_state c = WANT_DISCONNECT ∨ c_state c = WANT_RAW_DISCONNECT) then Some (-1, c, k, (h, q))
  else
    let c := set_state WANT_WRITE c in
    if Z.of_nat MAX_SENDPACKET_QUEUE <=? c_wlist_size c then Some (-1, c, k, (h, q))
    else
      match msgbuf_alloc mem None (Z.of_nat (length pkt)) with
      | None => Some (-1, c, k, (h, q))
      | Some m =>
          hq ← enqueue (MsgBuf (m_sz m) (Z.of_nat (length pkt)) [] pkt) h q;
          let c := set_state WANT_WRITE (set_wlist_size (c_wlist_size c + 1) c) in
          match pktsocket_write_queue c k hq.1 hq.2 with
          | None => None
          | Some (r, c, k, hq) => if r <? 0 then Some (-1, set_state WANT_DISCONNECT c, k, hq) else Some (0, c, k, hq)
          end
      end.

(** ** The two descriptions agree *)

(** The connection with its queue as a list. *)
Definition with_list (l : list msgbuf) c : cbuf := set_wlist l (c_wlist_size c) c.

(** The same result, and the queue that is left holds the list that is left;
    the blocks that belong to no queue of this connection are as they were. *)
Definition agree h nl (r : option (Z * cbuf * kernel * (heap * head))) (r' : option (Z * cbuf * kernel)) : Prop :=
  match r, r' with
  | None, None => True
  | Some (z, c, k, (h', q)), Some (z', c', k') =>
      z' = z ∧ k' = k ∧ ∃ nl', queue h' q nl' ∧ c' = with_list nl'.*2 c ∧ others h' nl' = others h nl
  | _, _ => False
  end.

Lemma agree_same h q nl z c k c' : queue h q nl → c' = with_list nl.*2 c → agree h nl (Some (z, c, k, (h, q))) (Some (z, c', k)).
Proof. intros Hq ->. split; [done|]. split; [done|]. by exists nl. Qed.

Lemma agree_others h nl h' nl' r r' : others h' nl' = others h nl → agree h' nl' r r' → agree h nl r r'.
Proof.
  intros E. unfold agree. destruct r as [[[[z c] k] [h1 q1]]|], r' as [[[z' c'] k']|]; try done.
  intros (-> & -> & nl1 & H1 & H2 & H3). split; [done|]. split; [done|]. exists nl1. by rewrite H3.
Qed.

Lemma sock_write_list l c bs k :
  sock_write (with_list l c) bs k = '(r, c', k') ← sock_write c bs k; Some (r, with_list l c', k').
Proof.
  unfold sock_write, sslsocket_write. destruct c as [id fd state disp rbuf newmsg wlist size retries is_ssl con]. cbn.
  destruct is_ssl; [|by destruct (k_write bs k)]. destruct con; cbn; [|done]. destruct (SSL_write bs k) as [r k1].
  destruct (tw_count r); [|done]. by destruct (tw_error r), (tw_again r).
Qed.

Lemma write_queue_agree fuel c k h q nl :
  queue h q nl → (length nl ≤ fuel)%nat → agree h nl (write_queue fuel c k h q) (write_loop nl.*2 (with_list nl.*2 c) k).
Proof.
  revert c k h q nl. induction fuel as [|fuel IH]; intros c k h q [|[x m] nl] Hq Hf; cbn in Hf; try lia;
    cbn [write_queue fmap list_fmap write_loop]; rewrite (queue_empty _ _ _ Hq).
  1,2: rewrite bool_decide_true by done; by apply agree_same.
  rewrite bool_decide_false by done. pose proof Hq as [_ (Hfst & nx & Hx & _)]. unfold TAILQ_FIRST. rewrite Hfst. cbn [mbind option_bind].
  rewrite Hx. cbn [mbind option_bind n_buf]. change (m :: (snd <$> nl)) with ((x, m) :: nl).*2. rewrite sock_write_list.
  cbn [snd]. destruct (sock_write c (m_rest m) k) as [[[r c1] k1]|]; cbn [mbind option_bind]; [|done].
  destruct r as [bs| |]; [|by apply agree_same|by apply agree_same].
  change (c_is_ssl (with_list (m :: nl.*2) c1)) with (c_is_ssl c1). destruct (c_is_ssl c1 && _); [by apply agree_same|].
  destruct (length bs <? length (m_rest m))%nat.
  - destruct (sent_part_spec (advance bs) h q _ Hq) as (h' & q' & nl' & -> & H1 & H2 & H3). cbn [mbind option_bind].
    split; [done|]. split; [done|]. exists nl'. split; [done|]. split; [|done]. rewrite H2. by destruct c1.
  - destruct (remove_first_implements x m h q nl Hq) as (h' & q' & nl' & -> & H1 & H2 & H3). cbn [mbind option_bind fst snd].
    eapply agree_others; [exact H3|]. rewrite <-H2.
    replace (set_retries 0 (set_wlist _ _ _)) with (with_list nl'.*2 (set_retries 0 (set_wlist_size (c_wlist_size c1 - 1) c1))) by by destruct c1.
    apply IH; [done|]. rewrite <-(length_fmap snd nl'), H2, length_fmap. lia.
Qed.

Lemma pktsocket_write_agree c k h q nl :
  queue h q nl → agree h nl (pktsocket_write_queue c k h q) (pktsocket_write (with_list nl.*2 c) k).
Proof.
  intros Hq. unfold pktsocket_write_queue, pktsocket_write. change (c_retries (with_list nl.*2 c)) with (c_retries c).
  destruct (_ <? c_retries c); [by apply agree_same|]. apply write_queue_agree; [done|by eapply queue_length].
Qed.
End code.

(** ** Main property *)

(** C26: the send queue made of the macros of bsdqueue.h is the list that the model
    of a connection has.  Sending a packet and writing what is queued give the
    same results, the same bytes on the connection and the same queue, whatever
    the kernel or the TLS library does, and are defined in the same cases;
    dropping the queue of a lost connection ends with an empty one.  The buffers
    that leave the queue are freed, and every other block, the queues of the
    other connections among them, is as it was. *)
Theorem send_queue_agrees `{Malloc} mem c k pkt h q nl :
  queue h q nl →
  agree h nl (pktserv_send_queue mem c k pkt h q) (pktserv_send mem (with_list nl.*2 c) k pkt) ∧
  agree h nl (pktsocket_write_queue c k h q) (pktsocket_write (with_list nl.*2 c) k) ∧
  ∃ q', drain (size h) h q = Some (others h nl, q') ∧ queue (others h nl) q' [].
Proof.
  intros Hq. split; [|split; [by apply pktsocket_write_agree|]].
  - unfold pktserv_send_queue, pktserv_send. change (c_state (with_list nl.*2 c)) with (c_state c).
    destruct (decide (c_state c = WANT_DISCONNECT ∨ c_state c = WANT_RAW_DISCONNECT)); [by apply agree_same|].
    change (c_wlist_size (set_state WANT_WRITE (with_list nl.*2 c))) with (c_wlist_size (set_state WANT_WRITE c)).
    destruct (_ <=? _); [by apply agree_same|]. destruct (msgbuf_alloc _ _ _) as [m|]; [|by apply agree_same].
    set (m' := MsgBuf _ _ _ _). destruct (enqueue_spec m' h q nl Hq) as (h' & q' & nl' & -> & H1 & H2 & H3). cbn [mbind option_bind fst snd].
    set (c1 := set_state WANT_WRITE (set_wlist_size _ _)). eapply agree_others; [exact H3|].
    pose proof (pktsocket_write_agree c1 k h' q' nl' H1) as Ha. change (c_wlist (set_state WANT_WRITE (with_list nl.*2 c))) with nl.*2.
    replace (set_state WANT_WRITE (set_wlist (nl.*2 ++ [m']) _ _)) with (with_list nl'.*2 c1) by (rewrite H2; by destruct c).
    destruct (pktsocket_write_queue c1 k h' q') as [[[[z c2] k2] [h2 q2]]|], (pktsocket_write _ k) as [[[z' c3] k3]|]; try done.
    destruct Ha as (-> & -> & nl2 & G1 & -> & G3). destruct (z <? 0); (split; [done|]; split; [done|]; by exists nl2).
  - destruct (drain_spec (size h) h q nl Hq) as (h' & q' & nl' & E & H1 & H2 & H3); [by eapply queue_length|].
    destruct nl' as [|[x m] nl']; [|discriminate H2]. assert (h' = others h nl) as ->.
    { rewrite <-H3. apply map_eq. intros y. by rewrite lookup_others. }
    by exists q'.
Qed.

(** Two packets to a connection that takes nothing for now. *)
#[local] Program Instance next_block : Malloc := {| malloc h := (fresh (dom h), Node None LNull (MsgBuf 0 0 [] [])) |}.
Next Obligation. intros h. cbn. apply not_elem_of_dom, is_fresh. Qed.

Lemma send_queue_agrees_witness :
  ∃ c k h q nl, pktserv_send_queue true zero_cbuf (Kernel [] [] [] no_tls) (str "ab") ∅ zero_head = Some (0, c, k, (h, q)) ∧
    queue h q nl ∧ map m_rest nl.*2 = [str "ab"].
Proof.
  assert (queue ∅ zero_head []) as Hq by by split; [constructor|].
  destruct (send_queue_agrees true zero_cbuf (Kernel [] [] [] no_tls) (str "ab") ∅ zero_head [] Hq) as (Ha & _).
  destruct (pktserv_send_queue _ _ _ _ _ _) as [[[[z c] k] [h q]]|] eqn:E; [|destruct Ha].
  assert (z = 0) as -> by (vm_compute in E; by injection E as <-).
  destruct Ha as (_ & _ & nl & H1 & H2 & _). exists c, k, h, q, nl. split; [reflexivity|]. split; [exact H1|].
  apply (f_equal (λ c, map m_rest (c_wlist c))) in H2. symmetry. exact H2.
Defined.
