(* ===== verification/PktServ.v ===== *)
(** * The packet server (pktserv/pktserv.c)

    The poll set, the accepting of connections, the state machine that runs on
    each ready descriptor, and the main loop.  The server proper is reached through callbacks, which may do anything to the
    state.  The kernel's side (queued connections, readiness) is part of the
    state or of the arguments.  No result stands for undefined behaviour. *)

From Stdlib Require Import ZArith Lia.
From S2P Require Import Config Prelude Monad PktBuffers SslSocket PktSocket.

Local Open Scope Z_scope.
Local Open Scope icb_monad_scope.

(** ** State *)

Definition POLLIN : Z := 1.
Definition POLLOUT : Z := 4.
Definition POLLERR : Z := 8.
Definition POLLHUP : Z := 16.
Definition POLLNVAL : Z := 32.

Record pollfd : Type := Pollfd { p_fd : Z; p_events : Z; p_revents : Z }.

(** What [accept] meets: nothing, an error, a connection (and whether [fcntl]
    can make it non-blocking). *)
Inductive accept_slot : Type := ABlock | AError | AConn (fd : Z) (nonblocking : bool) (k : kernel).

(** The globals of pktserv.c, with the kernel's side of each descriptor and the
    state [upper] of the server behind the callbacks.  [g_pollset] is the whole
    allocated array, of which the first [g_pollsetsize] entries are in use. *)
Record net {U : Type} : Type := Net {
  cbufs : list (cbuf * kernel);
  g_pollset : list pollfd;
  g_pollsetsize : nat;
  accepts : list accept_slot;
  closed : list Z;
  upper : U
}.
Arguments net : clear implicits.

Section code.
Context `{BuildConfig} {U : Type}.
Notation st := (net U).
(** Whether memory is available. *)
Context (mem : bool).

Definition set_cbufs (x : list (cbuf * kernel)) (s : st) : st :=
  Net _ x (g_pollset s) (g_pollsetsize s) (accepts s) (closed s) (upper s).
Definition set_pollset (x : list pollfd) (n : nat) (s : st) : st :=
  Net _ (cbufs s) x n (accepts s) (closed s) (upper s).
Definition set_accepts (x : list accept_slot) (s : st) : st :=
  Net _ (cbufs s) (g_pollset s) (g_pollsetsize s) x (closed s) (upper s).
Definition set_closed (x : list Z) (s : st) : st :=
  Net _ (cbufs s) (g_pollset s) (g_pollsetsize s) (accepts s) x (upper s).

(** [cbufs[fd]], with an access outside the array undefined. *)
Definition conn (fd : Z) : M st (cbuf * kernel) := λ s,
  if fd <? 0 then None
  else match cbufs s !! Z.to_nat fd with Some c => Some (c, s) | None => None end.
Definition set_conn (fd : Z) (c : cbuf * kernel) : M st unit :=
  modify (λ s, set_cbufs (<[Z.to_nat fd := c]> (cbufs s)) s).
Definition upd_cbuf (fd : Z) (f : cbuf → cbuf) : M st unit :=
  '(c, k) <- conn fd ;; set_conn fd (f c, k).

(** *** The callbacks *)

Record callbacks : Type := Callbacks {
  cb_idle : option (M st unit);
  cb_dispatch : option (Z → list byte → M st unit);
  cb_new_client : option (Z → bool → M st unit);
  cb_lost_client : option (Z → M st unit);
  cb_ok2read : option (Z → M st bool)
}.

Definition no_callbacks : callbacks := Callbacks None None None None None.

(** The callbacks set by [pktserv_init]. *)
Definition pktserv_init_cb (g cb : callbacks) : callbacks :=
  let pick {A} (x y : option A) := match x with Some f => Some f | None => y end in
  Callbacks (pick (cb_idle cb) (cb_idle g)) (pick (cb_dispatch cb) (cb_dispatch g))
    (pick (cb_new_client cb) (cb_new_client g)) (pick (cb_lost_client cb) (cb_lost_client g))
    (pick (cb_ok2read cb) (cb_ok2read g)).

(** [cbufs_init]: a zeroed array, if there was none, then [cbufs_reset]. *)
Definition cbufs_init (old : option (list (cbuf * kernel))) : list (cbuf * kernel) :=
  map (λ ck, (cbuf_reset ck.1, ck.2))
    (match old with Some l => l | None => replicate MAX_USERS (zero_cbuf, Kernel [] [] [] no_tls) end).

Context (cb : callbacks).

(** *** The poll set *)

(** The index of a descriptor among the entries in use. *)
Definition poll_index (s : st) (fd : Z) : option nat :=
  find_index (λ p, p_fd p =? fd) (take (g_pollsetsize s) (g_pollset s)).

Definition set_events (i : nat) (ev : Z) (l : list pollfd) : list pollfd :=
  alter (λ p, Pollfd (p_fd p) ev (p_revents p)) i l.

Definition junk_pollfd : pollfd := Pollfd 0 0 0.

Definition add_pollfd (fd : Z) : M st Z := λ s,
  match poll_index s fd with
  | Some i => Some (0, set_pollset (set_events i POLLIN (g_pollset s)) (g_pollsetsize s) s)
  | None =>
      let n := g_pollsetsize s in
      let grown :=
        if (length (g_pollset s) =? 0)%nat then
          if mem then Some (replicate 16 junk_pollfd) else None
        else if (n =? length (g_pollset s))%nat then
          if mem then Some (g_pollset s ++ replicate (length (g_pollset s)) junk_pollfd) else None
        else Some (g_pollset s) in
      match grown with
      | None => Some (-1, s)
      | Some arr =>
          let arr := alter (λ p, Pollfd fd (p_events p) (p_revents p)) n arr in
          Some (0, set_pollset (set_events n POLLIN arr) (S n) s)
      end
  end.

(** The entries above the deleted one move down; the last place keeps what it
    held. *)
Definition delete_pollfd (fd : Z) : M st unit := λ s,
  match poll_index s fd with
  | None => Some (tt, s)
  | Some i =>
      let n := g_pollsetsize s in
      Some (tt, set_pollset
        (take i (g_pollset s) ++ drop (S i) (take n (g_pollset s)) ++ drop (n - 1) (g_pollset s)) (n - 1) s)
  end.

(** *** Connections *)

Definition handle_disconnect (fd : Z) : M st unit :=
  upd_cbuf fd (λ c, set_state WANT_RAW_DISCONNECT (set_wlist [] (c_wlist_size c) (set_rbuf None c))).

Definition handle_raw_disconnect (fd : Z) : M st unit :=
  '(c, k) <- conn fd ;;
  modify (λ s, set_closed (closed s ++ [c_fd c]) s) ;;
  set_conn fd (set_ssl_con false c, k_close k) ;;
  delete_pollfd (c_fd c) ;;
  upd_cbuf fd (set_state DISCONNECTED).

(** The connection buffer set up by [pktsocket_accept]. *)
Definition accepted_cbuf (ns : Z) (listen : SocketState) : cbuf :=
  let ssl := bool_decide (listen = LISTEN_SOCKET_SSL) in
  Cbuf 0 ns (if ssl then WANT_SSL_ACCEPT else ACCEPTED) OK None true [] 0 0 ssl false.

Definition pktsocket_accept (fd : Z) : M st Z :=
  '(l, _) <- conn fd ;;
  q <- gets accepts ;;
  modify (set_accepts (tail q)) ;;
  match q with
  | [] | ABlock :: _ => upd_cbuf fd (set_disp BLOCKED) ;; ret 0
  | AError :: _ => ret (-1)
  | AConn ns nonblocking k :: _ =>
      upd_cbuf fd (set_disp OK) ;;
      if Z.of_nat MAX_USERS <=? ns then
        modify (λ s, set_closed (closed s ++ [ns]) s) ;; ret (-1)
      else if negb nonblocking then ret (-1)
      else
        conn ns ;;
        set_conn ns (accepted_cbuf ns (c_state l), k) ;;
        add_pollfd ns ;; ret 0
  end.

Definition do_read (fd : Z) : M st unit :=
  '(c, k) <- conn fd ;;
  '(_, c, k) <- lift (pktsocket_read mem c k) ;;
  set_conn fd (c, k).

Definition do_write (fd : Z) : M st unit :=
  '(c, k) <- conn fd ;;
  '(_, c, k) <- lift (pktsocket_write c k) ;;
  set_conn fd (c, k).

Definition do_ssl_accept (fd : Z) : M st unit :=
  '(c, k) <- conn fd ;;
  let '(_, c, k) := sslsocket_accept c k in set_conn fd (c, k).

(** [pktserv_send] and [pktserv_disconnect] as the callbacks call them. *)
Definition net_send (fd : Z) (pkt : list byte) : M st Z :=
  '(c, k) <- conn fd ;;
  '(r, c, k) <- lift (pktserv_send mem c k pkt) ;;
  set_conn fd (c, k) ;; ret r.
Definition net_disconnect (fd : Z) : M st unit := upd_cbuf fd pktserv_disconnect.

(** *** The state machine *)

Definition call {A} (f : option A) (k : A → M st unit) : M st unit :=
  match f with Some g => k g | None => ret tt end.

(** The part of the cases [IDLE], [WANT_HEADER] and [WANT_READ] that reads. *)
Definition read_case (readable : bool) (fd : Z) : M st unit :=
  when readable (
    ok <- match cb_ok2read cb with Some f => f fd | None => ret true end ;;
    when ok (
      do_read fd ;;
      '(c, _) <- conn fd ;;
      match c_state c, cb_dispatch cb with
      | COMPLETE_PACKET, Some dispatch =>
          m <- lift (c_rbuf c) ;;
          dispatch fd (m_done m) ;;
          upd_cbuf fd (λ c, set_state WANT_HEADER (set_rbuf None c))
      | _, _ => ret tt
      end)) ;;
  '(c, _) <- conn fd ;;
  match c_wlist c with
  | [] => ret tt
  | _ => upd_cbuf fd (set_state WANT_WRITE)
  end.

(** One turn of the loop: [true] to go on, [false] to return. *)
Definition sm_step (readable writeable : bool) (fd : Z) : M st bool :=
  '(c, _) <- conn fd ;;
  match c_state c with
  | LISTEN_SOCKET | LISTEN_SOCKET_SSL => pktsocket_accept fd ;; ret false
  | ACCEPTED =>
      upd_cbuf fd (set_state WANT_HEADER) ;;
      call (cb_new_client cb) (λ f, f fd (c_is_ssl c)) ;; ret true
  | WANT_SSL_ACCEPT => when (readable || writeable) (do_ssl_accept fd) ;; ret false
  | WANT_SSL_READ => when (readable || writeable) (do_read fd) ;; ret false
  | WANT_SSL_WRITE => when (readable || writeable) (do_write fd) ;; ret false
  | WANT_WRITE =>
      when writeable (do_write fd) ;;
      '(c, _) <- conn fd ;;
      when (readable && bool_decide (c_state c = WANT_READ ∨ c_state c = WANT_HEADER))
        (upd_cbuf fd (set_disp OK)) ;;
      ret true
  | IDLE => when readable (upd_cbuf fd (set_state WANT_HEADER)) ;; read_case readable fd ;; ret false
  | WANT_HEADER | WANT_READ => read_case readable fd ;; ret false
  | WANT_DISCONNECT =>
      call (cb_lost_client cb) (λ f, f fd) ;;
      handle_disconnect fd ;; ret true
  | WANT_RAW_DISCONNECT => handle_raw_disconnect fd ;; ret true
  | DISCONNECTED => upd_cbuf fd (set_disp BLOCKED) ;; ret true
  | COMPLETE_PACKET => ret true
  end.

(** [while (cbuf->disp == OK)]: [Some None] when the fuel ran out. *)
Fixpoint sm_loop (fuel : nat) (r w : bool) (fd : Z) (s : st) : option (option st) :=
  match conn fd s with
  | None => None
  | Some ((c, _), s) =>
      if bool_decide (c_disp c = OK) then
        match fuel with
        | O => Some None
        | S fuel =>
            match sm_step r w fd s with
            | None => None
            | Some (true, s) => sm_loop fuel r w fd s
            | Some (false, s) => Some (Some s)
            end
        end
      else Some (Some s)
  end.

Definition has_bit (bits flag : Z) : bool := negb (Z.land bits flag =? 0).

Definition pollfd_state_machine (fuel : nat) (p : pollfd) (s : st) : option (option st) :=
  if Z.of_nat MAX_USERS <=? p_fd p then Some (Some s)
  else if has_bit (p_revents p) POLLERR || has_bit (p_revents p) POLLHUP || has_bit (p_revents p) POLLNVAL then
    match ('(c, _) <- conn (p_fd p) ;;
           (if bool_decide (c_state c = LISTEN_SOCKET ∨ c_state c = LISTEN_SOCKET_SSL) then ret tt
            else call (cb_lost_client cb) (λ f, f (c_fd c))) ;;
           handle_disconnect (p_fd p)) s with
    | None => None
    | Some (_, s) => Some (Some s)
    end
  else
    let readable := has_bit (p_revents p) POLLIN in
    let writeable := has_bit (p_revents p) POLLOUT in
    match when (readable || writeable) (upd_cbuf (p_fd p) (set_disp OK)) s with
    | None => None
    | Some (_, s) => sm_loop fuel readable writeable (p_fd p) s
    end.

(** The loop of [handle_pollfds] from index [i], for [n] entries. *)
Fixpoint pollfds_loop (fuel n i : nat) (s : st) : option (option st) :=
  match n with
  | O => Some (Some s)
  | S n =>
      match g_pollset s !! i with
      | None => None
      | Some p =>
          match pollfd_state_machine fuel p s with
          | Some (Some s) => pollfds_loop fuel n (S i) s
          | r => r
          end
      end
  end.

Definition handle_pollfds (fuel : nat) (s : st) : option (option st) :=
  pollfds_loop fuel (g_pollsetsize s) 0 s.

(** *** Idle time and events *)

Definition handle_idle : M st unit :=
  call (cb_idle cb) (λ f, f) ;;
  for_each (seq 0 MAX_USERS) (λ i,
    '(c, _) <- conn (Z.of_nat i) ;;
    if bool_decide (c_disp c = IGNORE) then
      ok2read <- lift (cb_ok2read cb) ;;
      ok <- ok2read (c_fd c) ;;
      if ok : bool then
        r <- add_pollfd (c_fd c) ;;
        if r =? 0 then upd_cbuf (Z.of_nat i) (set_disp OK) else ret tt
      else ret tt
    else ret tt).

Definition wants_pollout (x : SocketState) : bool :=
  match x with
  | ACCEPTED | WANT_WRITE | WANT_SSL_WRITE | WANT_SSL_ACCEPT | WANT_DISCONNECT | WANT_RAW_DISCONNECT => true
  | _ => false
  end.

Definition update_entry (s : st) (p : pollfd) : pollfd :=
  if (p_fd p <? 0) || (Z.of_nat MAX_USERS <=? p_fd p) then p
  else
    match cbufs s !! Z.to_nat (p_fd p) with
    | Some (c, _) =>
        Pollfd (p_fd p) (if wants_pollout (c_state c) then Z.lor POLLIN POLLOUT else POLLIN) (p_revents p)
    | None => p
    end.

Definition update_pollfd_events (s : st) : st :=
  let n := g_pollsetsize s in
  set_pollset (map (update_entry s) (take n (g_pollset s)) ++ drop n (g_pollset s)) n s.

(** What [poll] reports: its result and the events per entry. *)
Definition poll_fill (revs : list Z) (s : st) : st :=
  set_pollset (imap (λ i p, Pollfd (p_fd p) (p_events p) (default (p_revents p) (revs !! i))) (g_pollset s))
    (g_pollsetsize s) s.

(** One turn of [pktserv_run]: [ret] and the events reported by [poll], and
    whether an error was [EINTR]; the loop count is the second component. *)
Definition run_once (fuel : nat) (pret : Z) (eintr : bool) (revs : list Z) (loopcount : Z) (s : st)
    : option (option (st * Z)) :=
  let loopcount := loopcount + 1 in
  let s := poll_fill revs (update_pollfd_events s) in
  let pret := if (pret <? 0) && eintr then 0 else pret in
  match (if 0 <? pret then handle_pollfds fuel s else Some (Some s)) with
  | None => None
  | Some None => Some None
  | Some (Some s) =>
      if (0 <=? pret) || (Z.rem loopcount 10 =? 0) then
        match handle_idle s with Some (_, s) => Some (Some (s, 0)) | None => None end
      else Some (Some (s, loopcount))
  end.

(** [pktserv_addport] once the socket [fd] is bound and listening. *)
Definition addport_register (fd : Z) (is_ssl : bool) : M st Z :=
  if Z.of_nat MAX_USERS <=? fd then
    modify (λ s, set_closed (closed s ++ [fd]) s) ;; ret (-1)
  else
    upd_cbuf fd (λ c, Cbuf (c_id c) fd (if is_ssl then LISTEN_SOCKET_SSL else LISTEN_SOCKET) OK (c_rbuf c)
      (c_newmsg c) (c_wlist c) (c_wlist_size c) (c_retries c) (c_is_ssl c) (c_ssl_con c)) ;;
    add_pollfd fd ;; ret fd.

(** The numbers written by [pktserv_dumpsockets] before the two ports. *)
Definition pktserv_dumpsockets (s : st) : list Z :=
  Z.of_nat (g_pollsetsize s) :: map p_fd (take (g_pollsetsize s) (g_pollset s)).
End code.

Arguments callbacks {U}, U : assert.
Arguments Callbacks {U}.
Arguments no_callbacks {U}.

(** ** The poll set *)

Section pollset.
Context {U : Type}.
Implicit Types s : net U.

Definition active s : list pollfd := take (g_pollsetsize s) (g_pollset s).
Definition fds s : list Z := map p_fd (active s).

(** The entries in use fit the array and name distinct descriptors. *)
Definition pollset_ok s : Prop := (g_pollsetsize s ≤ length (g_pollset s))%nat ∧ NoDup (fds s).

Lemma poll_index_Some s fd i : poll_index s fd = Some i → fds s !! i = Some fd ∧ (i < g_pollsetsize s)%nat.
Proof.
  intros Hi. pose proof Hi as [(p & Hp & Hpf) _]%find_index_Some.
  apply find_index_lt in Hi. rewrite length_take in Hi. split; [|lia].
  unfold fds, active. rewrite list_lookup_fmap, Hp. simpl. f_equal. by apply Z.eqb_eq.
Qed.

Lemma poll_index_None s fd : poll_index s fd = None → fd ∉ fds s.
Proof.
  intros Hn (i & Hi)%list_elem_of_lookup. unfold fds in Hi. rewrite list_lookup_fmap in Hi.
  apply fmap_Some in Hi as (p & Hp & ->).
  apply (proj1 (find_index_None _ _)) with (i := i) (x := p) in Hn; [|done]. by rewrite Z.eqb_refl in Hn.
Qed.

Lemma fds_set_events s i ev :
  map p_fd (take (g_pollsetsize s) (set_events i ev (g_pollset s))) = fds s.
Proof.
  unfold fds, active, set_events. apply list_eq. intros j. rewrite !list_lookup_fmap, !lookup_take.
  destruct (decide (j < g_pollsetsize s)%nat); [|done].
  rewrite list_lookup_alter. destruct (decide (i = j)); [|done]. subst. by destruct (g_pollset s !! j).
Qed.

Lemma map_fd_take_alter (arr : list pollfd) n fd ev :
  (n < length arr)%nat →
  map p_fd (take (S n) (set_events n ev (alter (λ p, Pollfd fd (p_events p) (p_revents p)) n arr))) =
  map p_fd (take n arr) ++ [fd].
Proof.
  intros Hn. destruct (lookup_lt_is_Some_2 arr n Hn) as [p Hp]. unfold set_events.
  erewrite take_S_r.
  2:{ rewrite list_lookup_alter, decide_True by done. rewrite list_lookup_alter, decide_True by done. by rewrite Hp. }
  rewrite map_app. simpl. f_equal. apply list_eq. intros j. rewrite !list_lookup_fmap, !lookup_take.
  destruct (decide (j < n)%nat); [|done]. rewrite !list_lookup_alter.
  by destruct (decide (n = j)) as [->|]; [lia|].
Qed.

Lemma add_pollfd_ok mem s fd :
  pollset_ok s →
  ∃ r s', add_pollfd mem fd s = Some (r, s') ∧ pollset_ok s' ∧ cbufs s' = cbufs s ∧ upper s' = upper s ∧
    (mem = true → r = 0) ∧ (r = -1 ∧ s' = s ∨
      r = 0 ∧ fds s' = (if decide (fd ∈ fds s) then fds s else fds s ++ [fd])).
Proof.
  intros [Hsz Hnd]. unfold add_pollfd. destruct (poll_index s fd) as [i|] eqn:Ei.
  - apply poll_index_Some in Ei as [Hi Hlt]. do 2 eexists. split; [reflexivity|].
    assert (fds (set_pollset (set_events i POLLIN (g_pollset s)) (g_pollsetsize s) s) = fds s) as Hf
      by exact (fds_set_events s i POLLIN).
    split; [split; [unfold set_pollset, set_events; cbn [g_pollset g_pollsetsize]; by rewrite length_alter|by rewrite Hf]|].
    do 3 (split; [done|]). right. rewrite decide_True; [done|]. by eapply list_elem_of_lookup_2.
  - apply poll_index_None in Ei.
    set (grown := if (length (g_pollset s) =? 0)%nat then _ else _).
    assert (grown = None ∧ mem = false ∨ ∃ arr, grown = Some arr ∧ (g_pollsetsize s < length arr)%nat ∧
      take (g_pollsetsize s) arr = active s) as [[-> ->]|(arr & -> & Hlen & Hact)].
    { unfold grown, active. destruct (Nat.eqb_spec (length (g_pollset s)) 0) as [H0|H0].
      - destruct mem; [|by left]. right. eexists. split; [done|]. rewrite length_replicate.
        assert (g_pollsetsize s = 0)%nat as -> by lia. split; [lia|done].
      - destruct (Nat.eqb_spec (g_pollsetsize s) (length (g_pollset s))) as [Hn|Hn].
        + destruct mem; [|by left]. right. eexists. split; [done|]. rewrite length_app, length_replicate.
          split; [lia|]. rewrite take_app_le by lia. done.
        + right. eexists. split; [done|]. split; [lia|done]. }
    + do 2 eexists. split; [reflexivity|]. split_and!; try done. by left.
    + do 2 eexists. split; [reflexivity|].
      set (s' := set_pollset _ _ _). assert (fds s' = fds s ++ [fd]) as Hf.
      { unfold fds, active, s'. cbn [g_pollset g_pollsetsize set_pollset].
        rewrite map_fd_take_alter by done. by rewrite Hact. }
      split; [split|].
      * unfold s', set_pollset, set_events. cbn [g_pollset g_pollsetsize]. rewrite !length_alter. lia.
      * rewrite Hf. apply NoDup_app. split_and!; [done| |apply NoDup_singleton]. intros x Hx ->%list_elem_of_singleton. done.
      * do 3 (split; [done|]). right. by rewrite decide_False.
Qed.

Lemma filter_neq_delete (l : list Z) i x :
  NoDup l → l !! i = Some x → filter (λ y, y ≠ x) l = take i l ++ drop (S i) l.
Proof.
  intros Hn Hi. rewrite <-(take_drop_middle l i x Hi) at 1. rewrite <-(take_drop_middle l i x Hi) in Hn.
  apply NoDup_app in Hn as (Hn1 & Hn2 & [Hn3 _]%NoDup_cons).
  rewrite filter_app, filter_cons_False by tauto. f_equal; apply filter_all.
  - intros y Hy ->. apply (Hn2 x Hy). by left.
  - intros y Hy ->. done.
Qed.

Lemma delete_pollfd_ok s fd :
  pollset_ok s →
  ∃ s', delete_pollfd fd s = Some (tt, s') ∧ pollset_ok s' ∧ cbufs s' = cbufs s ∧ upper s' = upper s ∧
    closed s' = closed s ∧ fds s' = filter (λ x, x ≠ fd) (fds s).
Proof.
  intros [Hsz Hnd]. unfold delete_pollfd. destruct (poll_index s fd) as [i|] eqn:Ei.
  - apply poll_index_Some in Ei as [Hi Hlt]. eexists. split; [reflexivity|]. set (s' := set_pollset _ _ _).
    assert (fds s' = filter (λ x, x ≠ fd) (fds s)) as Hf.
    { rewrite (filter_neq_delete _ i) by done. unfold fds, active, s'. cbn [g_pollset g_pollsetsize set_pollset].
      rewrite app_assoc, take_app_le by (rewrite length_app, length_drop, !length_take; lia).
      rewrite take_ge by (rewrite length_app, length_drop, !length_take; lia).
      rewrite map_app. f_equal; [|by rewrite skipn_map].
      rewrite firstn_map, take_take, Nat.min_l by lia. done. }
    split; [split|].
    + unfold s', set_pollset. cbn [g_pollset g_pollsetsize].
      rewrite !length_app, length_take, length_drop, length_take, length_drop. lia.
    + rewrite Hf. by apply NoDup_filter.
    + done.
  - apply poll_index_None in Ei. exists s. split_and!; try done. symmetry. apply filter_all.
    intros x Hx ->. done.
Qed.
End pollset.

(** ** The connection of a descriptor *)

Section conn.
Context `{BuildConfig} {U : Type}.
Implicit Types s : net U.

(** The entry of descriptor [fd]. *)
Definition at_fd s (fd : Z) (ck : cbuf * kernel) : Prop := 0 ≤ fd ∧ cbufs s !! Z.to_nat fd = Some ck.

Lemma conn_at s fd ck : at_fd s fd ck → conn fd s = Some (ck, s).
Proof. intros [H0 Hl]. unfold conn. destruct (Z.ltb_spec fd 0); [lia|]. by rewrite Hl. Qed.

Lemma at_set s fd ck ck' : at_fd s fd ck → at_fd (set_cbufs (<[Z.to_nat fd := ck']> (cbufs s)) s) fd ck'.
Proof.
  intros [H0 Hl]. split; [done|]. cbn. apply list_lookup_insert_eq. by eapply lookup_lt_Some.
Qed.

Lemma upd_cbuf_at s fd c k f :
  at_fd s fd (c, k) → upd_cbuf fd f s = Some (tt, set_cbufs (<[Z.to_nat fd := (f c, k)]> (cbufs s)) s).
Proof. intros Ha. unfold upd_cbuf, bind. rewrite (conn_at _ _ _ Ha). done. Qed.

Lemma set_same s fd ck : at_fd s fd ck → set_cbufs (<[Z.to_nat fd := ck]> (cbufs s)) s = s.
Proof. intros [_ Hl]. rewrite list_insert_id by done. by destruct s. Qed.
End conn.

(** A cleartext connection whose socket takes nothing stays as it is, but for
    the count of retries. *)
Lemma pktsocket_write_blocked c k :
  c_is_ssl c = false → c_wlist c ≠ [] → k_wr k = [] →
  ∃ r c', pktsocket_write c k = Some (r, c', k) ∧ (c' = c ∨ c' = retry_later WANT_WRITE c).
Proof.
  intros Hc Hw Hk. unfold pktsocket_write. destruct (Z.of_nat MAX_SENDPACKET_RETRIES <? c_retries c); [by do 2 eexists; auto|].
  destruct (c_wlist c) as [|m l]; [done|]. cbn [write_loop]. unfold sock_write, k_write. rewrite Hc, Hk.
  do 2 eexists. auto.
Qed.

(** ** Main properties *)

(** The poll set never lists a descriptor twice and stays inside its
    array; [add_pollfd] adds exactly the descriptor (and fails only for lack of
    memory, changing nothing), [delete_pollfd] removes exactly it and keeps the
    order of the others. *)
Theorem pollset_ops {U} mem (s : net U) fd :
  pollset_ok s →
  (∃ r s', add_pollfd mem fd s = Some (r, s') ∧ pollset_ok s' ∧ (mem = true → r = 0) ∧
     (r = -1 ∧ s' = s ∨ r = 0 ∧ fds s' = (if decide (fd ∈ fds s) then fds s else fds s ++ [fd]))) ∧
  (∃ s', delete_pollfd fd s = Some (tt, s') ∧ pollset_ok s' ∧ fds s' = filter (λ x, x ≠ fd) (fds s)).
Proof.
  intros Hok. split.
  - destruct (add_pollfd_ok mem s fd Hok) as (r & s' & E & Hok' & _ & _ & Hm & Hr). by exists r, s'.
  - destruct (delete_pollfd_ok s fd Hok) as (s' & E & Hok' & _ & _ & _ & Hf). by exists s'.
Qed.

Definition example_net : net unit :=
  Net _ (replicate 8 (zero_cbuf, Kernel [] [] [] no_tls)) [Pollfd 3 1 0; Pollfd 5 1 0] 2 [] [] tt.

Lemma example_net_ok : pollset_ok example_net.
Proof. split; [vm_compute; lia|by apply (bool_decide_unpack _)]. Qed.

Lemma pollset_ops_witness :
  (∃ s', delete_pollfd 3 example_net = Some (tt, s') ∧ pollset_ok s' ∧ fds s' = [5]).
Proof. exact (proj2 (pollset_ops true example_net 3 example_net_ok)). Defined.

(** A connection with unsent data that is readable but not writable makes
    the state machine loop for ever: no amount of turns ends it. *)
Theorem state_machine_spins_unwritable `{BuildConfig} {U} mem cb (s : net U) fd c k :
  at_fd s fd (c, k) → c_state c = WANT_WRITE → c_disp c = OK →
  ∀ fuel, sm_loop mem cb fuel true false fd s = Some None.
Proof.
  intros Ha Hs Hd fuel. induction fuel as [|fuel IH]; cbn [sm_loop]; rewrite (conn_at _ _ _ Ha), Hd;
    rewrite bool_decide_true by done; [done|].
  unfold sm_step, bind. rewrite (conn_at _ _ _ Ha), Hs. cbn [when ret]. rewrite (conn_at _ _ _ Ha), Hs.
  rewrite bool_decide_false by (intros [?|?]; done). exact IH.
Qed.

(** A small build, for examples. *)
#[local] Instance small_build : BuildConfig := {| MAX_USERS := 8; MAX_USERS_min := ltac:(lia) |}.

(** A connection with one unsent packet. *)
Definition blocked_cbuf : cbuf :=
  Cbuf 0 5 WANT_WRITE OK None true [MsgBuf 3 3 [] (str "abc")] 1 0 false false.
Definition blocked_net : net unit :=
  Net _ (<[5%nat := (blocked_cbuf, Kernel [Data (str "x")] [] [] no_tls)]> (replicate 8 (zero_cbuf, Kernel [] [] [] no_tls)))
    [Pollfd 5 5 1] 1 [] [] tt.

Lemma state_machine_spins_unwritable_witness :
  at_fd blocked_net 5 (blocked_cbuf, Kernel [Data (str "x")] [] [] no_tls) ∧
  ∀ fuel, sm_loop true no_callbacks fuel true false 5 blocked_net = Some None.
Proof.
  split; [split; [lia|reflexivity]|]. apply (state_machine_spins_unwritable true no_callbacks blocked_net 5 blocked_cbuf (Kernel [Data (str "x")] [] [] no_tls));
    [split; [lia|reflexivity]|reflexivity|reflexivity].
Defined.

(** The same happens on a writable connection whose socket takes no more
    data: the retry limit makes [pktsocket_write] give up without changing the
    state, and the loop goes on for ever. *)
Theorem state_machine_spins_blocked `{BuildConfig} {U} mem cb (s : net U) fd c k readable :
  at_fd s fd (c, k) → c_state c = WANT_WRITE → c_disp c = OK → c_is_ssl c = false → c_wlist c ≠ [] → k_wr k = [] →
  ∀ fuel, sm_loop mem cb fuel readable true fd s = Some None.
Proof.
  intros Ha Hs Hd Hc Hw Hk fuel. revert s c k Ha Hs Hd Hc Hw Hk.
  induction fuel as [|fuel IH]; intros s c k Ha Hs Hd Hc Hw Hk; cbn [sm_loop]; rewrite (conn_at _ _ _ Ha), Hd;
    rewrite bool_decide_true by done; [done|].
  unfold sm_step, bind. rewrite (conn_at _ _ _ Ha), Hs. cbn [when]. unfold do_write at 1, bind.
  rewrite (conn_at _ _ _ Ha). destruct (pktsocket_write_blocked c k Hc Hw Hk) as (r & c' & -> & Hcs). cbn [lift].
  assert (c_state c' = WANT_WRITE ∧ c_disp c' = OK ∧ c_is_ssl c' = false ∧ c_wlist c' ≠ []) as (Hs' & Hd' & Hc' & Hw')
    by (by destruct Hcs as [->| ->]).
  unfold set_conn at 1, modify. pose proof (at_set s fd (c, k) (c', k) Ha) as Ha'.
  rewrite (conn_at _ _ _ Ha'), Hs', bool_decide_false by (intros [?|?]; done). rewrite andb_false_r. cbn [when ret].
  eapply IH; done.
Qed.

Lemma state_machine_spins_blocked_witness :
  at_fd blocked_net 5 (blocked_cbuf, Kernel [Data (str "x")] [] [] no_tls) ∧
  ∀ fuel, sm_loop true no_callbacks fuel false true 5 blocked_net = Some None.
Proof.
  split; [split; [lia|reflexivity]|]. apply (state_machine_spins_blocked true no_callbacks blocked_net 5 blocked_cbuf (Kernel [Data (str "x")] [] [] no_tls));
    [split; [lia|reflexivity]|reflexivity|reflexivity|reflexivity|discriminate|reflexivity].
Defined.

(** What is asked of the callback that is told of a lost client: it ends, and
    does not touch the poll set, the log of closed descriptors, or the
    descriptor and disposition of the connection. *)
Definition quiet {U} (f : Z → M (net U) unit) : Prop :=
  ∀ s fd c k, at_fd s fd (c, k) →
    ∃ s' c' k', f fd s = Some (tt, s') ∧ at_fd s' fd (c', k') ∧ c_fd c' = c_fd c ∧ c_disp c' = c_disp c ∧
      g_pollset s' = g_pollset s ∧ g_pollsetsize s' = g_pollsetsize s ∧ closed s' = closed s.

Lemma quiet_call {U} (f : option (Z → M (net U) unit)) s fd c k :
  (∀ g, f = Some g → quiet g) → at_fd s fd (c, k) →
  ∃ s' c' k', call f (λ g, g fd) s = Some (tt, s') ∧ at_fd s' fd (c', k') ∧ c_fd c' = c_fd c ∧ c_disp c' = c_disp c ∧
    g_pollset s' = g_pollset s ∧ g_pollsetsize s' = g_pollsetsize s ∧ closed s' = closed s.
Proof.
  intros Hf Ha. destruct f as [g|]; cbn; [exact (Hf g eq_refl s fd c k Ha)|]. by exists s, c, k.
Qed.

(** The release of a connection that is marked for it: the descriptor is closed
    and leaves the poll set, nothing else is touched, and the loop ends. *)
Lemma raw_disconnect_completes `{BuildConfig} {U} mem cb (s : net U) fd c k r w n :
  at_fd s fd (c, k) → c_state c = WANT_RAW_DISCONNECT → c_disp c = OK → c_fd c = fd → pollset_ok s →
  ∃ s', sm_loop mem cb (2 + n) r w fd s = Some (Some s') ∧
    at_fd s' fd (set_disp BLOCKED (set_state DISCONNECTED (set_ssl_con false c)), k_close k) ∧ upper s' = upper s ∧
    closed s' = closed s ++ [fd] ∧ fds s' = filter (λ x, x ≠ fd) (fds s) ∧ ∀ i x, i ≠ fd → at_fd s i x → at_fd s' i x.
Proof.
  intros Ha Hs Hd Hf Hok. cbn [Nat.add].
  set (c3 := set_ssl_con false c). set (k3 := k_close k).
  set (s3 := set_cbufs (<[Z.to_nat fd := (c3, k3)]> (cbufs s)) (set_closed (closed s ++ [fd]) s)).
  assert (at_fd (set_closed (closed s ++ [fd]) s) fd (c, k)) as Ha' by exact Ha.
  pose proof (at_set _ fd _ (c3, k3) Ha' : at_fd s3 fd (c3, k3)) as Ha3.
  destruct (delete_pollfd_ok s3 fd (Hok : pollset_ok s3)) as (s4 & E4 & Hok4 & Hcb4 & Hup4 & Hcl4 & Hf4).
  assert (at_fd s4 fd (c3, k3)) as Ha4. { destruct Ha3 as [? ?]. split; [done|]. by rewrite Hcb4. }
  set (s5 := set_cbufs (<[Z.to_nat fd := (set_state DISCONNECTED c3, k3)]> (cbufs s4)) s4).
  assert (at_fd s5 fd (set_state DISCONNECTED c3, k3)) as Ha5 by by eapply at_set.
  assert (sm_step mem cb r w fd s = Some (true, s5)) as St2.
  { unfold sm_step, bind. rewrite (conn_at _ _ _ Ha), Hs.
    unfold handle_raw_disconnect, bind. rewrite (conn_at _ _ _ Ha). cbn [modify].
    rewrite Hf. unfold set_conn, modify. cbn [set_closed cbufs]. fold c3 k3 s3.
    rewrite E4, (upd_cbuf_at _ _ _ _ _ Ha4). done. }
  set (s6 := set_cbufs (<[Z.to_nat fd := (set_disp BLOCKED (set_state DISCONNECTED c3), k3)]> (cbufs s5)) s5).
  assert (at_fd s6 fd (set_disp BLOCKED (set_state DISCONNECTED c3), k3)) as Ha6 by by eapply at_set.
  assert (sm_step mem cb r w fd s5 = Some (true, s6)) as St3.
  { unfold sm_step, bind. rewrite (conn_at _ _ _ Ha5). cbn [c_state set_state].
    rewrite (upd_cbuf_at _ _ _ _ _ Ha5). done. }
  exists s6. split; [|split_and!; try done].
  - cbn [sm_loop]. rewrite (conn_at _ _ _ Ha), Hd, bool_decide_true, St2 by done.
    rewrite (conn_at _ _ _ Ha5), St3. cbn [c_disp c3 set_ssl_con set_state]. rewrite Hd, bool_decide_true by done.
    destruct n; cbn [sm_loop]; rewrite (conn_at _ _ _ Ha6); done.
  - intros i x Hne [Hi Hl]. destruct Ha as [Hfd _]. split; [done|]. unfold s6, s5. cbn.
    rewrite !list_lookup_insert_ne, Hcb4 by lia. unfold s3. cbn. by rewrite !list_lookup_insert_ne by lia.
Qed.

(** C27: a connection to be disconnected is disconnected.  Provided that the
    report to the upper layer returns and leaves the descriptor of the
    connection as it is, the state machine ends within four turns, and what it
    has done is exactly one report of the lost client and then the
    release of the connection: the upper layer and all other connections
    are as that one report left them, the buffers of the connection are
    released, its descriptor is closed and out of the poll set, and the
    connection is marked as disconnected. *)
Theorem disconnect_completes `{BuildConfig} {U} mem cb (s s1 : net U) fd c k c1 k1 r w n :
  at_fd s fd (c, k) → c_state c = WANT_DISCONNECT → c_disp c = OK →
  call (cb_lost_client cb) (λ f, f fd) s = Some (tt, s1) →
  at_fd s1 fd (c1, k1) → c_fd c1 = fd → c_disp c1 = OK → pollset_ok s1 →
  ∃ s' c' k', sm_loop mem cb (3 + n) r w fd s = Some (Some s') ∧ at_fd s' fd (c', k') ∧
    c_state c' = DISCONNECTED ∧ c_rbuf c' = None ∧ c_wlist c' = [] ∧ upper s' = upper s1 ∧
    closed s' = closed s1 ++ [fd] ∧ fds s' = filter (λ x, x ≠ fd) (fds s1) ∧
    ∀ i x, i ≠ fd → at_fd s1 i x → at_fd s' i x.
Proof.
  intros Ha Hs Hd E1 Ha1 Hf1 Hd1 Hok.
  set (c2 := set_state WANT_RAW_DISCONNECT (set_wlist [] (c_wlist_size c1) (set_rbuf None c1))).
  set (s2 := set_cbufs (<[Z.to_nat fd := (c2, k1)]> (cbufs s1)) s1).
  assert (at_fd s2 fd (c2, k1)) as Ha2 by by eapply at_set.
  assert (sm_step mem cb r w fd s = Some (true, s2)) as St1.
  { unfold sm_step, bind. rewrite (conn_at _ _ _ Ha), Hs, E1. unfold handle_disconnect.
    rewrite (upd_cbuf_at _ _ _ _ _ Ha1). done. }
  destruct (raw_disconnect_completes mem cb s2 fd c2 k1 r w n Ha2) as (s' & E & Ha' & Hu & Hc & Hf & Ho); [done..|].
  exists s'. do 2 eexists. split; [|split; [exact Ha'|]].
  - change (3 + n)%nat with (S (2 + n)). cbn [sm_loop]. by rewrite (conn_at _ _ _ Ha), Hd, bool_decide_true, St1.
  - split_and!; try done. intros i x Hne [Hi Hl]. apply Ho; [done|]. destruct Ha1 as [Hfd _]. split; [done|].
    unfold s2. cbn. by rewrite list_lookup_insert_ne by lia.
Qed.

(** A connection marked for disconnection. *)
Definition dying_net : net unit :=
  Net _ (<[5%nat := (set_state WANT_DISCONNECT blocked_cbuf, Kernel [] [] [] no_tls)]>
    (replicate 8 (zero_cbuf, Kernel [] [] [] no_tls))) [Pollfd 3 1 0; Pollfd 5 5 4] 2 [] [] tt.

Lemma dying_net_at : at_fd dying_net 5 (set_state WANT_DISCONNECT blocked_cbuf, Kernel [] [] [] no_tls).
Proof. split; [lia|reflexivity]. Qed.

(** The same with an upper layer that counts the clients it has lost. *)
Definition counting_callbacks : callbacks (U := nat) :=
  Callbacks None None None (Some (λ _, modify (λ s, Net _ (cbufs s) (g_pollset s) (g_pollsetsize s) (accepts s) (closed s) (S (upper s))))) None.
Definition dying_counted : net nat :=
  Net _ (cbufs dying_net) (g_pollset dying_net) (g_pollsetsize dying_net) [] [] 0%nat.

Lemma disconnect_completes_witness :
  ∃ s' c' k', sm_loop true counting_callbacks 3 false true 5 dying_counted = Some (Some s') ∧ at_fd s' 5 (c', k') ∧
    c_state c' = DISCONNECTED ∧ upper s' = 1%nat ∧ closed s' = [5] ∧ fds s' = [3].
Proof.
  destruct (disconnect_completes true counting_callbacks dying_counted
    (Net _ (cbufs dying_net) (g_pollset dying_net) (g_pollsetsize dying_net) [] [] 1%nat) 5 (set_state WANT_DISCONNECT blocked_cbuf)
    (Kernel [] [] [] no_tls) (set_state WANT_DISCONNECT blocked_cbuf) (Kernel [] [] [] no_tls) false true 0)
    as (s' & c' & k' & E & Ha & Hst & _ & _ & Hu & Hc & Hf & _);
    [split; [lia|reflexivity]|reflexivity|reflexivity|reflexivity|split; [lia|reflexivity]|reflexivity|reflexivity| |].
  - split; [vm_compute; lia|by apply (bool_decide_unpack _)].
  - exists s', c', k'. split; [exact E|]. split; [exact Ha|]. split; [exact Hst|]. split; [exact Hu|]. split; [exact Hc|].
    rewrite Hf. vm_compute. reflexivity.
Defined.

(** A descriptor that reports a hang-up or an error is never closed nor
    taken out of the poll set while the condition lasts: each report tells the
    upper layer again and returns before the state that closes it is run. *)
Theorem hangup_never_closed `{BuildConfig} {U} mem cb (s : net U) p c k fuel :
  at_fd s (p_fd p) (c, k) → p_fd p < Z.of_nat MAX_USERS → c_fd c = p_fd p →
  has_bit (p_revents p) POLLHUP = true → (∀ g, cb_lost_client cb = Some g → quiet g) →
  ∃ s' c' k', pollfd_state_machine mem cb fuel p s = Some (Some s') ∧ at_fd s' (p_fd p) (c', k') ∧
    c_state c' = WANT_RAW_DISCONNECT ∧ fds s' = fds s ∧ closed s' = closed s ∧ c_fd c' = p_fd p.
Proof.
  intros Ha Hlt Hfd Hhup Hcb. unfold pollfd_state_machine.
  destruct (Z.leb_spec (Z.of_nat MAX_USERS) (p_fd p)); [lia|].
  rewrite Hhup, orb_true_r. cbn [orb]. unfold bind at 1. rewrite (conn_at _ _ _ Ha).
  assert (∃ s1 c1 k1, (if bool_decide (c_state c = LISTEN_SOCKET ∨ c_state c = LISTEN_SOCKET_SSL) then ret tt
      else call (cb_lost_client cb) (λ f, f (c_fd c))) s = Some (tt, s1) ∧ at_fd s1 (p_fd p) (c1, k1) ∧
      c_fd c1 = c_fd c ∧ g_pollset s1 = g_pollset s ∧ g_pollsetsize s1 = g_pollsetsize s ∧ closed s1 = closed s)
    as (s1 & c1 & k1 & E1 & Ha1 & Hf1 & Hp1 & Hn1 & Hc1).
  { destruct (bool_decide _); [by exists s, c, k|]. rewrite Hfd.
    destruct (quiet_call (cb_lost_client cb) s (p_fd p) c k Hcb Ha) as (s1 & c1 & k1 & ? & ? & ? & ? & ? & ? & ?).
    exists s1, c1, k1. split_and!; try done. congruence. }
  unfold bind. rewrite E1. unfold handle_disconnect. rewrite (upd_cbuf_at _ _ _ _ _ Ha1).
  do 3 eexists. split; [reflexivity|]. split; [by eapply at_set|]. cbn. unfold fds, active. cbn.
  rewrite Hp1, Hn1, Hc1. split_and!; try done. congruence.
Qed.

Lemma hangup_never_closed_witness :
  ∃ s' c' k', pollfd_state_machine true no_callbacks 9 (Pollfd 5 5 (POLLHUP + POLLIN)) dying_net = Some (Some s') ∧
    at_fd s' 5 (c', k') ∧ c_state c' = WANT_RAW_DISCONNECT ∧ fds s' = fds dying_net ∧ closed s' = [] ∧ c_fd c' = 5.
Proof.
  apply (hangup_never_closed true no_callbacks dying_net (Pollfd 5 5 (POLLHUP + POLLIN))
    (set_state WANT_DISCONNECT blocked_cbuf) (Kernel [] [] [] no_tls) 9 dying_net_at); try reflexivity. discriminate.
Defined.

(** After a packet has been dispatched the connection goes back to reading
    (or writing) whatever the server did to it: a disconnection that the handler
    of the packet asked for is forgotten. *)
Theorem dispatch_forgets_disconnect `{BuildConfig} {U} mem cb dispatch (s s1 s2 : net U) fd c1 k1 c2 k2 m :
  cb_ok2read cb = None → cb_dispatch cb = Some dispatch →
  do_read mem fd s = Some (tt, s1) → at_fd s1 fd (c1, k1) → c_state c1 = COMPLETE_PACKET → c_rbuf c1 = Some m →
  dispatch fd (m_done m) s1 = Some (tt, s2) → at_fd s2 fd (c2, k2) →
  ∃ s3 c3, read_case mem cb true fd s = Some (tt, s3) ∧ at_fd s3 fd (c3, k2) ∧
    c_state c3 = match c_wlist c2 with [] => WANT_HEADER | _ => WANT_WRITE end.
Proof.
  intros Hok Hdis Hr Ha1 Hs1 Hm Hd Ha2. unfold read_case. rewrite Hok, Hdis. cbn [when]. unfold bind at 1 2 3.
  cbn [ret when]. unfold bind at 1. rewrite Hr. unfold bind at 1. rewrite (conn_at _ _ _ Ha1), Hs1, Hm.
  unfold bind at 1. cbn [lift]. unfold bind at 1. rewrite Hd, (upd_cbuf_at _ _ _ _ _ Ha2).
  set (c3 := set_state WANT_HEADER (set_rbuf None c2)).
  pose proof (at_set s2 fd (c2, k2) (c3, k2) Ha2) as Ha3. unfold bind. rewrite (conn_at _ _ _ Ha3).
  cbn [c_wlist c3 set_state set_rbuf]. destruct (c_wlist c2).
  - do 2 eexists. split; [reflexivity|]. split; [exact Ha3|]. done.
  - rewrite (upd_cbuf_at _ _ _ _ _ Ha3). do 2 eexists. split; [reflexivity|]. split; [by eapply at_set|]. done.
Qed.

(** A server that disconnects whoever sends a packet. *)
Definition kick_callbacks : callbacks (U := unit) :=
  Callbacks None (Some (λ fd _, net_disconnect fd)) None None None.
Definition reading_net : net unit :=
  Net _ (<[5%nat := (set_state WANT_HEADER (Cbuf 0 5 WANT_HEADER OK None true [] 0 0 false false),
    Kernel [Data [x01; "q"]%byte] [] [] no_tls)]> (replicate 8 (zero_cbuf, Kernel [] [] [] no_tls))) [Pollfd 5 1 1] 1 [] [] tt.

Lemma dispatch_forgets_disconnect_witness :
  ∃ s3 c3 k3, read_case true kick_callbacks true 5 reading_net = Some (tt, s3) ∧ at_fd s3 5 (c3, k3) ∧
    c_state c3 = WANT_HEADER.
Proof.
  destruct (do_read true 5 reading_net) as [[[] s1]|] eqn:E1; [|vm_compute in E1; discriminate].
  destruct (net_disconnect 5 s1) as [[[] s2]|] eqn:E2;
    [|vm_compute in E1; injection E1 as <-; vm_compute in E2; discriminate].
  vm_compute in E1. pose proof E1 as Es1. injection Es1 as Es1. vm_compute in E2. rewrite <-Es1 in E2.
  vm_compute in E2. pose proof E2 as Es2. injection Es2 as Es2.
  edestruct (dispatch_forgets_disconnect true kick_callbacks (λ fd _, net_disconnect fd) reading_net s1 s2 5)
    as (s3 & c3 & H1 & H2 & H3); [reflexivity|reflexivity|vm_compute; exact E1| | | | | |].
  - rewrite <-Es1. split; [lia|reflexivity].
  - reflexivity.
  - reflexivity.
  - rewrite <-Es1. vm_compute. exact E2.
  - rewrite <-Es2. split; [lia|reflexivity].
  - exists s3, c3. eexists. split; [exact H1|]. split; [exact H2|exact H3].
Defined.

(** Before each [poll], write readiness is requested for exactly the
    connections that are new, have something to send or are to be
    disconnected, and read readiness for all. *)
Theorem update_events_correct `{BuildConfig} {U} (s : net U) i p c k :
  length (cbufs s) = MAX_USERS → active s !! i = Some p → at_fd s (p_fd p) (c, k) →
  ∃ p', active (update_pollfd_events s) !! i = Some p' ∧ p_fd p' = p_fd p ∧
    has_bit (p_events p') POLLIN = true ∧ has_bit (p_events p') POLLOUT = wants_pollout (c_state c).
Proof.
  intros Hlen Hi [H0 Hc]. unfold active, update_pollfd_events. cbn [g_pollset g_pollsetsize set_pollset].
  assert (i < length (map (update_entry s) (take (g_pollsetsize s) (g_pollset s))))%nat as Hlt.
  { rewrite length_map. by eapply lookup_lt_Some. }
  rewrite length_map in Hlt. pose proof Hlt as Hlt'. rewrite length_take in Hlt'.
  rewrite lookup_take, decide_True by lia. rewrite lookup_app_l by (by rewrite length_map).
  rewrite list_lookup_fmap. unfold active in Hi. rewrite Hi. eexists. split; [reflexivity|].
  unfold update_entry. destruct (Z.ltb_spec (p_fd p) 0); [lia|].
  pose proof (lookup_lt_Some _ _ _ Hc). destruct (Z.leb_spec (Z.of_nat MAX_USERS) (p_fd p)); [lia|]. cbn [orb].
  rewrite Hc. cbn [p_fd p_events]. split; [done|]. by destruct (wants_pollout (c_state c)).
Qed.

Lemma update_events_correct_witness :
  ∃ p', active (update_pollfd_events dying_net) !! 1%nat = Some p' ∧ p_fd p' = 5 ∧
    has_bit (p_events p') POLLIN = true ∧ has_bit (p_events p') POLLOUT = true.
Proof.
  exact (update_events_correct dying_net 1 (Pollfd 5 5 4) (set_state WANT_DISCONNECT blocked_cbuf)
    (Kernel [] [] [] no_tls) eq_refl eq_refl dying_net_at).
Defined.
