(* ===== verification/Ports.v ===== *)
(** * Opening a port (pktserv/pktserv.c, pktserv_addport)

    The addresses of the host are tried in turn, those of IPv6 first, until one
    can be bound; its socket becomes a listening connection.  What the calls of
    the system do is given for each address. *)

From Stdlib Require Import ZArith Lia.
From S2P Require Import Config Prelude Monad PktBuffers SslSocket PktSocket PktServ.

Local Open Scope Z_scope.
Local Open Scope icb_monad_scope.

Inductive family : Type := AF_INET | AF_INET6 | AF_OTHER.
#[global] Instance family_eq_dec : EqDecision family.
Proof. solve_decision. Defined.

(** An address that [getaddrinfo] returns: its family, the descriptor that
    [socket] makes for it, whether IPV6_V6ONLY can be turned off, and whether
    [bind] succeeds. *)
Record address : Type := Address { ai_family : family; ad_socket : option Z; ad_v6only : bool; ad_bind : bool }.

(** The answer of [getaddrinfo] and whether the two calls of [fcntl] succeed. *)
Record port_env : Type := PortEnv { pe_addrs : option (list address); pe_nonblock : bool; pe_cloexec : bool }.

Section code.
Context `{BuildConfig} {U : Type} (mem : bool).
Notation st := (net U).

Definition close (fd : Z) : M st unit := modify (λ s, set_closed (closed s ++ [fd]) s).

(** One pass over the addresses. *)
Fixpoint try_family (want : family) (l : list address) : M st (option Z) :=
  match l with
  | [] => ret None
  | rp :: l =>
      if negb (bool_decide (ai_family rp = want)) then try_family want l
      else
        match ad_socket rp with
        | None => try_family want l
        | Some s =>
            if bool_decide (ai_family rp = AF_INET6) && negb (ad_v6only rp) then close s ;; try_family want l
            else if ad_bind rp then ret (Some s)
            else close s ;; try_family want l
        end
  end.

Definition bound_socket (l : list address) : M st (option Z) :=
  s <- try_family AF_INET6 l ;;
  match s with Some s => ret (Some s) | None => try_family AF_INET l end.

(** [None] stands for [exit(-1)]. *)
Definition pktserv_addport (e : port_env) (is_ssl : bool) : M st (option Z) :=
  match pe_addrs e with
  | None => ret (Some (-1))
  | Some l =>
      s <- bound_socket l ;;
      match s with
      | None => ret (Some (-1))
      | Some s =>
          if negb (pe_nonblock e) then close s ;; ret (Some (-1))
          else if negb (pe_cloexec e) then ret None
          else r <- addport_register mem s is_ssl ;; ret (Some r)
      end
  end.

(** ** What it does *)

Definition works (a : address) : bool :=
  match ad_socket a with Some _ => (negb (bool_decide (ai_family a = AF_INET6)) || ad_v6only a) && ad_bind a | None => false end.

(** The addresses in the order of preference. *)
Definition candidates (l : list address) : list address :=
  filter (λ a, ai_family a = AF_INET6) l ++ filter (λ a, ai_family a = AF_INET) l.

(** The addresses before the first that works, and it. *)
Fixpoint span_failing (l : list address) : list address * option address :=
  match l with
  | [] => ([], None)
  | a :: l => if works a then ([], Some a) else let '(f, w) := span_failing l in (a :: f, w)
  end.

Definition sockets (l : list address) : list Z := omap ad_socket l.

Lemma span_failing_app l l' :
  span_failing (l ++ l') =
    match span_failing l with (f, Some w) => (f, Some w) | (f, None) => let '(f', w) := span_failing l' in (f ++ f', w) end.
Proof.
  induction l as [|a l IH]; cbn; [by destruct (span_failing l')|]. destruct (works a); [done|]. rewrite IH.
  destruct (span_failing l) as [f [w|]]; [done|]. by destruct (span_failing l').
Qed.

Lemma try_family_spec want l s :
  try_family want l s =
    let '(f, w) := span_failing (filter (λ a, ai_family a = want) l) in
    Some (w ≫= ad_socket, set_closed (closed s ++ sockets f) s).
Proof.
  revert s. induction l as [|a l IH]; intros s; cbn [try_family].
  { cbn. rewrite app_nil_r. by destruct s. }
  rewrite filter_cons. case_decide as Hf; [|by rewrite bool_decide_false].
  rewrite bool_decide_true by done. cbn [negb span_failing]. unfold works.
  destruct (ad_socket a) as [fd|] eqn:Es.
  - rewrite Hf. destruct (bool_decide (want = AF_INET6)) eqn:E6, (ad_v6only a) eqn:Ev, (ad_bind a) eqn:Eb;
      cbn [negb andb orb]; unfold bind, close, modify, ret;
      try (cbn; rewrite ?Es, ?app_nil_r; by destruct s);
      rewrite IH; destruct (span_failing _) as [f w]; cbn; rewrite Es; cbn; by rewrite <-app_assoc.
  - rewrite IH. destruct (span_failing _) as [f w]. cbn. by rewrite Es.
Qed.

Lemma sockets_app l l' : sockets (l ++ l') = sockets l ++ sockets l'.
Proof. apply omap_app. Qed.

Lemma bound_socket_spec l s :
  bound_socket l s =
    let '(f, w) := span_failing (candidates l) in Some (w ≫= ad_socket, set_closed (closed s ++ sockets f) s).
Proof.
  unfold bound_socket, candidates, bind. rewrite try_family_spec, span_failing_app.
  destruct (span_failing (filter _ l)) as [f [w|]] eqn:E; cbn [mbind option_bind].
  - assert (∃ fd, ad_socket w = Some fd) as [fd ->]; [|done].
    clear -E. revert f E. induction (filter _ l) as [|a l' IH]; intros f; cbn; [done|].
    destruct (works a) eqn:Hw; [|destruct (span_failing l') as [f' w'] eqn:E'; intros [= <- ->]; by eapply IH].
    intros [= <- ->]. unfold works in Hw. destruct (ad_socket w); [eauto|done].
  - rewrite try_family_spec. destruct (span_failing (filter (λ a, ai_family a = AF_INET) l)) as [f' w']. cbn [set_closed closed]. by rewrite sockets_app, app_assoc.
Qed.
End code.

(** C34: a listening socket for the first address that works, in the order of
    preference, or -1; every socket made for another address is closed.  The
    descriptor that is returned is registered and listens; one that is too large
    for the table, or cannot be made non-blocking, is closed as well.  (When the
    poll set cannot grow the port is registered and never polled, and the
    descriptor is returned all the same.) *)
Theorem pktserv_addport_correct `{BuildConfig} {U} mem (e : port_env) is_ssl (s : net U) l :
  pe_addrs e = Some l → length (cbufs s) = MAX_USERS → pollset_ok s →
  let '(failed, w) := span_failing (candidates l) in
  let s1 := set_closed (closed s ++ sockets failed) s in
  match w ≫= ad_socket with
  | None => pktserv_addport mem e is_ssl s = Some (Some (-1), s1)
  | Some fd =>
      0 ≤ fd → pe_cloexec e = true →
      if pe_nonblock e && (fd <? Z.of_nat MAX_USERS) then
        ∃ s2 c k, pktserv_addport mem e is_ssl s = Some (Some fd, s2) ∧ closed s2 = closed s1 ∧ pollset_ok s2 ∧
          at_fd s2 fd (c, k) ∧ c_fd c = fd ∧ c_disp c = OK ∧
          c_state c = (if is_ssl then LISTEN_SOCKET_SSL else LISTEN_SOCKET) ∧ (mem = true → fd ∈ fds s2)
      else pktserv_addport mem e is_ssl s = Some (Some (-1), set_closed (closed s1 ++ [fd]) s)
  end.
Proof.
  intros Hl Hlen Hok. pose proof (bound_socket_spec l s) as Hb. destruct (span_failing (candidates l)) as [f w].
  cbn zeta. set (s1 := set_closed _ s) in *. unfold pktserv_addport. rewrite Hl.
  destruct (w ≫= ad_socket) as [fd|]; rewrite (bind_runs _ _ _ _ _ Hb); [|done]. intros Hfd Hclo. rewrite Hclo. cbn [negb].
  destruct (pe_nonblock e); cbn [negb andb]; [|done].
  unfold addport_register. rewrite Z.ltb_antisym. destruct (Z.leb_spec (Z.of_nat MAX_USERS) fd) as [Hge|Hlt]; cbn [negb]; [done|].
  destruct (lookup_lt_is_Some_2 (cbufs s1) (Z.to_nat fd)) as [[c k] Hc]; [cbn; lia|].
  assert (at_fd s1 fd (c, k)) as Ha by done. unfold bind at 1 2 3. erewrite upd_cbuf_at by exact Ha.
  set (c1 := Cbuf _ _ _ _ _ _ _ _ _ _ _). set (s2 := set_cbufs _ s1). assert (pollset_ok s2) as Hok2 by exact Hok.
  destruct (add_pollfd_ok mem s2 fd Hok2) as (r & s3 & E3 & Hok3 & Hcb & _ & Hm & Hr). unfold bind. rewrite E3.
  exists s3, c1, k. split; [done|]. assert (closed s3 = closed s1) as Hcl.
  { revert E3. unfold add_pollfd. repeat case_match; by intros [= _ <-]. }
  assert (at_fd s3 fd (c1, k)) as Ha3. { pose proof (at_set s1 fd (c, k) (c1, k) Ha) as [? Hx]. split; [done|]. by rewrite Hcb. }
  split_and!; try done. intros ->. destruct Hr as [[-> _]|[_ ->]]; [by specialize (Hm eq_refl)|].
  case_decide; [done|]. apply elem_of_app. right. by apply list_elem_of_singleton.
Qed.

Lemma pktserv_addport_correct_witness :
  let l := [Address AF_INET (Some 4) true true; Address AF_INET6 (Some 3) false true] in
  ∃ H : BuildConfig, ∃ s2 c k, pktserv_addport true (PortEnv (Some l) true true) false
      (Net unit (replicate MAX_USERS (zero_cbuf, Kernel [] [] [] no_tls)) [] 0 [] [] tt) = Some (Some 4, s2) ∧
    closed s2 = [3] ∧ at_fd s2 4 (c, k) ∧ c_state c = LISTEN_SOCKET.
Proof.
  intros l. exists {| MAX_USERS := 8; MAX_USERS_min := ltac:(lia) |}. set (s := Net unit _ _ _ _ _ _).
  pose proof (@pktserv_addport_correct {| MAX_USERS := 8; MAX_USERS_min := ltac:(lia) |} unit true (PortEnv (Some l) true true)
    false s l eq_refl eq_refl) as Ht.
  destruct Ht as (s2 & c & k & E & H1 & _ & H2 & _ & _ & H3 & _);
    [split; [vm_compute; lia|constructor]|discriminate|reflexivity|].
  exists s2, c, k. split; [exact E|]. split; [exact H1|]. split; [exact H2|exact H3].
Defined.
