(* ===== verification/TlsServ.v ===== *)
(** * TLS connections in the packet server (pktserv/sslsocket.c with pktserv.c)

    What a TLS connection goes through: the handshake, the reading of packets
    as far as the library decrypts them, and what the state machine does with a
    call that has to be repeated. *)

From Stdlib Require Import ZArith Lia.
From S2P Require Import Config Prelude Monad PktBuffers SslSocket PktSocket PktServ.

Local Open Scope Z_scope.
Local Open Scope icb_monad_scope.

(** ** One turn on a connection *)

Lemma has_bit_lor x y z : has_bit x (Z.lor y z) = has_bit x y || has_bit x z.
Proof.
  unfold has_bit. rewrite Z.land_lor_distr_r. apply eq_true_iff_eq.
  rewrite orb_true_iff, !negb_true_iff, !Z.eqb_neq. pose proof (Z.lor_eq_0_iff (Z.land x y) (Z.land x z)). lia.
Qed.

Section turn.
Context `{BuildConfig} {U : Type}.
Implicit Types s : net U.

Definition put_conn s (fd : Z) (ck : cbuf * kernel) : net U := set_cbufs (<[Z.to_nat fd := ck]> (cbufs s)) s.

Lemma do_read_at mem s fd c k r c' k' :
  at_fd s fd (c, k) → pktsocket_read mem c k = Some (r, c', k') →
  do_read mem fd s = Some (tt, put_conn s fd (c', k')).
Proof. intros Ha E. unfold do_read, bind. by rewrite (conn_at _ _ _ Ha), E. Qed.

Lemma do_write_at s fd c k r c' k' :
  at_fd s fd (c, k) → pktsocket_write c k = Some (r, c', k') →
  do_write fd s = Some (tt, put_conn s fd (c', k')).
Proof. intros Ha E. unfold do_write, bind. by rewrite (conn_at _ _ _ Ha), E. Qed.

(** An event on a connection of the table, without an error: the disposition
    is set and the loop run. *)
Lemma event_runs mem cb fuel p s c k :
  at_fd s (p_fd p) (c, k) → p_fd p < Z.of_nat MAX_USERS →
  has_bit (p_revents p) (Z.lor POLLERR (Z.lor POLLHUP POLLNVAL)) = false →
  has_bit (p_revents p) (Z.lor POLLIN POLLOUT) = true →
  pollfd_state_machine mem cb fuel p s =
    sm_loop mem cb fuel (has_bit (p_revents p) POLLIN) (has_bit (p_revents p) POLLOUT) (p_fd p)
      (put_conn s (p_fd p) (set_disp OK c, k)).
Proof.
  intros Ha Hlt He Hev. unfold pollfd_state_machine. destruct (Z.leb_spec (Z.of_nat MAX_USERS) (p_fd p)); [lia|].
  rewrite (has_bit_lor _ POLLERR), (has_bit_lor _ POLLHUP), orb_assoc in He. rewrite has_bit_lor in Hev. rewrite He, Hev. cbn [when].
  by rewrite (upd_cbuf_at _ _ _ _ _ Ha).
Qed.

(** A turn that returns. *)
Lemma sm_loop_returns mem cb fuel r w fd s c k s' :
  at_fd s fd (c, k) → c_disp c = OK → sm_step mem cb r w fd s = Some (false, s') →
  sm_loop mem cb (S fuel) r w fd s = Some (Some s').
Proof. intros Ha Hd E. cbn [sm_loop]. by rewrite (conn_at _ _ _ Ha), Hd, bool_decide_true, E by done. Qed.

(** The loop does nothing in state [COMPLETE_PACKET], and does not end. *)
Lemma complete_packet_spins mem cb fuel r w fd s c k :
  at_fd s fd (c, k) → c_disp c = OK → c_state c = COMPLETE_PACKET → sm_loop mem cb fuel r w fd s = Some None.
Proof.
  intros Ha Hd Hs. induction fuel as [|fuel IH]; cbn [sm_loop]; rewrite (conn_at _ _ _ Ha), Hd, bool_decide_true by done; [done|].
  unfold sm_step at 1, bind at 1. rewrite (conn_at _ _ _ Ha), Hs. exact IH.
Qed.
End turn.

(** ** The handshake *)

(** Where [SSL_accept] leads. *)
Definition accept_leads (r : option ssl_error) : option SocketState :=
  match r with
  | None => Some ACCEPTED
  | Some (SSL_ERROR_WANT_READ | SSL_ERROR_WANT_WRITE) => Some WANT_SSL_ACCEPT
  | Some SSL_ERROR_OTHER => None
  | Some _ => Some WANT_RAW_DISCONNECT
  end.

(** A result that asks for the call to be repeated. *)
Definition wants_retry (e : ssl_error) : Prop := e = SSL_ERROR_WANT_READ ∨ e = SSL_ERROR_WANT_WRITE.

(** An event on [fd] that reports [ev] and no error. *)
Definition event_on (fd ev : Z) (p : pollfd) : Prop :=
  p_fd p = fd ∧ has_bit (p_revents p) (Z.lor POLLERR (Z.lor POLLHUP POLLNVAL)) = false ∧
  has_bit (p_revents p) ev = true.

Section events.
Context `{BuildConfig} {U : Type} (mem : bool) (cb : callbacks (U := U)).
Implicit Types s : net U.

(** Events one after the other. *)
Fixpoint run_events (fuel : nat) (l : list pollfd) s : option (option (net U)) :=
  match l with
  | [] => Some (Some s)
  | p :: l =>
      match pollfd_state_machine mem cb fuel p s with
      | Some (Some s) => run_events fuel l s
      | r => r
      end
  end.

Lemma put_put s fd ck ck' : put_conn (put_conn s fd ck) fd ck' = put_conn s fd ck'.
Proof. unfold put_conn, set_cbufs. cbn. by rewrite list_insert_insert_eq. Qed.

Lemma at_put s fd ck ck' : at_fd s fd ck → at_fd (put_conn s fd ck') fd ck'.
Proof. apply at_set. Qed.

Lemma set_disp_same c : c_disp c = OK → set_disp OK c = c.
Proof. destruct c. cbn. by intros ->. Qed.

(** One event whose first turn ends the loop. *)
Lemma event_step fuel p s c k s' :
  at_fd s (p_fd p) (c, k) → p_fd p < Z.of_nat MAX_USERS → event_on (p_fd p) (Z.lor POLLIN POLLOUT) p →
  (∀ r w, r = has_bit (p_revents p) POLLIN → r || w = true →
   sm_step mem cb r w (p_fd p) (put_conn s (p_fd p) (set_disp OK c, k)) = Some (false, s')) →
  pollfd_state_machine mem cb (S fuel) p s = Some (Some s').
Proof.
  intros Ha Hlt (_ & He & Hev) Hst. rewrite (event_runs _ _ _ _ _ _ _ Ha Hlt He) by done.
  eapply sm_loop_returns; [by eapply at_put|done|]. apply Hst; [done|]. by rewrite has_bit_lor in Hev.
Qed.

Lemma event_readable fd p : event_on fd POLLIN p → event_on fd (Z.lor POLLIN POLLOUT) p.
Proof. intros (? & ? & Hr). split_and!; [done..|]. by rewrite has_bit_lor, Hr. Qed.
End events.

(** The session after a call of [SSL_accept] whose result was [r]. *)
Definition accepting (r : option ssl_error) (c : cbuf) : cbuf :=
  let c := set_ssl_con true c in
  match r, accept_leads r with
  | None, _ => set_state ACCEPTED (set_is_ssl true c)
  | _, Some x => set_state x c
  | _, None => c
  end.

Lemma sslsocket_accept_at c k r l :
  c_ssl_con c = true ∨ t_new (k_tls k) = true → t_accept (k_tls k) = r :: l →
  ∃ x, sslsocket_accept c k =
    (x, accepting r c, set_tls (Tls (t_new (k_tls k)) l (t_read (k_tls k)) (t_write (k_tls k))) k).
Proof.
  intros Hn Ha. unfold sslsocket_accept, SSL_accept. rewrite Ha.
  assert (negb (c_ssl_con c) && negb (t_new (k_tls k)) = false) as -> by (destruct Hn as [-> | ->]; by rewrite ?andb_false_r).
  destruct r as [[]|]; by eexists.
Qed.

Section accept_events.
Context `{BuildConfig} {U : Type} (mem : bool) (cb : callbacks (U := U)).

(** The kernel once the results of [SSL_accept] are down to [l]. *)
Definition accepts_left (l : list (option ssl_error)) (k : kernel) : kernel :=
  set_tls (Tls (t_new (k_tls k)) l (t_read (k_tls k)) (t_write (k_tls k))) k.

Lemma accept_event (s : net U) fd c k r l p fuel :
  at_fd s fd (c, k) → fd < Z.of_nat MAX_USERS → c_state c = WANT_SSL_ACCEPT → c_disp c = OK →
  c_ssl_con c = true ∨ t_new (k_tls k) = true → t_accept (k_tls k) = r :: l → event_on fd (Z.lor POLLIN POLLOUT) p →
  pollfd_state_machine mem cb (S fuel) p s = Some (Some (put_conn s fd (accepting r c, accepts_left l k))).
Proof.
  intros Ha Hlt Hs Hd Hn Hacc [<- Hp]. eapply event_step; [exact Ha|done|by split|]. intros rd w _ Hrw.
  rewrite (set_disp_same c Hd).
  rewrite (set_same s _ _ Ha : put_conn s (p_fd p) (c, k) = s). unfold sm_step, bind.
  rewrite (conn_at _ _ _ Ha), Hs, Hrw. cbn [when]. unfold do_ssl_accept, bind. rewrite (conn_at _ _ _ Ha).
  by destruct (sslsocket_accept_at c k r l Hn Hacc) as [x ->].
Qed.

Lemma accepting_retry e c : wants_retry e → c_state c = WANT_SSL_ACCEPT → accepting (Some e) c = set_ssl_con true c.
Proof. intros [-> | ->] Hs; destruct c; cbn in Hs; by rewrite Hs. Qed.

Lemma accepting_session r c : accepting r (set_ssl_con true c) = accepting r c.
Proof. by destruct c. Qed.

(** The events of the retries and of the final result. *)
Lemma handshake_runs (s : net U) fd c k errs r l fuel ps :
  at_fd s fd (c, k) → fd < Z.of_nat MAX_USERS → c_state c = WANT_SSL_ACCEPT → c_disp c = OK →
  c_ssl_con c = true ∨ t_new (k_tls k) = true →
  Forall wants_retry errs → t_accept (k_tls k) = map Some errs ++ r :: l →
  length ps = S (length errs) → Forall (event_on fd (Z.lor POLLIN POLLOUT)) ps →
  run_events mem cb (S fuel) ps s = Some (Some (put_conn s fd (accepting r c, accepts_left l k))).
Proof.
  intros Ha Hlt Hs Hd Hn Herr. revert s c k Ha Hs Hd Hn ps.
  induction Herr as [|e errs He _ IH]; intros s c k Ha Hs Hd Hn ps Hacc Hlen Hps;
    (destruct ps as [|p ps]; [done|]); apply Forall_cons in Hps as [Hp Hps]; cbn [run_events map app] in *.
  - rewrite (accept_event _ _ _ _ _ _ _ _ Ha) by done. by destruct ps.
  - rewrite (accept_event _ _ _ _ _ _ _ _ Ha Hlt Hs Hd Hn Hacc Hp), accepting_retry by done.
    rewrite (IH (put_conn s fd (set_ssl_con true c, accepts_left (map Some errs ++ r :: l) k)) (set_ssl_con true c)
      (accepts_left (map Some errs ++ r :: l) k)); [|by eapply at_put|done|done|by left|done|cbn in Hlen; lia|done].
    by rewrite put_put, accepting_session.
Qed.
End accept_events.

(** C33: the handshake of a TLS connection.  It tells the server nothing, reads
    no packet and writes none, however often it has to wait: after the events of
    its retries the connection is still [WANT_SSL_ACCEPT], and the event on
    which [SSL_accept] gives a final result makes the connection [ACCEPTED] with
    its session exactly when that result is success.  A failure that
    [sslsocket_accept] knows makes it [WANT_RAW_DISCONNECT], and the next event
    on the descriptor closes it and takes it out of the poll set, without the
    server or any other connection hearing of it.  (Any other error leaves the
    connection as it was, waiting.) *)
Theorem tls_handshake `{BuildConfig} {U} mem cb (s : net U) fd c k errs r l fuel ps :
  at_fd s fd (c, k) → fd < Z.of_nat MAX_USERS → c_state c = WANT_SSL_ACCEPT → c_disp c = OK →
  c_ssl_con c = true ∨ t_new (k_tls k) = true →
  Forall wants_retry errs → t_accept (k_tls k) = map Some errs ++ r :: l →
  length ps = S (length errs) → Forall (event_on fd (Z.lor POLLIN POLLOUT)) ps →
  let s1 := put_conn s fd (accepting r c, accepts_left l k) in
  run_events mem cb (S fuel) ps s = Some (Some s1) ∧
  (accept_leads r = Some WANT_RAW_DISCONNECT → c_fd c = fd → pollset_ok s →
   ∀ p, event_on fd (Z.lor POLLIN POLLOUT) p →
     ∃ s' c' k', pollfd_state_machine mem cb (2 + fuel) p s1 = Some (Some s') ∧ at_fd s' fd (c', k') ∧
       c_state c' = DISCONNECTED ∧ closed s' = closed s ++ [fd] ∧ fds s' = filter (λ x, x ≠ fd) (fds s) ∧
       upper s' = upper s ∧ ∀ i x, i ≠ fd → at_fd s i x → at_fd s' i x).
Proof.
  intros Ha Hlt Hs Hd Hn Herr Hacc Hlen Hps s1. split; [by apply (handshake_runs mem cb s fd c k errs)|].
  intros Hr Hf Hok p Hp.
  assert (at_fd s1 fd (accepting r c, accepts_left l k)) as Ha1 by by eapply at_put.
  assert (c_state (accepting r c) = WANT_RAW_DISCONNECT ∧ c_disp (accepting r c) = OK ∧ c_fd (accepting r c) = fd) as (Hs1 & Hd1 & Hf1).
  { unfold accepting. destruct r as [e|]; [|discriminate Hr]. by rewrite Hr. }
  destruct Hp as (Ep & He & Hev). rewrite <-Ep in Ha1, Hlt. rewrite (event_runs mem cb _ _ _ _ _ Ha1 Hlt He Hev), Ep.
  rewrite Ep in Ha1. rewrite (set_disp_same _ Hd1), (set_same s1 _ _ Ha1 : put_conn s1 fd (accepting r c, accepts_left l k) = s1).
  destruct (raw_disconnect_completes mem cb s1 fd (accepting r c) (accepts_left l k)
    (has_bit (p_revents p) POLLIN) (has_bit (p_revents p) POLLOUT) fuel Ha1 Hs1 Hd1 Hf1 Hok) as (s' & E & Ha' & Hu & Hc & Hfs & Ho).
  exists s'. do 2 eexists. split; [exact E|]. split; [exact Ha'|]. split_and!; try done.
  intros i x Hne [Hi Hl]. apply Ho; [done|]. destruct Ha as [Hfd _]. split; [done|]. cbn.
  by rewrite list_lookup_insert_ne by lia.
Qed.

(** ** Reading packets *)

Section reads.
Implicit Types (c : cbuf) (k : kernel).

(** The kernel once the reads are down to [l]. *)
Definition reads_left (l : list tls_read) (k : kernel) : kernel :=
  set_tls (Tls (t_new (k_tls k)) (t_accept (k_tls k)) l (t_write (k_tls k))) k.

(** A record of which the first [n] bytes have been taken. *)
Definition record_left (n : nat) (r : tls_read) (l : list tls_read) : list tls_read :=
  if decide (drop n (tr_data r) = []) then l
  else TRead (drop n (tr_data r)) (tr_pending r) (tr_error r) (tr_again r) :: l.

Definition tls_session c : Prop := c_is_ssl c = true ∧ c_ssl_con c = true.

(** The buffer [m] with [bs] read into it. *)
Definition filled (m : msgbuf) (bs : list byte) : msgbuf := MsgBuf (m_sz m) (m_len m) (m_done m ++ bs) [].

Lemma sock_read_data c n k r l :
  tls_session c → t_read (k_tls k) = r :: l → take n (tr_data r) ≠ [] →
  sock_read c n k = Some (Bytes (take n (tr_data r)), ssl_done (tr_pending r) c, reads_left (record_left n r l) k).
Proof.
  intros [Hc Hs] Hr Hne. unfold sock_read, sslsocket_read, SSL_read. rewrite Hc, Hs, Hr. cbn [negb tr_data tr_pending].
  by destruct (take n (tr_data r)) eqn:E.
Qed.

(** A call of [SSL_read] that returns nothing. *)
Lemma sock_read_none c n k r l :
  tls_session c → t_read (k_tls k) = r :: l → take n (tr_data r) = [] →
  sock_read c n k =
    Some ((ssl_failed (tr_error r) (tr_again r) c).1, (ssl_failed (tr_error r) (tr_again r) c).2,
          reads_left (record_left n r l) k).
Proof.
  intros [Hc Hs] Hr He. unfold sock_read, sslsocket_read, SSL_read. rewrite Hc, Hs, Hr. cbn [negb tr_data tr_error tr_again].
  rewrite He. by destruct (ssl_failed (tr_error r) (tr_again r) c).
Qed.

(** The rest of a packet, when one record holds it. *)
Lemma read_body_tls c k m n r l :
  tls_session c → c_rbuf c = Some m → n = (Z.to_nat (m_len m) - length (m_done m))%nat → (0 < n)%nat →
  t_read (k_tls k) = r :: l → (n ≤ length (tr_data r))%nat →
  read_body c k = Some (0, set_state COMPLETE_PACKET (set_rbuf (Some (filled m (take n (tr_data r)))) c),
                        reads_left (record_left n r l) k).
Proof.
  intros Hc Hm -> Hn Hr Hl. unfold read_body. rewrite Hm. set (n := (_ - _)%nat) in *.
  assert (length (take n (tr_data r)) = n) as Ht by (rewrite length_take; lia).
  rewrite (sock_read_data _ _ _ _ _ Hc Hr) by (intros E; rewrite E in Ht; cbn in Ht; lia).
  destruct (take n (tr_data r)) as [|b bs] eqn:E; [cbn in Ht; lia|]. rewrite Ht.
  replace (n - n =? 0)%nat with true by (symmetry; apply Nat.eqb_eq; lia). done.
Qed.

(** The header, from the record at hand. *)
Lemma read_header_tls c k b bs p e a l :
  tls_session c → t_read (k_tls k) = TRead (b :: bs) p e a :: l → b ≠ xff →
  ∃ sz, read_header true c k =
    Some (inr (set_newmsg false (set_rbuf (Some (MsgBuf sz (uchar b + 1) [b] [])) (ssl_done p c)),
               reads_left (record_left 1 (TRead (b :: bs) p e a) l) k)).
Proof.
  intros Hc Hr Hb. unfold read_header. destruct (msgbuf_alloc_true (c_rbuf c) (Z.of_nat MAX_PKT_LEN)) as [m ->].
  rewrite (sock_read_data _ _ _ _ _ (Hc : tls_session (set_rbuf (Some m) c)) Hr) by done. cbn [take tr_data].
  destruct (Z.ltb_spec (Z.of_nat MAX_PKT_LEN - 1) (uchar b + 1)) as [Hov|_].
  - exfalso. change (Z.of_nat MAX_PKT_LEN - 1) with 255 in Hov. pose proof (uchar_range b). apply Hb, uchar_inj.
    change (uchar xff) with 255. lia.
  - by exists (m_sz m).
Qed.
End reads.

Section packets.
Context `{BuildConfig} {U : Type} (cb : callbacks (U := U)).
Implicit Types s : net U.

(** In the state [s], whatever becomes of the connection [fd] itself, the server
    takes input from [fd], and is not changed by being asked. *)
Definition willing (fd : Z) s : Prop :=
  ∀ ck, (match cb_ok2read cb with Some f => f fd | None => ret true end) (put_conn s fd ck) = Some (true, put_conn s fd ck).

Lemma read_case_reads mem s fd c k r c' k' :
  willing fd s → at_fd s fd (c, k) → pktsocket_read mem c k = Some (r, c', k') →
  c_state c' ≠ COMPLETE_PACKET → c_wlist c' = [] →
  read_case mem cb true fd s = Some (tt, put_conn s fd (c', k')).
Proof.
  intros Hw Ha E Hs Hl. unfold read_case. cbn [when]. unfold bind at 1.
  assert ((match cb_ok2read cb with Some f => f fd | None => ret true end) s = Some (true, s)) as Hok.
  { specialize (Hw (c, k)). by rewrite (set_same s _ _ Ha : put_conn s fd (c, k) = s) in Hw. }
  unfold bind at 1. rewrite Hok. cbn [when]. unfold bind at 1. rewrite (do_read_at _ _ _ _ _ _ _ _ Ha E).
  pose proof (at_put s fd (c, k) (c', k') Ha) as Ha'. unfold bind at 1. rewrite (conn_at _ _ _ Ha').
  destruct (c_state c') eqn:Es; try done; cbn [ret]; unfold bind; by rewrite (conn_at _ _ _ Ha'), Hl.
Qed.

(** An event on a connection that is between packets. *)
Lemma header_event mem s fd c k p s' fuel :
  at_fd s fd (c, k) → fd < Z.of_nat MAX_USERS → c_state c = IDLE ∨ c_state c = WANT_HEADER → event_on fd POLLIN p →
  read_case mem cb true fd (put_conn s fd (set_state WANT_HEADER (set_disp OK c), k)) = Some (tt, s') →
  pollfd_state_machine mem cb (S fuel) p s = Some (Some s').
Proof.
  intros Ha Hlt Hs Hp Hr. pose proof (event_readable _ _ Hp) as Hp'. destruct Hp as (<- & _ & Hin).
  eapply event_step; [exact Ha|done|done|]. intros r w -> _. rewrite Hin. clear Hin.
  pose proof (at_put s (p_fd p) (c, k) (set_disp OK c, k) Ha) as Ha1. unfold sm_step, bind at 1. rewrite (conn_at _ _ _ Ha1).
  cbn [c_state set_disp]. destruct Hs as [Hs|Hs]; rewrite Hs.
  - cbn [when]. unfold bind. rewrite (upd_cbuf_at _ _ _ _ _ Ha1). fold (put_conn (put_conn s (p_fd p) (set_disp OK c, k)) (p_fd p)
      (set_state WANT_HEADER (set_disp OK c), k)). by rewrite put_put, Hr.
  - assert (set_state WANT_HEADER (set_disp OK c) = set_disp OK c) as E by (destruct c; cbn in Hs; by rewrite Hs).
    rewrite E in Hr. unfold bind. by rewrite Hr.
Qed.

(** A length byte that comes in a record of its own. *)
Lemma lone_header c k b p e a p' a' l :
  tls_session c → c_state c = WANT_HEADER → b ≠ xff →
  t_read (k_tls k) = TRead [b] p e a :: TRead [] p' SSL_ERROR_WANT_READ a' :: l →
  ∃ sz, pktsocket_read true c k =
    Some (0, set_state WANT_SSL_READ (set_newmsg false (set_rbuf (Some (MsgBuf sz (uchar b + 1) [b] [])) c)),
          reads_left l k).
Proof.
  intros Hc Hs Hb1 Hr. unfold pktsocket_read. rewrite decide_True by done.
  destruct (read_header_tls c k b [] p e a _ Hc Hr Hb1) as [sz ->]. exists sz.
  unfold read_body. cbn [c_rbuf set_newmsg set_rbuf m_len m_done].
  match goal with |- context [sock_read ?c' ?n ?k'] => rewrite (sock_read_none c' n k' (TRead [] p' SSL_ERROR_WANT_READ a') l) end.
  - cbn [tr_error ssl_failed fst snd]. unfold read_nothing, record_left. cbn. by rewrite (proj1 Hc), drop_nil.
  - done.
  - done.
  - by rewrite firstn_nil.
Qed.

(** The event that brings the rest of a packet which had to be waited for: the
    packet is complete, and nobody is told. *)
Lemma rest_event s fd c k m n r l p fuel :
  at_fd s fd (c, k) → fd < Z.of_nat MAX_USERS → tls_session c → c_state c = WANT_SSL_READ → c_disp c = OK →
  c_rbuf c = Some m → n = (Z.to_nat (m_len m) - length (m_done m))%nat → (0 < n)%nat →
  t_read (k_tls k) = r :: l → (n ≤ length (tr_data r))%nat → event_on fd (Z.lor POLLIN POLLOUT) p →
  pollfd_state_machine true cb (S fuel) p s = Some (Some (put_conn s fd
    (set_state COMPLETE_PACKET (set_rbuf (Some (filled m (take n (tr_data r)))) c), reads_left (record_left n r l) k))).
Proof.
  intros Ha Hlt Hc Hs Hd Hm Hn H0 Hr Hl [<- Hp]. eapply event_step; [exact Ha|done|by split|]. intros rd w _ Hrw.
  rewrite (set_disp_same c Hd), (set_same s _ _ Ha : put_conn s (p_fd p) (c, k) = s). unfold sm_step, bind.
  rewrite (conn_at _ _ _ Ha), Hs, Hrw. cbn [when].
  erewrite do_read_at; [reflexivity|exact Ha|]. unfold pktsocket_read. rewrite decide_False by congruence.
  by apply read_body_tls.
Qed.
End packets.

(** A packet whose length byte comes in a TLS record of its own.  The event of
    the length byte leaves the connection waiting for the rest, the event of the
    rest completes the packet without handing it to the server, and the next
    event of any kind on the connection makes the state machine loop for ever. *)
Lemma split_packet_hangs `{BuildConfig} {U} (cb : callbacks (U := U)) s fd c k b p e a p' a' r l p1 p2 fuel :
  at_fd s fd (c, k) → fd < Z.of_nat MAX_USERS → tls_session c → c_state c = IDLE ∨ c_state c = WANT_HEADER →
  c_wlist c = [] → willing cb fd s → b ≠ x00 → b ≠ xff →
  t_read (k_tls k) = TRead [b] p e a :: TRead [] p' SSL_ERROR_WANT_READ a' :: r :: l →
  uchar b ≤ Z.of_nat (length (tr_data r)) → event_on fd POLLIN p1 → event_on fd (Z.lor POLLIN POLLOUT) p2 →
  ∃ c2 k2 m, run_events true cb (S fuel) [p1; p2] s = Some (Some (put_conn s fd (c2, k2))) ∧
    c_state c2 = COMPLETE_PACKET ∧ c_rbuf c2 = Some m ∧ m_done m = b :: take (Z.to_nat (uchar b)) (tr_data r) ∧
    ∀ p3 n, event_on fd (Z.lor POLLIN POLLOUT) p3 → run_events true cb n [p3] (put_conn s fd (c2, k2)) = Some None.
Proof.
  intros Ha Hlt Hc Hs Hl Hw Hb0 Hb1 Hr Hlen Hp1 Hp2. set (c0 := set_state WANT_HEADER (set_disp OK c)).
  destruct (lone_header c0 k b p e a p' a' (r :: l)) as [sz E1]; [done..|].
  pose proof (at_put s fd (c, k) (c0, k) Ha) as Ha0.
  assert (willing cb fd (put_conn s fd (c0, k))) as Hw0 by (intros ck; rewrite put_put; apply Hw).
  pose proof (read_case_reads cb true _ _ _ _ _ _ _ Hw0 Ha0 E1 ltac:(done) Hl) as E2. rewrite put_put in E2.
  cbn [run_events]. rewrite (header_event cb true s fd c k p1 _ _ Ha Hlt Hs Hp1 E2).
  set (m1 := MsgBuf sz (uchar b + 1) [b] []) in *.
  match type of E2 with _ = Some (tt, put_conn s fd (?c', ?k')) => set (c1 := c') in *; set (k1 := k') in * end.
  pose proof (at_put s fd (c, k) (c1, k1) Ha) as Ha1.
  assert (0 < uchar b) as Hpos.
  { pose proof (uchar_range b). destruct (decide (uchar b = 0)); [|lia]. exfalso. apply Hb0. by apply uchar_inj. }
  rewrite (rest_event cb _ fd c1 k1 m1 (Z.to_nat (uchar b)) r l p2 fuel Ha1 Hlt), put_put; try done; try (cbn; lia).
  do 3 eexists. split; [reflexivity|]. split_and!; [done..|]. intros p3 n [<- [He3 Hev3]]. cbn [run_events].
  match goal with |- context [put_conn s _ ?ck] => pose proof (at_put s (p_fd p3) (c, k) ck Ha) as Ha2 end.
  erewrite event_runs; [|exact Ha2|done|done|done]. erewrite complete_packet_spins; [done|by eapply at_put|done|done].
Qed.

(** A packet that is in a record whole, whatever follows it there. *)
Lemma whole_packet c k b body more p e a l :
  tls_session c → c_state c = WANT_HEADER → uchar b = Z.of_nat (length body) → body ≠ [] → b ≠ xff →
  t_read (k_tls k) = TRead (b :: body ++ more) p e a :: l →
  ∃ c' m, pktsocket_read true c k =
      Some (0, c', reads_left (if decide (more = []) then l else TRead more p e a :: l) k) ∧
    c_state c' = COMPLETE_PACKET ∧ c_rbuf c' = Some m ∧ m_done m = b :: body ∧
    c_wlist c' = c_wlist c ∧ c_disp c' = c_disp c.
Proof.
  intros Hc Hs Hb Hne Hb1 Hr. unfold pktsocket_read. rewrite decide_True by done.
  destruct (read_header_tls c k b (body ++ more) p e a l Hc Hr Hb1) as [sz ->].
  set (m1 := MsgBuf sz (uchar b + 1) [b] []). set (c1 := set_newmsg _ _).
  assert (0 < length body)%nat as H0 by (destruct body; [done|cbn; lia]).
  assert (t_read (k_tls (reads_left (record_left 1 (TRead (b :: body ++ more) p e a) l) k)) = TRead (body ++ more) p e a :: l) as Hr1.
  { unfold record_left. cbn. rewrite decide_False; [done|]. by intros [? _]%app_eq_nil. }
  erewrite read_body_tls with (m := m1) (n := length body); [|done|done|cbn; lia|done|exact Hr1|cbn; rewrite length_app; lia].
  do 2 eexists. split.
  - unfold record_left. cbn [tr_data tr_pending tr_error tr_again]. by rewrite drop_app_length.
  - split_and!; try done. cbn. by rewrite take_app_length.
Qed.

(** A packet that comes whole in a TLS record is handed to the server,
    byte for byte, and the connection is ready for the next.  What follows it in
    the record stays where it is: one event dispatches one packet. *)
Theorem tls_record_dispatched `{BuildConfig} {U} (cb : callbacks (U := U)) dispatch s fd c k b body more p e a l ev fuel :
  at_fd s fd (c, k) → fd < Z.of_nat MAX_USERS → tls_session c → c_state c = IDLE ∨ c_state c = WANT_HEADER →
  willing cb fd s → cb_dispatch cb = Some dispatch →
  uchar b = Z.of_nat (length body) → body ≠ [] → b ≠ xff → t_read (k_tls k) = TRead (b :: body ++ more) p e a :: l →
  event_on fd POLLIN ev →
  ∃ c1, let k1 := reads_left (if decide (more = []) then l else TRead more p e a :: l) k in
    c_state c1 = COMPLETE_PACKET ∧ c_wlist c1 = c_wlist c ∧
    ∀ s2 c2 k2, dispatch fd (b :: body) (put_conn s fd (c1, k1)) = Some (tt, s2) → at_fd s2 fd (c2, k2) → c_wlist c2 = [] →
      run_events true cb (S fuel) [ev] s =
        Some (Some (put_conn s2 fd (set_state WANT_HEADER (set_rbuf None c2), k2))).
Proof.
  intros Ha Hlt Hc Hs Hw Hdis Hb Hne Hb1 Hr Hev. set (c0 := set_state WANT_HEADER (set_disp OK c)).
  destruct (whole_packet c0 k b body more p e a l) as (c1 & m & E1 & Hs1 & Hm & Hd & Hl1 & _); [done..|].
  exists c1. cbn zeta. set (k1 := reads_left _ _) in *. split; [done|]. split; [done|]. intros s2 c2 k2 Hrun Ha2 Hl2.
  cbn [run_events]. erewrite header_event; [reflexivity|exact Ha|done|done|done|]. fold c0.
  pose proof (at_put s fd (c, k) (c0, k) Ha) as Ha0. unfold read_case. rewrite Hdis. cbn [when]. unfold bind at 1 2.
  assert ((match cb_ok2read cb with Some f => f fd | None => ret true end) (put_conn s fd (c0, k)) =
    Some (true, put_conn s fd (c0, k))) as -> by apply Hw.
  cbn [when]. unfold bind at 1. rewrite (do_read_at _ _ _ _ _ _ _ _ Ha0 E1), put_put.
  pose proof (at_put s fd (c, k) (c1, k1) Ha) as Ha1. unfold bind at 1. rewrite (conn_at _ _ _ Ha1), Hs1, Hm.
  unfold bind at 1. cbn [lift]. unfold bind at 1. rewrite Hd, Hrun, (upd_cbuf_at _ _ _ _ _ Ha2).
  unfold bind. erewrite conn_at by by eapply at_set. cbn [c_wlist set_state set_rbuf]. by rewrite Hl2.
Qed.

(** A TLS connection that has to wait while it reads a length byte never
    reads it: the next call is taken for the rest of a packet of no bytes,
    so that it asks the library for nothing, takes nothing from the stream, and
    leaves the connection neither with a packet nor ready for a header. *)
Theorem tls_header_retry_reads_nothing c k m :
  tls_session c → c_state c = WANT_SSL_READ → c_rbuf c = Some m → m_len m = 0 → m_done m = [] →
  ∃ r c' k', pktsocket_read true c k = Some (r, c', k') ∧ c_rbuf c' = Some m ∧
    concat (map tr_data (t_read (k_tls k'))) = concat (map tr_data (t_read (k_tls k))) ∧
    (c_state c' = WANT_SSL_READ ∨ c_state c' = WANT_SSL_WRITE ∨ c_state c' = WANT_READ ∨ c_state c' = WANT_DISCONNECT).
Proof.
  intros Hc Hs Hm Hl Hd. unfold pktsocket_read. rewrite decide_False by congruence. unfold read_body.
  rewrite Hm, Hl, Hd. change (Z.to_nat 0 - length [])%nat with 0%nat.
  destruct (t_read (k_tls k)) as [|r l] eqn:Hr.
  - unfold sock_read, sslsocket_read, SSL_read. rewrite (proj1 Hc), (proj2 Hc), Hr. cbn. unfold read_nothing. cbn.
    rewrite (proj1 Hc), ?Hr. do 3 eexists. split; [reflexivity|]. rewrite Hr. auto.
  - rewrite (sock_read_none c 0 k r l Hc Hr (take_0 _)).
    assert (concat (map tr_data (record_left 0 r l)) = concat (map tr_data (r :: l))) as Hcat.
    { unfold record_left. rewrite drop_0. case_decide as Hn; cbn; by rewrite ?Hn. }
    rewrite <-Hcat. unfold ssl_failed, read_nothing. destruct Hc as [Hc1 Hc2].
    destruct (tr_error r), (tr_again r); cbn; rewrite ?Hc1; do 3 eexists;
      (split; [reflexivity|]); cbn; rewrite ?Hs; auto 10.
Qed.

(** ** Examples *)

#[local] Instance small_build : BuildConfig := {| MAX_USERS := 8; MAX_USERS_min := ltac:(lia) |}.

(** A server with one TLS connection. *)
Definition tls_net (c : cbuf) (t : tls) : net unit :=
  Net _ (<[5%nat := (c, Kernel [] [] [] t)]> (replicate 8 (zero_cbuf, Kernel [] [] [] no_tls))) [Pollfd 5 1 1] 1 [] [] tt.
Definition greeting_cbuf : cbuf := accepted_cbuf 5 LISTEN_SOCKET_SSL.
Definition ready_cbuf : cbuf := set_state WANT_HEADER (set_ssl_con true greeting_cbuf).
Definition readable5 : pollfd := Pollfd 5 1 POLLIN.

Lemma tls_net_at c t : at_fd (tls_net c t) 5 (c, Kernel [] [] [] t).
Proof. split; [lia|reflexivity]. Qed.

Definition slow_tls (r : option ssl_error) : tls := Tls true [Some SSL_ERROR_WANT_READ; Some SSL_ERROR_WANT_WRITE; r] [] [].

Lemma tls_handshake_witness :
  (∃ c' k', run_events true no_callbacks 1 (replicate 3 readable5) (tls_net greeting_cbuf (slow_tls None)) =
      Some (Some (put_conn (tls_net greeting_cbuf (slow_tls None)) 5 (c', k'))) ∧
    c_state c' = ACCEPTED ∧ c_ssl_con c' = true) ∧
  ∃ s1 s', run_events true no_callbacks 1 (replicate 3 readable5) (tls_net greeting_cbuf (slow_tls (Some SSL_ERROR_SSL))) = Some (Some s1) ∧
    pollfd_state_machine true no_callbacks 2 readable5 s1 = Some (Some s') ∧ closed s' = [5] ∧ fds s' = [].
Proof.
  pose proof (λ r, tls_handshake true no_callbacks (tls_net greeting_cbuf (slow_tls r)) 5 greeting_cbuf (Kernel [] [] [] (slow_tls r))
    [SSL_ERROR_WANT_READ; SSL_ERROR_WANT_WRITE] r [] 0 (replicate 3 readable5) (tls_net_at _ _) eq_refl eq_refl eq_refl
    (or_intror eq_refl)) as Ht.
  assert (Forall wants_retry [SSL_ERROR_WANT_READ; SSL_ERROR_WANT_WRITE]) as Hw.
  { apply Forall_cons. split; [by left|]. apply Forall_cons. split; [by right|constructor]. }
  assert (Forall (event_on 5 (Z.lor POLLIN POLLOUT)) (replicate 3 readable5)) as Hp by by repeat constructor.
  split.
  - destruct (Ht None Hw eq_refl eq_refl Hp) as [E _]. do 2 eexists. split; [exact E|]. split; reflexivity.
  - destruct (Ht (Some SSL_ERROR_SSL) Hw eq_refl eq_refl Hp) as [E Hc].
    destruct (Hc eq_refl eq_refl) with (p := readable5) as (s' & c' & k' & E' & _ & _ & Hcl & Hf & _).
    + split; [vm_compute; lia|by apply (bool_decide_unpack _)].
    + by repeat constructor.
    + eexists _, s'. split; [exact E|]. split; [exact E'|]. split; [exact Hcl|]. rewrite Hf. vm_compute. reflexivity.
Defined.

(** A server that counts the packets it is given. *)
Definition counting_callbacks : callbacks (U := unit) :=
  Callbacks None (Some (λ _ _ s, Some (tt, set_closed (closed s ++ [-1]) s))) None None None.
Definition record_tls : tls := Tls true [] [TRead (x01 :: str "q" ++ [x01; "r"]%byte) true SSL_ERROR_SSL false] [].

Lemma tls_record_dispatched_witness :
  ∃ s', run_events true counting_callbacks 1 [readable5] (tls_net ready_cbuf record_tls) = Some (Some s') ∧ closed s' = [-1].
Proof.
  destruct (tls_record_dispatched counting_callbacks (λ _ _ s, Some (tt, set_closed (closed s ++ [-1]) s))
    (tls_net ready_cbuf record_tls) 5 ready_cbuf (Kernel [] [] [] record_tls) x01 (str "q") [x01; "r"]%byte
    true SSL_ERROR_SSL false [] readable5 0 (tls_net_at _ _)) as (c1 & H1 & H2 & H3); try reflexivity; try done; [by right|].
  eexists. split; [eapply H3; [reflexivity| |exact H2]|reflexivity]. split; [lia|reflexivity].
Defined.

(** The length byte and the body come after a call that had to wait. *)
Definition waiting_tls : tls := Tls true [] [TRead [x01; "q"]%byte false SSL_ERROR_WANT_READ false] [].

Lemma tls_header_retry_reads_nothing_witness :
  ∃ c, option_map (λ r, r.1.2) (pktsocket_read true ready_cbuf (Kernel [] [] [] (Tls true [] [] []))) = Some c ∧
  ∃ r c' k', pktsocket_read true c (Kernel [] [] [] waiting_tls) = Some (r, c', k') ∧
    concat (map tr_data (t_read (k_tls k'))) = [x01; "q"]%byte.
Proof.
  eexists. split; [reflexivity|].
  edestruct tls_header_retry_reads_nothing as (r & c' & k' & H1 & _ & H2 & _);
    [| | | | |exists r, c', k'; split; [exact H1|exact H2]]; repeat split; reflexivity.
Defined.
