(* ===== verification/State.v ===== *)
(** * The state of the server (server/server.h, server/globals.c)

    The user and group tables, the per-connection arrays and the statistics as
    one record, with the accessors the handlers use.  Name lists are the
    sequences of names that [NameList] shows the linked lists to implement.
    What the server does to the outside world (the packets it hands to the
    packet server, the connections it closes) is kept in a log. *)

From Stdlib Require Import ZArith Lia.
From S2P Require Import Config Prelude Wildmat StrList NameList Monad Dbm IcbDb.

Local Open Scope Z_scope.
Local Open Scope icb_monad_scope.

(** ** Constants of server.h and groups.h *)

Definition LOGIN_FALSE : Z := 0.
Definition LOGIN_PENDING : Z := 1.
Definition LOGIN_COMPLETE : Z := 2.
Definition PERM_NULL : Z := 0.
Definition VISIBLE : Z := 1.
Definition SECRET : Z := 2.
Definition SUPERSECRET : Z := 3.
Definition PUBLIC : Z := 1.
Definition MODERATED : Z := 2.
Definition RESTRICTED : Z := 3.
Definition CONTROLLED : Z := 4.
Definition QUIET : Z := 1.
Definition NORMAL : Z := 2.
Definition LOUD : Z := 3.
Definition IDLEBOOT_MSG_LEN : nat := 79 - 15 - MAX_NICKLEN + 2.
Definition DEF_IDLE_BOOT : Z := 3600.
Definition DEF_IDLE_MOD : Z := 3600.
Definition MAX_IDLE_MOD : Z := 14400.
Definition IDLE_GROUP : cstring := str "~IDLE~".
Definition BOOT_GROUP : cstring := str "~RESEDA~".

(** The last slot of the user table belongs to the resident automatic user. *)
Definition MAX_REAL_USERS `{BuildConfig} : Z := Z.of_nat MAX_USERS - 1.
Definition NICKSERV `{BuildConfig} : Z := Z.of_nat MAX_USERS - 1.

(** ** Records *)

(** USER_ITEM; a name list is the sequence of its names. *)
Record user : Type := User {
  u_loginid : cstring;
  u_nodeid : cstring;
  u_nickname : cstring;
  u_password : cstring;
  u_realname : cstring;
  u_group : cstring;
  u_awaymsg : cstring;
  u_lastaway : Z;
  u_lastawaytime : Z;
  u_login : Z;
  u_echoback : Z;
  u_nobeep : Z;
  u_perms : Z;
  u_t_notify : Z;
  u_t_on : Z;
  u_t_sent : Z;
  u_t_recv : Z;
  u_t_group : Z;
  u_secure : Z;
  u_pri_n_hushed : list cstring;
  u_pub_n_hushed : list cstring;
  u_pri_s_hushed : list cstring;
  u_pub_s_hushed : list cstring;
  u_n_notifies : list cstring;
  u_s_notifies : list cstring
}.

(** GROUP_ITEM. *)
Record group : Type := Group {
  g_name : cstring;
  g_topic : cstring;
  g_visibility : Z;
  g_control : Z;
  g_volume : Z;
  g_mod : Z;
  g_missingmod : cstring;
  g_modtimeout : Z;
  g_n_invites : list cstring;
  g_nr_invites : list cstring;
  g_s_invites : list cstring;
  g_sr_invites : list cstring;
  g_n_bars : list cstring;
  g_n_nr_bars : list cstring;
  g_s_bars : list cstring;
  g_s_nr_bars : list cstring;
  g_n_talk : list cstring;
  g_nr_talk : list cstring;
  g_size : Z;
  g_idleboot : Z;
  g_idleboot_msg : cstring;
  g_idlemod : Z
}.

(** The counters of s_stats.h. *)
Record server_stats : Type := Stats {
  start_time : Z; signons : Z; boots : Z; idleboots : Z; idlemods : Z; drops : Z
}.

(** What leaves the server: a packet handed to the packet server (the command
    byte and the data, without length byte and NUL), a connection closed, the
    reading of a message buffer that [filtertext] left without a NUL, from
    which on the behaviour of the program is undefined, and the end of the
    program. *)
Inductive event : Type :=
| EvSend (to : Z) (packet : cstring)
| EvDisconnect (fd : Z)
| EvOverread
| EvExit.

#[global] Instance event_eq_dec : EqDecision event.
Proof. solve_decision. Defined.

(** The remaining globals: the shutdown in preparation, the counts of open
    messages of msgs.c, the microseconds of the clock, the level of the log, and
    how many entries of [fields] of strutil.c [split] has set so far; the others
    are null pointers. *)
Record globals : Type := Globals {
  TimeToDie : Z;
  ShutdownNotify : Z;
  u_recv_count : list Z;
  usec : Z;
  log_level : Z;
  fields_set : nat
}.

(** The state: the tables and globals of globals.c, [is_booting] of s_group.c,
    the statistics, the clock that [time(NULL)] reads during a command, the
    user database and the log.  A cleared [ping_time] is 0. *)
Record st : Type := St {
  u_tab : list user;
  g_tab : list group;
  S_kill : list Z;
  lpriv_id : list Z;
  pong_req : list Z;
  ping_time : list Z;
  is_booting : Z;
  stats : server_stats;
  clock : Z;
  curtime : Z;
  userdb : icbdb;
  events : list event;
  glob : globals
}.

(** ** Field updates *)

Definition set_u_loginid (x : cstring) (u : user) : user :=
  User x (u_nodeid u) (u_nickname u) (u_password u) (u_realname u) (u_group u) (u_awaymsg u) (u_lastaway u) (u_lastawaytime u) (u_login u) (u_echoback u) (u_nobeep u) (u_perms u) (u_t_notify u) (u_t_on u) (u_t_sent u) (u_t_recv u) (u_t_group u) (u_secure u) (u_pri_n_hushed u) (u_pub_n_hushed u) (u_pri_s_hushed u) (u_pub_s_hushed u) (u_n_notifies u) (u_s_notifies u).
Definition set_u_nodeid (x : cstring) (u : user) : user :=
  User (u_loginid u) x (u_nickname u) (u_password u) (u_realname u) (u_group u) (u_awaymsg u) (u_lastaway u) (u_lastawaytime u) (u_login u) (u_echoback u) (u_nobeep u) (u_perms u) (u_t_notify u) (u_t_on u) (u_t_sent u) (u_t_recv u) (u_t_group u) (u_secure u) (u_pri_n_hushed u) (u_pub_n_hushed u) (u_pri_s_hushed u) (u_pub_s_hushed u) (u_n_notifies u) (u_s_notifies u).
Definition set_u_nickname (x : cstring) (u : user) : user :=
  User (u_loginid u) (u_nodeid u) x (u_password u) (u_realname u) (u_group u) (u_awaymsg u) (u_lastaway u) (u_lastawaytime u) (u_login u) (u_echoback u) (u_nobeep u) (u_perms u) (u_t_notify u) (u_t_on u) (u_t_sent u) (u_t_recv u) (u_t_group u) (u_secure u) (u_pri_n_hushed u) (u_pub_n_hushed u) (u_pri_s_hushed u) (u_pub_s_hushed u) (u_n_notifies u) (u_s_notifies u).
Definition set_u_password (x : cstring) (u : user) : user :=
  User (u_loginid u) (u_nodeid u) (u_nickname u) x (u_realname u) (u_group u) (u_awaymsg u) (u_lastaway u) (u_lastawaytime u) (u_login u) (u_echoback u) (u_nobeep u) (u_perms u) (u_t_notify u) (u_t_on u) (u_t_sent u) (u_t_recv u) (u_t_group u) (u_secure u) (u_pri_n_hushed u) (u_pub_n_hushed u) (u_pri_s_hushed u) (u_pub_s_hushed u) (u_n_notifies u) (u_s_notifies u).
Definition set_u_realname (x : cstring) (u : user) : user :=
  User (u_loginid u) (u_nodeid u) (u_nickname u) (u_password u) x (u_group u) (u_awaymsg u) (u_lastaway u) (u_lastawaytime u) (u_login u) (u_echoback u) (u_nobeep u) (u_perms u) (u_t_notify u) (u_t_on u) (u_t_sent u) (u_t_recv u) (u_t_group u) (u_secure u) (u_pri_n_hushed u) (u_pub_n_hushed u) (u_pri_s_hushed u) (u_pub_s_hushed u) (u_n_notifies u) (u_s_notifies u).
Definition set_u_group (x : cstring) (u : user) : user :=
  User (u_loginid u) (u_nodeid u) (u_nickname u) (u_password u) (u_realname u) x (u_awaymsg u) (u_lastaway u) (u_lastawaytime u) (u_login u) (u_echoback u) (u_nobeep u) (u_perms u) (u_t_notify u) (u_t_on u) (u_t_sent u) (u_t_recv u) (u_t_group u) (u_secure u) (u_pri_n_hushed u) (u_pub_n_hushed u) (u_pri_s_hushed u) (u_pub_s_hushed u) (u_n_notifies u) (u_s_notifies u).
Definition set_u_awaymsg (x : cstring) (u : user) : user :=
  User (u_loginid u) (u_nodeid u) (u_nickname u) (u_password u) (u_realname u) (u_group u) x (u_lastaway u) (u_lastawaytime u) (u_login u) (u_echoback u) (u_nobeep u) (u_perms u) (u_t_notify u) (u_t_on u) (u_t_sent u) (u_t_recv u) (u_t_group u) (u_secure u) (u_pri_n_hushed u) (u_pub_n_hushed u) (u_pri_s_hushed u) (u_pub_s_hushed u) (u_n_notifies u) (u_s_notifies u).
Definition set_u_lastaway (x : Z) (u : user) : user :=
  User (u_loginid u) (u_nodeid u) (u_nickname u) (u_password u) (u_realname u) (u_group u) (u_awaymsg u) x (u_lastawaytime u) (u_login u) (u_echoback u) (u_nobeep u) (u_perms u) (u_t_notify u) (u_t_on u) (u_t_sent u) (u_t_recv u) (u_t_group u) (u_secure u) (u_pri_n_hushed u) (u_pub_n_hushed u) (u_pri_s_hushed u) (u_pub_s_hushed u) (u_n_notifies u) (u_s_notifies u).
Definition set_u_lastawaytime (x : Z) (u : user) : user :=
  User (u_loginid u) (u_nodeid u) (u_nickname u) (u_password u) (u_realname u) (u_group u) (u_awaymsg u) (u_lastaway u) x (u_login u) (u_echoback u) (u_nobeep u) (u_perms u) (u_t_notify u) (u_t_on u) (u_t_sent u) (u_t_recv u) (u_t_group u) (u_secure u) (u_pri_n_hushed u) (u_pub_n_hushed u) (u_pri_s_hushed u) (u_pub_s_hushed u) (u_n_notifies u) (u_s_notifies u).
Definition set_u_login (x : Z) (u : user) : user :=
  User (u_loginid u) (u_nodeid u) (u_nickname u) (u_password u) (u_realname u) (u_group u) (u_awaymsg u) (u_lastaway u) (u_lastawaytime u) x (u_echoback u) (u_nobeep u) (u_perms u) (u_t_notify u) (u_t_on u) (u_t_sent u) (u_t_recv u) (u_t_group u) (u_secure u) (u_pri_n_hushed u) (u_pub_n_hushed u) (u_pri_s_hushed u) (u_pub_s_hushed u) (u_n_notifies u) (u_s_notifies u).
Definition set_u_echoback (x : Z) (u : user) : user :=
  User (u_loginid u) (u_nodeid u) (u_nickname u) (u_password u) (u_realname u) (u_group u) (u_awaymsg u) (u_lastaway u) (u_lastawaytime u) (u_login u) x (u_nobeep u) (u_perms u) (u_t_notify u) (u_t_on u) (u_t_sent u) (u_t_recv u) (u_t_group u) (u_secure u) (u_pri_n_hushed u) (u_pub_n_hushed u) (u_pri_s_hushed u) (u_pub_s_hushed u) (u_n_notifies u) (u_s_notifies u).
Definition set_u_nobeep (x : Z) (u : user) : user :=
  User (u_loginid u) (u_nodeid u) (u_nickname u) (u_password u) (u_realname u) (u_group u) (u_awaymsg u) (u_lastaway u) (u_lastawaytime u) (u_login u) (u_echoback u) x (u_perms u) (u_t_notify u) (u_t_on u) (u_t_sent u) (u_t_recv u) (u_t_group u) (u_secure u) (u_pri_n_hushed u) (u_pub_n_hushed u) (u_pri_s_hushed u) (u_pub_s_hushed u) (u_n_notifies u) (u_s_notifies u).
Definition set_u_perms (x : Z) (u : user) : user :=
  User (u_loginid u) (u_nodeid u) (u_nickname u) (u_password u) (u_realname u) (u_group u) (u_awaymsg u) (u_lastaway u) (u_lastawaytime u) (u_login u) (u_echoback u) (u_nobeep u) x (u_t_notify u) (u_t_on u) (u_t_sent u) (u_t_recv u) (u_t_group u) (u_secure u) (u_pri_n_hushed u) (u_pub_n_hushed u) (u_pri_s_hushed u) (u_pub_s_hushed u) (u_n_notifies u) (u_s_notifies u).
Definition set_u_t_notify (x : Z) (u : user) : user :=
  User (u_loginid u) (u_nodeid u) (u_nickname u) (u_password u) (u_realname u) (u_group u) (u_awaymsg u) (u_lastaway u) (u_lastawaytime u) (u_login u) (u_echoback u) (u_nobeep u) (u_perms u) x (u_t_on u) (u_t_sent u) (u_t_recv u) (u_t_group u) (u_secure u) (u_pri_n_hushed u) (u_pub_n_hushed u) (u_pri_s_hushed u) (u_pub_s_hushed u) (u_n_notifies u) (u_s_notifies u).
Definition set_u_t_on (x : Z) (u : user) : user :=
  User (u_loginid u) (u_nodeid u) (u_nickname u) (u_password u) (u_realname u) (u_group u) (u_awaymsg u) (u_lastaway u) (u_lastawaytime u) (u_login u) (u_echoback u) (u_nobeep u) (u_perms u) (u_t_notify u) x (u_t_sent u) (u_t_recv u) (u_t_group u) (u_secure u) (u_pri_n_hushed u) (u_pub_n_hushed u) (u_pri_s_hushed u) (u_pub_s_hushed u) (u_n_notifies u) (u_s_notifies u).
Definition set_u_t_sent (x : Z) (u : user) : user :=
  User (u_loginid u) (u_nodeid u) (u_nickname u) (u_password u) (u_realname u) (u_group u) (u_awaymsg u) (u_lastaway u) (u_lastawaytime u) (u_login u) (u_echoback u) (u_nobeep u) (u_perms u) (u_t_notify u) (u_t_on u) x (u_t_recv u) (u_t_group u) (u_secure u) (u_pri_n_hushed u) (u_pub_n_hushed u) (u_pri_s_hushed u) (u_pub_s_hushed u) (u_n_notifies u) (u_s_notifies u).
Definition set_u_t_recv (x : Z) (u : user) : user :=
  User (u_loginid u) (u_nodeid u) (u_nickname u) (u_password u) (u_realname u) (u_group u) (u_awaymsg u) (u_lastaway u) (u_lastawaytime u) (u_login u) (u_echoback u) (u_nobeep u) (u_perms u) (u_t_notify u) (u_t_on u) (u_t_sent u) x (u_t_group u) (u_secure u) (u_pri_n_hushed u) (u_pub_n_hushed u) (u_pri_s_hushed u) (u_pub_s_hushed u) (u_n_notifies u) (u_s_notifies u).
Definition set_u_t_group (x : Z) (u : user) : user :=
  User (u_loginid u) (u_nodeid u) (u_nickname u) (u_password u) (u_realname u) (u_group u) (u_awaymsg u) (u_lastaway u) (u_lastawaytime u) (u_login u) (u_echoback u) (u_nobeep u) (u_perms u) (u_t_notify u) (u_t_on u) (u_t_sent u) (u_t_recv u) x (u_secure u) (u_pri_n_hushed u) (u_pub_n_hushed u) (u_pri_s_hushed u) (u_pub_s_hushed u) (u_n_notifies u) (u_s_notifies u).
Definition set_u_secure (x : Z) (u : user) : user :=
  User (u_loginid u) (u_nodeid u) (u_nickname u) (u_password u) (u_realname u) (u_group u) (u_awaymsg u) (u_lastaway u) (u_lastawaytime u) (u_login u) (u_echoback u) (u_nobeep u) (u_perms u) (u_t_notify u) (u_t_on u) (u_t_sent u) (u_t_recv u) (u_t_group u) x (u_pri_n_hushed u) (u_pub_n_hushed u) (u_pri_s_hushed u) (u_pub_s_hushed u) (u_n_notifies u) (u_s_notifies u).
Definition set_u_pri_n_hushed (x : list cstring) (u : user) : user :=
  User (u_loginid u) (u_nodeid u) (u_nickname u) (u_password u) (u_realname u) (u_group u) (u_awaymsg u) (u_lastaway u) (u_lastawaytime u) (u_login u) (u_echoback u) (u_nobeep u) (u_perms u) (u_t_notify u) (u_t_on u) (u_t_sent u) (u_t_recv u) (u_t_group u) (u_secure u) x (u_pub_n_hushed u) (u_pri_s_hushed u) (u_pub_s_hushed u) (u_n_notifies u) (u_s_notifies u).
Definition set_u_pub_n_hushed (x : list cstring) (u : user) : user :=
  User (u_loginid u) (u_nodeid u) (u_nickname u) (u_password u) (u_realname u) (u_group u) (u_awaymsg u) (u_lastaway u) (u_lastawaytime u) (u_login u) (u_echoback u) (u_nobeep u) (u_perms u) (u_t_notify u) (u_t_on u) (u_t_sent u) (u_t_recv u) (u_t_group u) (u_secure u) (u_pri_n_hushed u) x (u_pri_s_hushed u) (u_pub_s_hushed u) (u_n_notifies u) (u_s_notifies u).
Definition set_u_pri_s_hushed (x : list cstring) (u : user) : user :=
  User (u_loginid u) (u_nodeid u) (u_nickname u) (u_password u) (u_realname u) (u_group u) (u_awaymsg u) (u_lastaway u) (u_lastawaytime u) (u_login u) (u_echoback u) (u_nobeep u) (u_perms u) (u_t_notify u) (u_t_on u) (u_t_sent u) (u_t_recv u) (u_t_group u) (u_secure u) (u_pri_n_hushed u) (u_pub_n_hushed u) x (u_pub_s_hushed u) (u_n_notifies u) (u_s_notifies u).
Definition set_u_pub_s_hushed (x : list cstring) (u : user) : user :=
  User (u_loginid u) (u_nodeid u) (u_nickname u) (u_password u) (u_realname u) (u_group u) (u_awaymsg u) (u_lastaway u) (u_lastawaytime u) (u_login u) (u_echoback u) (u_nobeep u) (u_perms u) (u_t_notify u) (u_t_on u) (u_t_sent u) (u_t_recv u) (u_t_group u) (u_secure u) (u_pri_n_hushed u) (u_pub_n_hushed u) (u_pri_s_hushed u) x (u_n_notifies u) (u_s_notifies u).
Definition set_u_n_notifies (x : list cstring) (u : user) : user :=
  User (u_loginid u) (u_nodeid u) (u_nickname u) (u_password u) (u_realname u) (u_group u) (u_awaymsg u) (u_lastaway u) (u_lastawaytime u) (u_login u) (u_echoback u) (u_nobeep u) (u_perms u) (u_t_notify u) (u_t_on u) (u_t_sent u) (u_t_recv u) (u_t_group u) (u_secure u) (u_pri_n_hushed u) (u_pub_n_hushed u) (u_pri_s_hushed u) (u_pub_s_hushed u) x (u_s_notifies u).
Definition set_u_s_notifies (x : list cstring) (u : user) : user :=
  User (u_loginid u) (u_nodeid u) (u_nickname u) (u_password u) (u_realname u) (u_group u) (u_awaymsg u) (u_lastaway u) (u_lastawaytime u) (u_login u) (u_echoback u) (u_nobeep u) (u_perms u) (u_t_notify u) (u_t_on u) (u_t_sent u) (u_t_recv u) (u_t_group u) (u_secure u) (u_pri_n_hushed u) (u_pub_n_hushed u) (u_pri_s_hushed u) (u_pub_s_hushed u) (u_n_notifies u) x.

Definition set_g_name (x : cstring) (g : group) : group :=
  Group x (g_topic g) (g_visibility g) (g_control g) (g_volume g) (g_mod g) (g_missingmod g) (g_modtimeout g) (g_n_invites g) (g_nr_invites g) (g_s_invites g) (g_sr_invites g) (g_n_bars g) (g_n_nr_bars g) (g_s_bars g) (g_s_nr_bars g) (g_n_talk g) (g_nr_talk g) (g_size g) (g_idleboot g) (g_idleboot_msg g) (g_idlemod g).
Definition set_g_topic (x : cstring) (g : group) : group :=
  Group (g_name g) x (g_visibility g) (g_control g) (g_volume g) (g_mod g) (g_missingmod g) (g_modtimeout g) (g_n_invites g) (g_nr_invites g) (g_s_invites g) (g_sr_invites g) (g_n_bars g) (g_n_nr_bars g) (g_s_bars g) (g_s_nr_bars g) (g_n_talk g) (g_nr_talk g) (g_size g) (g_idleboot g) (g_idleboot_msg g) (g_idlemod g).
Definition set_g_visibility (x : Z) (g : group) : group :=
  Group (g_name g) (g_topic g) x (g_control g) (g_volume g) (g_mod g) (g_missingmod g) (g_modtimeout g) (g_n_invites g) (g_nr_invites g) (g_s_invites g) (g_sr_invites g) (g_n_bars g) (g_n_nr_bars g) (g_s_bars g) (g_s_nr_bars g) (g_n_talk g) (g_nr_talk g) (g_size g) (g_idleboot g) (g_idleboot_msg g) (g_idlemod g).
Definition set_g_control (x : Z) (g : group) : group :=
  Group (g_name g) (g_topic g) (g_visibility g) x (g_volume g) (g_mod g) (g_missingmod g) (g_modtimeout g) (g_n_invites g) (g_nr_invites g) (g_s_invites g) (g_sr_invites g) (g_n_bars g) (g_n_nr_bars g) (g_s_bars g) (g_s_nr_bars g) (g_n_talk g) (g_nr_talk g) (g_size g) (g_idleboot g) (g_idleboot_msg g) (g_idlemod g).
Definition set_g_volume (x : Z) (g : group) : group :=
  Group (g_name g) (g_topic g) (g_visibility g) (g_control g) x (g_mod g) (g_missingmod g) (g_modtimeout g) (g_n_invites g) (g_nr_invites g) (g_s_invites g) (g_sr_invites g) (g_n_bars g) (g_n_nr_bars g) (g_s_bars g) (g_s_nr_bars g) (g_n_talk g) (g_nr_talk g) (g_size g) (g_idleboot g) (g_idleboot_msg g) (g_idlemod g).
Definition set_g_mod (x : Z) (g : group) : group :=
  Group (g_name g) (g_topic g) (g_visibility g) (g_control g) (g_volume g) x (g_missingmod g) (g_modtimeout g) (g_n_invites g) (g_nr_invites g) (g_s_invites g) (g_sr_invites g) (g_n_bars g) (g_n_nr_bars g) (g_s_bars g) (g_s_nr_bars g) (g_n_talk g) (g_nr_talk g) (g_size g) (g_idleboot g) (g_idleboot_msg g) (g_idlemod g).
Definition set_g_missingmod (x : cstring) (g : group) : group :=
  Group (g_name g) (g_topic g) (g_visibility g) (g_control g) (g_volume g) (g_mod g) x (g_modtimeout g) (g_n_invites g) (g_nr_invites g) (g_s_invites g) (g_sr_invites g) (g_n_bars g) (g_n_nr_bars g) (g_s_bars g) (g_s_nr_bars g) (g_n_talk g) (g_nr_talk g) (g_size g) (g_idleboot g) (g_idleboot_msg g) (g_idlemod g).
Definition set_g_modtimeout (x : Z) (g : group) : group :=
  Group (g_name g) (g_topic g) (g_visibility g) (g_control g) (g_volume g) (g_mod g) (g_missingmod g) x (g_n_invites g) (g_nr_invites g) (g_s_invites g) (g_sr_invites g) (g_n_bars g) (g_n_nr_bars g) (g_s_bars g) (g_s_nr_bars g) (g_n_talk g) (g_nr_talk g) (g_size g) (g_idleboot g) (g_idleboot_msg g) (g_idlemod g).
Definition set_g_n_invites (x : list cstring) (g : group) : group :=
  Group (g_name g) (g_topic g) (g_visibility g) (g_control g) (g_volume g) (g_mod g) (g_missingmod g) (g_modtimeout g) x (g_nr_invites g) (g_s_invites g) (g_sr_invites g) (g_n_bars g) (g_n_nr_bars g) (g_s_bars g) (g_s_nr_bars g) (g_n_talk g) (g_nr_talk g) (g_size g) (g_idleboot g) (g_idleboot_msg g) (g_idlemod g).
Definition set_g_nr_invites (x : list cstring) (g : group) : group :=
  Group (g_name g) (g_topic g) (g_visibility g) (g_control g) (g_volume g) (g_mod g) (g_missingmod g) (g_modtimeout g) (g_n_invites g) x (g_s_invites g) (g_sr_invites g) (g_n_bars g) (g_n_nr_bars g) (g_s_bars g) (g_s_nr_bars g) (g_n_talk g) (g_nr_talk g) (g_size g) (g_idleboot g) (g_idleboot_msg g) (g_idlemod g).
Definition set_g_s_invites (x : list cstring) (g : group) : group :=
  Group (g_name g) (g_topic g) (g_visibility g) (g_control g) (g_volume g) (g_mod g) (g_missingmod g) (g_modtimeout g) (g_n_invites g) (g_nr_invites g) x (g_sr_invites g) (g_n_bars g) (g_n_nr_bars g) (g_s_bars g) (g_s_nr_bars g) (g_n_talk g) (g_nr_talk g) (g_size g) (g_idleboot g) (g_idleboot_msg g) (g_idlemod g).
Definition set_g_sr_invites (x : list cstring) (g : group) : group :=
  Group (g_name g) (g_topic g) (g_visibility g) (g_control g) (g_volume g) (g_mod g) (g_missingmod g) (g_modtimeout g) (g_n_invites g) (g_nr_invites g) (g_s_invites g) x (g_n_bars g) (g_n_nr_bars g) (g_s_bars g) (g_s_nr_bars g) (g_n_talk g) (g_nr_talk g) (g_size g) (g_idleboot g) (g_idleboot_msg g) (g_idlemod g).
Definition set_g_n_bars (x : list cstring) (g : group) : group :=
  Group (g_name g) (g_topic g) (g_visibility g) (g_control g) (g_volume g) (g_mod g) (g_missingmod g) (g_modtimeout g) (g_n_invites g) (g_nr_invites g) (g_s_invites g) (g_sr_invites g) x (g_n_nr_bars g) (g_s_bars g) (g_s_nr_bars g) (g_n_talk g) (g_nr_talk g) (g_size g) (g_idleboot g) (g_idleboot_msg g) (g_idlemod g).
Definition set_g_n_nr_bars (x : list cstring) (g : group) : group :=
  Group (g_name g) (g_topic g) (g_visibility g) (g_control g) (g_volume g) (g_mod g) (g_missingmod g) (g_modtimeout g) (g_n_invites g) (g_nr_invites g) (g_s_invites g) (g_sr_invites g) (g_n_bars g) x (g_s_bars g) (g_s_nr_bars g) (g_n_talk g) (g_nr_talk g) (g_size g) (g_idleboot g) (g_idleboot_msg g) (g_idlemod g).
Definition set_g_s_bars (x : list cstring) (g : group) : group :=
  Group (g_name g) (g_topic g) (g_visibility g) (g_control g) (g_volume g) (g_mod g) (g_missingmod g) (g_modtimeout g) (g_n_invites g) (g_nr_invites g) (g_s_invites g) (g_sr_invites g) (g_n_bars g) (g_n_nr_bars g) x (g_s_nr_bars g) (g_n_talk g) (g_nr_talk g) (g_size g) (g_idleboot g) (g_idleboot_msg g) (g_idlemod g).
Definition set_g_s_nr_bars (x : list cstring) (g : group) : group :=
  Group (g_name g) (g_topic g) (g_visibility g) (g_control g) (g_volume g) (g_mod g) (g_missingmod g) (g_modtimeout g) (g_n_invites g) (g_nr_invites g) (g_s_invites g) (g_sr_invites g) (g_n_bars g) (g_n_nr_bars g) (g_s_bars g) x (g_n_talk g) (g_nr_talk g) (g_size g) (g_idleboot g) (g_idleboot_msg g) (g_idlemod g).
Definition set_g_n_talk (x : list cstring) (g : group) : group :=
  Group (g_name g) (g_topic g) (g_visibility g) (g_control g) (g_volume g) (g_mod g) (g_missingmod g) (g_modtimeout g) (g_n_invites g) (g_nr_invites g) (g_s_invites g) (g_sr_invites g) (g_n_bars g) (g_n_nr_bars g) (g_s_bars g) (g_s_nr_bars g) x (g_nr_talk g) (g_size g) (g_idleboot g) (g_idleboot_msg g) (g_idlemod g).
Definition set_g_nr_talk (x : list cstring) (g : group) : group :=
  Group (g_name g) (g_topic g) (g_visibility g) (g_control g) (g_volume g) (g_mod g) (g_missingmod g) (g_modtimeout g) (g_n_invites g) (g_nr_invites g) (g_s_invites g) (g_sr_invites g) (g_n_bars g) (g_n_nr_bars g) (g_s_bars g) (g_s_nr_bars g) (g_n_talk g) x (g_size g) (g_idleboot g) (g_idleboot_msg g) (g_idlemod g).
Definition set_g_size (x : Z) (g : group) : group :=
  Group (g_name g) (g_topic g) (g_visibility g) (g_control g) (g_volume g) (g_mod g) (g_missingmod g) (g_modtimeout g) (g_n_invites g) (g_nr_invites g) (g_s_invites g) (g_sr_invites g) (g_n_bars g) (g_n_nr_bars g) (g_s_bars g) (g_s_nr_bars g) (g_n_talk g) (g_nr_talk g) x (g_idleboot g) (g_idleboot_msg g) (g_idlemod g).
Definition set_g_idleboot (x : Z) (g : group) : group :=
  Group (g_name g) (g_topic g) (g_visibility g) (g_control g) (g_volume g) (g_mod g) (g_missingmod g) (g_modtimeout g) (g_n_invites g) (g_nr_invites g) (g_s_invites g) (g_sr_invites g) (g_n_bars g) (g_n_nr_bars g) (g_s_bars g) (g_s_nr_bars g) (g_n_talk g) (g_nr_talk g) (g_size g) x (g_idleboot_msg g) (g_idlemod g).
Definition set_g_idleboot_msg (x : cstring) (g : group) : group :=
  Group (g_name g) (g_topic g) (g_visibility g) (g_control g) (g_volume g) (g_mod g) (g_missingmod g) (g_modtimeout g) (g_n_invites g) (g_nr_invites g) (g_s_invites g) (g_sr_invites g) (g_n_bars g) (g_n_nr_bars g) (g_s_bars g) (g_s_nr_bars g) (g_n_talk g) (g_nr_talk g) (g_size g) (g_idleboot g) x (g_idlemod g).
Definition set_g_idlemod (x : Z) (g : group) : group :=
  Group (g_name g) (g_topic g) (g_visibility g) (g_control g) (g_volume g) (g_mod g) (g_missingmod g) (g_modtimeout g) (g_n_invites g) (g_nr_invites g) (g_s_invites g) (g_sr_invites g) (g_n_bars g) (g_n_nr_bars g) (g_s_bars g) (g_s_nr_bars g) (g_n_talk g) (g_nr_talk g) (g_size g) (g_idleboot g) (g_idleboot_msg g) x.

Definition set_u_tab (x : list user) (s : st) : st :=
  St x (g_tab s) (S_kill s) (lpriv_id s) (pong_req s) (ping_time s) (is_booting s) (stats s) (clock s) (curtime s) (userdb s) (events s) (glob s).
Definition set_g_tab (x : list group) (s : st) : st :=
  St (u_tab s) x (S_kill s) (lpriv_id s) (pong_req s) (ping_time s) (is_booting s) (stats s) (clock s) (curtime s) (userdb s) (events s) (glob s).
Definition set_S_kill (x : list Z) (s : st) : st :=
  St (u_tab s) (g_tab s) x (lpriv_id s) (pong_req s) (ping_time s) (is_booting s) (stats s) (clock s) (curtime s) (userdb s) (events s) (glob s).
Definition set_lpriv_id (x : list Z) (s : st) : st :=
  St (u_tab s) (g_tab s) (S_kill s) x (pong_req s) (ping_time s) (is_booting s) (stats s) (clock s) (curtime s) (userdb s) (events s) (glob s).
Definition set_pong_req (x : list Z) (s : st) : st :=
  St (u_tab s) (g_tab s) (S_kill s) (lpriv_id s) x (ping_time s) (is_booting s) (stats s) (clock s) (curtime s) (userdb s) (events s) (glob s).
Definition set_ping_time (x : list Z) (s : st) : st :=
  St (u_tab s) (g_tab s) (S_kill s) (lpriv_id s) (pong_req s) x (is_booting s) (stats s) (clock s) (curtime s) (userdb s) (events s) (glob s).
Definition set_is_booting (x : Z) (s : st) : st :=
  St (u_tab s) (g_tab s) (S_kill s) (lpriv_id s) (pong_req s) (ping_time s) x (stats s) (clock s) (curtime s) (userdb s) (events s) (glob s).
Definition set_stats (x : server_stats) (s : st) : st :=
  St (u_tab s) (g_tab s) (S_kill s) (lpriv_id s) (pong_req s) (ping_time s) (is_booting s) x (clock s) (curtime s) (userdb s) (events s) (glob s).
Definition set_clock (x : Z) (s : st) : st :=
  St (u_tab s) (g_tab s) (S_kill s) (lpriv_id s) (pong_req s) (ping_time s) (is_booting s) (stats s) x (curtime s) (userdb s) (events s) (glob s).
Definition set_curtime (x : Z) (s : st) : st :=
  St (u_tab s) (g_tab s) (S_kill s) (lpriv_id s) (pong_req s) (ping_time s) (is_booting s) (stats s) (clock s) x (userdb s) (events s) (glob s).
Definition set_userdb (x : icbdb) (s : st) : st :=
  St (u_tab s) (g_tab s) (S_kill s) (lpriv_id s) (pong_req s) (ping_time s) (is_booting s) (stats s) (clock s) (curtime s) x (events s) (glob s).
Definition set_events (x : list event) (s : st) : st :=
  St (u_tab s) (g_tab s) (S_kill s) (lpriv_id s) (pong_req s) (ping_time s) (is_booting s) (stats s) (clock s) (curtime s) (userdb s) x (glob s).
Definition set_glob (x : globals) (s : st) : st :=
  St (u_tab s) (g_tab s) (S_kill s) (lpriv_id s) (pong_req s) (ping_time s) (is_booting s) (stats s) (clock s) (curtime s) (userdb s) (events s) x.
Definition set_TimeToDie (x : Z) (s : st) : st :=
  let g := glob s in set_glob (Globals x (ShutdownNotify g) (u_recv_count g) (usec g) (log_level g) (fields_set g)) s.
Definition set_ShutdownNotify (x : Z) (s : st) : st :=
  let g := glob s in set_glob (Globals (TimeToDie g) x (u_recv_count g) (usec g) (log_level g) (fields_set g)) s.
Definition set_log_level (x : Z) (s : st) : st :=
  let g := glob s in set_glob (Globals (TimeToDie g) (ShutdownNotify g) (u_recv_count g) (usec g) x (fields_set g)) s.
Definition set_u_recv_count (x : list Z) (s : st) : st :=
  let g := glob s in set_glob (Globals (TimeToDie g) (ShutdownNotify g) x (usec g) (log_level g) (fields_set g)) s.

Definition set_fields_set (x : nat) (s : st) : st :=
  let g := glob s in set_glob (Globals (TimeToDie g) (ShutdownNotify g) (u_recv_count g) (usec g) (log_level g) x) s.

(** ** What the host and the build provide *)

(** The allocator and file system under the user database, the text [strftime]
    makes of a time, the hour and minute of the local time, the administrator's
    password of the build, the host name, the version, the names of the peers
    and their IPv4 addresses ([None] when the call fails, [Some None] for other
    families), [inet_addr], the contents of the text files that can be opened,
    the text of [ctime] without its newline, the numeric address [getnameinfo]
    makes of a peer's, the text of the error of [getpeername], whether the log
    file is open, and whether storage can still be used after it was freed: C
    leaves that undefined, and nothing is defined that would need it when
    [stale_storage] is false. *)
Class Host := {
  host_db : dbenv;
  format_time : Z → cstring;
  ADMIN_PWD : cstring;
  thishost : cstring;
  VERSION : cstring;
  getremotename : Z → option cstring;
  local_hm : Z → Z * Z;
  peer_ipv4 : Z → option (option Z);
  inet_addr : cstring → Z;
  text_file : cstring → option (list byte);
  ctime_text : Z → cstring;
  peer_numeric : Z → option cstring;
  peer_error : cstring;
  log_is_open : st → bool;
  stale_storage : bool
}.

(** ** Access to the tables *)

(** An entry of an array at an [int] index. *)
Definition entry_at {A} (n : Z) (l : list A) : option A :=
  if n <? 0 then None else l !! Z.to_nat n.
Definition entry_set {A} (n : Z) (x : A) (l : list A) : list A :=
  if n <? 0 then l else <[Z.to_nat n := x]> l.

(** [u_tab[n]] and [g_tab[n]]; outside the table the behaviour is undefined. *)
Definition user_at (n : Z) : M st user := s <- getS ;; lift (entry_at n (u_tab s)).
Definition group_at (n : Z) : M st group := s <- getS ;; lift (entry_at n (g_tab s)).

Definition upd_user (n : Z) (f : user → user) : M st unit :=
  u <- user_at n ;; modify (λ s, set_u_tab (entry_set n (f u) (u_tab s)) s).
Definition upd_group (n : Z) (f : group → group) : M st unit :=
  g <- group_at n ;; modify (λ s, set_g_tab (entry_set n (f g) (g_tab s)) s).

(** [a[n]] and [a[n] = v] for the arrays of integers, all of size [MAX_USERS]. *)
Definition int_at (a : st → list Z) (n : Z) : M st Z := s <- getS ;; lift (entry_at n (a s)).
Definition set_int (a : st → list Z) (seta : list Z → st → st) (n v : Z) : M st unit :=
  _ <- int_at a n ;; modify (λ s, seta (entry_set n v (a s)) s).

(** A call into the user database. *)
Definition with_userdb {A} (m : M icbdb A) : M st A := λ s,
  match m (userdb s) with
  | Some (a, d) => Some (a, set_userdb d s)
  | None => None
  end.

Definition emit (e : event) : M st unit := modify (λ s, set_events (events s ++ [e]) s).

(** [split] sets the first [n] entries of [fields]. *)
Definition set_fields (n : nat) : M st unit :=
  modify (λ s, set_fields_set (fields_set (glob s) `max` n) s).

(** The use of [fields[i]] where the packet at hand has not set it, in places
    where nothing depends on what is read or written there.  It is a null
    pointer, or it points into the buffer of an earlier packet, which was freed
    when that packet had been handled (pktserv.c), or into the frame of a call
    of [doSend] that has returned. *)
Definition stale_field `{Host} (i : nat) : M st unit :=
  k <- gets (λ s, fields_set (glob s)) ;;
  if (i <? k)%nat && stale_storage then ret tt else ub.

(** [time(NULL)] *)
Definition time : M st Z := gets clock.

(** [nlmatch] on the sequence of the names: the first entry that matches as a
    pattern, or undefined behaviour when a malformed entry comes first. *)
Fixpoint names_match (name : cstring) (l : list cstring) : option bool :=
  match l with
  | [] => Some false
  | p :: l' =>
      match wildmat name p with
      | Some true => Some true
      | Some false => names_match name l'
      | None => None
      end
  end.

(** The indices [0 .. n-1] of a loop over a table. *)
Definition zseq (n : Z) : list Z := Z.of_nat <$> seq 0 (Z.to_nat n).

(** The indices [a .. n-1]. *)
Definition zrange (a n : Z) : list Z := (λ i, a + Z.of_nat i) <$> seq 0 (Z.to_nat (n - a)).

(** ** Lemmas on the accessors *)

Section entries.
Context {A : Type}.
Implicit Types (l : list A) (x : A) (n m : Z).

Lemma entry_at_range l n : is_Some (entry_at n l) ↔ 0 ≤ n < Z.of_nat (length l).
Proof.
  unfold entry_at. destruct (Z.ltb_spec n 0).
  - split; [by intros [? ?]|lia].
  - rewrite lookup_lt_is_Some. lia.
Qed.
Lemma entry_at_lookup l n x : entry_at n l = Some x ↔ 0 ≤ n ∧ l !! Z.to_nat n = Some x.
Proof. unfold entry_at. destruct (Z.ltb_spec n 0); split; try done; [lia|tauto]. Qed.
Lemma entry_at_nat l i : entry_at (Z.of_nat i) l = l !! i.
Proof. unfold entry_at. destruct (Z.ltb_spec (Z.of_nat i) 0); [lia|]. by rewrite Nat2Z.id. Qed.
Lemma entry_set_at l n x : is_Some (entry_at n l) → entry_at n (entry_set n x l) = Some x.
Proof.
  rewrite entry_at_range. intros Hn. unfold entry_at, entry_set. destruct (Z.ltb_spec n 0); [lia|].
  rewrite list_lookup_insert_eq; [done|lia].
Qed.
Lemma entry_set_ne l n m x : n ≠ m → entry_at m (entry_set n x l) = entry_at m l.
Proof.
  intros Hne. unfold entry_at, entry_set. destruct (Z.ltb_spec m 0), (Z.ltb_spec n 0); try done.
  apply list_lookup_insert_ne. lia.
Qed.
Lemma length_entry_set l n x : length (entry_set n x l) = length l.
Proof. unfold entry_set. destruct (n <? 0); [done|]. by rewrite length_insert. Qed.
Lemma entry_set_same l n x : entry_at n l = Some x → entry_set n x l = l.
Proof.
  unfold entry_at, entry_set. destruct (n <? 0); [done|]. apply list_insert_id.
Qed.
Lemma entry_set_twice l n x y : entry_set n y (entry_set n x l) = entry_set n y l.
Proof. unfold entry_set. destruct (n <? 0); [done|]. by rewrite list_insert_insert_eq. Qed.
End entries.
#[export] Hint Rewrite @length_entry_set : icb_simpl.

Lemma elem_zseq n i : i ∈ zseq n ↔ 0 ≤ i < n.
Proof.
  unfold zseq. rewrite list_elem_of_fmap. split.
  - intros (k & -> & Hk%elem_of_seq). lia.
  - intros Hi. exists (Z.to_nat i). rewrite elem_of_seq. lia.
Qed.

Lemma elem_zrange a n i : i ∈ zrange a n ↔ a ≤ i < n.
Proof.
  unfold zrange. rewrite list_elem_of_fmap. split.
  - intros (k & -> & Hk%elem_of_seq). lia.
  - intros Hi. exists (Z.to_nat (i - a)). rewrite elem_of_seq. lia.
Qed.

(** ** Rules for the accessors *)

Section rules.
Implicit Types s : st.

Lemma user_at_run n u s : entry_at n (u_tab s) = Some u → user_at n s = Some (u, s).
Proof. intros E. unfold user_at, bind, getS, lift. by rewrite E. Qed.
Lemma group_at_run n g s : entry_at n (g_tab s) = Some g → group_at n s = Some (g, s).
Proof. intros E. unfold group_at, bind, getS, lift. by rewrite E. Qed.
Lemma int_at_run a n v s : entry_at n (a s) = Some v → int_at a n s = Some (v, s).
Proof. intros E. unfold int_at, bind, getS, lift. by rewrite E. Qed.
Lemma set_int_run a seta n v s :
  is_Some (entry_at n (a s)) → set_int a seta n v s = Some (tt, seta (entry_set n v (a s)) s).
Proof. intros [w E]. unfold set_int. by erewrite bind_runs by (by apply int_at_run). Qed.
Lemma upd_user_run n f u s :
  entry_at n (u_tab s) = Some u → upd_user n f s = Some (tt, set_u_tab (entry_set n (f u) (u_tab s)) s).
Proof. intros E. unfold upd_user. by erewrite bind_runs by (by apply user_at_run). Qed.
Lemma upd_group_run n f g s :
  entry_at n (g_tab s) = Some g → upd_group n f s = Some (tt, set_g_tab (entry_set n (f g) (g_tab s)) s).
Proof. intros E. unfold upd_group. by erewrite bind_runs by (by apply group_at_run). Qed.

Lemma wp_user_at n u Q s : entry_at n (u_tab s) = Some u → Q u s → wp (user_at n) Q s.
Proof. intros E HQ. unfold wp, user_at, bind, getS, lift. by rewrite E. Qed.
Lemma wp_group_at n g Q s : entry_at n (g_tab s) = Some g → Q g s → wp (group_at n) Q s.
Proof. intros E HQ. unfold wp, group_at, bind, getS, lift. by rewrite E. Qed.
Lemma wp_upd_user n f u Q s :
  entry_at n (u_tab s) = Some u → Q tt (set_u_tab (entry_set n (f u) (u_tab s)) s) → wp (upd_user n f) Q s.
Proof. intros E HQ. unfold upd_user. apply wp_bind. by eapply wp_user_at. Qed.
Lemma wp_upd_group n f g Q s :
  entry_at n (g_tab s) = Some g → Q tt (set_g_tab (entry_set n (f g) (g_tab s)) s) → wp (upd_group n f) Q s.
Proof. intros E HQ. unfold upd_group. apply wp_bind. by eapply wp_group_at. Qed.
Lemma wp_int_at a n v Q s : entry_at n (a s) = Some v → Q v s → wp (int_at a n) Q s.
Proof. intros E HQ. unfold wp, int_at, bind, getS, lift. by rewrite E. Qed.
Lemma wp_set_int a seta n v Q s :
  is_Some (entry_at n (a s)) → Q tt (seta (entry_set n v (a s)) s) → wp (set_int a seta n v) Q s.
Proof. intros [w E] HQ. unfold set_int. apply wp_bind. by eapply wp_int_at. Qed.
End rules.

(** An entry of [fields] that can be used although no packet has set it now. *)
Definition reusable `{Host} (i : nat) (s : st) : Prop := (i < fields_set (glob s))%nat ∧ stale_storage = true.

#[export] Instance reusable_dec `{Host} i s : Decision (reusable i s).
Proof. unfold reusable. apply _. Defined.

Lemma stale_field_run `{Host} i s : reusable i s → stale_field i s = Some (tt, s).
Proof. intros [Hi Hs]. unfold stale_field, bind, gets. apply Nat.ltb_lt in Hi. by rewrite Hi, Hs. Qed.
Lemma stale_field_inv `{Host} i s a s' : stale_field i s = Some (a, s') → reusable i s ∧ s' = s.
Proof.
  unfold stale_field, bind, gets, reusable. destruct (Nat.ltb_spec i (fields_set (glob s))), stale_storage; try done.
  by intros [= _ ->].
Qed.
Lemma stale_field_none `{Host} i s : ¬ reusable i s → stale_field i s = None.
Proof. intros Hn. destruct (stale_field i s) as [[a s']|] eqn:E; [|done]. by apply stale_field_inv in E as [? _]. Qed.
Lemma wp_stale_field `{Host} i Q s : reusable i s → Q tt s → wp (stale_field i) Q s.
Proof. intros Hi HQ. unfold wp. by rewrite stale_field_run. Qed.

(** The elements of [zseq n] in order. *)
Lemma zseq_split n pre x rest : zseq n = pre ++ x :: rest → x = Z.of_nat (length pre) ∧ 0 ≤ x < n.
Proof.
  intros E. assert (zseq n !! length pre = Some x) as Hx by (rewrite E, list_lookup_middle; done).
  unfold zseq in Hx. rewrite list_lookup_fmap in Hx. apply fmap_Some in Hx as (k & Hk & ->).
  apply lookup_seq in Hk as [-> ?]. lia.
Qed.
Lemma length_zseq n : 0 ≤ n → Z.of_nat (length (zseq n)) = n.
Proof. intros Hn. unfold zseq. rewrite length_fmap, length_seq. lia. Qed.

(** A loop over the indices of a table, with an invariant on the index. *)
Lemma wp_for_zseq {S} (I : Z → S → Prop) (n : Z) body s :
  0 ≤ n → I 0 s →
  (∀ i s, 0 ≤ i < n → I i s → wp (body i) (λ _, I (i + 1)) s) →
  wp (for_each (zseq n) body) (λ _, I n) s.
Proof.
  intros Hn H0 Hb.
  eapply wp_mono; [apply (wp_for_each (λ l s, I (Z.of_nat (length l)) s) (zseq n) body s)|]; [done| |].
  - intros pre x rest s' [-> Hr]%zseq_split Hi.
    eapply wp_mono; [by apply Hb|]. intros ? s1 Hs. rewrite length_app. simpl.
    replace (Z.of_nat (length pre + 1)) with (Z.of_nat (length pre) + 1) by lia. done.
  - intros ? s' Hs. by rewrite length_zseq in Hs.
Qed.

(** The same for a loop that is known to complete. *)
Lemma for_zseq_inv {S} (I : Z → S → Prop) (n : Z) body s s' :
  0 ≤ n → (∀ i s s', 0 ≤ i < n → I i s → body i s = Some (tt, s') → I (i + 1) s') →
  I 0 s → for_each (zseq n) body s = Some (tt, s') → I n s'.
Proof.
  intros Hn Hb H0 Hr. rewrite <-(length_zseq n Hn).
  apply (for_each_inv (λ l s, I (Z.of_nat (length l)) s) (zseq n) body s s'); [|done|done].
  intros pre x rest s1 s2 [-> Hx]%zseq_split Hi E. rewrite length_app. cbn [length].
  replace (Z.of_nat (length pre + 1)) with (Z.of_nat (length pre) + 1) by lia. by eapply Hb.
Qed.

(** The same from a first index on. *)
Lemma wp_for_zrange (I : Z → st → Prop) (a n : Z) body s :
  a ≤ n → I a s →
  (∀ i s, a ≤ i < n → I i s → wp (body i) (λ _, I (i + 1)) s) →
  wp (for_each (zrange a n) body) (λ _, I n) s.
Proof.
  intros Hn H0 Hb.
  eapply wp_mono; [apply (wp_for_each (λ l s, I (a + Z.of_nat (length l)) s) (zrange a n) body s)|].
  - by rewrite Z.add_0_r.
  - intros pre x rest s' E Hi.
    assert (x = a + Z.of_nat (length pre) ∧ a ≤ x < n) as [-> Hr].
    { assert (zrange a n !! length pre = Some x) as Hx by (rewrite E, list_lookup_middle; done).
      unfold zrange in Hx. rewrite list_lookup_fmap in Hx. apply fmap_Some in Hx as (k & Hk & ->).
      apply lookup_seq in Hk as [-> ?]. lia. }
    eapply wp_mono; [by apply Hb|]. intros ? s1 Hs. rewrite length_app. simpl.
    replace (a + Z.of_nat (length pre + 1)) with (a + Z.of_nat (length pre) + 1) by lia. done.
  - intros ? s' Hs. unfold zrange in Hs. rewrite length_fmap, length_seq, Z2Nat.id in Hs by lia.
    by replace (a + (n - a)) with n in Hs by lia.
Qed.
