(* ===== verification/Resolver.v ===== *)
(** * Names of connections (pktserv/getrname.c)

    The host name that a connection is known by, for a resolver that may answer
    anything.  A name that the resolver gives for an address is believed only
    if it leads back to that address; otherwise the address itself, in brackets,
    is the name. *)

From Stdlib Require Import ZArith Lia.
From S2P Require Import Config Prelude.

Local Open Scope Z_scope.

Definition RNAME_LEN : nat := 256.
(** From netdb.h. *)
Definition NI_MAXHOST : nat := 1025.

(** The calls of the system: [getpeername], [getsockname], [getnameinfo] for a
    name (NI_NAMEREQD) and for a number (NI_NUMERICHOST), and [getaddrinfo] for
    an address family. *)
Record resolver {A : Type} : Type := Resolver {
  sa_family : A → Z;
  getpeername : Z → option A;
  getsockname : Z → option A;
  name_of : A → option cstring;
  number_of : A → option cstring;
  addresses : cstring → Z → option (list A)
}.
Arguments resolver : clear implicits.

Section code.
Context {A : Type} (net : resolver A).

(** [getnameinfo] into a buffer fails when the text and its NUL do not fit. *)
Definition fits_in (len : nat) (t : cstring) : option cstring := if (length t <? len)%nat then Some t else None.

Definition addr_to_numeric (sa : A) (buflen : nat) : option cstring := number_of net sa ≫= fits_in buflen.

Definition same_number (orig : cstring) (rp : A) : bool :=
  match addr_to_numeric rp NI_MAXHOST with Some n => bool_decide (n = orig) | None => false end.

(** The verified name, cut to [hostbuflen]. *)
Definition double_reverse_check_sa (sa : A) (hostbuflen : nat) : option cstring :=
  host ← name_of net sa ≫= fits_in NI_MAXHOST;
  res ← addresses net host (sa_family net sa);
  orig ← addr_to_numeric sa NI_MAXHOST;
  if existsb (same_number orig) res then Some (take (hostbuflen - 1) host) else None.

Definition bracketed (sa : A) : cstring :=
  take (RNAME_LEN - 1) (str "[" ++ default (str "(unknown)") (addr_to_numeric sa (RNAME_LEN - 3)) ++ str "]").

Definition getremotename (socketfd : Z) : option cstring :=
  rs ← getpeername net socketfd;
  Some (default (bracketed rs) (double_reverse_check_sa rs RNAME_LEN)).

Definition getlocalname (socketfd : Z) : option cstring :=
  rs ← getsockname net socketfd;
  Some (default (bracketed rs) (name_of net rs ≫= fits_in RNAME_LEN)).

Lemma fits_in_Some len t u : fits_in len t = Some u → u = t ∧ (length t < len)%nat.
Proof. unfold fits_in. destruct (Nat.ltb_spec (length t) len); [|done]. by intros [= <-]. Qed.

(** The brackets are never cut off. *)
Lemma bracketed_whole sa :
  bracketed sa = str "[" ++ default (str "(unknown)") (addr_to_numeric sa (RNAME_LEN - 3)) ++ str "]".
Proof.
  apply take_ge. rewrite !length_app. unfold addr_to_numeric.
  destruct (number_of net sa) as [n|]; cbn [mbind option_bind default]; [|vm_compute; lia].
  destruct (fits_in _ n) as [u|] eqn:E; cbn [default]; [|vm_compute; lia].
  apply fits_in_Some in E as [-> Hl]. change (RNAME_LEN - 3)%nat with 253%nat in Hl. change (RNAME_LEN - 1)%nat with 255%nat.
  change (length (str "[")) with 1%nat. change (length (str "]")) with 1%nat. unfold id. lia.
Qed.

(** C38: nobody is known by a host name of somebody else: the name of a
    connection is its own address in brackets, or a host name, cut to the
    buffer, which the resolver leads back to an address that prints as the
    connection's own.  It always fits its buffer. *)
Theorem getremotename_confirmed fd name :
  getremotename fd = Some name →
  ∃ sa, getpeername net fd = Some sa ∧ (length name < RNAME_LEN)%nat ∧
    (name = str "[" ++ default (str "(unknown)") (addr_to_numeric sa (RNAME_LEN - 3)) ++ str "]" ∨
     ∃ host res rp n, name_of net sa = Some host ∧ name = take (RNAME_LEN - 1) host ∧
       addresses net host (sa_family net sa) = Some res ∧ rp ∈ res ∧
       number_of net rp = Some n ∧ number_of net sa = Some n).
Proof.
  unfold getremotename. destruct (getpeername net fd) as [sa|]; cbn; [|done]. intros [= <-]. exists sa. split; [done|].
  assert ((length (bracketed sa) < RNAME_LEN)%nat) as Hb by (unfold bracketed; rewrite length_take; unfold RNAME_LEN; lia).
  unfold double_reverse_check_sa. destruct (name_of net sa ≫= fits_in NI_MAXHOST) as [host|] eqn:En; cbn [mbind option_bind default].
  2:{ split; [exact Hb|left; apply bracketed_whole]. }
  destruct (addresses net host (sa_family net sa)) as [res|] eqn:Er; cbn [mbind option_bind default]; [|split; [exact Hb|left; apply bracketed_whole]].
  destruct (addr_to_numeric sa NI_MAXHOST) as [orig|] eqn:Eo; cbn [mbind option_bind default]; [|split; [exact Hb|left; apply bracketed_whole]].
  destruct (existsb (same_number orig) res) eqn:Ex; cbn [default]; [|split; [exact Hb|left; apply bracketed_whole]].
  apply existsb_exists in Ex as (rp & Hrp & Es). split; [unfold id; rewrite length_take; unfold RNAME_LEN; lia|]. right.
  apply bind_Some in En as (h & En & [-> _]%fits_in_Some). apply bind_Some in Eo as (o & Eo & [-> _]%fits_in_Some).
  unfold same_number, addr_to_numeric in Es. destruct (number_of net rp) as [n|] eqn:Enr; cbn [mbind option_bind] in Es; [|done].
  destruct (fits_in NI_MAXHOST n) as [u|] eqn:Ef; [|done]. apply fits_in_Some in Ef as [-> _]. apply bool_decide_eq_true in Es as ->.
  exists h, res, rp, o. split_and!; try done. by apply list_elem_of_In.
Qed.
End code.

(** A resolver by which somebody who owns the reverse entry of an address
    gives it the name of another host. *)
Definition spoofed : resolver Z :=
  Resolver Z (λ _, 2) (λ fd, if fd =? 5 then Some 9 else None) (λ _, Some 1) (λ _, Some (str "host.example"))
    (λ a, Some (if a =? 9 then str "192.0.2.9" else str "192.0.2.1")) (λ _ _, Some [1]).

Lemma getremotename_confirmed_witness :
  getremotename spoofed 5 = Some (str "[192.0.2.9]") ∧ ∃ sa, getpeername spoofed 5 = Some sa ∧ (length (str "[192.0.2.9]") < RNAME_LEN)%nat.
Proof.
  split; [reflexivity|]. destruct (getremotename_confirmed spoofed 5 (str "[192.0.2.9]") eq_refl) as (sa & H1 & H2 & _).
  exists sa. split; [exact H1|exact H2].
Defined.
