(* ===== verification/Tables.v ===== *)
(** * The user and group tables (server/users.c, server/groups.c)

    Searches over the tables, the clearing and filling of entries, and the two
    functions of access.c that the tables and the group commands rely on:
    the check for the administrator and the record of sign-on times. *)

From Stdlib Require Import ZArith Lia String.
From S2P Require Import Config Prelude StrUtil NameList CLib Monad Dbm IcbDb State.

Local Open Scope Z_scope.
Local Open Scope icb_monad_scope.

(** ** From access.c *)

Section access.
Context `{Host}.

(** [auth == 2]: both the name and the password are the administrator's. *)
Definition is_admin (u : user) : bool :=
  let auth := (if strcaseeq (u_nickname u) (str "ADMIN") then 1 else 0) +
              (if strcaseeq (u_password u) ADMIN_PWD then 1 else 0) in
  auth =? 2.

Definition check_auth (n : Z) : M st bool :=
  u <- user_at n ;; ret (is_admin u).

Definition nickwritetime (forWhom : Z) (class : Z) : M st Z :=
  u <- user_at forWhom ;;
  match u_realname u with
  | [] => ret (-1)
  | _ :: _ =>
      now <- time ;;
      modify (set_curtime now) ;;
      let timebuf := take 254 (format_time now) in
      let nick := u_nickname u in
      _ <- with_userdb (icbdb_open host_db) ;;
      valid <- (if negb (class =? 0) then
                  with_userdb (icbdb_get host_db true (Some nick) (str "nick") ICBDB_STRING)
                else ret (Some (VStr []))) ;;
      match valid with
      | None => with_userdb (icbdb_close host_db) ;; ret (-1)
      | Some _ =>
          let type := if class =? 0 then str "signon" else str "signoff" in
          _ <- with_userdb (icbdb_set host_db (Some nick) type (VStr timebuf)) ;;
          with_userdb (icbdb_close host_db) ;;
          ret 0
      end
  end.
End access.

(** ** users.c *)

(** A cleared entry keeps only [t_notify]. *)
Definition cleared_user (u : user) : user :=
  User [] [] [] [] [] [] [] 0 0 LOGIN_FALSE 0 0 PERM_NULL (u_t_notify u) 0 0 0 0 0 [] [] [] [] [] [].

Definition clear_user_item `{BuildConfig} `{Host} (n : Z) : M st unit :=
  u <- user_at n ;;
  when (LOGIN_FALSE <? u_login u) (nickwritetime n 1 ;; ret tt) ;;
  upd_user n cleared_user ;;
  set_int S_kill set_S_kill n 0 ;;
  set_int lpriv_id set_lpriv_id n (-1) ;;
  set_int pong_req set_pong_req n (-1) ;;
  set_int ping_time set_ping_time n 0 ;;
  for_each (zseq (Z.of_nat MAX_USERS)) (λ i,
    l <- int_at lpriv_id i ;;
    when (l =? n) (set_int lpriv_id set_lpriv_id i (-1)) ;;
    p <- int_at pong_req i ;;
    when (p =? n)
      (set_int pong_req set_pong_req i (-1) ;; set_int ping_time set_ping_time n 0)).

(** [copy_user_field] into a field of [dstsz] bytes; a null pointer clears it. *)
Definition copy_user_field (dstsz : nat) (old : cstring) (src : option cstring) : cstring :=
  if (dstsz =? 0)%nat then old
  else match src with None => [] | Some s => take (dstsz - 1) s end.

Definition filled_user (loginid nodeid nickname password group awaymsg : option cstring)
    (mylogin echoback nobeep perms : Z) (u : user) : user :=
  User (copy_user_field (MAX_IDLEN + 1) (u_loginid u) loginid)
    (copy_user_field (MAX_NODELEN + 1) (u_nodeid u) nodeid)
    (copy_user_field (MAX_NICKLEN + 1) (u_nickname u) nickname)
    (copy_user_field (MAX_PASSWDLEN + 1) (u_password u) password)
    (u_realname u)
    (copy_user_field (MAX_GROUPLEN + 1) (u_group u) group)
    (copy_user_field (MAX_AWAY_LEN + 1) (u_awaymsg u) awaymsg)
    (u_lastaway u) (u_lastawaytime u) mylogin echoback nobeep perms 0
    (u_t_on u) (u_t_sent u) (u_t_recv u) (u_t_group u) (u_secure u)
    (u_pri_n_hushed u) (u_pub_n_hushed u) (u_pri_s_hushed u) (u_pub_s_hushed u)
    (u_n_notifies u) (u_s_notifies u).

Definition fill_user_entry (n : Z) loginid nodeid nickname password group awaymsg
    (mylogin echoback nobeep perms : Z) : M st unit :=
  upd_user n (filled_user loginid nodeid nickname password group awaymsg mylogin echoback nobeep perms).

(** The lists of an entry are new and empty. *)
Definition with_new_lists (u : user) : user :=
  set_u_pri_n_hushed [] (set_u_pub_n_hushed [] (set_u_pri_s_hushed [] (set_u_pub_s_hushed []
    (set_u_n_notifies [] (set_u_s_notifies [] u))))).

Definition clear_users `{BuildConfig} `{Host} : M st unit :=
  for_each (zseq (Z.of_nat MAX_USERS)) (λ i, upd_user i with_new_lists ;; clear_user_item i).

Definition count_users_in_group (group : cstring) (tab : list user) : Z :=
  match group with
  | [] => 0
  | _ :: _ => Z.of_nat (length (List.filter (λ u, strcaseeq (u_group u) group) tab))
  end.

(** The index of the first entry that satisfies a test, or -1. *)
Definition first_index {A} (p : A → bool) (tab : list A) : Z :=
  match find_index p tab with Some i => Z.of_nat i | None => -1 end.

Definition find_user (name : cstring) (tab : list user) : Z :=
  match name with
  | [] => -1
  | _ :: _ => first_index (λ u, strcaseeq (u_nickname u) name) tab
  end.

(** ** groups.c *)

Definition cleared_group : group :=
  Group [] [] VISIBLE PUBLIC LOUD (-1) [] 0 [] [] [] [] [] [] [] [] [] [] 0 DEF_IDLE_BOOT [] DEF_IDLE_MOD.

Definition clear_group_item (n : Z) : M st unit := upd_group n (λ _, cleared_group).

(** The lists are allocated; a failure ends the program. *)
Definition init_groups : M st unit :=
  for_each (zseq (Z.of_nat MAX_GROUPS)) clear_group_item.

Definition find_group (name : cstring) (tab : list group) : Z :=
  match name with
  | [] => -1
  | _ :: _ => first_index (λ g, strcaseeq (g_name g) name) tab
  end.

Definition find_empty_group (tab : list group) : Z :=
  first_index (λ g, (length (g_name g) =? 0)%nat) tab.

Definition check_mods (u_index : Z) (tab : list group) : Z :=
  first_index (λ g, g_mod g =? u_index) tab.

(** [strcpy] into the name and the topic: a text that does not fit is undefined
    behaviour. *)
Definition fill_group_entry (n : Z) (name topic : cstring) (visibility control mod' volume : Z) : M st unit :=
  if (MAX_GROUPLEN <? length name)%nat || (MAX_TOPICLEN <? length topic)%nat then ub
  else upd_group n (λ g,
    set_g_name name (set_g_topic topic (set_g_visibility visibility (set_g_control control
      (set_g_volume volume (set_g_mod mod' g)))))).

(** ** Searches *)

Section first_index.
Context {A : Type} (p : A → bool).
Implicit Types tab : list A.

Lemma first_index_range tab : -1 ≤ first_index p tab < Z.of_nat (length tab).
Proof.
  unfold first_index. destruct (find_index p tab) as [i|] eqn:E; [|lia].
  apply find_index_lt in E. lia.
Qed.

Lemma first_index_found tab i x :
  first_index p tab = i → 0 ≤ i → entry_at i tab = Some x → p x = true.
Proof.
  unfold first_index. intros <-. destruct (find_index p tab) as [k|] eqn:E; [|lia]. intros _ Hx.
  rewrite entry_at_nat in Hx. apply find_index_Some in E as [(y & Hy & Hp) _]. congruence.
Qed.

Lemma first_index_none tab : first_index p tab < 0 ↔ ∀ x, x ∈ tab → p x = false.
Proof.
  unfold first_index. destruct (find_index p tab) as [k|] eqn:E.
  - apply find_index_Some in E as [(y & Hy & Hp) _]. split; [lia|]. intros H.
    rewrite (H y) in Hp; [done|by eapply list_elem_of_lookup_2].
  - rewrite find_index_None in E. split; [|lia]. intros _ x [i Hi]%list_elem_of_lookup. by eapply E.
Qed.

Lemma first_index_entry tab : 0 ≤ first_index p tab → ∃ x, entry_at (first_index p tab) tab = Some x ∧ p x = true.
Proof.
  intros H. destruct (entry_at (first_index p tab) tab) as [x|] eqn:E.
  - exists x. split; [done|]. by eapply first_index_found.
  - exfalso. pose proof (first_index_range tab) as Hr.
    assert (is_Some (entry_at (first_index p tab) tab)) as [y Hy] by (apply entry_at_range; lia). congruence.
Qed.

(** Where one entry at most satisfies the test, the search finds it. *)
Lemma first_index_unique tab i x :
  entry_at i tab = Some x → p x = true →
  (∀ j y, entry_at j tab = Some y → p y = true → j = i) → first_index p tab = i.
Proof.
  intros Hx Hp Hu. destruct (Z.lt_ge_cases (first_index p tab) 0) as [Hlt|Hge].
  - rewrite first_index_none in Hlt. rewrite (Hlt x) in Hp; [done|].
    apply entry_at_lookup in Hx as [_ Hx]. by eapply list_elem_of_lookup_2.
  - destruct (first_index_entry tab Hge) as (y & Hy & Hpy). by eapply Hu.
Qed.
End first_index.

Lemma find_user_range name tab : -1 ≤ find_user name tab < Z.of_nat (length tab).
Proof. unfold find_user. destruct name; [lia|apply first_index_range]. Qed.
Lemma find_group_range name tab : -1 ≤ find_group name tab < Z.of_nat (length tab).
Proof. unfold find_group. destruct name; [lia|apply first_index_range]. Qed.

Lemma find_group_entry name tab :
  0 ≤ find_group name tab →
  ∃ g, entry_at (find_group name tab) tab = Some g ∧ casefold (g_name g) = casefold name ∧ name ≠ [].
Proof.
  unfold find_group. destruct name as [|c name]; [lia|]. intros H.
  destruct (first_index_entry _ _ H) as (g & Hg & Hp). exists g.
  split; [done|]. split; [by apply strcaseeq_casefold|done].
Qed.

Lemma find_group_missing name tab :
  find_group name tab < 0 ↔ name = [] ∨ ∀ g, g ∈ tab → casefold (g_name g) ≠ casefold name.
Proof.
  unfold find_group. destruct name as [|c name]; [split; [by left|lia]|].
  rewrite first_index_none. split.
  - intros H. right. intros g Hg E. apply strcaseeq_casefold in E. rewrite H in E; done.
  - intros [?|H]; [done|]. intros g Hg. specialize (H g Hg). rewrite <-strcaseeq_casefold in H.
    by destruct (strcaseeq _ _).
Qed.

Lemma find_user_entry name tab :
  0 ≤ find_user name tab →
  ∃ u, entry_at (find_user name tab) tab = Some u ∧ casefold (u_nickname u) = casefold name.
Proof.
  unfold find_user. destruct name as [|c name]; [lia|]. intros H.
  destruct (first_index_entry _ _ H) as (g & Hg & Hp). exists g.
  split; [done|by apply strcaseeq_casefold].
Qed.

Lemma count_users_pos group tab :
  0 < count_users_in_group group tab ↔ group ≠ [] ∧ ∃ u, u ∈ tab ∧ casefold (u_group u) = casefold group.
Proof.
  unfold count_users_in_group. destruct group as [|c group]; [split; [lia|by intros [? _]]|].
  set (f := λ u, strcaseeq (u_group u) (c :: group)). destruct (List.filter f tab) as [|u l] eqn:E; simpl.
  - split; [lia|]. intros (_ & u & Hu & Hc). exfalso.
    assert (u ∈ List.filter f tab) as Hin.
    { apply list_elem_of_In, filter_In. split; [by apply list_elem_of_In|]. by apply strcaseeq_casefold. }
    rewrite E in Hin. by apply not_elem_of_nil in Hin.
  - split; [|lia]. intros _. split; [done|]. exists u.
    assert (In u (List.filter f tab)) as [Hu Hf]%filter_In by (rewrite E; by left).
    split; [by apply list_elem_of_In|]. exact (proj1 (strcaseeq_casefold _ (c :: group)) Hf).
Qed.

(** [find_user] and [find_group] return the index of the first entry with
    the name, without regard to case, and -1 when there is none or the name is
    empty; [count_users_in_group] counts the entries of the user table with the
    group, and is positive exactly when there is one. *)
Theorem table_searches name utab gtab :
  let iu := find_user name utab in
  let ig := find_group name gtab in
  (iu = -1 ↔ name = [] ∨ ∀ u, u ∈ utab → casefold (u_nickname u) ≠ casefold name) ∧
  (∀ i u, entry_at i utab = Some u → casefold (u_nickname u) = casefold name → name ≠ [] → 0 ≤ iu ≤ i) ∧
  (0 ≤ iu → ∃ u, entry_at iu utab = Some u ∧ casefold (u_nickname u) = casefold name) ∧
  (ig = -1 ↔ name = [] ∨ ∀ g, g ∈ gtab → casefold (g_name g) ≠ casefold name) ∧
  (0 ≤ ig → ∃ g, entry_at ig gtab = Some g ∧ casefold (g_name g) = casefold name) ∧
  (0 < count_users_in_group name utab ↔ name ≠ [] ∧ ∃ u, u ∈ utab ∧ casefold (u_group u) = casefold name).
Proof.
  intros iu ig. pose proof (find_user_range name utab) as Hu. pose proof (find_group_range name gtab) as Hg.
  fold iu in Hu. fold ig in Hg.
  assert (iu < 0 ↔ name = [] ∨ ∀ u, u ∈ utab → casefold (u_nickname u) ≠ casefold name) as Hnu.
  { unfold iu, find_user. destruct name as [|c name]; [split; [by left|lia]|].
    rewrite first_index_none. split.
    - intros H. right. intros u Hu' E. apply strcaseeq_casefold in E. rewrite H in E; done.
    - intros [?|H]; [done|]. intros u Hu'. specialize (H u Hu'). rewrite <-strcaseeq_casefold in H.
      by destruct (strcaseeq _ _). }
  split; [rewrite <-Hnu; lia|].
  split.
  { intros i u Hi Hc Hne. destruct (Z.lt_ge_cases iu 0) as [Hlt|Hge].
    - exfalso. apply Hnu in Hlt as [?|Hlt]; [done|]. apply entry_at_lookup in Hi as [_ Hi].
      apply (Hlt u); [by eapply list_elem_of_lookup_2|done].
    - split; [done|]. unfold iu, find_user, first_index in *. destruct name as [|c name]; [done|].
      destruct (find_index _ utab) as [k|] eqn:E; [|lia]. apply find_index_Some in E as [_ Hmin].
      apply entry_at_lookup in Hi as [Hi0 Hi]. destruct (Z.lt_ge_cases i (Z.of_nat k)) as [Hlt|]; [|lia].
      exfalso. specialize (Hmin (Z.to_nat i) u ltac:(lia) Hi). apply strcaseeq_casefold in Hc. simpl in Hmin. congruence. }
  split; [apply find_user_entry|].
  split; [rewrite <-find_group_missing; unfold ig in *; lia|].
  split.
  { intros H. destruct (find_group_entry _ _ H) as (g & ? & ? & _). by exists g. }
  apply count_users_pos.
Qed.

(** ** Clearing an entry of the user table *)

(** The references to a slot are dropped. *)
Definition forget (n : Z) (l : list Z) : list Z := (λ v, if v =? n then -1 else v) <$> l.

Definition forget_upto (n i : Z) (l : list Z) : list Z :=
  forget n (take (Z.to_nat i) l) ++ drop (Z.to_nat i) l.

Lemma forget_upto_0 n l : forget_upto n 0 l = l.
Proof. done. Qed.
Lemma forget_upto_all n i l : Z.of_nat (length l) ≤ i → forget_upto n i l = forget n l.
Proof. intros H. unfold forget_upto. rewrite take_ge, drop_ge, app_nil_r; [done|lia|lia]. Qed.

Lemma forget_upto_entry n i l :
  0 ≤ i → entry_at i (forget_upto n i l) = entry_at i l.
Proof.
  intros Hi. unfold entry_at, forget_upto. destruct (Z.ltb_spec i 0); [done|].
  destruct (decide (Z.to_nat i ≤ length l)%nat) as [Hl|Hl].
  - unfold forget. rewrite lookup_app_r by (rewrite length_fmap, length_take; lia).
    rewrite length_fmap, length_take, Nat.min_l, lookup_drop by lia. f_equal. lia.
  - rewrite !lookup_ge_None_2; [done|lia|]. unfold forget.
    rewrite length_app, length_fmap, length_take, length_drop. lia.
Qed.

Lemma forget_upto_S n i l v :
  entry_at i l = Some v →
  forget_upto n (i + 1) l =
  if v =? n then entry_set i (-1) (forget_upto n i l) else forget_upto n i l.
Proof.
  intros [Hi Hv]%entry_at_lookup. unfold forget_upto, entry_set. destruct (Z.ltb_spec i 0); [lia|].
  replace (Z.to_nat (i + 1)) with (S (Z.to_nat i)) by lia. set (k := Z.to_nat i) in *.
  pose proof (lookup_lt_Some _ _ _ Hv) as Hk.
  rewrite (take_S_r _ _ _ Hv), (drop_S _ _ _ Hv). unfold forget. rewrite fmap_app, <-app_assoc. simpl.
  destruct (v =? n) eqn:E; [|done].
  rewrite insert_app_r_alt by (rewrite length_fmap, length_take; lia).
  rewrite length_fmap, length_take, Nat.min_l, Nat.sub_diag by lia. done.
Qed.

Lemma length_forget_upto n i l : length (forget_upto n i l) = length l.
Proof. unfold forget_upto, forget. rewrite length_app, length_fmap, length_take, length_drop. lia. Qed.

(** The arrays of the connections have their declared size. *)
Definition arrays_sized `{BuildConfig} (s : st) : Prop :=
  length (u_tab s) = MAX_USERS ∧ length (S_kill s) = MAX_USERS ∧ length (lpriv_id s) = MAX_USERS ∧
  length (pong_req s) = MAX_USERS ∧ length (ping_time s) = MAX_USERS.

Lemma set_ping_time_same s : set_ping_time (ping_time s) s = s.
Proof. by destruct s. Qed.

Section clear.
Context `{BuildConfig} `{Host}.

Lemma forget_loop n s :
  length (lpriv_id s) = MAX_USERS → length (pong_req s) = MAX_USERS →
  entry_at n (ping_time s) = Some 0 →
  wp (for_each (zseq (Z.of_nat MAX_USERS)) (λ i,
        l <- int_at lpriv_id i ;;
        when (l =? n) (set_int lpriv_id set_lpriv_id i (-1)) ;;
        p <- int_at pong_req i ;;
        when (p =? n)
          (set_int pong_req set_pong_req i (-1) ;; set_int ping_time set_ping_time n 0)))
    (λ _ s', s' = set_pong_req (forget n (pong_req s)) (set_lpriv_id (forget n (lpriv_id s)) s)) s.
Proof.
  intros Hl Hp Hz.
  eapply wp_mono; [apply (wp_for_zseq (λ i s', s' =
    set_pong_req (forget_upto n i (pong_req s)) (set_lpriv_id (forget_upto n i (lpriv_id s)) s)))|].
  - lia.
  - rewrite !forget_upto_0. by destruct s.
  - intros i s' Hi ->.
    destruct (proj2 (entry_at_range (lpriv_id s) i)) as [v Hv]; [lia|].
    destruct (proj2 (entry_at_range (pong_req s) i)) as [w Hw]; [lia|].
    rewrite (forget_upto_S _ _ _ _ Hv), (forget_upto_S _ _ _ _ Hw).
    apply wp_bind. eapply wp_int_at; [simpl; by rewrite forget_upto_entry by lia|].
    apply wp_bind. eapply (wp_mono _ (λ _ s', s' = set_pong_req (forget_upto n i (pong_req s))
      (set_lpriv_id (if v =? n then entry_set i (-1) (forget_upto n i (lpriv_id s))
                     else forget_upto n i (lpriv_id s)) s))).
    { apply wp_when; intros ->; [|done]. apply wp_set_int; [|done].
      simpl. apply entry_at_range. rewrite length_forget_upto. lia. }
    intros _ s' ->. apply wp_bind. eapply wp_int_at; [simpl; by rewrite forget_upto_entry by lia|].
    apply wp_when; intros ->; [|done]. apply wp_bind. apply wp_set_int.
    { simpl. apply entry_at_range. rewrite length_forget_upto. lia. }
    apply wp_set_int; [simpl; rewrite Hz; eauto|]. simpl. rewrite (entry_set_same _ _ _ Hz). by destruct s.
  - intros _ s' ->. by rewrite !forget_upto_all by lia.
Qed.

(** [nickwritetime] touches the database and [curtime] only. *)
Definition only_db (s s' : st) : Prop := s' = set_userdb (userdb s') (set_curtime (curtime s') s).

#[local] Instance only_db_pre : PreOrder only_db.
Proof.
  split; [intros s; by destruct s|]. intros s1 s2 s3 H1 H2. unfold only_db in *.
  rewrite H2, H1. by destruct s1, s2, s3.
Qed.

Lemma preserves_userdb {A} (m : M icbdb A) : preserves only_db (with_userdb m).
Proof.
  intros s a s'. unfold with_userdb. destruct (m (userdb s)) as [[? d]|]; [|done].
  intros [= <- <-]. by destruct s.
Qed.

Lemma nickwritetime_only_db n class : preserves only_db (nickwritetime n class).
Proof.
  unfold nickwritetime, user_at, time.
  repeat first [apply preserves_userdb | apply preserves_modify; intros s; by destruct s | pres_step].
  all: apply only_db_pre.
Qed.

(** The sign-off of a registered user is recorded without undefined behaviour. *)
Definition signoff_ok (n : Z) (s : st) : Prop :=
  ∀ u, entry_at n (u_tab s) = Some u → LOGIN_FALSE < u_login u → is_Some (nickwritetime n 1 s).

Lemma clear_user_item_ok n s u :
  arrays_sized s → entry_at n (u_tab s) = Some u → signoff_ok n s →
  ∃ d c, clear_user_item n s = Some (tt, St
    (entry_set n (cleared_user u) (u_tab s)) (g_tab s) (entry_set n 0 (S_kill s))
    (forget n (entry_set n (-1) (lpriv_id s))) (forget n (entry_set n (-1) (pong_req s)))
    (entry_set n 0 (ping_time s)) (is_booting s) (stats s) (clock s) c d (events s) (glob s)).
Proof.
  intros (Hu & Hk & Hl & Hp & Ht) E Hs.
  assert (0 ≤ n < Z.of_nat MAX_USERS) as Hn.
  { rewrite <-Hu. apply entry_at_range. by rewrite E. }
  cut (wp (clear_user_item n) (λ _ s', ∃ d c, s' = St
    (entry_set n (cleared_user u) (u_tab s)) (g_tab s) (entry_set n 0 (S_kill s))
    (forget n (entry_set n (-1) (lpriv_id s))) (forget n (entry_set n (-1) (pong_req s)))
    (entry_set n 0 (ping_time s)) (is_booting s) (stats s) (clock s) c d (events s) (glob s)) s).
  { intros ([] & s' & Hrun & d & c & ->)%wp_run. by exists d, c. }
  unfold clear_user_item. apply wp_bind. eapply wp_user_at; [done|]. apply wp_bind.
  eapply (wp_mono _ (λ _, only_db s)).
  { apply wp_when; [|intros _; reflexivity]. intros Hlog%Z.ltb_lt. destruct (Hs u E Hlog) as [[r s1] Hr].
    apply wp_bind, wp_run. exists r, s1. split; [done|]. apply wp_ret. by eapply nickwritetime_only_db. }
  intros _ s1 Hs1. unfold only_db in Hs1. set (d := userdb s1) in *. set (c := curtime s1) in *.
  clearbody d c. subst s1. apply wp_bind. eapply wp_upd_user; [done|].
  repeat (apply wp_bind, wp_set_int; [simpl; apply entry_at_range; lia|]). simpl.
  eapply wp_mono; [apply forget_loop; simpl; rewrite ?length_entry_set; [done|done|]|].
  - apply entry_set_at, entry_at_range. lia.
  - intros _ s' ->. by exists d, c.
Qed.
End clear.

(** Clearing a slot empties its entry and its per-connection cells, drops
    every reference to it from the last-message and ping tables, and leaves the
    other entries, the groups and the log alone. *)
Theorem clear_user_item_correct `{BuildConfig} `{Host} n s u :
  arrays_sized s → entry_at n (u_tab s) = Some u → signoff_ok n s →
  ∃ s', clear_user_item n s = Some (tt, s') ∧ arrays_sized s' ∧
    entry_at n (u_tab s') = Some (cleared_user u) ∧
    (∀ m, m ≠ n → entry_at m (u_tab s') = entry_at m (u_tab s)) ∧
    entry_at n (S_kill s') = Some 0 ∧ n ∉ lpriv_id s' ∧ n ∉ pong_req s' ∧
    g_tab s' = g_tab s ∧ events s' = events s.
Proof.
  intros Ha E Hs. destruct (clear_user_item_ok n s u Ha E Hs) as (d & c & Hrun).
  eexists. split; [exact Hrun|]. destruct Ha as (Hu & Hk & Hl & Hp & Ht).
  assert (0 ≤ n < Z.of_nat MAX_USERS) as Hn by (rewrite <-Hu; apply entry_at_range; by rewrite E).
  assert (∀ l, n ∉ forget n l) as Hf.
  { intros l (v & Hv & _)%list_elem_of_fmap. destruct (Z.eqb_spec v n); lia. }
  unfold arrays_sized, forget in *. simpl. rewrite !length_fmap, !length_entry_set.
  split; [done|]. split; [apply entry_set_at; by rewrite E|].
  split; [intros m Hm; by apply entry_set_ne|].
  split; [apply entry_set_at, entry_at_range; lia|].
  split; [apply Hf|]. split; [apply Hf|done].
Qed.

(** ** A small server

    Five slots: two users and the moderator of the group Lobby, a free slot,
    and the resident user in its own group; used to exercise the theorems. *)

Definition demo_build : BuildConfig := {| MAX_USERS := 5; MAX_USERS_min := ltac:(lia) |}.
Definition demo_host : Host := {|
  host_db := env_good; format_time := λ _, str " 1-Jan-2020 00:00 UTC"; ADMIN_PWD := str "secret";
  thishost := str "localhost"; VERSION := str "icbd"; getremotename := λ _, None;
  local_hm := λ _, (0, 0); peer_ipv4 := λ _, Some None; inet_addr := λ _, 0; text_file := λ _, None;
  ctime_text := λ _, str "Wed Jan  1 00:00:00 2020"; peer_numeric := λ _, Some (str "10.0.0.1");
  peer_error := []; log_is_open := λ _, true; stale_storage := false
|}.

(** The same host, where what was freed can still be used. *)
Definition kept_host : Host := {|
  host_db := env_good; format_time := λ _, str " 1-Jan-2020 00:00 UTC"; ADMIN_PWD := str "secret";
  thishost := str "localhost"; VERSION := str "icbd"; getremotename := λ _, None;
  local_hm := λ _, (0, 0); peer_ipv4 := λ _, Some None; inet_addr := λ _, 0; text_file := λ _, None;
  ctime_text := λ _, str "Wed Jan  1 00:00:00 2020"; peer_numeric := λ _, Some (str "10.0.0.1");
  peer_error := []; log_is_open := λ _, true; stale_storage := true
|}.

Definition no_user : user :=
  User [] [] [] [] [] [] [] 0 0 LOGIN_FALSE 0 0 PERM_NULL 0 0 0 0 0 0 [] [] [] [] [] [].
Definition demo_user (nick grp : String.string) : user :=
  set_u_loginid (str "id") (set_u_nodeid (str "host") (set_u_nickname (str nick)
    (set_u_group (str grp) (set_u_login LOGIN_COMPLETE no_user)))).
Definition demo_group (name : String.string) (control mod' : Z) : group :=
  set_g_name (str name) (set_g_control control (set_g_mod mod' cleared_group)).

Definition demo_state : st := St
  [demo_user "amy" "Lobby"; demo_user "bob" "Lobby"; no_user; demo_user "cat" "Den"; demo_user "server" "ICB"]
  ([demo_group "ICB" RESTRICTED 4; demo_group "Lobby" MODERATED 0; demo_group "Den" RESTRICTED 3]
     ++ replicate (MAX_GROUPS - 3) cleared_group)
  [0; 0; 0; 0; 0] [-1; 0; -1; 0; -1] [-1; -1; 0; -1; -1] [0; 0; 7; 0; 0] 0 (Stats 0 0 0 0 0 0) 1000 0
  (Icbdb None 0 false [] (Disk None None)) [] (Globals (-1) 0 [0; 0; 0; 0; 0] 0 0 0).

Lemma demo_sized : @arrays_sized demo_build demo_state.
Proof. by repeat split. Qed.

Lemma clear_user_item_correct_witness :
  ∃ s', @clear_user_item demo_build demo_host 0 demo_state = Some (tt, s') ∧ @arrays_sized demo_build s' ∧
    entry_at 0 (u_tab s') = Some (cleared_user (demo_user "amy" "Lobby")) ∧
    (∀ m, m ≠ 0 → entry_at m (u_tab s') = entry_at m (u_tab demo_state)) ∧
    entry_at 0 (S_kill s') = Some 0 ∧ 0 ∉ lpriv_id s' ∧ 0 ∉ pong_req s' ∧
    g_tab s' = g_tab demo_state ∧ events s' = events demo_state.
Proof.
  apply (@clear_user_item_correct demo_build demo_host 0 demo_state (demo_user "amy" "Lobby")).
  - exact demo_sized.
  - reflexivity.
  - intros u [= <-] _. by eexists.
Defined.
