(* ===== verification/Send.v ===== *)
(** * Messages to the clients (server/send.c)

    Every message is filtered, printed into the packet buffer behind a command
    byte and handed to [doSend], which adds the length and passes the packet to
    the packet server, or answers it itself when it is meant for the resident
    user. *)

From Stdlib Require Import ZArith Lia String.
From S2P Require Import Config Prelude Utf8 StrUtil NameList CLib Monad Dbm IcbDb State Tables.

Local Open Scope Z_scope.
Local Open Scope icb_monad_scope.

(** ** Packet types (protocol.h) *)

Definition ICB_M_LOGINOK : byte := "a".
Definition ICB_M_OPEN : byte := "b".
Definition ICB_M_PERSONAL : byte := "c".
Definition ICB_M_STATUS : byte := "d".
Definition ICB_M_ERROR : byte := "e".
Definition ICB_M_IMPORTANT : byte := "f".
Definition ICB_M_EXIT : byte := "g".
Definition ICB_M_CMDOUT : byte := "i".
Definition ICB_M_PROTO : byte := "j".
Definition ICB_M_BEEP : byte := "k".
Definition ICB_M_PING : byte := "l".
Definition PROTO_LEVEL : Z := 1.
Definition MAX_STATUS_LEN : nat := 20.

(** The command interpreter of msgs.c, which the resident user runs on the
    private messages it is sent; the senders are parameterised by it. *)
Class Commands := { cmdmsg : Z → cstring → M st unit }.

(** ** Building packets *)

(** A buffer filled by [filtertext], read as a string by [%s].  When the filter
    fills the whole buffer there is no terminator, and the read goes on past
    its end: the behaviour is undefined from there on.  [EvOverread] is the
    mark of it in the log; a log with the mark stands for undefined behaviour,
    and [Program.perform] is undefined at it.  (What the handler would do after
    the mark is of no account; the buffer goes on as its text only so that the
    model of the handler is a function.) *)
Definition filtered (src : cstring) (len : nat) : M st cstring :=
  match c_str (filtertext src len) with
  | Some t => ret t
  | None => emit EvOverread ;; ret (filtertext src len)
  end.

(** [snprintf(&packetbuffer[1], MAX_PKT_LEN-1, "%c...", c, ...)] *)
Definition packet (c : byte) (body : cstring) : cstring := take (MAX_PKT_LEN - 2) (c :: body).

Definition SEP : cstring := [x01].

(** The upper-case address and nickname under which a sender is hushed. *)
Definition hush_address (u : user) : cstring := ucaseit (take 254 (u_loginid u ++ str "@" ++ u_nodeid u)).
Definition hush_nick (u : user) : cstring := ucaseit (take MAX_NICKLEN (u_nickname u)).

Section send.
Context `{BuildConfig} `{Host} `{Commands}.

(** The last part of [doSend], for a destination that is a connection: the
    packet is refused when it is too large or the connection is being killed.
    [pktserv_send] never returns -2, so its other failures change nothing. *)
Definition doSend_client (senderr : Z → cstring → M st unit) (from to : Z) (pkt : cstring) : M st Z :=
  let len := S (length pkt) in
  if (MAX_PKT_LEN - 1 <? len)%nat then
    senderr from (str "Cannot transmit packet: too large") ;; ret (-1)
  else
    k <- int_at S_kill to ;;
    if 0 <? k then ret (-1)
    else emit (EvSend to pkt) ;; ret 0.

(** [doSend] of a packet which is neither a beep nor a private message: for
    the resident user it is ignored. *)
Definition doSend_plain (senderr : Z → cstring → M st unit) (from to : Z) (pkt : cstring) : M st Z :=
  if to <? 0 then ret (-1)
  else if MAX_REAL_USERS <=? to then ret 0
  else doSend_client senderr from to pkt.

(** [senderror]; the packet it builds is never too large, so the complaint
    [doSend] makes about large packets does not recur. *)
Definition senderror (to : Z) (message : cstring) : M st unit :=
  msgbuf <- filtered message MAX_PKT_DATA ;;
  _ <- doSend_plain (λ _ _, ub) (-1) to (packet ICB_M_ERROR msgbuf) ;;
  ret tt.

Definition sendstatus (to : Z) (status message : cstring) : M st unit :=
  statusbuf <- filtered status (MAX_STATUS_LEN + 1) ;;
  msgbuf <- filtered message (MAX_PKT_DATA - MAX_STATUS_LEN - 1) ;;
  _ <- doSend_plain senderror (-1) to (packet ICB_M_STATUS (statusbuf ++ SEP ++ msgbuf)) ;;
  ret tt.

(** What the resident user does with a private message: it takes the second
    field as a command line. *)
Definition server_message (from : Z) (pkt : cstring) : M st unit :=
  let fields := fst (split (str " " ++ pkt)) in
  set_fields (length fields) ;;
  f1 <- lift (fields !! 1%nat) ;;
  if (WORD_SIZE <=? getword_nul_index f1)%nat then ub
  else cmdmsg from (take (MAX_PKT_DATA - 3) (getword f1 ++ SEP ++ get_tail f1)).

(** [doSend] of a private message. *)
Definition doSend_personal (from to : Z) (pkt : cstring) : M st Z :=
  if to <? 0 then ret (-1)
  else if MAX_REAL_USERS <=? to then server_message from pkt ;; ret 0
  else doSend_client senderror from to pkt.

Definition sendperson (from to : Z) (message : cstring) : M st unit :=
  uf <- user_at from ;;
  ut <- user_at to ;;
  s_hushed <- lift (names_match (hush_address uf) (u_pri_s_hushed ut)) ;;
  n_hushed <- (if s_hushed : bool then ret true else lift (names_match (hush_nick uf) (u_pri_n_hushed ut))) ;;
  if n_hushed : bool then sendstatus from (str "Bounce") (str "Message did not go through")
  else
    nickbuf <- filtered (u_nickname uf) (MAX_NICKLEN + 1) ;;
    msgbuf <- filtered message (MAX_PKT_DATA - MAX_NICKLEN - 1) ;;
    set_int lpriv_id set_lpriv_id to from ;;
    _ <- doSend_personal from to (packet ICB_M_PERSONAL (nickbuf ++ SEP ++ msgbuf)) ;;
    ret tt.

Definition autoBeep (to : Z) : M st unit :=
  sendperson NICKSERV to (str "Beep yerself!") ;;
  now <- time ;;
  upd_user NICKSERV (set_u_t_recv now).

(** [doSend(from, to)] of the packet in [packetbuffer]. *)
Definition doSend (from to : Z) (pkt : cstring) : M st Z :=
  if to <? 0 then ret (-1)
  else if MAX_REAL_USERS <=? to then
    match pkt with
    | c :: _ =>
        if Byte.eqb c ICB_M_BEEP then autoBeep from
        else if Byte.eqb c ICB_M_PERSONAL then server_message from pkt
        else ret tt
    | [] => ret tt
    end ;; ret 0
  else doSend_client senderror from to pkt.

Definition sendopen (from to : Z) (message : cstring) : M st unit :=
  uf <- user_at from ;;
  nickbuf <- filtered (u_nickname uf) (MAX_NICKLEN + 1) ;;
  msgbuf <- filtered message (MAX_PKT_DATA - MAX_NICKLEN - 1) ;;
  _ <- doSend from to (packet ICB_M_OPEN (nickbuf ++ SEP ++ msgbuf)) ;;
  ret tt.

Definition sendexit (to : Z) : M st unit :=
  _ <- doSend (-1) to (packet ICB_M_EXIT []) ;; ret tt.

Definition sendping (to : Z) (who : cstring) : M st unit :=
  _ <- doSend (-1) to (packet ICB_M_PING who) ;; ret tt.

Definition send_cmdend (to : Z) (message : cstring) : M st unit :=
  msgbuf <- filtered message (MAX_PKT_DATA - 4) ;;
  _ <- doSend (-1) to (packet ICB_M_CMDOUT (str "ec" ++ SEP ++ SEP ++ msgbuf)) ;; ret tt.

Definition sends_cmdout (to : Z) (message : cstring) : M st unit :=
  msgbuf <- filtered message (MAX_PKT_DATA - 3) ;;
  _ <- doSend (-1) to (packet ICB_M_CMDOUT (str "co" ++ SEP ++ msgbuf)) ;; ret tt.

Definition send_person_stored (to : Z) (fromNick message : cstring) : M st unit :=
  nickbuf <- filtered fromNick (MAX_NICKLEN + 1) ;;
  msgbuf <- filtered message (MAX_PKT_DATA - MAX_NICKLEN - 1) ;;
  _ <- doSend (-1) to (packet ICB_M_PERSONAL (nickbuf ++ SEP ++ msgbuf)) ;; ret tt.

Definition sendbeep (from to : Z) : M st unit :=
  ut <- user_at to ;;
  if negb (u_nobeep ut =? 0) then
    senderror from (str "User has nobeep enabled.") ;;
    when (u_nobeep ut =? 2) (
      uf <- user_at from ;;
      sendstatus to (str "No-Beep") (u_nickname uf ++ str " attempted (and failed) to beep you"))
  else
    uf <- user_at from ;;
    _ <- doSend from to (packet ICB_M_BEEP (u_nickname uf)) ;; ret tt.

Definition s_new_user (n secure : Z) : M st unit :=
  if (n <? 0) || (Z.of_nat MAX_USERS <=? n) then emit (EvDisconnect n)
  else
    _ <- doSend (-1) n (packet ICB_M_PROTO (itoa PROTO_LEVEL ++ SEP ++ thishost ++ SEP ++ VERSION)) ;;
    match getremotename n with
    | None => ret tt
    | Some [] => ret tt
    | Some cp => upd_user n (λ u, set_u_secure secure (set_u_nodeid (take MAX_NODELEN cp) u))
    end.

Definition send_loginok (to : Z) : M st unit :=
  _ <- doSend (-1) to (packet ICB_M_LOGINOK []) ;; ret tt.

Definition sendimport (to : Z) (status message : cstring) : M st unit :=
  statusbuf <- filtered status (MAX_STATUS_LEN + 1) ;;
  msgbuf <- filtered message (MAX_PKT_DATA - MAX_STATUS_LEN - 1) ;;
  _ <- doSend (-1) to (packet ICB_M_IMPORTANT (statusbuf ++ SEP ++ msgbuf)) ;; ret tt.

Definition user_wline (to : Z) (mod' nick : cstring) (idle resp login : Z) (user site name : cstring) : M st unit :=
  _ <- doSend (-1) to (packet ICB_M_CMDOUT
    (str "wl" ++ SEP ++ mod' ++ SEP ++ nick ++ SEP ++ itoa idle ++ SEP ++ itoa resp ++ SEP ++
     itoa login ++ SEP ++ user ++ SEP ++ site ++ SEP ++ name)) ;; ret tt.

Definition user_whead (to : Z) : M st unit :=
  _ <- doSend (-1) to (packet ICB_M_CMDOUT (str "wh")) ;; ret tt.
End send.

(** ** What a send adds to the log *)

Definition log (es : list event) (s : st) : st := set_events (events s ++ es) s.

Lemma log_nil s : log [] s = s.
Proof. unfold log. rewrite app_nil_r. by destruct s. Qed.
Lemma log_log es es' s : log es' (log es s) = log (es ++ es') s.
Proof. unfold log, set_events. simpl. by rewrite app_assoc. Qed.
Lemma log_fields es s :
  u_tab (log es s) = u_tab s ∧ g_tab (log es s) = g_tab s ∧ S_kill (log es s) = S_kill s ∧
  events (log es s) = events s ++ es.
Proof. done. Qed.
#[export] Hint Rewrite log_nil log_log : icb_simpl.

(** The text that [filtertext] leaves in a buffer, and the over-read of a buffer
    it fills completely. *)
Definition filter_text (src : cstring) (len : nat) : cstring := default [] (filtertext_out src len).
Definition filter_events (src : cstring) (len : nat) : list event :=
  if (length (filter_text src len) <? len)%nat then [] else [EvOverread].

Lemma filtered_run src len s :
  filtered src len s = Some (filter_text src len, log (filter_events src len) s).
Proof.
  unfold filtered, filter_events, filter_text, filtertext.
  destruct (filtertext_total src len) as (out & E & Hc & Hl). rewrite E. simpl.
  rewrite c_str_app by (by apply clean_text_no_nul).
  destruct (Nat.ltb_spec (length out) len), (Nat.eqb_spec (len - length out) 0); try lia.
  - by rewrite log_nil.
  - rewrite e. simpl. by rewrite app_nil_r.
Qed.

Lemma filter_events_short src len : (length src < len)%nat → filter_events src len = [].
Proof.
  intros Hs. unfold filter_events, filter_text. destruct (filtertext_total src len) as (out & -> & _ & Hl).
  simpl. destruct (Nat.ltb_spec (length out) len); [done|lia].
Qed.

Lemma filter_text_clean src len :
  clean_text (filter_text src len) ∧ (length (filter_text src len) ≤ len `min` length src)%nat.
Proof. unfold filter_text. by destruct (filtertext_total src len) as (out & -> & ?). Qed.

Lemma filter_text_id src len : clean_text src → (length src ≤ len)%nat → filter_text src len = src.
Proof. intros Hc Hl. unfold filter_text. by rewrite filtertext_same. Qed.

Lemma length_packet c b : (1 ≤ length (packet c b) ≤ 254)%nat.
Proof. unfold packet. rewrite length_take. change (MAX_PKT_LEN - 2)%nat with 254%nat. cbn [length]. lia. Qed.

Lemma packet_id c b : (length b ≤ 253)%nat → packet c b = c :: b.
Proof. intros H. unfold packet. apply take_ge. change (MAX_PKT_LEN - 2)%nat with 254%nat. simpl. lia. Qed.

Section runs.
Context `{BuildConfig} `{Host} `{Commands}.
Implicit Types s : st.

(** The connection is open: a real user's slot which is not being killed. *)
Definition reachable (s : st) (to : Z) : bool :=
  (0 <=? to) && (to <? MAX_REAL_USERS) &&
  match entry_at to (S_kill s) with Some k => k <=? 0 | None => false end.

Definition deliver (s : st) (to : Z) (pkt : cstring) : list event :=
  if reachable s to then [EvSend to pkt] else [].

Lemma doSend_client_run f from to c b s :
  arrays_sized s → 0 ≤ to < MAX_REAL_USERS →
  doSend_client f from to (packet c b) s =
  Some (if reachable s to then 0 else -1, log (deliver s to (packet c b)) s).
Proof.
  intros (_ & Hk & _) Hto. unfold doSend_client, deliver, reachable. pose proof (length_packet c b).
  change (MAX_PKT_LEN - 1)%nat with 255%nat.
  destruct (Nat.ltb_spec 255 (S (length (packet c b)))); [lia|].
  unfold MAX_REAL_USERS in *.
  destruct (proj2 (entry_at_range (S_kill s) to)) as [k Ek]; [lia|].
  erewrite bind_runs by (by apply int_at_run). rewrite Ek.
  destruct (Z.leb_spec 0 to), (Z.ltb_spec to (Z.of_nat MAX_USERS - 1)); try lia. cbn [andb].
  destruct (Z.ltb_spec 0 k), (Z.leb_spec k 0); try lia; rewrite ?log_nil; reflexivity.
Qed.

Lemma reachable_range s to : reachable s to = true → 0 ≤ to < MAX_REAL_USERS.
Proof. unfold reachable. rewrite !andb_true_iff. lia. Qed.

Lemma deliver_unreachable s to pkt : reachable s to = false → deliver s to pkt = [].
Proof. intros E. unfold deliver. by rewrite E. Qed.

Lemma doSend_plain_run f from to c b s :
  arrays_sized s →
  ∃ r, doSend_plain f from to (packet c b) s = Some (r, log (deliver s to (packet c b)) s).
Proof.
  intros Hs. unfold doSend_plain. destruct (Z.ltb_spec to 0).
  { rewrite deliver_unreachable, log_nil; [by eexists|].
    destruct (reachable s to) eqn:E; [apply reachable_range in E; lia|done]. }
  destruct (Z.leb_spec MAX_REAL_USERS to).
  { rewrite deliver_unreachable, log_nil; [by eexists|].
    destruct (reachable s to) eqn:E; [apply reachable_range in E; lia|done]. }
  eexists. by apply doSend_client_run.
Qed.

Lemma doSend_is_plain from to c b s :
  c ≠ ICB_M_BEEP → c ≠ ICB_M_PERSONAL →
  doSend from to (packet c b) s = doSend_plain senderror from to (packet c b) s.
Proof.
  intros Hb Hp. unfold doSend, doSend_plain. case_if; [done|]. case_if; [|done].
  unfold packet. change (MAX_PKT_LEN - 2)%nat with 254%nat. cbn [take].
  destruct (Byte.eqb c ICB_M_BEEP) eqn:Eb; [by apply Byte.byte_dec_bl in Eb|].
  destruct (Byte.eqb c ICB_M_PERSONAL) eqn:Ep; [by apply Byte.byte_dec_bl in Ep|]. done.
Qed.

Lemma arrays_sized_log es s : arrays_sized (log es s) ↔ arrays_sized s.
Proof. done. Qed.
Lemma deliver_log es s to pkt : deliver (log es s) to pkt = deliver s to pkt.
Proof. done. Qed.

(** The events of each sender. *)
Definition status_log (s : st) (c : byte) (to : Z) (status message : cstring) : list event :=
  filter_events status 21 ++ filter_events message 233 ++
  deliver s to (packet c (filter_text status 21 ++ SEP ++ filter_text message 233)).
Definition error_log (s : st) (to : Z) (message : cstring) : list event :=
  filter_events message 254 ++ deliver s to (packet ICB_M_ERROR (filter_text message 254)).
Definition cmdout_log (s : st) (to : Z) (message : cstring) : list event :=
  filter_events message 251 ++ deliver s to (packet ICB_M_CMDOUT (str "co" ++ SEP ++ filter_text message 251)).
Definition open_log (s : st) (nick : cstring) (to : Z) (message : cstring) : list event :=
  filter_events nick 13 ++ filter_events message 241 ++
  deliver s to (packet ICB_M_OPEN (filter_text nick 13 ++ SEP ++ filter_text message 241)).

Lemma senderror_run to message s :
  arrays_sized s → senderror to message s = Some (tt, log (error_log s to message) s).
Proof.
  intros Hs. unfold senderror. erewrite bind_runs by apply filtered_run.
  change MAX_PKT_DATA with 254%nat.
  destruct (doSend_plain_run (λ _ _, ub) (-1) to ICB_M_ERROR (filter_text message 254)
    (log (filter_events message 254) s)) as [r Hr]; [done|].
  erewrite bind_runs by exact Hr. unfold ret, error_log. by rewrite log_log.
Qed.

Lemma sendstatus_run to status message s :
  arrays_sized s → sendstatus to status message s = Some (tt, log (status_log s ICB_M_STATUS to status message) s).
Proof.
  intros Hs. unfold sendstatus. change (MAX_STATUS_LEN + 1)%nat with 21%nat.
  change (MAX_PKT_DATA - MAX_STATUS_LEN - 1)%nat with 233%nat.
  do 2 (erewrite bind_runs by apply filtered_run). rewrite log_log.
  edestruct (doSend_plain_run senderror (-1) to ICB_M_STATUS) as [r Hr];
    [|erewrite bind_runs by exact Hr]; [done|].
  unfold ret, status_log. by rewrite log_log, deliver_log, !app_assoc.
Qed.

Lemma sendimport_run to status message s :
  arrays_sized s → sendimport to status message s = Some (tt, log (status_log s ICB_M_IMPORTANT to status message) s).
Proof.
  intros Hs. unfold sendimport. change (MAX_STATUS_LEN + 1)%nat with 21%nat.
  change (MAX_PKT_DATA - MAX_STATUS_LEN - 1)%nat with 233%nat.
  do 2 (erewrite bind_runs by apply filtered_run). rewrite log_log.
  edestruct (doSend_plain_run senderror (-1) to ICB_M_IMPORTANT) as [r Hr];
    [|rewrite <-doSend_is_plain in Hr by done; erewrite bind_runs by exact Hr]; [done|].
  unfold ret, status_log. by rewrite log_log, deliver_log, !app_assoc.
Qed.

Lemma sends_cmdout_run to message s :
  arrays_sized s → sends_cmdout to message s = Some (tt, log (cmdout_log s to message) s).
Proof.
  intros Hs. unfold sends_cmdout. change (MAX_PKT_DATA - 3)%nat with 251%nat.
  erewrite bind_runs by apply filtered_run.
  edestruct (doSend_plain_run senderror (-1) to ICB_M_CMDOUT) as [r Hr];
    [|rewrite <-doSend_is_plain in Hr by done; erewrite bind_runs by exact Hr]; [done|].
  unfold ret, cmdout_log. by rewrite log_log, deliver_log.
Qed.

Lemma sendopen_run from to u message s :
  arrays_sized s → entry_at from (u_tab s) = Some u →
  sendopen from to message s = Some (tt, log (open_log s (u_nickname u) to message) s).
Proof.
  intros Hs Hu. unfold sendopen. erewrite bind_runs by (by apply user_at_run).
  change (MAX_NICKLEN + 1)%nat with 13%nat. change (MAX_PKT_DATA - MAX_NICKLEN - 1)%nat with 241%nat.
  do 2 (erewrite bind_runs by apply filtered_run). rewrite log_log.
  edestruct (doSend_plain_run senderror from to ICB_M_OPEN) as [r Hr];
    [|rewrite <-doSend_is_plain in Hr by done; erewrite bind_runs by exact Hr]; [done|].
  unfold ret, open_log. by rewrite log_log, deliver_log, !app_assoc.
Qed.
End runs.

(** ** Properties *)

Section properties.
Context `{BuildConfig} `{Host} `{Commands}.
Implicit Types s : st.

(** Packets go to open connections of real users only, fit in the packet
    buffer and hold no NUL. *)
Definition good_event (s : st) (e : event) : Prop :=
  match e with
  | EvSend to pkt => reachable s to = true ∧ (1 ≤ length pkt ≤ 254)%nat ∧ x00 ∉ pkt
  | EvOverread => True
  | EvDisconnect _ | EvExit => False
  end.

Lemma packet_no_nul c b : c ≠ x00 → x00 ∉ b → x00 ∉ packet c b.
Proof.
  intros Hc Hb Hin. unfold packet in Hin. apply elem_of_take in Hin as (i & Hi & _).
  apply list_elem_of_lookup_2, elem_of_cons in Hi as [?|?]; congruence.
Qed.

Lemma filter_text_no_nul src len : x00 ∉ filter_text src len.
Proof. apply clean_text_no_nul, filter_text_clean. Qed.

Lemma good_deliver s to c b : c ≠ x00 → x00 ∉ b → Forall (good_event s) (deliver s to (packet c b)).
Proof.
  intros Hc Hb. unfold deliver. destruct (reachable s to) eqn:E; constructor; [|constructor].
  split; [done|]. split; [apply length_packet|by apply packet_no_nul].
Qed.

Lemma good_filter s src len : Forall (good_event s) (filter_events src len).
Proof. unfold filter_events. case_if; by repeat constructor. Qed.

Lemma no_nul_app (a b : cstring) : x00 ∉ a ++ b ↔ x00 ∉ a ∧ x00 ∉ b.
Proof. rewrite elem_of_app. tauto. Qed.

Lemma no_nul_sep : x00 ∉ SEP.
Proof. by apply (bool_decide_unpack _). Qed.

End properties.

(** ** The calls of the senders *)

Section calls.
Context `{BuildConfig} `{Host} `{Commands}.
Implicit Types s : st.

(** Some text fills the buffer it is filtered into, and so has no terminator. *)
Definition unterminated (bufs : list (cstring * nat)) : Prop :=
  Exists (λ '(t, len), length (filter_text t len) = len) bufs.

(** What a call that filters the texts of [bufs] may log: good packets for the
    users of [tos] only, and the mark of an over-read exactly when one of the
    texts fills its buffer. *)
Definition emits (s : st) (tos : list Z) (bufs : list (cstring * nat)) (es : list event) : Prop :=
  Forall (good_event s) es ∧ (∀ i pkt, EvSend i pkt ∈ es → i ∈ tos) ∧ (EvOverread ∈ es ↔ unterminated bufs).

Lemma emits_app s tos b1 b2 e1 e2 : emits s tos b1 e1 → emits s tos b2 e2 → emits s tos (b1 ++ b2) (e1 ++ e2).
Proof.
  intros (G1 & T1 & O1) (G2 & T2 & O2). split; [by apply Forall_app_2|]. split.
  - intros i pkt [?|?]%elem_of_app; eauto.
  - rewrite elem_of_app, O1, O2. unfold unterminated. by rewrite Exists_app.
Qed.

Lemma emits_nothing s tos : emits s tos [] [].
Proof.
  split; [done|]. split; [by intros i pkt ?%elem_of_nil|]. split; [by intros ?%elem_of_nil|by intros ?%Exists_nil].
Qed.

Lemma emits_filter s tos t len : emits s tos [(t, len)] (filter_events t len).
Proof.
  split; [apply good_filter|]. unfold filter_events. pose proof (proj2 (filter_text_clean t len)) as Hl.
  destruct (Nat.ltb_spec (length (filter_text t len)) len).
  - split; [by intros i pkt ?%elem_of_nil|]. split; [by intros ?%elem_of_nil|]. intros [E|?%Exists_nil]%Exists_cons; [lia|done].
  - split; [by intros i pkt ?%list_elem_of_singleton|]. split; [intros _; constructor; lia|]. intros _. by left.
Qed.

Lemma emits_deliver s tos to c b :
  c ≠ x00 → x00 ∉ b → to ∈ tos → emits s tos [] (deliver s to (packet c b)).
Proof.
  intros Hc Hb Hto. split; [by apply good_deliver|]. unfold deliver. destruct (reachable s to); [|by destruct (emits_nothing s tos) as (_ & ? & ?)].
  split; [by intros i pkt [= -> _]%list_elem_of_singleton|]. split; [by intros ?%list_elem_of_singleton|by intros ?%Exists_nil].
Qed.

(** A packet of one or two filtered texts after a prefix. *)
Lemma emits_one s to c pre t len :
  c ≠ x00 → x00 ∉ pre →
  emits s [to] [(t, len)] (filter_events t len ++ deliver s to (packet c (pre ++ filter_text t len))).
Proof.
  intros Hc Hp. change [(t, len)] with ([(t, len)] ++ []). apply emits_app; [apply emits_filter|].
  apply emits_deliver; [done| |by left]. rewrite no_nul_app. split; [done|apply filter_text_no_nul].
Qed.
Lemma emits_two s to c t1 k1 t2 k2 :
  c ≠ x00 →
  emits s [to] [(t1, k1); (t2, k2)]
    (filter_events t1 k1 ++ filter_events t2 k2 ++ deliver s to (packet c (filter_text t1 k1 ++ SEP ++ filter_text t2 k2))).
Proof.
  intros Hc. change [(t1, k1); (t2, k2)] with ([(t1, k1)] ++ [(t2, k2)] ++ []). do 2 (apply emits_app; [apply emits_filter|]).
  apply emits_deliver; [done| |by left]. rewrite !no_nul_app. split; [apply filter_text_no_nul|]. split; [apply no_nul_sep|apply filter_text_no_nul].
Qed.

(** The calls of the senders of send.c: [sender s m tos bufs s1] says that [m]
    is a call that may send to the users of [tos], filters the texts of [bufs]
    into buffers of the given sizes, and leaves [s1], the log apart.  A private
    message and a beep are to a real user here (the resident user runs the one
    as a command and answers the other), and the texts that are not filtered
    are strings. *)
Inductive sender s : M st unit → list Z → list (cstring * nat) → st → Prop :=
  | CallError to a : sender s (senderror to a) [to] [(a, 254%nat)] s
  | CallStatus to a b : sender s (sendstatus to a b) [to] [(a, 21%nat); (b, 233%nat)] s
  | CallImport to a b : sender s (sendimport to a b) [to] [(a, 21%nat); (b, 233%nat)] s
  | CallCmdout to a : sender s (sends_cmdout to a) [to] [(a, 251%nat)] s
  | CallCmdend to a : sender s (send_cmdend to a) [to] [(a, 250%nat)] s
  | CallExit to : sender s (sendexit to) [to] [] s
  | CallLoginok to : sender s (send_loginok to) [to] [] s
  | CallWhead to : sender s (user_whead to) [to] [] s
  | CallPing to a : x00 ∉ a → sender s (sendping to a) [to] [] s
  | CallWline to mod' nick idle resp login user site name :
      Forall (λ t, x00 ∉ t) [mod'; nick; user; site; name] →
      sender s (user_wline to mod' nick idle resp login user site name) [to] [] s
  | CallOpen from to uf a :
      entry_at from (u_tab s) = Some uf →
      sender s (sendopen from to a) [to] [(u_nickname uf, 13%nat); (a, 241%nat)] s
  | CallStored to a b :
      to < MAX_REAL_USERS → sender s (send_person_stored to a b) [to] [(a, 13%nat); (b, 241%nat)] s
  | CallPerson from to uf ut sh nh a :
      to < MAX_REAL_USERS → entry_at from (u_tab s) = Some uf → entry_at to (u_tab s) = Some ut →
      names_match (hush_address uf) (u_pri_s_hushed ut) = Some sh →
      names_match (hush_nick uf) (u_pri_n_hushed ut) = Some nh →
      sender s (sendperson from to a) (if sh || nh then [from] else [to])
        (if sh || nh then [(str "Bounce", 21%nat); (str "Message did not go through", 233%nat)]
         else [(u_nickname uf, 13%nat); (a, 241%nat)])
        (if sh || nh then s else set_lpriv_id (entry_set to from (lpriv_id s)) s)
  | CallBeep from to uf ut :
      to < MAX_REAL_USERS → entry_at from (u_tab s) = Some uf → entry_at to (u_tab s) = Some ut → x00 ∉ u_nickname uf →
      sender s (sendbeep from to) [from; to]
        (if u_nobeep ut =? 0 then []
         else (str "User has nobeep enabled.", 254%nat) ::
           (if u_nobeep ut =? 2
            then [(str "No-Beep", 21%nat); (u_nickname uf ++ str " attempted (and failed) to beep you", 233%nat)] else [])) s
  | CallNewUser n secure u :
      entry_at n (u_tab s) = Some u → x00 ∉ thishost → x00 ∉ VERSION →
      sender s (s_new_user n secure) [n] []
        (match getremotename n with
         | Some (c :: cp) =>
             set_u_tab (entry_set n (set_u_secure secure (set_u_nodeid (take MAX_NODELEN (c :: cp)) u)) (u_tab s)) s
         | _ => s
         end).

(** A packet that is handed to [doSend] for a connection. *)
Lemma doSend_real from to c b s :
  arrays_sized s → to < MAX_REAL_USERS →
  ∃ r, doSend from to (packet c b) s = Some (r, log (deliver s to (packet c b)) s).
Proof.
  intros Hs Hto. destruct (doSend_plain_run senderror from to c b s Hs) as [r Hr]. exists r. rewrite <-Hr.
  unfold doSend, doSend_plain. case_if; [done|]. by destruct (Z.leb_spec MAX_REAL_USERS to); [lia|].
Qed.

Lemma sender_direct from to c b s :
  arrays_sized s → c ≠ ICB_M_BEEP → c ≠ ICB_M_PERSONAL → c ≠ x00 → x00 ∉ b →
  ∃ es, (_ <- doSend from to (packet c b) ;; ret tt) s = Some (tt, log es s) ∧ emits s [to] [] es.
Proof.
  intros Hs Hb Hp Hc Hn. destruct (doSend_plain_run senderror from to c b s Hs) as [r Hr].
  rewrite <-doSend_is_plain in Hr by done. exists (deliver s to (packet c b)).
  split; [by erewrite bind_runs by exact Hr|]. apply emits_deliver; [done|done|by left].
Qed.

Lemma sender_cmdend to a s :
  arrays_sized s → ∃ es, send_cmdend to a s = Some (tt, log es s) ∧ emits s [to] [(a, 250%nat)] es.
Proof.
  intros Hs. unfold send_cmdend. change (MAX_PKT_DATA - 4)%nat with 250%nat. erewrite bind_runs by apply filtered_run.
  edestruct (doSend_plain_run senderror (-1) to ICB_M_CMDOUT) as [r Hr];
    [|rewrite <-doSend_is_plain in Hr by done; erewrite bind_runs by exact Hr]; [done|].
  eexists. split; [unfold ret; rewrite log_log, deliver_log; reflexivity|].
  apply (emits_one s to ICB_M_CMDOUT (str "ec" ++ SEP ++ SEP)); [done|by apply (bool_decide_unpack _)].
Qed.

(** The two texts of a private message. *)
Lemma personal_texts from to nick a s :
  arrays_sized s → to < MAX_REAL_USERS →
  ∃ es, (nickbuf <- filtered nick (MAX_NICKLEN + 1) ;; msgbuf <- filtered a (MAX_PKT_DATA - MAX_NICKLEN - 1) ;;
    _ <- doSend from to (packet ICB_M_PERSONAL (nickbuf ++ SEP ++ msgbuf)) ;; ret tt) s = Some (tt, log es s) ∧
    emits s [to] [(nick, 13%nat); (a, 241%nat)] es.
Proof.
  intros Hs Hto. change (MAX_NICKLEN + 1)%nat with 13%nat. change (MAX_PKT_DATA - MAX_NICKLEN - 1)%nat with 241%nat.
  do 2 (erewrite bind_runs by apply filtered_run). rewrite log_log.
  edestruct (doSend_real from to ICB_M_PERSONAL) as [r Hr]; [| |erewrite bind_runs by exact Hr]; [done|done|].
  eexists. split; [unfold ret; rewrite log_log, deliver_log, <-app_assoc; reflexivity|by apply emits_two].
Qed.

Lemma doSend_personal_real from to c b s :
  to < MAX_REAL_USERS → doSend_personal from to (packet c b) s = doSend from to (packet c b) s.
Proof.
  intros Hto. unfold doSend, doSend_personal. case_if; [done|]. by destruct (Z.leb_spec MAX_REAL_USERS to); [lia|].
Qed.

Lemma sender_person from to uf ut sh nh a s :
  arrays_sized s → to < MAX_REAL_USERS → entry_at from (u_tab s) = Some uf → entry_at to (u_tab s) = Some ut →
  names_match (hush_address uf) (u_pri_s_hushed ut) = Some sh →
  names_match (hush_nick uf) (u_pri_n_hushed ut) = Some nh →
  ∃ es, sendperson from to a s =
      Some (tt, log es (if sh || nh then s else set_lpriv_id (entry_set to from (lpriv_id s)) s)) ∧
    emits s (if sh || nh then [from] else [to])
      (if sh || nh then [(str "Bounce", 21%nat); (str "Message did not go through", 233%nat)]
       else [(u_nickname uf, 13%nat); (a, 241%nat)]) es.
Proof.
  intros Hs Hto Hf Ht Ha Hb. unfold sendperson.
  erewrite bind_runs by (by apply user_at_run). erewrite bind_runs by (by apply user_at_run).
  rewrite Ha, Hb. erewrite bind_runs by done. erewrite (bind_runs _ _ _ (sh || nh)); [|by destruct sh].
  destruct (sh || nh).
  { eexists. split; [by apply sendstatus_run|]. by apply emits_two. }
  change (MAX_NICKLEN + 1)%nat with 13%nat. change (MAX_PKT_DATA - MAX_NICKLEN - 1)%nat with 241%nat.
  do 2 (erewrite bind_runs by apply filtered_run). rewrite log_log.
  set (es0 := filter_events (u_nickname uf) 13 ++ filter_events a 241).
  assert (is_Some (entry_at to (lpriv_id s))) as Hl.
  { destruct Hs as (Eu & _ & El & _). apply entry_at_range. rewrite El, <-Eu. apply entry_at_range. by rewrite Ht. }
  erewrite bind_runs by (by apply set_int_run). set (s1 := set_lpriv_id _ _).
  assert (arrays_sized s1) as Hs1.
  { destruct Hs as (? & ? & ? & ? & ?). unfold arrays_sized. simpl. by rewrite length_entry_set. }
  edestruct (doSend_real from to ICB_M_PERSONAL) as [r Hr]; [exact Hs1|done|].
  erewrite bind_runs by (rewrite doSend_personal_real by done; exact Hr).
  exists (es0 ++ deliver s to (packet ICB_M_PERSONAL (filter_text (u_nickname uf) 13 ++ SEP ++ filter_text a 241))).
  split; [by rewrite <-log_log|]. unfold es0. rewrite <-app_assoc. by apply emits_two.
Qed.

Lemma sender_beep from to uf ut s :
  arrays_sized s → to < MAX_REAL_USERS → entry_at from (u_tab s) = Some uf → entry_at to (u_tab s) = Some ut → x00 ∉ u_nickname uf →
  ∃ es, sendbeep from to s = Some (tt, log es s) ∧
    emits s [from; to] (if u_nobeep ut =? 0 then []
      else (str "User has nobeep enabled.", 254%nat) ::
        (if u_nobeep ut =? 2
         then [(str "No-Beep", 21%nat); (u_nickname uf ++ str " attempted (and failed) to beep you", 233%nat)] else [])) es.
Proof.
  intros Hs Hto Hf Ht Hn. unfold sendbeep. erewrite bind_runs by (by apply user_at_run).
  destruct (u_nobeep ut =? 0); cbn [negb].
  { erewrite bind_runs by (by apply user_at_run). edestruct (doSend_real from to ICB_M_BEEP) as [r Hr]; [done|done|].
    eexists. split; [erewrite bind_runs by exact Hr; reflexivity|]. apply emits_deliver; [done|done|]. right. by left. }
  erewrite bind_runs by (by apply senderror_run). set (e1 := error_log _ _ _).
  assert (emits s [from; to] [(str "User has nobeep enabled.", 254%nat)] e1) as H1'.
  { apply (emits_app s _ [_] []); [apply emits_filter|]. apply emits_deliver; [done|apply filter_text_no_nul|by left]. }
  destruct (u_nobeep ut =? 2); cbn [when]; [|by exists e1].
  erewrite bind_runs by (by apply user_at_run). rewrite sendstatus_run by done. rewrite log_log. eexists. split; [done|].
  apply (emits_app s _ [_]); [done|]. unfold status_log. rewrite deliver_log.
  apply (emits_app s _ [_] [_]); [apply emits_filter|]. apply (emits_app s _ [_] []); [apply emits_filter|].
  apply emits_deliver; [done| |right; by left]. rewrite !no_nul_app.
  split; [apply filter_text_no_nul|]. split; [apply no_nul_sep|apply filter_text_no_nul].
Qed.

Lemma sender_new_user n secure u s :
  arrays_sized s → entry_at n (u_tab s) = Some u → x00 ∉ thishost → x00 ∉ VERSION →
  ∃ es, s_new_user n secure s = Some (tt, log es (match getremotename n with
      | Some (c :: cp) =>
          set_u_tab (entry_set n (set_u_secure secure (set_u_nodeid (take MAX_NODELEN (c :: cp)) u)) (u_tab s)) s
      | _ => s
      end)) ∧ emits s [n] [] es.
Proof.
  intros Hs Hu Hh Hv. assert (0 ≤ n < Z.of_nat MAX_USERS) as Hn.
  { destruct Hs as [<- _]. apply entry_at_range. by rewrite Hu. }
  unfold s_new_user. destruct (Z.ltb_spec n 0); [lia|]. destruct (Z.leb_spec (Z.of_nat MAX_USERS) n); [lia|]. cbn [orb].
  edestruct (doSend_plain_run senderror (-1) n ICB_M_PROTO) as [r Hr];
    [|rewrite <-doSend_is_plain in Hr by done; erewrite bind_runs by exact Hr]; [done|].
  eexists. split.
  - destruct (getremotename n) as [[|c cp]|]; [reflexivity| |reflexivity]. by rewrite (upd_user_run n _ u).
  - apply emits_deliver; [done| |by left]. rewrite !no_nul_app. auto using no_nul_sep, itoa_no_nul.
Qed.
End calls.

(** C23: every sender, on real users' connections.  The call always gets
    through to its end and leaves, apart from the log, the state as it was; a
    private message makes its sender the receiver's last correspondent,
    and a new connection notes its host name.  The packets handed over go only
    to those the call names, to open connections of real users, have from 1
    to 254 bytes and no NUL, so that with its length byte and terminator each
    fits the 256-byte packet buffer and [doSend] never meets one that is too
    large.  The mark of undefined behaviour, the read past a buffer without
    terminator, is left exactly when one of the texts fills the buffer it is
    filtered into. *)
Theorem senders_bounded `{BuildConfig} `{Host} `{Commands} m tos bufs (s s1 : st) :
  arrays_sized s → sender s m tos bufs s1 →
  (∃ es, m s = Some (tt, log es s1) ∧ Forall (good_event s) es ∧ (∀ i pkt, EvSend i pkt ∈ es → i ∈ tos) ∧
     (EvOverread ∈ es ↔ unterminated bufs)) ∧
  ∀ from to c body f, 0 ≤ to < MAX_REAL_USERS →
    doSend_client f from to (packet c body) s = doSend_client (λ _ _, ub) from to (packet c body) s.
Proof.
  intros Hs Hc. split; [|intros from to c body f Hto; by rewrite !doSend_client_run].
  cut (∃ es, m s = Some (tt, log es s1) ∧ emits s tos bufs es); [intros (es & ? & ?); by exists es|].
  destruct Hc.
  - eexists. split; [by apply senderror_run|]. by apply (emits_one s to ICB_M_ERROR []); [|apply not_elem_of_nil].
  - eexists. split; [by apply sendstatus_run|by apply emits_two].
  - eexists. split; [by apply sendimport_run|by apply emits_two].
  - eexists. split; [by apply sends_cmdout_run|].
    apply (emits_one s to ICB_M_CMDOUT (str "co" ++ SEP)); [done|by apply (bool_decide_unpack _)].
  - by apply sender_cmdend.
  - apply sender_direct; try done. apply not_elem_of_nil.
  - apply sender_direct; try done. apply not_elem_of_nil.
  - apply sender_direct; try done. by apply (bool_decide_unpack _).
  - by apply sender_direct.
  - apply sender_direct; try done. rewrite !Forall_cons in H2. destruct H2 as (? & ? & ? & ? & ? & _).
    rewrite !no_nul_app. assert (x00 ∉ str "wl") by (by apply (bool_decide_unpack _)). auto 20 using no_nul_sep, itoa_no_nul.
  - eexists. split; [by apply sendopen_run|by apply emits_two].
  - by apply personal_texts.
  - by eapply sender_person.
  - by eapply sender_beep.
  - by apply sender_new_user.
Qed.

(** A small server's interpreter, which does nothing. *)
Definition demo_commands : Commands := {| cmdmsg := λ _ _, ret tt |}.

Lemma senders_bounded_witness :
  (∃ es, @sendstatus demo_build 0 (str "Status") (str "hello") demo_state = Some (tt, log es demo_state) ∧ EvOverread ∉ es) ∧
  (∃ es, @sendopen demo_build demo_commands 1 0 (replicate 241 "x"%byte) demo_state = Some (tt, log es demo_state) ∧ EvOverread ∈ es).
Proof.
  pose proof (λ m tos bufs, @senders_bounded demo_build demo_host demo_commands m tos bufs demo_state demo_state demo_sized) as Hb.
  split.
  - destruct (proj1 (Hb _ _ _ (CallStatus demo_state 0 (str "Status") (str "hello")))) as (es & E & _ & _ & Ho). exists es. split; [exact E|].
    rewrite Ho. intros Hx. by repeat (apply Exists_cons in Hx as [Hx|Hx]; [vm_compute in Hx; discriminate Hx|]); apply Exists_nil in Hx.
  - destruct (proj1 (Hb _ _ _ (CallOpen demo_state 1 0 (demo_user "bob" "Lobby") (replicate 241 "x"%byte) eq_refl))) as (es & E & _ & _ & Ho).
    exists es. split; [exact E|]. rewrite Ho. right. left. vm_compute. reflexivity.
Defined.

Section exact.
Context `{BuildConfig} `{Host} `{Commands}.
Implicit Types s : st.

(** Clean text that leaves room for the terminator goes out as it is. *)
Definition fits (t : cstring) (len : nat) : Prop := clean_text t ∧ (length t < len)%nat.

Lemma fits_text t len : fits t len → filter_text t len = t.
Proof. intros [Hc Hl]. apply filter_text_id; [done|lia]. Qed.
Lemma fits_events t len : fits t len → filter_events t len = [].
Proof. intros [_ Hl]. by apply filter_events_short. Qed.

Lemma status_log_fits s c to status message :
  fits status 21 → fits message 233 →
  status_log s c to status message = deliver s to (c :: status ++ SEP ++ message).
Proof.
  intros H1' H2'. unfold status_log. rewrite !fits_events, !fits_text by done. simpl. f_equal.
  apply packet_id. rewrite length_app. destruct H1', H2'. simpl. lia.
Qed.

Lemma open_log_fits s nick to message :
  fits nick 13 → fits message 241 →
  open_log s nick to message = deliver s to (ICB_M_OPEN :: nick ++ SEP ++ message).
Proof.
  intros H1' H2'. unfold open_log. rewrite !fits_events, !fits_text by done. simpl. f_equal.
  apply packet_id. rewrite length_app. destruct H1', H2'. simpl. lia.
Qed.
End exact.

(** ASCII literals are clean text. *)
Definition ascii_text (t : cstring) : bool := forallb (λ b, (0x20 <=? uchar b) && (uchar b <=? 0x7e)) t.

Lemma ascii_clean t : ascii_text t = true → clean_text t.
Proof.
  unfold ascii_text. rewrite forallb_forall. intros Ht. exists (uchar <$> t). split.
  - unfold encode_all. induction t as [|b t IH]; [done|].
    rewrite fmap_cons, map_cons. cbn [concat].
    rewrite <-IH by (intros x Hx; apply Ht; by right).
    assert (encode (uchar b) = [b]) as ->; [|done].
    specialize (Ht b (or_introl eq_refl)). apply andb_true_iff in Ht as [? ?].
    unfold encode. destruct (Z.ltb_spec (uchar b) 0x80); [|lia]. by rewrite to_uchar_uchar.
  - apply Forall_fmap, Forall_forall. intros b Hb%list_elem_of_In. specialize (Ht b Hb).
    apply andb_true_iff in Ht as [? ?]. unfold printable, is_scalar. simpl. lia.
Qed.

(** The run of [sendperson]. *)
Lemma sendperson_run `{BuildConfig} `{Host} `{Commands} (from to : Z) uf ut message a b (s : st) :
  arrays_sized s → 0 ≤ to < MAX_REAL_USERS →
  entry_at from (u_tab s) = Some uf → entry_at to (u_tab s) = Some ut →
  fits (u_nickname uf) 13 → fits message 241 →
  names_match (hush_address uf) (u_pri_s_hushed ut) = Some a →
  names_match (hush_nick uf) (u_pri_n_hushed ut) = Some b →
  sendperson from to message s = Some (tt,
    if a || b then log (deliver s from (ICB_M_STATUS :: str "Bounce" ++ SEP ++ str "Message did not go through")) s
    else log (deliver s to (ICB_M_PERSONAL :: u_nickname uf ++ SEP ++ message))
           (set_lpriv_id (entry_set to from (lpriv_id s)) s)).
Proof.
  intros Hs Hto Hf Ht Hnick Hmsg Ha Hb. unfold sendperson.
  erewrite bind_runs by (by apply user_at_run). erewrite bind_runs by (by apply user_at_run).
  rewrite Ha, Hb. erewrite bind_runs by done. erewrite (bind_runs _ _ _ (a || b)); [|by destruct a].
  destruct (a || b).
  - rewrite sendstatus_run by done. rewrite status_log_fits; [done| |];
      (split; [by apply ascii_clean|vm_compute; lia]).
  - change (MAX_NICKLEN + 1)%nat with 13%nat. change (MAX_PKT_DATA - MAX_NICKLEN - 1)%nat with 241%nat.
    do 2 (erewrite bind_runs by apply filtered_run). rewrite !fits_events, !fits_text, !log_nil by done.
    erewrite bind_runs; [|apply set_int_run, entry_at_range; destruct Hs as (_ & _ & -> & _);
      unfold MAX_REAL_USERS in Hto; lia].
    unfold doSend_personal.
    destruct (Z.ltb_spec to 0); [lia|]. destruct (Z.leb_spec MAX_REAL_USERS to); [lia|].
    erewrite bind_runs; [|apply doSend_client_run; [|done]].
    2:{ destruct Hs as (? & ? & ? & ? & ?). unfold arrays_sized. simpl. by rewrite length_entry_set. }
    rewrite packet_id; [done|].
    destruct Hnick as [_ ?], Hmsg as [_ ?]. rewrite !length_app. simpl. lia.
Qed.

(** A private message that fits is delivered as one packet with the
    sender's nickname, and the sender becomes the receiver's last correspondent;
    when the receiver has hushed the sender's address or nickname the sender
    gets a bounce instead and the receiver's state is unchanged. *)
Theorem sendperson_correct `{BuildConfig} `{Host} `{Commands} (from to : Z) uf ut message a b (s : st) :
  arrays_sized s → 0 ≤ to < MAX_REAL_USERS →
  entry_at from (u_tab s) = Some uf → entry_at to (u_tab s) = Some ut →
  fits (u_nickname uf) 13 → fits message 241 →
  names_match (hush_address uf) (u_pri_s_hushed ut) = Some a →
  names_match (hush_nick uf) (u_pri_n_hushed ut) = Some b →
  sendperson from to message s = Some (tt,
    if a || b then log (deliver s from (ICB_M_STATUS :: str "Bounce" ++ SEP ++ str "Message did not go through")) s
    else log (deliver s to (ICB_M_PERSONAL :: u_nickname uf ++ SEP ++ message))
           (set_lpriv_id (entry_set to from (lpriv_id s)) s)).
Proof. apply sendperson_run. Qed.

Lemma sendperson_correct_witness :
  @sendperson demo_build demo_commands 0 1 (str "hi") demo_state = Some (tt,
    log [EvSend 1 (ICB_M_PERSONAL :: str "amy" ++ SEP ++ str "hi")]
      (set_lpriv_id [-1; 0; -1; 0; -1] demo_state)).
Proof.
  rewrite (@sendperson_correct demo_build demo_host demo_commands 0 1 (demo_user "amy" "Lobby")
    (demo_user "bob" "Lobby") (str "hi") false false demo_state demo_sized); try reflexivity.
  - unfold MAX_REAL_USERS. simpl. lia.
  - split; [by apply ascii_clean|vm_compute; lia].
  - split; [by apply ascii_clean|vm_compute; lia].
Defined.
