(* ===== verification/GroupCast.v ===== *)
(** * Speaking to groups (server/s_group.c, part 1; add_item of server/s_who.c)

    The broadcasts of status and open messages to the members of a group, the
    listings of the invitations, the topic, the talk list, and the renaming of
    a group.  [fields[0]] and [fields[1]], which the handlers read from the
    packet, are arguments. *)

From Stdlib Require Import ZArith Lia String.
From S2P Require Import Config Prelude Utf8 StrUtil NameList CLib Monad Dbm IcbDb State Tables Send.

Local Open Scope Z_scope.
Local Open Scope icb_monad_scope.

(** [getword(s)]: a word of 64 characters or more is written past the end of
    its static buffer. *)
Definition getword_m (s : cstring) : M st cstring :=
  if (WORD_SIZE <=? getword_nul_index s)%nat then ub else ret (getword s).

(** The address of a user in upper case. *)
Definition user_address (u : user) : cstring := ucaseit (u_loginid u ++ str "@" ++ u_nodeid u).

Definition MAX_LINE : nat := 75.

Section code.
Context `{BuildConfig} `{Host} `{Commands}.

(** ** Broadcasts *)

Definition s_status_group (k : Z) (tellme : bool) (n : Z) (class_string message_string : cstring) : M st Z :=
  my_group <- (if k =? 1 then (u <- user_at n ;; ret (u_group u)) else (g <- group_at n ;; ret (g_name g))) ;;
  for_each (zseq MAX_REAL_USERS) (λ i,
    u <- user_at i ;;
    when (strcaseeq my_group (u_group u) && (tellme || negb (k =? 1) || ((k =? 1) && negb (i =? n))))
      (sendstatus i class_string message_string)) ;;
  ret 0.

(** Whether user [ui] is in the group and has not hushed the speaker in public. *)
Definition hears (my_group one two : cstring) (ui : user) : M st bool :=
  if strcaseeq my_group (u_group ui) then
    a <- lift (names_match one (u_pub_s_hushed ui)) ;;
    if a : bool then ret false
    else b <- lift (names_match two (u_pub_n_hushed ui)) ;; ret (negb b)
  else ret false.

Definition s_send_group (n : Z) (fields0 : cstring) : M st Z :=
  u <- user_at n ;;
  let my_group := u_group u in
  let one := user_address u in
  let two := ucaseit (u_nickname u) in
  for_each (zseq MAX_REAL_USERS) (λ i,
    ui <- user_at i ;;
    when (negb (i =? n) || negb (u_echoback u =? 0)) (
      h <- hears my_group one two ui ;;
      when (h && (u_login ui =? LOGIN_COMPLETE)) (sendopen n i fields0))) ;;
  ret 0.

Definition s_exclude (n argc : Z) (fields1 : cstring) : M st Z :=
  if argc =? 2 then
    if (0 <? length (get_tail fields1))%nat then
      u <- user_at n ;;
      gi <- gets (λ s, find_group (u_group u) (g_tab s)) ;;
      quiet <- (if negb (gi =? -1) then (g <- group_at gi ;; ret (g_volume g =? QUIET)) else ret false) ;;
      if quiet : bool then
        senderror n (str "Open messages not permitted in quiet groups.") ;; ret 0
      else
        let my_group := u_group u in
        let one := user_address u in
        let two := ucaseit (u_nickname u) in
        for_each (zseq MAX_REAL_USERS) (λ i,
          ui <- user_at i ;;
          when (negb (i =? n) || negb (u_echoback u =? 0)) (
            h <- hears my_group one two ui ;;
            when (h && (LOGIN_COMPLETE <=? u_login ui)) (
              w <- getword_m fields1 ;;
              when (negb (strcaseeq (u_nickname ui) w)) (
                j <- gets (λ s, find_user w (u_tab s)) ;;
                who <- (if 0 <? j then (uj <- user_at j ;; ret (u_nickname uj)) else ret w) ;;
                sendstatus i (str "Exclude") (u_nickname u ++ str "'s next message excludes " ++ who ++ str ":") ;;
                sendopen n i (get_tail fields1))))) ;;
        ret 0
    else senderror n (str "Empty message.") ;; ret 0
  else ret 0.

(** ** Listings *)

Definition add_item (n : Z) (item buf : cstring) : M st (Z * cstring) :=
  if (MAX_LINE <=? length item + 1)%nat then ret (-1, buf)
  else if (MAX_LINE <=? length item + length buf + 1)%nat then
    sends_cmdout n buf ;;
    ret (0, if negb (streq item (str ", ")) then item else [])
  else ret (0, buf ++ item).

(** A loop over the names of a list; the first loop of a listing looks at its
    counter to decide on the header, the second at the line so far. *)
Fixpoint add_names (n : Z) (header suffix : cstring) (by_count : bool) (i : nat) (l : list cstring)
    (line : cstring) : M st cstring :=
  match l with
  | [] => ret line
  | cp :: l' =>
      r <- add_item n (if (if by_count then (i =? 0)%nat else (length line =? 0)%nat) then header else str ", ") line ;;
      line <- match cp with
              | [] => ret (snd r)
              | _ :: _ => r' <- add_item n (cp ++ suffix) (snd r) ;; ret (snd r')
              end ;;
      add_names n header suffix by_count (S i) l' line
  end.

(** Two lists under one header, the second marked as for registered users. *)
Definition list_two (n : Z) (header : cstring) (l lr : list cstring) : M st unit :=
  line <- add_names n header [] true 0 l [] ;;
  line <- add_names n header (str "(r)") false 0 lr line ;;
  when (0 <? length line)%nat (sends_cmdout n line).

Definition list_invites (n gi : Z) : M st Z :=
  g <- group_at gi ;;
  list_two n (str "Nicks invited: ") (g_n_invites g) (g_nr_invites g) ;;
  list_two n (str "Addrs invited: ") (g_s_invites g) (g_sr_invites g) ;;
  ret (Z.of_nat (length (g_n_invites g)) + Z.of_nat (length (g_nr_invites g)) +
       Z.of_nat (length (g_s_invites g)) + Z.of_nat (length (g_sr_invites g))).

Definition dump_table (n : Z) : M st unit :=
  for_each
    [str "Table Of Status Commands";
     str "r - restricted c - controlled m - moderated p - public";
     str "i - invisible s - secret v - visible";
     str "q - quiet n - normal l - loud";
     str "name - change group name";
     str "? -- this table";
     str "# - change the number of allowed users";
     str "b - change the idleboot setting";
     str "idlebootmsg - change the idleboot message";
     str "im - change the idlemod setting"]
    (sendstatus n (str "Information")).

(** ** Names, topics, talkers *)

Definition set_name (n gi : Z) (name : cstring) : M st Z :=
  match name with
  | [] => senderror n (str "New name may not be null.") ;; ret (-1)
  | _ :: _ =>
      let n_g_n := take MAX_GROUPLEN name in
      if streq n_g_n (str "1") then senderror n (str "Cannot change name to group 1.") ;; ret (-1)
      else
        ex <- gets (λ s, find_group n_g_n (g_tab s)) ;;
        if (0 <=? ex) && negb (ex =? gi) then senderror n (str "That group already exists.") ;; ret (-1)
        else
          g <- group_at gi ;;
          let cp := g_name g in
          for_each (zseq MAX_REAL_USERS) (λ i,
            u <- user_at i ;;
            when (strcaseeq (u_group u) cp) (upd_user i (set_u_group n_g_n))) ;;
          upd_group gi (set_g_name n_g_n) ;;
          ret 0
  end.

Definition s_topic (n argc : Z) (fields1 : cstring) : M st Z :=
  if argc =? 2 then
    u <- user_at n ;;
    t_group <- gets (λ s, find_group (u_group u) (g_tab s)) ;;
    g <- group_at t_group ;;
    match fields1 with
    | [] =>
        sends_cmdout n (match g_topic g with [] => str "The topic is not set." | t => str "The topic is: " ++ t end) ;;
        ret 0
    | _ :: _ =>
        let is_moderator := g_mod g =? n in
        let has_moderator := 0 <=? g_mod g in
        if has_moderator && negb is_moderator then senderror n (str "You aren't the moderator.") ;; ret 0
        else if streq (g_name g) (str "1") then
          senderror n (str "You can't change this group's topic.") ;; ret 0
        else if streq (g_name g) IDLE_GROUP || streq (g_name g) BOOT_GROUP then
          senderror n (str "You can't change this group's topic.") ;; ret 0
        else
          let topic := strncpy fields1 MAX_TOPICLEN in
          upd_group t_group (set_g_topic topic) ;;
          when (negb (g_volume g =? QUIET)) (
            _ <- s_status_group 1 true n (str "Topic")
                   (u_nickname u ++ str " changed the topic to " ++ [x22] ++ topic ++ [x22]) ;;
            ret tt) ;;
          ret 0
    end
  else ret 0.

Definition talk_delete (who : cstring) (gi : Z) : M st Z :=
  g <- group_at gi ;;
  let in_normal := mru_present who (g_n_talk g) in
  when in_normal (upd_group gi (λ g, set_g_n_talk (fst (mru_delete who (g_n_talk g))) g)) ;;
  let in_registered := mru_present who (g_nr_talk g) in
  when in_registered (upd_group gi (λ g, set_g_nr_talk (fst (mru_delete who (g_nr_talk g))) g)) ;;
  let deleted := (if in_normal then 1 else 0) + (if in_registered then 1 else 0) in
  when (0 <? deleted) (
    dest <- gets (λ s, find_user who (u_tab s)) ;;
    when (0 <=? dest) (
      ud <- user_at dest ;;
      when (in_normal || (in_registered && (0 <? length (u_realname ud))%nat)) (
        um <- user_at (g_mod g) ;;
        sendstatus dest (str "TALK") (str "You no longer can talk in group " ++ u_group um ++
          str " (no thanks to " ++ u_nickname um ++ str ")")))) ;;
  ret deleted.

(** The user is on a talk list of the group. *)
Definition may_talk (u : user) (g : group) : bool :=
  mru_present (u_nickname u) (g_n_talk g) ||
  (mru_present (u_nickname u) (g_nr_talk g) && (0 <? length (u_realname u))%nat).

Definition talk_report (n gi : Z) : M st unit :=
  u <- user_at n ;;
  g <- group_at gi ;;
  when (may_talk u g) (sends_cmdout n (str "Talk permission in: " ++ g_name g)).
End code.

(** ** Runs of the broadcasts *)

Section broadcast.
Context `{BuildConfig} `{Host} `{Commands}.
Implicit Types s : st.

(** The events of a loop over the real users, in the order of the table. *)
Definition cast_log (ev : Z → user → list event) (tab : list user) : list event :=
  List.concat ((λ i, match entry_at i tab with Some u => ev i u | None => [] end) <$> zseq MAX_REAL_USERS).

Lemma bcast_run (F : Z → user → M st unit) (ev : Z → user → list event) s :
  arrays_sized s →
  (∀ i u es, 0 ≤ i < MAX_REAL_USERS → entry_at i (u_tab s) = Some u →
     F i u (log es s) = Some (tt, log (es ++ ev i u) s)) →
  for_each (zseq MAX_REAL_USERS) (λ i, u <- user_at i ;; F i u) s =
  Some (tt, log (cast_log ev (u_tab s)) s).
Proof.
  intros Hs HF.
  assert (∀ l es, (∀ i, i ∈ l → 0 ≤ i < MAX_REAL_USERS) →
    for_each l (λ i, u <- user_at i ;; F i u) (log es s) =
    Some (tt, log (es ++ List.concat ((λ i, match entry_at i (u_tab s) with Some u => ev i u | None => [] end) <$> l)) s)) as Hl.
  { induction l as [|i l IH]; intros es Hi; cbn [for_each].
    - simpl. by rewrite app_nil_r.
    - assert (0 ≤ i < MAX_REAL_USERS) as Hr by (apply Hi; by left).
      destruct (proj2 (entry_at_range (u_tab s) i)) as [u Hu].
      { destruct Hs as [-> _]. unfold MAX_REAL_USERS in Hr. lia. }
      erewrite bind_runs; [|erewrite bind_runs by (by apply user_at_run); by apply HF].
      rewrite IH by (intros j Hj; apply Hi; by right). cbn. rewrite Hu. by rewrite app_assoc. }
  pose proof (Hl (zseq MAX_REAL_USERS) []) as Hrun. rewrite log_nil in Hrun. apply Hrun.
  intros i. apply elem_zseq.
Qed.

Lemma when_log (b : bool) m es ev s :
  (b = true → m (log es s) = Some (tt, log (es ++ ev) s)) →
  when b m (log es s) = Some (tt, log (es ++ (if b then ev else [])) s).
Proof. destruct b; simpl; [auto|]. intros _. by rewrite app_nil_r. Qed.

Lemma sendstatus_log i c m es s :
  arrays_sized s → sendstatus i c m (log es s) = Some (tt, log (es ++ status_log s ICB_M_STATUS i c m) s).
Proof. intros Hs. rewrite sendstatus_run by done. by rewrite log_log. Qed.

(** Whether a status message for the group reaches slot [i]. *)
Definition status_to (k : Z) (tellme : bool) (n : Z) (my_group : cstring) (i : Z) (u : user) : bool :=
  strcaseeq my_group (u_group u) && (tellme || negb (k =? 1) || ((k =? 1) && negb (i =? n))).

Definition status_group_log (s : st) (k : Z) (tellme : bool) (n : Z) (my_group c m : cstring) : list event :=
  cast_log (λ i u, if status_to k tellme n my_group i u then status_log s ICB_M_STATUS i c m else []) (u_tab s).

Lemma status_group_run k tellme n my_group c m s :
  arrays_sized s →
  (if k =? 1 then u_group <$> entry_at n (u_tab s) else g_name <$> entry_at n (g_tab s)) = Some my_group →
  s_status_group k tellme n c m s = Some (0, log (status_group_log s k tellme n my_group c m) s).
Proof.
  intros Hs Hg. unfold s_status_group.
  erewrite (bind_runs _ _ _ my_group s).
  2:{ destruct (k =? 1).
      - destruct (entry_at n (u_tab s)) as [u|] eqn:E; [|done]. injection Hg as <-.
        by erewrite bind_runs by (by apply user_at_run).
      - destruct (entry_at n (g_tab s)) as [g|] eqn:E; [|done]. injection Hg as <-.
        by erewrite bind_runs by (by apply group_at_run). }
  erewrite bind_runs; [reflexivity|].
  apply (bcast_run (λ i u, when (status_to k tellme n my_group i u) (sendstatus i c m))
    (λ i u, if status_to k tellme n my_group i u then status_log s ICB_M_STATUS i c m else [])); [done|].
  intros i u es Hi Hu. apply when_log. intros _. by apply sendstatus_log.
Qed.

Lemma elem_cast_log ev tab e :
  e ∈ cast_log ev tab ↔ ∃ i u, 0 ≤ i < MAX_REAL_USERS ∧ entry_at i tab = Some u ∧ e ∈ ev i u.
Proof.
  unfold cast_log. rewrite list_elem_of_In, in_concat. split.
  - intros (l & Hl & He). apply list_elem_of_In, list_elem_of_fmap in Hl as (i & -> & Hi%elem_zseq).
    destruct (entry_at i tab) as [u|] eqn:E; [|done]. exists i, u. by rewrite list_elem_of_In.
  - intros (i & u & Hi & E & He). exists (ev i u). rewrite <-list_elem_of_In. split; [|by apply list_elem_of_In].
    apply list_elem_of_fmap. exists i. rewrite E. split; [done|by apply elem_zseq].
Qed.

Lemma cast_log_nodup ev tab (pkt : cstring) :
  (∀ i u, ev i u = [] ∨ ev i u = [EvSend i pkt]) → NoDup (cast_log ev tab).
Proof.
  intros Hev. unfold cast_log. assert (NoDup (zseq MAX_REAL_USERS)) as Hnd.
  { unfold zseq. apply NoDup_fmap_2; [intros x y ?; lia|apply NoDup_seq]. }
  set (f := λ i, match entry_at i tab with Some u => ev i u | None => [] end).
  assert (∀ i, f i = [] ∨ f i = [EvSend i pkt]) as Hf.
  { intros i. unfold f. destruct (entry_at i tab); [apply Hev|by left]. }
  clearbody f. induction Hnd as [|i l Hi Hnd IH]; [constructor|]. rewrite fmap_cons. cbn [List.concat].
  apply NoDup_app. split; [|split; [|exact IH]].
  - destruct (Hf i) as [->| ->]; [constructor|apply NoDup_singleton].
  - intros e He Hin. assert (e = EvSend i pkt) as ->.
    { destruct (Hf i) as [E|E]; rewrite E in He; [by apply not_elem_of_nil in He|by apply list_elem_of_singleton in He]. }
    apply list_elem_of_In, in_concat in Hin as (l' & Hl' & Hin).
    apply list_elem_of_In, list_elem_of_fmap in Hl' as (j & -> & Hj).
    destruct (Hf j) as [E|E]; rewrite E in Hin; [done|]. destruct Hin as [[= ->]|[]]. done.
Qed.

Lemma hears_run my_group one two ui a b s :
  names_match one (u_pub_s_hushed ui) = Some a → names_match two (u_pub_n_hushed ui) = Some b →
  hears my_group one two ui s = Some (strcaseeq my_group (u_group ui) && negb (a || b), s).
Proof.
  intros Ha Hb. unfold hears. destruct (strcaseeq my_group (u_group ui)); [|done].
  rewrite Ha, Hb. by destruct a.
Qed.
End broadcast.

(** A status message for a user's group (when the user is to be told
    too) that fits is sent, as one packet each, to exactly the members of the
    group whose connections are open, and changes nothing else. *)
Theorem status_group_correct `{BuildConfig} `{Host} `{Commands} n u class_string message_string (s : st) :
  arrays_sized s → entry_at n (u_tab s) = Some u → fits class_string 21 → fits message_string 233 →
  ∃ es, s_status_group 1 true n class_string message_string s = Some (0, log es s) ∧
    NoDup es ∧
    ∀ e, e ∈ es ↔ ∃ i ui, entry_at i (u_tab s) = Some ui ∧ casefold (u_group ui) = casefold (u_group u) ∧
      reachable s i = true ∧ e = EvSend i (ICB_M_STATUS :: class_string ++ SEP ++ message_string).
Proof.
  intros Hs Hu Hc Hm. eexists. split; [apply status_group_run; [done|simpl; by rewrite Hu]|].
  set (pkt := ICB_M_STATUS :: class_string ++ SEP ++ message_string).
  assert (∀ i, status_log s ICB_M_STATUS i class_string message_string = if reachable s i then [EvSend i pkt] else []) as Hlog.
  { intros i. by rewrite status_log_fits. }
  split.
  - apply cast_log_nodup with (pkt := pkt). intros i ui. case_if; [|by left]. rewrite Hlog.
    destruct (reachable s i); auto.
  - intros e. unfold status_group_log. rewrite elem_cast_log. split.
    + intros (i & ui & Hi & Hui & He). exists i, ui. split; [done|]. revert He. unfold status_to.
      destruct (strcaseeq (u_group u) (u_group ui)) eqn:E; simpl; [|by intros ?%not_elem_of_nil].
      rewrite Hlog. destruct (reachable s i); [|by intros ?%not_elem_of_nil].
      intros ->%list_elem_of_singleton. split; [symmetry; by apply strcaseeq_casefold|done].
    + intros (i & ui & Hui & Hg & Hr & ->). exists i, ui. split; [by eapply reachable_range|]. split; [done|].
      unfold status_to. rewrite (proj2 (strcaseeq_casefold _ _)) by done. simpl. rewrite Hlog, Hr.
      by apply list_elem_of_singleton.
Qed.

Lemma status_group_correct_witness :
  ∃ es, @s_status_group demo_build 1 true 0 (str "Topic") (str "hello") demo_state = Some (0, log es demo_state) ∧
    NoDup es ∧
    ∀ e, e ∈ es ↔ ∃ i ui, entry_at i (u_tab demo_state) = Some ui ∧ casefold (u_group ui) = casefold (str "Lobby") ∧
      @reachable demo_build demo_state i = true ∧ e = EvSend i (ICB_M_STATUS :: str "Topic" ++ SEP ++ str "hello").
Proof.
  apply (@status_group_correct demo_build demo_host demo_commands 0 (demo_user "amy" "Lobby")
    (str "Topic") (str "hello") demo_state demo_sized eq_refl);
    (split; [by apply ascii_clean|vm_compute; lia]).
Defined.

Section open.
Context `{BuildConfig} `{Host} `{Commands}.

(** Every hush list of the table can be searched. *)
Definition hush_lists_ok (s : st) (one two : cstring) : Prop :=
  ∀ i ui, entry_at i (u_tab s) = Some ui →
    is_Some (names_match one (u_pub_s_hushed ui)) ∧ is_Some (names_match two (u_pub_n_hushed ui)).

(** Slot [i] gets what user [n] says in the open. *)
Definition open_to (n : Z) (u : user) (i : Z) (ui : user) : bool :=
  (negb (i =? n) || negb (u_echoback u =? 0)) &&
  strcaseeq (u_group u) (u_group ui) &&
  bool_decide (names_match (user_address u) (u_pub_s_hushed ui) = Some false) &&
  bool_decide (names_match (ucaseit (u_nickname u)) (u_pub_n_hushed ui) = Some false) &&
  (u_login ui =? LOGIN_COMPLETE).

Lemma send_group_run n u msg s :
  arrays_sized s → entry_at n (u_tab s) = Some u →
  hush_lists_ok s (user_address u) (ucaseit (u_nickname u)) →
  s_send_group n msg s = Some (0, log (cast_log
    (λ i ui, if open_to n u i ui then open_log s (u_nickname u) i msg else []) (u_tab s)) s).
Proof.
  intros Hs Hu Hh. unfold s_send_group. erewrite bind_runs by (by apply user_at_run).
  erewrite bind_runs; [reflexivity|]. apply bcast_run; [done|]. intros i ui es Hi Hui.
  destruct (Hh i ui Hui) as [[a Ha] [b Hb]]. unfold open_to. rewrite Ha, Hb.
  destruct (negb (i =? n) || negb (u_echoback u =? 0)); cbn [when andb]; [|by rewrite app_nil_r].
  erewrite bind_runs by (by apply hears_run).
  replace (strcaseeq (u_group u) (u_group ui) && bool_decide (Some a = Some false) &&
    bool_decide (Some b = Some false) && (u_login ui =? LOGIN_COMPLETE))
    with (strcaseeq (u_group u) (u_group ui) && negb (a || b) && (u_login ui =? LOGIN_COMPLETE))
    by (by destruct (strcaseeq _ _), a, b).
  apply when_log. intros _. erewrite sendopen_run by done. by rewrite log_log.
Qed.
End open.

(** An open message that fits is sent, as one packet each with the
    speaker's nickname, to exactly the logged-in members of the speaker's group
    with open connections who have hushed neither the speaker's address nor
    nickname, the speaker included only with echoback on. *)
Theorem send_group_correct `{BuildConfig} `{Host} `{Commands} n u message (s : st) :
  arrays_sized s → entry_at n (u_tab s) = Some u → fits (u_nickname u) 13 → fits message 241 →
  hush_lists_ok s (user_address u) (ucaseit (u_nickname u)) →
  ∃ es, s_send_group n message s = Some (0, log es s) ∧ NoDup es ∧
    ∀ e, e ∈ es ↔ ∃ i ui, entry_at i (u_tab s) = Some ui ∧
      (i ≠ n ∨ u_echoback u ≠ 0) ∧ casefold (u_group ui) = casefold (u_group u) ∧
      names_match (user_address u) (u_pub_s_hushed ui) = Some false ∧
      names_match (ucaseit (u_nickname u)) (u_pub_n_hushed ui) = Some false ∧
      u_login ui = LOGIN_COMPLETE ∧ reachable s i = true ∧
      e = EvSend i (ICB_M_OPEN :: u_nickname u ++ SEP ++ message).
Proof.
  intros Hs Hu Hn Hm Hh. eexists. split; [by apply send_group_run|].
  set (pkt := ICB_M_OPEN :: u_nickname u ++ SEP ++ message).
  assert (∀ i, open_log s (u_nickname u) i message = if reachable s i then [EvSend i pkt] else []) as Hlog.
  { intros i. by rewrite open_log_fits. }
  split.
  - apply cast_log_nodup with (pkt := pkt). intros i ui. case_if; [|by left]. rewrite Hlog.
    destruct (reachable s i); auto.
  - intros e. rewrite elem_cast_log.
    assert (∀ i ui, open_to n u i ui = true ↔ (i ≠ n ∨ u_echoback u ≠ 0) ∧ casefold (u_group ui) = casefold (u_group u) ∧
      names_match (user_address u) (u_pub_s_hushed ui) = Some false ∧
      names_match (ucaseit (u_nickname u)) (u_pub_n_hushed ui) = Some false ∧ u_login ui = LOGIN_COMPLETE) as Hto.
    { intros i ui. unfold open_to. rewrite !andb_true_iff, orb_true_iff, !negb_true_iff, !Z.eqb_neq, !bool_decide_eq_true,
        strcaseeq_casefold, Z.eqb_eq. intuition congruence. }
    split.
    + intros (i & ui & Hi & Hui & He). exists i, ui. split; [done|]. revert He.
      destruct (open_to n u i ui) eqn:E; [|by intros ?%not_elem_of_nil]. rewrite Hlog.
      destruct (reachable s i); [|by intros ?%not_elem_of_nil]. intros ->%list_elem_of_singleton.
      apply Hto in E. tauto.
    + intros (i & ui & Hui & H1' & H2' & H3' & H4' & H5' & Hr & ->). exists i, ui.
      split; [by eapply reachable_range|]. split; [done|].
      rewrite (proj2 (Hto i ui)) by done. rewrite Hlog, Hr. by apply list_elem_of_singleton.
Qed.

Lemma demo_hush one two : hush_lists_ok demo_state one two.
Proof.
  intros i ui [_ Hu%list_elem_of_lookup_2]%entry_at_lookup. simpl in Hu.
  repeat (apply elem_of_cons in Hu as [->|Hu]; [split; by eexists|]). by apply not_elem_of_nil in Hu.
Qed.

Lemma send_group_correct_witness :
  ∃ es, @s_send_group demo_build demo_commands 0 (str "hello") demo_state = Some (0, log es demo_state) ∧ NoDup es ∧
    EvSend 1 (ICB_M_OPEN :: str "amy" ++ SEP ++ str "hello") ∈ es.
Proof.
  destruct (@send_group_correct demo_build demo_host demo_commands 0 (demo_user "amy" "Lobby")
    (str "hello") demo_state demo_sized eq_refl) as (es & Hr & Hnd & Hes).
  - split; [by apply ascii_clean|vm_compute; lia].
  - split; [by apply ascii_clean|vm_compute; lia].
  - apply demo_hush.
  - exists es. split; [exact Hr|]. split; [exact Hnd|]. apply Hes. exists 1, (demo_user "bob" "Lobby").
    split; [reflexivity|]. split; [left; lia|]. by repeat split.
Defined.
