(* ===== verification/World.v ===== *)
(** * The invariant of the user and group tables

    What the commands keep true of the two tables together: every group a user
    is in exists, a group exists only while somebody is in it, a free entry of
    the group table is a cleared one, no two groups have names that differ only
    in case, names have the characters and the length the protocol allows.  The pure lemmas here say how the invariant
    survives the creation of a group and the move of a user. *)

From Stdlib Require Import ZArith Lia String.
From S2P Require Import Config Prelude Utf8 StrUtil NameList CLib Monad Dbm IcbDb State Tables Send.

Local Open Scope Z_scope.

(** A group name as the server makes them. *)
Definition group_name_ok (name : cstring) : Prop :=
  (length name ≤ MAX_GROUPLEN)%nat ∧ Forall (λ c, name_char OKGROUPCHARS c = true) name.

Section world.
Context `{BuildConfig}.

(** The invariant; [exc] is a group that may have no member yet, -1 for none. *)
Record tables (exc : Z) (ut : list user) (gt : list group) : Prop := {
  t_groups : length gt = MAX_GROUPS;
  t_users : length ut = MAX_USERS;
  t_name : ∀ j g, entry_at j gt = Some g → group_name_ok (g_name g);
  t_mod : ∀ j g, entry_at j gt = Some g → -1 ≤ g_mod g < Z.of_nat MAX_USERS;
  t_ulen : ∀ i u, entry_at i ut = Some u → (length (u_group u) ≤ MAX_GROUPLEN)%nat;
  t_unique : ∀ i j gi gj, entry_at i gt = Some gi → entry_at j gt = Some gj →
    g_name gi ≠ [] → casefold (g_name gi) = casefold (g_name gj) → i = j;
  t_home : ∀ i u, entry_at i ut = Some u → u_group u ≠ [] →
    ∃ j g, entry_at j gt = Some g ∧ casefold (g_name g) = casefold (u_group u);
  t_live : ∀ j g, entry_at j gt = Some g → g_name g ≠ [] → j ≠ exc →
    ∃ i u, entry_at i ut = Some u ∧ casefold (u_group u) = casefold (g_name g);
  t_free : ∀ j g, entry_at j gt = Some g → g_name g = [] → g = cleared_group
}.

Lemma tables_weaken e ut gt : tables (-1) ut gt → tables e ut gt.
Proof.
  intros [T1 T2 T3 T4 T5 T6 T7 T8 T9]. split; try done. intros j g Hg Hne _. apply (T8 j g Hg Hne).
  pose proof (proj1 (entry_at_range gt j)) as Hr. rewrite Hg in Hr. specialize (Hr ltac:(eauto)). lia.
Qed.

Definition world (s : st) : Prop := arrays_sized s ∧ tables (-1) (u_tab s) (g_tab s).

Lemma casefold_nil a : casefold a = [] ↔ a = [].
Proof. unfold casefold. by destruct a. Qed.

(** A user's group is found at its only index. *)
Lemma find_home exc ut gt i u :
  tables exc ut gt → entry_at i ut = Some u → u_group u ≠ [] →
  ∃ g, entry_at (find_group (u_group u) gt) gt = Some g ∧ casefold (g_name g) = casefold (u_group u).
Proof.
  intros Ht Hu Hne. destruct (t_home _ _ _ Ht i u Hu Hne) as (j & g & Hg & E).
  destruct (Z.lt_ge_cases (find_group (u_group u) gt) 0) as [Hlt|Hge].
  - apply find_group_missing in Hlt as [?|Hlt]; [done|]. apply entry_at_lookup in Hg as [_ Hg].
    exfalso. apply (Hlt g); [by eapply list_elem_of_lookup_2|done].
  - destruct (find_group_entry _ _ Hge) as (g' & ? & ? & _). by exists g'.
Qed.

Lemma find_unique exc ut gt name j g :
  tables exc ut gt → entry_at j gt = Some g → casefold (g_name g) = casefold name → name ≠ [] →
  find_group name gt = j.
Proof.
  intros Ht Hg E Hne. destruct (Z.lt_ge_cases (find_group name gt) 0) as [Hlt|Hge].
  - apply find_group_missing in Hlt as [?|Hlt]; [done|]. apply entry_at_lookup in Hg as [_ Hg].
    exfalso. apply (Hlt g); [by eapply list_elem_of_lookup_2|done].
  - destruct (find_group_entry _ _ Hge) as (g' & Hg' & E' & _).
    apply (t_unique _ _ _ Ht _ _ _ _ Hg' Hg); [|congruence].
    intros En. rewrite En in E'. destruct name; done.
Qed.

(** A group that is found has a name. *)
Lemma found_named name gt g : entry_at (find_group name gt) gt = Some g → g_name g ≠ [].
Proof.
  intros Hg E. destruct (find_group_entry name gt) as (g' & Hg' & Ec & Hn).
  { apply entry_at_lookup in Hg. tauto. }
  rewrite Hg in Hg'. injection Hg' as <-. rewrite E in Ec. by destruct name.
Qed.

Lemma entry_set_inv {A} n m (x y : A) l :
  entry_at m (entry_set n x l) = Some y → (m = n ∧ y = x ∧ is_Some (entry_at n l)) ∨ (m ≠ n ∧ entry_at m l = Some y).
Proof.
  intros E. destruct (decide (m = n)) as [->|Hne].
  - left. assert (is_Some (entry_at n l)) as Hs.
    { apply entry_at_range. rewrite <-(length_entry_set l n x). apply entry_at_range. by rewrite E. }
    rewrite entry_set_at in E by done. by injection E as <-.
  - right. split; [done|]. by rewrite entry_set_ne in E by done.
Qed.

(** A change that keeps the name of a group and leaves it a moderator in the
    table, if any. *)
Lemma tables_set_mod exc ut gt j g g' :
  tables exc ut gt → entry_at j gt = Some g → g_name g' = g_name g → -1 ≤ g_mod g' < Z.of_nat MAX_USERS →
  g_name g ≠ [] → tables exc ut (entry_set j g' gt).
Proof.
  intros [T1 T2 T3 T4 T5 T6 T7 T8 T9] Hg En Hm Hgn.
  assert (∀ k x, entry_at k (entry_set j g' gt) = Some x → ∃ y, entry_at k gt = Some y ∧ g_name x = g_name y) as Hold.
  { intros k x [(-> & -> & _)|[_ Hx]]%entry_set_inv; eauto. }
  split; try done.
  - by rewrite length_entry_set.
  - intros k x (y & Hy & E)%Hold. rewrite E. eauto.
  - intros k x [(-> & -> & _)|[_ Hx]]%entry_set_inv; eauto.
  - intros i k gi gk (yi & Hyi & Ei)%Hold (yk & Hyk & Ek)%Hold. rewrite Ei, Ek. eauto.
  - intros i u Hu Hne. destruct (T7 i u Hu Hne) as (k & x & Hx & E). destruct (decide (k = j)) as [->|Hkj].
    + rewrite Hg in Hx. injection Hx as <-. exists j, g'. rewrite En. split; [|done]. apply entry_set_at. by rewrite Hg.
    + exists k, x. by rewrite entry_set_ne.
  - intros k x (y & Hy & E)%Hold. rewrite E. eauto.
  - intros k x [(-> & -> & _)|[_ Hx]]%entry_set_inv; [by rewrite En|eauto].
Qed.

Lemma tables_upd_group exc ut gt j g g' :
  tables exc ut gt → entry_at j gt = Some g → g_name g' = g_name g → g_mod g' = g_mod g → g_name g ≠ [] →
  tables exc ut (entry_set j g' gt).
Proof.
  intros Ht Hg En Em Hne. apply (tables_set_mod exc ut gt j g g' Ht Hg En); [|done]. rewrite Em. by eapply t_mod.
Qed.

(** A change of a user's entry that keeps the group. *)
Lemma tables_upd_user exc ut gt i u u' :
  tables exc ut gt → entry_at i ut = Some u → u_group u' = u_group u → tables exc (entry_set i u' ut) gt.
Proof.
  intros [T1 T2 T3 T4 T5 T6 T7 T8 T9] Hu Eg.
  assert (∀ k x, entry_at k (entry_set i u' ut) = Some x → ∃ y, entry_at k ut = Some y ∧ u_group x = u_group y) as Hold.
  { intros k x [(-> & -> & _)|[_ Hx]]%entry_set_inv; eauto. }
  split; try done.
  - by rewrite length_entry_set.
  - intros k x (y & Hy & E)%Hold. rewrite E. eauto.
  - intros k x (y & Hy & E)%Hold. rewrite E. eauto.
  - intros j g Hg Hne Hj. destruct (T8 j g Hg Hne Hj) as (k & x & Hx & E). destruct (decide (k = i)) as [->|Hki].
    + rewrite Hu in Hx. injection Hx as <-. exists i, u'. rewrite Eg. split; [|done]. apply entry_set_at. by rewrite Hu.
    + exists k, x. by rewrite entry_set_ne.
Qed.

Lemma world_upd_user i u u' s :
  world s → entry_at i (u_tab s) = Some u → u_group u' = u_group u → world (set_u_tab (entry_set i u' (u_tab s)) s).
Proof.
  intros [Hs Ht] Hu Eg. split; [|by eapply tables_upd_user].
  destruct Hs as (?&?&?&?&?). unfold arrays_sized. simpl. by rewrite length_entry_set.
Qed.

Lemma first_index_upd {A} (p : A → bool) (l : list A) j x x' :
  entry_at j l = Some x → p x' = p x → first_index p (entry_set j x' l) = first_index p l.
Proof.
  intros [Hj Hx]%entry_at_lookup Ep. unfold first_index, entry_set. destruct (Z.ltb_spec j 0); [lia|].
  assert (find_index p (<[Z.to_nat j := x']> l) = find_index p l) as ->; [|done].
  generalize dependent (Z.to_nat j). clear -Ep. induction l as [|y l IH]; intros k Hk; [done|].
  destruct k as [|k]; simpl in Hk |- *.
  - injection Hk as ->. by rewrite Ep.
  - by rewrite IH.
Qed.

Lemma find_group_upd name gt j g g' :
  entry_at j gt = Some g → g_name g' = g_name g → find_group name (entry_set j g' gt) = find_group name gt.
Proof. intros Hg En. unfold find_group. destruct name; [done|]. eapply first_index_upd; [done|]. by rewrite En. Qed.

Lemma find_empty_upd gt j g g' :
  entry_at j gt = Some g → g_name g' = g_name g → find_empty_group (entry_set j g' gt) = find_empty_group gt.
Proof. intros Hg En. unfold find_empty_group. eapply first_index_upd; [done|]. by rewrite En. Qed.

(** Creation: an empty slot gets a new name. *)
Lemma tables_create ut gt e g g' :
  tables (-1) ut gt → entry_at e gt = Some g → g_name g = [] →
  g_name g' ≠ [] → group_name_ok (g_name g') → find_group (g_name g') gt < 0 →
  -1 ≤ g_mod g' < Z.of_nat MAX_USERS →
  tables e ut (entry_set e g' gt).
Proof.
  intros Ht Hg En Hne Hok Hmiss Hmod.
  apply find_group_missing in Hmiss as [?|Hmiss]; [done|].
  assert (∀ j x, entry_at j gt = Some x → casefold (g_name x) ≠ casefold (g_name g')) as Hm.
  { intros j x [_ Hx]%entry_at_lookup. apply Hmiss. by eapply list_elem_of_lookup_2. }
  destruct Ht as [T1 T2 T3 T4 T5 T6 T7 T8 T9]. split; auto.
  - by rewrite length_entry_set.
  - intros j x [(-> & -> & _)|[_ Hx]]%entry_set_inv; eauto.
  - intros j x [(-> & -> & _)|[_ Hx]]%entry_set_inv; eauto.
  - intros i j gi gj [(-> & -> & _)|[? Hi]]%entry_set_inv [(-> & -> & _)|[? Hj]]%entry_set_inv Hnn E; eauto.
    + exfalso. by eapply Hm.
    + exfalso. by eapply Hm.
  - intros i u Hu Hgne. destruct (T7 i u Hu Hgne) as (j & x & Hx & E). exists j, x. split; [|done].
    rewrite entry_set_ne; [done|]. intros <-. rewrite Hg in Hx. injection Hx as <-.
    rewrite En in E. destruct (u_group u); done.
  - intros j x [(-> & -> & _)|[Hj Hx]]%entry_set_inv Hnn Hexc; [done|].
    apply (T8 j x Hx Hnn). pose proof (proj1 (entry_at_range gt j)) as Hr. rewrite Hx in Hr.
    specialize (Hr ltac:(eauto)). lia.
  - intros j x [(-> & -> & _)|[_ Hx]]%entry_set_inv; [done|eauto].
Qed.

(** What becomes of the old group: it is cleared when nobody is left. *)
Definition left_groups (ogi : Z) (ut : list user) (gt : list group) : list group :=
  match entry_at ogi gt with
  | Some og => if 0 <? count_users_in_group (g_name og) ut then gt else entry_set ogi cleared_group gt
  | None => gt
  end.

Lemma count_pos_entry name ut :
  name ≠ [] → (∃ i u, entry_at i ut = Some u ∧ casefold (u_group u) = casefold name) ↔
  (0 <? count_users_in_group name ut) = true.
Proof.
  intros Hne. rewrite Z.ltb_lt, count_users_pos. split.
  - intros (i & u & [_ Hu]%entry_at_lookup & E). split; [done|]. exists u. split; [|done]. by eapply list_elem_of_lookup_2.
  - intros (_ & u & [i Hi]%list_elem_of_lookup & E). exists (Z.of_nat i), u. by rewrite entry_at_nat.
Qed.

(** Its table: an entry is an old one, inhabited if it is the old group, or the
    cleared old group; a group with a member is kept. *)
Lemma left_groups_inv ogi ut gt j x :
  entry_at j (left_groups ogi ut gt) = Some x →
  (j = ogi ∧ x = cleared_group) ∨
  (entry_at j gt = Some x ∧ (j = ogi → (0 <? count_users_in_group (g_name x) ut) = true)).
Proof.
  unfold left_groups. destruct (entry_at ogi gt) as [og|] eqn:Eo.
  - destruct (0 <? count_users_in_group (g_name og) ut) eqn:Ec.
    + intros Hx. right. split; [done|]. intros ->. rewrite Eo in Hx. by injection Hx as <-.
    + intros [(-> & -> & _)|[Hjo Hx]]%entry_set_inv; [by left|right; by split].
  - intros Hx. right. split; [done|]. intros ->. congruence.
Qed.

Lemma left_groups_keep ogi ut gt j x i v :
  entry_at j gt = Some x → entry_at i ut = Some v → casefold (u_group v) = casefold (g_name x) → g_name x ≠ [] →
  entry_at j (left_groups ogi ut gt) = Some x.
Proof.
  intros Hx Hv Hc Hxn. unfold left_groups. destruct (entry_at ogi gt) as [og|] eqn:Eo; [|done].
  destruct (0 <? count_users_in_group (g_name og) ut) eqn:Ec; [done|].
  rewrite entry_set_ne; [done|]. intros <-. rewrite Eo in Hx. injection Hx as ->.
  assert ((0 <? count_users_in_group (g_name x) ut) = true); [|congruence].
  apply (count_pos_entry _ _ Hxn). eauto.
Qed.

(** The move: user [n] leaves its group for the group [exc] or for none. *)
Lemma tables_move ut gt n u u' exc :
  tables exc ut gt → entry_at n ut = Some u →
  (u_group u' = [] ∧ exc = -1 ∨
   ∃ g, entry_at exc gt = Some g ∧ g_name g ≠ [] ∧ u_group u' = g_name g) →
  tables (-1) (entry_set n u' ut) (left_groups (find_group (u_group u) gt) (entry_set n u' ut) gt).
Proof.
  intros Ht Hu Hto. set (ogi := find_group (u_group u) gt) in *. set (ut' := entry_set n u' ut).
  assert (entry_at n ut' = Some u') as Hn' by (apply entry_set_at; by rewrite Hu).
  pose proof Ht as [T1 T2 T3 T4 T5 T6 T7 T8 T9]. split.
  - unfold left_groups. destruct (entry_at ogi gt); [|done]. case_if; [done|]. by rewrite length_entry_set.
  - unfold ut'. by rewrite length_entry_set.
  - intros j x [(-> & ->)|[Hx _]]%left_groups_inv; [|eauto]. split; [simpl; lia|constructor].
  - intros j x [(-> & ->)|[Hx _]]%left_groups_inv; [|eauto]. simpl. lia.
  - intros i v [(-> & -> & _)|[_ Hv]]%entry_set_inv; [|eauto].
    destruct Hto as [[-> _]|(g & Hg & _ & ->)]; [simpl; lia|]. by destruct (T3 _ _ Hg).
  - intros i j gi gj [(-> & ->)|[Hi _]]%left_groups_inv [(-> & ->)|[Hj _]]%left_groups_inv Hnn E; [done|done| |by eauto].
    exfalso. simpl in E. by destruct (g_name gi).
  - intros i v Hv Hvne. destruct (decide (i = n)) as [->|Hin].
    + rewrite Hn' in Hv. injection Hv as <-. destruct Hto as [[? _]|(g & Hg & Hgn & Eg)]; [done|].
      exists exc, g. rewrite Eg. split; [|done]. eapply left_groups_keep; [done|exact Hn'|by rewrite Eg|done].
    + pose proof Hv as Hv'. unfold ut' in Hv'. rewrite entry_set_ne in Hv' by done.
      destruct (T7 i v Hv' Hvne) as (j & x & Hx & E). exists j, x. split; [|done].
      eapply left_groups_keep; [done|exact Hv|done|]. intros Ex. rewrite Ex in E. destruct (u_group v); done.
  - intros j x Hx Hxn _. destruct (left_groups_inv _ _ _ _ _ Hx) as [(-> & ->)|[Hx' Hc]]; [done|].
    destruct (decide (j = exc)) as [->|Hjn].
    { destruct Hto as [[_ ->]|(g & Hg & Hgn & Eg)]; [by apply entry_at_lookup in Hx' as [? _]|].
      rewrite Hg in Hx'. injection Hx' as <-. exists n, u'. by rewrite Eg. }
    destruct (T8 j x Hx' Hxn Hjn) as (i & v & Hv & E). destruct (decide (i = n)) as [->|Hin].
    + rewrite Hu in Hv. injection Hv as <-. apply count_pos_entry; [done|]. apply Hc.
      symmetry. apply (find_unique exc ut gt _ _ x); [done|done|done|].
      intros En. rewrite En in E. destruct (g_name x); done.
    + exists i, v. split; [|done]. unfold ut'. by rewrite entry_set_ne.
  - intros j x [(-> & ->)|[Hx _]]%left_groups_inv; [done|eauto].
Qed.
End world.

(** ** Commands that only speak *)

Section speak.
Context `{BuildConfig} `{Host} `{Commands}.
Implicit Types s : st.

(** The tables and the arrays' sizes are unchanged. *)
Definition same_tables (s s' : st) : Prop :=
  u_tab s' = u_tab s ∧ g_tab s' = g_tab s ∧ is_booting s' = is_booting s ∧ (arrays_sized s → arrays_sized s').

#[export] Instance same_tables_pre : PreOrder same_tables.
Proof.
  split; [done|]. intros s1 s2 s3 (? & ? & ? & ?) (? & ? & ? & ?). split; [congruence|].
  split; [congruence|]. split; [congruence|auto].
Qed.

Lemma same_log es s : same_tables s (log es s).
Proof. done. Qed.

Lemma same_world s s' : same_tables s s' → world s → world s'.
Proof. intros (E1 & E2 & _ & Hs) [Ha Ht]. split; [auto|]. by rewrite E1, E2. Qed.

Lemma wp_senderror to m Q s : arrays_sized s → (∀ es, Q tt (log es s)) → wp (senderror to m) Q s.
Proof. intros Hs HQ. unfold wp. by rewrite senderror_run. Qed.
Lemma wp_sendstatus to c m Q s : arrays_sized s → (∀ es, Q tt (log es s)) → wp (sendstatus to c m) Q s.
Proof. intros Hs HQ. unfold wp. by rewrite sendstatus_run. Qed.
Lemma wp_sendimport to c m Q s : arrays_sized s → (∀ es, Q tt (log es s)) → wp (sendimport to c m) Q s.
Proof. intros Hs HQ. unfold wp. by rewrite sendimport_run. Qed.
Lemma wp_sends_cmdout to m Q s : arrays_sized s → (∀ es, Q tt (log es s)) → wp (sends_cmdout to m) Q s.
Proof. intros Hs HQ. unfold wp. by rewrite sends_cmdout_run. Qed.
End speak.

(** ** The small server is consistent *)

Lemma demo_groups j g :
  entry_at j (g_tab demo_state) = Some g →
  (j = 0 ∧ g = demo_group "ICB" RESTRICTED 4) ∨ (j = 1 ∧ g = demo_group "Lobby" MODERATED 0) ∨
  (j = 2 ∧ g = demo_group "Den" RESTRICTED 3) ∨ g = cleared_group.
Proof.
  intros [Hj Hg]%entry_at_lookup. unfold demo_state in Hg. cbn [g_tab] in Hg.
  destruct (Z.to_nat j) as [|[|[|k]]] eqn:E; cbn [lookup list_lookup app] in Hg.
  - injection Hg as <-. left. split; [lia|done].
  - injection Hg as <-. right; left. split; [lia|done].
  - injection Hg as <-. right; right; left. split; [lia|done].
  - apply lookup_replicate in Hg as [-> _]. by do 3 right.
Qed.

Lemma demo_users i u :
  entry_at i (u_tab demo_state) = Some u →
  (i = 0 ∧ u = demo_user "amy" "Lobby") ∨ (i = 1 ∧ u = demo_user "bob" "Lobby") ∨ (i = 2 ∧ u = no_user) ∨
  (i = 3 ∧ u = demo_user "cat" "Den") ∨ (i = 4 ∧ u = demo_user "server" "ICB").
Proof.
  intros [Hi Hu]%entry_at_lookup. unfold demo_state in Hu. cbn [u_tab] in Hu.
  destruct (Z.to_nat i) as [|[|[|[|[|k]]]]] eqn:E; cbn [lookup list_lookup] in Hu; try discriminate Hu;
    injection Hu as <-; intuition (try lia).
Qed.

Lemma demo_world : @world demo_build demo_state.
Proof.
  split; [apply demo_sized|]. split.
  - done.
  - done.
  - intros j g [(-> & ->)|[(-> & ->)|[(-> & ->)| ->]]]%demo_groups;
      (split; [vm_compute; lia|repeat constructor]).
  - intros j g [(-> & ->)|[(-> & ->)|[(-> & ->)| ->]]]%demo_groups; simpl; lia.
  - intros i u [(-> & ->)|[(-> & ->)|[(-> & ->)|[(-> & ->)|(-> & ->)]]]]%demo_users; vm_compute; lia.
  - intros i j gi gj [(-> & ->)|[(-> & ->)|[(-> & ->)| ->]]]%demo_groups
      [(-> & ->)|[(-> & ->)|[(-> & ->)| ->]]]%demo_groups; simpl; try done.
  - intros i u [(-> & ->)|[(-> & ->)|[(-> & ->)|[(-> & ->)|(-> & ->)]]]]%demo_users Hne; try done.
    + by exists 1, (demo_group "Lobby" MODERATED 0).
    + by exists 1, (demo_group "Lobby" MODERATED 0).
    + by exists 2, (demo_group "Den" RESTRICTED 3).
    + by exists 0, (demo_group "ICB" RESTRICTED 4).
  - intros j g [(-> & ->)|[(-> & ->)|[(-> & ->)| ->]]]%demo_groups Hne _; try done.
    + by exists 4, (demo_user "server" "ICB").
    + by exists 0, (demo_user "amy" "Lobby").
    + by exists 3, (demo_user "cat" "Den").
  - by intros j g [(-> & ->)|[(-> & ->)|[(-> & ->)| ->]]]%demo_groups.
Qed.
