(* ===== verification/Access.v ===== *)
(** * Registration, passwords and stored messages (server/access.c)

    The accounts of registered nicknames in the user database: registering and
    authenticating, changing the password and the personal data, the mailbox of
    messages left for a nickname, and the listing of an account.  The database
    is seen through [db_ready]: the finite map of its records. *)

From Stdlib Require Import ZArith Lia String.
From S2P Require Import Config Prelude Utf8 StrUtil NameList CLib Monad Dbm IcbDb State Tables Send GroupCast World.

Local Open Scope Z_scope.
Local Open Scope icb_monad_scope.

Definition MAX_TEXTLEN : nat := 80 - MAX_NICKLEN - 5.
Definition NICKCHINFO_MSG_MAX : nat := 80.
Definition NICKCHINFO_DATA_MAX : nat := 160.

Section access.
Context `{BuildConfig} `{Host} `{Commands}.

(** ** Calls into the database *)

Definition db_open : M st unit := with_userdb (icbdb_open host_db) ;; ret tt.
Definition db_close : M st unit := with_userdb (icbdb_close host_db).
Definition db_get_str (nick attr : cstring) : M st (option cstring) :=
  v <- with_userdb (icbdb_get host_db true (Some nick) attr ICBDB_STRING) ;;
  ret (match v with Some (VStr t) => Some t | _ => None end).
Definition db_get_int (nick attr : cstring) : M st (option Z) :=
  v <- with_userdb (icbdb_get host_db true (Some nick) attr ICBDB_INT) ;;
  ret (match v with Some (VInt z) => Some z | _ => None end).
Definition db_set (nick attr : cstring) (v : dbval) : M st unit :=
  with_userdb (icbdb_set host_db (Some nick) attr v) ;; ret tt.
Definition db_delete (nick attr : cstring) : M st unit :=
  with_userdb (icbdb_delete host_db (Some nick) attr) ;; ret tt.

(** [gettime] *)
Definition gettime : M st Z := now <- time ;; modify (set_curtime now) ;; ret now.

(** ** Security and passwords *)

Definition setsecure (forWhom secure : Z) : M st Z :=
  u <- user_at forWhom ;;
  if is_empty (u_realname u) then
    senderror forWhom (str "You must be registered to change your security.") ;; ret (-1)
  else if secure =? 0 then
    db_delete (u_nickname u) (str "secure") ;;
    sends_cmdout forWhom (str "Security set to automatic.") ;; ret 0
  else if secure =? 1 then
    db_set (u_nickname u) (str "secure") (VStr (str "SECURED")) ;;
    sends_cmdout forWhom (str "Security set to password required.") ;; ret 0
  else ret (-2).

(** A password is cut to [MAX_PASSWDLEN] bytes. *)
Definition cut_password (p : cstring) : cstring := take MAX_PASSWDLEN p.

Definition valuser (user password : cstring) : M st Z :=
  if is_empty password then ret (-1)
  else
    v <- db_get_str user (str "password") ;;
    match v with
    | None => ret (-1)
    | Some value => ret (if streq value (cut_password password) then 0 else -1)
    end.

Definition account_attrs : list cstring :=
  [str "secure"; str "realname"; str "email"; str "signon"; str "signoff"; str "nick"; str "password";
   str "phone"; str "text"; str "home"; str "addr"; str "nummsg"; str "www"].

Definition header_key (i : Z) : cstring := str "header" ++ itoa i.
Definition message_key (i : Z) : cstring := str "message" ++ itoa i.
Definition from_key (i : Z) : cstring := str "from" ++ itoa i.

Definition nickdelete (forWhom : Z) (password : cstring) : M st Z :=
  if is_empty password then senderror forWhom (str "Password cannot be null") ;; ret (-1)
  else
    u <- user_at forWhom ;;
    if is_empty (u_realname u) then
      senderror forWhom (str "You must be registered to delete your entry.") ;; ret (-1)
    else
      let nick := u_nickname u in
      db_open ;;
      v <- db_get_str nick (str "password") ;;
      match v with
      | None => senderror forWhom (str "You don't have a password.") ;; db_close ;; ret (-1)
      | Some value =>
          if negb (streq value (cut_password password)) then
            senderror forWhom (str "Password incorrect.") ;; db_close ;; ret (-1)
          else
            for_each account_attrs (db_delete nick) ;;
            for_each (zrange 1 (MAX_WRITES + 1)) (λ i,
              db_delete nick (header_key i) ;;
              db_delete nick (message_key i) ;;
              db_delete nick (from_key i)) ;;
            sends_cmdout forWhom (str "Record Deleted") ;;
            db_close ;; ret 0
      end.

(** ** The mailbox *)

Definition nickwritemsg (forWhom : Z) (user message : cstring) : M st Z :=
  if is_empty user || is_empty message then
    sends_cmdout forWhom (str "Usage: write nickname message text") ;; ret (-1)
  else
    u <- user_at forWhom ;;
    if is_empty (u_realname u) then
      senderror forWhom (str "You must be registered to write a message.") ;; ret (-1)
    else
      db_open ;;
      nk <- db_get_str user (str "nick") ;;
      match nk with
      | None => senderror forWhom (user ++ str " is not registered") ;; db_close ;; ret (-1)
      | Some _ =>
          c0 <- db_get_int user (str "nummsg") ;;
          let count := default 0 c0 + 1 in
          if INT_MAX <? count then ub
          else if MAX_WRITES <? count then
            senderror forWhom (str "User mailbox full") ;; db_close ;; ret (-1)
          else
            now <- gettime ;;
            let line := take 254 (str "Message left at " ++ take 127 (format_time now) ++ str ":") in
            db_set user (header_key count) (VStr line) ;;
            db_set user (from_key count) (VStr (u_nickname u)) ;;
            db_set user (message_key count) (VStr (until_nul (filtertext message 4095))) ;;
            db_set user (str "nummsg") (VInt count) ;;
            sendstatus forWhom (str "Message") (str "Text saved to file") ;;
            i <- gets (λ s, find_user user (u_tab s)) ;;
            when (0 <? i) (
              ui <- user_at i ;;
              sendstatus forWhom (str "Warning") (u_nickname ui ++ str " is logged in now.") ;;
              sendstatus i (str "Message")
                (str "You have " ++ itoa count ++ str " message" ++ (if 1 <? count then str "s" else []))) ;;
            db_close ;; ret 0
      end.

Definition nickckmsg (forWhom : Z) : M st Z :=
  u <- user_at forWhom ;;
  if is_empty (u_realname u) then ret (-1)
  else
    c <- db_get_int (u_nickname u) (str "nummsg") ;;
    match c with
    | Some z => ret z
    | None => db_set (u_nickname u) (str "nummsg") (VInt 0) ;; ret 0
    end.

(** One stored message: header, text with the name of the sender; all three
    records are deleted. *)
Definition read_one (forWhom : Z) (nick : cstring) (i : Z) : M st unit :=
  h <- db_get_str nick (header_key i) ;;
  match h with Some value => sends_cmdout forWhom value | None => ret tt end ;;
  db_delete nick (header_key i) ;;
  f <- db_get_str nick (from_key i) ;;
  let from := match f with Some value => strncpy value MAX_NICKLEN | None => str "Server" end in
  db_delete nick (from_key i) ;;
  m <- db_get_str nick (message_key i) ;;
  match m with Some value => send_person_stored forWhom from value | None => ret tt end ;;
  db_delete nick (message_key i).

Definition nickreadmsg (forWhom : Z) : M st Z :=
  u <- user_at forWhom ;;
  if is_empty (u_realname u) then
    senderror forWhom (str "You must be registered to read any messages.") ;; ret (-1)
  else
    let nick := u_nickname u in
    db_open ;;
    c <- db_get_int nick (str "nummsg") ;;
    match c with
    | None => senderror forWhom (str "No messages")
    | Some count =>
        if count =? 0 then senderror forWhom (str "No messages")
        else for_each (zrange 1 (count + 1)) (read_one forWhom nick)
    end ;;
    db_set nick (str "nummsg") (VInt 0) ;;
    db_close ;; ret 0.

(** ** Personal data *)

Definition nickchinfo (forWhom : Z) (tag data : cstring) (max : nat) (message : cstring) : M st Z :=
  u <- user_at forWhom ;;
  if is_empty (u_realname u) then
    senderror forWhom (str "Setting your name requites that you be registered.") ;; ret (-1)
  else
    let data' := if (max <? length data)%nat then strncpy data max else data in
    when (max <? length data)%nat
      (senderror forWhom (take 254 (take NICKCHINFO_MSG_MAX message ++ str " truncated to "
         ++ itoa (Z.of_nat max) ++ str " characters"))) ;;
    db_set (u_nickname u) tag (VStr data') ;;
    sends_cmdout forWhom (take 254 (take NICKCHINFO_MSG_MAX message ++ str " set to '"
      ++ take NICKCHINFO_DATA_MAX data' ++ str "'")) ;;
    ret 0.

(** [snprintf(addr, 255, "%s@%s", loginid, nodeid)] *)
Definition home_address (u : user) : cstring := take 254 (u_loginid u ++ str "@" ++ u_nodeid u).

Definition nickchpass (forWhom : Z) (oldpw newpw : cstring) : M st Z :=
  u <- user_at forWhom ;;
  let nick := u_nickname u in
  db_open ;;
  v <- db_get_str nick (str "password") ;;
  match v with
  | None => senderror forWhom (str "Authorization failure")
  | Some value =>
      if negb (streq value (cut_password oldpw)) then senderror forWhom (str "Authorization failure")
      else if is_empty newpw then senderror forWhom (str "Missing paramater")
      else
        db_set nick (str "password") (VStr (cut_password newpw)) ;;
        sendstatus forWhom (str "Pass") (str "Password changed") ;;
        db_set nick (str "home") (VStr (home_address u))
  end ;;
  db_close ;; ret 0.

(** ** Registering and authenticating *)

(** The groups a moderator has left without losing them: whoever has proved to
    be the moderator gets the moderation back (the same loop is written in
    [nickwrite], [s_name] and [loginmsg]). *)
Definition regain_mod (n i : Z) : M st unit :=
  u <- user_at n ;;
  g <- group_at i ;;
  when ((0 <? g_modtimeout g) && streq (g_missingmod g) (u_nickname u)) (
    upd_group i (λ g, set_g_missingmod [] (set_g_mod n (set_g_modtimeout 0 g))) ;;
    for_each (zrange 1 MAX_REAL_USERS) (λ j,
      uj <- user_at j ;;
      when (strcaseeq (u_group uj) (g_name g) && negb (j =? n))
        (sendstatus j (str "Mod") (u_nickname u ++ str " is the active moderator again."))) ;;
    sendstatus n (str "Mod") (str "You are the moderator of group " ++ g_name g)).
Definition regain_mods (n : Z) : M st unit := for_each (zrange 1 (Z.of_nat MAX_GROUPS)) (regain_mod n).

(** The notice of waiting messages, written in the same three functions. *)
Definition tell_messages (n : Z) : M st unit :=
  i <- nickckmsg n ;;
  when (0 <? i)
    (if i =? 1 then sendstatus n (str "Message") (str "You have 1 message")
     else sendstatus n (str "Message") (str "You have " ++ itoa i ++ str " messages")).

Definition mark_registered (n : Z) : M st unit :=
  sendstatus n (str "Register") (str "Nick registered") ;;
  upd_user n (set_u_realname (str "registered")) ;;
  _ <- nickwritetime n 0 ;; ret tt.

Definition nickwrite (forWhom : Z) (password : cstring) (verifyOnly : bool) : M st Z :=
  if is_empty password then senderror forWhom (str "Password cannot be null") ;; ret (-1)
  else
    let password := cut_password password in
    db_open ;;
    u <- user_at forWhom ;;
    let nick := u_nickname u in
    v <- db_get_str nick (str "password") ;;
    retval <- match v with
    | None =>
        if verifyOnly : bool then
          senderror forWhom (str "[ERROR] Nick " ++ nick ++ str " not found") ;; ret (-1)
        else
          db_set nick (str "password") (VStr password) ;;
          db_set nick (str "nick") (VStr nick) ;;
          db_set nick (str "home") (VStr (home_address u)) ;;
          mark_registered forWhom ;;
          upd_user forWhom (set_u_password password) ;;
          ret 0
    | Some value =>
        if negb (streq value password) then
          senderror forWhom (str "Authorization failure") ;;
          upd_user forWhom (set_u_realname []) ;;
          ret (-1)
        else
          mark_registered forWhom ;;
          upd_user forWhom (set_u_password password) ;;
          regain_mods forWhom ;;
          tell_messages forWhom ;;
          for_each (zrange 1 (Z.of_nat MAX_GROUPS)) (talk_report forWhom) ;;
          ret 0
    end ;;
    db_close ;; ret retval.

(** ** The listing of an account *)

(** [line] has 255 bytes: a text that does not fit overruns it. *)
Definition line_fits (l : cstring) : M st unit := if (length l <? 255)%nat then ret tt else ub.
Definition pad36 (l : cstring) : cstring := l ++ replicate (36 - length l) " "%byte.

(** A line of two columns, from the records of two attributes. *)
Definition show_pair (forWhom : Z) (nick left_title a1 none1 right_title a2 none2 : cstring) : M st unit :=
  v1 <- db_get_str nick a1 ;;
  let l := left_title ++ default none1 v1 in
  line_fits l ;;
  v2 <- db_get_str nick a2 ;;
  let l := pad36 l ++ right_title ++ default none2 v2 in
  line_fits l ;;
  sends_cmdout forWhom l.

(** A line that is shown when the record exists. *)
Definition show_if (forWhom : Z) (nick title a : cstring) : M st unit :=
  v <- db_get_str nick a ;;
  match v with
  | None => ret tt
  | Some t => line_fits (title ++ t) ;; sends_cmdout forWhom (title ++ t)
  end.

(** The address, with a new line at each vertical bar; returns [temp]. *)
Fixpoint show_addr (forWhom : Z) (s temp : cstring) : M st cstring :=
  match s with
  | [] => sends_cmdout forWhom temp ;; ret temp
  | c :: s' =>
      if Byte.eqb c "|" then sends_cmdout forWhom temp ;; show_addr forWhom s' (str "  ")
      else show_addr forWhom s' (temp ++ [c])
  end.

Definition text_line (line : cstring) (s e : nat) : cstring := str "Text: " ++ drop s (take e line).

(** The word wrap of the text: [p] runs over [line], [s] is the start of the
    current output line, [lastw] the last blank; [temp] is the buffer as it was
    left, [None] while it is not initialised. *)
Fixpoint show_text (fuel : nat) (forWhom : Z) (line : cstring) (p s lastw count : nat)
    (temp : option cstring) : M st unit :=
  match line !! p, fuel with
  | None, _ =>
      t <- (if (0 <? count)%nat then ret (str "Text: ") else lift temp) ;;
      sends_cmdout forWhom (t ++ drop s line)
  | Some _, O => ub
  | Some c, S fuel =>
      if Byte.eqb c x0a then
        let t := text_line line s p in
        sends_cmdout forWhom t ;; show_text fuel forWhom line (S p) (S p) (S p) 0 (Some t)
      else
        let lastw := if Byte.eqb c " " then p else lastw in
        if (count =? MAX_TEXTLEN - 1)%nat then
          if (40 <? p - lastw)%nat then
            let t := text_line line s (p - 1) ++ str "-" in
            sends_cmdout forWhom t ;; show_text fuel forWhom line (p - 1) (p - 1) (p - 1) 0 (Some t)
          else
            let t := text_line line s lastw in
            sends_cmdout forWhom t ;; show_text fuel forWhom line (S lastw) (S lastw) (S lastw) 0 (Some t)
        else show_text fuel forWhom line (S p) s lastw (S count) temp
  end.

(** [strncpy] of [MAX_NICKLEN] bytes into the uninitialised [nickstr], whose
    last byte is never written: a nickname of full length is not terminated. *)
Definition nick_text (nk : option cstring) : option cstring :=
  match nk with
  | Some v => if (length v <? MAX_NICKLEN)%nat then Some v else None
  | None => None
  end.

(** What [whois] prints; [nickstr] is the record "nick", when it is there and
    terminated. *)
Definition show_account (forWhom : Z) (theNick : cstring) (nickstr : option cstring) (home : cstring) : M st unit :=
  nk <- lift nickstr ;;
  let l := pad36 (take 254 (str "Nickname:     " ++ nk)) ++ str "Address:   " ++ home in
  line_fits l ;;
  sends_cmdout forWhom l ;;
  show_pair forWhom theNick (str "Phone Number: ") (str "phone") (str "(None)")
    (str "Real Name: ") (str "realname") (str "(None)") ;;
  show_pair forWhom theNick (str "Last signon:  ") (str "signon") (str "(unknown)")
    (str "Last signoff:  ") (str "signoff") (str "(unknown)") ;;
  show_if forWhom theNick (str "E-mail addr:  ") (str "email") ;;
  show_if forWhom theNick (str "WWW:  ") (str "www") ;;
  a <- db_get_str theNick (str "addr") ;;
  temp <- match a with
          | None => ret None
          | Some v =>
              sends_cmdout forWhom (str "Street Address:") ;;
              t <- show_addr forWhom (take 254 v) (str "  ") ;; ret (Some t)
          end ;;
  t <- db_get_str theNick (str "text") ;;
  match t with
  | None => ret tt
  | Some v => show_text (4 * length (take 254 v) + 1) forWhom (take 254 v) 0 0 0 0 temp
  end.

(** With [forWhom] not negative the account is listed; with a negative one the
    user [-forWhom] is compared with the record: 0 known, -2 known but not
    authenticated, -1 not in the database. *)
Definition nicklookup (forWhom : Z) (theNick : cstring) : M st Z :=
  if is_empty theNick then
    when ((0 <? forWhom) && (forWhom <? MAX_REAL_USERS)) (sends_cmdout forWhom (str "Usage: whois nickname")) ;;
    ret (-1)
  else if (MAX_NICKLEN <? length theNick)%nat then senderror forWhom (str "nickname too long") ;; ret (-1)
  else
    db_open ;;
    nk <- db_get_str theNick (str "nick") ;;
    home <- db_get_str theNick (str "home") ;;
    retval <- match home with
    | Some value =>
        if 0 <=? forWhom then
          show_account forWhom theNick (nick_text nk) value ;; ret 0
        else
          u <- user_at (- forWhom) ;;
          if negb (strcaseeq value (u_loginid u ++ str "@" ++ u_nodeid u)) then ret (-2)
          else
            sec <- db_get_str theNick (str "secure") ;;
            ret (match sec with Some _ => -2 | None => 0 end)
    | None =>
        when (0 <=? forWhom) (senderror forWhom (theNick ++ str " is not in the database.")) ;; ret (-1)
    end ;;
    db_close ;; ret retval.
End access.

(** ** Rules for the database seen as a map *)

(** The key of an attribute of a nickname. *)
Definition key (nick attr : cstring) : bytes := icbdb_make_key (Some nick) attr.

(** [s'] is [s] after the messages [es], with the records of [f] in the
    database. *)
Definition acc_to (f : bytes → option bytes) (nb : Z) (es : list event) (s s' : st) : Prop :=
  ∃ d c, s' = log es (set_userdb d (set_curtime c s)) ∧ ready f nb d.

Definition db_ready (f : bytes → option bytes) (nb : Z) (s : st) : Prop := ready f nb (userdb s).

Section rules.
Context `{BuildConfig} `{Host} `{Commands}.
Context (HE : env_ok host_db).
Implicit Types s : st.

Lemma acc_start f nb s : db_ready f nb s → acc_to f nb [] s s.
Proof. intros Hr. exists (userdb s), (curtime s). split; [|done]. rewrite log_nil. by destruct s. Qed.

Lemma acc_ready f nb es s s' : acc_to f nb es s s' → db_ready f nb s'.
Proof. by intros (d & c & -> & ?). Qed.

Lemma acc_fields f nb es s s' :
  acc_to f nb es s s' →
  u_tab s' = u_tab s ∧ g_tab s' = g_tab s ∧ events s' = events s ++ es ∧ (arrays_sized s → arrays_sized s').
Proof. by intros (d & c & -> & ?). Qed.

Lemma acc_log f nb es es' s s' : acc_to f nb es s s' → acc_to f nb (es ++ es') s (log es' s').
Proof. intros (d & c & -> & Hr). exists d, c. by rewrite log_log. Qed.

Lemma acc_with {A} (m : M icbdb A) f nb f' nb' es Q s s1 (P : A → Prop) :
  acc_to f nb es s s1 →
  (∀ d, ready f nb d → ∃ r d', m d = Some (r, d') ∧ ready f' nb' d' ∧ P r) →
  (∀ r s2, P r → acc_to f' nb' es s s2 → Q r s2) → wp (with_userdb m) Q s1.
Proof.
  intros (d & c & -> & Hr) Hm HQ. destruct (Hm d Hr) as (r & d' & E & Hr' & HP).
  unfold wp, with_userdb. cbn [userdb log set_events set_userdb]. rewrite E. apply HQ; [done|].
  exists d', c. split; [|done]. by destruct s.
Qed.

Lemma acc_icbdb_open f nb es Q s s1 :
  acc_to f nb es s s1 → (∀ r s2, acc_to f nb es s s2 → Q r s2) → wp (with_userdb (icbdb_open host_db)) Q s1.
Proof.
  intros Ha HQ. apply (acc_with (icbdb_open host_db) f nb f nb es _ s s1 (λ _, True)); [done| |].
  - intros d (x & Hd & Hx). exists true. eexists. unfold icbdb_open. rewrite Hd. split; [done|]. split; [|done].
    by exists x.
  - intros r s2 _ H2. by apply HQ.
Qed.

Lemma acc_open f nb es Q s s1 : acc_to f nb es s s1 → (∀ s2, acc_to f nb es s s2 → Q tt s2) → wp db_open Q s1.
Proof. intros Ha HQ. unfold db_open. apply wp_bind. eapply acc_icbdb_open; [done|]. intros r s2 H2. by apply wp_ret, HQ. Qed.

Lemma acc_close f nb es Q s s1 : acc_to f nb es s s1 → (∀ s2, acc_to f nb es s s2 → Q tt s2) → wp db_close Q s1.
Proof.
  intros Ha HQ. unfold db_close.
  apply (acc_with (icbdb_close host_db) f nb f nb es _ s s1 (λ _, True)); [done| |intros [] s2 _ H2; by apply HQ].
  intros d (x & Hd & Hw & Hn & Hm & Hg). exists tt. eexists. unfold icbdb_close. rewrite Hm, orb_true_r.
  split; [done|]. split; [|done]. by exists x.
Qed.

Lemma acc_get_str nick a f nb es Q s s1 :
  acc_to f nb es s s1 → (∀ v, f (key nick a) = Some v → (length v < DBLKSIZ)%nat) →
  (∀ s2, acc_to f nb es s s2 → Q (until_nul <$> f (key nick a)) s2) → wp (db_get_str nick a) Q s1.
Proof.
  intros Ha Hs HQ. unfold db_get_str. apply wp_bind.
  eapply (acc_with _ f nb f nb es _ s s1 (λ r, r = (read_as ICBDB_STRING <$> f (key nick a)))); [done| |].
  - intros d Hr. destruct (icbdb_get_ready host_db HE f nb d (Some nick) a ICBDB_STRING Hr Hs) as (d' & E & Hr').
    by eexists _, d'.
  - intros r s2 -> H2. apply wp_ret. specialize (HQ s2 H2). by destruct (f (key nick a)).
Qed.

Lemma acc_get_int nick a f nb es Q s s1 :
  acc_to f nb es s s1 → (∀ v, f (key nick a) = Some v → (length v < DBLKSIZ)%nat) →
  (∀ s2, acc_to f nb es s s2 → Q ((λ v, atoi (until_nul v)) <$> f (key nick a)) s2) → wp (db_get_int nick a) Q s1.
Proof.
  intros Ha Hs HQ. unfold db_get_int. apply wp_bind.
  eapply (acc_with _ f nb f nb es _ s s1 (λ r, r = (read_as ICBDB_INT <$> f (key nick a)))); [done| |].
  - intros d Hr. destruct (icbdb_get_ready host_db HE f nb d (Some nick) a ICBDB_INT Hr Hs) as (d' & E & Hr').
    by eexists _, d'.
  - intros r s2 -> H2. apply wp_ret. specialize (HQ s2 H2). by destruct (f (key nick a)).
Qed.

Lemma acc_set nick a v f nb es Q s s1 :
  acc_to f nb es s s1 → nb ≤ 2 ^ 30 →
  (∀ s2, acc_to (upd f (key nick a) (Some (text_of v))) (2 * nb) es s s2 → Q tt s2) → wp (db_set nick a v) Q s1.
Proof.
  intros Ha Hn HQ. unfold db_set. apply wp_bind.
  eapply (acc_with _ f nb _ (2 * nb) es _ s s1 (λ _, True)); [done| |intros r s2 _ H2; apply wp_ret, HQ; exact H2].
  intros d Hr. destruct (icbdb_set_ready host_db HE f nb d (Some nick) a v Hr Hn) as (d' & E & Hr'). by eexists _, d'.
Qed.

Lemma acc_delete nick a f nb es Q s s1 :
  acc_to f nb es s s1 → nb < 2 ^ 30 →
  (∀ s2, acc_to (upd f (key nick a) None) nb es s s2 → Q tt s2) → wp (db_delete nick a) Q s1.
Proof.
  intros Ha Hn HQ. unfold db_delete. apply wp_bind.
  eapply (acc_with _ f nb _ nb es _ s s1 (λ _, True)); [done| |intros r s2 _ H2; apply wp_ret, HQ; exact H2].
  intros d Hr. destruct (icbdb_delete_ready host_db f nb d (Some nick) a Hr Hn) as (d' & E & Hr'). by eexists _, d'.
Qed.

Lemma acc_user n u f nb es Q s s1 :
  acc_to f nb es s s1 → entry_at n (u_tab s) = Some u → Q u s1 → wp (user_at n) Q s1.
Proof. intros (d & c & -> & _) Hu HQ. by eapply wp_user_at. Qed.

Lemma acc_upd_user n g u f nb es Q s s1 :
  acc_to f nb es s s1 → entry_at n (u_tab s) = Some u →
  (∀ s2, acc_to f nb es (set_u_tab (entry_set n (g u) (u_tab s)) s) s2 → Q tt s2) → wp (upd_user n g) Q s1.
Proof. intros (d & c & -> & Hr) Hu HQ. eapply wp_upd_user; [done|]. apply HQ. by exists d, c. Qed.

Lemma acc_gettime f nb es Q s s1 :
  acc_to f nb es s s1 → (∀ s2, acc_to f nb es s s2 → Q (clock s) s2) → wp gettime Q s1.
Proof.
  intros (d & c & -> & Hr) HQ. unfold gettime, time. apply wp_bind, wp_gets, wp_bind, wp_modify, wp_ret.
  apply HQ. exists d, (clock s). split; [by destruct s|done].
Qed.

(** The senders. *)
Lemma acc_senderror to m f nb es Q s s1 :
  acc_to f nb es s s1 → arrays_sized s →
  (∀ s2, acc_to f nb (es ++ error_log s to m) s s2 → Q tt s2) → wp (senderror to m) Q s1.
Proof.
  intros Ha Hs HQ. unfold wp. pose proof (proj2 (proj2 (proj2 (acc_fields _ _ _ _ _ Ha))) Hs) as Hs1.
  rewrite senderror_run by done. apply HQ. replace (error_log s to m) with (error_log s1 to m); [by apply acc_log|].
  by destruct Ha as (d & c & -> & _).
Qed.
Lemma acc_cmdout to m f nb es Q s s1 :
  acc_to f nb es s s1 → arrays_sized s →
  (∀ s2, acc_to f nb (es ++ cmdout_log s to m) s s2 → Q tt s2) → wp (sends_cmdout to m) Q s1.
Proof.
  intros Ha Hs HQ. unfold wp. pose proof (proj2 (proj2 (proj2 (acc_fields _ _ _ _ _ Ha))) Hs) as Hs1.
  rewrite sends_cmdout_run by done. apply HQ. replace (cmdout_log s to m) with (cmdout_log s1 to m); [by apply acc_log|].
  by destruct Ha as (d & c & -> & _).
Qed.
Lemma acc_sendstatus to t m f nb es Q s s1 :
  acc_to f nb es s s1 → arrays_sized s →
  (∀ s2, acc_to f nb (es ++ status_log s ICB_M_STATUS to t m) s s2 → Q tt s2) → wp (sendstatus to t m) Q s1.
Proof.
  intros Ha Hs HQ. unfold wp. pose proof (proj2 (proj2 (proj2 (acc_fields _ _ _ _ _ Ha))) Hs) as Hs1.
  rewrite sendstatus_run by done. apply HQ.
  replace (status_log s ICB_M_STATUS to t m) with (status_log s1 ICB_M_STATUS to t m); [by apply acc_log|].
  by destruct Ha as (d & c & -> & _).
Qed.
End rules.

(** ** Keys of the accounts *)

(** Nicknames and attributes are far shorter than a key. *)
Definition nick_ok (nick : cstring) : Prop := (length nick ≤ 64)%nat.
Definition attr_ok (a : cstring) : Prop := (length a ≤ 40)%nat ∧ "."%byte ∉ a ∧ lcaseit a = a.

Lemma key_eq nick a : nick_ok nick → attr_ok a → key nick a = lcaseit nick ++ str "." ++ a.
Proof.
  intros Hn (Hl & _ & Ha). pose proof DBLKSIZ_val. unfold nick_ok in Hn. unfold key, icbdb_make_key.
  rewrite take_ge by (rewrite !length_app; simpl; lia). rewrite !lcaseit_app, Ha. done.
Qed.

Lemma app_dot_inj (x y a b : cstring) :
  x ++ "."%byte :: a = y ++ "."%byte :: b → "."%byte ∉ a → "."%byte ∉ b → x = y ∧ a = b.
Proof.
  revert y. induction x as [|c x IH]; intros [|d y] E Ha Hb; simplify_eq/=.
  - done.
  - exfalso. apply Ha. set_solver.
  - exfalso. apply Hb. set_solver.
  - destruct (IH y) as [-> ->]; [done..|]. done.
Qed.

Lemma key_inj n1 a1 n2 a2 :
  nick_ok n1 → nick_ok n2 → attr_ok a1 → attr_ok a2 →
  key n1 a1 = key n2 a2 → casefold n1 = casefold n2 ∧ a1 = a2.
Proof.
  intros Hn1 Hn2 Ha1 Ha2. rewrite !key_eq by done. rewrite <-!lcaseit_casefold.
  destruct Ha1 as (_ & ? & _), Ha2 as (_ & ? & _). intros E. by apply app_dot_inj in E.
Qed.

Lemma key_case n1 n2 a : casefold n1 = casefold n2 → key n1 a = key n2 a.
Proof. intros E. apply make_key_case; apply strcaseeq_casefold; done. Qed.

(** Reading back after an update of an attribute of the same nickname, and of
    another one. *)
Lemma upd_same f nick a v b :
  nick_ok nick → attr_ok a → attr_ok b →
  upd f (key nick a) v (key nick b) = if decide (a = b) then v else f (key nick b).
Proof.
  intros Hn Ha Hb. unfold upd. destruct (decide (a = b)) as [->|Hne]; [by rewrite decide_True|].
  rewrite decide_False; [done|]. intros E. apply Hne. by apply key_inj in E as [_ ->].
Qed.
Lemma upd_other f nick a v nick' b :
  nick_ok nick → nick_ok nick' → attr_ok a → attr_ok b → casefold nick ≠ casefold nick' →
  upd f (key nick a) v (key nick' b) = f (key nick' b).
Proof.
  intros Hn Hn' Ha Hb Hne. unfold upd. rewrite decide_False; [done|]. intros E.
  apply key_inj in E as [E _]; [|done..]. congruence.
Qed.

Lemma itoa_no_dot z : "."%byte ∉ itoa z.
Proof.
  assert (∀ fuel n acc, 0 ≤ n → "."%byte ∉ acc → "."%byte ∉ print_nat fuel n acc) as Hp.
  { induction fuel as [|fuel IH]; intros n acc Hn Hacc; cbn [print_nat]; [done|].
    assert ("."%byte ∉ to_uchar (48 + n mod 10) :: acc) as Hc.
    { pose proof (Z.mod_pos_bound n 10 ltac:(lia)). apply not_elem_of_cons. split; [|done].
      intros E. apply (f_equal uchar) in E. rewrite uchar_to_uchar, Z.mod_small in E by lia.
      change (uchar ".") with 46 in E. lia. }
    case_if; [done|]. apply IH; [apply Z.div_pos; lia|done]. }
  unfold itoa. destruct (Z.ltb_spec z 0).
  - apply not_elem_of_cons. split; [done|]. apply Hp; [lia|apply not_elem_of_nil].
  - apply Hp; [lia|apply not_elem_of_nil].
Qed.

Lemma attr_numbered t z :
  (length t ≤ 10)%nat → "."%byte ∉ t → lcaseit t = t → attr_ok (t ++ itoa z).
Proof.
  intros Hl Hd Hc. pose proof (itoa_length z). split; [rewrite length_app; lia|].
  split; [|by rewrite lcaseit_app, Hc, lcaseit_itoa]. intros [?|?]%elem_of_app; [done|]. by apply (itoa_no_dot z).
Qed.
Lemma header_attr z : attr_ok (header_key z).
Proof. apply attr_numbered; [cbn; lia|by apply (bool_decide_unpack _)|done]. Qed.
Lemma from_attr z : attr_ok (from_key z).
Proof. apply attr_numbered; [cbn; lia|by apply (bool_decide_unpack _)|done]. Qed.
Lemma message_attr z : attr_ok (message_key z).
Proof. apply attr_numbered; [cbn; lia|by apply (bool_decide_unpack _)|done]. Qed.

(** A closed attribute. *)
Ltac attr_tac := split; [cbn; lia|split; [by apply (bool_decide_unpack _)|done]].
#[local] Hint Resolve header_attr from_attr message_attr : icb.
#[export] Hint Extern 5 (attr_ok (str _)) => attr_tac : icb.

(** ** The mailbox as a sequence *)

(** A stored message: its header, its sender and its text. *)
Record letter : Type := Letter { l_header : cstring; l_from : cstring; l_text : cstring }.

(** The records of the messages 1, 2, ... of a nickname. *)
Definition mailbox (f : bytes → option bytes) (nick : cstring) (ms : list letter) : Prop :=
  f (key nick (str "nummsg")) = Some (itoa (Z.of_nat (length ms))) ∧
  ∀ i m, ms !! i = Some m →
    f (key nick (header_key (Z.of_nat i + 1))) = Some (l_header m) ∧
    f (key nick (from_key (Z.of_nat i + 1))) = Some (l_from m) ∧
    f (key nick (message_key (Z.of_nat i + 1))) = Some (l_text m).

Lemma app_nil_inv_r (t x : cstring) : t ++ x = t → x = [].
Proof. intros E. apply (app_inv_head t). by rewrite app_nil_r. Qed.

Lemma header_inj i j : 0 ≤ i ≤ INT_MAX → 0 ≤ j ≤ INT_MAX → header_key i = header_key j → i = j.
Proof. intros Hi Hj E%app_inv_head. unfold INT_MAX in *. apply itoa_inj; unfold INT_MIN, INT_MAX; try lia. done. Qed.
Lemma from_inj i j : 0 ≤ i ≤ INT_MAX → 0 ≤ j ≤ INT_MAX → from_key i = from_key j → i = j.
Proof. intros Hi Hj E%app_inv_head. unfold INT_MAX in *. apply itoa_inj; unfold INT_MIN, INT_MAX; try lia. done. Qed.
Lemma message_inj i j : 0 ≤ i ≤ INT_MAX → 0 ≤ j ≤ INT_MAX → message_key i = message_key j → i = j.
Proof. intros Hi Hj E%app_inv_head. unfold INT_MAX in *. apply itoa_inj; unfold INT_MIN, INT_MAX; try lia. done. Qed.

(** The four records that [nickwritemsg] stores. *)
Definition post_letter (f : bytes → option bytes) (nick : cstring) (count : Z) (m : letter) : bytes → option bytes :=
  upd (upd (upd (upd f (key nick (header_key count)) (Some (l_header m)))
    (key nick (from_key count)) (Some (l_from m)))
    (key nick (message_key count)) (Some (l_text m)))
    (key nick (str "nummsg")) (Some (itoa count)).

Lemma post_letter_mailbox f nick ms m :
  nick_ok nick → mailbox f nick ms → Z.of_nat (length ms) < INT_MAX →
  mailbox (post_letter f nick (Z.of_nat (length ms) + 1) m) nick (ms ++ [m]).
Proof.
  intros Hn [Hc Hm] Hlen. unfold post_letter. split.
  - rewrite upd_same, decide_True by auto with icb. rewrite length_app. simpl. do 2 f_equal. lia.
  - intros i x Hi. set (j := Z.of_nat i + 1). set (c := Z.of_nat (length ms) + 1).
    assert (1 ≤ j ≤ c) as Hj.
    { apply lookup_lt_Some in Hi. rewrite length_app in Hi. simpl in Hi. lia. }
    rewrite !upd_same by auto with icb.
    rewrite !(decide_False (P := str "nummsg" = _)) by (by intros [=]).
    rewrite (decide_False (P := message_key c = header_key j)), (decide_False (P := from_key c = header_key j)),
      (decide_False (P := message_key c = from_key j)), (decide_False (P := header_key c = from_key j)),
      (decide_False (P := from_key c = message_key j)), (decide_False (P := header_key c = message_key j))
      by (by intros [=]).
    destruct (decide (c = j)) as [Ecj|Hne].
    + rewrite <-Ecj, !decide_True by done. assert (i = length ms) as -> by lia.
      rewrite list_lookup_middle in Hi by done. by injection Hi as <-.
    + rewrite !decide_False.
      * apply Hm. rewrite lookup_app_l in Hi by lia. done.
      * intros E%message_inj; lia.
      * intros E%from_inj; lia.
      * intros E%header_inj; lia.
Qed.

Lemma post_letter_other f nick c m nick' a :
  nick_ok nick → nick_ok nick' → casefold nick ≠ casefold nick' → attr_ok a →
  post_letter f nick c m (key nick' a) = f (key nick' a).
Proof. intros. unfold post_letter. by rewrite !upd_other by auto with icb. Qed.

(** The records of the first [k] messages removed. *)
Fixpoint drop_letters (f : bytes → option bytes) (nick : cstring) (k : nat) : bytes → option bytes :=
  match k with
  | O => f
  | S k =>
      upd (upd (upd (drop_letters f nick k) (key nick (header_key (Z.of_nat k + 1))) None)
        (key nick (from_key (Z.of_nat k + 1))) None) (key nick (message_key (Z.of_nat k + 1))) None
  end.

Lemma drop_letters_kept f nick k a :
  nick_ok nick → attr_ok a →
  (∀ j, 1 ≤ j ≤ Z.of_nat k → a ≠ header_key j ∧ a ≠ from_key j ∧ a ≠ message_key j) →
  drop_letters f nick k (key nick a) = f (key nick a).
Proof.
  intros Hn Ha. induction k as [|k IH]; intros Hk; cbn [drop_letters]; [done|].
  destruct (Hk (Z.of_nat k + 1)) as (H1 & H2 & H3); [lia|].
  rewrite !upd_same, !decide_False by (auto with icb). apply IH. intros j Hj. apply Hk. lia.
Qed.

Lemma drop_letters_later f nick k j :
  nick_ok nick → Z.of_nat k < j ≤ INT_MAX →
  drop_letters f nick k (key nick (header_key j)) = f (key nick (header_key j)) ∧
  drop_letters f nick k (key nick (from_key j)) = f (key nick (from_key j)) ∧
  drop_letters f nick k (key nick (message_key j)) = f (key nick (message_key j)).
Proof.
  intros Hn Hj. split_and!; (apply drop_letters_kept; [done|auto with icb|]); intros i Hi; split_and!;
    try (by intros [=]); intros E; first [apply header_inj in E|apply from_inj in E|apply message_inj in E]; lia.
Qed.

Lemma drop_letters_gone f nick k j :
  nick_ok nick → 1 ≤ j ≤ Z.of_nat k → Z.of_nat k ≤ INT_MAX →
  drop_letters f nick k (key nick (header_key j)) = None ∧
  drop_letters f nick k (key nick (from_key j)) = None ∧
  drop_letters f nick k (key nick (message_key j)) = None.
Proof.
  intros Hn Hj Hk. induction k as [|k IH]; [lia|]. cbn [drop_letters]. rewrite !upd_same by auto with icb.
  destruct (decide (j = Z.of_nat k + 1)) as [->|Hne].
  - split_and!; repeat case_decide; done.
  - destruct IH as (E1 & E2 & E3); [lia|lia|]. rewrite E1, E2, E3. split_and!; by repeat case_decide.
Qed.

Lemma drop_letters_other f nick k nick' a :
  nick_ok nick → nick_ok nick' → casefold nick ≠ casefold nick' → attr_ok a →
  drop_letters f nick k (key nick' a) = f (key nick' a).
Proof. intros. induction k as [|k IH]; cbn [drop_letters]; [done|]. by rewrite !upd_other by auto with icb. Qed.

(** What the reader of a message is sent. *)
Definition stored_log `{BuildConfig} (s : st) (to : Z) (from message : cstring) : list event :=
  filter_events from 13 ++ filter_events message 241 ++
  deliver s to (packet ICB_M_PERSONAL (filter_text from 13 ++ SEP ++ filter_text message 241)).
Definition letter_log `{BuildConfig} (s : st) (to : Z) (m : letter) : list event :=
  cmdout_log s to (l_header m) ++ stored_log s to (take MAX_NICKLEN (l_from m)) (l_text m).

Section mailbox.
Context `{BuildConfig} `{Host} `{Commands}.
Context (HE : env_ok host_db).
Implicit Types s : st.

Lemma acc_stored to from m f nb es Q s s1 :
  arrays_sized s → 0 ≤ to < MAX_REAL_USERS → acc_to f nb es s s1 →
  (∀ s2, acc_to f nb (es ++ stored_log s to from m) s s2 → Q tt s2) → wp (send_person_stored to from m) Q s1.
Proof.
  intros Hs Hto Ha HQ. pose proof (proj2 (proj2 (proj2 (acc_fields _ _ _ _ _ Ha))) Hs) as Hs1.
  unfold send_person_stored, wp. change (MAX_PKT_DATA - MAX_NICKLEN - 1)%nat with 241%nat.
  change (MAX_NICKLEN + 1)%nat with 13%nat.
  erewrite bind_runs by apply filtered_run. erewrite bind_runs by apply filtered_run.
  unfold doSend, bind. destruct (Z.ltb_spec to 0); [lia|]. destruct (Z.leb_spec MAX_REAL_USERS to); [lia|].
  rewrite doSend_client_run by (done || lia). unfold ret. apply HQ. rewrite !deliver_log, !log_log.
  unfold stored_log. replace (deliver s to) with (deliver s1 to) by (by destruct Ha as (d & c & -> & _)).
  by apply acc_log.
Qed.

Lemma wp_read_one n nick f nb es i m s s1 :
  arrays_sized s → 0 ≤ n < MAX_REAL_USERS → nick_ok nick → nb < 2 ^ 30 → all_short f → acc_to f nb es s s1 →
  f (key nick (header_key i)) = Some (l_header m) → f (key nick (from_key i)) = Some (l_from m) →
  f (key nick (message_key i)) = Some (l_text m) → x00 ∉ l_header m ++ l_from m ++ l_text m →
  wp (read_one n nick i) (λ _, acc_to (upd (upd (upd f (key nick (header_key i)) None)
    (key nick (from_key i)) None) (key nick (message_key i)) None) nb (es ++ letter_log s n m) s) s1.
Proof.
  intros Hs Hn Hnick Hnb Hf Ha Eh Ef Em Hnul. rewrite !not_elem_of_app in Hnul. destruct Hnul as (Nh & Nf & Nm).
  unfold read_one. apply wp_bind. eapply (acc_get_str HE); [done|intros v; apply Hf|]. rewrite Eh. intros s2 H2.
  simpl. rewrite until_nul_id by done. apply wp_bind. eapply acc_cmdout; [done|done|]. intros s3 H3.
  apply wp_bind. eapply (acc_delete); [done|done|]. intros s4 H4.
  apply wp_bind. eapply (acc_get_str HE); [done| |].
  { rewrite upd_same by auto with icb. intros v. case_decide; [done|]. apply Hf. }
  rewrite upd_same, decide_False by (auto with icb; by intros [=]). rewrite Ef. intros s5 H5. simpl.
  rewrite until_nul_id by done. apply wp_bind. eapply acc_delete; [done|done|]. intros s6 H6.
  apply wp_bind. eapply (acc_get_str HE); [done| |].
  { rewrite !upd_same by auto with icb. intros v. repeat case_decide; try done. apply Hf. }
  rewrite !upd_same, !decide_False by (auto with icb; by intros [=]). rewrite Em. intros s7 H7. simpl.
  rewrite until_nul_id by done. apply wp_bind. eapply acc_stored; [done|done|done|]. intros s8 H8.
  eapply acc_delete; [done|done|]. intros s9 H9. unfold letter_log, strncpy in *. by rewrite app_assoc.
Qed.

Lemma upd_None_short f k : all_short f → all_short (upd f k None).
Proof. intros Hf k' v. unfold upd. case_decide; [done|]. apply Hf. Qed.
Lemma upd_Some_short f k v : all_short f → (length v < DBLKSIZ)%nat → all_short (upd f k (Some v)).
Proof. intros Hf Hv k' w. unfold upd. case_decide; [by intros [= <-]|]. apply Hf. Qed.
Lemma drop_letters_short f nick k : all_short f → all_short (drop_letters f nick k).
Proof. intros Hf. induction k; cbn [drop_letters]; [done|]. by repeat apply upd_None_short. Qed.

Lemma mailbox_count f nick ms :
  mailbox f nick ms → Z.of_nat (length ms) ≤ INT_MAX →
  (λ v, atoi (until_nul v)) <$> f (key nick (str "nummsg")) = Some (Z.of_nat (length ms)).
Proof.
  intros [-> _] Hl. cbn [fmap option_fmap option_map]. rewrite until_nul_itoa, atoi_itoa; [done|].
  unfold INT_MIN, INT_MAX in *. lia.
Qed.
Lemma wp_read_all n nick f nb ms s s1 :
  arrays_sized s → 0 ≤ n < MAX_REAL_USERS → nick_ok nick → nb < 2 ^ 30 → all_short f → acc_to f nb [] s s1 →
  mailbox f nick ms → Z.of_nat (length ms) < INT_MAX → Forall (λ m, x00 ∉ l_header m ++ l_from m ++ l_text m) ms →
  wp (for_each (zrange 1 (Z.of_nat (length ms) + 1)) (read_one n nick))
    (λ _, acc_to (drop_letters f nick (length ms)) nb (concat (letter_log s n <$> ms)) s) s1.
Proof.
  intros Hs Hn Hnick Hnb Hf Ha Hmb Hlen Hnul.
  eapply wp_mono; [apply (wp_for_zrange (λ i, acc_to (drop_letters f nick (Z.to_nat (i - 1))) nb
    (concat (letter_log s n <$> take (Z.to_nat (i - 1)) ms)) s) 1 (Z.of_nat (length ms) + 1))|].
  - lia.
  - done.
  - intros i s3 Hi H3. set (k := Z.to_nat (i - 1)) in *. destruct (lookup_lt_is_Some_2 ms k) as [m Hm]; [lia|].
    destruct (proj2 Hmb k m Hm) as (Eh & Ef & Em). replace (Z.of_nat k + 1) with i in Eh, Ef, Em by lia.
    destruct (drop_letters_later f nick k i) as (D1 & D2 & D3); [done|lia|].
    eapply wp_mono; [eapply (wp_read_one n nick _ nb _ i m s s3);
      [done|done|done|lia|by apply drop_letters_short|done|by rewrite D1|by rewrite D2|by rewrite D3|]|].
    + by eapply Forall_lookup_1 in Hnul.
    + intros [] s4 H4. replace (Z.to_nat (i + 1 - 1)) with (S k) by lia. rewrite (take_S_r _ _ _ Hm).
      cbn [drop_letters]. replace (Z.of_nat k + 1) with i by lia. rewrite fmap_app, concat_app. simpl.
      by rewrite app_nil_r.
  - intros [] s3 H3. simpl in H3. replace (Z.to_nat (Z.of_nat (length ms) + 1 - 1)) with (length ms) in H3 by lia.
    by rewrite take_ge in H3 by lia.
Qed.
End mailbox.

(** Leaving a message for a registered nickname appends it to the mailbox
    and touches no other account; when the mailbox holds [MAX_WRITES] messages
    it is refused and the database stays as it was. *)
Theorem nickwritemsg_correct `{BuildConfig} `{Host} `{Commands} n u user message ms f nb (s : st) :
  env_ok host_db → arrays_sized s → db_ready f nb s → nb ≤ 2 ^ 27 → all_short f →
  entry_at n (u_tab s) = Some u → u_realname u ≠ [] → nick_ok user → user ≠ [] → message ≠ [] →
  is_Some (f (key user (str "nick"))) → mailbox f user ms → Z.of_nat (length ms) < INT_MAX →
  ∃ r s' f' nb', nickwritemsg n user message s = Some (r, s') ∧ db_ready f' nb' s' ∧
    u_tab s' = u_tab s ∧ g_tab s' = g_tab s ∧
    (MAX_WRITES ≤ Z.of_nat (length ms) ∧ r = -1 ∧ f' = f ∨
     Z.of_nat (length ms) < MAX_WRITES ∧ r = 0 ∧
     (∃ h, mailbox f' user (ms ++ [Letter h (u_nickname u) (until_nul (filtertext message 4095))])) ∧
     ∀ nick' a, nick_ok nick' → casefold user ≠ casefold nick' → attr_ok a → f' (key nick' a) = f (key nick' a)).
Proof.
  intros HE Hs Hr Hnb Hf Hu Hreg Hnick Hune Hmne [nk Hnk] Hmb Hlen.
  cut (wp (nickwritemsg n user message) (λ r s', ∃ f' nb' es, acc_to f' nb' es s s' ∧
    (MAX_WRITES ≤ Z.of_nat (length ms) ∧ r = -1 ∧ f' = f ∨
     Z.of_nat (length ms) < MAX_WRITES ∧ r = 0 ∧ ∃ h, f' = post_letter f user (Z.of_nat (length ms) + 1)
       (Letter h (u_nickname u) (until_nul (filtertext message 4095))))) s).
  { intros (r & s' & Hrun & f' & nb' & es & Ha & Hres)%wp_run. exists r, s', f', nb'.
    pose proof (acc_fields _ _ _ _ _ Ha) as (E1 & E2 & _). split_and!; [done|by eapply acc_ready|done|done|].
    destruct Hres as [?|(Hlt & -> & h & ->)]; [by left|]. right. split; [done|]. split; [done|]. split.
    - exists h. by apply post_letter_mailbox.
    - intros. by apply post_letter_other. }
  unfold nickwritemsg. destruct user as [|c user]; [destruct (Hune eq_refl)|].
  destruct message as [|c' message]; [destruct (Hmne eq_refl)|].
  cbn [is_empty orb]. apply wp_bind. eapply wp_user_at; [done|]. destruct (u_realname u) eqn:Er; [destruct (Hreg eq_refl)|]. cbn [is_empty].
  apply wp_bind. eapply acc_open; [by apply acc_start|]. intros s1 A1.
  apply wp_bind. eapply (acc_get_str HE); [done|intros v; apply Hf|]. rewrite Hnk. intros s2 A2. cbn [fmap option_fmap option_map].
  apply wp_bind. eapply (acc_get_int HE); [done|intros v; apply Hf|]. rewrite (mailbox_count _ _ ms) by (done || lia).
  intros s3 A3. cbn [default from_option id]. destruct (Z.ltb_spec INT_MAX (Z.of_nat (length ms) + 1)); [lia|].
  destruct (Z.ltb_spec MAX_WRITES (Z.of_nat (length ms) + 1)).
  { apply wp_bind. eapply acc_senderror; [done|done|]. intros s4 A4. apply wp_bind. eapply acc_close; [done|].
    intros s5 A5. apply wp_ret. eexists f, nb, _. split; [done|]. left. split; [lia|done]. }
  apply wp_bind. eapply acc_gettime; [done|]. intros s4 A4. set (line := take 254 _).
  apply wp_bind. eapply (acc_set HE); [done|lia|]. intros s5 A5. apply wp_bind. eapply (acc_set HE); [done|lia|]. intros s6 A6.
  apply wp_bind. eapply (acc_set HE); [done|lia|]. intros s7 A7. apply wp_bind. eapply (acc_set HE); [done|lia|]. intros s8 A8.
  apply wp_bind. eapply acc_sendstatus; [done|done|]. intros s9 A9. apply wp_bind, wp_gets. apply wp_bind.
  eapply (wp_mono _ (λ _ s', ∃ es, acc_to (post_letter f (c :: user) (Z.of_nat (length ms) + 1)
    (Letter line (u_nickname u) (until_nul (filtertext (c' :: message) 4095)))) (2 * (2 * (2 * (2 * nb)))) es s s')).
  - apply wp_when; [|intros _; by eexists]. intros Hi%Z.ltb_lt.
    pose proof (acc_fields _ _ _ _ _ A9) as (E1 & _). rewrite E1 in *.
    destruct (find_user_entry (c :: user) (u_tab s)) as (ui & Hui & _); [lia|].
    apply wp_bind. eapply acc_user; [done|done|]. apply wp_bind. eapply acc_sendstatus; [done|done|]. intros s10 A10.
    eapply acc_sendstatus; [done|done|]. intros s11 A11. by eexists.
  - intros [] s10 [es A10]. apply wp_bind. eapply acc_close; [done|]. intros s11 A11. apply wp_ret.
    eexists _, _, es. split; [done|]. right. split; [lia|]. split; [done|]. by exists line.
Qed.

(** Reading delivers the stored messages in the order they were left,
    each once, and leaves an empty mailbox with none of their records, and the
    other accounts as they were. *)
Theorem nickreadmsg_correct `{BuildConfig} `{Host} `{Commands} n u ms f nb (s : st) :
  env_ok host_db → arrays_sized s → db_ready f nb s → nb < 2 ^ 30 → all_short f →
  0 ≤ n < MAX_REAL_USERS → entry_at n (u_tab s) = Some u → u_realname u ≠ [] → nick_ok (u_nickname u) →
  mailbox f (u_nickname u) ms → Z.of_nat (length ms) < INT_MAX →
  Forall (λ m, x00 ∉ l_header m ++ l_from m ++ l_text m) ms →
  ∃ s' f' nb', nickreadmsg n s = Some (0, s') ∧ db_ready f' nb' s' ∧ u_tab s' = u_tab s ∧ g_tab s' = g_tab s ∧
    events s' = events s ++
      match ms with [] => error_log s n (str "No messages") | _ :: _ => concat (letter_log s n <$> ms) end ∧
    mailbox f' (u_nickname u) [] ∧
    (∀ j, 1 ≤ j ≤ Z.of_nat (length ms) → f' (key (u_nickname u) (message_key j)) = None) ∧
    ∀ nick' a, nick_ok nick' → casefold (u_nickname u) ≠ casefold nick' → attr_ok a → f' (key nick' a) = f (key nick' a).
Proof.
  intros HE Hs Hr Hnb Hf Hn Hu Hreg Hnick Hmb Hlen Hnul. set (nick := u_nickname u) in *.
  set (out := match ms with [] => error_log s n (str "No messages") | _ :: _ => concat (letter_log s n <$> ms) end).
  cut (wp (nickreadmsg n) (λ r s', r = 0 ∧ acc_to
    (upd (drop_letters f nick (length ms)) (key nick (str "nummsg")) (Some (itoa 0))) (2 * nb) out s s') s).
  { intros (r & s' & Hrun & -> & Ha)%wp_run. exists s'. eexists _, _.
    pose proof (acc_fields _ _ _ _ _ Ha) as (E1 & E2 & E3 & _).
    split; [done|]. split; [by eapply acc_ready|]. split; [done|]. split; [done|]. split; [done|]. split_and!.
    - split; [|by intros i m Hi]. rewrite upd_same, decide_True by auto with icb. done.
    - intros j Hj. rewrite upd_same, decide_False by (auto with icb; by intros [=]). apply drop_letters_gone; [done|lia|lia].
    - intros nick' a Hn' Hne Ha'. rewrite upd_other, drop_letters_other by auto with icb. done. }
  unfold nickreadmsg. apply wp_bind. eapply wp_user_at; [done|]. destruct (u_realname u) eqn:Er; [destruct (Hreg eq_refl)|]. cbn [is_empty].
  apply wp_bind. eapply acc_open; [by apply acc_start|]. intros s1 A1.
  apply wp_bind. eapply (acc_get_int HE); [done|intros v; apply Hf|]. fold nick. rewrite (mailbox_count _ _ ms) by (done || lia).
  intros s2 A2. apply wp_bind. eapply (wp_mono _ (λ _, acc_to (drop_letters f nick (length ms)) nb out s)).
  - destruct ms as [|m0 ms'] eqn:Ems.
    + simpl. eapply acc_senderror; [done|done|]. by intros s3 A3.
    + destruct (Z.eqb_spec (Z.of_nat (length (m0 :: ms'))) 0) as [?|_]; [simpl in *; lia|]. rewrite <-Ems in *.
      eapply wp_mono; [by apply (wp_read_all HE n nick f nb ms s s2)|]. intros [] s3 A3. unfold out. by rewrite Ems in *.
  - intros [] s3 A3. apply wp_bind. eapply (acc_set HE); [done|lia|]. intros s4 A4.
    apply wp_bind. eapply acc_close; [done|]. intros s5 A5. by apply wp_ret.
Qed.

(** ** Registering *)

(** A group that waits for its moderator [u], and the group once the moderator
    is back. *)
Definition awaited (u : user) (g : group) : bool := (0 <? g_modtimeout g) && streq (g_missingmod g) (u_nickname u).
Definition regained (n : Z) (g : group) : group := set_g_missingmod [] (set_g_mod n (set_g_modtimeout 0 g)).

(** The groups below [i] that wait for [u] are given back to [u], in slot [n],
    and no other group changes.  (Group 0 is never looked at.) *)
Definition given_back (n : Z) (u : user) (i : Z) (gt gt' : list group) : Prop :=
  ∀ j, entry_at j gt' = (λ g, if (1 <=? j) && (j <? i) && awaited u g then regained n g else g) <$> entry_at j gt.

Lemma given_back_inv n u i gt gt' j g' :
  given_back n u i gt gt' → entry_at j gt' = Some g' →
  ∃ g, entry_at j gt = Some g ∧ (g' = g ∨ awaited u g = true ∧ g' = regained n g).
Proof.
  intros Hg Hj. rewrite Hg in Hj. destruct (entry_at j gt) as [g|]; [|done]. injection Hj as <-. exists g. split; [done|].
  destruct (awaited u g) eqn:Ea; rewrite ?andb_false_r; [|by left]. case_if; [by right|by left].
Qed.

Lemma given_back_start n u gt : given_back n u 1 gt gt.
Proof.
  intros j. assert ((1 <=? j) && (j <? 1) = false) as Hj.
  { destruct (Z.leb_spec 1 j), (Z.ltb_spec j 1); [lia|done..]. }
  destruct (entry_at j gt); [|done]. cbn. by rewrite Hj.
Qed.

Lemma given_back_next n u i g gt gt' :
  1 ≤ i → given_back n u i gt gt' → entry_at i gt = Some g →
  given_back n u (i + 1) gt (if awaited u g then entry_set i (regained n g) gt' else gt').
Proof.
  intros Hi Hg Hgi j. destruct (decide (j = i)) as [->|Hne].
  - rewrite Hgi. cbn. rewrite (proj2 (Z.leb_le _ _) Hi), (proj2 (Z.ltb_lt i (i + 1))) by lia. cbn [andb].
    destruct (awaited u g).
    + apply entry_set_at. rewrite Hg, Hgi. by eexists.
    + rewrite Hg, Hgi. cbn. rewrite (proj2 (Z.ltb_ge i i)) by lia. by rewrite andb_false_r.
  - assert (entry_at j (if awaited u g then entry_set i (regained n g) gt' else gt') = entry_at j gt') as ->.
    { destruct (awaited u g); [by apply entry_set_ne|done]. }
    rewrite Hg. replace (j <? i + 1) with (j <? i); [done|]. destruct (Z.ltb_spec j i), (Z.ltb_spec j (i + 1)); lia || done.
Qed.

(** The record of a time of signing on or off. *)
Definition sign_record `{Host} (f f' : bytes → option bytes) (u : user) (s : st) : Prop :=
  f' = f ∨ ∃ type, (type = str "signon" ∨ type = str "signoff") ∧
    f' = upd f (key (u_nickname u) type) (Some (take 254 (format_time (clock s)))).

Section register.
Context `{BuildConfig} `{Host} `{Commands}.
Context (HE : env_ok host_db).
Implicit Types s : st.

Lemma acc_nickwritetime n class u f nb es Q s s1 :
  acc_to f nb es s s1 → entry_at n (u_tab s) = Some u → nb ≤ 2 ^ 30 → all_short f →
  (∀ r s2 f', acc_to f' (2 * nb) es s s2 → sign_record f f' u s → Q r s2) → wp (nickwritetime n class) Q s1.
Proof.
  intros Ha Hu Hnb Hf HQ. pose proof Ha as (d & c & -> & Hr). pose proof (ready_pos _ _ _ Hr) as Hpos.
  assert (∀ s2, acc_to f nb es s s2 → acc_to f (2 * nb) es s s2) as Hmono.
  { intros s2 (d' & c' & -> & Hr'). exists d', c'. split; [done|]. eapply ready_mono; [done|lia]. }
  unfold nickwritetime. apply wp_bind. eapply wp_user_at; [done|].
  destruct (u_realname u) as [|r0 rest]; [apply wp_ret, (HQ _ _ f); [by apply Hmono|by left]|].
  apply wp_bind. unfold time. apply wp_gets. apply wp_bind, wp_modify. simpl clock. apply wp_bind.
  eapply (acc_icbdb_open f nb es _ s).
  { exists d, (clock s). split; [by destruct s|done]. }
  intros ok s2 H2. apply wp_bind.
  eapply (wp_mono _ (λ _, acc_to f nb es s)).
  { destruct (negb (class =? 0)); [|by apply wp_ret].
    eapply (acc_with _ f nb f nb es _ s s2 (λ _, True)); [done| |by intros r s3 _ H3].
    intros d' Hr'. destruct (icbdb_get_ready host_db HE f nb d' (Some (u_nickname u)) (str "nick") ICBDB_STRING Hr') as (d2 & E & Hr2);
      [intros v; apply Hf|]. by eexists _, d2. }
  intros valid s3 H3. destruct valid as [v|].
  - apply wp_bind. set (type := if class =? 0 then str "signon" else str "signoff").
    eapply (acc_with _ f nb _ (2 * nb) es _ s s3 (λ _, True)); [done| |].
    { intros d' Hr'. destruct (icbdb_set_ready host_db HE f nb d' (Some (u_nickname u)) type
        (VStr (take 254 (format_time (clock s)))) Hr' Hnb) as (d2 & E & Hr2). by eexists _, d2. }
    intros r s4 _ H4. apply wp_bind. eapply acc_close; [exact H4|]. intros s5 H5. apply wp_ret.
    eapply HQ; [done|]. right. exists type. split; [|done]. unfold type. case_if; [by left|by right].
  - apply wp_bind. eapply acc_close; [done|]. intros s4 H4. apply wp_ret, (HQ _ _ f); [by apply Hmono|by left].
Qed.

Lemma acc_group j g f nb es Q s s1 :
  acc_to f nb es s s1 → entry_at j (g_tab s) = Some g → Q g s1 → wp (group_at j) Q s1.
Proof. intros (d & c & -> & _) Hg HQ. by eapply wp_group_at. Qed.

Lemma acc_upd_group j h g f nb es Q s s1 :
  acc_to f nb es s s1 → entry_at j (g_tab s) = Some g →
  (∀ s2, acc_to f nb es (set_g_tab (entry_set j (h g) (g_tab s)) s) s2 → Q tt s2) → wp (upd_group j h) Q s1.
Proof. intros (d & c & -> & Hr) Hg HQ. eapply wp_upd_group; [done|]. apply HQ. by exists d, c. Qed.

(** A loop in which each turn only sends. *)
Lemma acc_sends a n body f nb es Q s s1 :
  a ≤ n → acc_to f nb es s s1 →
  (∀ i es s1, a ≤ i < n → acc_to f nb es s s1 → wp (body i) (λ _ s2, ∃ es', acc_to f nb es' s s2) s1) →
  (∀ es s2, acc_to f nb es s s2 → Q tt s2) → wp (for_each (zrange a n) body) Q s1.
Proof.
  intros Hle Ha Hb HQ. eapply wp_mono; [apply (wp_for_zrange (λ _ s', ∃ es', acc_to f nb es' s s') a n)|].
  - done.
  - by exists es.
  - intros i s' Hi [es' H']. by eapply Hb.
  - intros [] s' [es' H']. by eapply HQ.
Qed.

(** The state after the groups below [i] have got their moderator back. *)
Definition regain_inv (n : Z) (u : user) (f : bytes → option bytes) (nb : Z) (s : st) (i : Z) (s' : st) : Prop :=
  ∃ gt es, acc_to f nb es (set_g_tab gt s) s' ∧ tables (-1) (u_tab s) gt ∧ given_back n u i (g_tab s) gt.

Lemma wp_regain_mods n u f nb es s s1 :
  world s → entry_at n (u_tab s) = Some u → u_nickname u ≠ [] → acc_to f nb es s s1 →
  wp (regain_mods n) (λ _, regain_inv n u f nb s (Z.of_nat MAX_GROUPS)) s1.
Proof.
  intros [Hs Ht] Hu Hnn Ha.
  assert (0 ≤ n < Z.of_nat MAX_USERS) as Hn.
  { destruct Hs as [<- _]. apply entry_at_range. by rewrite Hu. }
  unfold regain_mods. apply (wp_for_zrange (λ i, regain_inv n u f nb s i)); [done| |].
  { exists (g_tab s), es. split; [|split; [done|apply given_back_start]].
    replace (set_g_tab (g_tab s) s) with s by (by destruct s). done. }
  intros i s2 Hi (gt & es2 & H2 & Ht2 & Hg2).
  destruct (proj2 (entry_at_range (g_tab s) i)) as [g Hg0]; [rewrite (t_groups _ _ _ Ht); lia|].
  assert (entry_at i gt = Some g) as Hg.
  { rewrite Hg2, Hg0. cbn. rewrite (proj2 (Z.ltb_ge i i)) by lia. by rewrite andb_false_r. }
  pose proof (given_back_next n u i g _ _ ltac:(lia) Hg2 Hg0) as Hnext.
  unfold regain_mod. apply wp_bind. eapply acc_user; [done|done|]. apply wp_bind. eapply acc_group; [done|done|].
  fold (awaited u g). destruct (awaited u g) eqn:Haw; cbn [when]; [|by apply wp_ret; exists gt, es2].
  assert (g_name g ≠ []) as Hgn.
  { intros E. unfold awaited in Haw. rewrite (t_free _ _ _ Ht2 i g Hg E) in Haw. simpl in Haw. done. }
  apply wp_bind. eapply acc_upd_group; [done|done|]. intros s3 H3. simpl set_g_tab in H3. fold (regained n g) in H3.
  set (gt' := entry_set i (regained n g) gt) in *.
  assert (acc_to f nb es2 (set_g_tab gt' s) s3) as H3' by exact H3. clear H3.
  apply wp_bind. eapply (acc_sends 1 MAX_REAL_USERS); [unfold MAX_REAL_USERS; pose proof MAX_USERS_min; lia|exact H3'| |].
  { intros j es4 s4 Hj H4. destruct (proj2 (entry_at_range (u_tab s) j)) as [uj Huj].
    { destruct Hs as [-> _]. unfold MAX_REAL_USERS in Hj. lia. }
    apply wp_bind. eapply acc_user; [exact H4|exact Huj|]. apply wp_when; [|intros _; by eexists]. intros _.
    eapply acc_sendstatus; [done|done|]. intros s5 H5. by eexists. }
  intros es4 s4 H4. eapply acc_sendstatus; [done|done|]. intros s5 H5. exists gt'. eexists. split; [done|]. split; [|exact Hnext].
  eapply (tables_set_mod _ _ _ i g (regained n g)); [done|done|done|simpl; lia|done].
Qed.

Lemma acc_talk_report n u j g f nb es Q s s1 :
  acc_to f nb es s s1 → arrays_sized s → entry_at n (u_tab s) = Some u → entry_at j (g_tab s) = Some g →
  (∀ es s2, acc_to f nb es s s2 → Q tt s2) → wp (talk_report n j) Q s1.
Proof.
  intros Ha Hs Hu Hg HQ. unfold talk_report. apply wp_bind. eapply acc_user; [done|done|].
  apply wp_bind. eapply acc_group; [done|done|]. apply wp_when; [|intros _; by eapply HQ].
  intros _. eapply acc_cmdout; [done|done|]. intros s2 H2. by eapply HQ.
Qed.

Lemma wp_mark_registered n u f nb es Q s s1 :
  acc_to f nb es s s1 → arrays_sized s → entry_at n (u_tab s) = Some u → nb ≤ 2 ^ 30 → all_short f →
  (∀ s2 f' es', acc_to f' (2 * nb) es' (set_u_tab (entry_set n (set_u_realname (str "registered") u) (u_tab s)) s) s2 →
     sign_record f f' u s → Q tt s2) → wp (mark_registered n) Q s1.
Proof.
  intros Ha Hs Hu Hnb Hf HQ. unfold mark_registered. apply wp_bind. eapply acc_sendstatus; [done|done|]. intros s2 H2.
  apply wp_bind. eapply acc_upd_user; [done|done|]. intros s3 H3. apply wp_bind.
  eapply (acc_nickwritetime n 0 (set_u_realname (str "registered") u)); [done|apply entry_set_at; by rewrite Hu|done|done|].
  intros r s4 f' H4 Hrec. apply wp_ret. by eapply HQ.
Qed.

Lemma wp_tell_messages n u f nb es Q s s1 :
  acc_to f nb es s s1 → arrays_sized s → entry_at n (u_tab s) = Some u → nb ≤ 2 ^ 30 → all_short f →
  (∀ s2 f' es', acc_to f' (2 * nb) es' s s2 → (f' = f ∨ f' = upd f (key (u_nickname u) (str "nummsg")) (Some (itoa 0))) →
     Q tt s2) → wp (tell_messages n) Q s1.
Proof.
  intros Ha Hs Hu Hnb Hf HQ. pose proof (acc_ready _ _ _ _ _ Ha) as Hr. pose proof (ready_pos _ _ _ Hr) as Hpos.
  assert (∀ es s2, acc_to f nb es s s2 → acc_to f (2 * nb) es s s2) as Hmono.
  { intros es' s2 (d' & c' & -> & Hr'). exists d', c'. split; [done|]. eapply ready_mono; [done|lia]. }
  unfold tell_messages. apply wp_bind.
  eapply (wp_mono _ (λ _ s2, ∃ f' es', acc_to f' (2 * nb) es' s s2 ∧
    (f' = f ∨ f' = upd f (key (u_nickname u) (str "nummsg")) (Some (itoa 0))))).
  - unfold nickckmsg. apply wp_bind. eapply acc_user; [done|done|]. destruct (is_empty (u_realname u)).
    { apply wp_ret. exists f, es. split; [by apply Hmono|by left]. }
    apply wp_bind. eapply (acc_get_int HE); [done|intros v; apply Hf|]. intros s2 H2.
    destruct (f (key (u_nickname u) (str "nummsg"))) as [v|]; cbn [fmap option_fmap option_map].
    + apply wp_ret. exists f, es. split; [by apply Hmono|by left].
    + apply wp_bind. eapply (acc_set HE); [done|done|]. intros s3 H3. apply wp_ret. eexists _, es. split; [done|by right].
  - intros i s2 (f' & es' & H2 & Hf'). apply wp_when; [|intros _; by eapply HQ]. intros _.
    case_if; eapply acc_sendstatus; [done|done| |done|done|]; intros s3 H3; by eapply HQ.
Qed.

(** Nothing but the password and the mark of registration differs. *)
Definition retouched (u u' : user) : Prop := u' = set_u_password (u_password u') (set_u_realname (u_realname u') u).
Lemma retouched_refl u : retouched u u.
Proof. by destruct u. Qed.

(** The result of an attempt to register or to authenticate: the record decides. *)
Definition auth_result (n : Z) (u : user) (password : cstring) (verifyOnly : bool)
    (f : bytes → option bytes) (s : st) (r : Z) (s' : st) : Prop :=
  let pw := cut_password password in
  let nick := u_nickname u in
  world s' ∧ (∀ m, m ≠ n → entry_at m (u_tab s') = entry_at m (u_tab s)) ∧
  ∃ u' f' nb', entry_at n (u_tab s') = Some u' ∧ db_ready f' nb' s' ∧ all_short f' ∧ retouched u u' ∧
  match until_nul <$> f (key nick (str "password")) with
  | None =>
      g_tab s' = g_tab s ∧
      if verifyOnly then r = -1 ∧ f' = f ∧ u' = u
      else r = 0 ∧ u_realname u' = str "registered" ∧ u_password u' = pw ∧
           f' (key nick (str "password")) = Some pw ∧ f' (key nick (str "nick")) = Some nick
  | Some value =>
      if decide (value = pw) then
        r = 0 ∧ u_realname u' = str "registered" ∧ u_password u' = pw ∧
        f' (key nick (str "password")) = f (key nick (str "password")) ∧
        given_back n u (Z.of_nat MAX_GROUPS) (g_tab s) (g_tab s')
      else r = -1 ∧ f' = f ∧ u' = set_u_realname [] u ∧ g_tab s' = g_tab s
  end.

Lemma acc_world f nb es s s' : acc_to f nb es s s' → world s → world s'.
Proof. by intros (d & c & -> & _). Qed.

Lemma sign_record_short f f' u s : all_short f → sign_record f f' u s → all_short f'.
Proof.
  intros Hf [->|(t & _ & ->)]; [done|]. apply upd_Some_short; [done|].
  pose proof DBLKSIZ_val. rewrite length_take. lia.
Qed.
Lemma sign_record_attr f f' u s a :
  nick_ok (u_nickname u) → sign_record f f' u s → attr_ok a → a ≠ str "signon" → a ≠ str "signoff" →
  f' (key (u_nickname u) a) = f (key (u_nickname u) a).
Proof.
  intros Hn [->|(t & [-> | ->] & ->)] Ha H1' H2'; [done|..]; rewrite upd_same, decide_False by auto with icb; done.
Qed.

(** Setting the name and the password of an authenticated user. *)
Definition authenticated (pw : cstring) (u : user) : user := set_u_password pw (set_u_realname (str "registered") u).

Lemma wp_authenticate n u pw f nb es Q s s1 :
  acc_to f nb es s s1 → world s → entry_at n (u_tab s) = Some u → nb ≤ 2 ^ 30 → all_short f →
  (∀ s2 f' es', acc_to f' (2 * nb) es' (set_u_tab (entry_set n (authenticated pw u) (u_tab s)) s) s2 →
     world (set_u_tab (entry_set n (authenticated pw u) (u_tab s)) s) → sign_record f f' u s → all_short f' → Q tt s2) →
  wp (mark_registered n ;; upd_user n (set_u_password pw)) Q s1.
Proof.
  intros Ha Hw Hu Hnb Hf HQ. apply wp_bind. eapply wp_mark_registered; [done|apply Hw|done|done|done|].
  intros s2 f' es' H2 Hrec. eapply acc_upd_user; [done|apply entry_set_at; by rewrite Hu|].
  intros s3 H3. simpl in H3. rewrite entry_set_twice in H3.
  eapply HQ; [exact H3|by eapply world_upd_user|done|by eapply sign_record_short].
Qed.

Lemma auth_decided f nick pw v :
  f (key nick (str "password")) = Some v → streq (until_nul v) pw = bool_decide (until_nul v = pw).
Proof. intros _. apply Bool.eq_iff_eq_true. by rewrite streq_eq, bool_decide_eq_true. Qed.

(** The frame of an attempt that changes only the entry of the user. *)
Lemma auth_frame n u u' f nb es s s3 :
  world s → entry_at n (u_tab s) = Some u → u_group u' = u_group u →
  acc_to f nb es (set_u_tab (entry_set n u' (u_tab s)) s) s3 →
  world s3 ∧ (∀ m, m ≠ n → entry_at m (u_tab s3) = entry_at m (u_tab s)) ∧
  entry_at n (u_tab s3) = Some u' ∧ db_ready f nb s3 ∧ g_tab s3 = g_tab s.
Proof.
  intros Hw Hu Eg Ha. pose proof (acc_fields _ _ _ _ _ Ha) as (Eu & Egt & _).
  split; [eapply acc_world; [done|by eapply world_upd_user]|]. rewrite Eu, Egt. simpl.
  split; [intros m Hm; by apply entry_set_ne|]. split; [apply entry_set_at; by rewrite Hu|].
  split; [by eapply acc_ready|done].
Qed.

(** The password is right. *)
Lemma wp_auth_match n u pw f nb es s s2 :
  acc_to f nb es s s2 → world s → nb ≤ 2 ^ 26 → all_short f → entry_at n (u_tab s) = Some u →
  nick_ok (u_nickname u) → u_nickname u ≠ [] →
  wp (mark_registered n ;; upd_user n (set_u_password pw) ;; regain_mods n ;; tell_messages n ;;
      for_each (zrange 1 (Z.of_nat MAX_GROUPS)) (talk_report n) ;; ret 0)
    (λ r s', r = 0 ∧ ∃ gt f' nb' es', acc_to f' nb' es' (set_g_tab gt (set_u_tab (entry_set n (authenticated pw u) (u_tab s)) s)) s' ∧
      all_short f' ∧ f' (key (u_nickname u) (str "password")) = f (key (u_nickname u) (str "password")) ∧
      tables (-1) (entry_set n (authenticated pw u) (u_tab s)) gt ∧
      given_back n u (Z.of_nat MAX_GROUPS) (g_tab s) gt) s2.
Proof.
  intros A2 Hw Hnb Hf Hu Hnick Hnn. pose proof DBLKSIZ_val as Hblk.
  apply wp_seq, (wp_authenticate n u pw f nb es _ s s2); [done|done|done|lia|done|]. intros s3 f1 es3 A3 Hw3 Hrec Hf1.
  set (s0 := set_u_tab _ s) in *. set (u' := authenticated pw u) in *.
  assert (entry_at n (u_tab s0) = Some u') as Hu' by (apply entry_set_at; by rewrite Hu).
  apply wp_bind. eapply wp_mono; [by apply (wp_regain_mods n u' f1 (2 * nb) es3 s0 s3)|].
  intros [] s4 (gt & es4 & A4 & Ht4 & Hg4). apply wp_bind.
  eapply (wp_tell_messages n u'); [done|apply Hw3|done|lia|done|]. intros s5 f2 es5 A5 Hf2. apply wp_bind.
  eapply (acc_sends 1 (Z.of_nat MAX_GROUPS)); [done|done| |].
  { intros j es6 s6 Hj A6. destruct (proj2 (entry_at_range gt j)) as [g Hg]; [rewrite (t_groups _ _ _ Ht4); lia|].
    eapply acc_talk_report; [exact A6|apply Hw3|exact Hu'|exact Hg|]. intros es7 s7 A7. by eexists. }
  intros es6 s6 A6. apply wp_ret. split; [done|]. eexists gt, f2, _, es6. split; [exact A6|].
  split; [destruct Hf2 as [-> | ->]; [done|by apply upd_Some_short; [|cbn; lia]]|]. split; [|by split].
  rewrite <-(sign_record_attr f f1 u s (str "password")) by (done || auto with icb).
  destruct Hf2 as [-> | ->]; [done|]. by rewrite (upd_same f1 (u_nickname u)), decide_False by auto with icb.
Qed.

(** There is no record: a new one is made. *)
Lemma wp_auth_new n u pw f nb es s s2 :
  acc_to f nb es s s2 → world s → nb ≤ 2 ^ 26 → all_short f → entry_at n (u_tab s) = Some u →
  nick_ok (u_nickname u) → (length pw ≤ MAX_PASSWDLEN)%nat →
  wp (db_set (u_nickname u) (str "password") (VStr pw) ;; db_set (u_nickname u) (str "nick") (VStr (u_nickname u)) ;;
      db_set (u_nickname u) (str "home") (VStr (home_address u)) ;;
      mark_registered n ;; upd_user n (set_u_password pw) ;; ret 0)
    (λ r s', r = 0 ∧ ∃ f' nb' es', acc_to f' nb' es' (set_u_tab (entry_set n (authenticated pw u) (u_tab s)) s) s' ∧
      all_short f' ∧ f' (key (u_nickname u) (str "password")) = Some pw ∧
      f' (key (u_nickname u) (str "nick")) = Some (u_nickname u)) s2.
Proof.
  intros A2 Hw Hnb Hf Hu Hnick Hpw. pose proof DBLKSIZ_val as Hblk. change MAX_PASSWDLEN with 12%nat in Hpw.
  apply wp_bind. eapply (acc_set HE); [done|lia|]. intros s3 A3. apply wp_bind. eapply (acc_set HE); [done|lia|].
  intros s4 A4. apply wp_bind. eapply (acc_set HE); [done|lia|]. intros s5 A5. cbn [text_of] in A5.
  match type of A5 with acc_to ?F _ _ _ _ => set (f3 := F) in A5 end.
  assert (all_short f3) as Hf3.
  { unfold nick_ok in Hnick. repeat apply upd_Some_short; try done; [lia|lia|].
    unfold home_address. rewrite length_take. lia. }
  apply wp_seq, (wp_authenticate n u pw f3 (2 * (2 * (2 * nb))) es _ s s5); [done|done|done|lia|done|].
  intros s6 f4 es6 A6 Hw6 Hrec Hf4. apply wp_ret. split; [done|]. eexists f4, _, es6. split; [done|]. split; [done|].
  rewrite !(sign_record_attr f3 f4 u s) by (done || auto with icb). unfold f3. rewrite !upd_same by auto with icb.
  split; by repeat case_decide.
Qed.

Lemma wp_nickwrite n u password verifyOnly f nb s :
  world s → db_ready f nb s → nb ≤ 2 ^ 26 → all_short f → entry_at n (u_tab s) = Some u →
  password ≠ [] → nick_ok (u_nickname u) → u_nickname u ≠ [] →
  wp (nickwrite n password verifyOnly) (auth_result n u password verifyOnly f s) s.
Proof.
  intros Hw Hr Hnb Hf Hu Hpw Hnick Hnn. pose proof Hw as [Hs Ht].
  unfold nickwrite. destruct password as [|p0 ps]; [destruct (Hpw eq_refl)|]. cbn [is_empty]. set (pw := cut_password _).
  apply wp_bind. eapply acc_open; [by apply acc_start|]. intros s1 A1. apply wp_bind. eapply acc_user; [done|done|].
  apply wp_bind. eapply (acc_get_str HE); [done|intros v; apply Hf|]. intros s2 A2. unfold auth_result.
  set (nick := u_nickname u) in *. fold pw.
  assert (set_u_tab (entry_set n u (u_tab s)) s = s) as Hid by (rewrite entry_set_same by done; by destruct s).
  destruct (f (key nick (str "password"))) as [v|] eqn:Ev; cbn [fmap option_fmap option_map].
  - rewrite (auth_decided _ _ _ _ Ev). destruct (bool_decide_reflect (until_nul v = pw)) as [Eq|Hne]; cbn [negb]; apply wp_bind.
    + eapply wp_mono; [by apply (wp_auth_match n u pw f nb [] s s2)|].
      intros r s6 (-> & gt & f2 & nb' & es6 & A6 & Hf2 & Hpass & Ht6 & Hg6). apply wp_bind. eapply acc_close; [done|].
      intros s7 A7. apply wp_ret. pose proof (acc_fields _ _ _ _ _ A7) as (Eu & Eg & _ & Hs7).
      unfold world. rewrite Eu, Eg. simpl. split.
      { split; [|done]. apply Hs7. apply (world_upd_user n u (authenticated pw u) s Hw Hu eq_refl). }
      split; [intros m Hm; by apply entry_set_ne|]. exists (authenticated pw u), f2, nb'.
      split; [apply entry_set_at; by rewrite Hu|]. split; [by eapply acc_ready|]. split; [done|]. split; [done|].
      rewrite decide_True by done. split; [done|]. split; [done|]. split; [done|]. split; [|done]. by rewrite <-Ev.
    + apply wp_bind. eapply acc_senderror; [done|done|]. intros s3 A3. apply wp_bind.
      eapply acc_upd_user; [done|done|]. intros s4 A4. apply wp_ret, wp_bind. eapply acc_close; [done|]. intros s5 A5.
      apply wp_ret. destruct (auth_frame n u (set_u_realname [] u) f nb _ s s5 Hw Hu eq_refl A5) as (? & ? & ? & ? & ?).
      split; [done|]. split; [done|]. exists (set_u_realname [] u), f, nb. rewrite decide_False by done. by repeat split.
  - destruct verifyOnly; apply wp_bind.
    + apply wp_bind. eapply acc_senderror; [done|done|]. intros s3 A3. apply wp_ret, wp_bind.
      eapply acc_close; [done|]. intros s4 A4. apply wp_ret. rewrite <-Hid in A4.
      destruct (auth_frame n u u f nb _ s s4 Hw Hu eq_refl A4) as (? & ? & ? & ? & ?). split; [done|]. split; [done|].
      exists u, f, nb. split; [done|]. split; [done|]. split; [done|]. split; [apply retouched_refl|by repeat split].
    + eapply wp_mono; [apply (wp_auth_new n u pw f nb [] s s2); [done..|]|].
      { unfold pw, cut_password. rewrite length_take. lia. }
      intros r s6 (-> & f' & nb' & es6 & A6 & Hf' & E1 & E2). apply wp_bind. eapply acc_close; [done|].
      intros s7 A7. apply wp_ret. destruct (auth_frame n u (authenticated pw u) f' nb' _ s s7 Hw Hu eq_refl A7) as (? & ? & ? & ? & ?).
      split; [done|]. split; [done|]. exists (authenticated pw u), f', nb'. by repeat split.
Qed.
End register.

(** ** Recognising a nickname *)

(** What the record says of a user who takes a nickname: 0 when the address is
    the recorded one and the nickname is not secured, -2 when the user must
    send the password, -1 when there is no record. *)
Definition standing (f : bytes → option bytes) (nick : cstring) (u : user) : Z :=
  match until_nul <$> f (key nick (str "home")) with
  | None => -1
  | Some v =>
      if strcaseeq v (u_loginid u ++ str "@" ++ u_nodeid u) then
        match f (key nick (str "secure")) with Some _ => -2 | None => 0 end
      else -2
  end.

Lemma wp_nicklookup_auth `{BuildConfig} `{Host} `{Commands} n nick u f nb es Q (s s1 : st) :
  env_ok host_db → acc_to f nb es s s1 → 0 < n → entry_at n (u_tab s) = Some u → nick ≠ [] →
  (length nick ≤ MAX_NICKLEN)%nat → all_short f →
  (∀ s2, acc_to f nb es s s2 → Q (standing f nick u) s2) → wp (nicklookup (- n) nick) Q s1.
Proof.
  intros HE Ha Hn Hu Hne Hl Hf HQ. unfold nicklookup. destruct nick as [|c nick]; [done|]. cbn [is_empty].
  destruct (Nat.ltb_spec MAX_NICKLEN (length (c :: nick))); [lia|]. set (nk := c :: nick) in *.
  apply wp_bind. eapply acc_open; [done|]. intros s2 A2. apply wp_bind. eapply (acc_get_str HE); [done|intros v; apply Hf|].
  intros s3 A3. apply wp_bind. eapply (acc_get_str HE); [done|intros v; apply Hf|]. intros s4 A4. unfold standing in HQ.
  apply wp_bind. destruct (f (key nk (str "home"))) as [v|]; cbn [fmap option_fmap option_map] in *.
  - destruct (Z.leb_spec 0 (- n)); [lia|]. apply wp_bind. rewrite Z.opp_involutive. eapply acc_user; [done|done|].
    destruct (strcaseeq (until_nul v) _); cbn [negb].
    + apply wp_bind. eapply (acc_get_str HE); [done|intros w; apply Hf|]. intros s5 A5. apply wp_ret, wp_bind.
      eapply acc_close; [done|]. intros s6 A6. apply wp_ret. specialize (HQ s6 A6).
      by destruct (f (key nk (str "secure"))).
    + apply wp_ret, wp_bind. eapply acc_close; [done|]. intros s5 A5. by apply wp_ret, HQ.
  - destruct (Z.leb_spec 0 (- n)); [lia|]. cbn [when]. apply wp_bind, wp_ret, wp_ret, wp_bind. eapply acc_close; [done|].
    intros s5 A5. by apply wp_ret, HQ.
Qed.

(** C17: registering and authenticating.  Without a record the nickname is
    registered with the (cut) password, unless only a verification is asked;
    with a record the password decides: the right one marks the user as
    registered and gives back every group that waits for this moderator, and no
    other group changes; a wrong one marks the user as unregistered and changes
    neither the database nor a group.  No other user changes, and the tables
    stay well formed.  (The password is not empty and the user has a nickname
    within its bound.) *)
Theorem nickwrite_correct `{BuildConfig} `{Host} `{Commands} n u password verifyOnly f nb (s : st) :
  env_ok host_db → world s → db_ready f nb s → nb ≤ 2 ^ 26 → all_short f → entry_at n (u_tab s) = Some u →
  password ≠ [] → nick_ok (u_nickname u) → u_nickname u ≠ [] →
  ∃ r s', nickwrite n password verifyOnly s = Some (r, s') ∧ auth_result n u password verifyOnly f s r s'.
Proof. intros HE Hw Hr Hnb Hf Hu Hpw Hnick Hnn. by apply wp_run, (wp_nickwrite HE n u password verifyOnly f nb s). Qed.

Lemma wp_valuser `{BuildConfig} `{Host} `{Commands} user password f nb (s : st) :
  env_ok host_db → db_ready f nb s → all_short f →
  ∃ r s', valuser user password s = Some (r, s') ∧ acc_to f nb [] s s' ∧
    (r = 0 ↔ password ≠ [] ∧ until_nul <$> f (key user (str "password")) = Some (cut_password password)) ∧
    (r = 0 ∨ r = -1).
Proof.
  intros HE Hr Hf. apply wp_run. unfold valuser. destruct password as [|c p]; cbn [is_empty].
  { apply wp_ret. split; [by apply acc_start|]. split; [|by right]. split; [done|by intros []]. }
  apply wp_bind. eapply (acc_get_str HE); [by apply acc_start|intros v; apply Hf|]. intros s1 A1.
  destruct (f (key user (str "password"))) as [v|]; cbn [fmap option_fmap option_map]; apply wp_ret; (split; [done|]).
  - destruct (streq _ _) eqn:Eq; (split; [|auto]).
    + apply streq_eq in Eq. rewrite Eq. done.
    + split; [done|]. intros [_ [= E]]. apply streq_eq in E. by rewrite E in Eq.
  - split; [|by right]. split; [done|by intros [_ ?]].
Qed.

(** C18: what is registered is what is checked: after a nickname without a
    record has been registered, a password is accepted for it exactly when it
    is not empty and agrees with the registered one in its first
    [MAX_PASSWDLEN] bytes. *)
Theorem registered_password_checked `{BuildConfig} `{Host} `{Commands} n u password f nb (s : st) :
  env_ok host_db → world s → db_ready f nb s → nb ≤ 2 ^ 26 → all_short f → entry_at n (u_tab s) = Some u →
  password ≠ [] → x00 ∉ password → nick_ok (u_nickname u) → u_nickname u ≠ [] →
  f (key (u_nickname u) (str "password")) = None →
  ∃ s', nickwrite n password false s = Some (0, s') ∧
    ∀ p, ∃ r s'', valuser (u_nickname u) p s' = Some (r, s'') ∧
      (r = 0 ↔ p ≠ [] ∧ cut_password p = cut_password password).
Proof.
  intros HE Hw Hr Hnb Hf Hu Hpw Hnul Hnick Hnn Hnone.
  destruct (proj1 (wp_run _ _ _) (wp_nickwrite HE n u password false f nb s Hw Hr Hnb Hf Hu Hpw Hnick Hnn))
    as (r & s' & Hrun & _ & _ & u' & f' & nb' & _ & Hr' & Hf' & _ & Hres).
  rewrite Hnone in Hres. cbn [fmap option_fmap option_map] in Hres. destruct Hres as (_ & -> & _ & _ & Hp & _).
  exists s'. split; [done|]. intros p.
  destruct (wp_valuser (u_nickname u) p f' nb' s' HE Hr' Hf') as (r & s'' & Hv & _ & Hiff & _).
  exists r, s''. split; [done|]. rewrite Hiff, Hp. cbn [fmap option_fmap option_map].
  assert (x00 ∉ cut_password password) as Hc.
  { unfold cut_password. intros Hin. apply Hnul. apply elem_of_take in Hin as (i & Hi & _). by eapply list_elem_of_lookup_2. }
  rewrite until_nul_id by done. split; (intros [? E]; split; [done|]); [by injection E|by rewrite E].
Qed.

(** *** The theorems at work *)

(** A server whose user bob is registered and has no messages. *)
Definition demo_accounts (nicks : list (cstring * cstring)) (f : bytes → option bytes) : bytes → option bytes :=
  foldr (λ '(k, v) f, upd f k (Some v)) f nicks.
Definition demo_records : list (cstring * cstring) :=
  [(key (str "bob") (str "nummsg"), str "0"); (key (str "bob") (str "nick"), str "bob");
   (key (str "bob") (str "password"), str "pw")].
Definition demo_map : bytes → option bytes := demo_accounts demo_records (λ _, None).
Definition registered_state (d : icbdb) : st :=
  set_userdb d (set_u_tab (entry_set 1 (set_u_realname (str "registered") (demo_user "bob" "Lobby")) (u_tab demo_state)) demo_state).

Lemma demo_map_ready : ∃ d, ready demo_map 1024 d.
Proof.
  pose proof (ready_db_ready) as H0.
  destruct (icbdb_set_ready env_good env_good_ok _ _ _ (Some (str "bob")) (str "password") (VStr (str "pw")) H0) as (d1 & _ & H1); [lia|].
  destruct (icbdb_set_ready env_good env_good_ok _ _ _ (Some (str "bob")) (str "nick") (VStr (str "bob")) H1) as (d2 & _ & H2); [lia|].
  destruct (icbdb_set_ready env_good env_good_ok _ _ _ (Some (str "bob")) (str "nummsg") (VInt 0) H2) as (d3 & _ & H3); [lia|].
  exists d3. exact H3.
Qed.
Lemma demo_map_short : all_short demo_map.
Proof.
  assert (∀ v : bytes, (length v <=? 3)%nat = true → (length v < DBLKSIZ)%nat) as Hs.
  { intros v Hv%Nat.leb_le. pose proof DBLKSIZ_val. lia. }
  unfold demo_map, demo_records. cbn [demo_accounts foldr].
  apply upd_Some_short; [|apply Hs; reflexivity]. apply upd_Some_short; [|apply Hs; reflexivity].
  apply upd_Some_short; [|apply Hs; reflexivity]. by intros k v.
Qed.
Lemma registered_sized d : @arrays_sized demo_build (registered_state d).
Proof. by repeat split. Qed.
Lemma registered_world d : @world demo_build (registered_state d).
Proof.
  exact (@world_upd_user demo_build 1 (demo_user "bob" "Lobby") (set_u_realname (str "registered") (demo_user "bob" "Lobby"))
    demo_state demo_world eq_refl eq_refl).
Qed.
Lemma demo_mailbox : mailbox demo_map (str "bob") [].
Proof. split; [vm_compute; reflexivity|by intros i m]. Qed.
Lemma bob_ok : nick_ok (str "bob").
Proof. unfold nick_ok. cbn. lia. Qed.

Lemma nickwritemsg_correct_witness :
  ∃ d s', @nickwritemsg demo_build demo_host demo_commands 1 (str "bob") (str "hello") (registered_state d) = Some (0, s') ∧
    u_tab s' = u_tab (registered_state d).
Proof.
  destruct demo_map_ready as [d Hd]. exists d.
  destruct (@nickwritemsg_correct demo_build demo_host demo_commands 1
    (set_u_realname (str "registered") (demo_user "bob" "Lobby")) (str "bob") (str "hello") [] demo_map 1024
    (registered_state d) env_good_ok (registered_sized d) Hd) as (r & s' & f' & nb' & Hr & _ & Eu & _ & Hc).
  - lia.
  - exact demo_map_short.
  - reflexivity.
  - by intros [=].
  - exact bob_ok.
  - by intros [=].
  - by intros [=].
  - exists (str "bob"). vm_compute. reflexivity.
  - exact demo_mailbox.
  - by apply Z.ltb_lt.
  - exists s'. destruct Hc as [(Hle & _)|(_ & -> & _)]; [by apply Z.leb_le in Hle|]. split; [exact Hr|exact Eu].
Defined.

Lemma nickreadmsg_correct_witness :
  ∃ d s', @nickreadmsg demo_build demo_host demo_commands 1 (registered_state d) = Some (0, s') ∧
    g_tab s' = g_tab (registered_state d).
Proof.
  destruct demo_map_ready as [d Hd]. exists d.
  destruct (@nickreadmsg_correct demo_build demo_host demo_commands 1
    (set_u_realname (str "registered") (demo_user "bob" "Lobby")) [] demo_map 1024
    (registered_state d) env_good_ok (registered_sized d) Hd) as (s' & f' & nb' & Hr & _ & _ & Eg & _).
  - lia.
  - exact demo_map_short.
  - by split; [apply Z.leb_le|apply Z.ltb_lt].
  - reflexivity.
  - by intros [=].
  - exact bob_ok.
  - exact demo_mailbox.
  - by apply Z.ltb_lt.
  - constructor.
  - exists s'. split; [exact Hr|exact Eg].
Defined.

Lemma nickwrite_correct_witness :
  ∃ d r s', @nickwrite demo_build demo_host demo_commands 1 (str "wrong") false (registered_state d) = Some (r, s') ∧ r = -1.
Proof.
  destruct demo_map_ready as [d Hd]. exists d.
  destruct (@nickwrite_correct demo_build demo_host demo_commands 1
    (set_u_realname (str "registered") (demo_user "bob" "Lobby")) (str "wrong") false demo_map 1024
    (registered_state d) env_good_ok (registered_world d) Hd) as (r & s' & Hr & _ & _ & u' & f' & nb' & _ & _ & _ & _ & Hc).
  - lia.
  - exact demo_map_short.
  - reflexivity.
  - by intros [=].
  - exact bob_ok.
  - by intros [=].
  - exists r, s'. split; [exact Hr|]. exact (proj1 Hc).
Defined.

Lemma registered_password_checked_witness :
  ∃ s', @nickwrite demo_build demo_host demo_commands 1 (str "a-long-password") false (registered_state ready_db) = Some (0, s') ∧
    ∃ r s'', @valuser demo_host (str "bob") (str "a-long-passage") s' = Some (r, s'').
Proof.
  destruct (@registered_password_checked demo_build demo_host demo_commands 1
    (set_u_realname (str "registered") (demo_user "bob" "Lobby")) (str "a-long-password") (λ _, None) 128
    (registered_state ready_db) env_good_ok (registered_world ready_db) ready_db_ready) as (s' & Hr & Hv).
  - lia.
  - by intros k v.
  - reflexivity.
  - by intros [=].
  - by apply (bool_decide_unpack _).
  - exact bob_ok.
  - by intros [=].
  - reflexivity.
  - exists s'. split; [exact Hr|]. destruct (Hv (str "a-long-passage")) as (r & s'' & Hrun & _). by exists r, s''.
Defined.
