(* ===== verification/GroupChange.v ===== *)
(** * Changing groups (server/s_group.c, part 2: s_change)

    The command by which users enter groups and groups come and go, phase by
    phase as the function is written: the parsing of the name, the test for
    invitations, the creation of the group, the guards of restricted and of
    full groups, and the move.  The world invariant of the two tables and its
    preservation are at the end. *)

From Stdlib Require Import ZArith Lia String.
From S2P Require Import Config Prelude Utf8 StrUtil NameList CLib Monad Dbm IcbDb State Tables Send GroupCast World.

Local Open Scope Z_scope.
Local Open Scope icb_monad_scope.

(** ** The requested group *)

(** [s[0] == c] for a [c] that is not the terminator. *)
Definition starts_with (c : byte) (s : cstring) : bool :=
  match s with x :: _ => Byte.eqb x c | [] => false end.

(** [n_g_n] before filtering, and the visibility asked for by leading dots. *)
Definition requested_group (f1 : cstring) : cstring * Z :=
  let len := length f1 in
  if starts_with "." f1 then
    if starts_with "." (tail f1) then
      let how_many := if (len <? MAX_GROUPLEN + 2)%nat then len else (MAX_GROUPLEN + 2)%nat in
      (strncpy (tail (tail f1)) (how_many - 2), SUPERSECRET)
    else
      let how_many := if (len <? MAX_GROUPLEN + 1)%nat then len else (MAX_GROUPLEN + 1)%nat in
      (strncpy (tail f1) (how_many - 1), SECRET)
  else
    let how_many := if (len <? MAX_GROUPLEN)%nat then len else MAX_GROUPLEN in
    (strncpy f1 how_many, VISIBLE).

(** A group entry as it is filled in when user [n] creates the group. *)
Definition created_group (n : Z) (n_g_n : cstring) (visibility : Z) (g : group) : group :=
  let g := set_g_name n_g_n (set_g_visibility visibility g) in
  let g :=
    if strcaseeq BOOT_GROUP n_g_n then
      set_g_topic (strncpy (str "Boot-ees") MAX_TOPICLEN)
        (set_g_idleboot 3600 (set_g_volume LOUD (set_g_visibility SECRET (set_g_control PUBLIC g))))
    else if strcaseeq IDLE_GROUP n_g_n then
      set_g_topic (strncpy (str "Idlers") MAX_TOPICLEN)
        (set_g_idleboot 0 (set_g_volume QUIET (set_g_visibility VISIBLE (set_g_control PUBLIC g))))
    else if negb (strcaseeq (str "1") n_g_n) then set_g_mod n (set_g_control MODERATED g)
    else set_g_control PUBLIC g in
  set_g_n_invites [] (set_g_nr_invites [] (set_g_s_invites [] (set_g_sr_invites []
    (set_g_n_bars [] (set_g_n_nr_bars [] (set_g_s_bars [] (set_g_s_nr_bars [] g))))))).

Section code.
Context `{BuildConfig} `{Host} `{Commands}.

(** The invitation lists of a group, in the order they are consulted. *)
Definition invited (u : user) (g : group) : M st bool :=
  let registered := (0 <? length (u_realname u))%nat in
  if mru_present (u_nickname u) (g_n_invites g) then ret true
  else
    a <- lift (names_match (user_address u) (g_s_invites g)) ;;
    if a : bool then ret true
    else if mru_present (u_nickname u) (g_nr_invites g) && registered then ret true
    else
      b <- lift (names_match (user_address u) (g_sr_invites g)) ;;
      ret (b && registered).

(** The moderator of a loud group is told of a refused entry, unless the
    moderator has hushed the user. *)
Definition probe (n : Z) (u : user) (g : group) (text : cstring) : M st unit :=
  when ((0 <? g_mod g) && (g_volume g =? LOUD)) (
    let gm := g_mod g in
    um <- user_at gm ;;
    a <- lift (names_match (user_address u) (u_pri_s_hushed um)) ;;
    when (negb a) (
      b <- lift (names_match (ucaseit (u_nickname u)) (u_pri_n_hushed um)) ;;
      when (negb b) (
        sendstatus gm (str "Probe") (u_nickname u ++ text) ;;
        set_int lpriv_id set_lpriv_id gm n))).

(** The guard of a restricted group; [true] when the entry is refused. *)
Definition restricted_refuses (n ngi : Z) (u : user) (n_g_n : cstring) : M st bool :=
  g <- group_at ngi ;;
  if g_control g =? RESTRICTED then
    admin <- check_auth n ;;
    if admin || (g_mod g =? n) then ret false
    else
      is_invited <- invited u g ;;
      booting <- gets is_booting ;;
      if negb is_invited && (booting =? 0) then
        senderror n (n_g_n ++ str " is restricted.") ;;
        probe n u g (str " tried to enter the group.") ;;
        ret true
      else ret false
  else ret false.

(** The number of real users in the group, as the size guard counts them. *)
Definition real_members (name : cstring) (tab : list user) : Z :=
  Z.of_nat (length (List.filter (λ u, strcaseeq (u_group u) name) (take (MAX_USERS - 1) tab))).

(** The guard of a full group; [true] when the entry is refused. *)
Definition full_refuses (n ngi : Z) (u : user) (n_g_n : cstring) : M st bool :=
  g <- group_at ngi ;;
  if negb (g_control g =? RESTRICTED) && negb (g_control g =? PUBLIC) && (0 <? g_size g) then
    num <- gets (λ s, real_members (g_name g) (u_tab s)) ;;
    if (g_size g <=? num) && negb (g_mod g =? n) then
      probe n u g (str " tried to enter the group, but it's full.") ;;
      senderror n (str "Group " ++ n_g_n ++ str " is full.") ;;
      ret true
    else ret false
  else ret false.

Definition who_text (u : user) : cstring :=
  u_nickname u ++ str " (" ++ u_loginid u ++ str "@" ++ u_nodeid u ++ str ")".

(** The move into group [ngi] from group [ogi], if there is an old one. *)
Definition enter_group (n ngi ogi : Z) (login_status : bool) : M st Z :=
  g <- group_at ngi ;;
  if (MAX_GROUPLEN <? length (g_name g))%nat then ub else
  upd_user n (set_u_group (g_name g)) ;;
  u <- user_at n ;;
  when (negb (g_volume g =? QUIET)) (
    _ <- s_status_group 1 false n
           (if (u_login u <? LOGIN_COMPLETE) || login_status then str "Sign-on" else str "Arrive")
           (who_text u ++ str " entered group") ;;
    ret tt) ;;
  sendstatus n (str "Status")
    (str "You are now in group " ++ g_name g ++ (if g_mod g =? n then str " as moderator" else [])) ;;
  TheTime <- time ;;
  upd_user n (set_u_t_group TheTime) ;;
  when (0 <=? ogi) (
    og <- group_at ogi ;;
    left_ <- gets (λ s, count_users_in_group (g_name og) (u_tab s)) ;;
    if 0 <? left_ then
      when (negb (g_volume og =? QUIET)) (
        _ <- s_status_group 2 false ogi (str "Depart") (who_text u ++ str " just left") ;;
        when (g_mod og =? n) (
          sendimport n (str "Mod") (str "You are still mod of group " ++ g_name og)))
    else clear_group_item ogi) ;;
  ret 0.

(** The phases after the name has been read: find or create the group, apply
    the guards, move. *)
Definition change_to (n : Z) (n_g_n : cstring) (visibility : Z) (login_status : bool) : M st Z :=
  u <- user_at n ;;
  ngi0 <- gets (λ s, find_group n_g_n (g_tab s)) ;;
  when (0 <=? ngi0) (g <- group_at ngi0 ;; _ <- invited u g ;; ret tt) ;;
  ngi <- (if 0 <=? ngi0 then ret ngi0
          else
            e <- gets (λ s, find_empty_group (g_tab s)) ;;
            if e <? 0 then senderror n (str "Too many groups!") ;; ret (-1)
            else upd_group e (created_group n n_g_n visibility) ;; ret e) ;;
  if ngi <? 0 then ret (-1)
  else
    refused <- restricted_refuses n ngi u n_g_n ;;
    if refused : bool then ret (-1)
    else
      ogi <- gets (λ s, find_group (u_group u) (g_tab s)) ;;
      full <- full_refuses n ngi u n_g_n ;;
      if full : bool then ret (-1)
      else if negb (ngi =? ogi) then enter_group n ngi ogi login_status
      else senderror n (str "You are already in that group!") ;; ret (-1).

(** [s_change] with [argc] 2; [@name] asks for the group of a user and calls
    the function again with that name. *)
Fixpoint s_change_to (fuel : nat) (n : Z) (f1 : cstring) (login_status : bool) : M st Z :=
  if starts_with "@" f1 then
    target_user <- gets (λ s, find_user (tail f1) (u_tab s)) ;;
    if target_user <? 0 then senderror n (str "User not found.") ;; ret (-1)
    else
      ut <- user_at target_user ;;
      tg <- gets (λ s, find_group (u_group ut) (g_tab s)) ;;
      g <- group_at tg ;;
      if negb (g_visibility g =? VISIBLE) then senderror n (str "User not found.") ;; ret (-1)
      else match fuel with O => ub | S fuel => s_change_to fuel n (u_group ut) false end
  else if (length f1 =? 0)%nat then senderror n (str "Null groupnames are not allowed.") ;; ret (-1)
  else
    let '(n_g_n, visibility) := requested_group f1 in
    if (length n_g_n <? 1)%nat then senderror n (str "Group name too short.") ;; ret (-1)
    else change_to n (filtergroupname n_g_n) visibility login_status.

(** [argc] 3 marks a change made at login. *)
Definition s_change (n argc : Z) (f1 : cstring) : M st Z :=
  if argc =? 3 then s_change_to 1 n f1 true
  else if argc =? 2 then s_change_to 1 n f1 false
  else ret (-1).
End code.

(** ** What the phases do *)

Section phases.
Context `{BuildConfig} `{Host} `{Commands}.
Implicit Types s : st.

(** Every pattern on a hush or invitation list can be searched. *)
Definition searchable (l : list cstring) : Prop := ∀ name, is_Some (names_match name l).
Definition patterns_ok (ut : list user) (gt : list group) : Prop :=
  (∀ i u, entry_at i ut = Some u → searchable (u_pri_s_hushed u) ∧ searchable (u_pri_n_hushed u)) ∧
  (∀ j g, entry_at j gt = Some g → searchable (g_s_invites g) ∧ searchable (g_sr_invites g)).

Lemma wp_status_group_user tellme n u c m Q s :
  arrays_sized s → entry_at n (u_tab s) = Some u → (∀ es, Q 0 (log es s)) → wp (s_status_group 1 tellme n c m) Q s.
Proof. intros Hs Hu HQ. unfold wp. erewrite status_group_run; [done|done|simpl; by rewrite Hu]. Qed.
Lemma wp_status_group_group tellme n g c m Q s :
  arrays_sized s → entry_at n (g_tab s) = Some g → (∀ es, Q 0 (log es s)) → wp (s_status_group 2 tellme n c m) Q s.
Proof. intros Hs Hg HQ. unfold wp. erewrite status_group_run; [done|done|simpl; by rewrite Hg]. Qed.

(** The result of the invitation test, when the lists can be searched. *)
Definition is_invited (u : user) (g : group) : bool :=
  let registered := (0 <? length (u_realname u))%nat in
  mru_present (u_nickname u) (g_n_invites g) ||
  default false (names_match (user_address u) (g_s_invites g)) ||
  (mru_present (u_nickname u) (g_nr_invites g) && registered) ||
  (default false (names_match (user_address u) (g_sr_invites g)) && registered).

Lemma invited_run u g s :
  searchable (g_s_invites g) → searchable (g_sr_invites g) → invited u g s = Some (is_invited u g, s).
Proof.
  intros Ha Hb. unfold invited, is_invited. destruct (Ha (user_address u)) as [a Ea], (Hb (user_address u)) as [b Eb].
  rewrite Ea, Eb. destruct (mru_present (u_nickname u) (g_n_invites g)); [done|].
  erewrite bind_runs by done. destruct a; [done|].
  by destruct (mru_present (u_nickname u) (g_nr_invites g)), (0 <? length (u_realname u))%nat, b.
Qed.

Lemma wp_probe n u g text s ngi :
  world s ∨ (∃ e, arrays_sized s ∧ tables e (u_tab s) (g_tab s)) → patterns_ok (u_tab s) (g_tab s) →
  entry_at ngi (g_tab s) = Some g → wp (probe n u g text) (λ _, same_tables s) s.
Proof.
  intros Hw [Hp _] Hg.
  assert (arrays_sized s ∧ -1 ≤ g_mod g < Z.of_nat MAX_USERS) as [Hs Hm].
  { destruct Hw as [[? Ht]|(e & ? & Ht)]; (split; [done|by eapply t_mod]). }
  unfold probe. apply wp_when; [|done]. intros [Hpos%Z.ltb_lt _]%andb_true_iff.
  destruct (proj2 (entry_at_range (u_tab s) (g_mod g))) as [um Hum]; [destruct Hs as [-> _]; lia|].
  destruct (Hp _ _ Hum) as [Hps Hpn].
  destruct (Hps (user_address u)) as [a Ea], (Hpn (ucaseit (u_nickname u))) as [b Eb].
  apply wp_bind. eapply wp_user_at; [done|]. apply wp_bind. eapply wp_lift; [done|].
  apply wp_when; [intros _|done]. apply wp_bind. eapply wp_lift; [done|].
  apply wp_when; [intros _|done]. apply wp_bind, wp_sendstatus; [done|]. intros es.
  apply wp_set_int; [simpl; apply entry_at_range; destruct Hs as (_ & _ & -> & _); lia|].
  split; [done|]. split; [done|]. split; [done|]. intros (?&?&?&?&?). unfold arrays_sized. simpl.
  by rewrite length_entry_set.
Qed.

(** Who may enter a restricted group. *)
Definition may_enter_restricted (s : st) (n : Z) (u : user) (g : group) : bool :=
  is_admin u || (g_mod g =? n) || is_invited u g || negb (is_booting s =? 0).

Lemma wp_restricted n ngi u g name s :
  (∃ e, arrays_sized s ∧ tables e (u_tab s) (g_tab s)) → patterns_ok (u_tab s) (g_tab s) →
  entry_at n (u_tab s) = Some u → entry_at ngi (g_tab s) = Some g →
  wp (restricted_refuses n ngi u name)
    (λ r s', same_tables s s' ∧ r = (g_control g =? RESTRICTED) && negb (may_enter_restricted s n u g)) s.
Proof.
  intros Hw Hp Hu Hg. unfold restricted_refuses, may_enter_restricted.
  apply wp_bind. eapply wp_group_at; [done|]. destruct (g_control g =? RESTRICTED); [|done].
  apply wp_bind. unfold check_auth. apply wp_bind. eapply wp_user_at; [done|]. apply wp_ret.
  destruct (is_admin u || (g_mod g =? n)); [done|].
  destruct (proj2 Hp _ _ Hg) as [Hi1 Hi2]. apply wp_bind. unfold wp at 1. rewrite invited_run by done.
  apply wp_bind, wp_gets. destruct (is_invited u g); simpl; [done|]. rewrite negb_involutive.
  destruct (is_booting s =? 0) eqn:Eb; simpl; [|done].
  destruct Hw as (e & Hs & Ht). apply wp_bind, wp_senderror; [done|]. intros es.
  apply wp_bind. eapply wp_mono; [eapply (wp_probe _ _ _ _ (log es s) ngi); [right; by exists e|done|done]|].
  intros [] s' Hsame. apply wp_ret. split; [|done]. by transitivity (log es s).
Qed.

(** A size limit keeps everybody but the moderator out of a full group. *)
Definition is_full (s : st) (n : Z) (g : group) : bool :=
  negb (g_control g =? RESTRICTED) && negb (g_control g =? PUBLIC) && (0 <? g_size g) &&
  ((g_size g <=? real_members (g_name g) (u_tab s)) && negb (g_mod g =? n)).

Lemma wp_full n ngi u g name s :
  (∃ e, arrays_sized s ∧ tables e (u_tab s) (g_tab s)) → patterns_ok (u_tab s) (g_tab s) →
  entry_at ngi (g_tab s) = Some g →
  wp (full_refuses n ngi u name) (λ r s', same_tables s s' ∧ r = is_full s n g) s.
Proof.
  intros Hw Hp Hg. unfold full_refuses, is_full. apply wp_bind. eapply wp_group_at; [done|].
  destruct (negb (g_control g =? RESTRICTED) && negb (g_control g =? PUBLIC) && (0 <? g_size g)); [|done].
  apply wp_bind, wp_gets. destruct ((g_size g <=? _) && negb (g_mod g =? n)); [|done].
  apply wp_bind. eapply wp_mono; [by eapply wp_probe; [by right|..]|]. intros [] s1 Hsame.
  destruct Hw as (e & Hs & Ht). pose proof Hsame as (_ & _ & _ & Hs1).
  apply wp_bind, wp_senderror; [auto|]. intros es. apply wp_ret. split; [|done].
  by transitivity s1.
Qed.

Lemma wp_status_when (b : bool) n u c m Q s :
  arrays_sized s → entry_at n (u_tab s) = Some u → (∀ es, Q tt (log es s)) →
  wp (when b (_ <- s_status_group 1 false n c m ;; ret tt)) Q s.
Proof.
  intros Hs Hu HQ. apply wp_when; intros _.
  - apply wp_bind. eapply wp_status_group_user; [done|done|]. intros es. apply wp_ret, HQ.
  - specialize (HQ []). by rewrite log_nil in HQ.
Qed.

(** The entry of a user who has just entered a group. *)
Definition moved_user (s : st) (g : group) (u : user) : user :=
  set_u_t_group (clock s) (set_u_group (g_name g) u).

(** What is said to the old group, or its end. *)
Lemma wp_leave n ogi s :
  arrays_sized s → (0 ≤ ogi → is_Some (entry_at ogi (g_tab s))) → ∀ u,
  wp (when (0 <=? ogi) (
        og <- group_at ogi ;;
        left_ <- gets (λ s, count_users_in_group (g_name og) (u_tab s)) ;;
        if 0 <? left_ then
          when (negb (g_volume og =? QUIET)) (
            _ <- s_status_group 2 false ogi (str "Depart") (who_text u ++ str " just left") ;;
            when (g_mod og =? n) (
              sendimport n (str "Mod") (str "You are still mod of group " ++ g_name og)))
        else clear_group_item ogi))
    (λ _ s', u_tab s' = u_tab s ∧ g_tab s' = left_groups ogi (u_tab s) (g_tab s) ∧
             arrays_sized s' ∧ is_booting s' = is_booting s) s.
Proof.
  intros Hs Ho u. unfold left_groups. apply wp_when.
  - intros Hge%Z.leb_le. destruct (Ho Hge) as [og Eo]. rewrite Eo. apply wp_bind.
    eapply wp_group_at; [done|]. apply wp_bind, wp_gets.
    destruct (0 <? count_users_in_group (g_name og) (u_tab s)).
    + apply wp_when; [intros _|done]. apply wp_bind. eapply wp_status_group_group; [done|done|].
      intros es. apply wp_when; [intros _|done]. by apply wp_sendimport.
    + eapply wp_upd_group; [done|]. done.
  - intros Hlt%Z.leb_gt. unfold entry_at. by destruct (Z.ltb_spec ogi 0); [|lia].
Qed.

Lemma wp_enter n ngi ls u g s :
  arrays_sized s → tables ngi (u_tab s) (g_tab s) → entry_at n (u_tab s) = Some u →
  entry_at ngi (g_tab s) = Some g → g_name g ≠ [] → find_group (u_group u) (g_tab s) ≠ ngi →
  wp (enter_group n ngi (find_group (u_group u) (g_tab s)) ls)
    (λ r s', r = 0 ∧ world s' ∧ u_tab s' = entry_set n (moved_user s g u) (u_tab s) ∧
      g_tab s' = left_groups (find_group (u_group u) (g_tab s)) (u_tab s') (g_tab s) ∧
      is_booting s' = is_booting s) s.
Proof.
  intros Hs Ht Hu Hg Hne Hdiff. set (ogi := find_group _ _) in *. unfold enter_group.
  apply wp_bind. eapply wp_group_at; [done|]. destruct (t_name _ _ _ Ht _ _ Hg) as [Hlen _].
  destruct (Nat.ltb_spec MAX_GROUPLEN (length (g_name g))); [lia|].
  apply wp_bind. eapply wp_upd_user; [done|]. set (s1 := set_u_tab _ s).
  assert (entry_at n (u_tab s1) = Some (set_u_group (g_name g) u)) as Hu1 by (apply entry_set_at; by rewrite Hu).
  assert (arrays_sized s1) as Hs1.
  { destruct Hs as (?&?&?&?&?). unfold arrays_sized. simpl. by rewrite length_entry_set. }
  apply wp_bind. eapply wp_user_at; [done|]. apply wp_bind. eapply wp_status_when; [done|done|]. intros es.
  apply wp_bind, wp_sendstatus; [done|]. intros es'. apply wp_bind. unfold time. apply wp_gets.
  apply wp_bind. eapply wp_upd_user; [done|]. rewrite log_log. set (s2 := set_u_tab _ _).
  assert (u_tab s2 = entry_set n (moved_user s g u) (u_tab s)) as Eu2 by apply entry_set_twice.
  assert (arrays_sized s2) as Hs2.
  { destruct Hs as (?&?&?&?&?). unfold arrays_sized. rewrite Eu2, length_entry_set. done. }
  assert (g_tab s2 = g_tab s ∧ is_booting s2 = is_booting s) as [Eg2 Eb2] by done. clearbody s2.
  apply wp_bind. eapply wp_mono; [apply (wp_leave n ogi s2 Hs2)|].
  { intros Hge. rewrite Eg2. apply entry_at_range. split; [done|]. apply find_group_range. }
  intros [] s3 (E1 & E2 & Hs3 & Eb). apply wp_ret. split; [done|].
  rewrite Eg2, Eu2 in E2. rewrite Eu2 in E1.
  split; [|rewrite E1, Eb; done]. split; [done|]. rewrite E1, E2.
  eapply tables_move; [done|done|]. right. by exists g.
Qed.

(** The guards of the group that has the name, if there is one. *)
Definition admits (s : st) (n : Z) (u : user) (name : cstring) : Prop :=
  ∀ g, entry_at (find_group name (g_tab s)) (g_tab s) = Some g →
    (g_control g = RESTRICTED → may_enter_restricted s n u g = true) ∧ is_full s n g = false.

(** The outcome of a change of group. *)
Definition change_result (n : Z) (u : user) (name : cstring) (s : st) (r : Z) (s' : st) : Prop :=
  world s' ∧ is_booting s' = is_booting s ∧
  ((r = -1 ∧ u_tab s' = u_tab s ∧ g_tab s' = g_tab s) ∨
   (r = 0 ∧ admits s n u name ∧ casefold (u_group u) ≠ casefold name ∧
    ∃ u', u_tab s' = entry_set n u' (u_tab s) ∧ casefold (u_group u') = casefold name ∧
      u_nickname u' = u_nickname u)).

(** The reasons for which a well-formed name is refused. *)
Definition refusal (s : st) (n : Z) (u : user) (name : cstring) : Prop :=
  (find_group name (g_tab s) < 0 ∧ find_empty_group (g_tab s) < 0) ∨
  ∃ g, entry_at (find_group name (g_tab s)) (g_tab s) = Some g ∧
    (g_control g = RESTRICTED ∧ may_enter_restricted s n u g = false ∨ is_full s n g = true ∨
     casefold (u_group u) = casefold name).

Lemma created_group_facts n name vis g :
  let g' := created_group n name vis g in
  g_name g' = name ∧ g_control g' ≠ RESTRICTED ∧
  (g_control g' = PUBLIC ∧ g_mod g' = g_mod g ∨ g_control g' = MODERATED ∧ g_mod g' = n) ∧
  g_s_invites g' = [] ∧ g_sr_invites g' = [].
Proof.
  unfold created_group. destruct (strcaseeq BOOT_GROUP name); [by repeat split; try left|].
  destruct (strcaseeq IDLE_GROUP name); [by repeat split; try left|].
  destruct (negb (strcaseeq (str "1") name)); repeat split; try done; [by right|by left].
Qed.

(** The guards and the move, once the group exists. *)
Lemma wp_change_guarded n u g ngi name ls s :
  arrays_sized s → tables ngi (u_tab s) (g_tab s) → patterns_ok (u_tab s) (g_tab s) →
  entry_at n (u_tab s) = Some u → entry_at ngi (g_tab s) = Some g → g_name g ≠ [] →
  wp (refused <- restricted_refuses n ngi u name ;;
      if refused : bool then ret (-1)
      else
        ogi <- gets (λ s, find_group (u_group u) (g_tab s)) ;;
        full <- full_refuses n ngi u name ;;
        if full : bool then ret (-1)
        else if negb (ngi =? ogi) then enter_group n ngi ogi ls
        else senderror n (str "You are already in that group!") ;; ret (-1))
    (λ r s', is_booting s' = is_booting s ∧
      ((r = -1 ∧ same_tables s s' ∧
        (g_control g = RESTRICTED ∧ may_enter_restricted s n u g = false ∨
         is_full s n g = true ∨ find_group (u_group u) (g_tab s) = ngi)) ∨
       (r = 0 ∧ world s' ∧ (g_control g = RESTRICTED → may_enter_restricted s n u g = true) ∧
        is_full s n g = false ∧ find_group (u_group u) (g_tab s) ≠ ngi ∧
        ∃ u', u_tab s' = entry_set n u' (u_tab s) ∧ u_group u' = g_name g ∧ u_nickname u' = u_nickname u))) s.
Proof.
  intros Hs Ht Hp Hu Hg Hne. apply wp_bind.
  eapply wp_mono; [eapply wp_restricted; [by exists ngi|done|done|done]|]. intros r1 s1 [Hsame1 ->].
  pose proof Hsame1 as (Eu1 & Eg1 & Eb1 & Hs1). specialize (Hs1 Hs).
  destruct (g_control g =? RESTRICTED) eqn:Ec, (may_enter_restricted s n u g) eqn:Em; simpl.
  2:{ apply wp_ret. split; [done|]. left. split; [done|]. split; [done|]. left. by apply Z.eqb_eq in Ec. }
  all: apply wp_bind, wp_gets, wp_bind; rewrite Eg1.
  all: eapply wp_mono; [eapply (wp_full n ngi u g name s1); [exists ngi; by rewrite Eu1, Eg1|by rewrite Eu1, Eg1|by rewrite Eg1]|].
  all: intros r2 s2 [Hsame2 ->]; pose proof Hsame2 as (Eu2 & Eg2 & Eb2 & Hs2); specialize (Hs2 Hs1).
  all: assert (is_full s1 n g = is_full s n g) as -> by (unfold is_full; by rewrite Eu1).
  all: assert (same_tables s s2) as Hsame by (by transitivity s1).
  all: rewrite Eu1 in Eu2; rewrite Eg1 in Eg2; rewrite Eb1 in Eb2.
  all: destruct (is_full s n g) eqn:Ef; [apply wp_ret; split; [done|]; left; split; [done|]; split; [done|]; tauto|].
  all: destruct (Z.eqb_spec ngi (find_group (u_group u) (g_tab s))) as [Eo|Hno]; simpl;
    [apply wp_bind, wp_senderror; [done|]; intros es; apply wp_ret; split; [done|]; left; split; [done|];
     split; [by transitivity s2|]; auto|].
  all: rewrite <-Eg2; eapply wp_mono;
    [eapply (wp_enter n ngi ls u g s2); [done|by rewrite Eu2, Eg2|by rewrite Eu2|by rewrite Eg2|done|rewrite Eg2; congruence]|].
  all: intros r s' (-> & Hw & Eu' & _ & Eb'); split; [congruence|]; right; split; [done|]; split; [done|];
    split; [try done; by intros ?%Z.eqb_eq; congruence|]; split; [done|]; split; [rewrite Eg2; congruence|];
    exists (moved_user s2 g u); rewrite Eu', Eu2; done.
Qed.

(** The tables with a new group that nobody is in yet. *)
Lemma created_tables n u name vis e g ut gt :
  tables (-1) ut gt → patterns_ok ut gt → entry_at n ut = Some u → name ≠ [] → group_name_ok name →
  find_group name gt < 0 → entry_at e gt = Some g → g_name g = [] →
  tables e ut (entry_set e (created_group n name vis g) gt) ∧
  patterns_ok ut (entry_set e (created_group n name vis g) gt) ∧ casefold (u_group u) ≠ casefold name.
Proof.
  intros Ht Hp Hu Hne Hok Hlt Hg Egn.
  assert (-1 ≤ n < Z.of_nat MAX_USERS) as Hn.
  { rewrite <-(t_users _ _ _ Ht). assert (is_Some (entry_at n ut)) as Hr by eauto. apply entry_at_range in Hr. lia. }
  destruct (created_group_facts n name vis g) as (Fn & Fc & Fm & Fs & Fsr).
  set (g' := created_group n name vis g) in *. split; [|split; [split|]].
  - apply (tables_create _ _ e g g'); [done|done|done|by rewrite Fn|by rewrite Fn|by rewrite Fn|].
    pose proof (t_mod _ _ _ Ht _ _ Hg). destruct Fm as [[_ ->]|[_ ->]]; lia.
  - apply Hp.
  - intros j x [(-> & -> & _)|[_ Hx]]%entry_set_inv; [|by eapply (proj2 Hp)].
    rewrite Fs, Fsr. split; intros nm; by eexists.
  - intros E. apply find_group_missing in Hlt as [?|Hlt]; [done|].
    destruct (t_home _ _ _ Ht n u Hu) as (j & x & Hx & Ex); [intros E'; rewrite E' in E; by destruct name|].
    apply entry_at_lookup in Hx as [_ Hx]. apply (Hlt x); [by eapply list_elem_of_lookup_2|congruence].
Qed.

Lemma wp_change_to n u name vis ls s :
  world s → patterns_ok (u_tab s) (g_tab s) → entry_at n (u_tab s) = Some u →
  name ≠ [] → group_name_ok name →
  wp (change_to n name vis ls) (λ r s', change_result n u name s r s' ∧ (r = -1 → refusal s n u name)) s.
Proof.
  intros [Hs Ht] Hp Hu Hne Hok.
  unfold change_to. apply wp_bind. eapply wp_user_at; [done|]. apply wp_bind, wp_gets.
  destruct (Z.leb_spec 0 (find_group name (g_tab s))) as [Hge|Hlt].
  - destruct (find_group_entry _ _ Hge) as (g & Hg & Ec & _). destruct (proj2 Hp _ _ Hg) as [Hi1 Hi2].
    assert (g_name g ≠ []) as Hgn by (intros E; rewrite E in Ec; by destruct name).
    apply wp_bind. simpl. apply wp_bind. eapply wp_group_at; [done|]. apply wp_bind. unfold wp at 1.
    rewrite invited_run by done. apply wp_ret, wp_bind, wp_ret.
    destruct (Z.ltb_spec (find_group name (g_tab s)) 0); [lia|].
    eapply wp_mono; [by eapply wp_change_guarded; [|apply tables_weaken| | | |]|].
    intros r s' [Eb [(-> & Hsame & Hwhy)|(-> & Hw & Ha & Hf & Hd & u' & Eu' & Egr & En)]].
    + split.
      { split; [by eapply same_world|]. split; [done|]. left. by destruct Hsame as (? & ? & _). }
      intros _. right. exists g. split; [done|]. destruct Hwhy as [?|[?|Ho]]; [tauto|tauto|].
      right; right. rewrite <-Ho in Hge. destruct (find_group_entry _ _ Hge) as (g2 & Hg2 & Ec2 & _).
      rewrite Ho, Hg in Hg2. injection Hg2 as <-. congruence.
    + split; [|done]. split; [done|]. split; [done|]. right. split; [done|]. split.
      { intros g' Hg'. rewrite Hg in Hg'. by injection Hg' as <-. }
      split; [intros E; apply Hd; eapply find_unique; [done|done|congruence|]; intros E'; rewrite E' in E; by destruct name|].
      exists u'. rewrite Egr. by repeat split.
  - apply wp_bind. simpl. apply wp_ret, wp_bind, wp_bind, wp_gets.
    destruct (Z.ltb_spec (find_empty_group (g_tab s)) 0).
    { apply wp_bind, wp_senderror; [done|]. intros es. apply wp_ret. simpl. apply wp_ret.
      split; [|intros _; by left]. split; [by apply (same_world s)|]. split; [done|]. by left. }
    set (e := find_empty_group (g_tab s)) in *.
    destruct (first_index_entry (λ g, (length (g_name g) =? 0)%nat) (g_tab s)) as (g & Hg & Eg); [done|].
    change (entry_at e (g_tab s) = Some g) in Hg.
    assert (g_name g = []) as Egn by (by apply Nat.eqb_eq, nil_length_inv in Eg).
    destruct (created_tables n u name vis e g (u_tab s) (g_tab s)) as (Ht' & Hp' & Hcf); [done..|].
    destruct (created_group_facts n name vis g) as (Fn & Fc & Fm & Fs & Fsr).
    set (g' := created_group n name vis g) in *.
    apply wp_bind. eapply wp_upd_group; [done|]. fold g'. clearbody g'. apply wp_ret.
    destruct (Z.ltb_spec e 0); [lia|].
    eapply wp_mono; [apply (wp_change_guarded n u g' e name ls);
      [done|exact Ht'|exact Hp'|done|apply entry_set_at; by rewrite Hg|by rewrite Fn]|].
    simpl. intros r s' [Eb [(-> & _ & Hbad)|(-> & Hw & _ & _ & _ & u' & Eu' & Egr & En)]].
    + exfalso. destruct Hbad as [[Hc _]|[Hf|Hfg]]; [done| |].
      * unfold is_full in Hf. destruct Fm as [[Fp _]|[_ Fm]]; [rewrite Fp in Hf|rewrite Fm, Z.eqb_refl in Hf];
          rewrite ?andb_false_r in Hf; done.
      * destruct (decide (u_group u = [])) as [E0|Hun]; [rewrite E0 in Hfg; simpl in Hfg; lia|].
        destruct (find_home _ _ _ _ _ Ht' Hu Hun) as (x & Hx & Ex). rewrite Hfg, entry_set_at in Hx by (by rewrite Hg).
        injection Hx as <-. rewrite Fn in Ex. congruence.
    + split; [|done]. split; [done|]. split; [done|]. right. split; [done|]. split.
      { intros x Hx. exfalso. unfold entry_at in Hx. by destruct (Z.ltb_spec (find_group name (g_tab s)) 0); [|lia]. }
      split; [done|]. exists u'. rewrite Egr, Fn. by repeat split.
Qed.
End phases.

(** ** The whole command *)

Lemma filtergroupname_ok name :
  (length name ≤ MAX_GROUPLEN)%nat → group_name_ok (filtergroupname name).
Proof.
  intros Hl. unfold filtergroupname. split; [by rewrite length_map|].
  apply Forall_forall. intros c Hc%list_elem_of_fmap. destruct Hc as (d & -> & _).
  by apply filter_name_char_ok.
Qed.

Lemma requested_group_length f1 : (length (requested_group f1).1 ≤ MAX_GROUPLEN)%nat.
Proof.
  unfold requested_group, strncpy. change (MAX_GROUPLEN + 2)%nat with 10%nat. change (MAX_GROUPLEN + 1)%nat with 9%nat.
  change MAX_GROUPLEN with 8%nat.
  assert (∀ k (x : cstring), (k ≤ 8)%nat → (length (take k x) ≤ 8)%nat) as Ht by (intros; rewrite length_take; lia).
  repeat case_if; apply Ht; repeat match goal with H : (_ <? _)%nat = true |- _ => apply Nat.ltb_lt in H end; lia.
Qed.

Section change.
Context `{BuildConfig} `{Host} `{Commands}.
Implicit Types s : st.

(** The name asked for: that of the group of the user, after an at sign. *)
Definition asked_name (ut : list user) (f1 : cstring) : cstring :=
  if starts_with "@" f1 then
    match entry_at (find_user (tail f1) ut) ut with Some v => u_group v | None => [] end
  else f1.
Definition destination (ut : list user) (f1 : cstring) : cstring :=
  filtergroupname (requested_group (asked_name ut f1)).1.

(** Everybody with a nickname is in a group. *)
Definition all_grouped (ut : list user) : Prop :=
  ∀ i u, entry_at i ut = Some u → u_nickname u ≠ [] → u_group u ≠ [].

(** Group names do not begin with an at sign. *)
Lemma group_no_at exc ut gt i u :
  tables exc ut gt → entry_at i ut = Some u → starts_with "@" (u_group u) = false.
Proof.
  intros Ht Hu. destruct (u_group u) as [|c rest] eqn:E; [done|]. simpl.
  destruct (Byte.eqb c "@") eqn:Ec; [|done]. apply Byte.byte_dec_bl in Ec as ->. exfalso.
  destruct (t_home _ _ _ Ht i u Hu) as (j & g & Hg & Ecf); [by rewrite E|].
  destruct (t_name _ _ _ Ht _ _ Hg) as [_ Hf]. rewrite E in Ecf. destruct (g_name g) as [|d rest']; [done|].
  inversion Hf as [|? ? Hd _]; subst. injection Ecf as Ed _. clear - Hd Ed.
  assert (tolower d = "@"%byte → name_char OKGROUPCHARS d = false) as Hx by (by destruct d).
  rewrite Hx in Hd; done.
Qed.

Lemma refused_result n u name es s : world s → change_result n u name s (-1) (log es s).
Proof. intros Hw. split; [by apply (same_world s)|]. split; [done|]. by left. Qed.

Lemma wp_refused n u name text s :
  world s → wp (senderror n text ;; ret (-1)) (change_result n u name s) s.
Proof.
  intros Hw. apply wp_bind, wp_senderror; [apply Hw|]. intros es. by apply wp_ret, refused_result.
Qed.

Lemma wp_change_plain fuel n u f1 ls s :
  world s → patterns_ok (u_tab s) (g_tab s) → entry_at n (u_tab s) = Some u → starts_with "@" f1 = false →
  wp (s_change_to fuel n f1 ls) (change_result n u (filtergroupname (requested_group f1).1) s) s.
Proof.
  intros Hw Hp Hu Hat.
  assert (wp (if (length f1 =? 0)%nat then senderror n (str "Null groupnames are not allowed.") ;; ret (-1)
    else
      let '(n_g_n, visibility) := requested_group f1 in
      if (length n_g_n <? 1)%nat then senderror n (str "Group name too short.") ;; ret (-1)
      else change_to n (filtergroupname n_g_n) visibility ls)
    (change_result n u (filtergroupname (requested_group f1).1) s) s) as Hmain.
  { case_if; [by apply wp_refused|]. pose proof (requested_group_length f1) as Hl.
    destruct (requested_group f1) as [name vis]. simpl in Hl. case_if; [by apply wp_refused|].
    eapply wp_mono; [apply wp_change_to; [done|done|done| |by apply filtergroupname_ok]|by intros r s' [? _]].
    by destruct name. }
  destruct fuel; cbn [s_change_to]; by rewrite Hat.
Qed.

Lemma wp_change n u f1 ls s :
  world s → patterns_ok (u_tab s) (g_tab s) → entry_at n (u_tab s) = Some u → all_grouped (u_tab s) →
  wp (s_change_to 1 n f1 ls) (change_result n u (destination (u_tab s) f1) s) s.
Proof.
  intros Hw Hp Hu Hgr. pose proof Hw as [Hs Ht]. unfold destination, asked_name.
  destruct (starts_with "@" f1) eqn:Hat; [|by apply wp_change_plain].
  cbn [s_change_to]. rewrite Hat. set (rest := tail f1). apply wp_bind, wp_gets.
  destruct (Z.ltb_spec (find_user rest (u_tab s)) 0) as [Hlt|Hge]; [by apply wp_refused|].
  destruct (find_user_entry _ _ Hge) as (v & Hv & Ev). rewrite Hv.
  assert (u_nickname v ≠ []) as Hvn.
  { intros E. rewrite E in Ev. destruct rest; [simpl in Hge; lia|done]. }
  destruct (find_home _ _ _ _ _ Ht Hv (Hgr _ _ Hv Hvn)) as (g & Hg & _).
  apply wp_bind. eapply wp_user_at; [done|]. apply wp_bind, wp_gets, wp_bind. eapply wp_group_at; [done|].
  destruct (negb (g_visibility g =? VISIBLE)); [by apply wp_refused|].
  apply (wp_change_plain 0 n u (u_group v) false); [done|done|done|]. by eapply group_no_at.
Qed.
End change.

(** C2: in a server whose tables are consistent and whose hush and invitation
    patterns are well formed, a change of group always completes without
    undefined behaviour (also through [@user], whose recursion ends after one
    step), keeps the tables consistent, moves no user but the caller, and either
    refuses with -1 and leaves both tables as they were or returns 0 with the
    caller in the group asked for and every guard of that group satisfied. *)
Theorem s_change_correct `{BuildConfig} `{Host} `{Commands} n argc f1 u (s : st) :
  world s → patterns_ok (u_tab s) (g_tab s) → all_grouped (u_tab s) →
  entry_at n (u_tab s) = Some u → argc = 2 ∨ argc = 3 →
  ∃ r s', s_change n argc f1 s = Some (r, s') ∧ world s' ∧
    (∀ m, m ≠ n → entry_at m (u_tab s') = entry_at m (u_tab s)) ∧
    ((r = -1 ∧ u_tab s' = u_tab s ∧ g_tab s' = g_tab s) ∨
     (r = 0 ∧ admits s n u (destination (u_tab s) f1) ∧
      ∃ u', entry_at n (u_tab s') = Some u' ∧ casefold (u_group u') = casefold (destination (u_tab s) f1))).
Proof.
  intros Hw Hp Hgr Hu Hargc.
  assert (∃ ls, s_change n argc f1 = s_change_to 1 n f1 ls) as [ls ->].
  { unfold s_change. destruct Hargc as [-> | ->]; by eexists. }
  destruct (proj1 (wp_run _ _ _) (wp_change n u f1 ls s Hw Hp Hu Hgr)) as (r & s' & Hrun & Hw' & _ & Hres).
  exists r, s'. split; [done|]. split; [done|].
  destruct Hres as [(-> & E1 & E2)|(-> & Ha & _ & u' & Eu' & Ec & _)].
  - split; [by rewrite E1|]. by left.
  - rewrite Eu'. split; [intros m Hm; by apply entry_set_ne|]. right. split; [done|]. split; [done|].
    exists u'. split; [apply entry_set_at; by rewrite Hu|done].
Qed.

Lemma demo_patterns : patterns_ok (u_tab demo_state) (g_tab demo_state).
Proof.
  split.
  - intros i u [(-> & ->)|[(-> & ->)|[(-> & ->)|[(-> & ->)|(-> & ->)]]]]%demo_users; split; intros nm; by eexists.
  - intros j g [(-> & ->)|[(-> & ->)|[(-> & ->)| ->]]]%demo_groups; split; intros nm; by eexists.
Qed.

Lemma demo_grouped : all_grouped (u_tab demo_state).
Proof. intros i u [(-> & ->)|[(-> & ->)|[(-> & ->)|[(-> & ->)|(-> & ->)]]]]%demo_users; done. Qed.

Lemma s_change_correct_witness :
  ∃ r s', @s_change demo_build demo_host demo_commands 1 2 (str "New") demo_state = Some (r, s') ∧ @world demo_build s'.
Proof.
  destruct (@s_change_correct demo_build demo_host demo_commands 1 2 (str "New") (demo_user "bob" "Lobby") demo_state
    demo_world demo_patterns demo_grouped eq_refl (or_introl eq_refl)) as (r & s' & Hr & Hw & _).
  exists r, s'. by split.
Defined.

(** C12: a restricted group admits nobody but the administrator, its moderator
    and the invited, outside a boot: anybody else is refused and neither table
    changes. *)
Theorem restricted_group_guarded `{BuildConfig} `{Host} `{Commands} n argc f1 u g (s : st) :
  world s → patterns_ok (u_tab s) (g_tab s) → all_grouped (u_tab s) →
  entry_at n (u_tab s) = Some u → argc = 2 ∨ argc = 3 →
  entry_at (find_group (destination (u_tab s) f1) (g_tab s)) (g_tab s) = Some g → g_control g = RESTRICTED →
  is_admin u = false → g_mod g ≠ n → is_invited u g = false → is_booting s = 0 →
  ∃ s', s_change n argc f1 s = Some (-1, s') ∧ u_tab s' = u_tab s ∧ g_tab s' = g_tab s.
Proof.
  intros Hw Hp Hgr Hu Hargc Hg Hc Hadm Hmod Hinv Hboot.
  assert (∃ ls, s_change n argc f1 = s_change_to 1 n f1 ls) as [ls ->].
  { unfold s_change. destruct Hargc as [-> | ->]; by eexists. }
  destruct (proj1 (wp_run _ _ _) (wp_change n u f1 ls s Hw Hp Hu Hgr)) as (r & s' & Hrun & _ & _ & Hres).
  destruct Hres as [(-> & E1 & E2)|(-> & Ha & _)]; [by exists s'|]. exfalso.
  destruct (Ha g Hg) as [Hm _]. specialize (Hm Hc). unfold may_enter_restricted in Hm.
  rewrite Hadm, Hinv, Hboot in Hm. by destruct (Z.eqb_spec (g_mod g) n).
Qed.

Lemma restricted_group_guarded_witness :
  ∃ s', @s_change demo_build demo_host demo_commands 1 2 (str "den") demo_state = Some (-1, s') ∧
    u_tab s' = u_tab demo_state ∧ g_tab s' = g_tab demo_state.
Proof.
  apply (@restricted_group_guarded demo_build demo_host demo_commands 1 2 (str "den") (demo_user "bob" "Lobby")
    (demo_group "Den" RESTRICTED 3) demo_state demo_world demo_patterns demo_grouped eq_refl (or_introl eq_refl));
    [vm_compute; reflexivity|done|vm_compute; reflexivity|done|vm_compute; reflexivity|done].
Defined.

(** A new group belongs to its creator; the groups 1, ~IDLE~ and ~RESEDA~ are
    public and have no moderator. *)
Lemma created_group_control n name vis :
  let g := created_group n name vis cleared_group in
  let special := strcaseeq BOOT_GROUP name || strcaseeq IDLE_GROUP name || strcaseeq (str "1") name in
  g_control g = (if special then PUBLIC else MODERATED) ∧ g_mod g = (if special then -1 else n).
Proof.
  unfold created_group. destruct (strcaseeq BOOT_GROUP name); [done|].
  destruct (strcaseeq IDLE_GROUP name); [done|]. by destruct (strcaseeq (str "1") name).
Qed.
