(* ===== verification/GroupMod.v ===== *)
(** * Moderating groups (server/s_group.c, part 3)

    Invitations and their cancellation, passing on the moderation, booting a
    user out of the group and the talk list of controlled groups. *)

From Stdlib Require Import ZArith Lia String.
From S2P Require Import Config Prelude Utf8 StrUtil NameList CLib Monad Dbm IcbDb State Tables Send GroupCast World GroupChange.

Local Open Scope Z_scope.
Local Open Scope icb_monad_scope.

(** ** Flags *)

(** The variables the flags set, -1 while unset. *)
Record flags : Type := Flags { fl_quiet : Z; fl_mode : Z; fl_r : Z; fl_delete : Z; fl_addmode : Z }.
Definition no_flags : flags := Flags (-1) (-1) (-1) (-1) (-1).

Definition set_flag (get : flags → Z) (set : Z → flags → flags) (v : Z) (f : flags) : option flags :=
  if get f =? -1 then Some (set v f) else None.
Definition set_quiet v f := Flags v (fl_mode f) (fl_r f) (fl_delete f) (fl_addmode f).
Definition set_mode v f := Flags (fl_quiet f) v (fl_r f) (fl_delete f) (fl_addmode f).
Definition set_r v f := Flags (fl_quiet f) (fl_mode f) v (fl_delete f) (fl_addmode f).
Definition set_delete v f := Flags (fl_quiet f) (fl_mode f) (fl_r f) v (fl_addmode f).
Definition set_addmode v f := Flags (fl_quiet f) (fl_mode f) (fl_r f) (fl_delete f) v.

(** The switches of the three commands; no result stands for the usage error. *)
Definition cancel_flag (c : byte) (f : flags) : option flags :=
  if Byte.eqb c "q" then set_flag fl_quiet set_quiet 1 f
  else if Byte.eqb c "s" then set_flag fl_mode set_mode 1 f
  else if Byte.eqb c "n" then set_flag fl_mode set_mode 0 f
  else None.
Definition invite_flag (c : byte) (f : flags) : option flags :=
  if Byte.eqb c "r" then set_flag fl_r set_r 1 f else cancel_flag c f.
Definition talk_flag (c : byte) (f : flags) : option flags :=
  if Byte.eqb c "q" then set_flag fl_quiet set_quiet 1 f
  else if Byte.eqb c "a" then set_flag fl_addmode set_addmode 1 f
  else if Byte.eqb c "d" then set_flag fl_delete set_delete 1 f
  else if Byte.eqb c "r" then set_flag fl_r set_r 1 f
  else None.

Fixpoint flag_word {F} (switch : byte → F → option F) (w : cstring) (f : F) : option F :=
  match w with
  | [] => Some f
  | c :: w' => f' ← switch c f; flag_word switch w' f'
  end.

(** [while (who[0] == '-') { flags = getword(who); ...; who = get_tail(who); }] *)
Fixpoint flag_loop {F} (switch : byte → F → option F) (fuel : nat) (who : cstring) (f : F)
    : M st (option (cstring * F)) :=
  if starts_with "-" who then
    match fuel with
    | O => ub
    | S fuel =>
        w <- getword_m who ;;
        match flag_word switch (tail w) f with
        | None => ret None
        | Some f => flag_loop switch fuel (get_tail who) f
        end
    end
  else ret (Some (who, f)).

Definition parse_flags (switch : byte → flags → option flags) (who : cstring) : M st (option (cstring * flags)) :=
  flag_loop switch (length who) who no_flags.

(** An unset flag counts as 0. *)
Definition flag_or0 (v : Z) : Z := if v =? -1 then 0 else v.

(** ** Cancelling invitations *)

(** [nldelete(first, who) == 0 || nldelete(second, who) == 0] *)
Definition cancel_nick (who : cstring) (g : group) : option group :=
  if mru_present who (g_n_invites g) then Some (set_g_n_invites (mru_remove who (g_n_invites g)) g)
  else if mru_present who (g_nr_invites g) then Some (set_g_nr_invites (mru_remove who (g_nr_invites g)) g)
  else None.
Definition cancel_site (who : cstring) (g : group) : option group :=
  if mru_present who (g_s_invites g) then Some (set_g_s_invites (mru_remove who (g_s_invites g)) g)
  else if mru_present who (g_sr_invites g) then Some (set_g_sr_invites (mru_remove who (g_sr_invites g)) g)
  else None.

Section code.
Context `{BuildConfig} `{Host} `{Commands}.

Definition s_cancel (n argc : Z) (f1 : cstring) : M st Z :=
  if argc =? 2 then
    u <- user_at n ;;
    gi <- gets (λ s, find_group (u_group u) (g_tab s)) ;;
    g <- group_at gi ;;
    let is_restricted := g_control g =? RESTRICTED in
    let is_moderator := g_mod g =? n in
    p <- parse_flags cancel_flag f1 ;;
    match p with
    | None => senderror n (str "Usage: cancel {-q} {-n nickname | -s address}") ;; ret (-1)
    | Some (who, f) =>
        let mode := flag_or0 (fl_mode f) in
        let who := if mode =? 1 then ucaseit who else who in
        let quiet := flag_or0 (fl_quiet f) in
        if is_restricted && is_moderator then
          match (if mode =? 0 then cancel_nick who g else None), (if mode =? 1 then cancel_site who g else None) with
          | Some g', _ =>
              upd_group gi (λ _, g') ;;
              when (quiet =? 0) (sendstatus n (str "FYI") (who ++ str " cancelled")) ;;
              d <- gets (λ s, find_user who (u_tab s)) ;;
              when (d <? 0) (sendstatus n (str "Warning") (who ++ str " is not signed on")) ;;
              ret 0
          | None, Some g' =>
              upd_group gi (λ _, g') ;;
              when (quiet =? 0) (sendstatus n (str "FYI") (who ++ str " cancelled")) ;;
              ret 0
          | None, None => sendstatus n (str "Warning") (who ++ str " was not invited") ;; ret 0
          end
        else
          when (negb is_restricted) (senderror n (str "The group isn't restricted.")) ;;
          when (negb is_moderator) (senderror n (str "You aren't the moderator.")) ;;
          ret 0
    end
  else ret 0.

(** ** Inviting *)

(** The list the invitation goes on, by [mode] and [r]. *)
Definition add_invite (mode r : Z) (who : cstring) (g : group) : group :=
  if (mode =? 0) && (r =? 0) then set_g_n_invites (mru_put MAX_INVITES who (g_n_invites g)) g
  else if (mode =? 0) && (r =? 1) then set_g_nr_invites (mru_put MAX_INVITES who (g_nr_invites g)) g
  else if (mode =? 1) && (r =? 0) then set_g_s_invites (mru_put MAX_INVITES who (g_s_invites g)) g
  else if (mode =? 1) && (r =? 1) then set_g_sr_invites (mru_put MAX_INVITES who (g_sr_invites g)) g
  else g.

Definition s_invite (n argc : Z) (f1 : cstring) : M st Z :=
  if argc =? 2 then
    u <- user_at n ;;
    gi <- gets (λ s, find_group (u_group u) (g_tab s)) ;;
    g <- group_at gi ;;
    let is_restricted := g_control g =? RESTRICTED in
    let is_moderator := g_mod g =? n in
    p <- parse_flags invite_flag f1 ;;
    match p with
    | None => senderror n (str "Usage: invite {-q} {-r} {-n nickname | -s address}") ;; ret (-1)
    | Some ([], f) =>
        if negb is_restricted then
          sendstatus n (str "Invite") (str "Invite lists only function in restricted groups.") ;; ret (-1)
        else
          c <- list_invites n gi ;;
          when (c <? 1) (sendstatus n (str "Invite") (str "No one on invite list")) ;;
          ret (-1)
    | Some (who, f) =>
        let mode := flag_or0 (fl_mode f) in
        let r := flag_or0 (fl_r f) in
        let who := if mode =? 1 then ucaseit who else who in
        let quiet := flag_or0 (fl_quiet f) in
        when (is_restricted && is_moderator) (
          upd_group gi (add_invite mode r who) ;;
          when (quiet =? 0) (sendstatus n (str "FYI")
            (who ++ (if r =? 0 then str " invited" else str " invited (registered only)")))) ;;
        when ((mode =? 0) && (negb is_restricted || is_moderator)) (
          dest <- gets (λ s, find_user who (u_tab s)) ;;
          if 0 <=? dest then
            ud <- user_at dest ;;
            when ((0 <? length (u_realname ud))%nat || (r =? 0))
              (sendstatus dest (str "RSVP") (str "You are invited to group " ++ u_group u ++ str " by " ++ u_nickname u))
          else sendstatus n (str "Warning") (who ++ str " is not signed on.")) ;;
        when ((mode =? 1) && negb is_restricted) (senderror n (str "The group isn't restricted.")) ;;
        when (negb is_moderator && is_restricted) (senderror n (str "You aren't the moderator.")) ;;
        ret 0
    end
  else ret 0.

(** ** Passing the moderation *)

(** [check_auth(n) || g_tab[gi].mod == n]: the group is not looked up for the
    administrator. *)
Definition admin_or_mod (n gi : Z) : M st bool :=
  a <- check_auth n ;;
  if a : bool then ret true else (g <- group_at gi ;; ret (g_mod g =? n)).

Definition group_status (n gi : Z) (class_string message_string : cstring) : M st unit :=
  g <- group_at gi ;;
  when (negb (g_volume g =? QUIET)) (_ <- s_status_group 1 true n class_string message_string ;; ret tt).

Definition s_pass (n argc : Z) (f1 : cstring) : M st Z :=
  if argc =? 2 then
    u <- user_at n ;;
    gi <- gets (λ s, find_group (u_group u) (g_tab s)) ;;
    is_moderator <- admin_or_mod n gi ;;
    if negb is_moderator then senderror n (str "You aren't the moderator.") ;; ret 0
    else
      match f1 with
      | [] =>
          upd_group gi (set_g_mod (-1)) ;;
          group_status n gi (str "Pass") (u_nickname u ++ str " just relinquished the mod.") ;;
          g <- group_at gi ;;
          when (negb (g_control g =? PUBLIC) && negb (g_control g =? MODERATED) && negb (g_control g =? RESTRICTED)) (
            upd_group gi (set_g_control PUBLIC) ;;
            group_status n gi (str "Change") (str "Group is now public.")) ;;
          ret 0
      | _ :: _ =>
          cp <- getword_m f1 ;;
          match cp with
          | [] => ret 0
          | _ :: _ =>
              if strcaseeq cp (str "server") then senderror n (str "Cannot pass to Server.") ;; ret (-1)
              else
                dest <- gets (λ s, find_user cp (u_tab s)) ;;
                if 0 <=? dest then
                  upd_group gi (set_g_mod dest) ;;
                  g <- group_at gi ;;
                  ud <- user_at dest ;;
                  sendstatus dest (str "Pass")
                    (u_nickname u ++ str " just passed you moderation of group " ++ g_name g) ;;
                  group_status n gi (str "Pass") (u_nickname u ++ str " has passed moderation to " ++ u_nickname ud) ;;
                  ret 0
                else senderror n (cp ++ str " is not on!") ;; ret 0
          end
      end
  else ret 0.

(** ** Booting *)

Definition fmt_text (e : fmt_error) : cstring :=
  match e with
  | FmtBad => str "Message can't include %d, %f and such. Use %% to quote a single %."
  | FmtCount k => str "Message must contain (only) " ++ itoa k ++ str " %s for the username."
  end.

(** The text announced to the group. *)
Definition boot_text (nick msg : cstring) (num_s : Z) : option cstring :=
  match msg with
  | [] => Some (nick ++ str " was booted.")
  | _ :: _ => if num_s =? 0 then Some (nick ++ str " " ++ msg) else fst <$> sprintf_s msg [nick]
  end.

Definition s_boot (n argc : Z) (f1 : cstring) : M st Z :=
  if argc =? 2 then
    u <- user_at n ;;
    gi <- gets (λ s, find_group (u_group u) (g_tab s)) ;;
    is_moderator <- admin_or_mod n gi ;;
    if negb is_moderator then senderror n (str "You aren't the moderator.") ;; ret 0
    else
      user <- getword_m f1 ;;
      let msg := get_tail f1 in
      dest <- gets (λ s, find_user user (u_tab s)) ;;
      if dest <? 0 then sendstatus n (str "Warning") (user ++ str " is not signed on") ;; ret 0
      else if strcaseeq user (str "ADMIN") then
        senderror n (str "You nobk! You can't boot the admin!") ;;
        sendstatus dest (str "Boot Attempt!") (u_nickname u ++ str " tried to boot you!") ;;
        ret 0
      else
        let '(r, num_s) := match msg with [] => (None, 0) | _ :: _ => filterfmt msg 1 end in
        match r, negb (num_s =? 0) with
        | Some e, true => senderror n (fmt_text e) ;; ret 0
        | _, _ =>
            ud <- user_at dest ;;
            destgi <- gets (λ s, find_group (u_group ud) (g_tab s)) ;;
            if gi =? destgi then
              g <- group_at destgi ;;
              match cancel_nick (u_nickname ud) g with
              | Some g' =>
                  upd_group destgi (λ _, g') ;;
                  sendstatus n (str "FYI") (u_nickname ud ++ str " cancelled")
              | None => ret tt
              end ;;
              text <- lift (boot_text (u_nickname ud) msg num_s) ;;
              group_status n destgi (str "Boot") text ;;
              sendstatus dest (str "Boot") (u_nickname u ++ str " booted you.") ;;
              modify (set_is_booting 1) ;;
              _ <- s_change dest 2 BOOT_GROUP ;;
              modify (set_is_booting 0) ;;
              modify (λ s, set_stats (let t := stats s in
                Stats (start_time t) (signons t) (boots t + 1) (idleboots t) (idlemods t) (drops t)) s) ;;
              ret 0
            else senderror n (f1 ++ str " is not in your group") ;; ret 0
        end
  else ret 0.

(** ** The talk list *)

(** [talk_usage] *)
Definition talk_usage : cstring := str "Usage: talk {-a} {-q} {-r} {-d} nickname".

(** The loop that empties a talk list: it passes the text inside a list node
    to [talk_delete], which frees the node and then goes on reading the text. *)
Fixpoint talk_clear (l : list cstring) : M st unit :=
  match l with
  | [] => ret tt
  | [] :: l' => talk_clear l'
  | (_ :: _) :: _ => ub
  end.

Definition s_talk (n argc : Z) (f1 : cstring) : M st Z :=
  if argc =? 2 then
    u <- user_at n ;;
    gi <- gets (λ s, find_group (u_group u) (g_tab s)) ;;
    g <- group_at gi ;;
    let is_public := g_control g =? PUBLIC in
    let is_moderator := g_mod g =? n in
    p <- parse_flags talk_flag f1 ;;
    match p with
    | None => senderror n talk_usage ;; ret (-1)
    | Some (who, f) =>
        let r := flag_or0 (fl_r f) in
        let quiet := flag_or0 (fl_quiet f) in
        match who with
        | [] => senderror n talk_usage ;; ret 0
        | _ :: _ =>
            if is_public then senderror n (str "The group is public.") ;; ret 0
            else if negb is_moderator then senderror n (str "You aren't the moderator.") ;; ret 0
            else if fl_delete f =? 1 then
              deleted <- talk_delete who gi ;;
              (if deleted =? 0 then senderror n (who ++ str " is not in talk list")
               else when (quiet =? 0) (sendstatus n (str "FYI") (who ++ str " removed from talk list"))) ;;
              ret 0
            else
              when (fl_addmode f =? -1) (talk_clear (g_n_talk g) ;; talk_clear (g_nr_talk g)) ;;
              (if r =? 0 then
                 upd_group gi (λ g, set_g_n_talk (mru_put MAX_INVITES who (g_n_talk g)) g) ;;
                 when (quiet =? 0) (sendstatus n (str "FYI") (who ++ str " can talk"))
               else
                 upd_group gi (λ g, set_g_nr_talk (mru_put MAX_INVITES who (g_nr_talk g)) g) ;;
                 when (quiet =? 0) (sendstatus n (str "FYI") (who ++ str " can talk (registered only)"))) ;;
              dest <- gets (λ s, find_user who (u_tab s)) ;;
              (if 0 <=? dest then
                 ud <- user_at dest ;;
                 when ((0 <? length (u_realname ud))%nat || (r =? 0))
                   (sendstatus dest (str "TALK") (str "You can talk in group " ++ u_group u ++
                      str " (courtesy of " ++ u_nickname u ++ str ")"))
               else sendstatus n (str "Warning") (who ++ str " is not signed on.")) ;;
              ret 0
        end
    end
  else ret 0.
End code.

(** ** The flags are read in finitely many steps *)

(** No word of the line overflows the buffer of [getword]. *)
Definition short_words (s : cstring) : Prop := ∀ k, (getword_nul_index (drop k s) < WORD_SIZE)%nat.

Lemma short_words_tail s : short_words s → short_words (get_tail s).
Proof.
  intros Hs k. destruct (line_decompose s) as (w & bl & E & _).
  assert (get_tail s = drop (length (w ++ bl)) s) as ->.
  { pose proof E as E'. rewrite app_assoc in E'. rewrite E' at 2. by rewrite drop_app_length. }
  rewrite drop_drop. apply Hs.
Qed.

Lemma getword_m_run w s : short_words w → getword_m w s = Some (getword w, s).
Proof.
  intros Hw. specialize (Hw 0%nat). rewrite drop_0 in Hw. unfold getword_m.
  by destruct (Nat.leb_spec WORD_SIZE (getword_nul_index w)); [lia|].
Qed.

Lemma flag_loop_run {F} (switch : byte → F → option F) fuel who f s :
  (length who ≤ fuel)%nat → short_words who →
  ∃ p, flag_loop switch fuel who f s = Some (p, s).
Proof.
  revert who f. induction fuel as [|fuel IH]; intros who f Hl Hw.
  - destruct who; [by eexists|simpl in Hl; lia].
  - cbn [flag_loop]. destruct (starts_with "-" who) eqn:E; [|by eexists].
    erewrite bind_runs by (by apply getword_m_run). destruct (flag_word switch (tail (getword who)) f); [|by eexists].
    apply IH; [|by apply short_words_tail]. assert (who ≠ []) as Hne by (by intros ->).
    pose proof (get_tail_shorter who Hne). lia.
Qed.

Lemma parse_flags_run switch who s : short_words who → ∃ p, parse_flags switch who s = Some (p, s).
Proof. intros Hw. by apply flag_loop_run. Qed.

(** ** Authorisation *)

Section guarded.
Context `{BuildConfig} `{Host} `{Commands}.
Implicit Types s : st.

(** The call completes and changes nothing but the log. *)
Definition harmless {A} (m : M st A) (s : st) : Prop := ∃ r es, m s = Some (r, log es s).

Lemma harmless_wp {A} (m : M st A) s : wp m (λ _ s', ∃ es, s' = log es s) s → harmless m s.
Proof. intros (r & s' & Hr & es & ->)%wp_run. by exists r, es. Qed.

Lemma wp_harmless_error n text (r : Z) s :
  arrays_sized s → wp (senderror n text ;; ret r) (λ _ s', ∃ es, s' = log es s) s.
Proof. intros Hs. apply wp_bind, wp_senderror; [done|]. intros es. apply wp_ret. by exists es. Qed.

(** The listing of the invitations. *)
Lemma wp_add_item n item buf Q s :
  arrays_sized s → (∀ r es, Q r (log es s)) → wp (add_item n item buf) Q s.
Proof.
  intros Hs HQ. unfold add_item. pose proof (λ r, HQ r []) as HQ0. setoid_rewrite log_nil in HQ0.
  case_if; [by apply wp_ret|]. case_if; [|by apply wp_ret].
  apply wp_bind, wp_sends_cmdout; [done|]. intros es. by apply wp_ret.
Qed.

Lemma wp_add_names n header suffix bc l i line Q s :
  arrays_sized s → (∀ r es, Q r (log es s)) → wp (add_names n header suffix bc i l line) Q s.
Proof.
  revert i line s. induction l as [|cp l IH]; intros i line s Hs HQ; cbn [add_names].
  - apply wp_ret. specialize (HQ line []). by rewrite log_nil in HQ.
  - apply wp_bind, wp_add_item; [done|]. intros r es. apply wp_bind. destruct cp as [|c cp].
    + apply wp_ret. apply IH; [done|]. intros r' es'. rewrite log_log. apply HQ.
    + apply wp_bind, wp_add_item; [done|]. intros r' es'. apply wp_ret.
      apply IH; [done|]. intros r'' es''. rewrite !log_log. apply HQ.
Qed.

Lemma wp_list_two n header l lr Q s :
  arrays_sized s → (∀ es, Q tt (log es s)) → wp (list_two n header l lr) Q s.
Proof.
  intros Hs HQ. unfold list_two. apply wp_bind, wp_add_names; [done|]. intros line es.
  apply wp_bind, wp_add_names; [done|]. intros line' es'. rewrite log_log. apply wp_when; intros _.
  - apply wp_sends_cmdout; [done|]. intros es''. rewrite log_log. apply HQ.
  - apply HQ.
Qed.

Lemma wp_list_invites n gi g Q s :
  arrays_sized s → entry_at gi (g_tab s) = Some g → (∀ r es, Q r (log es s)) → wp (list_invites n gi) Q s.
Proof.
  intros Hs Hg HQ. unfold list_invites. apply wp_bind. eapply wp_group_at; [done|].
  apply wp_bind, wp_list_two; [done|]. intros es. apply wp_bind, wp_list_two; [done|]. intros es'.
  rewrite log_log. apply wp_ret, HQ.
Qed.

Lemma wp_when_send (b : bool) m Q s :
  (∀ Q', (∀ es, Q' tt (log es s)) → wp m Q' s) → (∀ es, Q tt (log es s)) → wp (when b m) Q s.
Proof.
  intros Hm HQ. apply wp_when; intros _; [by apply Hm|]. specialize (HQ []). by rewrite log_nil in HQ.
Qed.

(** The commands begin by finding the caller's group. *)
Lemma wp_my_group {A} n u g (k : user → Z → M st A) Q s :
  world s → entry_at n (u_tab s) = Some u → entry_at (find_group (u_group u) (g_tab s)) (g_tab s) = Some g →
  wp (k u (find_group (u_group u) (g_tab s))) Q s →
  wp (u <- user_at n ;; gi <- gets (λ s, find_group (u_group u) (g_tab s)) ;; k u gi) Q s.
Proof.
  intros Hw Hu Hg Hk. apply wp_bind. eapply wp_user_at; [done|]. by apply wp_bind, wp_gets.
Qed.

Lemma wp_not_mod n gi u g Q s :
  entry_at n (u_tab s) = Some u → entry_at gi (g_tab s) = Some g → is_admin u = false → g_mod g ≠ n →
  Q false s → wp (admin_or_mod n gi) Q s.
Proof.
  intros Hu Hg Ha Hm HQ. unfold admin_or_mod, check_auth. apply wp_bind, wp_bind. eapply wp_user_at; [done|].
  apply wp_ret. rewrite Ha. apply wp_bind. eapply wp_group_at; [done|]. apply wp_ret.
  by destruct (Z.eqb_spec (g_mod g) n).
Qed.

(** Close the goals left by a sequence of optional sends. *)
Ltac sends :=
  repeat match goal with
  | |- wp (bind _ _) _ _ => apply wp_bind
  | |- wp (when _ _) _ _ => apply wp_when_send; [intros ? ?|intros ?]
  | |- wp (senderror _ _) _ _ => apply wp_senderror; [assumption|intros ?]
  | |- wp (sendstatus _ _ _) _ _ => apply wp_sendstatus; [assumption|intros ?]
  | |- wp (gets _) _ _ => apply wp_gets
  | |- wp (ret _) _ _ => apply wp_ret
  end; try done; rewrite ?log_log; eauto.

Lemma s_cancel_guarded n u g f1 s :
  world s → entry_at n (u_tab s) = Some u →
  entry_at (find_group (u_group u) (g_tab s)) (g_tab s) = Some g → g_mod g ≠ n → short_words f1 →
  harmless (s_cancel n 2 f1) s.
Proof.
  intros Hw Hu Hg Hm Hf. pose proof Hw as [Hs _]. apply harmless_wp. unfold s_cancel. cbn [Z.eqb Pos.eqb].
  eapply wp_my_group; [done|done|done|]. apply wp_bind. eapply wp_group_at; [done|].
  destruct (parse_flags_run cancel_flag f1 s Hf) as [p Hp]. apply wp_bind. unfold wp at 1. rewrite Hp.
  destruct (Z.eqb_spec (g_mod g) n); [done|].
  destruct p as [[who f]|]; [|by apply wp_harmless_error]. rewrite andb_false_r. sends.
Qed.

Lemma s_talk_guarded n u g f1 s :
  world s → entry_at n (u_tab s) = Some u →
  entry_at (find_group (u_group u) (g_tab s)) (g_tab s) = Some g → g_mod g ≠ n → short_words f1 →
  harmless (s_talk n 2 f1) s.
Proof.
  intros Hw Hu Hg Hm Hf. pose proof Hw as [Hs _]. apply harmless_wp. unfold s_talk. cbn [Z.eqb Pos.eqb].
  eapply wp_my_group; [done|done|done|]. apply wp_bind. eapply wp_group_at; [done|].
  destruct (parse_flags_run talk_flag f1 s Hf) as [p Hp]. apply wp_bind. unfold wp at 1. rewrite Hp.
  destruct (Z.eqb_spec (g_mod g) n); [done|].
  destruct p as [[[|c who] f]|]; [by apply wp_harmless_error| |by apply wp_harmless_error].
  destruct (g_control g =? PUBLIC); by apply wp_harmless_error.
Qed.

Lemma s_invite_guarded n u g f1 s :
  world s → entry_at n (u_tab s) = Some u →
  entry_at (find_group (u_group u) (g_tab s)) (g_tab s) = Some g → g_mod g ≠ n → short_words f1 →
  harmless (s_invite n 2 f1) s.
Proof.
  intros Hw Hu Hg Hm Hf. pose proof Hw as [Hs _]. apply harmless_wp. unfold s_invite. cbn [Z.eqb Pos.eqb].
  eapply wp_my_group; [done|done|done|]. apply wp_bind. eapply wp_group_at; [done|].
  destruct (parse_flags_run invite_flag f1 s Hf) as [p Hp]. apply wp_bind. unfold wp at 1. rewrite Hp.
  destruct (Z.eqb_spec (g_mod g) n); [done|].
  destruct p as [[[|c who] f]|]; [| |by apply wp_harmless_error].
  - destruct (negb (g_control g =? RESTRICTED)).
    + apply wp_bind, wp_sendstatus; [done|]. intros es. apply wp_ret. eauto.
    + apply wp_bind. eapply wp_list_invites; [done|done|]. intros r es. sends.
  - rewrite andb_false_r. set (who' := if _ =? 1 then _ else _).
    apply wp_bind, wp_ret, wp_bind, wp_when.
    + intros _. apply wp_bind, wp_gets. destruct (Z.leb_spec 0 (find_user who' (u_tab s))) as [Hge|_].
      * destruct (find_user_entry _ _ Hge) as (v & Hv & _). apply wp_bind. eapply wp_user_at; [done|].
        sends.
      * sends.
    + intros _. sends.
Qed.

Lemma s_pass_guarded n u g f1 s :
  world s → entry_at n (u_tab s) = Some u →
  entry_at (find_group (u_group u) (g_tab s)) (g_tab s) = Some g → g_mod g ≠ n → is_admin u = false →
  harmless (s_pass n 2 f1) s.
Proof.
  intros Hw Hu Hg Hm Ha. pose proof Hw as [Hs _]. apply harmless_wp. unfold s_pass. cbn [Z.eqb Pos.eqb].
  eapply wp_my_group; [done|done|done|]. apply wp_bind. eapply wp_not_mod; [done..|].
  by apply wp_harmless_error.
Qed.

Lemma s_boot_guarded n u g f1 s :
  world s → entry_at n (u_tab s) = Some u →
  entry_at (find_group (u_group u) (g_tab s)) (g_tab s) = Some g → g_mod g ≠ n → is_admin u = false →
  harmless (s_boot n 2 f1) s.
Proof.
  intros Hw Hu Hg Hm Ha. pose proof Hw as [Hs _]. apply harmless_wp. unfold s_boot. cbn [Z.eqb Pos.eqb].
  eapply wp_my_group; [done|done|done|]. apply wp_bind. eapply wp_not_mod; [done..|].
  by apply wp_harmless_error.
Qed.
End guarded.


Lemma short_line s : (length s < WORD_SIZE)%nat → short_words s.
Proof.
  intros Hs k. unfold getword_nul_index, getword.
  destruct (getword_loop_take (drop k s) 0) as (rest & E & _); [lia|].
  pose proof (f_equal length E) as El. rewrite length_app, length_drop in El. lia.
Qed.


(** ** Booting *)

Section boot.
Context `{BuildConfig} `{Host} `{Commands}.
Implicit Types s : st.

(** The message of a boot is acceptable: empty, or with one [%s], or with none. *)
Definition boot_message_ok (msg : cstring) : Prop :=
  match msg with
  | [] => True
  | _ :: _ => (filterfmt msg 1).1 = None ∨ (filterfmt msg 1).2 = 0
  end.

Lemma boot_text_some nick msg :
  boot_message_ok msg →
  let '(r, num_s) := match msg with [] => (None, 0) | _ :: _ => filterfmt msg 1 end in
  (r = None ∨ num_s = 0) ∧ is_Some (boot_text nick msg num_s).
Proof.
  destruct msg as [|c msg]; [intros _; split; [by left|by eexists]|]. unfold boot_message_ok, boot_text.
  unfold filterfmt. destruct (fmt_counts (c :: msg)) as [ns nb] eqn:E.
  destruct (Z.ltb_spec 0 nb) as [|Hnb]; cbn [fst snd]; [intros [?|?]; done|].
  destruct (Z.eqb_spec ns 1) as [->|Hns]; cbn [negb fst snd]; intros Hok.
  - split; [by left|]. change (1 =? 0) with false; cbn iota. apply fmap_is_Some. destruct (sprintf_counts (c :: msg) [nick]) as [out Ho].
    + rewrite E. simpl. pose proof (fmt_counts_nonneg (c :: msg)) as [_ Hn]. rewrite E in Hn. simpl in Hn. lia.
    + rewrite Ho. by eexists.
  - destruct Hok as [?| ->]; [done|]. split; [by right|by eexists].
Qed.

Lemma cancel_nick_keeps who g g' :
  cancel_nick who g = Some g' →
  g_name g' = g_name g ∧ g_mod g' = g_mod g ∧ g_control g' = g_control g ∧ g_size g' = g_size g ∧
  g_s_invites g' = g_s_invites g ∧ g_sr_invites g' = g_sr_invites g.
Proof. unfold cancel_nick. repeat case_if; by intros [= <-]. Qed.

(** What a boot of [dest] does to the tables. *)
Definition booted (dest : Z) (ud : user) (s s' : st) : Prop :=
  world s' ∧ is_booting s' = 0 ∧
  (∀ m, m ≠ dest → entry_at m (u_tab s') = entry_at m (u_tab s)) ∧
  (casefold (u_group ud) ≠ casefold BOOT_GROUP →
   0 ≤ find_group BOOT_GROUP (g_tab s) ∨ 0 ≤ find_empty_group (g_tab s) →
   (∀ bg, entry_at (find_group BOOT_GROUP (g_tab s)) (g_tab s) = Some bg → is_full s dest bg = false) →
   ∃ ud', entry_at dest (u_tab s') = Some ud' ∧ casefold (u_group ud') = casefold BOOT_GROUP).

(** The end of a boot: the victim changes to the boot group with
    [is_booting] set. *)
Lemma wp_boot_change dest ud s :
  world s → patterns_ok (u_tab s) (g_tab s) → entry_at dest (u_tab s) = Some ud →
  wp (modify (set_is_booting 1) ;; _ <- s_change dest 2 BOOT_GROUP ;; modify (set_is_booting 0))
    (λ _, booted dest ud s) s.
Proof.
  intros Hw Hp Hu. apply wp_bind, wp_modify, wp_bind.
  change (s_change dest 2 BOOT_GROUP) with (change_to dest BOOT_GROUP VISIBLE false).
  eapply wp_mono.
  { apply (wp_change_to dest ud BOOT_GROUP VISIBLE false (set_is_booting 1 s)); [exact Hw|exact Hp|exact Hu|done|].
    split; [vm_compute; lia|repeat constructor]. }
  intros r s' [(Hw' & _ & Hres) Hwhy]. apply wp_modify.
  destruct Hres as [(-> & E1 & E2)|(-> & _ & _ & u' & Eu' & Ec & _)].
  - split; [exact Hw'|]. split; [done|].
    split; [intros m _; change (entry_at m (u_tab s') = entry_at m (u_tab s)); by rewrite E1|].
    intros Hne Hslot Hfull. exfalso. destruct (Hwhy eq_refl) as [[? ?]|(bg & Hbg & Hbad)]; [simpl in *; lia|].
    simpl in Hbg. destruct Hbad as [[_ Hm]|[Hf|?]]; [| |done].
    + unfold may_enter_restricted in Hm. simpl in Hm. by rewrite orb_true_r in Hm.
    + specialize (Hfull bg Hbg). unfold is_full in *. simpl in Hf. congruence.
  - split; [done|]. split; [done|]. change (u_tab (set_is_booting 0 s')) with (u_tab s'). rewrite Eu'. simpl. split.
    + intros m Hm. by apply entry_set_ne.
    + intros _ _ _. exists u'. split; [|done]. apply entry_set_at. by rewrite Hu.
Qed.

(** The state in which the victim is moved: the invitation is gone, the
    messages are sent. *)
Definition booted_state (gi : Z) (g' : group) (es : list event) (s : st) : st :=
  log es (set_g_tab (entry_set gi g' (g_tab s)) s).

Lemma wp_group_status n gi u g c m Q s :
  arrays_sized s → entry_at n (u_tab s) = Some u → entry_at gi (g_tab s) = Some g → (∀ es, Q tt (log es s)) →
  wp (group_status n gi c m) Q s.
Proof.
  intros Hs Hu Hg HQ. unfold group_status. apply wp_bind. eapply wp_group_at; [done|].
  apply wp_when_send; [|done]. intros Q' HQ'. apply wp_bind. eapply wp_status_group_user; [done|done|].
  intros es. apply wp_ret, HQ'.
Qed.

Lemma wp_is_mod n gi u g Q s :
  entry_at n (u_tab s) = Some u → entry_at gi (g_tab s) = Some g → is_admin u = true ∨ g_mod g = n →
  Q true s → wp (admin_or_mod n gi) Q s.
Proof.
  intros Hu Hg Ha HQ. unfold admin_or_mod, check_auth. apply wp_bind, wp_bind. eapply wp_user_at; [done|].
  apply wp_ret. destruct (is_admin u); [by apply wp_ret|]. destruct Ha as [?|Hm]; [done|].
  apply wp_bind. eapply wp_group_at; [done|]. apply wp_ret. by rewrite Hm, Z.eqb_refl.
Qed.

(** What the boot does to a group table whose entry [gi] loses invitations. *)
Lemma booted_world gi g g' es s :
  world s → patterns_ok (u_tab s) (g_tab s) → entry_at gi (g_tab s) = Some g →
  g_name g ≠ [] →
  g_name g' = g_name g → g_mod g' = g_mod g → g_s_invites g' = g_s_invites g → g_sr_invites g' = g_sr_invites g →
  world (booted_state gi g' es s) ∧ patterns_ok (u_tab (booted_state gi g' es s)) (g_tab (booted_state gi g' es s)).
Proof.
  intros [Hs Ht] Hp Hg Hne En Em Es Er. split.
  - split; [done|]. simpl. by apply (tables_upd_group _ _ _ gi g g').
  - split; [apply Hp|]. simpl. intros j x [(-> & -> & _)|[_ Hx]]%entry_set_inv; [|by eapply (proj2 Hp)].
    rewrite Es, Er. by eapply (proj2 Hp).
Qed.

(** The fields of a group that cancelling an invitation leaves alone. *)
Definition same_settings (g g' : group) : Prop :=
  g_name g' = g_name g ∧ g_mod g' = g_mod g ∧ g_control g' = g_control g ∧ g_size g' = g_size g ∧
  g_s_invites g' = g_s_invites g ∧ g_sr_invites g' = g_sr_invites g.

Lemma wp_boot_cancel n gi who g s :
  arrays_sized s → entry_at gi (g_tab s) = Some g →
  wp (match cancel_nick who g with
      | Some g' => upd_group gi (λ _, g') ;; sendstatus n (str "FYI") (who ++ str " cancelled")
      | None => ret tt
      end) (λ _ s', ∃ g' es, s' = booted_state gi g' es s ∧ same_settings g g') s.
Proof.
  intros Hs Hg. destruct (cancel_nick who g) as [g'|] eqn:Ec.
  - apply wp_bind. eapply wp_upd_group; [done|]. apply wp_sendstatus; [done|]. intros es.
    exists g', es. split; [done|]. by eapply cancel_nick_keeps.
  - apply wp_ret. exists g, []. unfold booted_state. rewrite entry_set_same, log_nil by done.
    split; [by destruct s|done].
Qed.

Lemma booted_from_state gi g g' dest ud es es' s s2 :
  entry_at gi (g_tab s) = Some g → same_settings g g' →
  booted dest ud (log es' (booted_state gi g' es s)) s2 → booted dest ud s s2.
Proof.
  intros Hg (En & Em & Ectl & Esz & _) (Hw2 & Hb2 & Hoth & Hin).
  split; [done|]. split; [done|]. split; [exact Hoth|].
  change (g_tab (log es' (booted_state gi g' es s))) with (entry_set gi g' (g_tab s)) in Hin.
  rewrite (find_group_upd _ _ gi g g'), (find_empty_upd _ gi g g') in Hin by done.
  intros Hne Hslot Hfull. apply Hin; [done|done|]. intros bg [(E & -> & _)|[_ Hbg]]%entry_set_inv.
  - rewrite E in Hfull. specialize (Hfull g Hg). unfold is_full in *. by rewrite Ectl, Esz, En, Em.
  - by apply Hfull.
Qed.
End boot.



(** ** Inviting and cancelling *)

Section invite.
Context `{BuildConfig} `{Host} `{Commands}.
Implicit Types s : st.

Lemma parse_no_flags switch who s : starts_with "-" who = false → parse_flags switch who s = Some (Some (who, no_flags), s).
Proof. intros E. unfold parse_flags. destruct who; simpl in *; [done|]. by rewrite E. Qed.

Lemma mru_put_present max who nick l :
  strcaseeq nick who = true → mru_present nick (mru_put max who l) = true.
Proof.
  intros E. apply strcaseeq_casefold in E. unfold mru_put, mru_present.
  destruct (List.find (strcaseeq who) l) as [x|] eqn:Ef; simpl; apply orb_true_iff; left; apply strcaseeq_casefold; [|done].
  apply find_some in Ef as [_ Ex%strcaseeq_casefold]. congruence.
Qed.
End invite.

(** An invitation by nickname from the moderator of a restricted group
    puts the name on the group's list and changes nothing else in the tables,
    and the guard of the group then lets everybody with that nickname in. *)
Theorem s_invite_correct `{BuildConfig} `{Host} `{Commands} n u g who (s : st) :
  world s → entry_at n (u_tab s) = Some u →
  entry_at (find_group (u_group u) (g_tab s)) (g_tab s) = Some g →
  g_mod g = n → g_control g = RESTRICTED → who ≠ [] → starts_with "-" who = false →
  ∃ s' g', s_invite n 2 who s = Some (0, s') ∧ u_tab s' = u_tab s ∧
    g_tab s' = entry_set (find_group (u_group u) (g_tab s)) g' (g_tab s) ∧
    g' = set_g_n_invites (mru_put MAX_INVITES who (g_n_invites g)) g ∧
    ∀ v, strcaseeq (u_nickname v) who = true → is_invited v g' = true.
Proof.
  intros Hw Hu Hg Hm Hc Hne Hfl. set (gi := find_group (u_group u) (g_tab s)) in *.
  set (g' := set_g_n_invites (mru_put MAX_INVITES who (g_n_invites g)) g).
  cut (wp (s_invite n 2 who) (λ r s', r = 0 ∧ ∃ es, s' = log es (set_g_tab (entry_set gi g' (g_tab s)) s)) s).
  { intros (r & s' & Hr & -> & es & ->)%wp_run. eexists _, g'. split; [exact Hr|]. split; [done|]. split; [done|].
    split; [done|]. intros v Hv. unfold is_invited, g'. cbn [g_n_invites set_g_n_invites].
    by rewrite mru_put_present. }
  unfold s_invite. cbn [Z.eqb Pos.eqb]. eapply wp_my_group; [done|done|done|]. fold gi.
  apply wp_bind. eapply wp_group_at; [done|]. apply wp_bind. unfold wp at 1. rewrite parse_no_flags by done.
  destruct who as [|c who]; [done|]. rewrite Hm, Hc, !Z.eqb_refl.
  cbn [flag_or0 fl_mode fl_r fl_quiet no_flags Z.eqb Pos.eqb andb orb negb when].
  pose proof (proj1 Hw) as Hs. apply wp_bind, wp_bind. eapply wp_upd_group; [done|].
  change (add_invite 0 0 (c :: who) g) with g'. apply wp_sendstatus; [done|]. intros es.
  apply wp_bind. eapply (wp_mono _ (λ _ s', ∃ es, s' = log es (set_g_tab (entry_set gi g' (g_tab s)) s))).
  - apply wp_bind, wp_gets. change (u_tab (log _ _)) with (u_tab s).
    destruct (Z.leb_spec 0 (find_user (c :: who) (u_tab s))) as [Hge|Hlt].
    + destruct (find_user_entry _ _ Hge) as (v & Hv & _). apply wp_bind. eapply wp_user_at; [exact Hv|].
      rewrite orb_true_r. apply wp_sendstatus; [done|]. intros es'. rewrite log_log. by eexists.
    + apply wp_sendstatus; [done|]. intros es'. rewrite log_log. by eexists.
  - intros [] s' [es' ->]. split; [done|]. by eexists.
Qed.

Lemma s_invite_correct_witness :
  ∃ s' g', @s_invite demo_build demo_commands 3 2 (str "bob") demo_state = Some (0, s') ∧
    u_tab s' = u_tab demo_state ∧ is_invited (demo_user "Bob" "Lobby") g' = true.
Proof.
  destruct (@s_invite_correct demo_build demo_host demo_commands 3 (demo_user "cat" "Den")
    (demo_group "Den" RESTRICTED 3) (str "bob") demo_state demo_world eq_refl) as (s' & g' & Hr & Eu & _ & _ & Hin);
    [vm_compute; reflexivity|reflexivity|reflexivity|discriminate|reflexivity|].
  exists s', g'. split; [exact Hr|]. split; [exact Eu|]. apply Hin. vm_compute. reflexivity.
Defined.

(** ** The talk list *)

(** When the moderator of a group that is not public names a new talker
    without the flag that adds to the list, and the list is not empty,
    the handler frees a list node and goes on reading the name inside it: the
    call has no defined behaviour. *)
Theorem s_talk_replace_undefined `{BuildConfig} `{Host} `{Commands} n u g who x l (s : st) :
  entry_at n (u_tab s) = Some u → entry_at (find_group (u_group u) (g_tab s)) (g_tab s) = Some g →
  g_mod g = n → g_control g ≠ PUBLIC → who ≠ [] → starts_with "-" who = false →
  g_n_talk g = x :: l → x ≠ [] →
  s_talk n 2 who s = None.
Proof.
  intros Hu Hg Hm Hc Hne Hfl Htalk Hx. unfold s_talk. cbn [Z.eqb Pos.eqb].
  erewrite bind_runs by (by apply user_at_run). erewrite bind_runs by done.
  erewrite bind_runs by (by apply group_at_run). erewrite bind_runs by (by apply parse_no_flags).
  destruct who as [|c who]; [done|]. rewrite Hm, Z.eqb_refl. destruct (Z.eqb_spec (g_control g) PUBLIC); [done|].
  cbn [negb fl_delete fl_addmode no_flags Z.eqb Pos.eqb when]. rewrite Htalk. by destruct x.
Qed.

Lemma s_talk_replace_undefined_witness :
  let g := set_g_n_talk [str "amy"] (demo_group "Den" RESTRICTED 3) in
  @s_talk demo_build 3 2 (str "bob") (set_g_tab (entry_set 2 g (g_tab demo_state)) demo_state) = None.
Proof.
  intros g. apply (@s_talk_replace_undefined demo_build demo_host demo_commands 3 (demo_user "cat" "Den") g (str "bob")
    (str "amy") []); [reflexivity|vm_compute; reflexivity|reflexivity|discriminate|discriminate|reflexivity..|discriminate].
Defined.
