(* ===== verification/GroupStatus.v ===== *)
(** * The status of a group (server/s_group.c, part 4: s_status)

    Without an argument the command shows the settings of the caller's group;
    with one it reads a list of options and changes them.  The cases of the
    switch are one definition each. *)

From Stdlib Require Import ZArith Lia String.
From S2P Require Import Config Prelude Utf8 StrUtil NameList Lookup CLib Monad Dbm IcbDb State Tables Send GroupCast World GroupChange GroupMod.

Local Open Scope Z_scope.
Local Open Scope icb_monad_scope.

(** ** Display *)

Definition visibility_text (v : Z) : cstring :=
  if v =? VISIBLE then str "Visible" else if v =? SECRET then str "Secret"
  else if v =? SUPERSECRET then str "Invisible" else str "Unknown".
Definition control_text (c : Z) : cstring :=
  if c =? PUBLIC then str "Public" else if c =? MODERATED then str "Moderated"
  else if c =? RESTRICTED then str "Restricted" else if c =? CONTROLLED then str "Controlled" else str "Unknown".
Definition volume_text (v : Z) : cstring :=
  if v =? QUIET then str "Quiet" else if v =? NORMAL then str "Normal"
  else if v =? LOUD then str "Loud" else str "Unknown".

Definition plural (k : Z) : cstring := if k =? 1 then [] else str "s".
(** "%d hour%s, %d minute%s" of a number of seconds. *)
Definition hours_text (secs : Z) : cstring :=
  let hours := Z.quot secs (60 * 60) in
  let mins := Z.quot (Z.rem secs (60 * 60)) 60 in
  itoa hours ++ str " hour" ++ plural hours ++ str ", " ++ itoa mins ++ str " minute" ++ plural mins.
(** The time as the announcements of a change give it. *)
Definition period_text (secs : Z) : cstring :=
  if 59 * 60 <? secs then hours_text secs
  else itoa (Z.quot secs 60) ++ str " minute" ++ plural (Z.quot secs 60).

Section code.
Context `{BuildConfig} `{Host} `{Commands}.

Definition status_show (n : Z) : M st unit :=
  u <- user_at n ;;
  gi <- gets (λ s, find_group (u_group u) (g_tab s)) ;;
  g <- group_at gi ;;
  mod' <- (if 0 <=? g_mod g then (um <- user_at (g_mod g) ;; ret (u_nickname um))
           else if g_modtimeout g =? 0 then ret (str "None") else ret (g_missingmod g)) ;;
  sends_cmdout n (str "Name: " ++ g_name g ++ str " Mod: " ++ mod' ++ str " (" ++
    visibility_text (g_visibility g) ++ str " / " ++ control_text (g_control g) ++ str " / " ++
    volume_text (g_volume g) ++ str ")") ;;
  _ <- list_invites n gi ;;
  list_two n (str "Nicks who can talk: ") (g_n_talk g) (g_nr_talk g) ;;
  sends_cmdout n (if g_size g =? 0 then str "Size: no limit"
    else str "Size: " ++ itoa (g_size g) ++ str " user" ++ plural (g_size g) ++ str " limit") ;;
  sends_cmdout n (if g_idleboot g =? 0 then str "Idle-Boot: no limit"
    else str "Idle-Boot: " ++ hours_text (g_idleboot g)) ;;
  when (0 <? length (g_idleboot_msg g))%nat
    (sends_cmdout n (str "Idle-Boot Message: " ++ g_idleboot_msg g)) ;;
  when (negb (g_control g =? PUBLIC))
    (sends_cmdout n (if g_idlemod g =? 0 then str "Idle-Mod: no limit"
       else str "Idle-Mod: " ++ hours_text (g_idlemod g))).

(** ** Options *)

Definition clear_invites (g : group) : group :=
  set_g_n_invites [] (set_g_nr_invites [] (set_g_s_invites [] (set_g_sr_invites [] g))).
Definition clear_bars (g : group) : group :=
  set_g_n_bars [] (set_g_n_nr_bars [] (set_g_s_bars [] (set_g_s_nr_bars [] g))).

(** Everybody in the group gets an invitation when it becomes restricted. *)
Definition invite_members (gi : Z) : M st unit :=
  for_each (zseq (Z.of_nat MAX_USERS)) (λ i,
    u <- user_at i ;;
    g <- group_at gi ;;
    when (strcaseeq (u_group u) (g_name g)) (
      upd_group gi (λ g,
        if (length (u_realname u) =? 0)%nat
        then set_g_n_invites (mru_put MAX_INVITES (u_nickname u) (g_n_invites g)) g
        else set_g_nr_invites (mru_put MAX_INVITES (u_nickname u) (g_nr_invites g)) g) ;;
      when (0 <? g_mod g) (sendstatus (g_mod g) (str "FYI") (u_nickname u ++ str " invited")) ;;
      sendstatus i (str "FYI") (str "You are invited to group " ++ g_name g ++ str " by default."))).

Definition opt_restrict (gi : Z) : M st (option cstring) :=
  upd_group gi (λ g, clear_bars (set_g_control RESTRICTED g)) ;;
  invite_members gi ;;
  ret (Some (str "Group is now restricted.")).
Definition opt_moderate (gi : Z) : M st (option cstring) :=
  upd_group gi (λ g, clear_invites (set_g_control MODERATED g)) ;;
  ret (Some (str "Group is now moderated.")).
Definition opt_control (gi : Z) : M st (option cstring) :=
  upd_group gi (λ g, clear_invites (set_g_control CONTROLLED g)) ;;
  ret (Some (str "Group is now controlled.")).
Definition opt_public (gi : Z) (nick : cstring) : M st (option cstring) :=
  upd_group gi (λ g, clear_bars (clear_invites (set_g_control PUBLIC g))) ;;
  ret (Some (nick ++ str " made group public.")).

(** [#]: the size; the argument is the next word. *)
Definition opt_size (n gi : Z) (nick p1 : cstring) : M st (cstring * option cstring) :=
  let p1 := get_tail p1 in
  p2 <- getword_m p1 ;;
  let complaint := str "Size must be between 0 and " ++ itoa MAX_REAL_USERS ++ str "." in
  match p2 with
  | [] => senderror n complaint ;; ret (p1, None)
  | _ :: _ =>
      let new_size := atoi p2 in
      if (new_size <? 0) || (MAX_REAL_USERS <? new_size) then senderror n complaint ;; ret (p1, None)
      else
        upd_group gi (set_g_size new_size) ;;
        ret (p1, Some (if new_size =? 0 then nick ++ str " removed group size limit."
          else nick ++ str " made group limited to " ++ itoa new_size ++ str " users."))
  end.

(** [atoi(p2) * 60]: the product of two [int]s. *)
Definition minutes (p2 : cstring) : M st Z :=
  let v := atoi p2 * 60 in
  if (INT_MIN <=? v) && (v <=? INT_MAX) then ret v else ub.

Definition opt_idleboot (n gi : Z) (nick p1 : cstring) : M st (cstring * option cstring) :=
  let p1 := get_tail p1 in
  p2 <- getword_m p1 ;;
  match p2 with
  | [] =>
      senderror n (str "Idle-Boot must be specified in number of minutes (0=disabled).") ;; ret (p1, None)
  | _ :: _ =>
      new_ib <- minutes p2 ;;
      if new_ib <? 0 then senderror n (str "Idle-Boot must be > 0 (or 0 to disable).") ;; ret (p1, None)
      else
        upd_group gi (set_g_idleboot new_ib) ;;
        ret (p1, Some (if new_ib =? 0 then nick ++ str " disabled idle-boot."
          else nick ++ str " set idle-boot to " ++ period_text new_ib ++ str "."))
  end.

(** [while (strlen(p2=getword(p1)) > 0) p1 = get_tail(p2);] *)
Fixpoint skip_to_end (fuel : nat) (p1 : cstring) : M st cstring :=
  p2 <- getword_m p1 ;;
  match p2, fuel with
  | [], _ => ret p1
  | _ :: _, S fuel => skip_to_end fuel (get_tail p2)
  | _ :: _, O => ub
  end.

(** [idlebootmsg]: the rest of the line is the message; one that fills the
    field is copied without room for its terminator. *)
Definition opt_idleboot_msg (n gi : Z) (p1 : cstring) : M st (cstring * option cstring) :=
  let p1 := get_tail p1 in
  (if (length p1 =? 0)%nat || (IDLEBOOT_MSG_LEN <? length p1)%nat then
     senderror n (str "Idle-Boot message length must be between 1 and " ++ itoa (Z.of_nat IDLEBOOT_MSG_LEN) ++
       str " (yours was " ++ itoa (Z.of_nat (length p1)) ++ str ").")
   else
     match fst (filterfmt p1 1) with
     | Some e => senderror n (fmt_text e)
     | None =>
         if (IDLEBOOT_MSG_LEN <=? length p1)%nat then ub
         else
           upd_group gi (set_g_idleboot_msg p1) ;;
           sendstatus n (str "Change") (str "Idle-boot msg: " ++ p1)
     end) ;;
  p1 <- skip_to_end 2 p1 ;;
  ret (p1, None).

Definition opt_idlemod (n gi : Z) (nick p1 : cstring) : M st (cstring * option cstring) :=
  let p1 := get_tail p1 in
  p2 <- getword_m p1 ;;
  let complaint := str "Idle-Mod must be between 0 and " ++ itoa (Z.quot MAX_IDLE_MOD 60) ++ str "." in
  match p2 with
  | [] => senderror n complaint ;; ret (p1, None)
  | _ :: _ =>
      new_im <- minutes p2 ;;
      when (new_im =? 0) (sendstatus n (str "Info") (str "Using maximum value allowed")) ;;
      let new_im := if new_im =? 0 then MAX_IDLE_MOD else new_im in
      if (new_im <? 1) || (MAX_IDLE_MOD <? new_im) then senderror n complaint ;; ret (p1, None)
      else
        upd_group gi (set_g_idlemod new_im) ;;
        ret (p1, Some (nick ++ str " set idle-mod to " ++ period_text new_im ++ str "."))
  end.

Definition opt_name (n gi : Z) (nick p1 : cstring) : M st (cstring * option cstring) :=
  let p1 := get_tail p1 in
  w <- getword_m p1 ;;
  let p2 := filtergroupname w in
  r <- set_name n gi p2 ;;
  ret (p1, if r <? 0 then Some [] else Some (nick ++ str " renamed group to " ++ p2)).

(** The options that a group without a moderator refuses. *)
Definition needs_mod (lu : Z) : option cstring :=
  if lu =? SET_RESTRICT then Some (str "become restricted")
  else if lu =? SET_MODERATE then Some (str "become moderated")
  else if lu =? SET_CONTROL then Some (str "become controlled")
  else if lu =? SET_IDLEBOOT then Some (str "have idleboot changed")
  else if lu =? SET_IDLEMOD then Some (str "have idlemod changed")
  else if lu =? SET_QUIET then Some (str "be changed to quiet")
  else None.

(** A setting that is one assignment with an announcement. *)
Definition opt_set (gi : Z) (f : group → group) (text : cstring) : M st (option cstring) :=
  upd_group gi f ;; ret (Some text).

Definition keep_p1 (p1 : cstring) (m : M st (option cstring)) : M st (cstring * option cstring) :=
  cp <- m ;; ret (p1, cp).

(** One option: where the line goes on, and what is announced. *)
Definition status_option (n gi : Z) (has_mod : bool) (p1 p2 : cstring) : M st (cstring * option cstring) :=
  u <- user_at n ;;
  let nick := u_nickname u in
  let lu := lookup_cmd p2 status_table in
  match needs_mod lu, has_mod with
  | Some what, false =>
      senderror n (str "Groups without a moderator cannot " ++ what ++ str ".") ;;
      if (lu =? SET_IDLEBOOT) || (lu =? SET_IDLEMOD) then
        let p1 := get_tail p1 in
        _ <- getword_m p1 ;; ret (p1, None)
      else ret (p1, None)
  | _, _ =>
      if lu =? SET_RESTRICT then keep_p1 p1 (opt_restrict gi)
      else if lu =? SET_MODERATE then keep_p1 p1 (opt_moderate gi)
      else if lu =? SET_CONTROL then keep_p1 p1 (opt_control gi)
      else if lu =? SET_SIZE then opt_size n gi nick p1
      else if lu =? SET_IDLEBOOT then opt_idleboot n gi nick p1
      else if lu =? SET_IDLEBOOT_MSG then opt_idleboot_msg n gi p1
      else if lu =? SET_IDLEMOD then opt_idlemod n gi nick p1
      else if lu =? SET_PUBLIC then keep_p1 p1 (opt_public gi nick)
      else if lu =? SET_INVISIBLE then
        keep_p1 p1 (opt_set gi (set_g_visibility SUPERSECRET) (nick ++ str " made group invisible."))
      else if lu =? SET_SECRET then
        keep_p1 p1 (opt_set gi (set_g_visibility SECRET) (nick ++ str " made group secret."))
      else if lu =? SET_VISIBLE then
        keep_p1 p1 (opt_set gi (set_g_visibility VISIBLE) (nick ++ str " made group visible."))
      else if lu =? SET_QUIET then keep_p1 p1 (opt_set gi (set_g_volume QUIET) (nick ++ str " made group quiet."))
      else if lu =? SET_NORMAL then keep_p1 p1 (opt_set gi (set_g_volume NORMAL) (nick ++ str " made group normal."))
      else if lu =? SET_LOUD then keep_p1 p1 (opt_set gi (set_g_volume LOUD) (nick ++ str " made group loud."))
      else if lu =? SET_NAME then opt_name n gi nick p1
      else if lu =? SET_QUESTION then dump_table n ;; ret (p1, None)
      else senderror n (str "Option " ++ p2 ++ str " unknown.") ;; ret (p1, None)
  end.

(** [while (strlen(p2=getword(p1)) > 0) { ...; p1 = get_tail(p1); }] *)
Fixpoint status_loop (fuel : nat) (n gi : Z) (has_mod : bool) (p1 : cstring) : M st unit :=
  p2 <- getword_m p1 ;;
  match p2, fuel with
  | [], _ => ret tt
  | _ :: _, O => ub
  | _ :: _, S fuel =>
      r <- status_option n gi has_mod p1 p2 ;;
      match snd r with
      | Some (c :: cp) => _ <- s_status_group 1 true n (str "Change") (c :: cp) ;; ret tt
      | _ => ret tt
      end ;;
      status_loop fuel n gi has_mod (get_tail (fst r))
  end.

(** The groups nobody can change. *)
Definition fixed_group (name : cstring) : option cstring :=
  if strcaseeq name (str "1") then Some (str "1")
  else if strcaseeq name IDLE_GROUP then Some IDLE_GROUP
  else if strcaseeq name BOOT_GROUP then Some BOOT_GROUP
  else None.

Definition s_status (n argc : Z) (f1 : cstring) : M st Z :=
  if argc =? 2 then
    match f1 with
    | [] => status_show n ;; ret 0
    | _ :: _ =>
        u <- user_at n ;;
        gi <- gets (λ s, find_group (u_group u) (g_tab s)) ;;
        g <- group_at gi ;;
        let is_public := g_control g =? PUBLIC in
        let is_moderator := g_mod g =? n in
        let has_mod := negb (g_mod g =? -1) || (0 <? g_modtimeout g) in
        match fixed_group (g_name g) with
        | Some name => senderror n (str "Can't change group " ++ name ++ str "!") ;; ret 0
        | None =>
            if negb is_moderator && has_mod && negb is_public then
              senderror n (str "You aren't the moderator.") ;; ret 0
            else status_loop (length f1) n gi has_mod f1 ;; ret 0
        end
    end
  else ret 0.
End code.

(** ** Renaming a group *)

Section rename.
Context `{BuildConfig} `{Host} `{Commands}.
Implicit Types s : st.

(** The user table with the group [old] renamed for the slots below [k]. *)
Definition rename_upto (k : Z) (old new : cstring) (ut : list user) : list user :=
  imap (λ i u, if (Z.of_nat i <? k) && strcaseeq (u_group u) old then set_u_group new u else u) ut.

Lemma rename_entry k old new ut i :
  entry_at i (rename_upto k old new ut) =
  (λ u, if (i <? k) && strcaseeq (u_group u) old then set_u_group new u else u) <$> entry_at i ut.
Proof.
  unfold entry_at, rename_upto. destruct (Z.ltb_spec i 0); [done|]. rewrite list_lookup_imap, Z2Nat.id by lia. done.
Qed.

Lemma rename_0 old new ut : rename_upto 0 old new ut = ut.
Proof.
  unfold rename_upto. apply list_eq. intros i. rewrite list_lookup_imap.
  destruct (Z.ltb_spec (Z.of_nat i) 0); [lia|]. by destruct (ut !! i).
Qed.

Lemma rename_S k old new ut u :
  0 ≤ k → entry_at k ut = Some u →
  rename_upto (k + 1) old new ut =
  if strcaseeq (u_group u) old then entry_set k (set_u_group new u) (rename_upto k old new ut)
  else rename_upto k old new ut.
Proof.
  intros Hk [_ Hu]%entry_at_lookup. unfold rename_upto, entry_set. destruct (Z.ltb_spec k 0); [lia|].
  apply list_eq. intros i. rewrite list_lookup_imap. destruct (decide (i = Z.to_nat k)) as [->|Hik].
  - rewrite Hu, Z2Nat.id by lia. destruct (Z.ltb_spec k (k + 1)); [|lia]. simpl.
    destruct (strcaseeq (u_group u) old) eqn:E.
    + rewrite list_lookup_insert_eq; [done|]. rewrite length_imap. by eapply lookup_lt_Some.
    + rewrite list_lookup_imap, Hu, Z2Nat.id by lia. simpl. by rewrite E, andb_false_r.
  - assert ((Z.of_nat i <? k + 1) = (Z.of_nat i <? k)) as ->.
    { destruct (Z.ltb_spec (Z.of_nat i) (k + 1)), (Z.ltb_spec (Z.of_nat i) k); lia. }
    destruct (strcaseeq (u_group u) old); [rewrite list_lookup_insert_ne by lia|]; by rewrite list_lookup_imap.
Qed.

Lemma length_rename k old new ut : length (rename_upto k old new ut) = length ut.
Proof. unfold rename_upto. by rewrite length_imap. Qed.

Lemma rename_loop old new s :
  length (u_tab s) = MAX_USERS →
  wp (for_each (zseq MAX_REAL_USERS) (λ i,
        u <- user_at i ;; when (strcaseeq (u_group u) old) (upd_user i (set_u_group new))))
    (λ _ s', s' = set_u_tab (rename_upto MAX_REAL_USERS old new (u_tab s)) s) s.
Proof.
  intros Hl. apply (wp_for_zseq (λ k s', s' = set_u_tab (rename_upto k old new (u_tab s)) s)).
  - unfold MAX_REAL_USERS. pose proof MAX_USERS_min. lia.
  - rewrite rename_0. by destruct s.
  - intros i s' Hi ->. unfold MAX_REAL_USERS in Hi.
    destruct (proj2 (entry_at_range (u_tab s) i)) as [u Hu]; [lia|].
    assert (entry_at i (rename_upto i old new (u_tab s)) = Some u) as Hu'.
    { rewrite rename_entry, Hu. simpl. destruct (Z.ltb_spec i i); [lia|done]. }
    rewrite (rename_S i _ _ _ u) by (lia || done). apply wp_bind. eapply wp_user_at; [exact Hu'|].
    apply wp_when; intros ->; [|done]. eapply wp_upd_user; [exact Hu'|]. done.
Qed.

(** A user's group is the new name exactly when it was the old one. *)
Lemma rename_members ut old new :
  length ut = MAX_USERS → (∀ u, entry_at NICKSERV ut = Some u → casefold (u_group u) ≠ casefold old) →
  ∀ i u, entry_at i (rename_upto MAX_REAL_USERS old new ut) = Some u →
    ∃ v, entry_at i ut = Some v ∧
      ((casefold (u_group v) = casefold old ∧ u_group u = new) ∨ (casefold (u_group v) ≠ casefold old ∧ u = v)).
Proof.
  intros Hlen Hserv i u. rewrite rename_entry. destruct (entry_at i ut) as [v|] eqn:Ev; [|done]. simpl.
  intros [= <-]. exists v. split; [done|]. destruct (strcaseeq (u_group v) old) eqn:Ec.
  - apply strcaseeq_casefold in Ec. left. split; [done|]. destruct (Z.ltb_spec i MAX_REAL_USERS) as [|Hge]; [done|].
    exfalso. assert (i = NICKSERV) as ->; [|by apply (Hserv v)].
    assert (is_Some (entry_at i ut)) as Hr by eauto. apply entry_at_range in Hr.
    rewrite Hlen in Hr. unfold NICKSERV, MAX_REAL_USERS in *. lia.
  - right. rewrite andb_false_r. split; [|done]. intros E. apply strcaseeq_casefold in E. congruence.
Qed.

(** The invariant survives the renaming of a group in which the resident user
    is not. *)
Lemma tables_rename ut gt gi g new :
  tables (-1) ut gt → entry_at gi gt = Some g → g_name g ≠ [] → new ≠ [] → group_name_ok new →
  (find_group new gt < 0 ∨ find_group new gt = gi) →
  (∀ u, entry_at NICKSERV ut = Some u → casefold (u_group u) ≠ casefold (g_name g)) →
  tables (-1) (rename_upto MAX_REAL_USERS (g_name g) new ut) (entry_set gi (set_g_name new g) gt).
Proof.
  intros Ht Hg Hgn Hnew Hok Hfree Hserv.
  assert (∀ j x, entry_at j gt = Some x → casefold (g_name x) = casefold new → j = gi) as Honly.
  { intros j x Hx E. rewrite (find_unique _ _ _ _ _ _ Ht Hx E Hnew) in Hfree. destruct Hfree; [|done].
    apply entry_at_lookup in Hx. lia. }
  assert (length ut = MAX_USERS) as Hlen by apply Ht.
  pose proof (rename_members ut (g_name g) new Hlen Hserv) as Hu.
  destruct Ht as [T1 T2 T3 T4 T5 T6 T7 T8 T9]. split.
  - by rewrite length_entry_set.
  - by rewrite length_rename.
  - intros j x [(-> & -> & _)|[_ Hx]]%entry_set_inv; [done|eauto].
  - intros j x [(-> & -> & _)|[_ Hx]]%entry_set_inv; [simpl; eauto|eauto].
  - intros i u (v & Hv & [[_ ->]|[_ ->]])%Hu; [apply Hok|eauto].
  - intros i j x y [(-> & -> & _)|[Hi Hx]]%entry_set_inv [(-> & -> & _)|[Hj Hy]]%entry_set_inv Hn E; [done| | |eauto].
    + exfalso. apply Hj. by eapply Honly.
    + exfalso. apply Hi. by eapply Honly.
  - intros i u (v & Hv & [[Ec E]|[Ec ->]])%Hu Hne.
    + exists gi, (set_g_name new g). rewrite E. split; [|done]. apply entry_set_at. by rewrite Hg.
    + destruct (T7 i v Hv Hne) as (j & x & Hx & Ex). exists j, x. split; [|done].
      rewrite entry_set_ne; [done|]. intros <-. rewrite Hg in Hx. injection Hx as <-. congruence.
  - intros j x [(-> & -> & _)|[Hj Hx]]%entry_set_inv Hn Hexc.
    + destruct (T8 gi g Hg Hgn Hexc) as (i & v & Hv & Ec). exists i, (set_u_group new v). split; [|done].
      rewrite rename_entry, Hv. simpl. rewrite (proj2 (strcaseeq_casefold _ _)) by done. rewrite andb_true_r.
      destruct (Z.ltb_spec i MAX_REAL_USERS) as [|Hge]; [done|]. exfalso.
      assert (i = NICKSERV) as ->; [|by apply (Hserv v)].
      assert (is_Some (entry_at i ut)) as Hr by eauto. apply entry_at_range in Hr.
      rewrite T2 in Hr. unfold NICKSERV, MAX_REAL_USERS in *. lia.
    + destruct (T8 j x Hx Hn Hexc) as (i & v & Hv & Ec). exists i, v. split; [|done].
      rewrite rename_entry, Hv. simpl. destruct (strcaseeq (u_group v) (g_name g)) eqn:Eg; [|by rewrite andb_false_r].
      exfalso. apply strcaseeq_casefold in Eg. apply Hj. eapply (T6 j gi x g); [done|done|done|congruence].
  - intros j x [(-> & -> & _)|[_ Hx]]%entry_set_inv; [done|eauto].
Qed.
End rename.

Section set_name.
Context `{BuildConfig} `{Host} `{Commands}.
Implicit Types s : st.

(** The group [gi] is in use and the resident user is not in it. *)
Definition ordinary_group (s : st) (gi : Z) (g : group) : Prop :=
  entry_at gi (g_tab s) = Some g ∧ g_name g ≠ [] ∧
  ∀ u, entry_at NICKSERV (u_tab s) = Some u → casefold (u_group u) ≠ casefold (g_name g).

(** The reasons to refuse a new name. *)
Definition name_refused (s : st) (gi : Z) (name : cstring) : Prop :=
  name = [] ∨ take MAX_GROUPLEN name = str "1" ∨
  (0 ≤ find_group (take MAX_GROUPLEN name) (g_tab s) ∧ find_group (take MAX_GROUPLEN name) (g_tab s) ≠ gi).

Definition renamed (s : st) (gi : Z) (g : group) (new : cstring) : st :=
  set_g_tab (entry_set gi (set_g_name new g) (g_tab s))
    (set_u_tab (rename_upto MAX_REAL_USERS (g_name g) new (u_tab s)) s).

Lemma wp_set_name n gi g name Q s :
  world s → ordinary_group s gi g → Forall (λ c, name_char OKGROUPCHARS c = true) name →
  (name_refused s gi name → ∀ es, Q (-1) (log es s)) →
  (¬ name_refused s gi name → world (renamed s gi g (take MAX_GROUPLEN name)) →
   Q 0 (renamed s gi g (take MAX_GROUPLEN name))) →
  wp (set_name n gi name) Q s.
Proof.
  intros [Hs Ht] (Hg & Hgn & Hserv) Hch Href Hren. unfold set_name, name_refused in *.
  destruct name as [|c name]; [apply wp_bind, wp_senderror; [done|]; intros es; apply wp_ret, Href; by left|].
  assert (group_name_ok (take MAX_GROUPLEN (c :: name))) as Hok.
  { split; [rewrite length_take; lia|by apply Forall_take]. }
  assert (take MAX_GROUPLEN (c :: name) ≠ []) as Hnn by done.
  set (new := take MAX_GROUPLEN (c :: name)) in *. clearbody new.
  destruct (streq new (str "1")) eqn:E1.
  { apply streq_eq in E1. apply wp_bind, wp_senderror; [done|]. intros es. apply wp_ret, Href. by right; left. }
  apply wp_bind, wp_gets. destruct (Z.leb_spec 0 (find_group new (g_tab s))) as [Hge|Hlt];
    [destruct (Z.eqb_spec (find_group new (g_tab s)) gi) as [Efg|Hne]|]; cbn [andb negb].
  2:{ apply wp_bind, wp_senderror; [done|]. intros es. apply wp_ret, Href. right; right. done. }
  all: apply wp_bind; eapply wp_group_at; [done|]; apply wp_bind; eapply wp_mono;
    [apply rename_loop; by eapply t_users|]; intros [] s1 ->.
  all: apply wp_bind; eapply wp_upd_group; [exact Hg|]; apply wp_ret, Hren.
  all: try (intros [?|[E|[? ?]]]; [done|apply streq_eq in E; congruence|lia]).
  all: split; [destruct Hs as (?&?&?&?&?); unfold arrays_sized; simpl; by rewrite length_rename|].
  all: apply tables_rename; auto.
Qed.

(** The members of the group keep together, and nobody joins them. *)
Lemma renamed_members s gi g new i ui :
  world s → ordinary_group s gi g → new ≠ [] →
  (find_group new (g_tab s) < 0 ∨ find_group new (g_tab s) = gi) →
  entry_at i (u_tab s) = Some ui →
  ∃ ui', entry_at i (u_tab (renamed s gi g new)) = Some ui' ∧ ui' = set_u_group (u_group ui') ui ∧
    (casefold (u_group ui') = casefold new ↔ casefold (u_group ui) = casefold (g_name g)).
Proof.
  intros [Hs Ht] (Hg & Hgn & Hserv) Hnew Hfree Hui. simpl. rewrite rename_entry, Hui. simpl.
  assert (∀ v, casefold (u_group v) = casefold new → entry_at i (u_tab s) = Some v →
    casefold (u_group v) = casefold (g_name g)) as Hold.
  { intros v E Hv. destruct (t_home _ _ _ Ht i v Hv) as (j & x & Hx & Ex).
    { intros En. rewrite En in E. by destruct new. }
    assert (find_group new (g_tab s) = j) as Ej by (eapply find_unique; [done|done|congruence|done]).
    rewrite Ej in Hfree. destruct Hfree as [Hlt| ->]; [apply entry_at_lookup in Hx; lia|]. congruence. }
  destruct (strcaseeq (u_group ui) (g_name g)) eqn:Ec.
  - apply strcaseeq_casefold in Ec. destruct (Z.ltb_spec i MAX_REAL_USERS) as [Hlt|Hge]; simpl.
    + by eexists.
    + exists ui. split; [done|]. split; [by destruct ui|]. split; [by intros ?|]. intros _. exfalso.
      assert (i = NICKSERV) as ->; [|by apply (Hserv ui)].
      assert (is_Some (entry_at i (u_tab s))) as Hr by eauto. apply entry_at_range in Hr.
      destruct Hs as [Hlen _]. unfold NICKSERV, MAX_REAL_USERS in *. lia.
  - rewrite andb_false_r. exists ui. split; [done|]. split; [by destruct ui|]. split; [intros E; by apply Hold|].
    intros E. apply strcaseeq_casefold in E. congruence.
Qed.
End set_name.

(** Renaming a group (with a filtered name) always completes and keeps
    the tables consistent; it is refused, with both tables unchanged, exactly for
    an empty name, for group 1 and for the name of another group; otherwise the
    users in the group under its new name are exactly those who were in it. *)
Theorem set_name_correct `{BuildConfig} `{Host} `{Commands} n gi g name (s : st) :
  world s → ordinary_group s gi g → Forall (λ c, name_char OKGROUPCHARS c = true) name →
  ∃ r s', set_name n gi name s = Some (r, s') ∧ world s' ∧
    ((r = -1 ∧ name_refused s gi name ∧ u_tab s' = u_tab s ∧ g_tab s' = g_tab s) ∨
     (r = 0 ∧ ¬ name_refused s gi name ∧ find_group (take MAX_GROUPLEN name) (g_tab s') = gi ∧
      ∀ i ui, entry_at i (u_tab s) = Some ui →
        ∃ ui', entry_at i (u_tab s') = Some ui' ∧ u_nickname ui' = u_nickname ui ∧
          (casefold (u_group ui') = casefold (take MAX_GROUPLEN name) ↔
           casefold (u_group ui) = casefold (g_name g)))).
Proof.
  intros Hw Ho Hch. apply wp_run. eapply wp_set_name; [done|done|done| |].
  - intros Href es. split; [by apply (same_world s)|]. by left.
  - intros Hnot Hw'. split; [done|]. right. split; [done|]. split; [done|].
    assert (take MAX_GROUPLEN name ≠ []) as Hnew by (intros E; apply Hnot; left; by destruct name).
    assert (find_group (take MAX_GROUPLEN name) (g_tab s) < 0 ∨ find_group (take MAX_GROUPLEN name) (g_tab s) = gi) as Hfree.
    { unfold name_refused in Hnot. destruct (Z.lt_ge_cases (find_group (take MAX_GROUPLEN name) (g_tab s)) 0); [by left|].
      right. destruct (Z.eq_dec (find_group (take MAX_GROUPLEN name) (g_tab s)) gi); [done|tauto]. }
    split.
    2:{ intros i ui Hui. destruct (renamed_members s gi g _ i ui Hw Ho Hnew Hfree Hui) as (ui' & Hui' & E & Hm).
        exists ui'. split; [done|]. split; [by rewrite E|done]. }
    eapply (find_unique (-1) _ _ _ _ (set_g_name (take MAX_GROUPLEN name) g)); [apply Hw'| |done|done].
    apply entry_set_at. destruct Ho as (Hg & _). simpl. by rewrite Hg.
Qed.

Lemma demo_ordinary : @ordinary_group demo_build demo_state 1 (demo_group "Lobby" MODERATED 0).
Proof.
  split; [reflexivity|]. split; [done|]. intros u [(E & ->)|[(E & ->)|[(E & ->)|[(E & ->)|(E & ->)]]]]%demo_users; done.
Qed.

Lemma set_name_correct_witness :
  ∃ r s', @set_name demo_build 0 1 (str "Salon") demo_state = Some (r, s') ∧ @world demo_build s'.
Proof.
  destruct (@set_name_correct demo_build demo_host demo_commands 0 1 (demo_group "Lobby" MODERATED 0) (str "Salon")
    demo_state demo_world demo_ordinary) as (r & s' & Hr & Hw & _); [repeat constructor|].
  exists r, s'. split; [exact Hr|exact Hw].
Defined.

(** ** What a line asks for *)

(** The settings of a group. *)
Record settings : Type := Settings {
  s_visibility : Z;
  s_control : Z;
  s_volume : Z;
  s_size : Z;
  s_idleboot : Z;
  s_message : cstring;
  s_idlemod : Z
}.

Definition settings_of (g : group) : settings :=
  Settings (g_visibility g) (g_control g) (g_volume g) (g_size g) (g_idleboot g) (g_idleboot_msg g) (g_idlemod g).

(** An option with its argument; those that change no setting (a new name, a
    question, an unknown word) are all the same here. *)
Inductive request : Type :=
  | RVisibility (v : Z)
  | RControl (v : Z)
  | RVolume (v : Z)
  | RSize (w : cstring)
  | RIdleboot (w : cstring)
  | RMessage (t : cstring)
  | RIdlemod (w : cstring)
  | ROther.

(** The option a line starts with, and the place where the line goes on. *)
Definition request_of (p1 : cstring) : request * cstring :=
  let lu := lookup_cmd (getword p1) status_table in
  let arg := get_tail p1 in
  if lu =? SET_RESTRICT then (RControl RESTRICTED, p1)
  else if lu =? SET_MODERATE then (RControl MODERATED, p1)
  else if lu =? SET_CONTROL then (RControl CONTROLLED, p1)
  else if lu =? SET_SIZE then (RSize (getword arg), arg)
  else if lu =? SET_IDLEBOOT then (RIdleboot (getword arg), arg)
  else if lu =? SET_IDLEBOOT_MSG then (RMessage arg, if is_empty (getword arg) then arg else [])
  else if lu =? SET_IDLEMOD then (RIdlemod (getword arg), arg)
  else if lu =? SET_PUBLIC then (RControl PUBLIC, p1)
  else if lu =? SET_INVISIBLE then (RVisibility SUPERSECRET, p1)
  else if lu =? SET_SECRET then (RVisibility SECRET, p1)
  else if lu =? SET_VISIBLE then (RVisibility VISIBLE, p1)
  else if lu =? SET_QUIET then (RVolume QUIET, p1)
  else if lu =? SET_NORMAL then (RVolume NORMAL, p1)
  else if lu =? SET_LOUD then (RVolume LOUD, p1)
  else if lu =? SET_NAME then (ROther, arg)
  else (ROther, p1).

Fixpoint requests (fuel : nat) (p1 : cstring) : list request :=
  match getword p1, fuel with
  | _ :: _, S fuel => fst (request_of p1) :: requests fuel (get_tail (snd (request_of p1)))
  | _, _ => []
  end.

(** A group without a moderator can only be opened up. *)
Definition allowed (has_mod : bool) (r : request) : bool :=
  has_mod ||
  match r with
  | RControl v => v =? PUBLIC
  | RVolume v => negb (v =? QUIET)
  | RIdleboot _ | RIdlemod _ => false
  | _ => true
  end.

(** The effect of an option. *)
Definition obeyed `{BuildConfig} (r : request) (x : settings) : settings :=
  let 'Settings vis con vol size boot msg imod := x in
  match r with
  | RVisibility v => Settings v con vol size boot msg imod
  | RControl v => Settings vis v vol size boot msg imod
  | RVolume v => Settings vis con v size boot msg imod
  | RSize w =>
      if is_empty w || (atoi w <? 0) || (MAX_REAL_USERS <? atoi w) then x else Settings vis con vol (atoi w) boot msg imod
  | RIdleboot w =>
      if is_empty w || (atoi w * 60 <? 0) then x else Settings vis con vol size (atoi w * 60) msg imod
  | RMessage t =>
      if (length t =? 0)%nat || (IDLEBOOT_MSG_LEN <? length t)%nat || bool_decide (is_Some (fst (filterfmt t 1))) then x
      else Settings vis con vol size boot t imod
  | RIdlemod w =>
      let v := if atoi w * 60 =? 0 then MAX_IDLE_MOD else atoi w * 60 in
      if is_empty w || (v <? 1) || (MAX_IDLE_MOD <? v) then x else Settings vis con vol size boot msg v
  | ROther => x
  end.

Definition obey `{BuildConfig} (has_mod : bool) (x : settings) (r : request) : settings :=
  if allowed has_mod r then obeyed r x else x.

(** Within the buffers: minutes fit an [int] as seconds, and a message does not
    have the one length at which it overflows its field. *)
Definition request_ok (r : request) : Prop :=
  match r with
  | RIdleboot w | RIdlemod w => INT_MIN ≤ atoi w * 60 ≤ INT_MAX
  | RMessage t => length t ≠ IDLEBOOT_MSG_LEN
  | _ => True
  end.

#[export] Instance request_ok_dec r : Decision (request_ok r).
Proof. destruct r; cbn; apply _. Defined.

(** ** The whole command *)

Section status.
Context `{BuildConfig} `{Host} `{Commands}.
Context (n gi : Z) (s0 : st) (g0 : group).
Implicit Types s : st.

(** Everybody is in the group as before, and nothing else of a user changes. *)
Definition members_kept (g : group) (s : st) : Prop :=
  ∀ i ui, entry_at i (u_tab s0) = Some ui →
    ∃ ui', entry_at i (u_tab s) = Some ui' ∧ ui' = set_u_group (u_group ui') ui ∧
      (casefold (u_group ui') = casefold (g_name g) ↔ casefold (u_group ui) = casefold (g_name g0)).

(** What the options keep true: a consistent world in which the caller is in
    the group [gi], an ordinary one with the settings [x]. *)
Definition status_inv (x : settings) (s : st) : Prop :=
  world s ∧ (∃ u, entry_at n (u_tab s0) = Some u ∧ casefold (u_group u) = casefold (g_name g0)) ∧
  (∃ g, ordinary_group s gi g ∧ settings_of g = x ∧ g_mod g = g_mod g0 ∧ members_kept g s) ∧
  ∀ j, j ≠ gi → entry_at j (g_tab s) = entry_at j (g_tab s0).

Lemma inv_sized x s : status_inv x s → arrays_sized s.
Proof. by intros [[? _] _]. Qed.
Lemma inv_log x es s : status_inv x s → status_inv x (log es s).
Proof. done. Qed.
Hint Resolve inv_sized inv_log : icb.

Lemma inv_caller x s : status_inv x s → ∃ u, entry_at n (u_tab s) = Some u.
Proof. intros (_ & (u & Hu & _) & (g & _ & _ & _ & Hm) & _). destruct (Hm n u Hu) as (u' & Hu' & _). by exists u'. Qed.

Lemma inv_senderror x m Q s : status_inv x s → (∀ s', status_inv x s' → Q tt s') → wp (senderror n m) Q s.
Proof. intros Hi HQ. eapply wp_senderror; eauto with icb. Qed.
Lemma inv_sendstatus x to c m Q s : status_inv x s → (∀ s', status_inv x s' → Q tt s') → wp (sendstatus to c m) Q s.
Proof. intros Hi HQ. eapply wp_sendstatus; eauto with icb. Qed.
Lemma inv_announce x c m Q s :
  status_inv x s → (∀ s', status_inv x s' → Q 0 s') → wp (s_status_group 1 true n c m) Q s.
Proof.
  intros Hi HQ. destruct (inv_caller _ _ Hi) as [u Hu]. eapply wp_status_group_user; eauto with icb.
Qed.
Lemma inv_user x Q s : status_inv x s → (∀ u, Q u s) → wp (user_at n) Q s.
Proof. intros [u Hu]%inv_caller HQ. by eapply wp_user_at. Qed.
Lemma inv_group x Q s : status_inv x s → (∀ g, -1 ≤ g_mod g < Z.of_nat MAX_USERS → Q g s) → wp (group_at gi) Q s.
Proof.
  intros ([_ Ht] & _ & (g & (Hg & _) & _) & _) HQ. eapply wp_group_at; [done|]. apply HQ. by eapply t_mod.
Qed.

(** A change of the group that leaves its name and its moderator. *)
Lemma inv_upd x y f Q s :
  status_inv x s → (∀ g, settings_of g = x → g_name (f g) = g_name g ∧ g_mod (f g) = g_mod g ∧ settings_of (f g) = y) →
  (∀ s', status_inv y s' → Q tt s') → wp (upd_group gi f) Q s.
Proof.
  intros ([Hs Ht] & Hu & (g & (Hg & Hne & Hserv) & Hx & Em & Hm) & Hj) Hf HQ. destruct (Hf g Hx) as (En & Em' & Hy).
  eapply wp_upd_group; [done|]. apply HQ. split.
  - split; [done|]. by apply (tables_upd_group _ _ _ gi g (f g)).
  - split; [done|]. split.
    + exists (f g). unfold ordinary_group, members_kept. rewrite En, Em'. split; [|done].
      split; [apply entry_set_at; simpl; by rewrite Hg|done].
    + intros j Hne'. simpl. rewrite entry_set_ne by done. by apply Hj.
Qed.

Lemma inv_getword p Q s : short_words p → Q (getword p) s → wp (getword_m p) Q s.
Proof. intros Hp HQ. unfold wp. by rewrite getword_m_run. Qed.
Lemma inv_minutes w Q s : INT_MIN ≤ atoi w * 60 ≤ INT_MAX → Q (atoi w * 60) s → wp (minutes w) Q s.
Proof.
  intros Hr HQ. unfold minutes. destruct (Z.leb_spec INT_MIN (atoi w * 60)); [|lia].
  destruct (Z.leb_spec (atoi w * 60) INT_MAX); [|lia]. by apply wp_ret.
Qed.

(** A word has no rest. *)
Lemma tail_of_word p : get_tail (getword p) = [].
Proof.
  unfold getword. destruct (getword_loop_take p 0) as (rest & _ & Hb & _); [lia|].
  induction Hb as [|c w Hc Hb IH]; [done|]. unfold get_tail in *. simpl. by rewrite Hc.
Qed.
Lemma inv_skip p Q s : short_words p → Q (if is_empty (getword p) then p else []) s → wp (skip_to_end 2 p) Q s.
Proof.
  intros Hp HQ. cbn [skip_to_end]. apply wp_bind, inv_getword; [done|].
  destruct (getword p) as [|c w] eqn:E; [by apply wp_ret|].
  assert (get_tail (c :: w) = []) as -> by (rewrite <-E; apply tail_of_word). by apply wp_ret.
Qed.

Lemma inv_invite_members x s : status_inv x s → wp (invite_members gi) (λ _, status_inv x) s.
Proof.
  intros Hi. unfold invite_members.
  apply (wp_for_zseq (λ _, status_inv x)); [lia|done|]. intros i s1 Hr Hi1.
  destruct (proj2 (entry_at_range (u_tab s1) i)) as [u Hu].
  { destruct (inv_sized _ _ Hi1) as [-> _]. lia. }
  apply wp_bind. eapply wp_user_at; [done|]. apply wp_bind. eapply inv_group; [done|]. intros g _.
  apply wp_when; [intros _|done]. apply wp_bind. eapply inv_upd; [done|intros g' Hg'; by case_if|]. intros s2 Hi2.
  apply wp_bind, wp_when; intros _; [eapply inv_sendstatus; [done|]; intros s3 Hi3|]; by eapply inv_sendstatus.
Qed.

(** The result of an option: the place where the line goes on, and the settings. *)
Definition option_post (p : cstring) (y : settings) (r : cstring * option cstring) (s : st) : Prop :=
  status_inv y s ∧ fst r = p.

Lemma inv_keep x y p1 m s :
  status_inv x s → wp m (λ _, status_inv y) s → wp (keep_p1 p1 m) (option_post p1 y) s.
Proof.
  intros Hi Hm. unfold keep_p1. apply wp_bind. eapply wp_mono; [exact Hm|]. intros cp s1 Hi1. by apply wp_ret.
Qed.

Lemma inv_opt_set x y f text s :
  status_inv x s → (∀ g, settings_of g = x → g_name (f g) = g_name g ∧ g_mod (f g) = g_mod g ∧ settings_of (f g) = y) →
  wp (opt_set gi f text) (λ _, status_inv y) s.
Proof. intros Hi Hf. unfold opt_set. apply wp_bind. eapply inv_upd; [done|done|]. intros s1 Hi1. by apply wp_ret. Qed.

Lemma inv_opt_restrict x s : status_inv x s → wp (opt_restrict gi) (λ _, status_inv (obeyed (RControl RESTRICTED) x)) s.
Proof.
  intros Hi. unfold opt_restrict. apply wp_bind.
  eapply (inv_upd x (obeyed (RControl RESTRICTED) x)); [done|by intros g <-|]. intros s1 Hi1.
  apply wp_bind. eapply wp_mono; [by apply inv_invite_members|]. intros [] s2 Hi2. by apply wp_ret.
Qed.

(** An error message ends the option. *)
Lemma inv_complain x p1 text s : status_inv x s → wp (senderror n text ;; ret (p1, None)) (option_post p1 x) s.
Proof. intros Hi. apply wp_bind. eapply inv_senderror; [done|]. intros s1 Hi1. by apply wp_ret. Qed.

(** A number stored in the group ends the option. *)
Lemma inv_store x y p1 f cp s :
  status_inv x s → (∀ g, settings_of g = x → g_name (f g) = g_name g ∧ g_mod (f g) = g_mod g ∧ settings_of (f g) = y) →
  wp (upd_group gi f ;; ret (p1, cp)) (option_post p1 y) s.
Proof. intros Hi Hf. apply wp_bind. eapply inv_upd; [done|done|]. intros s1 Hi1. by apply wp_ret. Qed.

Lemma inv_opt_size x nick p1 s :
  status_inv x s → short_words (get_tail p1) →
  wp (opt_size n gi nick p1) (option_post (get_tail p1) (obeyed (RSize (getword (get_tail p1))) x)) s.
Proof.
  intros Hi Hp. unfold opt_size. apply wp_bind, inv_getword; [done|]. unfold obeyed. destruct x.
  destruct (getword (get_tail p1)) as [|c w]; cbn [is_empty orb]; [by apply inv_complain|].
  case_if; [by apply inv_complain|]. eapply inv_store; [done|]. by intros g [= <- <- <- <- <- <- <-].
Qed.

Lemma inv_opt_idleboot x nick p1 s :
  status_inv x s → short_words (get_tail p1) → request_ok (RIdleboot (getword (get_tail p1))) →
  wp (opt_idleboot n gi nick p1) (option_post (get_tail p1) (obeyed (RIdleboot (getword (get_tail p1))) x)) s.
Proof.
  intros Hi Hp Hr. unfold opt_idleboot. apply wp_bind, inv_getword; [done|]. unfold obeyed. destruct x.
  destruct (getword (get_tail p1)) as [|c w]; cbn [is_empty orb]; [by apply inv_complain|].
  apply wp_bind, inv_minutes; [done|].
  case_if; [by apply inv_complain|]. eapply inv_store; [done|]. by intros g [= <- <- <- <- <- <- <-].
Qed.

Lemma inv_opt_idlemod x nick p1 s :
  status_inv x s → short_words (get_tail p1) → request_ok (RIdlemod (getword (get_tail p1))) →
  wp (opt_idlemod n gi nick p1) (option_post (get_tail p1) (obeyed (RIdlemod (getword (get_tail p1))) x)) s.
Proof.
  intros Hi Hp Hr. unfold opt_idlemod. apply wp_bind, inv_getword; [done|]. unfold obeyed. destruct x as [vis con vol size boot msg imod].
  destruct (getword (get_tail p1)) as [|c w]; cbn [is_empty orb]; [by apply inv_complain|].
  apply wp_bind, inv_minutes; [done|]. apply wp_bind.
  eapply (wp_mono _ (λ _, status_inv (Settings vis con vol size boot msg imod))).
  { apply wp_when; [intros _|done]. by eapply inv_sendstatus. }
  intros [] s1 Hi1. destruct ((_ <? 1) || _); [by apply inv_complain|]. eapply inv_store; [done|]. by intros g [= <- <- <- <- <- <- <-].
Qed.

Lemma inv_opt_idleboot_msg x p1 s :
  status_inv x s → short_words (get_tail p1) → request_ok (RMessage (get_tail p1)) →
  wp (opt_idleboot_msg n gi p1) (option_post (if is_empty (getword (get_tail p1)) then get_tail p1 else [])
    (obeyed (RMessage (get_tail p1)) x)) s.
Proof.
  intros Hi Hp Hr. cbn [request_ok] in Hr. unfold opt_idleboot_msg. apply wp_bind.
  eapply (wp_mono _ (λ _, status_inv (obeyed (RMessage (get_tail p1)) x))).
  - unfold obeyed. destruct x as [vis con vol size boot msg imod].
    destruct ((length (get_tail p1) =? 0)%nat || _) eqn:E; cbn [orb]; [by eapply inv_senderror|].
    destruct (fst (filterfmt (get_tail p1) 1)).
    { rewrite bool_decide_true by eauto. by eapply inv_senderror. }
    rewrite bool_decide_false by (by intros []). apply orb_false_iff in E as [_ E%Nat.ltb_ge].
    destruct (Nat.leb_spec IDLEBOOT_MSG_LEN (length (get_tail p1))); [lia|].
    apply wp_bind. eapply (inv_upd _ (Settings vis con vol size boot (get_tail p1) imod));
      [done|by intros g [= <- <- <- <- <- <- <-]|]. intros s1 Hi1. by eapply inv_sendstatus.
  - intros [] s1 Hi1. apply wp_bind, inv_skip; [done|]. by apply wp_ret.
Qed.

(** The members of a renamed group. *)
Lemma members_renamed g new s :
  world s → ordinary_group s gi g → new ≠ [] →
  (find_group new (g_tab s) < 0 ∨ find_group new (g_tab s) = gi) →
  members_kept g s → members_kept (set_g_name new g) (renamed s gi g new).
Proof.
  intros Hw Ho Hnew Hfree Hm i ui Hui. destruct (Hm i ui Hui) as (u1 & Hu1 & E1 & M1).
  destruct (renamed_members s gi g new i u1 Hw Ho Hnew Hfree Hu1) as (u2 & Hu2 & E2 & M2).
  exists u2. split; [done|]. split; [by rewrite E2, E1|]. simpl. tauto.
Qed.

Lemma inv_opt_name x nick p1 s :
  status_inv x s → short_words (get_tail p1) → wp (opt_name n gi nick p1) (option_post (get_tail p1) x) s.
Proof.
  intros Hi Hp. unfold opt_name. apply wp_bind, inv_getword; [done|]. apply wp_bind.
  destruct Hi as (Hw & Hu & (g & Ho & Hx & Em & Hm) & Hj). eapply wp_set_name; [done|done| | |].
  - apply Forall_forall. intros c Hc%list_elem_of_fmap. destruct Hc as (d & -> & _). by apply filter_name_char_ok.
  - intros _ es. apply wp_ret. split; [|done]. split; [exact Hw|]. split; [done|]. split; [by exists g|done].
  - intros Hnot Hw'. apply wp_ret. split; [|done]. set (new := take MAX_GROUPLEN _) in *.
    assert (new ≠ []) as Hnew by (intros E; apply Hnot; left; unfold new in E; by destruct (filtergroupname _)).
    assert (find_group new (g_tab s) < 0 ∨ find_group new (g_tab s) = gi) as Hfree.
    { unfold name_refused in Hnot. fold new in Hnot. destruct (Z.lt_ge_cases (find_group new (g_tab s)) 0); [by left|].
      right. destruct (Z.eq_dec (find_group new (g_tab s)) gi); [done|tauto]. }
    split; [done|]. split; [done|]. split.
    2:{ intros j Hne. simpl. rewrite entry_set_ne by done. by apply Hj. }
    exists (set_g_name new g). split; [|split; [done|split; [done|by apply members_renamed]]].
    pose proof Ho as (Hg & _ & Hserv). split; [apply entry_set_at; simpl; by rewrite Hg|]. split; [done|].
    intros v Hv E. destruct (entry_at NICKSERV (u_tab s)) as [v0|] eqn:E0.
    + destruct (renamed_members s gi g new NICKSERV v0 Hw Ho Hnew Hfree E0) as (v' & Hv' & _ & Hm').
      rewrite Hv in Hv'. injection Hv' as <-. apply (Hserv v0 eq_refl). by apply Hm'.
    + simpl in Hv. rewrite rename_entry, E0 in Hv. done.
Qed.

Lemma inv_dump_table x s : status_inv x s → wp (dump_table n) (λ _, status_inv x) s.
Proof.
  intros Hi. unfold dump_table. apply (wp_for_each (λ _, status_inv x)); [done|].
  intros pre y rest s1 _ Hi1. by eapply inv_sendstatus.
Qed.

(** An option that the group, which has no moderator, refuses. *)
Lemma inv_refused x lu what p1 s :
  status_inv x s → short_words (get_tail p1) →
  wp (senderror n (str "Groups without a moderator cannot " ++ what ++ str ".") ;;
      if (lu =? SET_IDLEBOOT) || (lu =? SET_IDLEMOD) then
        let p1 := get_tail p1 in _ <- getword_m p1 ;; ret (p1, None)
      else ret (p1, None))
    (option_post (if (lu =? SET_IDLEBOOT) || (lu =? SET_IDLEMOD) then get_tail p1 else p1) x) s.
Proof.
  intros Hi Hp. apply wp_bind. eapply inv_senderror; [done|]. intros s1 Hi1. case_if; [|by apply wp_ret].
  apply wp_bind, inv_getword; [done|]. by apply wp_ret.
Qed.

Lemma inv_option x has_mod p1 s :
  status_inv x s → short_words p1 → request_ok (fst (request_of p1)) →
  wp (status_option n gi has_mod p1 (getword p1))
    (option_post (snd (request_of p1)) (obey has_mod x (fst (request_of p1)))) s.
Proof.
  intros Hi Hp. pose proof (short_words_tail _ Hp) as Ht. unfold status_option, request_of, obey.
  intros Hr. apply wp_bind. eapply inv_user; [done|]. intros u. revert Hr.
  generalize (lookup_cmd (getword p1) status_table). intros lu.
  pose proof (λ what, inv_refused x lu what p1 s Hi Ht) as Hno. revert Hno. unfold needs_mod.
  repeat match goal with
  | |- context [lu =? ?k] => destruct (Z.eqb_spec lu k) as [->|?]
  end; repeat match goal with
  | |- context [?a =? ?b] => is_const a; is_const b; let v := eval vm_compute in (a =? b) in change (a =? b) with v
  end; cbn [orb fst snd]; intros Hno Hr; destruct has_mod; cbn [allowed orb negb].
  all: try match goal with |- context [str "Groups without a moderator cannot "] => exact (Hno _) end; clear Hno.
  all: assert (obeyed ROther x = x) as Eo by (by destruct x); rewrite ?Eo.
  all: try match goal with |- wp (keep_p1 _ _) _ _ => apply (inv_keep x); [done|] end.
  all: match goal with
  | |- wp (opt_size _ _ _ _) _ _ => by apply inv_opt_size
  | |- wp (opt_idleboot _ _ _ _) _ _ => by apply inv_opt_idleboot
  | |- wp (opt_idlemod _ _ _ _) _ _ => by apply inv_opt_idlemod
  | |- wp (opt_idleboot_msg _ _ _) _ _ => by apply inv_opt_idleboot_msg
  | |- wp (opt_name _ _ _ _) _ _ => by apply inv_opt_name
  | |- wp (opt_restrict _) _ _ => by apply inv_opt_restrict
  | |- wp (opt_set _ _ _) _ _ => eapply inv_opt_set; [done|by intros g <-]
  | |- wp (opt_moderate _) _ _ => eapply inv_opt_set; [done|by intros g <-]
  | |- wp (opt_control _) _ _ => eapply inv_opt_set; [done|by intros g <-]
  | |- wp (opt_public _ _) _ _ => eapply inv_opt_set; [done|by intros g <-]
  | |- wp (bind (dump_table _) _) _ _ =>
      apply wp_bind; eapply wp_mono; [by apply inv_dump_table|]; intros [] s1 Hi1; by apply wp_ret
  | _ => by apply inv_complain
  end.
Qed.

Lemma request_of_rest p1 : snd (request_of p1) = p1 ∨ snd (request_of p1) = get_tail p1 ∨ snd (request_of p1) = [].
Proof. unfold request_of. repeat (case_if; cbn [snd]; auto). Qed.

Lemma inv_loop fuel x has_mod p1 s :
  (length p1 ≤ fuel)%nat → status_inv x s → short_words p1 → Forall request_ok (requests fuel p1) →
  wp (status_loop fuel n gi has_mod p1) (λ _, status_inv (foldl (obey has_mod) x (requests fuel p1))) s.
Proof.
  revert x p1 s. induction fuel as [|fuel IH]; intros x p1 s Hl Hi Hp Hok; cbn [status_loop];
    apply wp_bind, inv_getword; [done| |done|].
  - destruct p1; [by apply wp_ret|simpl in Hl; lia].
  - cbn [requests] in Hok |- *. destruct (getword p1) as [|c w] eqn:E; [by apply wp_ret|].
    apply Forall_cons in Hok as [Hr Hok]. assert (p1 ≠ []) as Hne by (by intros ->). apply wp_bind. rewrite <-E.
    eapply wp_mono; [by apply inv_option|]. intros [p1' cp] s1 (Hi1 & Hp1). cbn [fst snd] in *. subst p1'.
    apply wp_bind. eapply (wp_mono _ (λ _, status_inv (obey has_mod x (request_of p1).1))).
    + destruct cp as [[|d cp]|]; [done| |done]. apply wp_bind. eapply inv_announce; [done|]. intros s2 Hi2. by apply wp_ret.
    + intros [] s2 Hi2. apply IH; [|done| |done].
      * pose proof (get_tail_shorter p1 Hne). destruct (request_of_rest p1) as [->|[->| ->]]; [lia| |cbn; lia].
        destruct (get_tail p1) as [|d q] eqn:Eq; [cbn; lia|]. pose proof (get_tail_shorter (d :: q) ltac:(done)). lia.
      * destruct (request_of_rest p1) as [->|[->| ->]]; [by apply short_words_tail|by do 2 apply short_words_tail|].
        intros k. specialize (Hp (length p1)). rewrite drop_all in Hp.
        change (get_tail []) with (@nil byte). by rewrite drop_nil.
Qed.
End status.

(** Who may change the settings of a group. *)
Definition settable (n : Z) (g : group) : bool :=
  bool_decide (fixed_group (g_name g) = None) &&
  ((g_mod g =? n) || (g_control g =? PUBLIC) || ((g_mod g =? -1) && (g_modtimeout g <=? 0))).

(** C16: changing the settings of a group.  On a line within the buffers (words
    shorter than [getword]'s array, minutes that fit an [int] as seconds, no
    idle-boot message of exactly the length at which its field overflows) the
    command of a user in an ordinary group always completes with 0.  When the
    user may change the group, its settings are afterwards the old ones with
    the options of the line obeyed from left to right, those out of range and
    those that a group without a moderator refuses left out; otherwise they are
    the old ones.  Whatever is invited, renamed or announced on the way, the
    moderator and every other group stay as they were, exactly the old members
    are in the group, nothing else of any user changes, and the tables stay
    consistent. *)
Theorem s_status_correct `{BuildConfig} `{Host} `{Commands} n u g c f1 (s : st) :
  let gi := find_group (u_group u) (g_tab s) in
  let line := c :: f1 in
  let has_mod := negb (g_mod g =? -1) || (0 <? g_modtimeout g) in
  world s → entry_at n (u_tab s) = Some u → ordinary_group s gi g →
  short_words line → Forall request_ok (requests (length line) line) →
  ∃ s' g', s_status n 2 line s = Some (0, s') ∧ world s' ∧ entry_at gi (g_tab s') = Some g' ∧
    settings_of g' = (if settable n g then foldl (obey has_mod) (settings_of g) (requests (length line) line) else settings_of g) ∧
    g_mod g' = g_mod g ∧ (∀ j, j ≠ gi → entry_at j (g_tab s') = entry_at j (g_tab s)) ∧ members_kept s g g' s'.
Proof.
  intros gi line has_mod Hw Hu Ho Hp Hok.
  set (y := if settable n g then _ else _).
  cut (wp (s_status n 2 line) (λ r s', r = 0 ∧ status_inv n gi s g y s') s).
  { intros (r & s' & Hr & -> & Hw' & _ & (g' & (Hg' & _) & Hy & Hm & Hk) & Hj)%wp_run. by exists s', g'. }
  pose proof Ho as (Hg & Hgn & _). pose proof (proj1 Hw) as Hs.
  assert (casefold (u_group u) = casefold (g_name g)) as Ec.
  { assert (0 ≤ gi) as Hge by (apply entry_at_lookup in Hg; tauto).
    destruct (find_group_entry _ _ Hge) as (g2 & Hg2 & E2 & _). fold gi in Hg2. congruence. }
  assert (status_inv n gi s g (settings_of g) s) as Hi.
  { split; [done|]. split; [by exists u|]. split; [|done]. exists g. split; [done|]. split; [done|]. split; [done|].
    intros i ui Hui. exists ui. split; [done|]. split; [by destruct ui|done]. }
  unfold s_status, line. cbn [Z.eqb Pos.eqb]. eapply wp_my_group; [done|done|exact Hg|]. fold gi.
  apply wp_bind. eapply wp_group_at; [done|].
  assert (∀ text, settable n g = false → wp (senderror n text ;; ret 0) (λ r s', r = 0 ∧ status_inv n gi s g y s') s) as Hno.
  { intros text E. unfold y. rewrite E. apply wp_bind. eapply inv_senderror; [exact Hi|]. intros s1 Hi1. by apply wp_ret. }
  assert (settable n g = bool_decide (fixed_group (g_name g) = None) && negb (negb (g_mod g =? n) && has_mod && negb (g_control g =? PUBLIC))) as Eset.
  { unfold settable, has_mod. f_equal. rewrite Z.leb_antisym.
    by destruct (g_mod g =? n), (g_control g =? PUBLIC), (g_mod g =? -1), (0 <? g_modtimeout g). }
  destruct (fixed_group (g_name g)) as [name|]; [by apply Hno|]. rewrite bool_decide_true in Eset by done.
  fold has_mod. destruct (negb _ && has_mod && _); [by apply Hno|]. cbn [andb negb] in Eset. unfold y. rewrite Eset.
  apply wp_bind. eapply wp_mono; [by apply (inv_loop n gi s g)|].
  intros [] s' Hi'. by apply wp_ret.
Qed.

(** Nobody changes the settings of the groups 1, ~IDLE~ and ~RESEDA~, and
    in any other group that is not public only the moderator does (when there
    is one, or one that has just left): the command completes and touches
    nothing but the log. *)
Theorem s_status_guarded `{BuildConfig} `{Host} `{Commands} n u g c f1 (s : st) :
  world s → entry_at n (u_tab s) = Some u →
  entry_at (find_group (u_group u) (g_tab s)) (g_tab s) = Some g →
  is_Some (fixed_group (g_name g)) ∨
  (g_mod g ≠ n ∧ g_control g ≠ PUBLIC ∧ (g_mod g ≠ -1 ∨ 0 < g_modtimeout g)) →
  harmless (s_status n 2 (c :: f1)) s.
Proof.
  intros Hw Hu Hg Hc. pose proof (proj1 Hw) as Hs. apply harmless_wp. unfold s_status. cbn [Z.eqb Pos.eqb].
  eapply wp_my_group; [done|done|done|]. apply wp_bind. eapply wp_group_at; [done|].
  destruct (fixed_group (g_name g)) as [name|]; [by apply wp_harmless_error|].
  destruct Hc as [[? ?]|(Hm & Hp & Hh)]; [done|].
  destruct (Z.eqb_spec (g_mod g) n); [done|]. destruct (Z.eqb_spec (g_control g) PUBLIC); [done|].
  assert (negb (g_mod g =? -1) || (0 <? g_modtimeout g) = true) as ->; [|by apply wp_harmless_error].
  apply orb_true_iff. destruct Hh as [Hh|Hh]; [left; by destruct (Z.eqb_spec (g_mod g) (-1))|right; by apply Z.ltb_lt].
Qed.

(** ** On the small server *)

Lemma short_words_check p :
  forallb (λ k, (getword_nul_index (drop k p) <? WORD_SIZE)%nat) (seq 0 (S (length p))) = true → short_words p.
Proof.
  rewrite forallb_forall. intros Hf k. destruct (decide (k ≤ length p)%nat) as [Hle|Hgt].
  - apply Nat.ltb_lt, Hf, in_seq. lia.
  - rewrite drop_ge by lia. rewrite <-(drop_all p). apply Nat.ltb_lt, Hf, in_seq. lia.
Qed.

Lemma s_status_correct_witness :
  ∃ s' g', @s_status demo_build demo_commands 0 2 (str "r # 3 b 90 name Salon # -1 q") demo_state = Some (0, s') ∧
    @world demo_build s' ∧ entry_at 1 (g_tab s') = Some g' ∧
    settings_of g' = Settings VISIBLE RESTRICTED QUIET 3 5400 [] 3600.
Proof.
  destruct (@s_status_correct demo_build demo_host demo_commands 0 (demo_user "amy" "Lobby")
    (demo_group "Lobby" MODERATED 0) "r" (str " # 3 b 90 name Salon # -1 q") demo_state demo_world eq_refl)
    as (s' & g' & Hr & Hw & Hg & Hset & _).
  - exact demo_ordinary.
  - apply short_words_check. vm_compute. reflexivity.
  - apply (bool_decide_eq_true_1 _). vm_compute. reflexivity.
  - exists s', g'. split; [exact Hr|]. split; [exact Hw|]. split; [exact Hg|]. rewrite Hset. vm_compute. reflexivity.
Defined.

Lemma s_status_guarded_witness :
  @harmless _ (@s_status demo_build demo_commands 1 2 (str "p")) demo_state.
Proof.
  apply (@s_status_guarded demo_build demo_host demo_commands 1 (demo_user "bob" "Lobby")
    (demo_group "Lobby" MODERATED 0) "p" [] demo_state demo_world eq_refl).
  - vm_compute; reflexivity.
  - right. split; [discriminate|]. split; [discriminate|]. left. discriminate.
Defined.

(** The length check of the idle-boot message admits a message of exactly
    the size of the field, and the copy then writes its terminator past the end. *)
Theorem idleboot_msg_overflow `{BuildConfig} n gi p1 (s : st) :
  length (get_tail p1) = IDLEBOOT_MSG_LEN → (filterfmt (get_tail p1) 1).1 = None →
  opt_idleboot_msg n gi p1 s = None.
Proof.
  intros Hl Hf. unfold opt_idleboot_msg. unfold bind at 1. rewrite Hl, Hf.
  by destruct (Nat.ltb_spec IDLEBOOT_MSG_LEN IDLEBOOT_MSG_LEN); [lia|].
Qed.

Lemma idleboot_msg_overflow_witness :
  @opt_idleboot_msg demo_build 0 1 (str "idlebootmsg %s has been carried away by a large swarm of noisy bat")
    demo_state = None.
Proof. apply idleboot_msg_overflow; vm_compute; reflexivity. Defined.
