(* ===== verification/Lifecycle.v ===== *)
(** * The life of the server and of its connections (server/ipcf.c, parts of
    server/icbutil.c and server/main.c)

    The tables at the start of the program, what is done when a connection is
    lost (the slot is cleared, the groups of the user get another moderator or
    wait for the old one, an empty group disappears), and the periodic sweep:
    the announced shutdown, killed connections, idle moderators and idle users. *)

From Stdlib Require Import ZArith Lia String.
From S2P Require Import Config Prelude Utf8 StrUtil NameList CLib Monad Dbm IcbDb State Tables Send GroupCast World Access GroupChange.

Local Open Scope Z_scope.
Local Open Scope icb_monad_scope.

Definition MOD_TIMEOUT : Z := 300.
Definition IDLE_BOOT_MSG : cstring := str "A swarm of bats swoops down and carries %s away.".
Definition idle_mod_text (who name : cstring) : cstring :=
  str "A piano suddenly falls on " ++ who ++ str ", dislodging moderatorship of " ++ name ++ str ".".

(** The least idle of the users that satisfy a test, the first one among
    equals, -1 when there is none: the loop over the user table that is written
    four times in ipcf.c.  [best] is the time of the last packet of [newmod]. *)
Fixpoint pick_mod (p : user → bool) (ut : list user) (j newmod best : Z) : Z :=
  match ut with
  | [] => newmod
  | u :: ut' =>
      if p u && ((newmod =? -1) || (0 <? u_t_recv u - best))
      then pick_mod p ut' (j + 1) j (u_t_recv u)
      else pick_mod p ut' (j + 1) newmod best
  end.
Definition least_idle (p : user → bool) (ut : list user) : Z := pick_mod p ut 0 (-1) 0.

(** Logged in and in the group. *)
Definition in_group (name : cstring) (u : user) : bool :=
  (LOGIN_COMPLETE <=? u_login u) && strcaseeq (u_group u) name.

Section lifecycle.
Context `{BuildConfig} `{Host} `{Commands}.

(** ** The start of the program *)

(** The tables of a new server: empty, except for the resident user in its
    group. *)
Definition init_tables : M st unit :=
  init_groups ;;
  clear_users ;;
  for_each (zseq MAX_REAL_USERS) (λ i, set_int S_kill set_S_kill i 0) ;;
  TheTime <- time ;;
  fill_user_entry NICKSERV (Some (str "server")) (Some thishost) (Some (str "Server")) (Some [])
    (Some (str "ICB")) (Some []) TheTime 0 1 PERM_NULL ;;
  upd_user NICKSERV (λ u,
    set_u_realname (str "registered") (set_u_t_recv TheTime (set_u_t_on TheTime (set_u_login LOGIN_COMPLETE u)))) ;;
  fill_group_entry 0 (str "ICB") (str "...here to serve you!") SUPERSECRET RESTRICTED NICKSERV QUIET ;;
  _ <- nickwritetime NICKSERV 0 ;; ret tt.

(** The arrays of the pings and of the last private messages. *)
Definition init_arrays : M st unit :=
  for_each (zseq MAX_REAL_USERS) (λ i,
    set_int lpriv_id set_lpriv_id i (-1) ;;
    set_int pong_req set_pong_req i (-1) ;;
    set_int ping_time set_ping_time i 0).

Definition startup : M st unit := init_tables ;; init_arrays.

(** ** The end of the program *)

Definition icbexit : M st unit :=
  for_each (zseq MAX_REAL_USERS) (λ i,
    u <- user_at i ;; when (LOGIN_FALSE <? u_login u) (emit (EvDisconnect i))) ;;
  emit EvExit.

(** ** A lost connection *)

(** The users who asked to be told are told. *)
Definition notify_off (n : Z) (u : user) : M st unit :=
  let one := user_address u in
  let three := ucaseit (u_nickname u) in
  for_each (zseq (Z.of_nat MAX_USERS)) (λ j,
    uj <- user_at j ;;
    when (negb (n =? j) && (LOGIN_FALSE <? u_login uj)) (
      a <- lift (names_match three (u_n_notifies uj)) ;;
      b <- (if a : bool then ret true else lift (names_match one (u_s_notifies uj))) ;;
      when b (
        gi <- gets (λ s, find_group (u_group u) (g_tab s)) ;;
        g <- group_at gi ;;
        when (negb (g_visibility g =? SUPERSECRET))
          (sendstatus j (str "Notify-Off")
             (take 254 (u_nickname u ++ str " (" ++ one ++ str ") has just signed off")))))).

(** One turn of the loop over the groups of a lost moderator. *)
Definition lost_mod (was_mod : Z) (was_registered : bool) (t_name : cstring) : M st unit :=
  g <- group_at was_mod ;;
  num_left <- gets (λ s, count_users_in_group (g_name g) (u_tab s)) ;;
  when (0 <? num_left) (
    if negb was_registered then
      when (negb (g_volume g =? QUIET))
        (s_status_group 2 false was_mod (str "Sign-off") (str "Your group moderator signed off. (No timeout)") ;; ret tt) ;;
      newmod <- gets (λ s, least_idle (in_group (g_name g)) (u_tab s)) ;;
      upd_group was_mod (set_g_mod newmod) ;;
      when (0 <=? newmod) (
        um <- user_at newmod ;;
        s_status_group 2 false was_mod (str "Pass") (u_nickname um ++ str " is now mod.") ;; ret tt)
    else
      s_status_group 2 false was_mod (str "Mod")
        (str "Your group moderator signed off. (" ++ itoa MOD_TIMEOUT ++ str " second timeout)") ;;
      upd_group was_mod (λ g, set_g_missingmod t_name (set_g_mod (-1) g)) ;;
      TheTime <- time ;;
      upd_group was_mod (set_g_modtimeout (TheTime + MOD_TIMEOUT))).

(** The loop; it has no end when a group of the moderator has no user. *)
Fixpoint lost_mods (fuel : nat) (n : Z) (was_registered : bool) (t_name : cstring) : M st unit :=
  was_mod <- gets (λ s, check_mods n (g_tab s)) ;;
  if was_mod =? -1 then ret tt
  else
    match fuel with
    | O => ub
    | S fuel => lost_mod was_mod was_registered t_name ;; lost_mods fuel n was_registered t_name
    end.

Definition s_lost_user (n : Z) : M st Z :=
  if MAX_REAL_USERS <=? n then ret 0
  else
    u <- user_at n ;;
    if u_login u =? LOGIN_FALSE then clear_user_item n ;; ret 0
    else
      let was_registered := (0 <? length (u_realname u))%nat in
      is_killed <- int_at S_kill n ;;
      let t_grp := strncpy (u_group u) MAX_GROUPLEN in
      let t_name := strncpy (u_nickname u) MAX_NICKLEN in
      let t_fid := u_nickname u ++ str " (" ++ u_loginid u ++ str "@" ++ u_nodeid u ++ str ")" in
      notify_off n u ;;
      clear_user_item n ;;
      ogi <- gets (λ s, find_group t_grp (g_tab s)) ;;
      if ogi <? 0 then ret (-1)
      else
        num_left <- gets (λ s, count_users_in_group t_grp (u_tab s)) ;;
        (if 0 <? num_left then
           g <- group_at ogi ;;
           when (negb (g_volume g =? QUIET))
             (s_status_group 2 false ogi (str "Sign-off")
                (t_fid ++ (if 0 <? is_killed then str " has been disconnected." else str " has signed off.")) ;; ret tt)
         else clear_group_item ogi) ;;
        lost_mods MAX_GROUPS n was_registered t_name ;;
        ret 0.

(** ** The periodic sweep *)

Definition bump (f : server_stats → server_stats) : M st unit := modify (λ s, set_stats (f (stats s)) s).
Definition more_drops (t : server_stats) : server_stats :=
  Stats (start_time t) (signons t) (boots t) (idleboots t) (idlemods t) (drops t + 1).
Definition more_idlemods (t : server_stats) : server_stats :=
  Stats (start_time t) (signons t) (boots t) (idleboots t) (idlemods t + 1) (drops t).
Definition more_idleboots (t : server_stats) : server_stats :=
  Stats (start_time t) (signons t) (boots t) (idleboots t + 1) (idlemods t) (drops t).

(** The warnings before a shutdown. *)
Definition warn_shutdown (TheTime before notified : Z) (text : cstring) : M st unit :=
  s <- getS ;;
  let die := TimeToDie (glob s) in
  when ((die - before <=? TheTime) && (0 <? die) && (ShutdownNotify (glob s) =? notified)) (
    for_each (zseq MAX_REAL_USERS) (λ i,
      u <- user_at i ;; when (LOGIN_FALSE <? u_login u) (sendimport i (str "Shutdown") text)) ;;
    modify (λ s, set_ShutdownNotify (ShutdownNotify (glob s) + 1) s)).

Definition kill_pending : M st unit :=
  for_each (zseq MAX_REAL_USERS) (λ i,
    u <- user_at i ;;
    when (LOGIN_FALSE <? u_login u) (
      k <- int_at S_kill i ;;
      when (0 <? k) (bump more_drops ;; emit (EvDisconnect i)))).

(** Somebody in group [i] is less idle than its moderator. *)
Definition someone_else (TheTime mod_ i mod_idle : Z) (s : st) : bool :=
  existsb (λ ui, match entry_at ui (u_tab s) with
    | Some u => negb (ui =? mod_) && (LOGIN_COMPLETE <=? u_login u) && is_empty (u_awaymsg u) &&
                (find_group (u_group u) (g_tab s) =? i) && (TheTime - u_t_recv u <? mod_idle)
    | None => false
    end) (zseq MAX_REAL_USERS).

(** A moderator that has been idle for too long is told to go. *)
Definition check_idle_mod (TheTime i : Z) : M st unit :=
  g <- group_at i ;;
  when (negb (g_control g =? PUBLIC) && (0 <=? g_mod g)) (
    let mod_ := g_mod g in
    um <- user_at mod_ ;;
    let mod_idle := to_int (TheTime - u_t_recv um) in
    when (g_idlemod g <? mod_idle) (
      found <- gets (someone_else TheTime mod_ i mod_idle) ;;
      when found (
        sendstatus mod_ (str "Idle-Mod") (idle_mod_text (str "you") (g_name g)) ;;
        when (negb (g_volume g =? QUIET)) (
          gi <- gets (λ s, find_group (u_group um) (g_tab s)) ;;
          (if gi =? i then s_status_group 1 false mod_ (str "Idle-Mod") (idle_mod_text (u_nickname um) (g_name g))
           else s_status_group 2 false i (str "Idle-Mod") (idle_mod_text (u_nickname um) (g_name g))) ;; ret tt) ;;
        upd_group i (set_g_modtimeout 1) ;;
        bump more_idlemods))).

(** When the time-out of a group has passed its least idle user who is not
    away becomes the moderator. *)
Definition pass_mod (TheTime i : Z) : M st unit :=
  g <- group_at i ;;
  when ((0 <? g_modtimeout g) && (g_modtimeout g <? TheTime)) (
    newmod <- gets (λ s, least_idle (λ u, (LOGIN_COMPLETE <=? u_login u) && is_empty (u_awaymsg u) &&
                                          strcaseeq (u_group u) (g_name g)) (u_tab s)) ;;
    when (negb (newmod =? -1)) (
      upd_group i (λ g, set_g_missingmod [] (set_g_modtimeout 0 (set_g_mod newmod g))) ;;
      um <- user_at newmod ;;
      s_status_group 2 false i (str "Timeout") (u_nickname um ++ str " is now mod.") ;; ret tt)).

(** The groups of an idle moderator are passed on. *)
Definition let_go (i j : Z) : M st unit :=
  g <- group_at j ;;
  when (g_mod g =? i) (
    newmod <- gets (λ s, least_idle (in_group (g_name g)) (u_tab s)) ;;
    upd_group j (set_g_mod newmod) ;;
    when (0 <=? newmod) (
      um <- user_at newmod ;;
      u <- user_at i ;;
      (if streq (g_name g) (u_group u) then s_status_group 1 false i (str "Pass") (u_nickname um ++ str " is now mod.")
       else s_status_group 2 false j (str "Pass") (u_nickname um ++ str " is now mod.")) ;; ret tt)).

(** An idle user is carried to [IDLE_GROUP].  Its name is copied to [fields[1]],
    which is that of an earlier packet. *)
Definition idle_boot (TheTime i : Z) : M st unit :=
  u <- user_at i ;;
  when (LOGIN_COMPLETE <=? u_login u) (
    gi <- gets (λ s, find_group (u_group u) (g_tab s)) ;;
    when (0 <=? gi) (
      g <- group_at gi ;;
      when (negb (strcaseeq (u_group u) IDLE_GROUP) && (0 <? g_idleboot g)) (
        let bootmsg := if is_empty (g_idleboot_msg g) then IDLE_BOOT_MSG else g_idleboot_msg g in
        when (g_idleboot g <? TheTime - u_t_recv u) (
          you <- lift (fst <$> sprintf_s bootmsg [str "you"]) ;;
          sendstatus i (str "Idle-Boot") you ;;
          when (negb (g_volume g =? QUIET)) (
            they <- lift (fst <$> sprintf_s bootmsg [u_nickname u]) ;;
            s_status_group 1 false i (str "Idle-Boot") they ;; ret tt) ;;
          for_each (zseq (Z.of_nat MAX_GROUPS)) (let_go i) ;;
          stale_field 1 ;;
          modify (set_is_booting 1) ;;
          _ <- s_change i 2 IDLE_GROUP ;;
          modify (set_is_booting 0) ;;
          bump more_idleboots)))).

Definition s_didpoll (n : Z) : M st unit :=
  if n =? 1 then ret tt
  else
    TheTime <- time ;;
    die <- gets (λ s, TimeToDie (glob s)) ;;
    if (die <=? TheTime) && (0 <? die) then icbexit
    else
      warn_shutdown TheTime 300 0 (str "Server shutting down in 5 minutes!") ;;
      warn_shutdown TheTime 60 1 (str "Server shutting down in 1 minute!") ;;
      kill_pending ;;
      for_each (zseq (Z.of_nat MAX_GROUPS)) (λ i, check_idle_mod TheTime i ;; pass_mod TheTime i) ;;
      for_each (zseq MAX_REAL_USERS) (idle_boot TheTime).
End lifecycle.

(** ** The least idle user *)

Definition picked (p : user → bool) (ut : list user) (newmod best : Z) : Prop :=
  newmod = -1 ∧ (∀ i u, entry_at i ut = Some u → p u = false) ∨
  ∃ u, entry_at newmod ut = Some u ∧ p u = true ∧ best = u_t_recv u ∧
    ∀ i v, entry_at i ut = Some v → p v = true → u_t_recv v < u_t_recv u ∨ u_t_recv v = u_t_recv u ∧ newmod ≤ i.

Lemma entry_at_snoc {A} (l : list A) x i y :
  entry_at i (l ++ [x]) = Some y ↔ entry_at i l = Some y ∨ i = Z.of_nat (length l) ∧ y = x.
Proof.
  rewrite !entry_at_lookup, lookup_app_Some. split.
  - intros [Hi [Hl|[Hle Hx]]]; [by left|]. apply list_lookup_singleton_Some in Hx as [E ->]. right. split; [lia|done].
  - intros [[Hi Hl]|[-> ->]]; (split; [lia|]); [by left|]. right. rewrite Nat2Z.id, Nat.sub_diag. done.
Qed.

Lemma pick_mod_spec p ut pre newmod best :
  picked p pre newmod best →
  ∃ best', picked p (pre ++ ut) (pick_mod p ut (Z.of_nat (length pre)) newmod best) best'.
Proof.
  revert pre newmod best. induction ut as [|u ut IH]; intros pre newmod best Hp; cbn [pick_mod].
  { rewrite app_nil_r. eauto. }
  replace (Z.of_nat (length pre) + 1) with (Z.of_nat (length (pre ++ [u]))) by (rewrite length_app; simpl; lia).
  replace (pre ++ u :: ut) with ((pre ++ [u]) ++ ut) by (by rewrite <-app_assoc).
  assert (∀ i v, entry_at i pre = Some v → i < Z.of_nat (length pre)) as Hlt.
  { intros i v Hv. assert (is_Some (entry_at i pre)) as Hs by eauto. apply entry_at_range in Hs. lia. }
  destruct (p u && _) eqn:E; apply IH; clear IH.
  - apply andb_true_iff in E as [Hpu Hbest]. right. exists u. split; [apply entry_at_snoc; by right|].
    split; [done|]. split; [done|]. intros i v [Hv|[-> ->]]%entry_at_snoc Hpv; [|right; split; [done|lia]]. left.
    destruct Hp as [[-> Hno]|(w & Hw & Hpw & -> & Hmax)]; [by rewrite (Hno i v Hv) in Hpv|].
    apply orb_true_iff in Hbest as [->%Z.eqb_eq|Hd%Z.ltb_lt]; [apply entry_at_lookup in Hw; lia|].
    destruct (Hmax i v Hv Hpv) as [?|[? _]]; lia.
  - destruct Hp as [[-> Hno]|(w & Hw & Hpw & -> & Hmax)].
    + left. split; [done|]. intros i v [Hv|[-> ->]]%entry_at_snoc; [by eapply Hno|]. by destruct (p u).
    + right. exists w. split; [apply entry_at_snoc; by left|]. split; [done|]. split; [done|].
      intros i v [Hv|[-> ->]]%entry_at_snoc Hpv; [by apply Hmax|]. rewrite Hpv in E. simpl in E.
      apply orb_false_iff in E as [_ Hd%Z.ltb_ge]. specialize (Hlt _ _ Hw). lia.
Qed.

Lemma least_idle_spec p ut : ∃ best, picked p ut (least_idle p ut) best.
Proof. apply (pick_mod_spec p ut [] (-1) 0). left. split; [done|]. by intros i u [_ ?]%entry_at_lookup. Qed.

Lemma least_idle_range p ut : -1 ≤ least_idle p ut < Z.of_nat (length ut).
Proof.
  destruct (least_idle_spec p ut) as (b & [[-> _]|(u & Hu & _)]); [lia|].
  assert (is_Some (entry_at (least_idle p ut) ut)) as Hs by eauto. apply entry_at_range in Hs. lia.
Qed.

Lemma least_idle_other p ut i u : entry_at i ut = Some u → p u = false → 0 ≤ i → least_idle p ut ≠ i.
Proof.
  intros Hu Hp Hi E. destruct (least_idle_spec p ut) as (b & [[E' _]|(v & Hv & Hpv & _)]); [lia|].
  rewrite E, Hu in Hv. injection Hv as <-. congruence.
Qed.

(** ** A lost connection: the groups afterwards *)

(** What becomes of a group when its moderator [n] is lost: the least idle user
    takes over, or the group waits for a registered moderator. *)
Definition after_loss (n : Z) (registered : bool) (name : cstring) (now : Z) (ut : list user) (g : group) : group :=
  if g_mod g =? n then
    if registered then set_g_modtimeout (now + MOD_TIMEOUT) (set_g_missingmod name (set_g_mod (-1) g))
    else set_g_mod (least_idle (in_group (g_name g)) ut) g
  else g.

(** The number of groups a user moderates. *)
Definition mods (n : Z) (gt : list group) : nat := length (List.filter (λ g, g_mod g =? n) gt).

Lemma mods_drop n gt j g g' :
  entry_at j gt = Some g → g_mod g = n → g_mod g' ≠ n → S (mods n (entry_set j g' gt)) = mods n gt.
Proof.
  intros [Hj Hg]%entry_at_lookup Em Hne. unfold entry_set, mods. destruct (Z.ltb_spec j 0); [lia|].
  revert Hg. generalize (Z.to_nat j) as k. clear j Hj H. induction gt as [|x gt IH]; intros k Hk; [done|].
  destruct k as [|k]; simpl in Hk |- *.
  - injection Hk as ->. destruct (Z.eqb_spec (g_mod g') n); [done|]. destruct (Z.eqb_spec (g_mod g) n); [done|done].
  - specialize (IH k Hk). destruct (g_mod x =? n); simpl; by rewrite <-IH.
Qed.
Lemma mods_bound n gt : (mods n gt ≤ length gt)%nat.
Proof. unfold mods. apply filter_length_le. Qed.

Section lost.
Context `{BuildConfig} `{Host} `{Commands}.
Implicit Types s : st.

(** [s'] is [s] with the group table [gt] and more events. *)
Definition groups_to (gt : list group) (s s' : st) : Prop := ∃ es, s' = log es (set_g_tab gt s).

Lemma groups_start s : groups_to (g_tab s) s s.
Proof. exists []. rewrite log_nil. by destruct s. Qed.

(** A turn of the loop, for a group with members. *)
Lemma wp_lost_mod j g reg name gt s s1 :
  arrays_sized s → groups_to gt s s1 → entry_at j gt = Some g → 0 < count_users_in_group (g_name g) (u_tab s) →
  wp (lost_mod j reg name) (λ _, groups_to
    (entry_set j (after_loss (g_mod g) reg name (clock s) (u_tab s) g) gt) s) s1.
Proof.
  intros Hs [es ->] Hg Hc. unfold lost_mod, after_loss. rewrite Z.eqb_refl.
  apply wp_bind. eapply wp_group_at; [done|]. apply wp_bind, wp_gets. simpl. apply Z.ltb_lt in Hc. rewrite Hc. simpl.
  destruct reg; simpl.
  - apply wp_bind. eapply wp_status_group_group; [exact Hs|done|]. intros es1. rewrite log_log. apply wp_bind.
    eapply wp_upd_group; [done|]. apply wp_bind, wp_gets. eapply wp_upd_group; [simpl; apply entry_set_at; by rewrite Hg|].
    simpl. rewrite entry_set_twice. by eexists.
  - apply wp_bind. eapply (wp_mono _ (λ _ s', ∃ es', s' = log es' (set_g_tab gt s))).
    { apply wp_when; intros _; [|by eexists]. apply wp_bind. eapply wp_status_group_group; [exact Hs|done|].
      intros es1. apply wp_ret. rewrite log_log. by eexists. }
    intros [] s2 [es2 ->]. apply wp_bind, wp_gets, wp_bind. simpl. eapply wp_upd_group; [done|].
    set (m := least_idle _ _). apply wp_when; intros Hm; [|by eexists]. apply Z.leb_le in Hm.
    pose proof (least_idle_range (in_group (g_name g)) (u_tab s)) as Hr. fold m in Hr.
    destruct (proj2 (entry_at_range (u_tab s) m)) as [um Hum]; [lia|].
    apply wp_bind. eapply wp_user_at; [done|]. apply wp_bind.
    eapply wp_status_group_group; [exact Hs|simpl; apply entry_set_at; by rewrite Hg|]. intros es3. apply wp_ret.
    eexists. rewrite <-log_log. done.
Qed.

Lemma after_loss_mod n reg name now ut g u :
  entry_at n ut = Some u → u_login u = LOGIN_FALSE → g_mod (after_loss n reg name now ut g) ≠ n.
Proof.
  intros Hu Hl. assert (0 ≤ n) by (apply entry_at_lookup in Hu; tauto). unfold after_loss.
  destruct (Z.eqb_spec (g_mod g) n); [|done]. destruct reg; simpl; [lia|].
  apply (least_idle_other _ _ _ u); [done| |done]. unfold in_group. by rewrite Hl.
Qed.
Lemma after_loss_name n reg name now ut g : g_name (after_loss n reg name now ut g) = g_name g.
Proof. unfold after_loss. repeat case_if; done. Qed.
Lemma after_loss_fix n reg name now ut g : g_mod g ≠ n → after_loss n reg name now ut g = g.
Proof. intros Hne. unfold after_loss. by destruct (Z.eqb_spec (g_mod g) n). Qed.

Lemma tables_after_loss n u reg name now ut gt j g :
  tables (-1) ut gt → entry_at n ut = Some u → entry_at j gt = Some g → g_mod g = n →
  tables (-1) ut (entry_set j (after_loss n reg name now ut g) gt).
Proof.
  intros Ht Hu Hg Em. assert (0 ≤ n) by (apply entry_at_lookup in Hu; tauto).
  apply (tables_set_mod _ _ _ j g); [done|done|apply after_loss_name| |].
  - unfold after_loss. rewrite Em, Z.eqb_refl. destruct reg; simpl; [lia|]. rewrite <-(t_users _ _ _ Ht). apply least_idle_range.
  - intros E. rewrite (t_free _ _ _ Ht j g Hg E) in Em. simpl in Em. lia.
Qed.

Lemma check_mods_none n reg name now ut gt :
  check_mods n gt = -1 → after_loss n reg name now ut <$> gt = gt.
Proof.
  intros E. rewrite <-(list_fmap_id gt) at 2. apply list_fmap_ext. intros k g Hk. apply after_loss_fix.
  assert (first_index (λ g, g_mod g =? n) gt < 0) as Hno by (unfold check_mods in E; lia).
  rewrite first_index_none in Hno. apply Z.eqb_neq, (Hno g). by eapply list_elem_of_lookup_2.
Qed.
Lemma check_mods_some n gt :
  check_mods n gt ≠ -1 → ∃ g, entry_at (check_mods n gt) gt = Some g ∧ g_mod g = n.
Proof.
  intros Hne. unfold check_mods in *. destruct (first_index_entry (λ g, g_mod g =? n) gt) as (g & Hg & Hm%Z.eqb_eq); [|eauto].
  pose proof (first_index_range (λ g, g_mod g =? n) gt). lia.
Qed.

(** The loop ends, with every group of the lost user handed over. *)
Lemma wp_lost_mods fuel n u reg name gt s s1 :
  arrays_sized s → groups_to gt s s1 → tables (-1) (u_tab s) gt → entry_at n (u_tab s) = Some u →
  u_login u = LOGIN_FALSE → (mods n gt ≤ fuel)%nat →
  wp (lost_mods fuel n reg name) (λ _ s', groups_to (after_loss n reg name (clock s) (u_tab s) <$> gt) s s' ∧
    tables (-1) (u_tab s) (after_loss n reg name (clock s) (u_tab s) <$> gt)) s1.
Proof.
  intros Hs Hgt Ht Hu Hl Hm. revert gt s1 Hgt Ht Hm. set (f := after_loss n reg name (clock s) (u_tab s)).
  assert (∀ g, g_mod (f g) ≠ n) as Hf by (intros g; by eapply after_loss_mod).
  induction fuel as [|fuel IH]; intros gt s1 Hgt Ht Hm; cbn [lost_mods]; apply wp_bind, wp_gets;
    (assert (g_tab s1 = gt) as -> by (by destruct Hgt as [es ->]));
    destruct (Z.eqb_spec (check_mods n gt) (-1)) as [E|E].
  - apply wp_ret. unfold f. by rewrite check_mods_none.
  - exfalso. destruct (check_mods_some n gt E) as (g & Hg & Em).
    pose proof (mods_drop n gt _ g (f g) Hg Em (Hf g)). lia.
  - apply wp_ret. unfold f. by rewrite check_mods_none.
  - destruct (check_mods_some n gt E) as (g & Hg & Em). set (j := check_mods n gt) in *.
    assert (g_name g ≠ []) as Hgn.
    { intros Hn. rewrite (t_free _ _ _ Ht j g Hg Hn) in Em. apply entry_at_lookup in Hu. simpl in Em. lia. }
    destruct (t_live _ _ _ Ht j g Hg Hgn) as (i & v & Hv & Ev); [apply entry_at_lookup in Hg; lia|].
    apply wp_bind. eapply wp_mono; [apply (wp_lost_mod j g reg name gt s s1); [done|done|done|]|].
    { apply Z.ltb_lt, (count_pos_entry _ _ Hgn). eauto. }
    intros [] s2 H2. rewrite Em in H2. fold (f g) in H2. pose proof (mods_drop n gt j g (f g) Hg Em (Hf g)) as Hd.
    assert (f <$> entry_set j (f g) gt = f <$> gt) as <-; [|apply IH; [done|by eapply tables_after_loss|lia]].
    apply entry_at_lookup in Hg as [Hj Hg]. unfold entry_set. destruct (Z.ltb_spec j 0); [lia|].
    rewrite list_fmap_insert. assert (f (f g) = f g) as -> by (by apply after_loss_fix).
    apply list_insert_id. by rewrite list_lookup_fmap, Hg.
Qed.

(** The notification lists can be searched. *)
Definition notifies_ok (ut : list user) : Prop :=
  ∀ j v, entry_at j ut = Some v → searchable (u_n_notifies v) ∧ searchable (u_s_notifies v).

(** A loop whose turns only add to the log. *)
Lemma wp_logs n body s :
  0 ≤ n → (∀ i es, 0 ≤ i < n → wp (body i) (λ _ s', ∃ es', s' = log es' s) (log es s)) →
  wp (for_each (zseq n) body) (λ _ s', ∃ es', s' = log es' s) s.
Proof.
  intros Hn Hb. apply (wp_for_zseq (λ _ s', ∃ es', s' = log es' s)); [done|exists []; by rewrite log_nil|].
  intros i s' Hi [es ->]. by apply Hb.
Qed.

Lemma wp_notify_off n u s :
  world s → notifies_ok (u_tab s) → entry_at n (u_tab s) = Some u → u_group u ≠ [] →
  wp (notify_off n u) (λ _ s', ∃ es, s' = log es s) s.
Proof.
  intros [Hs Ht] Hno Hu Hg. destruct (find_home _ _ _ _ _ Ht Hu Hg) as (g & Hgi & _).
  apply wp_logs; [lia|]. intros j es Hj.
  destruct (proj2 (entry_at_range (u_tab s) j)) as [uj Huj]; [destruct Hs as [-> _]; lia|].
  destruct (Hno j uj Huj) as [Hn1 Hn2]. destruct (Hn1 (ucaseit (u_nickname u))) as [a Ea], (Hn2 (user_address u)) as [b Eb].
  apply wp_bind. eapply wp_user_at; [done|]. apply wp_when; [|by eexists]. intros _.
  apply wp_bind. eapply wp_lift; [done|]. apply wp_bind.
  eapply (wp_mono _ (λ _ s', s' = log es s)); [destruct a; [done|by eapply wp_lift]|]. intros c s1 ->.
  apply wp_when; [|by eexists]. intros _. apply wp_bind, wp_gets, wp_bind. eapply wp_group_at; [done|].
  apply wp_when; [|by eexists]. intros _. apply wp_sendstatus; [done|]. intros es1. rewrite log_log. by eexists.
Qed.

Lemma signoff_ready n u f nb s :
  env_ok host_db → db_ready f nb s → nb ≤ 2 ^ 30 → all_short f → entry_at n (u_tab s) = Some u → signoff_ok n s.
Proof.
  intros HE Hr Hnb Hf Hu v Hv _.
  destruct (proj1 (wp_run (nickwritetime n 1) (λ _ _, True) s)) as (r & s' & Hrun & _); [|by rewrite Hrun].
  by eapply (acc_nickwritetime HE n 1 u); [apply acc_start|..].
Qed.

(** The old group is told, or cleared when nobody is left in it. *)
Lemma wp_old_group ogi g name text s :
  arrays_sized s → entry_at ogi (g_tab s) = Some g → casefold name = casefold (g_name g) → name ≠ [] →
  wp (num_left <- gets (λ s, count_users_in_group name (u_tab s)) ;;
      if 0 <? num_left then
        g <- group_at ogi ;;
        when (negb (g_volume g =? QUIET)) (s_status_group 2 false ogi (str "Sign-off") text ;; ret tt)
      else clear_group_item ogi)
    (λ _, groups_to (left_groups ogi (u_tab s) (g_tab s)) s) s.
Proof.
  intros Hs Hg Ec Hne. assert (g_name g ≠ []) as Hgn by (intros E; rewrite E in Ec; by destruct name).
  apply wp_bind, wp_gets. unfold left_groups. rewrite Hg.
  replace (0 <? count_users_in_group name (u_tab s)) with (0 <? count_users_in_group (g_name g) (u_tab s)).
  2:{ apply Bool.eq_iff_eq_true. rewrite <-!count_pos_entry by done. by rewrite Ec. }
  destruct (0 <? count_users_in_group (g_name g) (u_tab s)).
  - apply wp_bind. eapply wp_group_at; [done|]. apply wp_when; intros _; [|apply groups_start].
    apply wp_bind. eapply wp_status_group_group; [done|done|]. intros es. apply wp_ret. exists es. by destruct s.
  - eapply wp_upd_group; [done|]. exists []. by rewrite log_nil.
Qed.

(** The loss of a member of a group. *)
Lemma wp_lost_member n u f nb s :
  env_ok host_db → db_ready f nb s → nb ≤ 2 ^ 30 → all_short f →
  world s → notifies_ok (u_tab s) → n < MAX_REAL_USERS → entry_at n (u_tab s) = Some u →
  u_login u ≠ LOGIN_FALSE → u_group u ≠ [] →
  let ut' := entry_set n (cleared_user u) (u_tab s) in
  let gt' := left_groups (find_group (u_group u) (g_tab s)) ut' (g_tab s) in
  let registered := (0 <? length (u_realname u))%nat in
  ∃ s', s_lost_user n s = Some (0, s') ∧ u_tab s' = ut' ∧
    g_tab s' = after_loss n registered (take MAX_NICKLEN (u_nickname u)) (clock s) ut' <$> gt' ∧
    (∀ g, g ∈ g_tab s' → g_mod g ≠ n) ∧ world s'.
Proof.
  intros HE Hr Hnb Hf Hw Hno Hn Hu Hl Hg ut' gt' reg. pose proof Hw as [Hs Ht].
  destruct (find_home _ _ _ _ _ Ht Hu Hg) as (g & Hgi & Ec). set (ogi := find_group (u_group u) (g_tab s)) in *.
  assert (entry_at n ut' = Some (cleared_user u)) as Hu' by (apply entry_set_at; by rewrite Hu).
  set (gt2 := after_loss n reg (take MAX_NICKLEN (u_nickname u)) (clock s) ut' <$> gt').
  cut (wp (s_lost_user n) (λ r s', r = 0 ∧ world s' ∧ u_tab s' = ut' ∧ g_tab s' = gt2) s).
  { intros (r & s' & Hrun & -> & Hw' & Eu & Eg)%wp_run. exists s'. split; [done|]. split; [done|]. split; [done|].
    split; [|done]. rewrite Eg. intros g' (g0 & -> & _)%list_elem_of_fmap. by eapply after_loss_mod. }
  assert (strncpy (u_group u) MAX_GROUPLEN = u_group u) as Egr.
  { unfold strncpy. apply take_ge. by eapply t_ulen. }
  assert (is_Some (entry_at n (S_kill s))) as [k Hk].
  { apply entry_at_range. destruct Hs as (Hlu & -> & _). rewrite <-Hlu. apply entry_at_range. by rewrite Hu. }
  unfold s_lost_user. destruct (Z.leb_spec MAX_REAL_USERS n); [lia|]. apply wp_bind. eapply wp_user_at; [done|].
  destruct (Z.eqb_spec (u_login u) LOGIN_FALSE); [done|]. apply wp_bind. eapply wp_int_at; [done|].
  cbv zeta. rewrite Egr. apply wp_bind. eapply wp_mono; [by apply wp_notify_off|]. intros [] s1 [es ->].
  apply wp_bind. destruct (clear_user_item_ok n (log es s) u) as (d & c & Hrun); [done|done| |].
  { apply (signoff_ready n u f nb); done. }
  unfold wp at 1. rewrite Hrun. cbn [u_tab g_tab log set_events]. fold ut'.
  match goal with |- wp _ _ ?S => set (s2 := S) end.
  assert (arrays_sized s2) as Hs2.
  { destruct Hs as (?&?&?&?&?). unfold arrays_sized, s2, ut'. cbn. unfold forget. by rewrite !length_fmap, !length_entry_set. }
  assert (tables (-1) ut' gt') as Ht' by (apply (tables_move _ _ n u (cleared_user u) (-1)); [done|done|by left]).
  apply wp_bind, wp_gets. cbn [g_tab s2]. fold ogi. destruct (Z.ltb_spec ogi 0); [apply entry_at_lookup in Hgi; lia|].
  apply wp_seq. eapply wp_mono; [by apply (wp_old_group ogi g _ _ s2 Hs2 Hgi)|]. intros [] s3 A3. apply wp_bind.
  eapply wp_mono; [apply (wp_lost_mods MAX_GROUPS n (cleared_user u) reg (take MAX_NICKLEN (u_nickname u)) gt' s2 s3); [done|exact A3| |done|done|]|].
  - exact Ht'.
  - etransitivity; [apply mods_bound|]. by rewrite (t_groups _ _ _ Ht').
  - intros [] s4 [[es4 ->] Ht4]. apply wp_ret. split; [done|]. split; [by split|done].
Qed.

(** The slot of a user who is not logged in is only cleared. *)
Lemma lost_unlogged n u s :
  arrays_sized s → n < MAX_REAL_USERS → entry_at n (u_tab s) = Some u → u_login u = LOGIN_FALSE →
  ∃ s', s_lost_user n s = Some (0, s') ∧ u_tab s' = entry_set n (cleared_user u) (u_tab s) ∧ g_tab s' = g_tab s ∧ arrays_sized s'.
Proof.
  intros Hs Hn Hu El. unfold s_lost_user. destruct (Z.leb_spec MAX_REAL_USERS n); [lia|]. erewrite bind_runs by (by apply user_at_run).
  rewrite El. change (LOGIN_FALSE =? LOGIN_FALSE) with true. cbn iota.
  destruct (clear_user_item_ok n s u) as (d & c & E); [done|done| |].
  { intros v Hv Hlog. rewrite Hu in Hv. injection Hv as <-. rewrite El in Hlog. done. }
  erewrite bind_runs by exact E. eexists. split; [reflexivity|]. split; [done|]. split; [done|].
  destruct Hs as (?&?&?&?&?). unfold arrays_sized, forget. cbn. by rewrite !length_fmap, !length_entry_set.
Qed.

End lost.

(** C9: a lost connection.  The slot is cleared and no other entry of the user
    table changes.  If the user was not logged in, the groups stay as they are.
    If the user was logged in and in a group, the loop over the groups of the
    lost moderator ends; the user's group disappears if nobody is left in it;
    each group the user moderated is passed to its least idle user or, when the
    user was registered, waits for the user for [MOD_TIMEOUT] seconds; nothing
    else changes in the groups, the tables stay consistent, and the slot
    moderates no group any more.  (The slot of a user who was logged in without
    a group may stay a moderator.) *)
Theorem s_lost_user_correct `{BuildConfig} `{Host} `{Commands} n u f nb (s : st) :
  env_ok host_db → db_ready f nb s → nb ≤ 2 ^ 30 → all_short f →
  world s → notifies_ok (u_tab s) → n < MAX_REAL_USERS → entry_at n (u_tab s) = Some u →
  u_login u = LOGIN_FALSE ∨ u_group u ≠ [] →
  let ut' := entry_set n (cleared_user u) (u_tab s) in
  let gt' := left_groups (find_group (u_group u) (g_tab s)) ut' (g_tab s) in
  let registered := (0 <? length (u_realname u))%nat in
  ∃ s', s_lost_user n s = Some (0, s') ∧ u_tab s' = ut' ∧
    (u_login u = LOGIN_FALSE → g_tab s' = g_tab s) ∧
    (u_login u ≠ LOGIN_FALSE →
      g_tab s' = after_loss n registered (take MAX_NICKLEN (u_nickname u)) (clock s) ut' <$> gt' ∧
      world s' ∧ ∀ g, g ∈ g_tab s' → g_mod g ≠ n).
Proof.
  intros HE Hr Hnb Hf Hw Hno Hn Hu Hc ut' gt' reg. destruct (decide (u_login u = LOGIN_FALSE)) as [El|El].
  - destruct (lost_unlogged n u s) as (s' & Hrun & H1' & H2' & _); [apply Hw|done..|]. exists s'. by split_and!.
  - destruct Hc as [?|Hg]; [done|]. destruct (wp_lost_member n u f nb s) as (s' & Hrun & H1' & H2' & H3' & H4'); [done..|].
    exists s'. by split_and!.
Qed.

(** ** The start *)

(** A slot nobody uses. *)
Definition blank (u : user) : Prop := u = cleared_user u.

Section start.
Context `{BuildConfig} `{Host} `{Commands}.
Implicit Types s : st.

Lemma with_db_total {A} E (fail : A) body d :
  (∀ x d1, db d1 = Some x → is_Some (body d1)) → is_Some (with_db E fail body d).
Proof.
  intros Hb. unfold with_db, icbdb_open, bind. cbn.
  destruct (db d) as [x|] eqn:Ed; [|destruct (dbm_open _ _ _) as [x|]; [|done]]; cbn.
  - destruct (Hb x (Icbdb (Some x) (open_count d + 1) (icbdb_multiuser d) (databuf d) (idisk d)) eq_refl) as [[r d2] Hr].
    rewrite Hr. unfold icbdb_close, ret. cbn. by destruct (_ || _).
  - destruct (Hb x (set_db (Some x) (Icbdb None (open_count d + 1) (icbdb_multiuser d) (databuf d) (idisk d))) eq_refl)
      as [[r d2] Hr].
    rewrite Hr. unfold icbdb_close, ret. cbn. by destruct (_ || _).
Qed.
Lemma icbdb_set_total E c a v d : is_Some (icbdb_set E c a v d).
Proof.
  apply with_db_total. intros x d1 Hx. unfold bind, gets, lift.
  destruct v; cbn; rewrite Hx; by destruct (dbm_store _ _ _ _ _).
Qed.
Lemma icbdb_open_total E d : is_Some (icbdb_open E d).
Proof. unfold icbdb_open. cbv zeta. destruct (db _); [done|]. by destruct (dbm_open _ _ _). Qed.

Lemma wp_with_userdb {A} (m : M icbdb A) Q s :
  is_Some (m (userdb s)) → (∀ r d, Q r (set_userdb d s)) → wp (with_userdb m) Q s.
Proof. intros [[r d] E] HQ. unfold wp, with_userdb. rewrite E. apply HQ. Qed.

(** Recording a time of signing on never fails. *)
Lemma wp_signon n u Q s :
  entry_at n (u_tab s) = Some u → (∀ r d c, Q r (set_userdb d (set_curtime c s))) → wp (nickwritetime n 0) Q s.
Proof.
  intros Hu HQ. unfold nickwritetime. apply wp_bind. eapply wp_user_at; [done|].
  destruct (u_realname u).
  { apply wp_ret. specialize (HQ (-1) (userdb s) (curtime s)). by destruct s. }
  apply wp_bind, wp_gets, wp_bind, wp_modify, wp_bind, wp_with_userdb; [apply icbdb_open_total|]. intros ok d1.
  change (negb (0 =? 0)) with false. cbn iota. apply wp_bind, wp_ret, wp_bind, wp_with_userdb; [apply icbdb_set_total|].
  intros r d2. apply wp_bind, wp_with_userdb; [unfold icbdb_close; cbv zeta; by destruct (_ || _)|].
  intros [] d3. apply wp_ret. specialize (HQ 0 d3 (clock s)). by destruct s.
Qed.

Lemma wp_init_groups s :
  length (g_tab s) = MAX_GROUPS →
  wp init_groups (λ _ s', s' = set_g_tab (replicate MAX_GROUPS cleared_group) s) s.
Proof.
  intros Hl. eapply wp_mono; [apply (wp_for_zseq (λ i s', ∃ gt, s' = set_g_tab gt s ∧ length gt = MAX_GROUPS ∧
    ∀ j, 0 ≤ j < i → entry_at j gt = Some cleared_group) (Z.of_nat MAX_GROUPS))|].
  - lia.
  - exists (g_tab s). split; [by destruct s|]. split; [done|]. lia.
  - intros i s' Hi (gt & -> & Hlen & Hc). destruct (proj2 (entry_at_range gt i)) as [g Hg]; [lia|].
    eapply wp_upd_group; [done|]. exists (entry_set i cleared_group gt). split; [done|].
    split; [by rewrite length_entry_set|]. intros j Hj. destruct (decide (j = i)) as [->|Hne].
    + apply entry_set_at. by rewrite Hg.
    + rewrite entry_set_ne by done. apply Hc. lia.
  - intros [] s' (gt & -> & Hlen & Hc). f_equal. apply list_eq. intros i.
    destruct (decide (i < MAX_GROUPS)%nat) as [Hi|Hi].
    + rewrite lookup_replicate_2 by done. rewrite <-entry_at_nat. apply Hc. lia.
    + rewrite !lookup_ge_None_2; [done|rewrite length_replicate; lia|lia].
Qed.

(** Slots below [i] are blank, no slot is in use. *)
Definition clearing (s0 : st) (i : Z) (s : st) : Prop :=
  arrays_sized s ∧ g_tab s = g_tab s0 ∧ glob s = glob s0 ∧ events s = events s0 ∧ is_booting s = is_booting s0 ∧
  ∀ j u, entry_at j (u_tab s) = Some u → u_login u = LOGIN_FALSE ∧ (j < i → blank u).

Lemma wp_clear_users s :
  arrays_sized s → (∀ u, u ∈ u_tab s → u_login u = LOGIN_FALSE) →
  wp clear_users (λ _, clearing s (Z.of_nat MAX_USERS)) s.
Proof.
  intros Hs Hl. apply (wp_for_zseq (clearing s)); [lia| |].
  { do 5 (split; [done|]). intros j u [Hj Hu]%entry_at_lookup. split; [|lia]. apply Hl. by eapply list_elem_of_lookup_2. }
  intros i s1 Hi (Hs1 & Eg & Egl & Ev & Eb & Hu1).
  destruct (proj2 (entry_at_range (u_tab s1) i)) as [u Hu]; [destruct Hs1 as [-> _]; lia|].
  apply wp_bind. eapply wp_upd_user; [done|]. set (s2 := set_u_tab _ s1).
  assert (entry_at i (u_tab s2) = Some (with_new_lists u)) as Hu2 by (apply entry_set_at; by rewrite Hu).
  assert (arrays_sized s2) as Hs2.
  { destruct Hs1 as (?&?&?&?&?). unfold arrays_sized, s2. simpl. by rewrite length_entry_set. }
  destruct (clear_user_item_ok i s2 (with_new_lists u) Hs2 Hu2) as (d & c & Hrun).
  { intros v Hv Hlog. rewrite Hu2 in Hv. injection Hv as <-. destruct (Hu1 _ _ Hu) as [E _]. simpl in Hlog. rewrite E in Hlog. done. }
  unfold wp. rewrite Hrun. split.
  { destruct Hs2 as (?&?&?&?&?). unfold arrays_sized, forget. cbn. by rewrite !length_fmap, !length_entry_set. }
  do 4 (split; [done|]). intros j v Hv. cbn in Hv. rewrite entry_set_twice in Hv.
  apply entry_set_inv in Hv as [(-> & -> & _)|[Hne Hv]]; [done|].
  destruct (Hu1 j v Hv) as [? Hb]. split; [done|]. intros Hj. apply Hb. lia.
Qed.

Definition icb_group : group :=
  set_g_name (str "ICB") (set_g_topic (str "...here to serve you!") (set_g_visibility SUPERSECRET
    (set_g_control RESTRICTED (set_g_volume QUIET (set_g_mod NICKSERV cleared_group))))).
Definition start_groups : list group := entry_set 0 icb_group (replicate MAX_GROUPS cleared_group).

Lemma start_groups_inv j g :
  entry_at j start_groups = Some g → j = 0 ∧ g = icb_group ∨ j ≠ 0 ∧ g = cleared_group.
Proof.
  intros [(-> & -> & _)|[Hne [_ Hg]%entry_at_lookup]]%entry_set_inv; [by left|]. right.
  by apply lookup_replicate in Hg as [-> _].
Qed.

Lemma tables_start ut v :
  length ut = MAX_USERS → entry_at NICKSERV ut = Some v → u_group v = str "ICB" →
  (∀ i u, entry_at i ut = Some u → i ≠ NICKSERV → blank u) → tables (-1) ut start_groups.
Proof.
  intros Hl Hv Eg Hb. pose proof MAX_USERS_min as Hmin.
  assert (entry_at 0 start_groups = Some icb_group) as H0g by reflexivity.
  assert (∀ i u, entry_at i ut = Some u → u_group u = str "ICB" ∧ i = NICKSERV ∨ u_group u = []) as Hug.
  { intros i u Hu. destruct (decide (i = NICKSERV)) as [->|Hne].
    - left. rewrite Hv in Hu. injection Hu as <-. done.
    - right. by rewrite (Hb i u Hu Hne). }
  split.
  - done.
  - done.
  - intros j g [[_ ->]|[_ ->]]%start_groups_inv; (split; [vm_compute; lia|repeat constructor]).
  - intros j g [[_ ->]|[_ ->]]%start_groups_inv; cbn; unfold NICKSERV; lia.
  - intros i u [[-> _]| ->]%Hug; vm_compute; lia.
  - intros i j gi gj [[-> ->]|[_ ->]]%start_groups_inv [[-> ->]|[_ ->]]%start_groups_inv Hne E; done.
  - intros i u [[-> _]| ->]%Hug Hne; [by exists 0, icb_group|done].
  - intros j g [[-> ->]|[_ ->]]%start_groups_inv Hne _; [|done]. exists NICKSERV, v. by rewrite Eg.
  - intros j g [[_ ->]|[_ ->]]%start_groups_inv E; [done|done].
Qed.

(** The tables after the start. *)
Definition started (s0 s : st) : Prop :=
  arrays_sized s ∧ g_tab s = start_groups ∧ events s = events s0 ∧
  (∀ i u, entry_at i (u_tab s) = Some u → i ≠ NICKSERV → blank u) ∧
  ∃ v, entry_at NICKSERV (u_tab s) = Some v ∧ u_login v = LOGIN_COMPLETE ∧ u_nickname v = str "Server" ∧
    u_group v = str "ICB".

Lemma started_world s0 s : started s0 s → world s.
Proof.
  intros (Hs & Eg & _ & Hb & v & Hv & Hv'). split; [done|]. rewrite Eg.
  eapply tables_start; [apply Hs|exact Hv|apply Hv'|done].
Qed.

Lemma wp_init_tables s :
  arrays_sized s → length (g_tab s) = MAX_GROUPS → (∀ u, u ∈ u_tab s → u_login u = LOGIN_FALSE) →
  wp init_tables (λ _, started s) s.
Proof.
  intros Hs Hg Hl. pose proof MAX_USERS_min as Hmin.
  apply wp_bind. eapply wp_mono; [by apply wp_init_groups|].
  intros [] s1 ->. apply wp_bind. eapply wp_mono; [by apply wp_clear_users|].
  intros [] s2 (Hs2 & Eg2 & _ & Ev2 & _ & Hu2). apply wp_bind.
  eapply wp_mono; [apply (wp_for_zseq (λ _ s', clearing s2 (Z.of_nat MAX_USERS) s') MAX_REAL_USERS)|].
  - unfold MAX_REAL_USERS. lia.
  - by do 5 (split; [done|]).
  - intros i s3 Hi (Hs3 & ? & ? & ? & ? & Hu3). apply wp_set_int.
    { apply entry_at_range. destruct Hs3 as (_ & -> & _). unfold MAX_REAL_USERS in Hi. lia. }
    split; [|by do 4 (split; [done|])]. destruct Hs3 as (?&?&?&?&?). unfold arrays_sized. cbn. by rewrite length_entry_set.
  - intros [] s3 (Hs3 & Eg3 & _ & Ev3 & _ & Hu3). apply wp_bind, wp_gets.
    destruct (proj2 (entry_at_range (u_tab s3) NICKSERV)) as [u Hu]; [destruct Hs3 as [-> _]; unfold NICKSERV; lia|].
    apply wp_bind. eapply wp_upd_user; [done|]. apply wp_bind.
    eapply wp_upd_user; [apply entry_set_at; by rewrite Hu|]. cbn [u_tab set_u_tab]. rewrite entry_set_twice.
    apply wp_bind. unfold fill_group_entry. change (_ || _) with false. cbn iota.
    eapply wp_upd_group; [simpl; by rewrite Eg3, Eg2|]. apply wp_bind. eapply wp_signon; [apply entry_set_at; by rewrite Hu|].
    intros r d c. apply wp_ret. split.
    { destruct Hs3 as (?&?&?&?&?). unfold arrays_sized. cbn. by rewrite length_entry_set. }
    split; [cbn [g_tab set_g_tab set_u_tab set_userdb set_curtime]; by rewrite Eg3, Eg2|].
    split; [cbn; by rewrite Ev3, Ev2|]. split.
    + intros i v [(-> & -> & _)|[Hne Hv]]%entry_set_inv Hi; [done|]. apply (Hu3 i v Hv). apply entry_at_lookup in Hv as [? Hv].
      apply lookup_lt_Some in Hv. destruct Hs3 as [E3 _]. rewrite E3 in Hv. lia.
    + eexists. split; [apply entry_set_at; by rewrite Hu|done].
Qed.

Lemma wp_init_arrays s0 s : started s0 s → wp init_arrays (λ _, started s0) s.
Proof.
  pose proof MAX_USERS_min as Hmin. intros Hst. apply (wp_for_zseq (λ _, started s0)); [unfold MAX_REAL_USERS; lia|done|].
  clear s Hst. intros i s Hi (Hs & Hrest). assert (0 ≤ i < Z.of_nat MAX_USERS) as Hr by (unfold MAX_REAL_USERS in Hi; lia).
  destruct Hs as (H1' & H2' & H3' & H4' & H5').
  apply wp_bind, wp_set_int; [apply entry_at_range; by rewrite H3'|].
  apply wp_bind, wp_set_int; [apply entry_at_range; cbn; by rewrite H4'|].
  apply wp_set_int; [apply entry_at_range; cbn; by rewrite H5'|]. split; [|done].
  unfold arrays_sized. cbn. by rewrite !length_entry_set.
Qed.
End start.

(** From the zeroed arrays of a new process the start makes consistent
    tables: the resident user is logged in and in the restricted and
    super-secret group ICB, every other slot is blank and every other group is
    cleared. *)
Theorem startup_world `{BuildConfig} `{Host} `{Commands} (s : st) :
  arrays_sized s → length (g_tab s) = MAX_GROUPS → (∀ u, u ∈ u_tab s → u_login u = LOGIN_FALSE) →
  ∃ s', startup s = Some (tt, s') ∧ world s' ∧ g_tab s' = start_groups ∧ events s' = events s ∧
    (∀ i u, entry_at i (u_tab s') = Some u → i ≠ NICKSERV → blank u) ∧
    ∃ v, entry_at NICKSERV (u_tab s') = Some v ∧ u_login v = LOGIN_COMPLETE ∧ u_nickname v = str "Server" ∧
      u_group v = str "ICB".
Proof.
  intros Hs Hg Hl. cut (wp startup (λ _, started s) s).
  { intros ([] & s' & Hrun & Hst)%wp_run. exists s'. split; [done|]. split; [by eapply started_world|]. by destruct Hst. }
  unfold startup. apply wp_bind. eapply wp_mono; [by apply wp_init_tables|]. intros [] s1 A1. by apply wp_init_arrays.
Qed.

Lemma startup_world_witness :
  let zero := St (replicate 5 no_user) (replicate MAX_GROUPS cleared_group) [0; 0; 0; 0; 0] [0; 0; 0; 0; 0] [0; 0; 0; 0; 0]
    [0; 0; 0; 0; 0] 0 (Stats 0 0 0 0 0 0) 1000 0 (Icbdb None 0 false [] (Disk None None)) [] (Globals (-1) 0 [0; 0; 0; 0; 0] 0 0 0) in
  ∃ s', @startup demo_build demo_host zero = Some (tt, s') ∧ @world demo_build s'.
Proof.
  intros zero. destruct (@startup_world demo_build demo_host demo_commands zero) as (s' & Hr & Hw & _).
  - by repeat split.
  - reflexivity.
  - intros u [i Hi]%list_elem_of_lookup. by apply lookup_replicate in Hi as [-> _].
  - exists s'. by split.
Defined.

(** ** The sweep *)

(** Every list of patterns can be searched, every idle-boot message has one
    [%s] at most and no other directive. *)
Definition msgs_ok (gt : list group) : Prop :=
  ∀ j g, entry_at j gt = Some g → ∀ a, is_Some (sprintf_s (g_idleboot_msg g) [a]).
Definition lists_ok (s : st) : Prop := patterns_ok (u_tab s) (g_tab s) ∧ msgs_ok (g_tab s).

(** What the steps of the sweep do to the tables, for any relation of states
    that their elementary changes keep. *)
Section frame.
Context `{BuildConfig} `{Host} `{Commands}.
Context (R : st → st → Prop) `{!PreOrder R}.
Implicit Types s : st.
Hypothesis R_same : ∀ s s',
  u_tab s' = u_tab s → g_tab s' = g_tab s → fields_set (glob s') = fields_set (glob s) → R s s'.
Hypothesis R_set_group : ∀ n x, preserves R (upd_user n (set_u_group x)).
Hypothesis R_set_t_group : ∀ n x, preserves R (upd_user n (set_u_t_group x)).
Hypothesis R_clear : ∀ j, preserves R (clear_group_item j).
Hypothesis R_created : ∀ e n vis, preserves R (upd_group e (created_group n IDLE_GROUP vis)).
Hypothesis R_upd_group : ∀ j f, (∀ g, g_name (f g) = g_name g ∧ g_idleboot (f g) = g_idleboot g ∧
  g_idleboot_msg (f g) = g_idleboot_msg g ∧ g_s_invites (f g) = g_s_invites g ∧ g_sr_invites (f g) = g_sr_invites g) →
  preserves R (upd_group j f).
#[local] Hint Resolve R_set_group R_set_t_group R_clear R_created : icb.

Lemma frame_modify f :
  (∀ s, u_tab (f s) = u_tab s ∧ g_tab (f s) = g_tab s ∧ fields_set (glob (f s)) = fields_set (glob s)) →
  preserves R (modify f).
Proof. intros Hf. apply preserves_modify. intros s. destruct (Hf s) as (? & ? & ?). by apply R_same. Qed.
Lemma frame_emit e : preserves R (emit e).
Proof. by apply frame_modify. Qed.
Lemma frame_int_at a n : preserves R (int_at a n).
Proof. unfold int_at. pres. Qed.
Lemma frame_user_at n : preserves R (user_at n).
Proof. unfold user_at. pres. Qed.
Lemma frame_group_at n : preserves R (group_at n).
Proof. unfold group_at. pres. Qed.
Lemma frame_time : preserves R time.
Proof. unfold time. pres. Qed.
Lemma frame_stale i : preserves R (stale_field i).
Proof. intros s a s' [_ ->]%stale_field_inv. reflexivity. Qed.
#[local] Hint Resolve frame_emit frame_int_at frame_user_at frame_group_at frame_time frame_stale : icb.

Lemma frame_filtered t n : preserves R (filtered t n).
Proof. unfold filtered. pres. Qed.
#[local] Hint Resolve frame_filtered : icb.
Lemma frame_plain senderr from to pkt :
  (∀ n t, preserves R (senderr n t)) → preserves R (doSend_plain senderr from to pkt).
Proof. intros Hs. unfold doSend_plain, doSend_client. pres. Qed.
Lemma frame_senderror to m : preserves R (senderror to m).
Proof. unfold senderror. pres. apply frame_plain. intros. pres. Qed.
#[local] Hint Resolve frame_senderror : icb.
Lemma frame_sendstatus to c m : preserves R (sendstatus to c m).
Proof. unfold sendstatus. pres. apply frame_plain. intros. pres. Qed.
Lemma frame_sendimport to c m : preserves R (sendimport to c m).
Proof.
  assert (∀ b, preserves R (doSend (-1) to (packet ICB_M_IMPORTANT b))) as Hd.
  { intros b. unfold doSend. change (packet ICB_M_IMPORTANT b) with (ICB_M_IMPORTANT :: take (MAX_PKT_LEN - 3) b).
    unfold doSend_client. pres; discriminate. }
  unfold sendimport. pres.
Qed.
#[local] Hint Resolve frame_sendstatus frame_sendimport : icb.
Lemma frame_status_group k t n c m : preserves R (s_status_group k t n c m).
Proof. unfold s_status_group. pres. Qed.
#[local] Hint Resolve frame_status_group : icb.

Lemma frame_probe n u g t : preserves R (probe n u g t).
Proof. unfold probe, set_int. pres. by apply frame_modify. Qed.
#[local] Hint Resolve frame_probe : icb.
Lemma frame_restricted n i u name : preserves R (restricted_refuses n i u name).
Proof. unfold restricted_refuses, check_auth, invited. pres. Qed.
Lemma frame_full n i u name : preserves R (full_refuses n i u name).
Proof. unfold full_refuses. pres. Qed.
#[local] Hint Resolve frame_restricted frame_full : icb.
Lemma frame_enter n i o ls : preserves R (enter_group n i o ls).
Proof. unfold enter_group. pres. Qed.
#[local] Hint Resolve frame_enter : icb.
(** The group of the idle has a name that is asked for as it is. *)
Lemma frame_to_idle n : preserves R (s_change n 2 IDLE_GROUP).
Proof.
  unfold s_change. cbn [Z.eqb Pos.eqb s_change_to starts_with]. change (length IDLE_GROUP =? 0)%nat with false.
  change (starts_with "@" IDLE_GROUP) with false. cbn iota. destruct (requested_group IDLE_GROUP) as [name vis] eqn:E.
  vm_compute in E. injection E as <- _. match goal with |- context [filtergroupname ?x] => change (filtergroupname x) with IDLE_GROUP end.
  unfold change_to, invited. pres.
Qed.
#[local] Hint Resolve frame_to_idle : icb.

Lemma frame_bump f : preserves R (bump f).
Proof. by apply frame_modify. Qed.
#[local] Hint Resolve frame_bump : icb.
Lemma frame_check_idle_mod t i : preserves R (check_idle_mod t i).
Proof. unfold check_idle_mod. pres. by apply R_upd_group. Qed.
Lemma frame_pass_mod t i : preserves R (pass_mod t i).
Proof. unfold pass_mod. pres. by apply R_upd_group. Qed.
Lemma frame_let_go i j : preserves R (let_go i j).
Proof. unfold let_go. pres. by apply R_upd_group. Qed.
#[local] Hint Resolve frame_let_go : icb.
Lemma frame_idle_boot t i : preserves R (idle_boot t i).
Proof. unfold idle_boot. pres; by apply frame_modify. Qed.
Lemma frame_warn_shutdown t b k text : preserves R (warn_shutdown t b k text).
Proof. unfold warn_shutdown. pres. by apply frame_modify. Qed.
Lemma frame_kill_pending : preserves R kill_pending.
Proof. unfold kill_pending. pres. Qed.
End frame.

Definition keeps_lists (s s' : st) : Prop := lists_ok s → lists_ok s'.
#[export] Instance keeps_lists_pre : PreOrder keeps_lists.
Proof. split; [by intros s ?|]. intros s1 s2 s3 H1 H2 H. auto. Qed.

(** The limits of the groups: a named group is one that was there, with its
    limit, or the group of the idle. *)
Definition keeps_limits (s s' : st) : Prop :=
  fields_set (glob s') = fields_set (glob s) ∧
  ∀ j g', entry_at j (g_tab s') = Some g' → g_name g' = [] ∨ casefold (g_name g') = casefold IDLE_GROUP ∨
    ∃ g, entry_at j (g_tab s) = Some g ∧ g_name g = g_name g' ∧ g_idleboot g = g_idleboot g'.
#[export] Instance keeps_limits_pre : PreOrder keeps_limits.
Proof.
  split; [intros s; split; [done|]; eauto 10|]. intros s1 s2 s3 [F1 H1] [F2 H2]. split; [congruence|]. intros j g3 Hg3.
  destruct (H2 j g3 Hg3) as [?|[?|(g2 & Hg2 & En & Ei)]]; [auto|auto|].
  destruct (H1 j g2 Hg2) as [?|[?|(g1 & Hg1 & En1 & Ei1)]]; [left; congruence|right; left; congruence|].
  do 2 right. exists g1. split; [done|]. split; congruence.
Qed.

(** Both, and the sweep keeps both. *)
Definition swept (s s' : st) : Prop := keeps_lists s s' ∧ keeps_limits s s'.
#[export] Instance swept_pre : PreOrder swept.
Proof. split; [by intros s|]. intros s1 s2 s3 [] []. split; by etransitivity. Qed.

Section swept.
Context `{BuildConfig} `{Host} `{Commands}.
Implicit Types s : st.

Lemma swept_user i f :
  (∀ u, u_pri_s_hushed (f u) = u_pri_s_hushed u ∧ u_pri_n_hushed (f u) = u_pri_n_hushed u) → preserves swept (upd_user i f).
Proof.
  intros Hf s a s'. unfold upd_user, user_at, bind, getS, lift. destruct (entry_at i (u_tab s)) as [u|] eqn:Hu; [|done].
  intros [= _ <-]. split; [|split; [done|]; cbn; eauto 10]. intros [[Hp1 Hp2] Hm]. split; [|done]. split; [|done].
  intros j v [(-> & -> & _)|[_ Hv]]%entry_set_inv; [|by eapply Hp1]. destruct (Hf u) as [-> ->]. by eapply Hp1.
Qed.

(** The change of a group that is taken, freed, or handed over. *)
Definition harmless_change (f : group → group) : Prop := ∀ g,
  (g_s_invites (f g) = g_s_invites g ∨ g_s_invites (f g) = []) ∧ (g_sr_invites (f g) = g_sr_invites g ∨ g_sr_invites (f g) = []) ∧
  (g_idleboot_msg (f g) = g_idleboot_msg g ∨ g_idleboot_msg (f g) = []) ∧
  (g_name (f g) = [] ∨ g_name (f g) = IDLE_GROUP ∨ g_name (f g) = g_name g ∧ g_idleboot (f g) = g_idleboot g).

Lemma swept_group j f : harmless_change f → preserves swept (upd_group j f).
Proof.
  intros Hf s a s'. unfold upd_group, group_at, bind, getS, lift. destruct (entry_at j (g_tab s)) as [g|] eqn:Hg; [|done].
  intros [= _ <-]. destruct (Hf g) as (F1 & F2 & F3 & F4). assert (searchable []) as Hnil by (intros nm; by eexists). split.
  - intros [[Hp1 Hp2] Hm]. split; [split; [done|]|]; intros k v [(-> & -> & _)|[_ Hv]]%entry_set_inv.
    + destruct (Hp2 j g Hg) as [? ?]. split; [by destruct F1 as [-> | ->]|by destruct F2 as [-> | ->]].
    + by eapply Hp2.
    + intros x. destruct F3 as [-> | ->]; [by eapply Hm|by eexists].
    + by eapply Hm.
  - split; [done|]. intros k v [(-> & -> & _)|[_ Hv]]%entry_set_inv; [|eauto 10].
    destruct F4 as [->|[->|[-> ->]]]; [by left|by right; left|]. do 2 right. by exists g.
Qed.

Lemma swept_same s s' :
  u_tab s' = u_tab s → g_tab s' = g_tab s → fields_set (glob s') = fields_set (glob s) → swept s s'.
Proof.
  intros E1 E2 E3. split; [unfold keeps_lists, lists_ok; by rewrite E1, E2|]. split; [done|]. rewrite E2. eauto 10.
Qed.
Lemma swept_set_group n x : preserves swept (upd_user n (set_u_group x)).
Proof. by apply swept_user. Qed.
Lemma swept_set_t_group n x : preserves swept (upd_user n (set_u_t_group x)).
Proof. by apply swept_user. Qed.
Lemma swept_clear j : preserves swept (clear_group_item j).
Proof. apply swept_group. intros g. cbn. auto 10. Qed.
Lemma swept_created e n vis : preserves swept (upd_group e (created_group n IDLE_GROUP vis)).
Proof. apply swept_group. intros g. unfold created_group. repeat case_if; cbn; auto 10. Qed.
Lemma swept_upd_group j f :
  (∀ g, g_name (f g) = g_name g ∧ g_idleboot (f g) = g_idleboot g ∧ g_idleboot_msg (f g) = g_idleboot_msg g ∧
        g_s_invites (f g) = g_s_invites g ∧ g_sr_invites (f g) = g_sr_invites g) → preserves swept (upd_group j f).
Proof. intros Hf. apply swept_group. intros g. destruct (Hf g) as (?&?&?&?&?). auto 10. Qed.
End swept.
#[local] Hint Resolve swept_same swept_set_group swept_set_t_group swept_clear swept_created swept_upd_group : icb.

(** A frame property that every completed run has, added to a result. *)
Lemma wp_preserved {S A} (R : S → S → Prop) (m : M S A) Q s :
  preserves R m → wp m Q s → wp m (λ a s', Q a s' ∧ R s s') s.
Proof. intros Hp. unfold wp. destruct (m s) as [[a s']|] eqn:E; [|done]. intros HQ. split; [done|by eapply Hp]. Qed.

Section sweep.
Context `{BuildConfig} `{Host} `{Commands}.
Implicit Types s : st.

Lemma wp_warn_shutdown t before k text s :
  arrays_sized s → wp (warn_shutdown t before k text) (λ _, same_tables s) s.
Proof.
  intros Hs. pose proof MAX_USERS_min. unfold warn_shutdown. apply wp_bind, wp_getS, wp_when; [|done]. intros _. apply wp_bind.
  eapply wp_mono; [apply (wp_logs MAX_REAL_USERS)|].
  - unfold MAX_REAL_USERS. lia.
  - intros i es Hi. destruct (proj2 (entry_at_range (u_tab s) i)) as [u Hu].
    { destruct Hs as [-> _]. unfold MAX_REAL_USERS in Hi. lia. }
    apply wp_bind. eapply wp_user_at; [done|]. apply wp_when; [|by eexists]. intros _.
    apply wp_sendimport; [done|]. intros es1. rewrite log_log. by eexists.
  - intros [] s1 [es ->]. apply wp_modify. done.
Qed.

Lemma wp_kill_pending s : arrays_sized s → wp kill_pending (λ _, same_tables s) s.
Proof.
  intros Hs. pose proof MAX_USERS_min. apply (wp_for_zseq (λ _, same_tables s)); [unfold MAX_REAL_USERS; lia|done|].
  intros i s1 Hi Hsame. pose proof Hsame as (Eu & _ & _ & Hs1). specialize (Hs1 Hs).
  assert (0 ≤ i < Z.of_nat MAX_USERS) as Hr by (unfold MAX_REAL_USERS in Hi; lia).
  destruct (proj2 (entry_at_range (u_tab s1) i)) as [u Hu]; [by destruct Hs1 as [-> _]|].
  destruct (proj2 (entry_at_range (S_kill s1) i)) as [k Hk]; [by destruct Hs1 as (_ & -> & _)|].
  apply wp_bind. eapply wp_user_at; [done|]. apply wp_when; [|done]. intros _. apply wp_bind. eapply wp_int_at; [done|].
  apply wp_when; [|done]. intros _. by apply wp_bind, wp_modify, wp_modify.
Qed.

(** The users are as before and the tables are consistent. *)
Definition mods_only (s s' : st) : Prop := u_tab s' = u_tab s ∧ world s'.

Lemma named_group s j g :
  world s → entry_at j (g_tab s) = Some g → g ≠ cleared_group → g_name g ≠ [].
Proof. intros [_ Ht] Hg Hne E. apply Hne. by eapply t_free. Qed.

Lemma wp_check_idle_mod t i s : world s → 0 ≤ i < Z.of_nat MAX_GROUPS → wp (check_idle_mod t i) (λ _, mods_only s) s.
Proof.
  intros Hw Hi. pose proof Hw as [Hs Ht]. destruct (proj2 (entry_at_range (g_tab s) i)) as [g Hg]; [by rewrite (t_groups _ _ _ Ht)|].
  unfold check_idle_mod. apply wp_bind. eapply wp_group_at; [done|]. apply wp_when; [|done].
  intros [Hc Hm%Z.leb_le]%andb_true_iff. pose proof (t_mod _ _ _ Ht i g Hg) as Hmr.
  assert (g_name g ≠ []) as Hgn by (eapply named_group; [done|done|]; intros ->; simpl in Hm; lia).
  destruct (proj2 (entry_at_range (u_tab s) (g_mod g))) as [um Hum]; [rewrite (t_users _ _ _ Ht); lia|].
  apply wp_bind. eapply wp_user_at; [done|]. apply wp_when; [|done]. intros _. apply wp_bind, wp_gets.
  apply wp_when; [|done]. intros _. apply wp_bind, wp_sendstatus; [done|]. intros es. apply wp_bind.
  eapply (wp_mono _ (λ _ s', ∃ es', s' = log es' s)).
  - apply wp_when; [|by eexists]. intros _. apply wp_bind, wp_gets, wp_bind. case_if.
    + eapply wp_status_group_user; [done|done|]. intros es1. apply wp_ret. rewrite log_log. by eexists.
    + eapply wp_status_group_group; [done|done|]. intros es1. apply wp_ret. rewrite log_log. by eexists.
  - intros [] s1 [es1 ->]. apply wp_bind. eapply wp_upd_group; [done|]. apply wp_modify. split; [done|].
    split; [done|]. by eapply tables_upd_group.
Qed.

(** Handing a group over keeps the tables consistent. *)
Lemma tables_hand_over p ut gt j g f :
  tables (-1) ut gt → entry_at j gt = Some g → g_name g ≠ [] →
  (∀ m x, g_name (f m x) = g_name x ∧ g_mod (f m x) = m) → tables (-1) ut (entry_set j (f (least_idle p ut) g) gt).
Proof.
  intros Ht Hg Hgn Hf. destruct (Hf (least_idle p ut) g) as [En Em].
  apply (tables_set_mod _ _ _ j g); [done|done|done| |done]. rewrite Em, <-(t_users _ _ _ Ht). apply least_idle_range.
Qed.

Lemma wp_pass_mod t i s : world s → 0 ≤ i < Z.of_nat MAX_GROUPS → wp (pass_mod t i) (λ _, mods_only s) s.
Proof.
  intros Hw Hi. pose proof Hw as [Hs Ht]. destruct (proj2 (entry_at_range (g_tab s) i)) as [g Hg]; [by rewrite (t_groups _ _ _ Ht)|].
  unfold pass_mod. apply wp_bind. eapply wp_group_at; [done|]. apply wp_when; [|done].
  intros [Hpos%Z.ltb_lt _]%andb_true_iff. set (p := λ u, _ && _).
  assert (g_name g ≠ []) as Hgn by (eapply named_group; [done|done|]; intros ->; simpl in Hpos; lia).
  apply wp_bind, wp_gets. apply wp_when; [|done]. intros Hne. apply wp_bind. eapply wp_upd_group; [done|].
  set (s1 := set_g_tab _ s). assert (mods_only s s1) as Hm1.
  { split; [done|]. split; [done|].
    by apply (tables_hand_over p _ _ i g (λ m g, set_g_missingmod [] (set_g_modtimeout 0 (set_g_mod m g)))). }
  pose proof (least_idle_range p (u_tab s)) as Hr. apply negb_true_iff, Z.eqb_neq in Hne.
  destruct (proj2 (entry_at_range (u_tab s) (least_idle p (u_tab s)))) as [um Hum]; [lia|].
  apply wp_bind. eapply wp_user_at; [done|]. apply wp_bind. eapply wp_status_group_group; [done|apply entry_set_at; by rewrite Hg|].
  intros es. by apply wp_ret.
Qed.

Lemma wp_let_go i j u s :
  world s → entry_at i (u_tab s) = Some u → 0 ≤ j < Z.of_nat MAX_GROUPS → wp (let_go i j) (λ _, mods_only s) s.
Proof.
  intros Hw Hu Hj. pose proof Hw as [Hs Ht]. destruct (proj2 (entry_at_range (g_tab s) j)) as [g Hg]; [by rewrite (t_groups _ _ _ Ht)|].
  unfold let_go. apply wp_bind. eapply wp_group_at; [done|]. apply wp_when; [|done]. intros Hm%Z.eqb_eq.
  assert (g_name g ≠ []) as Hgn.
  { eapply named_group; [done|done|]. intros ->. apply entry_at_lookup in Hu. simpl in Hm. lia. }
  apply wp_bind, wp_gets, wp_bind. eapply wp_upd_group; [done|]. set (p := in_group (g_name g)).
  set (s1 := set_g_tab _ s). assert (mods_only s s1) as Hm1.
  { split; [done|]. split; [done|]. by apply (tables_hand_over p _ _ j g set_g_mod). }
  pose proof (least_idle_range p (u_tab s)) as Hr. apply wp_when; [|done]. intros Hge%Z.leb_le.
  destruct (proj2 (entry_at_range (u_tab s) (least_idle p (u_tab s)))) as [um Hum]; [lia|].
  apply wp_bind. eapply wp_user_at; [done|]. apply wp_bind. eapply wp_user_at; [done|]. apply wp_bind. case_if.
  - eapply wp_status_group_user; [done|done|]. intros es. by apply wp_ret.
  - eapply wp_status_group_group; [done|apply entry_set_at; by rewrite Hg|]. intros es. by apply wp_ret.
Qed.

(** The user is in a group that does not let its members be silent for so long. *)
Definition due (now : Z) (gt : list group) (u : user) : Prop :=
  LOGIN_COMPLETE ≤ u_login u ∧ casefold (u_group u) ≠ casefold IDLE_GROUP ∧
  ∃ g, entry_at (find_group (u_group u) gt) gt = Some g ∧ 0 < g_idleboot g < now - u_t_recv u.

(** A user entry after the sweep: as before, or carried to the group of the
    idle. *)
Definition idled (now : Z) (gt : list group) (u u' : user) : Prop :=
  u' = u ∨ due now gt u ∧ casefold (u_group u') = casefold IDLE_GROUP.

Definition sweep_inv (t : Z) (s s' : st) : Prop :=
  world s' ∧ lists_ok s' ∧ keeps_limits s s' ∧
  ∀ i u', entry_at i (u_tab s') = Some u' → ∃ u, entry_at i (u_tab s) = Some u ∧ idled t (g_tab s) u u'.

(** Whether the time is up for a user does not change while the sweep goes on. *)
Lemma same_limit s s' u :
  world s → world s' → keeps_limits s s' → (∃ i, entry_at i (u_tab s') = Some u) →
  casefold (u_group u) ≠ casefold IDLE_GROUP → u_group u ≠ [] →
  ∃ j g g', entry_at j (g_tab s) = Some g ∧ entry_at j (g_tab s') = Some g' ∧ g_idleboot g = g_idleboot g' ∧
    find_group (u_group u) (g_tab s) = j ∧ find_group (u_group u) (g_tab s') = j.
Proof.
  intros [_ Ht] [_ Ht'] [_ Hk] [i Hu] Hid Hne. destruct (t_home _ _ _ Ht' i u Hu Hne) as (j & g' & Hg' & Ec).
  destruct (Hk j g' Hg') as [En|[En|(g0 & Hg & En & Ei)]]; [rewrite En in Ec; by destruct (u_group u)|congruence|].
  exists j, g0, g'. split_and!; try done; [|by eapply (find_unique (-1) _ _ _ j g')].
  eapply (find_unique (-1) _ _ _ j g0); [done|done|by rewrite En|done].
Qed.

Lemma due_grouped t gt u : due t gt u → u_group u ≠ [].
Proof. intros (_ & _ & g & Hg & _) E. rewrite E in Hg. by apply entry_at_lookup in Hg as [? _]. Qed.

Lemma due_kept t s s' u :
  world s → world s' → keeps_limits s s' → (∃ i, entry_at i (u_tab s') = Some u) → due t (g_tab s') u ↔ due t (g_tab s) u.
Proof.
  intros Hw Hw' Hk Hu. split; intros Hd; pose proof (due_grouped _ _ _ Hd) as Hne; destruct Hd as (Hl & Hid & g & Hg & Hi);
    destruct (same_limit s s' u Hw Hw' Hk Hu Hid Hne) as (j & g1 & g2 & Hg1 & Hg2 & Ei & <- & Ej);
    (split; [done|]; split; [done|]); [exists g1|exists g2]; rewrite ?Ej in *; (split; [done|]).
  - rewrite Hg2 in Hg. injection Hg as <-. by rewrite Ei.
  - rewrite Hg1 in Hg. injection Hg as <-. by rewrite <-Ei.
Qed.

Lemma wp_let_go_all i u s :
  world s → lists_ok s → entry_at i (u_tab s) = Some u →
  wp (for_each (zseq (Z.of_nat MAX_GROUPS)) (let_go i)) (λ _ s', mods_only s s' ∧ lists_ok s' ∧ keeps_limits s s') s.
Proof.
  intros Hw Hl Hu. apply (wp_for_zseq (λ _ s', mods_only s s' ∧ lists_ok s' ∧ keeps_limits s s')); [lia|done|].
  intros j s1 Hj ([Eu Hw1] & Hl1 & Hk1). eapply wp_mono.
  { apply (wp_preserved swept); [apply frame_let_go; auto with icb typeclass_instances|].
    apply (wp_let_go i j u); [done|by rewrite Eu|done]. }
  intros [] s2 [[Eu2 Hw2] [Hk Hk2]]. split; [split; [congruence|done]|]. split; [auto|by etransitivity].
Qed.

(** The texts of an idle boot can be made. *)
Lemma boot_texts gi g s :
  lists_ok s → entry_at gi (g_tab s) = Some g →
  ∀ a, is_Some (sprintf_s (if is_empty (g_idleboot_msg g) then IDLE_BOOT_MSG else g_idleboot_msg g) [a]).
Proof. intros [_ Hm] Hg a. destruct (is_empty _); [by eexists|]. by eapply Hm. Qed.

Lemma not_idle_group u : negb (strcaseeq (u_group u) IDLE_GROUP) = true ↔ casefold (u_group u) ≠ casefold IDLE_GROUP.
Proof. by rewrite negb_true_iff, <-not_true_iff_false, strcaseeq_casefold. Qed.

Lemma wp_idle_boot t i s :
  world s → lists_ok s → 0 ≤ i < MAX_REAL_USERS →
  reusable 1 s ∨ (∀ u, entry_at i (u_tab s) = Some u → ¬ due t (g_tab s) u) →
  wp (idle_boot t i) (λ _ s', sweep_inv t s s' ∧ ∀ j, j ≠ i → entry_at j (u_tab s') = entry_at j (u_tab s)) s.
Proof.
  intros Hw Hl Hi Hre. pose proof Hw as [Hs Ht].
  assert (∀ s', mods_only s s' → swept s s' →
    sweep_inv t s s' ∧ ∀ j, j ≠ i → entry_at j (u_tab s') = entry_at j (u_tab s)) as Hsame.
  { intros s' [Eu Hw'] [Hl' Hk']. split; [|intros j _; by rewrite Eu]. split; [done|]. split; [auto|]. split; [done|].
    intros j u' Hj. rewrite Eu in Hj. exists u'. split; [done|by left]. }
  destruct (proj2 (entry_at_range (u_tab s) i)) as [u Hu]; [destruct Hs as [-> _]; unfold MAX_REAL_USERS in Hi; lia|].
  unfold idle_boot. apply wp_bind. eapply wp_user_at; [done|]. apply wp_when; [|intros _; by apply Hsame]. intros Hlog%Z.leb_le.
  apply wp_bind, wp_gets, wp_when; [|intros _; by apply Hsame]. intros Hge%Z.leb_le.
  destruct (find_group_entry _ _ Hge) as (g & Hg & _). apply wp_bind. eapply wp_group_at; [done|].
  apply wp_when; [|intros _; by apply Hsame]. intros [Hgr%not_idle_group Hib%Z.ltb_lt]%andb_true_iff. cbv zeta.
  apply wp_when; [|intros _; by apply Hsame]. intros Hidle%Z.ltb_lt.
  assert (due t (g_tab s) u) as Hdue by (split; [done|]; split; [done|]; by exists g).
  destruct Hre as [Hre|Hno]; [|by destruct (Hno u Hu)].
  pose proof (boot_texts _ _ _ Hl Hg) as Hmsg. set (bootmsg := if is_empty _ then _ else _) in *.
  destruct (Hmsg (str "you")) as [[you r1] Ey], (Hmsg (u_nickname u)) as [[they r2] Et].
  apply wp_bind. eapply wp_lift; [by rewrite Ey|]. apply wp_bind, wp_sendstatus; [done|]. intros es. apply wp_bind.
  eapply (wp_mono _ (λ _ s', ∃ es', s' = log es' s)).
  { apply wp_when; [|by eexists]. intros _. apply wp_bind. eapply wp_lift; [by rewrite Et|]. apply wp_bind.
    eapply wp_status_group_user; [done|done|]. intros es1. apply wp_ret. rewrite log_log. by eexists. }
  intros [] s1 [es1 ->]. apply wp_bind. eapply wp_mono; [by apply (wp_let_go_all i u (log es1 s))|].
  intros [] s2 ([Eu2 Hw2] & Hl2 & Hk2). cbn in Eu2. apply wp_bind, wp_stale_field.
  { destruct Hre as [Hr1 Hr2]. split; [|done]. by destruct Hk2 as [-> _]. }
  apply wp_bind, wp_modify, wp_bind. eapply wp_mono.
  { apply (wp_preserved swept); [apply frame_to_idle; auto with icb typeclass_instances|].
    apply (wp_change_plain 1 i u IDLE_GROUP false); [done|apply Hl2|simpl; by rewrite Eu2|done]. }
  intros r s3 [(Hw3 & _ & Hres) [Hl3 Hk3]]. apply wp_bind, wp_modify, wp_modify. cbn in Hres.
  assert (keeps_limits s s3) as Hk by (transitivity s2; [exact Hk2|exact Hk3]).
  change (filtergroupname (requested_group IDLE_GROUP).1) with IDLE_GROUP in Hres.
  destruct Hres as [(_ & Eu3 & _)|(_ & _ & _ & u' & Eu3 & Ec & _)].
  { apply Hsame; [split; [cbn; congruence|done]|]. split; [intros _; by apply Hl3|done]. }
  rewrite Eu2 in Eu3. split; [|intros j Hj; cbn; rewrite Eu3; by apply entry_set_ne]. split; [done|]. split; [by apply Hl3|].
  split; [done|]. cbn. rewrite Eu3. intros j v [(-> & -> & _)|[_ Hv]]%entry_set_inv; [|by exists v; split; [|left]].
  exists u. split; [done|]. by right.
Qed.

Lemma wp_idle_boots t s :
  world s → lists_ok s →
  reusable 1 s ∨ (∀ i u, 0 ≤ i < MAX_REAL_USERS → entry_at i (u_tab s) = Some u → ¬ due t (g_tab s) u) →
  wp (for_each (zseq MAX_REAL_USERS) (idle_boot t)) (λ _, sweep_inv t s) s.
Proof.
  intros Hw Hl Hre. pose proof MAX_USERS_min.
  eapply wp_mono; [apply (wp_for_zseq (λ i s', sweep_inv t s s' ∧
    ∀ j, i ≤ j → entry_at j (u_tab s') = entry_at j (u_tab s)) MAX_REAL_USERS)|].
  - unfold MAX_REAL_USERS. lia.
  - split; [|done]. split; [done|]. split; [done|]. split; [done|]. intros i u Hu. exists u. split; [done|by left].
  - intros i s1 Hi [(Hw1 & Hl1 & Hk1 & Hu1) Hrest]. eapply wp_mono; [apply wp_idle_boot; [done|done|done|]|].
    { destruct Hre as [[Hr1 Hr2]|Hno]; [left; split; [by destruct Hk1 as [-> _]|done]|]. right. intros u Hu.
      rewrite (due_kept t s s1 u) by eauto. rewrite Hrest in Hu by lia. by apply (Hno i). }
    intros [] s2 [(Hw2 & Hl2 & Hk2 & Hu2) Hother]. split; [|intros j Hj; rewrite Hother by lia; apply Hrest; lia].
    split; [done|]. split; [done|]. split; [by etransitivity|]. intros j u' Hj. destruct (decide (j = i)) as [->|Hne].
    + destruct (Hu2 i u' Hj) as (u & Hu & Hid). exists u. pose proof Hu as Hu0. rewrite Hrest in Hu0 by lia. split; [done|].
      destruct Hid as [->|[Hd Hc]]; [by left|]. right. split; [|done]. apply (due_kept t s s1 u); eauto.
    + rewrite Hother in Hj by done. by apply Hu1.
  - by intros [] s' [? _].
Qed.

(** A boot that completes has used [fields[1]]. *)
Lemma idle_boot_inv t i s a s' :
  idle_boot t i s = Some (a, s') → reusable 1 s ∨ s' = s ∧ ∀ u, entry_at i (u_tab s) = Some u → ¬ due t (g_tab s) u.
Proof.
  unfold idle_boot, bind at 1. destruct (entry_at i (u_tab s)) as [u|] eqn:Hu; [|by unfold user_at, bind, getS, lift; rewrite Hu].
  rewrite (user_at_run i u s Hu). destruct (Z.leb_spec LOGIN_COMPLETE (u_login u)); cbn [when].
  2:{ intros [= _ ->]. right. split; [done|]. intros v [= ->] [? _]. lia. }
  rewrite (bind_runs (gets _) _ s (find_group (u_group u) (g_tab s)) s eq_refl). destruct (Z.leb_spec 0 (find_group (u_group u) (g_tab s))); cbn [when].
  2:{ intros [= _ ->]. right. split; [done|]. intros v [= ->] (_ & _ & g & Hg & _). apply entry_at_lookup in Hg. lia. }
  destruct (entry_at (find_group (u_group u) (g_tab s)) (g_tab s)) as [g|] eqn:Hg.
  2:{ unfold bind at 1, group_at, bind at 1, getS, lift. by rewrite Hg. }
  erewrite bind_runs by (by apply group_at_run). destruct (negb _ && _) eqn:Eg; cbn [when].
  2:{ intros [= _ ->]. right. split; [done|]. intros v [= ->] (_ & Hid%not_idle_group & g' & Hg' & Hi). rewrite Hg in Hg'. injection Hg' as <-.
      rewrite Hid in Eg. apply Z.ltb_ge in Eg. lia. }
  cbv zeta. destruct (Z.ltb_spec (g_idleboot g) (t - u_t_recv u)); cbn [when].
  2:{ intros [= _ ->]. right. split; [done|]. intros v [= ->] (_ & _ & g' & Hg' & Hi). rewrite Hg in Hg'. injection Hg' as <-. lia. }
  intros E. left. revert E. unfold bind at 1, lift at 1. destruct (fst <$> sprintf_s _ [str "you"]) as [you|]; [|done].
  assert (∀ (m : M st unit) k s0, preserves swept m → keeps_limits s s0 → (m ;; k) s0 = Some (a, s') →
    ∃ s1, keeps_limits s s1 ∧ k s1 = Some (a, s')) as Hstep.
  { intros m k s0 Hm Hk. unfold bind. destruct (m s0) as [[[] s1]|] eqn:E; [|done]. intros E'. exists s1. split; [|done].
    transitivity s0; [done|]. by eapply Hm. }
  intros E. apply Hstep in E as (s1 & K1 & E); [|apply frame_sendstatus; auto with icb typeclass_instances|done].
  apply Hstep in E as (s2 & K2 & E); [| |done].
  2:{ pres. by apply frame_status_group; auto with icb typeclass_instances. }
  apply Hstep in E as (s3 & K3 & E); [| |done].
  2:{ pres. apply frame_let_go; auto with icb typeclass_instances. }
  unfold bind at 1 in E. destruct (stale_field 1 s3) as [[[] s4]|] eqn:Es; [|done].
  apply stale_field_inv in Es as [[Hr1 Hr2] _]. split; [|done]. by destruct K3 as [<- _].
Qed.

Lemma idle_boots_inv t s s' :
  ¬ reusable 1 s → for_each (zseq MAX_REAL_USERS) (idle_boot t) s = Some (tt, s') →
  ∀ i u, 0 ≤ i < MAX_REAL_USERS → entry_at i (u_tab s) = Some u → ¬ due t (g_tab s) u.
Proof.
  intros Hre E.
  assert (s' = s ∧ ∀ i u, i ∈ zseq MAX_REAL_USERS → entry_at i (u_tab s) = Some u → ¬ due t (g_tab s) u) as [_ Hno].
  { revert E. apply (for_each_inv (λ pre s', s' = s ∧ ∀ i u, i ∈ pre → entry_at i (u_tab s) = Some u → ¬ due t (g_tab s) u)).
    - intros pre x rest s1 s2 _ [-> Hno] E. apply idle_boot_inv in E as [?|[-> Hx]]; [done|]. split; [done|].
      intros i u [?| ->%list_elem_of_singleton]%elem_of_app Hu; [by eapply Hno|by apply Hx].
    - split; [done|]. by intros i u ?%not_elem_of_nil. }
  intros i u Hi. apply Hno. by apply elem_zseq.
Qed.

Lemma wp_mod_sweep t s :
  world s → lists_ok s →
  wp (for_each (zseq (Z.of_nat MAX_GROUPS)) (λ i, check_idle_mod t i ;; pass_mod t i))
    (λ _ s', mods_only s s' ∧ lists_ok s' ∧ keeps_limits s s') s.
Proof.
  intros Hw Hl. apply (wp_for_zseq (λ _ s', mods_only s s' ∧ lists_ok s' ∧ keeps_limits s s')); [lia|done|].
  intros i s1 Hi ([Eu Hw1] & Hl1 & K1). apply wp_bind.
  eapply wp_mono; [apply (wp_preserved swept); [apply frame_check_idle_mod; auto with icb typeclass_instances|by apply wp_check_idle_mod]|].
  intros [] s2 [[Eu2 Hw2] [Hk2 K2]]. specialize (Hk2 Hl1).
  eapply wp_mono; [apply (wp_preserved swept); [apply frame_pass_mod; auto with icb typeclass_instances|by apply wp_pass_mod]|].
  intros [] s3 [[Eu3 Hw3] [Hk3 K3]]. split; [split; [congruence|done]|]. split; [auto|]. etransitivity; [exact K1|by etransitivity].
Qed.

Lemma wp_icbexit s :
  arrays_sized s → wp icbexit (λ _ s', ∃ es, s' = log (es ++ [EvExit]) s) s.
Proof.
  intros Hs. pose proof MAX_USERS_min. apply wp_bind. eapply wp_mono; [apply (wp_logs MAX_REAL_USERS)|].
  - unfold MAX_REAL_USERS. lia.
  - intros i es Hi. destruct (proj2 (entry_at_range (u_tab s) i)) as [u Hu].
    { destruct Hs as [-> _]. unfold MAX_REAL_USERS in Hi. lia. }
    apply wp_bind. eapply wp_user_at; [done|]. apply wp_when; [|by eexists]. intros _. apply wp_modify.
    exists (es ++ [EvDisconnect i]). by rewrite <-log_log.
  - intros [] s1 [es ->]. apply wp_modify. exists es. by rewrite <-log_log.
Qed.
(** The sweep up to the idle users. *)
Lemma sweep_prefix s :
  world s → lists_ok s →
  let t := clock s in
  ∃ s4, (warn_shutdown t 300 0 (str "Server shutting down in 5 minutes!") ;;
      warn_shutdown t 60 1 (str "Server shutting down in 1 minute!") ;; kill_pending ;;
      for_each (zseq (Z.of_nat MAX_GROUPS)) (λ i, check_idle_mod t i ;; pass_mod t i)) s = Some (tt, s4) ∧
    mods_only s s4 ∧ lists_ok s4 ∧ keeps_limits s s4.
Proof.
  intros Hw Hl t. apply wp_run_unit.
  assert (∀ s1 s2, same_tables s s1 → swept s s1 → same_tables s1 s2 → swept s1 s2 → same_tables s s2 ∧ swept s s2) as Htr.
  { intros. split; by etransitivity. }
  assert (∀ s1, same_tables s s1 → arrays_sized s1) as Hsz by (intros s1 (_ & _ & _ & Ha); by apply Ha, Hw).
  apply wp_bind. eapply wp_mono.
  { apply (wp_preserved swept); [apply frame_warn_shutdown; auto with icb typeclass_instances|by apply wp_warn_shutdown, Hw]. }
  intros [] s1 [A1 B1]. apply wp_bind. eapply wp_mono.
  { apply (wp_preserved swept); [apply frame_warn_shutdown; auto with icb typeclass_instances|by apply wp_warn_shutdown, Hsz]. }
  intros [] s2 [A2 B2]. destruct (Htr _ _ A1 B1 A2 B2) as [A02 B02]. apply wp_bind. eapply wp_mono.
  { apply (wp_preserved swept); [apply frame_kill_pending; auto with icb typeclass_instances|by apply wp_kill_pending, Hsz]. }
  intros [] s3 [A3 B3]. destruct (Htr _ _ A02 B02 A3 B3) as [A03 [B03 K03]].
  assert (world s3) as Hw3 by by eapply same_world.
  eapply wp_mono; [by apply wp_mod_sweep; [|apply B03]|]. intros [] s4 ([Eu4 Hw4] & Hl4 & K4).
  split; [split; [|done]|split; [done|by etransitivity]]. rewrite Eu4. by destruct A03.
Qed.

Lemma sweep_assoc (a b c d m : M st unit) s s4 :
  (a ;; b ;; c ;; d) s = Some (tt, s4) → (a ;; b ;; c ;; d ;; m) s = m s4.
Proof.
  unfold bind. destruct (a s) as [[? ?]|]; [|done]. destruct (b _) as [[? ?]|]; [|done]. destruct (c _) as [[? ?]|]; [|done].
  destruct (d _) as [[? ?]|]; [|done]. by intros [= _ ->].
Qed.
End sweep.

(** C10: the periodic sweep.  On consistent tables it is defined exactly when
    nothing is to be done at this call, the time of a shutdown has come, no user
    is due for the group of the idle, or [fields[1]] of an earlier packet, which
    the boot of an idle user writes to, can still be used.  Due is a user who is
    logged in, not yet in the group of the idle, and silent for longer than the
    limit of the user's group, if it has one.  The sweep keeps the tables
    consistent.  At the time of a shutdown it ends the program and touches
    nothing; otherwise each user entry is as before, or it is that of a user who
    was due and is now in the group of the idle. *)
Theorem s_didpoll_correct `{BuildConfig} `{Host} `{Commands} n (s : st) :
  world s → lists_ok s →
  let time_up := 0 < TimeToDie (glob s) ≤ clock s in
  let somebody_due := ∃ i u, 0 ≤ i < MAX_REAL_USERS ∧ entry_at i (u_tab s) = Some u ∧ due (clock s) (g_tab s) u in
  (is_Some (s_didpoll n s) ↔ n = 1 ∨ time_up ∨ ¬ somebody_due ∨ reusable 1 s) ∧
  ∀ s', s_didpoll n s = Some (tt, s') → world s' ∧ lists_ok s' ∧
    (n = 1 → s' = s) ∧ (n ≠ 1 → time_up → ∃ es, s' = log (es ++ [EvExit]) s) ∧
    ∀ i u', entry_at i (u_tab s') = Some u' → ∃ u, entry_at i (u_tab s) = Some u ∧ idled (clock s) (g_tab s) u u'.
Proof.
  intros Hw Hl up some.
  assert (∀ s', swept s s' → same_tables s s' → sweep_inv (clock s) s s') as Hsame.
  { intros s' [K1 K2] A. split; [by eapply same_world|]. split; [auto|]. split; [done|]. destruct A as (Eu & _). rewrite Eu.
    intros i u Hu. exists u. split; [done|by left]. }
  unfold s_didpoll. destruct (Z.eqb_spec n 1) as [->|Hn].
  { split; [split; [by left|by eexists]|]. intros s' [= <-]. destruct (Hsame s) as (? & ? & _ & Hu); [done|done|]. by split_and!. }
  assert ((TimeToDie (glob s) <=? clock s) && (0 <? TimeToDie (glob s)) = true ↔ up) as Eup by (unfold up; lia).
  erewrite bind_runs by reflexivity. erewrite bind_runs by reflexivity. destruct ((TimeToDie (glob s) <=? clock s) && _).
  { destruct (wp_run_unit _ _ _ (wp_icbexit s (proj1 Hw))) as (s1 & Hr & es & ->). rewrite Hr.
    split; [split; [right; left; by apply Eup|by eexists]|]. intros s' [= <-].
    destruct (Hsame (log (es ++ [EvExit]) s)) as (? & ? & _ & Hu); [by apply swept_same|done|]. split_and!; try done. by eexists. }
  assert (¬ up) as Hup by by intros ?%Eup. destruct (sweep_prefix s Hw Hl) as (s4 & Hr & [Eu4 Hw4] & Hl4 & K4). cbv zeta in Hr.
  assert (∀ (m : M st unit), (warn_shutdown (clock s) 300 0 (str "Server shutting down in 5 minutes!") ;;
      warn_shutdown (clock s) 60 1 (str "Server shutting down in 1 minute!") ;; kill_pending ;;
      for_each (zseq (Z.of_nat MAX_GROUPS)) (λ i, check_idle_mod (clock s) i ;; pass_mod (clock s) i) ;; m) s = m s4) as Hpre.
  { intros m. by apply sweep_assoc. }
  rewrite Hpre. assert (∀ i u, entry_at i (u_tab s4) = Some u → due (clock s) (g_tab s4) u ↔ due (clock s) (g_tab s) u) as Hdue.
  { intros i u Hu. apply due_kept; [done|done|done|]. by exists i. }
  assert (reusable 1 s4 ↔ reusable 1 s) as Ere by (unfold reusable; by destruct K4 as [-> _]).
  assert (is_Some (for_each (zseq MAX_REAL_USERS) (idle_boot (clock s)) s4) → ¬ some ∨ reusable 1 s) as Honly.
  { intros [[[] s5] E]. destruct (decide (reusable 1 s)) as [Hre|Hre]; [by right|]. left. intros (i & u & Hi & Hu & Hd).
    rewrite <-Eu4 in Hu. rewrite <-Ere in Hre. apply (idle_boots_inv _ _ _ Hre E i u Hi Hu). by apply (Hdue i u Hu). }
  assert (¬ some ∨ reusable 1 s → wp (for_each (zseq MAX_REAL_USERS) (idle_boot (clock s))) (λ _, sweep_inv (clock s) s4) s4) as Hall.
  { intros Hc. apply wp_idle_boots; [done|done|]. destruct Hc as [Hno|Hre]; [|left; by apply Ere]. right. intros i u Hi Hu Hd.
    apply Hno. exists i, u. rewrite <-Eu4. split; [done|]. split; [done|]. by apply (Hdue i u Hu). }
  split.
  - split; [intros [?|?]%Honly; auto|]. intros [?|[?|Hc]]; [done|done|].
    destruct (wp_run_unit _ _ _ (Hall Hc)) as (s5 & -> & _). by eexists.
  - intros s' E. destruct (wp_run_unit _ _ _ (Hall (Honly ltac:(by eexists)))) as (s5 & E5 & Hw5 & Hl5 & _ & Hu5).
    rewrite E5 in E. injection E as <-. split_and!; try done. intros i u' Hu'. destruct (Hu5 i u' Hu') as (u & Hu & Hid).
    exists u. pose proof Hu as Hu4. rewrite Eu4 in Hu. split; [done|]. destruct Hid as [->|[Hd Hc]]; [by left|]. right.
    split; [|done]. by apply (Hdue i u Hu4).
Qed.

(** Passing the moderation on.  When the time-out of a group has run out
    the new moderator is a user who is logged in, in the group and not away,
    whose last packet is at least as recent as that of every other such user;
    the waiting is over.  When there is no such user nothing changes. *)
Theorem pass_mod_correct `{BuildConfig} `{Host} `{Commands} TheTime i g (s : st) :
  world s → entry_at i (g_tab s) = Some g → 0 < g_modtimeout g < TheTime →
  let eligible u := (LOGIN_COMPLETE <=? u_login u) && is_empty (u_awaymsg u) && strcaseeq (u_group u) (g_name g) in
  ∃ s', pass_mod TheTime i s = Some (tt, s') ∧ world s' ∧ u_tab s' = u_tab s ∧
    ((g_tab s' = g_tab s ∧ ∀ j u, entry_at j (u_tab s) = Some u → eligible u = false) ∨
     ∃ m um, g_tab s' = entry_set i (set_g_missingmod [] (set_g_modtimeout 0 (set_g_mod m g))) (g_tab s) ∧
       entry_at m (u_tab s) = Some um ∧ eligible um = true ∧
       ∀ j u, entry_at j (u_tab s) = Some u → eligible u = true → u_t_recv u ≤ u_t_recv um).
Proof.
  intros Hw Hg Ht eligible.
  assert (0 ≤ i < Z.of_nat MAX_GROUPS) as Hi.
  { rewrite <-(t_groups _ _ _ (proj2 Hw)). apply entry_at_range. by rewrite Hg. }
  destruct (proj1 (wp_run _ _ _) (wp_pass_mod TheTime i s Hw Hi)) as ([] & s' & Hrun & Eu & Hw').
  exists s'. split; [done|]. split; [done|]. split; [done|].
  unfold pass_mod in Hrun. erewrite bind_runs in Hrun by (by apply group_at_run).
  assert ((0 <? g_modtimeout g) && (g_modtimeout g <? TheTime) = true) as Hc by lia. rewrite Hc in Hrun. cbn [when] in Hrun.
  erewrite bind_runs in Hrun by reflexivity. fold eligible in Hrun.
  destruct (least_idle_spec eligible (u_tab s)) as (b & [[E Hno]|(um & Hum & Hp & _ & Hmax)]).
  - left. rewrite E in Hrun. injection Hrun as <-. by split.
  - right. set (m := least_idle eligible (u_tab s)) in *. exists m, um.
    assert (0 ≤ m) by (apply entry_at_lookup in Hum; tauto). destruct (Z.eqb_spec m (-1)); [lia|]. cbn [negb when] in Hrun.
    erewrite bind_runs in Hrun by (by apply upd_group_run). erewrite bind_runs in Hrun by (by apply user_at_run).
    erewrite bind_runs in Hrun by (apply status_group_run; [apply Hw|cbn; by rewrite entry_set_at by (by rewrite Hg)]).
    injection Hrun as <-. split; [done|]. split; [done|]. split; [done|]. intros j u Hj Hpu. destruct (Hmax j u Hj Hpu); lia.
Qed.

(** *** The theorems at work *)

Lemma demo_lists : lists_ok demo_state.
Proof.
  split; [exact demo_patterns|]. intros j g [(-> & ->)|[(-> & ->)|[(-> & ->)| ->]]]%demo_groups a; by eexists.
Qed.
Lemma demo_notifies : notifies_ok (u_tab demo_state).
Proof. intros j v [(-> & ->)|[(-> & ->)|[(-> & ->)|[(-> & ->)|(-> & ->)]]]]%demo_users; split; intros nm; by eexists. Qed.

Lemma s_lost_user_correct_witness :
  ∃ s', @s_lost_user demo_build demo_host 0 (set_userdb ready_db demo_state) = Some (0, s') ∧
    @world demo_build s' ∧ g_mod <$> entry_at 1 (g_tab s') = Some 1.
Proof.
  destruct (@s_lost_user_correct demo_build demo_host demo_commands 0 (demo_user "amy" "Lobby") (λ _, None) 128
    (set_userdb ready_db demo_state) env_good_ok ready_db_ready) as (s' & Hr & _ & _ & Hm).
  - lia.
  - by intros k v.
  - exact demo_world.
  - exact demo_notifies.
  - reflexivity.
  - reflexivity.
  - by right.
  - destruct Hm as (Eg & Hw & _); [by intros [=]|]. exists s'. split; [exact Hr|]. split; [exact Hw|]. rewrite Eg. vm_compute. reflexivity.
Defined.

(** Everybody has been silent for long, and a packet of two fields has been seen. *)
Definition silent_state : st := set_fields_set 2 (set_clock 100000 demo_state).

Lemma s_didpoll_correct_witness :
  (∃ s', @s_didpoll demo_build kept_host demo_commands 0 silent_state = Some (tt, s') ∧ @world demo_build s') ∧
  ¬ is_Some (@s_didpoll demo_build demo_host demo_commands 0 silent_state).
Proof.
  split.
  - destruct (@s_didpoll_correct demo_build kept_host demo_commands 0 silent_state) as [[_ Hd] Hc]; [exact demo_world|exact demo_lists|].
    destruct Hd as [[[] s'] E]; [do 3 right; split; [cbn; lia|reflexivity]|]. exists s'. split; [exact E|]. by destruct (Hc s' E).
  - destruct (@s_didpoll_correct demo_build demo_host demo_commands 0 silent_state) as [[Hd _] _]; [exact demo_world|exact demo_lists|].
    intros [E|[[E _]|[E|[_ E]]]]%Hd; [lia|by cbn in E| |done]. apply E. exists 0, (demo_user "amy" "Lobby").
    split; [vm_compute; by split|]. split; [reflexivity|]. split; [done|]. split; [done|]. eexists. split; [reflexivity|]. by vm_compute.
Defined.

Lemma pass_mod_correct_witness :
  let g := set_g_modtimeout 10 (demo_group "Lobby" MODERATED (-1)) in
  ∃ s', @pass_mod demo_build 1000 1 (set_g_tab (entry_set 1 g (g_tab demo_state)) demo_state) = Some (tt, s') ∧
    u_tab s' = u_tab demo_state.
Proof.
  intros g. set (s := set_g_tab _ demo_state).
  destruct (@pass_mod_correct demo_build demo_host demo_commands 1000 1 g s) as (s' & Hr & _ & Eu & _).
  - split; [exact demo_sized|]. eapply (tables_set_mod (-1) (u_tab demo_state) (g_tab demo_state) 1 (demo_group "Lobby" MODERATED 0));
      [exact (proj2 demo_world)|reflexivity|reflexivity|simpl; lia|by intros [=]].
  - reflexivity.
  - simpl. lia.
  - exists s'. split; [exact Hr|exact Eu].
Defined.

(** A moderator who is carried away for idleness passes the group to the least
    idle user of the group, which can be the same moderator: the search is made
    before the user is moved. *)
Example idle_boot_passes_to_itself :
  let '(u, g) := match @idle_boot demo_build kept_host demo_commands 100000 0 silent_state with
    | Some (_, s') => (u_group <$> entry_at 0 (u_tab s'), g_mod <$> entry_at 1 (g_tab s'))
    | None => (None, None) end in
  u = Some IDLE_GROUP ∧ g = Some 0.
Proof. vm_compute. by split. Qed.
