(* ===== verification/UserCmd.v ===== *)
(** * The commands of a user about itself, and private messages
    (server/s_user.c, server/s_person.c, server/s_beep.c)

    Hush and notification lists, the nickname, echoback and beeping, pings,
    away messages; messages and beeps to one user. *)

From Stdlib Require Import ZArith Lia String.
From S2P Require Import Config Prelude Utf8 StrUtil Wildmat NameList CLib Monad Dbm IcbDb State Tables Send GroupCast World Access GroupChange GroupMod.

Local Open Scope Z_scope.
Local Open Scope icb_monad_scope.

Definition AWAY_NOSEND_TIME : Z := 10.

(** ** Flags *)

(** The variables of [s_hush], -1 while unset. *)
Record hush_flags : Type := HushFlags { h_quiet : Z; h_mode : Z; h_personal : Z; h_public : Z }.
Definition no_hush_flags : hush_flags := HushFlags (-1) (-1) (-1) (-1).

Definition hush_flag (c : byte) (f : hush_flags) : option hush_flags :=
  let 'HushFlags q m p o := f in
  if Byte.eqb c "q" then (if q =? -1 then Some (HushFlags 1 m p o) else None)
  else if Byte.eqb c "n" then (if m =? -1 then Some (HushFlags q 0 p o) else None)
  else if Byte.eqb c "s" then (if m =? -1 then Some (HushFlags q 1 p o) else None)
  else if Byte.eqb c "p" then (if p =? -1 then Some (HushFlags q m 1 o) else None)
  else if Byte.eqb c "o" then (if o =? -1 then Some (HushFlags q m p 1) else None)
  else None.

Definition notify_flag (c : byte) (f : hush_flags) : option hush_flags :=
  if Byte.eqb c "q" || Byte.eqb c "n" || Byte.eqb c "s" then hush_flag c f else None.

Section usercmd.
Context `{BuildConfig} `{Host} `{Commands}.

(** ** Hush and notification lists *)

(** A name is put on a list or, when it is there, taken off; [false] when the
    list is full.  [max] is also the limit the list is given at the login. *)
Definition toggle_name (n : Z) (get : user → list cstring) (set : list cstring → user → user) (max : nat)
    (who : cstring) (quiet : bool) (class full list_name : cstring) (added : M st unit) : M st bool :=
  u <- user_at n ;;
  if mru_present who (get u) then
    upd_user n (λ u, set (fst (mru_delete who (get u))) u) ;;
    when (negb quiet) (sendstatus n class (who ++ str " removed from " ++ list_name ++ str " list.")) ;;
    ret true
  else if (length (get u) =? max)%nat then senderror n full ;; ret false
  else
    upd_user n (λ u, set (mru_put max who (get u)) u) ;;
    when (negb quiet) (sendstatus n class (who ++ str " added to " ++ list_name ++ str " list.") ;; added) ;;
    ret true.

(** [for (i = 0; i < nlcount(l); i++) sendstatus(n, class, nlget(l))] *)
Definition send_names (n : Z) (class : cstring) (l : list cstring) : M st unit := for_each l (sendstatus n class).

Definition hush_usage : cstring := str "Usage: hush {-q} {-p} {-o} {-n nickname | -s address}".

Definition list_hushed (n : Z) : M st unit :=
  u <- user_at n ;;
  if (length (u_pri_n_hushed u) + length (u_pub_n_hushed u) + length (u_pri_s_hushed u) + length (u_pub_s_hushed u) =? 0)%nat
  then sendstatus n (str "Hush-List") (str "Empty List")
  else
    send_names n (str "Personal-Nick-Hushed") (u_pri_n_hushed u) ;;
    send_names n (str "Open-Nick-Hushed") (u_pub_n_hushed u) ;;
    send_names n (str "Personal-Site-Hushed") (u_pri_s_hushed u) ;;
    send_names n (str "Open-Site-Hushed") (u_pub_s_hushed u).

(** The changes: the personal list first; a full one ends the command. *)
Definition hush_who (n : Z) (who : cstring) (mode personal public : Z) (quiet : bool) : M st Z :=
  let kind := if mode =? 1 then str "site" else str "nickname" in
  let one (what : cstring) get set :=
    toggle_name n get set MAX_HUSHED who quiet (str "Hush")
      (str "Max number of " ++ kind ++ str " " ++ what ++ str " hushes reached.")
      (kind ++ str " " ++ what ++ str " hush") (ret tt) in
  ok1 <- (if personal =? 1 then
            if mode =? 1 then one (str "personal") u_pri_s_hushed set_u_pri_s_hushed
            else one (str "personal") u_pri_n_hushed set_u_pri_n_hushed
          else ret true) ;;
  if negb ok1 then ret (-1)
  else
    ok2 <- (if public =? 1 then
              if mode =? 1 then one (str "open") u_pub_s_hushed set_u_pub_s_hushed
              else one (str "open") u_pub_n_hushed set_u_pub_n_hushed
            else ret true) ;;
    ret (if ok2 : bool then 0 else -1).

Definition s_hush (n argc : Z) (f1 : cstring) : M st Z :=
  if argc <? 2 then list_hushed n ;; ret 0
  else
    p <- flag_loop hush_flag (length f1) f1 no_hush_flags ;;
    match p with
    | None => senderror n hush_usage ;; ret (-1)
    | Some ([], f) => list_hushed n ;; ret 0
    | Some (who, f) =>
        let both := (h_personal f =? -1) && (h_public f =? -1) in
        hush_who n (ucaseit who) (if h_mode f =? -1 then 0 else h_mode f)
          (if both then 1 else h_personal f) (if both then 1 else h_public f) (h_quiet f =? 1)
    end.

Definition notify_usage : cstring := str "Usage: notify {-q} {-n nickname | -s address}".

Definition list_notifies (n : Z) : M st unit :=
  u <- user_at n ;;
  if (length (u_n_notifies u) + length (u_s_notifies u) =? 0)%nat
  then sendstatus n (str "Notify-List") (str "Empty List")
  else
    send_names n (str "Notify-Nickname") (u_n_notifies u) ;;
    send_names n (str "Notify-Site") (u_s_notifies u).

Definition s_notify (n argc : Z) (f1 : cstring) : M st Z :=
  if argc <? 2 then list_notifies n ;; ret 0
  else
    p <- flag_loop notify_flag (length f1) f1 no_hush_flags ;;
    match p with
    | None => senderror n notify_usage ;; ret (-1)
    | Some ([], f) => list_notifies n ;; ret 0
    | Some (who, f) =>
        let who := ucaseit who in
        let quiet := h_quiet f =? 1 in
        ok <- (if h_mode f =? 1 then
                 toggle_name n u_s_notifies set_u_s_notifies MAX_NOTIFIES who quiet (str "Notify")
                   (str "Max number of site notifies reached.") (str "site notify") (ret tt)
               else
                 toggle_name n u_n_notifies set_u_n_notifies MAX_NOTIFIES who quiet (str "Notify")
                   (str "Max number of nickname notifies reached.") (str "nickname notify")
                   (i <- gets (λ s, find_user who (u_tab s)) ;;
                    when (0 <? i) (
                      ui <- user_at i ;; sendstatus n (str "Notify") (u_nickname ui ++ str " is logged in now.")))) ;;
        ret (if ok : bool then 0 else -1)
    end.

(** ** The nickname *)

(** What a user who is known but has not proved it is told. *)
Definition tell_unproved (n : Z) : M st unit :=
  sendstatus n (str "Register") (str "Send password to authenticate your nickname.") ;;
  u <- user_at n ;;
  gs <- gets g_tab ;;
  let mine := List.filter (λ g, strcaseeq (u_nickname u) (g_missingmod g)) gs in
  for_each mine (λ g, sendstatus n (str "Mod") (str "You are moderator of group " ++ g_name g)) ;;
  when (length mine =? 1)%nat
    (sendstatus n (str "Mod") (str "You must register using /p <password> to regain mod of the above group.")) ;;
  when (1 <? length mine)%nat
    (sendstatus n (str "Mod") (str "You must register using /p <password> to regain mod of the above groups.")).

(** A user whose record has been recognised (written in [s_name] and
    [loginmsg]). *)
Definition recognise (n : Z) : M st unit :=
  upd_user n (set_u_realname (str "registered")) ;;
  sendstatus n (str "Register") (str "Nick registered") ;;
  _ <- nickwritetime n 0 ;;
  regain_mods n ;;
  tell_messages n.

(** The standing of a nickname that has just been taken. *)
Definition settle_nick (n : Z) : M st unit :=
  u <- user_at n ;;
  r <- nicklookup (- n) (u_nickname u) ;;
  if r =? 0 then recognise n
  else if r =? -2 then tell_unproved n
  else
    upd_user n (set_u_realname []) ;;
    sendstatus n (str "No-Pass") (str "To register your nickname type /m server p mypassword").

Definition s_name (n argc : Z) (f1 : cstring) : M st Z :=
  if argc =? 2 then
    if (length f1 =? 0)%nat then senderror n (str "The nickname may not be null.") ;; ret (-1)
    else
      let new_name := filternickname (strncpy f1 MAX_NICKLEN) in
      u <- user_at n ;;
      taken <- gets (λ s, find_user new_name (u_tab s)) ;;
      if (0 <=? taken) && negb (strcaseeq new_name (u_nickname u)) then
        senderror n (str "Nickname already in use.") ;; ret (-1)
      else if strcaseeq new_name (str "admin") && negb (streq (u_password u) ADMIN_PWD) then
        senderror n (str "Nickname already in use.") ;; ret (-1)
      else
        let text := u_nickname u ++ str " changed nickname to " ++ new_name in
        _ <- s_status_group 1 false n (str "Name") text ;;
        _ <- nickwritetime n 1 ;;
        upd_user n (set_u_nickname new_name) ;;
        sendstatus n (str "Name") text ;;
        upd_user n (set_u_realname []) ;;
        settle_nick n ;;
        for_each (zseq (Z.of_nat MAX_GROUPS)) (talk_report n) ;;
        ret 0
  else ret 0.

(** ** Switches *)

Definition s_echoback (n argc : Z) (f1 : cstring) : M st Z :=
  when (argc =? 2) (
    if strcaseeq f1 (str "off") then upd_user n (set_u_echoback 0) ;; sendstatus n (str "Echo") (str "Echoback off")
    else if strcaseeq f1 (str "on") then upd_user n (set_u_echoback 1) ;; sendstatus n (str "Echo") (str "Echoback on")
    else if strcaseeq f1 (str "verbose") then
      upd_user n (set_u_echoback 2) ;; sendstatus n (str "Echo") (str "Echoback on verbose")
    else senderror n (str "Echoback: needs on/off/verbose")) ;;
  ret 0.

Definition s_nobeep (n argc : Z) (f1 : cstring) : M st Z :=
  when (argc =? 2) (
    if strcaseeq f1 (str "off") then upd_user n (set_u_nobeep 0) ;; sendstatus n (str "No-Beep") (str "No-Beep off")
    else if strcaseeq f1 (str "on") then upd_user n (set_u_nobeep 1) ;; sendstatus n (str "No-Beep") (str "No-Beep on")
    else if strcaseeq f1 (str "verbose") then
      upd_user n (set_u_nobeep 2) ;; sendstatus n (str "No-Beep") (str "No-Beep on (verbose)")
    else senderror n (str "No-Beep: needs off/on/verbose")) ;;
  ret 0.

(** [gettimeofday], in microseconds. *)
Definition now_usec : M st Z := gets (λ s, clock s * 1000000 + usec (glob s)).

Definition s_ping (n argc : Z) (f1 : cstring) : M st Z :=
  if negb (argc =? 2) then ret (-1)
  else
    p <- getword_m f1 ;;
    i <- gets (λ s, find_user p (u_tab s)) ;;
    if negb (is_empty p) && negb (0 <? i) then
      senderror n (str "Can't locate user (" ++ p ++ str ")") ;; ret (-1)
    else
      let sendto := if is_empty p then n else i in
      t <- now_usec ;;
      set_int ping_time set_ping_time sendto t ;;
      set_int pong_req set_pong_req sendto n ;;
      u <- user_at n ;;
      sendping sendto (u_nickname u) ;;
      ret 0.

(** ** Away *)

Definition s_noaway (n argc : Z) : M st Z :=
  if (argc =? 0) || (2 <? argc) then ret (-1)
  else
    u <- user_at n ;;
    if is_empty (u_awaymsg u) then sendstatus n (str "Away") (str "Away not set!") ;; ret 0
    else
      upd_user n (λ u, set_u_lastawaytime 0 (set_u_lastaway 0 (set_u_awaymsg [] u))) ;;
      sendstatus n (str "Away") (str "Away message unset.") ;; ret 0.

(** [%d:%02d%s] of the local time on a twelve-hour clock. *)
Definition clock_text (hm : Z * Z) : cstring :=
  let '(h, m) := hm in
  itoa (if 12 <? h then h - 12 else if h =? 0 then 12 else h) ++ str ":" ++
  (if m <? 10 then str "0" ++ itoa m else itoa m) ++ (if 11 <? h then str "pm" else str "am").

Definition s_away (n argc : Z) (f1 : cstring) : M st Z :=
  if (argc =? 0) || (2 <? argc) then ret (-1)
  else
    u <- user_at n ;;
    if (length f1 =? 0)%nat then
      (if is_empty (u_awaymsg u) then sendstatus n (str "Away") (str "Away message is not set.")
       else sendstatus n (str "Away") (str "Away message is set to " ++ [x22] ++ u_awaymsg u ++ [x22])) ;; ret 0
    else
      match fst (filterfmt f1 1) with
      | Some e => senderror n (fmt_text e) ;; ret 0
      | None =>
          now <- gettime ;;
          let msg := take (MAX_AWAY_LEN - 1) (str "(%s@" ++ clock_text (local_hm now) ++ str ") " ++ f1) in
          upd_user n (λ u, set_u_lastawaytime 0 (set_u_lastaway 0 (set_u_awaymsg msg u))) ;;
          sendstatus n (str "Away") (str "Away message set to " ++ [x22] ++ msg ++ [x22]) ;;
          ret 0
      end.

Definition away_handle (src dest : Z) : M st unit :=
  u <- user_at dest ;;
  when (negb (is_empty (u_awaymsg u))) (
    now <- time ;;
    when (negb (u_lastaway u =? src) || (AWAY_NOSEND_TIME <? now - u_lastawaytime u)) (
      upd_user dest (λ u, set_u_lastawaytime now (set_u_lastaway src u)) ;;
      sendstatus src (str "Away") (take (MAX_PKT_DATA - 1) (u_awaymsg u)) ;;
      when (u_echoback u =? 2) (
        t <- gettime ;;
        us <- user_at src ;;
        let tbuf := take (MAX_PKT_DATA - 1) (str "<*to: " ++ u_nickname us ++ str "*> [=@" ++ clock_text (local_hm t) ++
                      str "=] " ++ u_awaymsg u) in
        m <- lift (fst <$> sprintf_s tbuf [u_nickname u]) ;;
        sends_cmdout dest (take (MAX_PKT_DATA - 1) m)))).

(** ** Messages and beeps to one user *)

Definition s_personal (n argc : Z) (f1 : cstring) : M st Z :=
  if negb (argc =? 2) then ret (-1)
  else
    w <- getword_m f1 ;;
    dest <- gets (λ s, find_user w (u_tab s)) ;;
    if dest <? 0 then senderror n (w ++ str " not signed on.") ;; ret 0
    else
      u <- user_at n ;;
      when (negb (is_empty (u_awaymsg u)) && negb (dest =? NICKSERV))
        (sendstatus n (str "Away") (str "Your away is still set...")) ;;
      let args := get_tail f1 in
      sendperson n dest args ;;
      u <- user_at n ;;
      when (u_echoback u =? 2) (
        ud <- user_at dest ;;
        sends_cmdout n (take (MAX_PKT_DATA - 1) (str "<*to: " ++ u_nickname ud ++ str "*> " ++ args))) ;;
      away_handle n dest ;;
      ret 0.

Definition s_beep (n argc : Z) (f1 : cstring) : M st Z :=
  when (argc =? 2) (
    cp <- getword_m f1 ;;
    when (negb (is_empty cp)) (
      dest <- gets (λ s, find_user cp (u_tab s)) ;;
      if dest <? 0 then senderror n (cp ++ str " not signed on.")
      else
        sendbeep n dest ;;
        u <- user_at n ;;
        when (u_echoback u =? 2) (
          ud <- user_at dest ;;
          sends_cmdout n (take (MAX_PKT_DATA - 1) (str "<*to: " ++ u_nickname ud ++ str "*> [=Beep=]"))) ;;
        away_handle n dest)) ;;
  ret 0.
End usercmd.

(** ** Lists of names *)

(** A name without the characters that are special in a pattern. *)
Definition plain (c : byte) : bool := negb (has_char (str "*?\[") c).

Lemma plain_pattern p : Forall (λ c, plain c = true) p → pattern p (TLit <$> p).
Proof.
  induction 1 as [|c p Hc _ IH]; [apply pat_end|]. apply pat_lit; [|done].
  unfold plain in Hc. intros Hin. rewrite !elem_of_cons in Hin. destruct Hin as [->|[->|[->|[->|[]%not_elem_of_nil]]]]; done.
Qed.
Lemma tmatch_literal p : tmatch (TLit <$> p) p = true.
Proof. induction p as [|c p IH]; simpl; [done|]. by rewrite (Byte.byte_dec_lb (eq_refl c)). Qed.
Lemma names_match_first p l : Forall (λ c, plain c = true) p → names_match p (p :: l) = Some true.
Proof. intros Hp. simpl. by rewrite (wildmat_pattern _ _ _ (plain_pattern p Hp)), tmatch_literal. Qed.

Lemma length_mru_remove who l : (length (mru_remove who l) ≤ length l)%nat.
Proof. induction l as [|x l IH]; simpl; [done|]. case_if; simpl; lia. Qed.

Lemma mru_put_new max who l :
  mru_present who l = false → mru_put max who l = who :: (if (length l <? max)%nat then l else take (length l - 1) l).
Proof.
  intros Hp. unfold mru_put. destruct (List.find (strcaseeq who) l) as [x|] eqn:E; [|done].
  apply find_some in E as [Hin Hx]. unfold mru_present in Hp.
  assert (existsb (strcaseeq who) l = true) by (apply existsb_exists; eauto). congruence.
Qed.

Section lists.
Context `{BuildConfig} `{Host} `{Commands}.
Implicit Types s : st.

Definition with_user (n : Z) (u : user) (s : st) : st := set_u_tab (entry_set n u (u_tab s)) s.

Lemma wp_toggle_name n get set max who quiet class full ln added u Q s :
  arrays_sized s → entry_at n (u_tab s) = Some u →
  (∀ u' es Q', entry_at n (u_tab s) = Some u → (∀ es', Q' tt (log es' (with_user n u' s))) →
     wp added Q' (log es (with_user n u' s))) →
  (mru_present who (get u) = true → ∀ es, Q true (log es (with_user n (set (mru_remove who (get u)) u) s))) →
  (mru_present who (get u) = false → length (get u) = max → ∀ es, Q false (log es s)) →
  (mru_present who (get u) = false → length (get u) ≠ max →
     ∀ es, Q true (log es (with_user n (set (mru_put max who (get u)) u) s))) →
  wp (toggle_name n get set max who quiet class full ln added) Q s.
Proof.
  intros Hs Hu Hadd Hin Hfull Hnew. unfold toggle_name. apply wp_bind. eapply wp_user_at; [done|].
  assert (∀ v, arrays_sized (with_user n v s)) as Hs'.
  { intros v. destruct Hs as (?&?&?&?&?). unfold arrays_sized. simpl. by rewrite length_entry_set. }
  destruct (mru_present who (get u)) eqn:Ep.
  - apply wp_bind. eapply wp_upd_user; [done|]. unfold mru_delete. rewrite Ep. simpl fst.
    fold (with_user n (set (mru_remove who (get u)) u) s). apply wp_bind.
    apply wp_when_send; [intros Q' HQ'; apply wp_sendstatus; [apply Hs'|exact HQ']|]. intros es. by apply wp_ret, Hin.
  - destruct (Nat.eqb_spec (length (get u)) max).
    + apply wp_bind, wp_senderror; [done|]. intros es. by apply wp_ret, Hfull.
    + apply wp_bind. eapply wp_upd_user; [done|]. fold (with_user n (set (mru_put max who (get u)) u) s). apply wp_bind.
      apply wp_when; intros _.
      * apply wp_bind, wp_sendstatus; [apply Hs'|]. intros es. apply Hadd; [done|]. intros es'. by apply wp_ret, Hnew.
      * apply wp_ret. specialize (Hnew eq_refl ltac:(done) []). by rewrite log_nil in Hnew.
Qed.

(** No flags: the whole text is the name. *)
Lemma no_flags_run {F} (switch : byte → F → option F) fuel who f s :
  starts_with "-" who = false → flag_loop switch fuel who f s = Some (Some (who, f), s).
Proof. intros E. destruct fuel; cbn [flag_loop]; by rewrite E. Qed.

(** The entry after hushing a new nickname for all messages. *)
Definition hushed (who : cstring) (u : user) : user :=
  set_u_pub_n_hushed (mru_put MAX_HUSHED who (u_pub_n_hushed u))
    (set_u_pri_n_hushed (mru_put MAX_HUSHED who (u_pri_n_hushed u)) u).

Lemma wp_hush_new n who u s :
  arrays_sized s → entry_at n (u_tab s) = Some u → who ≠ [] → starts_with "-" who = false →
  mru_present (ucaseit who) (u_pri_n_hushed u) = false → mru_present (ucaseit who) (u_pub_n_hushed u) = false →
  length (u_pri_n_hushed u) ≠ MAX_HUSHED → length (u_pub_n_hushed u) ≠ MAX_HUSHED →
  wp (s_hush n 2 who) (λ r s', r = 0 ∧ ∃ es, s' = log es (with_user n (hushed (ucaseit who) u) s)) s.
Proof.
  intros Hs Hu Hne Hf Hp1 Hp2 Hl1 Hl2. unfold s_hush. change (2 <? 2) with false. cbn iota. apply wp_bind.
  unfold wp at 1. rewrite no_flags_run by done. destruct who as [|c who]; [done|]. cbn [h_personal h_public h_mode h_quiet no_hush_flags].
  set (w := ucaseit (c :: who)) in *. unfold hush_who. change (-1 =? -1) with true. cbn iota beta zeta.
  change (true && true) with true. cbn iota. change (1 =? 1) with true. change (0 =? 1) with false. cbn iota.
  apply wp_bind. eapply (wp_toggle_name _ _ _ _ _ _ _ _ _ _ u); [done|done| |congruence|done|].
  { intros u' es Q' _ HQ'. by apply wp_ret. }
  intros _ _ es. cbn [negb]. apply wp_bind.
  set (u1 := set_u_pri_n_hushed _ u). assert (entry_at n (u_tab (log es (with_user n u1 s))) = Some u1) as Hu1.
  { simpl. apply entry_set_at. by rewrite Hu. }
  eapply (wp_toggle_name _ _ _ _ _ _ _ _ _ _ u1); [|exact Hu1| |simpl; congruence|done|].
  { destruct Hs as (?&?&?&?&?). unfold arrays_sized. simpl. by rewrite length_entry_set. }
  { intros u' es' Q' _ HQ'. by apply wp_ret. }
  intros _ _ es'. apply wp_ret. split; [done|]. exists (es ++ es'). unfold with_user at 1. simpl.
  rewrite entry_set_twice. unfold with_user, log. simpl. by rewrite app_assoc.
Qed.
End lists.

(** Hushing works end to end: after a user has hushed a nickname that
    was on neither list, every private message of the user with that nickname
    bounces, whatever the address patterns say, and the husher receives
    nothing. *)
Theorem hush_then_bounce `{BuildConfig} `{Host} `{Commands} n from who u uf (s : st) :
  arrays_sized s → 0 ≤ n < MAX_REAL_USERS → n ≠ from →
  entry_at n (u_tab s) = Some u → entry_at from (u_tab s) = Some uf →
  who ≠ [] → starts_with "-" who = false → Forall (λ c, plain c = true) (ucaseit who) → hush_nick uf = ucaseit who →
  mru_present (ucaseit who) (u_pri_n_hushed u) = false → mru_present (ucaseit who) (u_pub_n_hushed u) = false →
  length (u_pri_n_hushed u) ≠ MAX_HUSHED → length (u_pub_n_hushed u) ≠ MAX_HUSHED →
  searchable (u_pri_s_hushed u) → fits (u_nickname uf) 13 →
  ∃ s', s_hush n 2 who s = Some (0, s') ∧
    ∀ message, fits message 241 →
      sendperson from n message s' = Some (tt,
        log (deliver s' from (ICB_M_STATUS :: str "Bounce" ++ SEP ++ str "Message did not go through")) s').
Proof.
  intros Hs Hn Hne Hu Huf Hw Hf Hpl Hnick Hp1 Hp2 Hl1 Hl2 Hse Hfit.
  destruct (proj1 (wp_run _ _ _) (wp_hush_new n who u s Hs Hu Hw Hf Hp1 Hp2 Hl1 Hl2)) as (r & s' & Hrun & -> & es & ->).
  eexists. split; [done|]. intros m Hm. destruct (Hse (hush_address uf)) as [a Ea].
  rewrite (sendperson_run from n uf (hushed (ucaseit who) u) m a true).
  - by rewrite orb_true_r.
  - destruct Hs as (?&?&?&?&?). unfold arrays_sized. simpl. by rewrite length_entry_set.
  - done.
  - simpl. by rewrite entry_set_ne.
  - simpl. apply entry_set_at. by rewrite Hu.
  - done.
  - done.
  - done.
  - cbn [hushed u_pri_n_hushed set_u_pub_n_hushed set_u_pri_n_hushed].
    rewrite Hnick, mru_put_new by done. by apply names_match_first.
Qed.

Lemma hush_then_bounce_witness :
  ∃ s', @s_hush demo_build 0 2 (str "Bob") demo_state = Some (0, s') ∧
    @sendperson demo_build demo_commands 1 0 (str "hi") s' = Some (tt,
      log (@deliver demo_build s' 1 (ICB_M_STATUS :: str "Bounce" ++ SEP ++ str "Message did not go through")) s').
Proof.
  destruct (@hush_then_bounce demo_build demo_host demo_commands 0 1 (str "Bob") (demo_user "amy" "Lobby")
    (demo_user "bob" "Lobby") demo_state demo_sized) as (s' & Hr & Hb); try reflexivity; try (by intros [=]).
  - by split; [apply Z.leb_le|apply Z.ltb_lt].
  - by repeat constructor.
  - intros nm. by eexists.
  - split; [by apply ascii_clean|vm_compute; lia].
  - exists s'. split; [exact Hr|]. apply Hb. split; [by apply ascii_clean|vm_compute; lia].
Defined.

(** The notification list of nicknames after the command: a name that is there
    is taken off, another one goes to the front while there is room. *)
Definition toggled_notify (w : cstring) (l : list cstring) : option (list cstring) :=
  if mru_present w l then Some (mru_remove w l)
  else if (length l <? MAX_NOTIFIES)%nat then Some (w :: l) else None.

(** [s_notify] of a nickname takes it off the list when it is there, puts
    it at the front when it is not, without losing another, and refuses it, changing
    nothing, when the list holds [MAX_NOTIFIES] names; the list never grows beyond
    that. *)
Theorem s_notify_correct `{BuildConfig} `{Host} `{Commands} n who u (s : st) :
  arrays_sized s → entry_at n (u_tab s) = Some u → who ≠ [] → starts_with "-" who = false →
  (length (u_n_notifies u) ≤ MAX_NOTIFIES)%nat →
  ∃ r es, match toggled_notify (ucaseit who) (u_n_notifies u) with
    | Some l => r = 0 ∧ s_notify n 2 who s = Some (r, log es (with_user n (set_u_n_notifies l u) s)) ∧
        (length l ≤ MAX_NOTIFIES)%nat
    | None => r = -1 ∧ s_notify n 2 who s = Some (r, log es s)
    end.
Proof.
  intros Hs Hu Hne Hf Hl. set (w := ucaseit who) in *. unfold toggled_notify.
  cut (wp (s_notify n 2 who) (λ r s', ∃ es, match toggled_notify w (u_n_notifies u) with
    | Some l => r = 0 ∧ s' = log es (with_user n (set_u_n_notifies l u) s)
    | None => r = -1 ∧ s' = log es s end) s).
  { unfold toggled_notify. intros (r & s' & Hrun & es & Hm)%wp_run. exists r, es. destruct (mru_present w (u_n_notifies u)).
    - destruct Hm as [-> ->]. split; [done|]. split; [done|].
      etransitivity; [|exact Hl]. apply length_mru_remove.
    - destruct (Nat.ltb_spec (length (u_n_notifies u)) MAX_NOTIFIES); destruct Hm as [-> ->]; [|done].
      split; [done|]. split; [done|]. simpl. lia. }
  unfold s_notify, toggled_notify. change (2 <? 2) with false. cbn iota. apply wp_bind.
  unfold wp at 1. rewrite no_flags_run by done. destruct who as [|c who]; [done|].
  change (h_mode no_hush_flags =? 1) with false. cbn iota. fold w. apply wp_bind.
  eapply (wp_toggle_name _ _ _ _ _ _ _ _ _ _ u); [done|done| | | |].
  - intros u' es Q' _ HQ'. apply wp_bind, wp_gets. apply wp_when; [|intros _; apply HQ']. intros Hi%Z.ltb_lt.
    destruct (find_user_entry w (u_tab (log es (with_user n u' s)))) as (ui & Hui & _); [lia|].
    apply wp_bind. eapply wp_user_at; [done|]. apply wp_sendstatus; [|intros es'; rewrite log_log; apply HQ'].
    destruct Hs as (?&?&?&?&?). unfold arrays_sized. simpl. by rewrite length_entry_set.
  - intros -> es. apply wp_ret. by exists es.
  - intros -> E es. apply wp_ret. exists es. by destruct (Nat.ltb_spec (length (u_n_notifies u)) MAX_NOTIFIES); [lia|].
  - intros Ep E es. apply wp_ret. exists es. rewrite mru_put_new by done. rewrite Ep.
    by destruct (Nat.ltb_spec (length (u_n_notifies u)) MAX_NOTIFIES); [|lia].
Qed.

Lemma s_notify_correct_witness :
  ∃ r es, r = 0 ∧ @s_notify demo_build 0 2 (str "bob") demo_state =
    Some (r, log es (with_user 0 (set_u_n_notifies [str "BOB"] (demo_user "amy" "Lobby")) demo_state)) ∧
    (length [str "BOB"] ≤ MAX_NOTIFIES)%nat.
Proof.
  apply (@s_notify_correct demo_build demo_host demo_commands 0 (str "bob") (demo_user "amy" "Lobby") demo_state
    demo_sized); try reflexivity; try (by intros [=]). simpl. lia.
Defined.

(** ** Away messages *)

Lemma print_nat_digits fuel n acc c : c ∈ print_nat fuel n acc → c ∈ acc ∨ is_digit c = true.
Proof.
  revert n acc. induction fuel as [|fuel IH]; intros n acc; cbn [print_nat]; [by left|].
  assert (is_digit (to_uchar (48 + n mod 10)) = true) as Hd by (apply digit_char, Z.mod_pos_bound; lia).
  case_if.
  - intros [->|?]%elem_of_cons; auto.
  - intros [[->|?]%elem_of_cons|?]%IH; auto.
Qed.
Lemma itoa_no_percent z : "%"%byte ∉ itoa z.
Proof.
  assert (∀ m, "%"%byte ∉ print_nat 20 m []) as Hp.
  { intros m [[]%not_elem_of_nil|Hd]%print_nat_digits. done. }
  unfold itoa. case_if; [|apply Hp]. by intros [?|?%Hp]%elem_of_cons.
Qed.
Lemma clock_text_no_percent hm : "%"%byte ∉ clock_text hm.
Proof.
  destruct hm as [h m]. unfold clock_text. rewrite !not_elem_of_app. split; [apply itoa_no_percent|].
  split; [by apply (bool_decide_unpack _)|]. split; [|case_if; by apply (bool_decide_unpack _)].
  case_if; [|apply itoa_no_percent]. rewrite not_elem_of_app. split; [by apply (bool_decide_unpack _)|apply itoa_no_percent].
Qed.
Lemma fmt_counts_skip a b : "%"%byte ∉ a → fmt_counts (a ++ b) = fmt_counts b.
Proof.
  induction a as [|c a IH]; intros Hn; [done|]. apply not_elem_of_cons in Hn as [Hc Hn]. cbn [fmt_counts app].
  destruct (Byte.eqb c "%") eqn:E; [apply Byte.byte_dec_bl in E; by subst c|]. by apply IH.
Qed.

(** The away message that is stored. *)
Definition away_text (hm : Z * Z) (f1 : cstring) : cstring := str "(%s@" ++ clock_text hm ++ str ") " ++ f1.
Lemma away_text_counts hm f1 : fmt_counts (away_text hm f1) = ((fmt_counts f1).1 + 1, (fmt_counts f1).2).
Proof.
  change (away_text hm f1) with ("("%byte :: "%"%byte :: "s"%byte :: (str "@" ++ clock_text hm ++ str ") " ++ f1)).
  cbn [fmt_counts]. simpl Byte.eqb. cbn iota.
  rewrite (fmt_counts_skip (str "@")) by (by apply (bool_decide_unpack _)).
  rewrite (fmt_counts_skip (clock_text hm)) by apply clock_text_no_percent.
  rewrite (fmt_counts_skip (str ") ")) by (by apply (bool_decide_unpack _)). by destruct (fmt_counts f1).
Qed.

Section away.
Context `{BuildConfig} `{Host} `{Commands}.
Implicit Types s : st.

Lemma wp_s_away n u f1 s :
  arrays_sized s → entry_at n (u_tab s) = Some u → f1 ≠ [] → (filterfmt f1 1).1 = None →
  wp (s_away n 2 f1) (λ r s', r = 0 ∧ ∃ es, s' = log es (with_user n
    (set_u_lastawaytime 0 (set_u_lastaway 0 (set_u_awaymsg (take (MAX_AWAY_LEN - 1) (away_text (local_hm (clock s)) f1)) u)))
    (set_curtime (clock s) s))) s.
Proof.
  intros Hs Hu Hne Hf. unfold s_away. change ((2 =? 0) || (2 <? 2)) with false. cbn iota.
  apply wp_bind. eapply wp_user_at; [done|]. destruct f1 as [|c f1]; [done|]. cbn [length Nat.eqb]. rewrite Hf.
  apply wp_bind. unfold gettime. apply wp_bind, wp_gets, wp_bind, wp_modify, wp_ret.
  apply wp_bind. eapply wp_upd_user; [done|]. apply wp_bind, wp_sendstatus.
  { destruct Hs as (?&?&?&?&?). unfold arrays_sized. simpl. by rewrite length_entry_set. }
  intros es. apply wp_ret. split; [done|]. by exists es.
Qed.

(** The end of [away_handle] for a user with verbose echo: a format with two
    [%s] and one argument. *)
Lemma away_handle_undefined src dest us u s :
  arrays_sized s → entry_at dest (u_tab s) = Some u → entry_at src (u_tab s) = Some us →
  u_awaymsg u ≠ [] → u_lastaway u ≠ src → u_echoback u = 2 → "%"%byte ∉ u_nickname us →
  1 < (fmt_counts (u_awaymsg u)).1 → (length (u_nickname us) + length (clock_text (local_hm (clock s))) + 17 + length (u_awaymsg u) < MAX_PKT_DATA)%nat →
  away_handle src dest s = None.
Proof.
  intros Hs Hu Hus Hm Hla He Hpc Hc Hl. unfold away_handle.
  erewrite bind_runs by (by apply user_at_run). destruct (u_awaymsg u) as [|c0 m0] eqn:Em; [done|]. rewrite <-Em in *.
  replace (is_empty (u_awaymsg u)) with false by (by rewrite Em). cbn [negb when]. erewrite bind_runs by reflexivity.
  destruct (Z.eqb_spec (u_lastaway u) src); [done|]. cbn [negb orb when].
  erewrite bind_runs by (by apply upd_user_run). set (u' := set_u_lastawaytime (clock s) (set_u_lastaway src u)). set (s1 := set_u_tab (entry_set dest u' (u_tab s)) s).
  assert (arrays_sized s1) as Hs1.
  { destruct Hs as (?&?&?&?&?). unfold arrays_sized. simpl. by rewrite length_entry_set. }
  erewrite bind_runs by (by apply sendstatus_run). rewrite He. cbn [Z.eqb Pos.eqb when].
  unfold gettime. unfold bind at 1 2 3. cbn [time gets modify ret].
  match goal with |- context [set_curtime ?c ?S] => set (s2 := set_curtime c S) end.
  assert (∃ us', entry_at src (u_tab s2) = Some us' ∧ u_nickname us' = u_nickname us) as (us' & Hus' & En).
  { unfold s2, s1. simpl. destruct (decide (src = dest)) as [->|Hne].
    - exists u'. split; [apply entry_set_at; by rewrite Hu|]. rewrite Hus in Hu. by injection Hu as ->.
    - exists us. by rewrite entry_set_ne. }
  erewrite bind_runs by (by apply user_at_run). rewrite En. cbv zeta.
  assert (∀ t, sprintf_s (take (MAX_PKT_DATA - 1) (str "<*to: " ++ u_nickname us ++ str "*> [=@" ++ t ++ str "=] " ++ u_awaymsg u))
    [u_nickname u] ≠ None → t = clock_text (local_hm (clock s)) → False) as Hno.
  { intros t Hne ->. destruct (sprintf_s _ _) as [r|] eqn:Es; [|done]. apply sprintf_counts_inv in Es as [_ Es].
    rewrite take_ge in Es.
    2:{ rewrite !length_app. change (length (str "<*to: ")) with 6%nat. change (length (str "*> [=@")) with 6%nat.
        change (length (str "=] ")) with 3%nat. lia. }
    rewrite (fmt_counts_skip (str "<*to: ")) in Es by (by apply (bool_decide_unpack _)).
    rewrite (fmt_counts_skip (u_nickname us)) in Es by done.
    rewrite (fmt_counts_skip (str "*> [=@")) in Es by (by apply (bool_decide_unpack _)).
    rewrite (fmt_counts_skip (clock_text _)) in Es by apply clock_text_no_percent.
    rewrite (fmt_counts_skip (str "=] ")) in Es by (by apply (bool_decide_unpack _)). simpl in Es. lia. }
  unfold bind, lift. destruct (sprintf_s _ _) as [r|] eqn:Es; [|done]. exfalso.
  apply (Hno (clock_text (local_hm (clock s)))); [|done]. intros E. assert (Some r = None) by (rewrite <-Es; exact E). done.
Qed.

End away.

(** Every away message that is accepted ends in undefined behaviour for a user
    with verbose echo: the stored text has two [%s], and [away_handle] formats
    it with one argument when the first message arrives. *)
Theorem away_verbose_undefined `{BuildConfig} `{Host} `{Commands} n src u us f1 (s : st) :
  arrays_sized s → entry_at n (u_tab s) = Some u → entry_at src (u_tab s) = Some us → n ≠ src → 0 < src →
  u_echoback u = 2 → "%"%byte ∉ u_nickname us → f1 ≠ [] → (filterfmt f1 1).1 = None →
  (length (u_nickname us) + 2 * length (clock_text (local_hm (clock s))) + 40 + length f1 < MAX_AWAY_LEN)%nat →
  ∃ s', s_away n 2 f1 s = Some (0, s') ∧ away_handle src n s' = None.
Proof.
  intros Hs Hu Hus Hne Hsrc He Hpc Hf1 Hfmt Hlen.
  destruct (proj1 (wp_run _ _ _) (wp_s_away n u f1 s Hs Hu Hf1 Hfmt)) as (r & s' & Hrun & -> & es & ->).
  eexists. split; [done|]. set (hm := local_hm (clock s)) in *.
  assert (length (away_text hm f1) = length (clock_text hm) + length f1 + 6)%nat as Hal.
  { unfold away_text. rewrite !length_app. change (length (str "(%s@")) with 4%nat. change (length (str ") ")) with 2%nat. lia. }
  assert (take (MAX_AWAY_LEN - 1) (away_text hm f1) = away_text hm f1) as Et.
  { apply take_ge. rewrite Hal. lia. }
  assert ((fmt_counts f1).1 = 1) as Hc.
  { unfold filterfmt in Hfmt. destruct (fmt_counts f1) as [ns nb]. simpl. destruct (0 <? nb); [done|].
    by destruct (Z.eqb_spec ns 1). }
  rewrite Et. set (u' := set_u_lastawaytime 0 (set_u_lastaway 0 (set_u_awaymsg (away_text hm f1) u))).
  apply (away_handle_undefined src n us u').
  - destruct Hs as (?&?&?&?&?). unfold arrays_sized. simpl. by rewrite length_entry_set.
  - simpl. apply entry_set_at. by rewrite Hu.
  - simpl. by rewrite entry_set_ne.
  - done.
  - simpl. lia.
  - done.
  - done.
  - change (u_awaymsg u') with (away_text hm f1). rewrite away_text_counts, Hc. done.
  - change (u_awaymsg u') with (away_text hm f1). change (clock (log es _)) with (clock s). fold hm. rewrite Hal.
    assert (MAX_AWAY_LEN < MAX_PKT_DATA)%nat by (apply Nat.ltb_lt; reflexivity). lia.
Qed.

Lemma away_verbose_undefined_witness :
  ∃ s', @s_away demo_build demo_host 0 2 (str "gone, %s")
      (with_user 0 (set_u_echoback 2 (demo_user "amy" "Lobby")) demo_state) = Some (0, s') ∧
    @away_handle demo_build demo_host demo_commands 1 0 s' = None.
Proof.
  apply (@away_verbose_undefined demo_build demo_host demo_commands 0 1 (set_u_echoback 2 (demo_user "amy" "Lobby"))
    (demo_user "bob" "Lobby") (str "gone, %s")); try reflexivity; try (by intros [=]); try lia.
  - by repeat split.
  - by apply (bool_decide_unpack _).
  - apply Nat.ltb_lt. reflexivity.
Defined.

(** ** Changing the nickname *)

(** No two users have nicknames that differ only in case. *)
Definition nicks_unique (ut : list user) : Prop :=
  ∀ i j u v, entry_at i ut = Some u → entry_at j ut = Some v → u_nickname u ≠ [] →
    casefold (u_nickname u) = casefold (u_nickname v) → i = j.

Lemma nicks_rename ut n u u' :
  nicks_unique ut → entry_at n ut = Some u →
  (find_user (u_nickname u') ut < 0 ∨ casefold (u_nickname u') = casefold (u_nickname u)) →
  nicks_unique (entry_set n u' ut).
Proof.
  intros Hq Hu Hfree.
  assert (∀ j v, j ≠ n → entry_at j ut = Some v → u_nickname u' ≠ [] → casefold (u_nickname u') ≠ casefold (u_nickname v)) as Hno.
  { intros j v Hj Hv Hne Ec. destruct Hfree as [Hf|Hf].
    - unfold find_user in Hf. destruct (u_nickname u') as [|c nm] eqn:En; [done|]. rewrite first_index_none in Hf.
      apply entry_at_lookup in Hv as [_ Hv]. specialize (Hf v (list_elem_of_lookup_2 _ _ _ Hv)).
      symmetry in Ec. apply strcaseeq_casefold in Ec. rewrite <-En in *. congruence.
    - apply Hj. symmetry. apply (Hq n j u v Hu Hv); [|congruence]. intros E. rewrite E in Hf. by destruct (u_nickname u'). }
  intros i j v w [(-> & -> & _)|[Hi Hv]]%entry_set_inv [(-> & -> & _)|[Hj Hw]]%entry_set_inv Hne Ec; [done| | |by eapply Hq].
  - exfalso. by apply (Hno j w).
  - exfalso. apply (Hno i v Hi Hv); [|done]. intros E. rewrite E in Ec. by destruct (u_nickname v).
Qed.

Section name.
Context `{BuildConfig} `{Host} `{Commands}.
Context (HE : env_ok host_db).
Implicit Types s : st.

Lemma acc_status_user tellme n u c m f nb es Q s s1 :
  acc_to f nb es s s1 → arrays_sized s → entry_at n (u_tab s) = Some u →
  (∀ es' s2, acc_to f nb es' s s2 → Q 0 s2) → wp (s_status_group 1 tellme n c m) Q s1.
Proof.
  intros Ha Hs Hu HQ. pose proof (acc_fields _ _ _ _ _ Ha) as (Eu & _ & _ & Hs1).
  eapply wp_status_group_user; [by apply Hs1|by rewrite Eu|]. intros es'. eapply HQ. by apply acc_log.
Qed.

(** Messages sent one after another. *)
Lemma acc_send_list {A} (l : list A) to (c t : A → cstring) f nb es Q s s1 :
  acc_to f nb es s s1 → arrays_sized s → (∀ es' s2, acc_to f nb es' s s2 → Q tt s2) →
  wp (for_each l (λ x, sendstatus to (c x) (t x))) Q s1.
Proof.
  intros Ha Hs HQ. revert es s1 Ha. induction l as [|x l IH]; intros es s1 Ha; cbn [for_each]; [by eapply HQ|].
  apply wp_bind. eapply acc_sendstatus; [done|done|]. intros s2 A2. by eapply IH.
Qed.

Lemma acc_when_status (b : bool) to c t f nb es Q s s1 :
  acc_to f nb es s s1 → arrays_sized s → (∀ es' s2, acc_to f nb es' s s2 → Q tt s2) →
  wp (when b (sendstatus to c t)) Q s1.
Proof.
  intros Ha Hs HQ. apply wp_when; intros _; [|by eapply HQ]. eapply acc_sendstatus; [done|done|]. intros s2 A2. by eapply HQ.
Qed.

Lemma wp_tell_unproved n u f nb es Q s s1 :
  acc_to f nb es s s1 → arrays_sized s → entry_at n (u_tab s) = Some u →
  (∀ es' s2, acc_to f nb es' s s2 → Q tt s2) → wp (tell_unproved n) Q s1.
Proof.
  intros Ha Hs Hu HQ. unfold tell_unproved. apply wp_bind. eapply acc_sendstatus; [done|done|]. intros s2 A2.
  apply wp_bind. eapply acc_user; [done|done|]. apply wp_bind, wp_gets, wp_bind.
  eapply acc_send_list; [done|done|]. intros es3 s3 A3. apply wp_bind. eapply acc_when_status; [done|done|].
  intros es4 s4 A4. by eapply acc_when_status.
Qed.

(** The entry and the groups once the standing of the nickname is settled. *)
Definition known_as (r : Z) (u : user) : user :=
  if r =? 0 then set_u_realname (str "registered") u else if r =? -2 then u else set_u_realname [] u.
Definition settled (n : Z) (u : user) (r : Z) (s s' : st) : Prop :=
  ∃ gt f' nb' es', acc_to f' nb' es' (set_g_tab gt (set_u_tab (entry_set n (known_as r u) (u_tab s)) s)) s' ∧
    tables (-1) (entry_set n (known_as r u) (u_tab s)) gt ∧
    if r =? 0 then given_back n u (Z.of_nat MAX_GROUPS) (g_tab s) gt else gt = g_tab s.

Lemma settled_same n u r f' nb' es' s s' :
  r ≠ 0 → world s → entry_at n (u_tab s) = Some u →
  acc_to f' nb' es' (set_u_tab (entry_set n (known_as r u) (u_tab s)) s) s' → settled n u r s s'.
Proof.
  intros Hr Hw Hu Ha. exists (g_tab s), f', nb', es'. split; [done|]. split.
  - eapply (tables_upd_user (-1) _ _ n u); [apply Hw|done|]. unfold known_as. by repeat case_if.
  - by rewrite (proj2 (Z.eqb_neq r 0)).
Qed.

Lemma wp_recognise n u f nb es s s1 :
  acc_to f nb es s s1 → world s → nb ≤ 2 ^ 26 → all_short f → entry_at n (u_tab s) = Some u → u_nickname u ≠ [] →
  wp (recognise n) (λ _, settled n u 0 s) s1.
Proof.
  intros Ha Hw Hnb Hf Hu Hne. unfold recognise.
  apply wp_bind. eapply acc_upd_user; [done|done|]. intros s3 A3.
  set (u' := set_u_realname (str "registered") u) in *.
  assert (world (set_u_tab (entry_set n u' (u_tab s)) s)) as Hw' by (by eapply world_upd_user).
  set (s0 := set_u_tab _ s) in *. assert (entry_at n (u_tab s0) = Some u') as Hu' by (apply entry_set_at; by rewrite Hu).
  apply wp_bind. eapply acc_sendstatus; [done|apply Hw'|]. intros s4 A4. apply wp_bind.
  eapply (acc_nickwritetime HE n 0 u'); [done|done|lia|done|]. intros r5 s5 f5 A5 Hrec.
  assert (all_short f5) as Hf5 by (by eapply sign_record_short).
  apply wp_bind. eapply wp_mono; [by eapply (wp_regain_mods n u' f5 (2 * nb) _ s0 s5)|].
  intros [] s6 (gt & es6 & A6 & Ht6 & Hg6).
  eapply (wp_tell_messages HE n u'); [exact A6|apply Hw'|done|lia|done|]. intros s7 f7 es7 A7 _.
  exists gt, f7, (2 * (2 * nb)), es7. split; [exact A7|]. split; [exact Ht6|exact Hg6].
Qed.

Lemma wp_settle_nick n u f nb es s s1 :
  acc_to f nb es s s1 → world s → nb ≤ 2 ^ 26 → all_short f → 0 < n → entry_at n (u_tab s) = Some u →
  u_nickname u ≠ [] → (length (u_nickname u) ≤ MAX_NICKLEN)%nat →
  wp (settle_nick n) (λ _, settled n u (standing f (u_nickname u) u) s) s1.
Proof.
  intros Ha Hw Hnb Hf Hn Hu Hne Hl. pose proof Hw as [Hs Ht]. unfold settle_nick. apply wp_bind. eapply acc_user; [done|done|].
  apply wp_bind. eapply (wp_nicklookup_auth n _ u f nb es); [done|done|done|done|done|done|done|]. intros s2 A2.
  set (r := standing _ _ _). destruct (Z.eqb_spec r 0) as [Er|Hr].
  - rewrite Er. by eapply wp_recognise.
  - destruct (Z.eqb_spec r (-2)) as [Er|Hr2].
    + eapply wp_tell_unproved; [done|done|done|]. intros es3 s3 A3. eapply (settled_same n u r f nb es3); [done|done|done|].
      unfold known_as. rewrite Er. change (-2 =? 0) with false. change (-2 =? -2) with true. cbn iota.
      rewrite entry_set_same by done. replace (set_u_tab (u_tab s) s) with s by (by destruct s). done.
    + apply wp_bind. eapply acc_upd_user; [done|done|]. intros s3 A3.
      eapply acc_sendstatus; [done|by apply (world_upd_user n u (set_u_realname [] u) s Hw Hu eq_refl)|]. intros s4 A4.
      eapply (settled_same n u r f nb); [done|done|done|]. unfold known_as.
      destruct (Z.eqb_spec r 0); [done|]. destruct (Z.eqb_spec r (-2)); [done|]. exact A4.
Qed.
End name.

Lemma standing_sign `{Host} f f' u nick v s :
  nick_ok (u_nickname u) → nick_ok nick → sign_record f f' u s → standing f' nick v = standing f nick v.
Proof.
  intros Hn Hn' Hrec.
  assert (∀ a, attr_ok a → a ≠ str "signon" → a ≠ str "signoff" → f' (key nick a) = f (key nick a)) as E.
  { intros a Ha N1 N2. destruct Hrec as [->|(t & Ht & ->)]; [done|]. unfold upd. rewrite decide_False; [done|].
    intros [_ Et]%key_inj; [|done|done|done|destruct Ht as [-> | ->]; auto with icb]. subst t. by destruct Ht as [?|?]. }
  unfold standing. rewrite !E; try done; auto with icb.
Qed.

Lemma zseq_zrange n : zseq n = zrange 0 n.
Proof. unfold zseq, zrange. rewrite Z.sub_0_r. apply list_fmap_ext. intros i x _. lia. Qed.

(** The nickname asked for. *)
Definition new_nick (f1 : cstring) : cstring := filternickname (strncpy f1 MAX_NICKLEN).

Definition name_result `{BuildConfig} `{Host} (n : Z) (u : user) (f1 : cstring) (f : bytes → option bytes) (s : st) (r : Z) (s' : st) : Prop :=
  world s' ∧
  ((r = -1 ∧ u_tab s' = u_tab s ∧ g_tab s' = g_tab s) ∨
   (r = 0 ∧ (casefold (new_nick f1) = casefold (str "admin") → u_password u = ADMIN_PWD) ∧
    let u1 := set_u_realname [] (set_u_nickname (new_nick f1) u) in
    let known := standing f (new_nick f1) u1 in
    u_tab s' = entry_set n (known_as known u1) (u_tab s) ∧
    (find_user (new_nick f1) (u_tab s) < 0 ∨ casefold (new_nick f1) = casefold (u_nickname u)) ∧
    if known =? 0 then given_back n u1 (Z.of_nat MAX_GROUPS) (g_tab s) (g_tab s') else g_tab s' = g_tab s)).

Lemma wp_s_name `{BuildConfig} `{Host} `{Commands} n u f1 f nb (s : st) :
  env_ok host_db → world s → db_ready f nb s → nb ≤ 2 ^ 24 → all_short f → 0 < n → entry_at n (u_tab s) = Some u →
  nick_ok (u_nickname u) → wp (s_name n 2 f1) (name_result n u f1 f s) s.
Proof.
  intros HE Hw Hr Hnb Hf Hn Hu Hnick. pose proof Hw as [Hs Ht].
  assert (∀ t, wp (senderror n t ;; ret (-1)) (name_result n u f1 f s) s) as Hrefuse.
  { intros t. apply wp_bind, wp_senderror; [done|]. intros es. apply wp_ret. split; [done|]. by left. }
  unfold s_name. change (2 =? 2) with true. cbn iota. destruct (Nat.eqb_spec (length f1) 0) as [|Hl]; [apply Hrefuse|].
  fold (new_nick f1). assert (new_nick f1 ≠ [] ∧ (length (new_nick f1) ≤ MAX_NICKLEN)%nat) as [Hnn Hnl].
  { unfold new_nick, filternickname, strncpy. rewrite length_map, length_take. split; [by destruct f1|lia]. }
  cbv zeta. apply wp_bind. eapply wp_user_at; [done|]. apply wp_bind, wp_gets.
  destruct ((0 <=? find_user (new_nick f1) (u_tab s)) && negb (strcaseeq (new_nick f1) (u_nickname u))) eqn:Et; [apply Hrefuse|].
  destruct (strcaseeq (new_nick f1) (str "admin") && negb (streq (u_password u) ADMIN_PWD)) eqn:Ea; [apply Hrefuse|].
  apply wp_bind. eapply acc_status_user; [by apply acc_start|done|done|]. intros es1 s1 A1. apply wp_bind.
  eapply (acc_nickwritetime HE n 1 u); [done|done|lia|done|]. intros r2 s2 f2 A2 Hrec.
  assert (all_short f2) as Hf2 by (by eapply sign_record_short).
  apply wp_bind. eapply acc_upd_user; [done|done|]. intros s3 A3. apply wp_bind. set (u1 := set_u_nickname _ u) in *.
  eapply acc_sendstatus; [done|by apply (world_upd_user n u u1 s Hw Hu eq_refl)|]. intros s4 A4. apply wp_bind.
  eapply acc_upd_user; [done|apply entry_set_at; by rewrite Hu|]. intros s5 A5. cbn [u_tab set_u_tab] in A5. rewrite entry_set_twice in A5.
  set (u2 := set_u_realname [] u1) in *. assert (world (set_u_tab (entry_set n u2 (u_tab s)) s)) as Hw2 by (by eapply world_upd_user).
  change (set_u_tab _ (set_u_tab _ s)) with (set_u_tab (entry_set n u2 (u_tab s)) s) in A5. set (s0 := set_u_tab (entry_set n u2 (u_tab s)) s) in *.
  assert (entry_at n (u_tab s0) = Some u2) as Hu2 by (apply entry_set_at; by rewrite Hu).
  apply wp_bind. eapply wp_mono; [by eapply (wp_settle_nick HE n u2 f2 (2 * nb) _ s0 s5); [exact A5|done|lia|..]|].
  intros [] s6 (gt & f6 & nb6 & es6 & A6 & Ht6 & Hg6). set (known := standing f2 _ _) in *.
  assert (known = standing f (new_nick f1) u2) as Ek.
  { unfold known. eapply standing_sign; [exact Hnick| |exact Hrec]. unfold nick_ok. change MAX_NICKLEN with 12%nat in Hnl. change (u_nickname u2) with (new_nick f1). lia. }
  cbn [u_tab set_u_tab s0] in A6, Ht6. rewrite entry_set_twice in A6, Ht6. apply wp_bind.
  rewrite zseq_zrange. eapply (acc_sends 0 (Z.of_nat MAX_GROUPS)); [lia|exact A6| |].
  { intros j es7 s7 Hj A7. destruct (proj2 (entry_at_range gt j)) as [g Hg]; [rewrite (t_groups _ _ _ Ht6); lia|].
    eapply acc_talk_report; [exact A7| |apply entry_set_at; by rewrite Hu|exact Hg|intros es8 s8 A8; by eexists].
    destruct Hs as (?&?&?&?&?). unfold arrays_sized. simpl. by rewrite length_entry_set. }
  intros es7 s7 A7. apply wp_ret. pose proof (acc_fields _ _ _ _ _ A7) as (Eu & Eg & _ & Hs7). cbn [u_tab g_tab set_g_tab set_u_tab] in Eu, Eg.
  split.
  { split; [|by rewrite Eu, Eg]. apply Hs7. destruct Hs as (?&?&?&?&?). unfold arrays_sized. simpl. by rewrite length_entry_set. }
  right. split; [done|]. split.
  { intros Hadm. apply strcaseeq_casefold in Hadm. rewrite Hadm in Ea. simpl in Ea. apply negb_false_iff in Ea. by apply streq_eq. }
  cbv zeta. fold u1 u2. rewrite <-Ek, Eu, Eg. split; [done|]. split; [|done].
  apply andb_false_iff in Et as [Et|Et]; [left; by apply Z.leb_gt|right]. apply negb_false_iff in Et. by apply strcaseeq_casefold.
Qed.

(** C21: changing the nickname.  The command always completes, keeps the tables
    consistent and the nicknames unique up to case; it refuses a name that
    another user has, and the administrator's name without the
    administrator's password; otherwise the user has the filtered name and is
    marked as registered exactly when the record says so, and the groups that
    wait for this moderator are given back then, all of them and no others. *)
Theorem s_name_correct `{BuildConfig} `{Host} `{Commands} n u f1 f nb (s : st) :
  env_ok host_db → world s → nicks_unique (u_tab s) → db_ready f nb s → nb ≤ 2 ^ 24 → all_short f →
  0 < n → entry_at n (u_tab s) = Some u → nick_ok (u_nickname u) →
  ∃ r s', s_name n 2 f1 s = Some (r, s') ∧ name_result n u f1 f s r s' ∧ nicks_unique (u_tab s').
Proof.
  intros HE Hw Hq Hr Hnb Hf Hn Hu Hnick. apply wp_run. eapply wp_mono; [by eapply wp_s_name|].
  intros r s' Hres. split; [done|]. destruct Hres as (_ & [(_ & -> & _)|(_ & _ & Eu & Hfree & _)]); [done|].
  rewrite Eu. eapply nicks_rename; [done|done|]. unfold known_as. destruct Hfree as [?|?]; [left|right]; by repeat case_if.
Qed.

Lemma demo_nicks_unique : nicks_unique (u_tab demo_state).
Proof.
  intros i j u v [(-> & ->)|[(-> & ->)|[(-> & ->)|[(-> & ->)|(-> & ->)]]]]%demo_users
    [(-> & ->)|[(-> & ->)|[(-> & ->)|[(-> & ->)|(-> & ->)]]]]%demo_users Hne E; try reflexivity;
    first [destruct (Hne eq_refl)|vm_compute in E; discriminate E].
Qed.

Lemma s_name_correct_witness :
  ∃ r s', @s_name demo_build demo_host demo_commands 1 2 (str "Robert") (set_userdb ready_db demo_state) = Some (r, s') ∧
    @world demo_build s' ∧ nicks_unique (u_tab s').
Proof.
  destruct (@s_name_correct demo_build demo_host demo_commands 1 (demo_user "bob" "Lobby") (str "Robert") (λ _, None) 128
    (set_userdb ready_db demo_state) env_good_ok demo_world demo_nicks_unique ready_db_ready) as (r & s' & Hr & [Hw _] & Hq).
  - lia.
  - by intros k v.
  - lia.
  - reflexivity.
  - exact bob_ok.
  - exists r, s'. split; [exact Hr|]. split; [exact Hw|exact Hq].
Defined.
