(* ===== verification/Who.v ===== *)
(** * The listing of users and groups (server/s_who.c)

    The members of a group in a short and a long form, the line of a group, the
    listing of one group or of all groups the caller may see, in order. *)

From Stdlib Require Import ZArith Lia String Sorted.
From S2P Require Import Config Prelude Utf8 StrUtil Wildmat NameList CLib Monad Dbm IcbDb State Tables Send GroupCast World Access GroupChange GroupMod.

Local Open Scope Z_scope.
Local Open Scope icb_monad_scope.

Definition DOGROUPONLY : Z := 1.
Definition DOSHORT : Z := 2.

(** [%-ns] *)
Definition pad_right (n : nat) (s : cstring) : cstring := s ++ replicate (n - length s) " "%byte.

(** The insertion of the two sorted arrays: [ahead x y] is the condition of the
    loop that looks for the place of [x]. *)
Fixpoint insert_before {A} (ahead : A → A → bool) (x : A) (l : list A) : list A :=
  match l with
  | [] => [x]
  | y :: l' => if ahead x y then y :: insert_before ahead x l' else x :: l
  end.

(** The arrays have [size] entries; the shift of the entries begins one past
    the free place. *)
Definition insert_array {A} (ahead : A → A → bool) (size : nat) (x : A) (l : list A) : option (list A) :=
  match l with
  | [] => if (0 <? size)%nat then Some [x] else None
  | _ :: _ => if (length l + 1 <? size)%nat then Some (insert_before ahead x l) else None
  end.

(** The loop over the table with the elements that are to be listed. *)
Fixpoint insert_all {A} (ahead : A → A → bool) (size : nat) (xs acc : list A) : option (list A) :=
  match xs with
  | [] => Some acc
  | x :: xs' => acc' ← insert_array ahead size x acc; insert_all ahead size xs' acc'
  end.

(** The entries of a table with their indices. *)
Definition indexed {A} (l : list A) : list (Z * A) := imap (λ i x, (Z.of_nat i, x)) l.

Section who.
Context `{BuildConfig} `{Commands}.

(** The users of group [which], with their indices. *)
Definition members (which : Z) (s : st) : list (Z * user) :=
  List.filter (λ iu, which =? find_group (u_group (snd iu)) (g_tab s)) (indexed (u_tab s)).

Definition pgm_short (n which : Z) : M st unit :=
  g <- group_at which ;;
  num_users <- gets (λ s, count_users_in_group (g_name g) (u_tab s)) ;;
  r <- add_item n (str "    Members: ") [] ;;
  us <- gets (members which) ;;
  let fix each (us : list (Z * user)) (num_users : Z) (line : cstring) : M st cstring :=
    match us with
    | [] => ret line
    | (_, u) :: us' =>
        r <- add_item n (u_nickname u) line ;;
        let num_users := num_users - 1 in
        line <- (if negb (num_users =? 0) then (r' <- add_item n (str ", ") (snd r) ;; ret (snd r')) else ret (snd r)) ;;
        each us' num_users line
    end in
  line <- each us num_users (snd r) ;;
  when (negb (length line =? 0)%nat) (sends_cmdout n line).

(** The order of the long form: by the time of entering the group. *)
Definition entered_later (x y : Z * user) : bool := u_t_group (snd y) <? u_t_group (snd x).

(** [status] has 8 bytes. *)
Definition status_text (u : user) : option cstring :=
  let nr := is_empty (u_realname u) in
  let aw := negb (is_empty (u_awaymsg u)) in
  let sec := negb (u_secure u =? 0) in
  let t :=
    if nr || aw || sec then
      str "(" ++ (if nr then str "nr" else []) ++
      (if aw then (if nr then str "," else []) ++ str "aw" else []) ++
      (if sec then (if nr || aw then str "," else []) ++ str "ssl" else []) ++ str ")"
    else [] in
  if (length t <? 8)%nat then Some t else None.

Definition pgm_long (n which : Z) : M st unit :=
  TheTime <- time ;;
  g <- group_at which ;;
  num_users <- gets (λ s, count_users_in_group (g_name g) (u_tab s)) ;;
  when (2 <=? num_users) (user_whead n) ;;
  us <- gets (members which) ;;
  user_list <- lift (insert_all entered_later (Z.to_nat MAX_REAL_USERS) us []) ;;
  for_each user_list (λ iu,
    let '(i, u) := iu in
    status <- lift (status_text u) ;;
    user_wline n (if g_mod g =? i then str "m" else str " ") (u_nickname u) (to_int (TheTime - u_t_recv u)) 0 (u_t_on u)
      (u_loginid u) (u_nodeid u) status).

Definition print_group_members (n which flags : Z) : M st unit :=
  if negb (Z.land flags DOGROUPONLY =? 0) then ret tt
  else if negb (Z.land flags DOSHORT =? 0) then pgm_short n which
  else pgm_long n which.

(** [strncmp("ADMIN", nickname, MAX_NICKLEN) == 0] *)
Definition named_admin (u : user) : bool := streq (take MAX_NICKLEN (u_nickname u)) (str "ADMIN").

(** The invitation test of the listings; the list for registered addresses is
    not consulted. *)
Definition who_invited (u : user) (g : group) : M st bool :=
  if mru_present (u_nickname u) (g_n_invites g) then ret true
  else if mru_present (u_nickname u) (g_nr_invites g) && negb (is_empty (u_realname u)) then ret true
  else
    a <- lift (names_match (user_address u) (g_s_invites g)) ;;
    ret (a || named_admin u).

Definition option_char (names : list String.string) (i : Z) : M st cstring := lift (str <$> entry_at i names).

(** The name of the moderator; [TheMod] has [MAX_NICKLEN + 7] bytes. *)
Definition mod_text (g : group) : M st cstring :=
  if g_mod g <? 0 then
    if g_modtimeout g =? 0 then ret (str "(None)")
    else
      TheTime <- time ;;
      let t := g_missingmod g ++ str " (" ++ itoa (to_int (g_modtimeout g - TheTime)) ++ str ")" in
      if (length t <? MAX_NICKLEN + 7)%nat then ret t else ub
  else um <- user_at (g_mod g) ;; ret (u_nickname um).

Definition print_group_header (n grp : Z) : M st unit :=
  u <- user_at n ;;
  g <- group_at grp ;;
  TheMod <- mod_text g ;;
  let TheTopic := if is_empty (g_topic g) then str "(None)" else g_topic g in
  c <- option_char ["*"; "p"; "m"; "r"; "c"]%string (g_control g) ;;
  v <- option_char ["*"; "v"; "s"; "i"]%string (g_visibility g) ;;
  l <- option_char ["*"; "q"; "n"; "l"]%string (g_volume g) ;;
  let Options := str "(" ++ c ++ v ++ l ++ str ")" in
  isMyGroup <- gets (λ s, find_group (u_group u) (g_tab s) =? grp) ;;
  is_invited <- who_invited u g ;;
  let GroupName :=
    if (g_visibility g =? SECRET) || (g_visibility g =? SUPERSECRET) then
      if negb isMyGroup && negb is_invited then str "-SECRET-" else str "*" ++ g_name g ++ str "*"
    else g_name g in
  sends_cmdout n (str " ") ;;
  sends_cmdout n (str "Group: " ++ pad_right 8 GroupName ++ str " " ++ Options ++ str " Mod: " ++ pad_right 13 TheMod ++
    str " Topic: " ++ TheTopic).

Definition doOne (n flags : Z) (tgrp : cstring) : M st unit :=
  which <- gets (λ s, find_group tgrp (g_tab s)) ;;
  if 0 <=? which then print_group_header n which ;; print_group_members n which flags
  else senderror n (str "The group " ++ tgrp ++ str " doesn't exist.").

(** Whether a group is in the listing of all groups. *)
Definition listed (my_group : Z) (u : user) (ig : Z * group) : M st bool :=
  let '(i, g) := ig in
  inv <- who_invited u g ;;
  ret (negb (length (g_name g) =? 0)%nat && (negb (g_visibility g =? SUPERSECRET) || inv || (i =? my_group))).

Fixpoint filter_m {A} (p : A → M st bool) (l : list A) : M st (list A) :=
  match l with
  | [] => ret []
  | x :: l' => b <- p x ;; r <- filter_m p l' ;; ret (if b : bool then x :: r else r)
  end.

Definition named_later (x y : Z * group) : bool := 0 <? strcasecmp (g_name (snd x)) (g_name (snd y)).

Definition total_text (num_users num_groups : Z) : cstring :=
  if num_users =? 0 then str "No users found."
  else str "Total: " ++ itoa num_users ++ (if 1 <? num_users then str " users in " else str " user in ") ++
       itoa num_groups ++ (if 1 <? num_groups then str " groups" else str " group").

(** The users who are logged in, the groups but for an empty ICB. *)
Definition count_logged (s : st) : Z :=
  Z.of_nat (length (List.filter (λ u, LOGIN_FALSE <? u_login u) (take (MAX_USERS - 1) (u_tab s)))).
Definition count_groups (s : st) : Z :=
  Z.of_nat (length (List.filter (λ g, negb (length (g_name g) =? 0)%nat &&
    (negb (streq (g_name g) (str "ICB")) || (1 <? count_users_in_group (str "ICB") (u_tab s)))) (g_tab s))).

Definition doAll (n flags : Z) : M st unit :=
  u <- user_at n ;;
  my_group <- gets (λ s, find_group (u_group u) (g_tab s)) ;;
  gs <- gets (λ s, indexed (g_tab s)) ;;
  shown <- filter_m (listed my_group u) gs ;;
  group_list <- lift (insert_all named_later MAX_GROUPS shown []) ;;
  for_each group_list (λ ig, g <- group_at (fst ig) ;; doOne n flags (g_name g)) ;;
  num_users <- gets count_logged ;;
  num_groups <- gets count_groups ;;
  sends_cmdout n (total_text num_users num_groups).

Definition s_who (n argc : Z) (f1 : cstring) : M st Z :=
  if argc =? 2 then
    cp <- getword_m f1 ;;
    let flags := if strcaseeq cp (str "-g") then DOGROUPONLY else if strcaseeq cp (str "-s") then DOSHORT else 0 in
    if strcaseeq cp (str "?") then sends_cmdout n (str "Usage: /w {-g | -s} {groupname}") ;; ret 0
    else
      w <- (if flags =? 0 then getword_m f1 else getword_m (get_tail f1)) ;;
      let tgrp := strncpy w MAX_GROUPLEN in
      if (length w =? 0)%nat then doAll n flags ;; ret 0
      else
        u <- user_at n ;;
        t <- (if starts_with "@" f1 then
                target_user <- gets (λ s, find_user (tail f1) (u_tab s)) ;;
                if target_user <? 0 then ret None
                else
                  ut <- user_at target_user ;;
                  gi <- gets (λ s, find_group (u_group ut) (g_tab s)) ;;
                  g <- group_at gi ;;
                  ret (if (g_visibility g =? SUPERSECRET) && negb (named_admin u) then None else Some (u_group ut))
              else ret (Some tgrp)) ;;
        match t with
        | None => senderror n (str "User not found.") ;; ret (-1)
        | Some tgrp => doOne n flags (if streq tgrp (str ".") then u_group u else tgrp) ;; ret 0
        end
  else ret 0.
End who.

(** ** The insertion sorts and has room for all but one *)

Section insertion.
Context {A : Type} (ahead : A → A → bool) (R : relation A).
Context (Hahead : ∀ x y, ahead x y = true → R y x) (Hbehind : ∀ x y, ahead x y = false → R x y).
Context `{!Transitive R}.
Implicit Types (x : A) (l xs acc : list A).

Lemma insert_before_perm x l : insert_before ahead x l ≡ₚ x :: l.
Proof. induction l as [|y l IH]; [done|]. simpl. case_if; [|done]. rewrite IH. apply Permutation_swap. Qed.

Lemma insert_before_sorted x l : StronglySorted R l → StronglySorted R (insert_before ahead x l).
Proof.
  induction l as [|y l IH]; intros Hl; simpl; [repeat constructor|].
  apply StronglySorted_inv in Hl as [Hl Hy]. case_if.
  - constructor; [by apply IH|]. rewrite insert_before_perm. constructor; [by apply Hahead|done].
  - assert (R x y) by (by apply Hbehind). constructor; [by constructor|]. constructor; [done|].
    eapply Forall_impl; [exact Hy|]. intros z Hz. by transitivity y.
Qed.

(** The number of elements the array of [size] entries can take. *)
Definition holds (size k : nat) : Prop := (k < size)%nat ∨ (k = 1 ∧ size = 1)%nat ∨ k = 0%nat.
#[export] Instance holds_dec size k : Decision (holds size k).
Proof. unfold holds. apply _. Defined.

Lemma insert_array_some size x l :
  holds size (S (length l)) → insert_array ahead size x l = Some (insert_before ahead x l).
Proof.
  intros Hh. destruct l as [|y l]; simpl in *.
  - destruct (Nat.ltb_spec 0 size); [done|]. destruct Hh; lia.
  - destruct (Nat.ltb_spec (S (length l + 1)) size); [done|destruct Hh; lia].
Qed.

Lemma insert_array_none size x l : ¬ holds size (S (length l)) → insert_array ahead size x l = None.
Proof.
  intros Hh. unfold holds in Hh. destruct l as [|y l]; simpl in *.
  - destruct (Nat.ltb_spec 0 size); [|done]. lia.
  - destruct (Nat.ltb_spec (S (length l + 1)) size); [lia|done].
Qed.

(** The loop yields a sorted rearrangement exactly when the array is large
    enough. *)
Lemma insert_all_some size xs acc :
  holds size (length xs + length acc) → StronglySorted R acc →
  ∃ l, insert_all ahead size xs acc = Some l ∧ l ≡ₚ xs ++ acc ∧ StronglySorted R l.
Proof.
  revert acc. induction xs as [|x xs IH]; intros acc Hh Hs; simpl; [eauto|].
  rewrite insert_array_some by (unfold holds in *; simpl in *; lia). simpl.
  destruct (IH (insert_before ahead x acc)) as (l & -> & Hp & Hl).
  - rewrite (Permutation_length (insert_before_perm x acc)). simpl in *. by rewrite Nat.add_succ_r.
  - by apply insert_before_sorted.
  - exists l. split; [done|]. split; [|done]. rewrite Hp, insert_before_perm. symmetry. apply Permutation_middle.
Qed.

Lemma insert_all_none size xs acc :
  ¬ holds size (length xs + length acc) → holds size (length acc) → insert_all ahead size xs acc = None.
Proof.
  revert acc. induction xs as [|x xs IH]; intros acc Hh Ha; simpl in *; [done|].
  assert (holds size (S (length acc)) ∨ ¬ holds size (S (length acc))) as [Hx|Hx] by (unfold holds; lia).
  - rewrite insert_array_some by done. simpl.
    apply IH; rewrite (Permutation_length (insert_before_perm x acc)); simpl; [by rewrite Nat.add_succ_r|done].
  - by rewrite insert_array_none.
Qed.
End insertion.

(** ** The listing of a group *)

Section listing.
Context `{BuildConfig} `{Commands}.
Implicit Types s : st.

(** From [s] to [s'] only packets for user [n] were added to the log. *)
Definition event_for (n : Z) (e : event) : Prop := (∃ p, e = EvSend n p) ∨ e = EvOverread.
Definition told (n : Z) (s s' : st) : Prop := ∃ es, s' = log es s ∧ Forall (event_for n) es.

#[export] Instance told_pre n : PreOrder (told n).
Proof.
  split.
  - intros s. exists []. by rewrite log_nil.
  - intros s1 s2 s3 (es & -> & Hes) (es' & -> & Hes'). exists (es ++ es'). rewrite log_log. split; [done|]. by apply Forall_app.
Qed.

Lemma told_refl n s : told n s s.
Proof. reflexivity. Qed.

Lemma told_sized n s s' : told n s s' → arrays_sized s → arrays_sized s'.
Proof. by intros (es & -> & _). Qed.

Lemma deliver_for n s pkt : Forall (event_for n) (deliver s n pkt).
Proof. unfold deliver. case_if; [|done]. constructor; [by left; eexists|done]. Qed.
Lemma filter_for n t len : Forall (event_for n) (filter_events t len).
Proof. unfold filter_events. case_if; [done|]. constructor; [by right|done]. Qed.

(** A packet that is neither a beep nor a private message. *)
Lemma send_packet_run n c b s :
  arrays_sized s → c ≠ ICB_M_BEEP → c ≠ ICB_M_PERSONAL →
  (_ <- doSend (-1) n (packet c b) ;; ret tt)%icb s = Some (tt, log (deliver s n (packet c b)) s).
Proof.
  intros Hs Hb Hp. destruct (doSend_plain_run senderror (-1) n c b s Hs) as [r Hr].
  erewrite bind_runs; [done|]. by rewrite doSend_is_plain.
Qed.

Lemma send_cmdout_run n b s :
  arrays_sized s →
  (_ <- doSend (-1) n (packet ICB_M_CMDOUT b) ;; ret tt)%icb s = Some (tt, log (deliver s n (packet ICB_M_CMDOUT b)) s).
Proof. intros Hs. apply send_packet_run; [done|discriminate|discriminate]. Qed.

(** What the eight bytes of [status] have room for: of a TLS connection nothing
    can be said but that it is one. *)
Definition status_fits (u : user) : Prop := u_secure u = 0 ∨ (u_realname u ≠ [] ∧ u_awaymsg u = []).

Lemma status_text_fits u : is_Some (status_text u) ↔ status_fits u.
Proof.
  unfold status_text, status_fits. destruct (u_realname u), (u_awaymsg u), (Z.eqb_spec (u_secure u) 0); cbn;
    (split; [intros [? ?]; try done; auto|intros [?|[? ?]]; done]).
Qed.

Definition statuses_fit (l : list (Z * user)) : Prop := Forall (λ iu, status_fits (snd iu)) l.

(** The line of one member. *)
Definition member_line (n : Z) (g : group) (now : Z) (iu : Z * user) : cstring :=
  let '(i, u) := iu in
  packet ICB_M_CMDOUT (str "wl" ++ SEP ++ (if g_mod g =? i then str "m" else str " ") ++ SEP ++ u_nickname u ++ SEP ++
    itoa (to_int (now - u_t_recv u)) ++ SEP ++ itoa 0 ++ SEP ++ itoa (u_t_on u) ++ SEP ++ u_loginid u ++ SEP ++
    u_nodeid u ++ SEP ++ default [] (status_text u)).

Definition entered_before (x y : Z * user) : Prop := u_t_group (snd x) ≤ u_t_group (snd y).

(** The packets of the long form, for the members in the order [l]. *)
Definition member_lines (s : st) (n : Z) (g : group) (l : list (Z * user)) : list event :=
  (if 2 <=? count_users_in_group (g_name g) (u_tab s) then deliver s n (packet ICB_M_CMDOUT (str "wh")) else []) ++
  l ≫= λ iu, deliver s n (member_line n g (clock s) iu).

Lemma pgm_lines_run n g (l : list (Z * user)) s es :
  arrays_sized s → statuses_fit l →
  for_each l (λ iu,
    let '(i, u) := iu in
    status <- lift (status_text u) ;;
    user_wline n (if g_mod g =? i then str "m" else str " ") (u_nickname u) (to_int (clock s - u_t_recv u)) 0 (u_t_on u)
      (u_loginid u) (u_nodeid u) status) (log es s) =
  Some (tt, log (es ++ (l ≫= λ iu, deliver s n (member_line n g (clock s) iu))) s).
Proof.
  intros Hs Hl. revert es. induction Hl as [|[i u] l Hf _ IH]; intros es; cbn [for_each mbind list_bind].
  - by rewrite app_nil_r.
  - apply status_text_fits in Hf as [t Et]. cbn [snd] in Et. unfold member_line. rewrite Et.
    erewrite bind_runs; [|unfold bind at 1, lift; by apply (send_cmdout_run n)].
    rewrite log_log, IH. rewrite <-app_assoc. reflexivity.
Qed.

Lemma pgm_long_run n which g l s :
  arrays_sized s → entry_at which (g_tab s) = Some g →
  insert_all entered_later (Z.to_nat MAX_REAL_USERS) (members which s) [] = Some l → statuses_fit l →
  pgm_long n which s = Some (tt, log (member_lines s n g l) s).
Proof.
  intros Hs Hg Hl Hf. unfold pgm_long, member_lines.
  erewrite bind_runs by reflexivity. erewrite bind_runs by (by apply group_at_run).
  erewrite bind_runs by reflexivity. case_if; cbn [when].
  - erewrite bind_runs by (by apply (send_cmdout_run n)). erewrite bind_runs by reflexivity.
    erewrite bind_runs; [by apply pgm_lines_run|]. unfold lift. change (members which (log _ s)) with (members which s).
    by rewrite Hl.
  - erewrite bind_runs by reflexivity. erewrite bind_runs by reflexivity.
    erewrite bind_runs; [|unfold lift; rewrite Hl; reflexivity].
    pose proof (pgm_lines_run n g l s [] Hs Hf) as Hr. by rewrite log_nil in Hr.
Qed.

(** What the long form of a listing needs: the array of the users has room, and
    so has the text of every status. *)
Definition listable (which : Z) (s : st) : Prop :=
  holds (Z.to_nat MAX_REAL_USERS) (length (members which s)) ∧ statuses_fit (members which s).

Lemma statuses_perm l l' : l ≡ₚ l' → statuses_fit l ↔ statuses_fit l'.
Proof. intros Hp. unfold statuses_fit. by rewrite Hp. Qed.

#[export] Instance status_fits_dec u : Decision (status_fits u).
Proof. unfold status_fits. apply _. Defined.

(** A status that does not fit makes the loop undefined. *)
Lemma pgm_lines_none n g (l : list (Z * user)) s es :
  arrays_sized s → ¬ statuses_fit l →
  for_each l (λ iu,
    let '(i, u) := iu in
    status <- lift (status_text u) ;;
    user_wline n (if g_mod g =? i then str "m" else str " ") (u_nickname u) (to_int (clock s - u_t_recv u)) 0 (u_t_on u)
      (u_loginid u) (u_nodeid u) status) (log es s) = None.
Proof.
  intros Hs. revert es. induction l as [|[i u] l IH]; intros es Hn; [by destruct Hn; constructor|]. cbn [for_each].
  destruct (decide (status_fits u)) as [Hf|Hf].
  - pose proof (proj2 (status_text_fits u) Hf) as [t Et]. rewrite Et.
    erewrite bind_runs; [|unfold bind at 1, lift; by apply (send_cmdout_run n)]. rewrite log_log. apply IH.
    intros Hl. apply Hn. by constructor.
  - unfold bind at 1 2. destruct (status_text u) eqn:Et; [|done]. destruct Hf. apply status_text_fits. by rewrite Et.
Qed.

Lemma members_sorted which s :
  holds (Z.to_nat MAX_REAL_USERS) (length (members which s)) →
  ∃ l, insert_all entered_later (Z.to_nat MAX_REAL_USERS) (members which s) [] = Some l ∧
    l ≡ₚ members which s ∧ StronglySorted entered_before l.
Proof.
  intros Hh. destruct (insert_all_some entered_later entered_before) with (size := Z.to_nat MAX_REAL_USERS)
    (xs := members which s) (acc := @nil (Z * user)) as (l & Hl & Hp & Hs).
  - unfold entered_later, entered_before. intros x y ?%Z.ltb_lt. lia.
  - unfold entered_later, entered_before. intros x y ?%Z.ltb_ge. lia.
  - intros x y z. unfold entered_before. lia.
  - by rewrite Nat.add_0_r.
  - constructor.
  - exists l. rewrite app_nil_r in Hp. done.
Qed.

(** ** The header of a group and the listing of all groups *)

(** Codes in the ranges of the three tables of letters, a text for the
    moderator that fits its buffer, patterns that can be searched. *)
Definition header_ok (now : Z) (g : group) : Prop :=
  0 ≤ g_control g < 5 ∧ 0 ≤ g_visibility g < 4 ∧ 0 ≤ g_volume g < 4 ∧ searchable (g_s_invites g) ∧
  (g_mod g < 0 → g_modtimeout g ≠ 0 →
   (length (g_missingmod g ++ str " (" ++ itoa (to_int (g_modtimeout g - now)) ++ str ")") < MAX_NICKLEN + 7)%nat).

Definition listing_ok (s : st) : Prop :=
  ∀ j g, entry_at j (g_tab s) = Some g → g_name g ≠ [] →
  header_ok (clock s) g ∧ listable j s.

Definition is_who_invited (u : user) (g : group) : bool :=
  mru_present (u_nickname u) (g_n_invites g) ||
  (mru_present (u_nickname u) (g_nr_invites g) && negb (is_empty (u_realname u))) ||
  default false (names_match (user_address u) (g_s_invites g)) || named_admin u.

Lemma who_invited_run u g s : searchable (g_s_invites g) → who_invited u g s = Some (is_who_invited u g, s).
Proof.
  intros Hg. unfold who_invited, is_who_invited. destruct (Hg (user_address u)) as [b Eb].
  destruct (mru_present (u_nickname u) (g_n_invites g)); [done|].
  destruct (mru_present (u_nickname u) (g_nr_invites g) && negb (is_empty (u_realname u))); [done|].
  rewrite Eb. done.
Qed.

Lemma wp_told_cmdout n t s s0 : told n s0 s → arrays_sized s → wp (sends_cmdout n t) (λ _, told n s0) s.
Proof.
  intros Ht Hs. unfold wp. rewrite sends_cmdout_run by done. etransitivity; [exact Ht|]. eexists. split; [done|].
  apply Forall_app. split; [apply filter_for|apply deliver_for].
Qed.
Lemma wp_told_error n t s s0 : told n s0 s → arrays_sized s → wp (senderror n t) (λ _, told n s0) s.
Proof.
  intros Ht Hs. unfold wp. rewrite senderror_run by done. etransitivity; [exact Ht|]. eexists. split; [done|].
  apply Forall_app. split; [apply filter_for|apply deliver_for].
Qed.

Lemma wp_option_char names i Q s :
  0 ≤ i < Z.of_nat (length names) → (∀ c, Q c s) → wp (option_char names i) Q s.
Proof.
  intros Hi HQ. unfold option_char. destruct (proj2 (entry_at_range names i) Hi) as [c Ec].
  eapply wp_lift; [by rewrite Ec|]. apply HQ.
Qed.

Lemma wp_mod_text g s :
  world s → -1 ≤ g_mod g < Z.of_nat MAX_USERS → header_ok (clock s) g → wp (mod_text g) (λ _ s', s' = s) s.
Proof.
  intros [[Hs _] _] Hm (_ & _ & _ & _ & Hf). unfold mod_text. destruct (Z.ltb_spec (g_mod g) 0).
  - destruct (Z.eqb_spec (g_modtimeout g) 0); [done|]. apply wp_bind, wp_gets. cbv zeta.
    specialize (Hf ltac:(lia) ltac:(done)). apply Nat.ltb_lt in Hf. by rewrite Hf.
  - destruct (proj2 (entry_at_range (u_tab s) (g_mod g))) as [um Hum]; [lia|].
    apply wp_bind. by eapply wp_user_at.
Qed.

Lemma wp_header n grp u g s :
  world s → entry_at n (u_tab s) = Some u → entry_at grp (g_tab s) = Some g → header_ok (clock s) g →
  wp (print_group_header n grp) (λ _, told n s) s.
Proof.
  intros Hw Hu Hg Hh. pose proof Hw as [Hs Ht]. pose proof Hh as (Hc & Hv & Hl & Hp & _). unfold print_group_header.
  apply wp_bind. eapply wp_user_at; [done|]. apply wp_bind. eapply wp_group_at; [done|]. apply wp_bind.
  eapply wp_mono; [eapply wp_mod_text; [done|by eapply t_mod|done]|]. intros TheMod s' ->. cbv zeta.
  apply wp_bind, wp_option_char; [done|]. intros c. apply wp_bind, wp_option_char; [done|]. intros v.
  apply wp_bind, wp_option_char; [done|]. intros l. apply wp_bind, wp_gets, wp_bind.
  unfold wp at 1. rewrite who_invited_run by done. apply wp_bind. eapply wp_mono; [apply wp_told_cmdout; [apply told_refl|done]|].
  intros ? s1 Hs1. apply (wp_told_cmdout n _ _ s); [done|by apply (told_sized n s)].
Qed.

Lemma wp_told_item n item buf s s0 : told n s0 s → arrays_sized s → wp (add_item n item buf) (λ _, told n s0) s.
Proof.
  intros Ht Hs. unfold add_item. case_if; [by apply wp_ret|]. case_if; [|by apply wp_ret].
  apply wp_bind. eapply wp_mono; [by apply wp_told_cmdout|]. intros ? s' Hs'. by apply wp_ret.
Qed.

Lemma wp_pgm_short n which g s :
  arrays_sized s → entry_at which (g_tab s) = Some g → wp (pgm_short n which) (λ _, told n s) s.
Proof.
  intros Hs Hg. unfold pgm_short. apply wp_bind. eapply wp_group_at; [done|]. apply wp_bind, wp_gets, wp_bind.
  eapply wp_mono; [apply wp_told_item; [apply told_refl|done]|]. intros r s1 Hs1. apply wp_bind, wp_gets, wp_bind.
  generalize (members which s1) as us. generalize (count_users_in_group (g_name g) (u_tab s)) as num.
  generalize (snd r) as line. intros line num us. revert line num s1 Hs1.
  induction us as [|[i v] us IH]; intros line num s1 Hs1.
  - apply wp_ret, wp_when; intros _; [|done]. apply (wp_told_cmdout n _ _ s); [done|by apply (told_sized n s)].
  - apply wp_bind. eapply wp_mono; [apply (wp_told_item n _ _ _ s); [done|by apply (told_sized n s)]|]. intros r1 s2 Hs2. cbv zeta.
    apply wp_bind. case_if.
    + apply wp_bind. eapply wp_mono; [apply (wp_told_item n _ _ _ s); [done|by apply (told_sized n s)]|]. intros r2 s3 Hs3.
      apply wp_ret. by apply IH.
    + apply wp_ret. by apply IH.
Qed.

Lemma member_lines_for s n g l : Forall (event_for n) (member_lines s n g l).
Proof.
  unfold member_lines. apply Forall_app. split; [case_if; [apply deliver_for|done]|].
  induction l as [|iu l IH]; [done|]. cbn. apply Forall_app. split; [apply deliver_for|done].
Qed.

Lemma wp_members n which flags g s :
  arrays_sized s → entry_at which (g_tab s) = Some g → listable which s →
  wp (print_group_members n which flags) (λ _, told n s) s.
Proof.
  intros Hs Hg [Hh Hf]. unfold print_group_members. case_if; [apply wp_ret, told_refl|]. case_if; [by eapply wp_pgm_short|].
  destruct (members_sorted which s Hh) as (l & Hl & Hp & _). unfold wp.
  rewrite (pgm_long_run n which g l s) by (done || by apply (statuses_perm _ _ Hp)). exists (member_lines s n g l). split; [done|]. apply member_lines_for.
Qed.

Lemma wp_doOne n flags tgrp u s :
  world s → listing_ok s → entry_at n (u_tab s) = Some u → wp (doOne n flags tgrp) (λ _, told n s) s.
Proof.
  intros Hw Hl Hu. pose proof Hw as [Hs Ht]. unfold doOne. apply wp_bind, wp_gets. destruct (Z.leb_spec 0 (find_group tgrp (g_tab s))) as [Hge|].
  - destruct (find_group_entry _ _ Hge) as (g & Hg & _). destruct (Hl _ _ Hg) as [Hh Hm]; [by eapply found_named|].
    apply wp_bind. eapply wp_mono; [by eapply wp_header|]. intros ? s1 (es & -> & Hes).
    eapply wp_mono; [by eapply (wp_members n _ flags g (log es s))|]. intros ? s2 Hs2.
    etransitivity; [|exact Hs2]. by exists es.
  - apply wp_told_error; [apply told_refl|done].
Qed.

Lemma filter_m_run {A} (p : A → M st bool) (q : A → bool) l s :
  (∀ x, x ∈ l → p x s = Some (q x, s)) → filter_m p l s = Some (List.filter q l, s).
Proof.
  induction l as [|x l IH]; intros Hp; [done|]. cbn [filter_m List.filter].
  erewrite bind_runs by (apply Hp; by left). erewrite bind_runs by (apply IH; intros y Hy; apply Hp; by right).
  by destruct (q x).
Qed.

(** The groups a user is shown: those with a name that are not hidden, or to
    which the user is invited or belongs, or all of them to ADMIN. *)
Definition shown_to (u : user) (gt : list group) (ig : Z * group) : bool :=
  negb (length (g_name (snd ig)) =? 0)%nat &&
  (negb (g_visibility (snd ig) =? SUPERSECRET) || is_who_invited u (snd ig) || (fst ig =? find_group (u_group u) gt)).
Definition shown_groups (u : user) (gt : list group) : list (Z * group) := List.filter (shown_to u gt) (indexed gt).

Definition name_before (x y : Z * group) : Prop := strcasecmp (g_name (snd x)) (g_name (snd y)) ≤ 0.

Lemma elem_indexed {A} (l : list A) i x : (i, x) ∈ indexed l ↔ entry_at i l = Some x.
Proof.
  unfold indexed. rewrite elem_of_lookup_imap, entry_at_lookup. split.
  - intros (k & y & [= -> ->] & Hk). split; [lia|]. by rewrite Nat2Z.id.
  - intros [Hi Hx]. exists (Z.to_nat i), x. split; [|done]. f_equal. lia.
Qed.

Lemma groups_sorted u gt :
  holds MAX_GROUPS (length (shown_groups u gt)) →
  ∃ l, insert_all named_later MAX_GROUPS (shown_groups u gt) [] = Some l ∧
    l ≡ₚ shown_groups u gt ∧ StronglySorted name_before l.
Proof.
  intros Hh. destruct (insert_all_some named_later name_before) with (size := MAX_GROUPS)
    (xs := shown_groups u gt) (acc := @nil (Z * group)) as (l & Hl & Hp & Hs).
  - unfold named_later, name_before, strcasecmp. intros x y ?%Z.ltb_lt. rewrite strcmp_by_antisym. lia.
  - unfold named_later, name_before. intros x y ?%Z.ltb_ge. lia.
  - intros x y z. apply strcmp_by_le_trans.
  - by rewrite Nat.add_0_r.
  - constructor.
  - exists l. rewrite app_nil_r in Hp. done.
Qed.

(** The part of [doAll] after the sorting. *)
Definition list_groups (n flags : Z) (l : list (Z * group)) : M st unit :=
  (for_each l (λ ig, g <- group_at (fst ig) ;; doOne n flags (g_name g)) ;;
  num_users <- gets count_logged ;;
  num_groups <- gets count_groups ;;
  sends_cmdout n (total_text num_users num_groups))%icb.

Lemma doAll_run n flags u l s :
  entry_at n (u_tab s) = Some u → (∀ j g, entry_at j (g_tab s) = Some g → searchable (g_s_invites g)) →
  insert_all named_later MAX_GROUPS (shown_groups u (g_tab s)) [] = Some l →
  doAll n flags s = list_groups n flags l s.
Proof.
  intros Hu Hp Hl. unfold doAll. erewrite bind_runs by (by apply user_at_run). erewrite bind_runs by reflexivity.
  erewrite bind_runs by reflexivity. erewrite bind_runs.
  2:{ apply (filter_m_run _ (shown_to u (g_tab s))). intros [i g] Hi%elem_indexed. unfold listed, shown_to.
      erewrite bind_runs; [|apply who_invited_run; by eapply Hp]. done. }
  fold (shown_groups u (g_tab s)). erewrite bind_runs; [reflexivity|]. unfold lift. by rewrite Hl.
Qed.

Lemma wp_list_groups n flags u l s :
  world s → listing_ok s → entry_at n (u_tab s) = Some u → (∀ ig, ig ∈ l → is_Some (entry_at (fst ig) (g_tab s))) →
  wp (list_groups n flags l) (λ _, told n s) s.
Proof.
  intros Hw Hl Hu Hi. pose proof Hw as [Hs _]. unfold list_groups. apply wp_bind. eapply wp_mono.
  - apply (wp_for_each (λ _, told n s)); [apply told_refl|]. intros pre x rest s1 -> (es & -> & Hes).
    destruct (Hi x) as [g Hg]; [set_solver|]. apply wp_bind. eapply wp_group_at; [done|].
    eapply wp_mono; [by eapply (wp_doOne n flags (g_name g) u (log es s))|]. intros ? s2 Hs2.
    etransitivity; [|exact Hs2]. by exists es.
  - intros ? s1 Hs1. apply wp_bind, wp_gets, wp_bind, wp_gets. apply (wp_told_cmdout n _ _ s); [done|by apply (told_sized n s)].
Qed.

Lemma wp_doAll n flags u s :
  world s → listing_ok s → entry_at n (u_tab s) = Some u → (∀ j g, entry_at j (g_tab s) = Some g → searchable (g_s_invites g)) →
  holds MAX_GROUPS (length (shown_groups u (g_tab s))) →
  ∃ l, l ≡ₚ shown_groups u (g_tab s) ∧ StronglySorted name_before l ∧
    doAll n flags s = list_groups n flags l s ∧ wp (doAll n flags) (λ _, told n s) s.
Proof.
  intros Hw Hl Hu Hp Hh. destruct (groups_sorted u (g_tab s) Hh) as (l & Hi & Hperm & Hsort).
  exists l. do 2 (split; [done|]). pose proof (doAll_run n flags u l s Hu Hp Hi) as E. split; [done|].
  unfold wp. rewrite E. apply (wp_list_groups n flags u l s); [done..|]. intros [i g] Hin. simpl.
  rewrite Hperm in Hin. apply list_elem_of_In, filter_In in Hin as [Hin _].
  apply list_elem_of_In, elem_indexed in Hin. by rewrite Hin.
Qed.
End listing.

(** C22: the long form of a group's listing ([pgm_long]) sends, after a heading
    when the group has two members or more, one line per member to the caller,
    in the order in which the members entered the group.  It is defined exactly
    when the group has fewer members than the table has places for real users
    (or the only one), because the insertion into the sorted array writes one
    entry beyond the last, and when no member with a TLS connection is away or
    not registered, because the text of such a status does not fit its eight
    bytes. *)
Theorem pgm_long_correct `{BuildConfig} `{Commands} n which g (s : st) :
  arrays_sized s → entry_at which (g_tab s) = Some g →
  (listable which s →
   ∃ l, l ≡ₚ members which s ∧ StronglySorted entered_before l ∧
     pgm_long n which s = Some (tt, log (member_lines s n g l) s)) ∧
  (¬ listable which s → pgm_long n which s = None).
Proof.
  intros A1 A2. split.
  - intros [(l & Hl & Hp & Hs)%members_sorted Hf]. exists l. split; [done|]. split; [done|].
    apply pgm_long_run; [done|done|done|]. by apply (statuses_perm _ _ Hp).
  - intros Hn. unfold pgm_long. erewrite bind_runs by reflexivity. erewrite bind_runs by (by apply group_at_run).
    erewrite bind_runs by reflexivity.
    assert (∀ es, (us <- gets (members which) ;;
      user_list <- lift (insert_all entered_later (Z.to_nat MAX_REAL_USERS) us []) ;;
      for_each user_list (λ iu,
        let '(i, u) := iu in
        status <- lift (status_text u) ;;
        user_wline n (if g_mod g =? i then str "m" else str " ") (u_nickname u) (to_int (clock s - u_t_recv u)) 0 (u_t_on u)
          (u_loginid u) (u_nodeid u) status))%icb (log es s) = None) as Hnone.
    { intros es. erewrite bind_runs by reflexivity. change (members which (log es s)) with (members which s).
      unfold bind at 1, lift at 1. destruct (decide (holds (Z.to_nat MAX_REAL_USERS) (length (members which s)))) as [Hh|Hh].
      - destruct (members_sorted which s Hh) as (l & -> & Hp & _). apply pgm_lines_none; [done|].
        rewrite (statuses_perm _ _ Hp). intros Hf. by apply Hn.
      - rewrite insert_all_none; [done|by rewrite Nat.add_0_r|]. right; by right. }
    destruct (2 <=? count_users_in_group (g_name g) (u_tab s)); cbn [when].
    + erewrite bind_runs by (by apply (send_cmdout_run n)). apply Hnone.
    + erewrite bind_runs by reflexivity. specialize (Hnone []). rewrite log_nil in Hnone. exact Hnone.
Qed.

Lemma pgm_long_correct_witness :
  (∃ l, l ≡ₚ members 1 demo_state ∧ StronglySorted entered_before l ∧
     @pgm_long demo_build demo_commands 0 1 demo_state =
     Some (tt, log (@member_lines demo_build demo_state 0 (demo_group "Lobby" MODERATED 0) l) demo_state)).
Proof.
  apply (@pgm_long_correct demo_build demo_commands 0 1 (demo_group "Lobby" MODERATED 0) demo_state).
  - apply demo_sized.
  - reflexivity.
  - split; [left; vm_compute; lia|]. vm_compute. repeat constructor.
Defined.

(** A user with a TLS connection who is not registered cannot be listed. *)
Example tls_unregistered_overflow : status_text (set_u_secure 1 (demo_user "amy" "Lobby")) = None.
Proof. reflexivity. Qed.

(** The listing of all groups ([doAll]) shows, in the order of their names,
    exactly the named groups that are not supersecret or to which the caller is
    invited or belongs (all of them for ADMIN), then the totals; it completes and
    adds to the state nothing but packets for the caller, as long as the groups
    shown leave one entry of the array free. *)
Theorem doAll_correct `{BuildConfig} `{Commands} n flags u (s : st) :
  world s → listing_ok s → entry_at n (u_tab s) = Some u →
  (∀ j g, entry_at j (g_tab s) = Some g → searchable (g_s_invites g)) →
  holds MAX_GROUPS (length (shown_groups u (g_tab s))) →
  ∃ l s', l ≡ₚ shown_groups u (g_tab s) ∧ StronglySorted name_before l ∧
    doAll n flags s = Some (tt, s') ∧ list_groups n flags l s = Some (tt, s') ∧ told n s s'.
Proof.
  intros A1 A2 A3 A4 A5. destruct (wp_doAll n flags u s A1 A2 A3 A4 A5) as (l & Hp & Hs & E & (s' & Hr & Ht)%wp_run_unit).
  exists l, s'. rewrite <-E. done.
Qed.

Lemma demo_listing : @listing_ok demo_build demo_state.
Proof.
  intros j g [(-> & ->)|[(-> & ->)|[(-> & ->)| ->]]]%demo_groups Hne; try done;
    (split; [|split; [left; vm_compute; lia|vm_compute; repeat constructor]]);
    (do 3 (split; [vm_compute; split; congruence|]); split; [intros name; by exists false|]; intros Hm; exfalso; revert Hm; vm_compute; congruence).
Qed.

Lemma demo_searchable j g : entry_at j (g_tab demo_state) = Some g → searchable (g_s_invites g).
Proof. intros Hg. apply demo_patterns in Hg. tauto. Qed.

Lemma doAll_correct_witness :
  ∃ l s', l ≡ₚ shown_groups (demo_user "bob" "Lobby") (g_tab demo_state) ∧ StronglySorted name_before l ∧
    @doAll demo_build demo_commands 1 0 demo_state = Some (tt, s') ∧
    @list_groups demo_build demo_commands 1 0 l demo_state = Some (tt, s') ∧ told 1 demo_state s'.
Proof.
  apply (@doAll_correct demo_build demo_commands 1 0 (demo_user "bob" "Lobby") demo_state).
  - apply demo_world.
  - apply demo_listing.
  - reflexivity.
  - apply demo_searchable.
  - left. vm_compute. lia.
Defined.

(** The listing command ([s_who]) is total and harmless: whatever the
    caller asks for, it completes, changes no table and sends packets to nobody
    but the caller; it relies on the listing and the statuses fitting their arrays and, because
    the name of a user stands for that user's group, on everybody with a
    nickname being in a group. *)
Theorem s_who_correct `{BuildConfig} `{Commands} n argc f1 u (s : st) :
  world s → listing_ok s → all_grouped (u_tab s) → entry_at n (u_tab s) = Some u →
  (∀ j g, entry_at j (g_tab s) = Some g → searchable (g_s_invites g)) →
  holds MAX_GROUPS (length (shown_groups u (g_tab s))) → short_words f1 →
  ∃ r s', s_who n argc f1 s = Some (r, s') ∧ told n s s' ∧ (r = 0 ∨ r = -1).
Proof.
  intros A1 A2 A3 A4 A5 A6 A7. pose proof A1 as [Hs Ht].
  destruct (proj1 (wp_run (s_who n argc f1) (λ r s', told n s s' ∧ (r = 0 ∨ r = -1)) s)) as (r & s' & ? & ? & ?); [|eauto].
  unfold s_who. case_if; [|apply wp_ret; split; [apply told_refl|by left]].
  apply wp_bind. unfold wp at 1. rewrite getword_m_run by done. cbv zeta. case_if.
  { apply wp_bind. eapply wp_mono; [apply wp_told_cmdout; [apply told_refl|done]|]. intros ? s1 Hs1. apply wp_ret. eauto. }
  apply wp_bind. eapply (wp_mono _ (λ _ s', s' = s)).
  { case_if; unfold wp; rewrite getword_m_run; [done..|done|by apply short_words_tail]. }
  intros w s1 ->. case_if.
  { destruct (wp_doAll n (if strcaseeq (getword f1) (str "-g") then DOGROUPONLY else
      if strcaseeq (getword f1) (str "-s") then DOSHORT else 0) u s) as (_ & _ & _ & _ & Hd); [done..|].
    apply wp_bind. eapply wp_mono; [exact Hd|]. intros ? s2 Hs2. apply wp_ret. eauto. }
  apply wp_bind. eapply wp_user_at; [done|]. apply wp_bind. eapply (wp_mono _ (λ _ s', s' = s)).
  { case_if; [|by apply wp_ret]. apply wp_bind, wp_gets. destruct (Z.ltb_spec (find_user (tail f1) (u_tab s)) 0) as [|Hge]; [by apply wp_ret|].
    destruct (find_user_entry (tail f1) (u_tab s) Hge) as (ut & Hut & En).
    apply wp_bind. eapply wp_user_at; [done|]. apply wp_bind, wp_gets.
    destruct (find_home _ _ _ _ _ Ht Hut) as (g & Hg & _).
    { eapply A3; [exact Hut|]. intros E'. rewrite E' in En. clear -Hge En. by destruct (tail f1). }
    apply wp_bind. eapply wp_group_at; [done|]. by apply wp_ret. }
  intros [t|] s2 ->; apply wp_bind.
  - eapply wp_mono; [by eapply wp_doOne|]. intros ? s3 Hs3. apply wp_ret. eauto.
  - eapply wp_mono; [apply wp_told_error; [apply told_refl|done]|]. intros ? s3 Hs3. apply wp_ret. eauto.
Qed.

Lemma s_who_correct_witness :
  ∃ r s', @s_who demo_build demo_commands 1 2 (str "-s") demo_state = Some (r, s') ∧ told 1 demo_state s' ∧
    (r = 0 ∨ r = -1).
Proof.
  apply (@s_who_correct demo_build demo_commands 1 2 (str "-s") (demo_user "bob" "Lobby") demo_state).
  - apply demo_world.
  - apply demo_listing.
  - apply demo_grouped.
  - reflexivity.
  - apply demo_searchable.
  - left. vm_compute. lia.
  - apply short_line. vm_compute. lia.
Defined.

(** A user who is in no group, as after a login whose group was refused, cannot
    be asked about: the group table is read at index -1. *)
Lemma who_nowhere_undefined `{BuildConfig} `{Commands} n nick u ut (s : st) :
  short_words ("@"%byte :: nick) → entry_at n (u_tab s) = Some u →
  entry_at (find_user nick (u_tab s)) (u_tab s) = Some ut → u_group ut = [] →
  s_who n 2 ("@"%byte :: nick) s = None.
Proof.
  intros A1 A2 A3 A4. assert (∃ w, getword ("@"%byte :: nick) = "@"%byte :: w) as [w Ew] by (eexists; reflexivity).
  unfold s_who. cbn [Z.eqb Pos.eqb]. erewrite bind_runs by (by apply getword_m_run). rewrite Ew.
  change (strcaseeq ("@"%byte :: w) (str "-g")) with false. change (strcaseeq ("@"%byte :: w) (str "-s")) with false.
  change (strcaseeq ("@"%byte :: w) (str "?")) with false. cbv zeta. cbn [Z.eqb].
  erewrite bind_runs by (by apply getword_m_run). rewrite Ew. cbn [length Nat.eqb].
  erewrite bind_runs by (by apply user_at_run). unfold bind at 1. change (starts_with "@" ("@"%byte :: nick)) with true.
  cbn [tail]. erewrite bind_runs by reflexivity.
  destruct (Z.ltb_spec (find_user nick (u_tab s)) 0) as [Hlt|_]; [apply entry_at_lookup in A3; lia|].
  erewrite bind_runs by (by apply user_at_run). erewrite bind_runs by reflexivity. by rewrite A4.
Qed.
