(* ===== verification/Info.v ===== *)
(** * Files and facts shown to users
    (server/s_motd.c, server/s_news.c, server/s_info.c, server/s_version.c,
    server/s_shuttime.c, server/s_stats.c, and [s_help] of server/s_user.c)

    The listings of text files, line by line, and the commands that report on a
    user, the version, the scheduled shutdown and the statistics. *)

From Stdlib Require Import ZArith Lia String.
From S2P Require Import Config Prelude Utf8 StrUtil Wildmat NameList CLib Monad Dbm IcbDb State Tables Send GroupCast World Access GroupChange GroupMod Who.

Local Open Scope Z_scope.
Local Open Scope icb_monad_scope.

Definition ICBDMOTD : cstring := str "./motd".
Definition ICBDHELP : cstring := str "./icbd_help".
Definition MAX_NEWS_FILES : Z := 10.
Definition NEWLINE : byte := x0a.

(** The text of a buffer up to its first NUL. *)
Fixpoint before_nul (l : list byte) : cstring :=
  match l with
  | [] => []
  | c :: l' => if Byte.eqb c x00 then [] else c :: before_nul l'
  end.

(** A character is added to the text in a buffer of [size] bytes, if it fits;
    a NUL changes nothing. *)
Definition line_add (size : nat) (c : byte) (line : cstring) : cstring :=
  if Byte.eqb c x00 then line else if (length line <? size - 1)%nat then line ++ [c] else line.

Section info.
Context `{BuildConfig} `{Host} `{Commands}.

(** ** Text files *)

(** The loop that reads a file and sends its lines; a last line without a
    newline is not sent. *)
Fixpoint show_file (size : nat) (n : Z) (bytes : list byte) (tbuf : cstring) : M st unit :=
  match bytes with
  | [] => ret tt
  | c :: bytes' =>
      if Byte.eqb c NEWLINE then sends_cmdout n tbuf ;; show_file size n bytes' []
      else show_file size n bytes' (line_add size c tbuf)
  end.

Definition s_help (n argc : Z) : M st Z :=
  match text_file ICBDHELP with
  | Some bytes => show_file 256 n bytes []
  | None => senderror n (str "No help file found.")
  end ;; ret 0.

(** [temp] holds [used] bytes, at most 255; a NUL among them ends what is sent. *)
Definition motd_add (c : byte) (temp : list byte) : list byte :=
  if (length temp <? 255)%nat then temp ++ [c] else temp.
Definition motd_value (value : cstring) (temp : list byte) : list byte := temp ++ take (255 - length temp) value.

Fixpoint motd_loop (n : Z) (bytes : list byte) (temp : list byte) : M st unit :=
  match bytes with
  | [] => ret tt
  | c :: bytes' =>
      if Byte.eqb c "%" then
        match bytes' with
        | [] => ret tt
        | c' :: bytes'' =>
            if Byte.eqb c' "U" then
              v <- db_get_str (str "server") (str "signon") ;;
              motd_loop n bytes'' (match v with Some value => motd_value value temp | None => temp end)
            else motd_loop n bytes'' (motd_add c' temp)
        end
      else if Byte.eqb c NEWLINE then sends_cmdout n (before_nul temp) ;; motd_loop n bytes' []
      else motd_loop n bytes' (motd_add c temp)
  end.

Definition s_motd (n argc : Z) : M st Z :=
  match text_file ICBDMOTD with
  | Some bytes => motd_loop n bytes []
  | None => senderror n (str "No MOTD file found.")
  end ;; ret 0.

Definition news_rule : cstring := str "--------------------------------------".

(** One turn of the loop over the news files; [first] counts the first file. *)
Definition news_item (n : Z) (first : bool) (i : Z) : M st bool :=
  match text_file (str "news." ++ itoa i) with
  | Some bytes =>
      when first (sends_cmdout n news_rule) ;;
      show_file 255 n bytes [] ;;
      sends_cmdout n news_rule ;;
      ret false
  | None => ret first
  end.

Fixpoint news_items (n : Z) (l : list Z) (first : bool) : M st bool :=
  match l with
  | [] => ret first
  | i :: l' => first <- news_item n first i ;; news_items n l' first
  end.

(** [fname] has 80 bytes. *)
Definition s_news (n argc : Z) (f1 : cstring) : M st Z :=
  if (length f1 =? 0)%nat || streq f1 (str "(null)") then
    first <- news_items n (zrange 1 MAX_NEWS_FILES) true ;;
    when first (sendstatus n (str "News") (str "No news.")) ;;
    ret 0
  else if (80 <=? length (str "news." ++ f1))%nat then ub
  else
    match text_file (str "news." ++ f1) with
    | Some bytes => sends_cmdout n news_rule ;; show_file 255 n bytes [] ;; sends_cmdout n news_rule
    | None => senderror n (str "Entry not found.")
    end ;; ret 0.

(** ** Facts *)

(** The idle time in the largest unit that is not zero. *)
Definition idle_text (idle : Z) : cstring :=
  if idle <? 60 then itoa idle ++ str "s"
  else if idle <? 3600 then itoa (Z.quot idle 60) ++ str "m"
  else if idle <? 86400 then itoa (Z.quot idle 3600) ++ str "h"
  else itoa (Z.quot idle 86400) ++ str "d".

(** The address buffer is not set when [getpeername] fails. *)
Definition s_info (n argc : Z) (f1 : cstring) : M st Z :=
  if argc =? 2 then
    w <- getword_m f1 ;;
    let TheirName := take 19 w in
    TheirIndex <- (if is_empty TheirName then int_at lpriv_id n else gets (λ s, find_user TheirName (u_tab s))) ;;
    if TheirIndex <? 0 then sends_cmdout n (str "Nickname not found.") ;; ret 0
    else
      u <- user_at TheirIndex ;;
      now <- time ;;
      let idle := to_int (now - u_t_recv u) in
      match peer_ipv4 TheirIndex with
      | None => ub
      | Some _ =>
          let addrstr := default (str "(unknown)") (peer_numeric TheirIndex) in
          sends_cmdout n (pad_right 14 (u_nickname u) ++ str " " ++ u_loginid u ++ str "@" ++ u_nodeid u ++
            str " (" ++ addrstr ++ str ") " ++ idle_text idle ++ (if is_empty (u_awaymsg u) then [] else str " (aw)")) ;;
          ret 0
      end
  else ret 0.

Definition s_version (n argc : Z) : M st Z :=
  when (argc =? 2) (
    sends_cmdout n VERSION ;;
    sends_cmdout n (str "Proto Level: " ++ itoa PROTO_LEVEL ++ str " Max Users: " ++ itoa MAX_REAL_USERS ++
      str " Max Groups: " ++ itoa (Z.of_nat MAX_GROUPS))) ;;
  ret 0.

(** A quotient computed as a double and converted to [int]. *)
Definition double_to_int (q : Z) : M st Z := if (INT_MIN <=? q) && (q <=? INT_MAX) then ret q else ub.

Definition s_shuttime (n argc : Z) : M st Z :=
  if argc =? 2 then
    die <- gets (λ s, TimeToDie (glob s)) ;;
    if die <? 0 then sendstatus n (str "Shutdown") (str "No shutdown time scheduled.") ;; ret 0
    else
      TheTime <- time ;;
      let TimeLeft := die - TheTime in
      line <- (if 3600 <=? TimeLeft then
                 h <- double_to_int (Z.quot TimeLeft 3600) ;;
                 ret (itoa h ++ str " hour(s), " ++ itoa (Z.quot (Z.rem (to_int TimeLeft) 3600) 60) ++
                   str " minute(s) left until scheduled shutdown.")
               else if 60 <? TimeLeft then
                 ret (itoa (Z.quot TimeLeft 60) ++ str " minute(s) left until scheduled shutdown.")
               else ret (itoa (to_int TimeLeft) ++ str " second(s) left until scheduled shutdown!")) ;;
      sendstatus n (str "Shutdown") line ;; ret 0
  else ret 0.

Definition plural (k : Z) (one many : cstring) : cstring := itoa k ++ (if k =? 1 then one else many).

Definition count_away (s : st) : Z :=
  Z.of_nat (length (List.filter (λ u, (LOGIN_FALSE <? u_login u) && negb (is_empty (u_awaymsg u))) (take (MAX_USERS - 1) (u_tab s)))).

Definition s_server_stats (who argc : Z) (f1 : cstring) : M st Z :=
  if (argc =? 2) && streq f1 (str "reset") then
    a <- check_auth who ;;
    if negb a then senderror who (str "You are not authorized to do this.") ;; ret (-1)
    else
      now <- time ;;
      modify (set_stats (Stats now 0 0 0 0 0)) ;;
      sendstatus who (str "Stats") (str "Stats have been reset.") ;; ret 0
  else
    sends_cmdout who (str "Server Settings:") ;;
    sends_cmdout who (str "  " ++ VERSION ++ str ", Protocol Level " ++ itoa PROTO_LEVEL) ;;
    sends_cmdout who (str "  Max Users: " ++ itoa MAX_REAL_USERS ++ str " Max Groups: " ++ itoa (Z.of_nat MAX_GROUPS)) ;;
    sends_cmdout who (str "Server Stats:") ;;
    t <- gets stats ;;
    sends_cmdout who (str "  Started: " ++ ctime_text (start_time t)) ;;
    sends_cmdout who (str "  " ++ plural (signons t) (str " signon") (str " signons") ++ str ", " ++
      plural (boots t) (str " boot") (str " boots") ++ str ", " ++ plural (drops t) (str " drop") (str " drops")) ;;
    sends_cmdout who (str "  " ++ plural (idleboots t) (str " idleboot") (str " idleboots") ++ str ", " ++
      plural (idlemods t) (str " idlemod pass") (str " idlemod passes")) ;;
    num_users <- gets count_logged ;;
    num_groups <- gets count_groups ;;
    num_away <- gets count_away ;;
    sends_cmdout who (str "  " ++ plural num_users (str " user") (str " users") ++ str " in " ++
      plural num_groups (str " group") (str " groups") ++ str " (" ++ plural num_away (str " away user") (str " away users") ++ str ")") ;;
    ret 0.
End info.

(** ** Text files are shown line by line *)

(** The lines of a file that end in a newline. *)
Fixpoint file_lines (bytes : list byte) (line : list byte) : list (list byte) :=
  match bytes with
  | [] => []
  | c :: bytes' => if Byte.eqb c NEWLINE then line :: file_lines bytes' [] else file_lines bytes' (line ++ [c])
  end.

(** What is shown of a line: its characters but for NUL, as many as fit. *)
Definition shown_line (size : nat) (line : list byte) : cstring :=
  take (size - 1) (List.filter (λ c, negb (Byte.eqb c x00)) line).

Lemma shown_line_snoc size line c : shown_line size (line ++ [c]) = line_add size c (shown_line size line).
Proof.
  unfold shown_line, line_add. rewrite List.filter_app. cbn [List.filter].
  destruct (Byte.eqb c x00); cbn [negb]; [by rewrite app_nil_r|].
  set (l := List.filter _ line). rewrite length_take. destruct (Nat.ltb_spec ((size - 1) `min` length l) (size - 1)).
  - rewrite take_ge by (rewrite length_app; simpl; lia). by rewrite take_ge by lia.
  - by rewrite take_app_le by lia.
Qed.

Lemma shown_nil size : shown_line size [] = [].
Proof. apply take_nil. Qed.

Section shown.
Context `{BuildConfig} `{Host} `{Commands}.

Lemma show_file_run size n bytes line es (s : st) :
  arrays_sized s →
  show_file size n bytes (shown_line size line) (log es s) =
  Some (tt, log (es ++ (file_lines bytes line ≫= λ l, cmdout_log s n (shown_line size l))) s).
Proof.
  intros Hs. revert line es. induction bytes as [|c bytes IH]; intros line es; cbn [show_file file_lines].
  - cbn. by rewrite app_nil_r.
  - destruct (Byte.eqb c NEWLINE).
    + erewrite bind_runs by (by apply sends_cmdout_run).
      rewrite log_log. specialize (IH []). rewrite shown_nil in IH. rewrite IH. cbn [mbind list_bind].
      rewrite <-app_assoc. reflexivity.
    + by rewrite <-shown_line_snoc, IH.
Qed.
End shown.

(** [s_help] shows the help file to the caller, one packet per line that
    ends in a newline, in order, each line without its NULs and cut to the 255
    characters of the buffer, and changes nothing else; without the file the
    caller gets an error. *)
Theorem s_help_correct `{BuildConfig} `{Host} `{Commands} n argc (s : st) :
  arrays_sized s →
  s_help n argc s = Some (0, log (match text_file ICBDHELP with
    | Some bytes => file_lines bytes [] ≫= λ l, cmdout_log s n (shown_line 256 l)
    | None => error_log s n (str "No help file found.")
    end) s).
Proof.
  intros A1. unfold s_help. destruct (text_file ICBDHELP) as [bytes|].
  - pose proof (show_file_run 256 n bytes [] [] s A1) as Hr. rewrite log_nil in Hr.
    rewrite shown_nil in Hr. by erewrite bind_runs by exact Hr.
  - by erewrite bind_runs by (by apply senderror_run).
Qed.

Definition help_host : Host := {|
  host_db := env_good; format_time := λ _, []; ADMIN_PWD := []; thishost := []; VERSION := []; getremotename := λ _, None;
  local_hm := λ _, (0, 0); peer_ipv4 := λ _, Some None; inet_addr := λ _, 0;
  text_file := λ _, Some (str "one" ++ [NEWLINE] ++ str "two" ++ [NEWLINE] ++ str "rest");
  ctime_text := λ _, []; peer_numeric := λ _, None; peer_error := []; log_is_open := λ _, true; stale_storage := false |}.

Lemma s_help_correct_witness :
  @s_help demo_build help_host demo_commands 0 1 demo_state =
  Some (0, log [EvSend 0 (str "ico" ++ SEP ++ str "one"); EvSend 0 (str "ico" ++ SEP ++ str "two")] demo_state).
Proof.
  etransitivity; [apply (@s_help_correct demo_build help_host demo_commands 0 1 demo_state demo_sized)|]. reflexivity.
Defined.

(** The name of a news file is not checked: 75 characters overflow the buffer
    that the file's name is made in. *)
Lemma s_news_overflow `{BuildConfig} `{Host} `{Commands} n argc f1 (s : st) :
  (75 ≤ length f1)%nat → s_news n argc f1 s = None.
Proof.
  intros Hl. unfold s_news. destruct (Nat.eqb_spec (length f1) 0); [lia|]. cbn [orb].
  destruct (streq f1 (str "(null)")) eqn:E; [apply streq_eq in E as ->; simpl in Hl; lia|].
  rewrite length_app. change (length (str "news.")) with 5%nat. by destruct (Nat.leb_spec 80 (5 + length f1)); [|lia].
Qed.

(** Asking about a user whose connection has no peer, such as the resident
    user, hands an address to [getnameinfo] that was never set. *)
Lemma s_info_no_peer `{BuildConfig} `{Host} `{Commands} n f1 i u (s : st) :
  short_words f1 → getword f1 ≠ [] → find_user (take 19 (getword f1)) (u_tab s) = i → entry_at i (u_tab s) = Some u →
  peer_ipv4 i = None → s_info n 2 f1 s = None.
Proof.
  intros A1 A2 A3 A4 A5. unfold s_info. cbn [Z.eqb Pos.eqb]. erewrite bind_runs by (by apply getword_m_run). cbv zeta.
  destruct (getword f1) as [|c w]; [done|]. cbn [is_empty take]. cbn [take] in A3. erewrite bind_runs by reflexivity.
  rewrite A3. destruct (Z.ltb_spec i 0); [apply entry_at_lookup in A4; lia|].
  erewrite bind_runs by (by apply user_at_run). erewrite bind_runs by reflexivity. by rewrite A5.
Qed.
