(* ===== verification/Admin.v ===== *)
(** * The administrator's commands (server/s_admin.c) *)

From Stdlib Require Import ZArith Lia String.
From S2P Require Import Config Prelude Utf8 StrUtil Wildmat NameList CLib Monad Dbm IcbDb State Tables Send GroupCast World Access GroupChange GroupMod Lifecycle.

Local Open Scope Z_scope.
Local Open Scope icb_monad_scope.

Definition unauthorized : cstring := str "You are not authorized to do this.".

Section admin.
Context `{BuildConfig} `{Host} `{Commands}.

(** Every user who is logged in, or about to be, is told. *)
Definition announce (status message : cstring) : M st unit :=
  for_each (zseq MAX_REAL_USERS) (λ user,
    u <- user_at user ;;
    when (LOGIN_FALSE <? u_login u) (sendimport user status message)).

(** The level of the log; opening and closing the files is left out. *)
Definition s_log (n argc : Z) (f1 : cstring) : M st Z :=
  if argc <? 2 then sends_cmdout n (str "wrong number of parz") ;; ret 0
  else
    a <- check_auth n ;;
    if negb a then senderror n unauthorized ;; ret (-1)
    else
      when (negb (length f1 =? 0)%nat) (
        w <- getword_m f1 ;;
        modify (set_log_level (Z.max 0 (atoi w)))) ;;
      l <- gets (λ s, log_level (glob s)) ;;
      sends_cmdout n (str "The log level is " ++ itoa l) ;; ret 0.

Definition s_drop (n argc : Z) (f1 : cstring) : M st Z :=
  if argc =? 2 then
    w <- getword_m f1 ;;
    TheVictim <- gets (λ s, find_user w (u_tab s)) ;;
    if TheVictim <? 0 then senderror n (str "User not found.") ;; ret 0
    else
      a <- check_auth n ;;
      if a : bool then emit (EvDisconnect TheVictim) ;; ret 0
      else
        v <- user_at TheVictim ;;
        pw <- getword_m (get_tail f1) ;;
        ok <- valuser (u_nickname v) pw ;;
        if ok =? 0 then
          u <- user_at n ;;
          sendstatus TheVictim (str "Drop") (str "You have been disconnected by " ++ u_nickname u) ;;
          k <- int_at S_kill TheVictim ;;
          set_int S_kill set_S_kill TheVictim (k + 1) ;; ret 0
        else senderror n (str "Authentication failure.") ;; ret 0
  else ret 0.

(** [time(NULL) + 60.0 * minutes] in doubles, which is exact below 2^53. *)
Definition shutdown_time (now minutes : Z) : M st Z :=
  let t := now + 60 * minutes in
  if (Z.abs (60 * minutes) <=? 2 ^ 53) && (Z.abs t <=? 2 ^ 53) then ret t else ub.

Definition s_shutdown (n argc : Z) (f1 : cstring) : M st Z :=
  a <- check_auth n ;;
  if negb a then senderror n unauthorized ;; ret (-1)
  else if argc =? 2 then
    let minutes := strtol10 f1 in
    announce (str "Shutdown") (str "Server going down in " ++ itoa minutes ++ str " minute(s)!") ;;
    now <- time ;;
    t <- shutdown_time now minutes ;;
    modify (set_TimeToDie t) ;;
    modify (set_ShutdownNotify (if minutes <? 300 then 1 else 0)) ;;
    ret 0
  else ret 0.

(** The restart up to the point where the process forks: the parent ends, the
    child executes the program again on the dump. *)
Definition s_restart (n argc : Z) (f1 : cstring) : M st Z :=
  a <- check_auth n ;;
  if negb a then senderror n unauthorized ;; ret (-1)
  else
    (if (argc =? 2) && strcaseeq f1 (str "quiet")
     then sendimport n (str "Quiet-Restart") (str "Server restarting...please be patient.")
     else announce (str "Restart") (str "Server restarting...please be patient.")) ;;
    emit EvExit ;; ret 0.

(** The process that was left by the [fork], when the program cannot be
    executed again; it was the parent that ended. *)
Definition restart_failed (n : Z) (quiet : bool) : M st Z :=
  (if quiet then sendimport n (str "Quiet-Restart") (str "Restart not done.")
   else announce (str "Restart") (str "Restart not done.")) ;;
  ret (-1).

Definition s_wall (n argc : Z) (f1 : cstring) : M st Z :=
  a <- check_auth n ;;
  if negb a then senderror n unauthorized ;; ret (-1)
  else when (argc =? 2) (announce (str "WALL") f1) ;; ret 0.
End admin.

(** ** Who may do it, and what it does *)

Section admin_lemmas.
Context `{BuildConfig} `{Host} `{Commands}.
Implicit Types s : st.

Definition announced (status message : cstring) (s : st) (i : Z) (u : user) : list event :=
  if LOGIN_FALSE <? u_login u then status_log s ICB_M_IMPORTANT i status message else [].

Lemma announce_run status message s :
  arrays_sized s →
  announce status message s = Some (tt, log (cast_log (announced status message s) (u_tab s)) s).
Proof.
  intros Hs. apply (bcast_run (λ i u, when (LOGIN_FALSE <? u_login u) (sendimport i status message))); [done|].
  intros i u es Hi Hu. apply when_log. intros _. rewrite sendimport_run by done. by rewrite log_log.
Qed.

Lemma check_auth_run n u s : entry_at n (u_tab s) = Some u → check_auth n s = Some (is_admin u, s).
Proof. intros Hu. unfold check_auth. by erewrite bind_runs by (by apply user_at_run). Qed.

Lemma unauthorized_run n u s (m : M st Z) :
  entry_at n (u_tab s) = Some u → is_admin u = false → arrays_sized s →
  (a <- check_auth n ;; if negb a then senderror n unauthorized ;; ret (-1) else m) s =
  Some (-1, log (error_log s n unauthorized) s).
Proof.
  intros Hu Ha Hs. erewrite bind_runs by (by apply check_auth_run). rewrite Ha. cbn [negb].
  by erewrite bind_runs by (by apply senderror_run).
Qed.
End admin_lemmas.

(** The commands that only the administrator may give (log level, shutdown,
    restart, announcement) do nothing for anybody else but answer with an error
    and return -1. *)
Theorem admin_guarded `{BuildConfig} `{Host} `{Commands} n argc f1 u (s : st) :
  arrays_sized s → entry_at n (u_tab s) = Some u → is_admin u = false → 2 ≤ argc →
  Forall (λ m : M st Z, m s = Some (-1, log (error_log s n unauthorized) s))
    [s_log n argc f1; s_shutdown n argc f1; s_restart n argc f1; s_wall n argc f1].
Proof.
  intros A1 A2 A3 A4. pose proof (λ m, unauthorized_run n u s m A2 A3 A1) as Hu.
  repeat constructor; [|apply Hu..]. unfold s_log. destruct (Z.ltb_spec argc 2); [lia|]. apply Hu.
Qed.

Lemma admin_guarded_witness :
  Forall (λ m : M st Z, m demo_state = Some (-1, log (@error_log demo_build demo_state 1 unauthorized) demo_state))
    [@s_log demo_build demo_host demo_commands 1 2 (str "3"); @s_shutdown demo_build demo_host demo_commands 1 2 (str "3");
     @s_restart demo_build demo_host demo_commands 1 2 (str "3"); @s_wall demo_build demo_host demo_commands 1 2 (str "3")].
Proof.
  apply (@admin_guarded demo_build demo_host demo_commands 1 2 (str "3") (demo_user "bob" "Lobby") demo_state demo_sized);
    [reflexivity|reflexivity|by apply Z.leb_le].
Defined.

(** An announcement of the administrator reaches exactly the real users
    who are logged in or about to be, each once and in the order of the table. *)
Theorem s_wall_correct `{BuildConfig} `{Host} `{Commands} n u message (s : st) :
  arrays_sized s → entry_at n (u_tab s) = Some u → is_admin u = true →
  s_wall n 2 message s = Some (0, log (cast_log (announced (str "WALL") message s) (u_tab s)) s) ∧
  (fits message 233 → ∀ e, e ∈ cast_log (announced (str "WALL") message s) (u_tab s) ↔
     ∃ i v, entry_at i (u_tab s) = Some v ∧ LOGIN_FALSE < u_login v ∧ reachable s i = true ∧
       e = EvSend i (ICB_M_IMPORTANT :: str "WALL" ++ SEP ++ message)).
Proof.
  intros A1 A2 A3. split.
  - unfold s_wall. erewrite bind_runs by (by apply check_auth_run). rewrite A3. cbn [negb Z.eqb Pos.eqb when].
    by erewrite bind_runs by (by apply announce_run).
  - intros Hf e. assert (fits (str "WALL") 21) as Hw by (split; [by apply ascii_clean|vm_compute; lia]).
    rewrite elem_cast_log. unfold announced. split.
    + intros (i & v & Hi & Hv & He). destruct (Z.ltb_spec LOGIN_FALSE (u_login v)); [|by apply not_elem_of_nil in He].
      rewrite status_log_fits in He by done. unfold deliver in He. destruct (reachable s i) eqn:Er; [|by apply not_elem_of_nil in He].
      apply list_elem_of_singleton in He as ->. by exists i, v.
    + intros (i & v & Hv & Hl & Hr & ->). exists i, v. split; [by eapply reachable_range|]. split; [done|].
      destruct (Z.ltb_spec LOGIN_FALSE (u_login v)); [|lia]. rewrite status_log_fits by done. unfold deliver. rewrite Hr. by left.
Qed.

(** A server where amy is the administrator. *)
Definition admin_user : user := set_u_password (str "secret") (demo_user "ADMIN" "Lobby").
Definition admin_state : st := set_u_tab (entry_set 0 admin_user (u_tab demo_state)) demo_state.
Lemma admin_sized : @arrays_sized demo_build admin_state.
Proof. by repeat split. Qed.

Lemma s_wall_correct_witness :
  @s_wall demo_build demo_host demo_commands 0 2 (str "hi") admin_state =
  Some (0, log (@cast_log demo_build (@announced demo_build (str "WALL") (str "hi") admin_state) (u_tab admin_state)) admin_state) ∧
  EvSend 1 (ICB_M_IMPORTANT :: str "WALL" ++ SEP ++ str "hi") ∈
    @cast_log demo_build (@announced demo_build (str "WALL") (str "hi") admin_state) (u_tab admin_state).
Proof.
  destruct (@s_wall_correct demo_build demo_host demo_commands 0 admin_user (str "hi") admin_state admin_sized) as [Hr Hv];
    [reflexivity|reflexivity|]. split; [exact Hr|]. apply Hv; [split; [by apply ascii_clean|vm_compute; lia]|].
  exists 1, (demo_user "bob" "Lobby"). repeat split; reflexivity.
Defined.

(** What [s_drop] may do: the administrator closes the connection at once,
    another user with the victim's password marks it for closing, nobody else
    does anything. *)
Definition drop_result `{BuildConfig} `{Host} (n i : Z) (u v : user) (pw : cstring) (f : bytes → option bytes) (s s' : st) : Prop :=
  u_tab s' = u_tab s ∧ g_tab s' = g_tab s ∧
  if is_admin u then s' = log [EvDisconnect i] s
  else
    ∃ k es, entry_at i (S_kill s) = Some k ∧ events s' = events s ++ es ∧ (∀ fd, EvDisconnect fd ∉ es) ∧
    if bool_decide (pw ≠ [] ∧ until_nul <$> f (key (u_nickname v) (str "password")) = Some (cut_password pw))
    then S_kill s' = entry_set i (k + 1) (S_kill s) else S_kill s' = S_kill s.

Lemma no_disconnect_status `{BuildConfig} s c to t m fd : EvDisconnect fd ∉ status_log s c to t m.
Proof.
  unfold status_log, deliver, filter_events. rewrite !not_elem_of_app. split; [|split]; case_if; set_solver.
Qed.
Lemma no_disconnect_error `{BuildConfig} s to m fd : EvDisconnect fd ∉ error_log s to m.
Proof. unfold error_log, deliver, filter_events. rewrite !not_elem_of_app. split; case_if; set_solver. Qed.

(** A connection is dropped ([s_drop]) only by the administrator, at once,
    or by a user who gives the password registered for the victim's nickname,
    who marks it for closing; in every other case nothing but an error message
    comes of it. *)
Theorem s_drop_correct `{BuildConfig} `{Host} `{Commands} n u i v f1 f nb (s : st) :
  env_ok host_db → arrays_sized s → db_ready f nb s → all_short f → entry_at n (u_tab s) = Some u → short_words f1 →
  find_user (getword f1) (u_tab s) = i → entry_at i (u_tab s) = Some v →
  ∃ s', s_drop n 2 f1 s = Some (0, s') ∧ drop_result n i u v (getword (get_tail f1)) f s s'.
Proof.
  intros A1 A2 A3 A4 A5 A6 A7 A8. pose proof A2 as (El & Ek & _).
  assert (0 ≤ i < Z.of_nat MAX_USERS) as Hi by (rewrite <-El; apply entry_at_range; by rewrite A8).
  destruct (proj2 (entry_at_range (S_kill s) i)) as [k Hk]; [lia|].
  unfold s_drop. cbn [Z.eqb Pos.eqb]. erewrite bind_runs by (by apply getword_m_run). erewrite bind_runs by reflexivity.
  rewrite A7. destruct (Z.ltb_spec i 0); [lia|]. erewrite bind_runs by (by apply check_auth_run). unfold drop_result.
  destruct (is_admin u); [by eexists|].
  erewrite bind_runs by (by apply user_at_run). erewrite bind_runs by (apply getword_m_run; by apply short_words_tail).
  destruct (wp_valuser (u_nickname v) (getword (get_tail f1)) f nb s A1 A3 A4) as (r & s1 & Hv & (d & c & -> & _) & Hiff & Hr).
  rewrite log_nil in Hv. erewrite bind_runs by exact Hv. set (s1 := set_userdb d (set_curtime c s)) in *. case_bool_decide as Hb.
  - apply Hiff in Hb as ->. cbn [Z.eqb]. erewrite bind_runs by (by apply (user_at_run n u)).
    erewrite bind_runs by (by apply sendstatus_run). erewrite bind_runs by (by apply (int_at_run S_kill i k)).
    erewrite bind_runs by (apply set_int_run; by eexists). eexists. split; [done|]. split; [done|]. split; [done|].
    exists k. eexists. split; [done|]. split; [done|]. split; [intros fd; apply no_disconnect_status|done].
  - destruct (Z.eqb_spec r 0) as [->|]; [tauto|]. erewrite bind_runs by (by apply senderror_run).
    eexists. split; [done|]. split; [done|]. split; [done|]. exists k. eexists. split; [done|]. split; [done|].
    split; [intros fd; apply no_disconnect_error|done].
Qed.

Lemma s_drop_correct_witness :
  ∃ d s', @s_drop demo_build demo_host 0 2 (str "bob pw") (registered_state d) = Some (0, s') ∧
    S_kill s' = [0; 1; 0; 0; 0].
Proof.
  destruct demo_map_ready as [d Hd]. exists d.
  destruct (@s_drop_correct demo_build demo_host demo_commands 0 (demo_user "amy" "Lobby") 1
    (set_u_realname (str "registered") (demo_user "bob" "Lobby")) (str "bob pw") demo_map 1024
    (registered_state d) env_good_ok (registered_sized d) Hd demo_map_short) as (s' & Hr & _ & _ & k & es & Hk & _ & _ & Hs').
  - reflexivity.
  - apply short_line. vm_compute. lia.
  - reflexivity.
  - reflexivity.
  - exists s'. split; [exact Hr|]. injection Hk as <-. rewrite bool_decide_true in Hs' by (split; [by intros [=]|vm_compute; reflexivity]).
    exact Hs'.
Defined.

(** A shutdown that the administrator schedules sets the time, but the
    test that should skip the warning of five minutes before compares minutes
    with the 300 seconds of that warning: for any delay below 300 minutes the
    warning is never given, whatever the time. *)
Theorem shutdown_skips_warning `{BuildConfig} `{Host} `{Commands} n u f1 (s : st) :
  arrays_sized s → entry_at n (u_tab s) = Some u → is_admin u = true →
  0 < strtol10 f1 < 300 → 0 ≤ clock s ≤ 2 ^ 40 →
  ∃ s', s_shutdown n 2 f1 s = Some (0, s') ∧ TimeToDie (glob s') = clock s + 60 * strtol10 f1 ∧ u_tab s' = u_tab s ∧
    ∀ t text, warn_shutdown t 300 0 text s' = Some (tt, s').
Proof.
  intros A1 A2 A3 A4 A5. unfold s_shutdown. erewrite bind_runs by (by apply check_auth_run). rewrite A3. cbn [negb Z.eqb Pos.eqb].
  erewrite bind_runs by (by apply announce_run). erewrite bind_runs by reflexivity. unfold shutdown_time.
  match goal with |- context [log ?es s] => change (clock (log es s)) with (clock s) end.
  destruct (Z.leb_spec (Z.abs (60 * strtol10 f1)) (2 ^ 53)); [|lia].
  destruct (Z.leb_spec (Z.abs (clock s + 60 * strtol10 f1)) (2 ^ 53)); [|lia].
  cbn [andb]. destruct (Z.ltb_spec (strtol10 f1) 300); [|lia].
  eexists. split; [reflexivity|]. split; [done|]. split; [done|]. intros t text. unfold warn_shutdown, getS, bind. cbn.
  by rewrite andb_false_r.
Qed.

Lemma shutdown_skips_warning_witness :
  ∃ s', @s_shutdown demo_build demo_host demo_commands 0 2 (str "10") admin_state = Some (0, s') ∧
    TimeToDie (glob s') = clock admin_state + 60 * 10 ∧ u_tab s' = u_tab admin_state ∧
    ∀ t text, @warn_shutdown demo_build demo_commands t 300 0 text s' = Some (tt, s').
Proof.
  apply (@shutdown_skips_warning demo_build demo_host demo_commands 0 admin_user (str "10") admin_state admin_sized).
  - reflexivity.
  - reflexivity.
  - by split; apply Z.ltb_lt.
  - by split; apply Z.leb_le.
Defined.
