(* ===== verification/Auto.v ===== *)
(** * The commands of the resident user (server/s_auto.c)

    Registration and lookup of nicknames, the stored messages and the account
    data, as the private messages to the resident user and the commands of the
    same names reach them. *)

From Stdlib Require Import ZArith Lia String.
From S2P Require Import Config Prelude Utf8 StrUtil Wildmat NameList Lookup CLib Monad Dbm IcbDb State Tables Send GroupCast World Access GroupChange GroupMod.

Local Open Scope Z_scope.
Local Open Scope icb_monad_scope.

(** The numbers of lookup.h. *)
Definition AUTO_READ : Z := 0.
Definition AUTO_WHO : Z := 1.
Definition AUTO_REGISTER : Z := 2.
Definition AUTO_REAL : Z := 3.
Definition AUTO_WRITE : Z := 4.
Definition AUTO_TEXT : Z := 5.
Definition AUTO_ADDR : Z := 6.
Definition AUTO_PHONE : Z := 7.
Definition AUTO_DELETE : Z := 8.
Definition AUTO_INFO : Z := 9.
Definition AUTO_HELP : Z := 10.
Definition AUTO_CP : Z := 12.
Definition AUTO_EMAIL : Z := 13.
Definition AUTO_SECURE : Z := 14.
Definition AUTO_NOSECURE : Z := 15.
Definition AUTO_WWW : Z := 16.

Definition auto_help : list cstring :=
  [str "Command <argument(s)>           What it does";
   str "---------------------           ------------";
   str "whois <nick>                    returns info if available";
   str "p <passwd>                      registers current user info";
   str "delete <password>               deletes your info from the server db";
   str "cp <oldpassword> <newpasswd>    changes password";
   str "rname                           sets your real name";
   str "phone                           sets your phone number";
   str "addr                            sets your street address";
   str "email                           sets your e-mail address";
   str "text                            sets your text message";
   str "www                             sets your WWW home page";
   str "read                            reads your server messages";
   str "write <nick>                    send someone a server message";
   str "secure                          always requires a password to register";
   str "nosecure                        auto-validates based on username/hostname";
   str "info                            gives more info on Server";
   str "help                            lists this table";
   str "?                               shows usage";
   str "See also /s_help"].

Definition auto_usage : cstring := str "usage: /m server {whois | p | cp | delete | rname | email | phone | addr | text | read | write | www | info | secure | nosecure | help | ?}".

Section auto.
Context `{BuildConfig} `{Host} `{Commands}.

(** A field of the account, or the usage line when nothing is given. *)
Definition change_info (n : Z) (cp usage tag : cstring) (max : nat) (message : cstring) : M st Z :=
  (if (length cp =? 0)%nat then sends_cmdout n usage
   else _ <- nickchinfo n tag cp max message ;; ret tt) ;;
  ret 0.

(** [s_auto(n, 0)], the only call: [f0] and [f1] are [fields[0]] and
    [fields[1]]. *)
Definition auto_command (n which : Z) (f1 : cstring) : M st Z :=
  if which =? AUTO_READ then _ <- nickreadmsg n ;; ret 0
  else if which =? AUTO_WHO then cp <- getword_m f1 ;; nicklookup n cp
  else if which =? AUTO_REGISTER then cp <- getword_m f1 ;; nickwrite n cp false
  else if which =? AUTO_REAL then change_info n f1 (str "Usage: rname Real Name") (str "realname") 25 (str "Real Name")
  else if which =? AUTO_WRITE then
    to <- getword_m f1 ;; _ <- nickwritemsg n to (get_tail f1) ;; ret 0
  else if which =? AUTO_TEXT then change_info n f1 (str "Usage: text Message Text") (str "text") 200 (str "Message text")
  else if which =? AUTO_ADDR then
    change_info n f1 (str "Usage: addr Address Line 1 | Address Line 2 | Address Line 3") (str "addr") 79 (str "Address")
  else if which =? AUTO_PHONE then change_info n f1 (str "Usage: phone 1-800-555-1212") (str "phone") 14 (str "Phone Number")
  else if which =? AUTO_DELETE then
    cp <- getword_m f1 ;;
    (if (length cp =? 0)%nat then sends_cmdout n (str "Usage: delete password")
     else _ <- nickdelete n cp ;; ret tt) ;; ret 0
  else if which =? AUTO_INFO then nicklookup n (str "server")
  else if which =? AUTO_HELP then for_each auto_help (sends_cmdout n) ;; ret 0
  else if which =? AUTO_CP then
    p1 <- getword_m f1 ;; p2 <- getword_m (get_tail f1) ;; _ <- nickchpass n p1 p2 ;; ret 0
  else if which =? AUTO_SECURE then _ <- setsecure n 1 ;; ret 0
  else if which =? AUTO_NOSECURE then _ <- setsecure n 0 ;; ret 0
  else if which =? AUTO_WWW then change_info n f1 (str "Usage: www URL") (str "www") 80 (str "WWW")
  else if which =? AUTO_EMAIL then change_info n f1 (str "Usage: email e-mail address") (str "email") 60 (str "E-Mail")
  else sendperson NICKSERV n auto_usage ;; ret 0.

Definition s_auto (n : Z) (f0 f1 : cstring) : M st Z :=
  cp <- getword_m f0 ;;
  r <- auto_command n (lookup_cmd cp auto_table) f1 ;;
  now <- time ;;
  upd_user NICKSERV (set_u_t_recv now) ;;
  ret r.
End auto.

(** ** Who may change an account *)

Section auto_lemmas.
Context `{BuildConfig} `{Host} `{Commands}.
Implicit Types s : st.

(** The commands on one's own account and letters. *)
Definition account_commands : list Z :=
  [AUTO_READ; AUTO_REAL; AUTO_WRITE; AUTO_TEXT; AUTO_ADDR; AUTO_PHONE; AUTO_DELETE; AUTO_SECURE; AUTO_NOSECURE;
   AUTO_WWW; AUTO_EMAIL].

Lemma harmless_bind {A B} (m : M st A) (k : A → M st B) s :
  harmless m s → (∀ a es, harmless (k a) (log es s)) → harmless (bind m k) s.
Proof.
  intros (a & es & Hm) Hk. destruct (Hk a es) as (b & es' & Hb). exists b, (es ++ es').
  erewrite bind_runs by exact Hm. by rewrite Hb, log_log.
Qed.
Lemma harmless_ret {A} (a : A) s : harmless (ret a) s.
Proof. exists a, []. by rewrite log_nil. Qed.
Lemma harmless_error n t s : arrays_sized s → harmless (senderror n t) s.
Proof. intros Hs. eexists _, _. by apply senderror_run. Qed.
Lemma harmless_cmdout n t s : arrays_sized s → harmless (sends_cmdout n t) s.
Proof. intros Hs. eexists _, _. by apply sends_cmdout_run. Qed.
Lemma harmless_word f s : short_words f → harmless (getword_m f) s.
Proof. intros Hf. exists (getword f), []. rewrite log_nil. by apply getword_m_run. Qed.

(** A call that refuses an unregistered user. *)
Lemma refused_run {A} n u t s (m : user → M st A) (r : A) :
  arrays_sized s → entry_at n (u_tab s) = Some u → u_realname u = [] →
  (u <- user_at n ;; if is_empty (u_realname u) then senderror n t ;; ret r else m u) s =
  Some (r, log (error_log s n t) s).
Proof.
  intros Hs Hu Hr. erewrite bind_runs by (by apply user_at_run). rewrite Hr. cbn [is_empty].
  by erewrite bind_runs by (by apply senderror_run).
Qed.

Lemma harmless_change_info n u cp usage tag max message s :
  arrays_sized s → entry_at n (u_tab s) = Some u → u_realname u = [] →
  harmless (change_info n cp usage tag max message) s.
Proof.
  intros Hs Hu Hr. unfold change_info. apply harmless_bind; [|intros; apply harmless_ret].
  case_if; [by apply harmless_cmdout|]. apply harmless_bind; [|intros; apply harmless_ret].
  eexists _, _. by apply (refused_run n u).
Qed.

Lemma harmless_account n u which f1 s :
  arrays_sized s → entry_at n (u_tab s) = Some u → u_realname u = [] → short_words f1 → which ∈ account_commands →
  harmless (auto_command n which f1) s.
Proof.
  intros Hs Hu Hr Hf Hw. unfold account_commands in Hw.
  assert (∀ t (m : user → M st Z), harmless (u <- user_at n ;; if is_empty (u_realname u) then senderror n t ;; ret (-1) else m u) s) as Href.
  { intros t m. eexists _, _. by apply (refused_run n u t s m). }
  repeat (apply elem_of_cons in Hw as [->|Hw]); [..|by apply not_elem_of_nil in Hw];
    try (by eapply harmless_change_info); cbn.
  - apply harmless_bind; [apply Href|intros; apply harmless_ret].
  - apply harmless_bind; [by apply harmless_word|]. intros w es. apply harmless_bind; [|intros; apply harmless_ret].
    unfold nickwritemsg. case_if; [by apply harmless_bind; [apply harmless_cmdout|intros; apply harmless_ret]|].
    eexists _, _. by apply (refused_run n u).
  - apply harmless_bind; [by apply harmless_word|]. intros w es. apply harmless_bind; [|intros; apply harmless_ret].
    case_if; [by apply harmless_cmdout|]. apply harmless_bind; [|intros; apply harmless_ret]. unfold nickdelete.
    case_if; [by apply harmless_bind; [apply harmless_error|intros; apply harmless_ret]|].
    eexists _, _. by apply (refused_run n u).
  - apply harmless_bind; [apply Href|intros; apply harmless_ret].
  - apply harmless_bind; [apply Href|intros; apply harmless_ret].
Qed.
End auto_lemmas.

(** Without having registered the nickname, a user reads and writes no
    letters and changes no account: the commands of the resident user that touch
    them answer with a message, and leave the database, the groups and all
    entries of the user table but the resident user's time of activity as they
    were. *)
Theorem unregistered_account_guarded `{BuildConfig} `{Host} `{Commands} n u f0 f1 (s : st) :
  arrays_sized s → entry_at n (u_tab s) = Some u → u_realname u = [] → short_words f0 → short_words f1 →
  lookup_cmd (getword f0) auto_table ∈ account_commands →
  ∃ r s', s_auto n f0 f1 s = Some (r, s') ∧ userdb s' = userdb s ∧ g_tab s' = g_tab s ∧
    ∀ i, i ≠ NICKSERV → entry_at i (u_tab s') = entry_at i (u_tab s).
Proof.
  intros A1 A2 A3 A4 A5 A6. destruct (harmless_account n u (lookup_cmd (getword f0) auto_table) f1 s) as (r & es & Hr); [done..|].
  unfold s_auto. erewrite bind_runs by (by apply getword_m_run). erewrite bind_runs by exact Hr. erewrite bind_runs by reflexivity.
  destruct (proj2 (entry_at_range (u_tab (log es s)) NICKSERV)) as [v Hv].
  { pose proof MAX_USERS_min. unfold NICKSERV. destruct A1 as [El _]. cbn [u_tab log set_events]. rewrite El. lia. }
  erewrite bind_runs by (by apply upd_user_run). eexists _, _. split; [done|]. split; [done|]. split; [done|].
  intros i Hi. cbn. rewrite entry_set_ne by done. done.
Qed.

Lemma unregistered_account_guarded_witness :
  ∃ r s', @s_auto demo_build demo_host demo_commands 0 (str "phone") (str "555") demo_state = Some (r, s') ∧
    userdb s' = userdb demo_state ∧ g_tab s' = g_tab demo_state ∧
    ∀ i, i ≠ @NICKSERV demo_build → entry_at i (u_tab s') = entry_at i (u_tab demo_state).
Proof.
  apply (@unregistered_account_guarded demo_build demo_host demo_commands 0 (demo_user "amy" "Lobby") (str "phone") (str "555")
    demo_state demo_sized); [reflexivity|reflexivity|apply short_line; vm_compute; lia|apply short_line; vm_compute; lia|].
  vm_compute. set_solver.
Defined.
