(* ===== verification/Msgs.v ===== *)
(** * The packets of the clients (server/msgs.c, server/dispatch.c)

    Logging in with its permission and deny files, open messages, commands,
    pongs, and the dispatch on the type of a packet.  The nested command of a
    private message to the resident user ties the knot of the interface
    [Commands]. *)

From Stdlib Require Import ZArith Lia String.
From S2P Require Import Config Prelude Utf8 StrUtil Wildmat NameList Lookup CLib Monad Dbm IcbDb State Tables Send GroupCast World Access GroupChange GroupMod GroupStatus Lifecycle UserCmd Who Info Admin Auto.

Local Open Scope Z_scope.
Local Open Scope icb_monad_scope.

Definition PERM_DENY : Z := 1.
Definition PERM_SLOWMSGS : Z := 2.
Definition ACCESS_FILE : cstring := str "./icbd.deny".
Definition PERM_FILE : cstring := str "./icbd.perms".
Definition BUFSIZ : Z := 8192.
Definition TAB : byte := x09.

Definition ICB_M_LOGIN : byte := "a".
Definition ICB_M_COMMAND : byte := "h".
Definition ICB_M_PONG : byte := "m".
Definition ICB_M_NOOP : byte := "n".

(** ** The permission file *)

(** [strtok]: the next token and what follows its delimiter. *)
Fixpoint skip_delims (delims s : cstring) : cstring :=
  match s with
  | c :: s' => if has_char delims c then skip_delims delims s' else s
  | [] => []
  end.
Fixpoint take_token (delims s : cstring) : cstring * cstring :=
  match s with
  | [] => ([], [])
  | c :: s' => if has_char delims c then ([], s') else let '(t, r) := take_token delims s' in (c :: t, r)
  end.
Definition strtok (delims s : cstring) : option (cstring * cstring) :=
  match skip_delims delims s with
  | [] => None
  | s' => Some (take_token delims s')
  end.

(** The loop of [perm2val] over the tokens; [fuel] is the length of the text. *)
Fixpoint perm_tokens (fuel : nat) (s : cstring) : list cstring :=
  match fuel with
  | O => []
  | S fuel' => match strtok (str "|") s with Some (t, r) => t :: perm_tokens fuel' r | None => [] end
  end.
Definition perm_bit (cp : cstring) : Z :=
  if strcaseeq cp (str "perm_null") then PERM_NULL
  else if strcaseeq cp (str "perm_deny") then PERM_DENY
  else if strcaseeq cp (str "perm_slowmsgs") then PERM_SLOWMSGS
  else 0.
(** Without any token a null pointer is compared. *)
Definition perm2val (s : cstring) : option Z :=
  match perm_tokens (length s) s with
  | [] => None
  | ts => Some (foldl (λ perm cp, Z.lor perm (perm_bit cp)) PERM_NULL ts)
  end.

(** The pieces that [fgets] reads into a buffer of [BUFSIZ] bytes. *)
Fixpoint fgets_lines (bytes line : list byte) (room : Z) : list (list byte) :=
  match bytes with
  | [] => match line with [] => [] | _ => [line] end
  | c :: bytes' =>
      if Byte.eqb c NEWLINE || (room <=? 1) then (line ++ [c]) :: fgets_lines bytes' [] (BUFSIZ - 1)
      else fgets_lines bytes' (line ++ [c]) (room - 1)
  end.

Definition perm_line (s : cstring) : option (cstring * cstring * cstring * cstring) :=
  t ← strtok [" "%byte; TAB] s;
  a1 ← strtok [" "%byte; TAB] (snd t);
  a2 ← strtok [" "%byte; TAB] (snd a1);
  p ← strtok [" "%byte; TAB; NEWLINE] (snd a2);
  Some (fst t, fst a1, fst a2, fst p).

(** ** The deny file *)

Fixpoint read_reason (bytes : list byte) (two : cstring) : cstring :=
  match bytes with
  | [] => two
  | c :: bytes' => if Byte.eqb c NEWLINE then two else read_reason bytes' (line_add 255 c two)
  end.

(** The reason of the first pattern that matches; every word of the file that
    is followed by white space counts as a pattern.  [None] is undefined
    behaviour of the matcher. *)
Fixpoint deny_loop (one : cstring) (bytes : list byte) (three : cstring) : option (option cstring) :=
  match bytes with
  | [] => Some None
  | c :: bytes' =>
      if is_space c then
        match wildmat one (ucaseit three) with
        | Some true => Some (Some (read_reason bytes' []))
        | Some false => deny_loop one bytes' []
        | None => None
        end
      else deny_loop one bytes' (line_add 255 c three)
  end.

Section msgs.
Context `{BuildConfig} `{Host} `{Commands}.

(** ** Fields *)

(** [split]; the array [fields] has [MAX_FIELDS] entries. *)
Definition split_m (pkt : cstring) : M st (list cstring * Z) :=
  let '(fs, k) := split pkt in
  if (MAX_FIELDS <? length fs)%nat then ub else set_fields (length fs) ;; ret (fs, Z.of_nat k).

(** [fields[i]] of the packet at hand.  Without one the entry is null or
    dangles, and what the code would find there is undefined. *)
Definition field (fs : list cstring) (i : nat) : M st cstring := lift (fs !! i).

(** [fields[4]], which may be null: it still is when no packet had as many
    fields before. *)
Definition password_field (fs : list cstring) : M st (option cstring) :=
  match fs !! 4%nat with
  | Some f => ret (Some f)
  | None => k <- gets (λ s, fields_set (glob s)) ;; if (4 <? k)%nat then ub else ret None
  end.

(** A message of kind [level] for the log that shows [fields[0]], which no
    packet has set: the text is made when the log takes the message. *)
Definition vmdb_stale (level : Z) : M st unit :=
  s <- getS ;; when ((level <=? log_level (glob s)) && log_is_open s) (stale_field 0).

(** ** Permissions *)

(** The first line that matches decides. *)
Fixpoint scan_perms (login nodeid : cstring) (addr : option Z) (lines : list (list byte)) : option Z :=
  match lines with
  | [] => Some PERM_NULL
  | l :: lines' =>
      let s := before_nul l in
      let next := scan_perms login nodeid addr lines' in
      match s with
      | [] => next
      | c :: _ =>
          if has_char [NEWLINE; TAB; "#"%byte] c then next
          else
            match perm_line s with
            | None => next
            | Some (type, arg1, arg2, perms) =>
                if strcaseeq type (str "user") then
                  if strcaseeq arg1 login && strcaseeq arg2 nodeid then perm2val perms else next
                else if strcaseeq type (str "mask") then
                  match addr with
                  | Some a => if Z.land a (inet_addr arg2) =? inet_addr arg1 then perm2val perms else next
                  | None => next
                  end
                else next
            end
      end
  end.

Definition get_perms (n : Z) (login : cstring) : M st Z :=
  match peer_ipv4 n with
  | None => senderror n (str "getpeername() failed: " ++ peer_error) ;; ret (-1)
  | Some addr =>
      match text_file PERM_FILE with
      | None => ret PERM_NULL
      | Some bytes =>
          u <- user_at n ;;
          lift (scan_perms login (u_nodeid u) addr (fgets_lines bytes [] (BUFSIZ - 1)))
      end
  end.

(** ** Logging in *)

Definition denied (n : Z) (one : cstring) : M st bool :=
  match text_file ACCESS_FILE with
  | None => ret false
  | Some bytes =>
      d <- lift (deny_loop one bytes []) ;;
      match d with
      | None => ret false
      | Some two =>
          senderror n (str "Login refused for " ++ one) ;;
          senderror n (str "Reason: " ++ two) ;;
          ret true
      end
  end.

(** The checks before the entry of the user is filled: [inl r] when [loginmsg]
    returns [r], [inr perms] when it goes on. *)
Definition login_checks (n : Z) (f0 f1 : cstring) : M st (Z + Z) :=
  taken <- gets (λ s, find_user f1 (u_tab s)) ;;
  if 0 <=? taken then senderror n (str "Nickname already in use.") ;; ret (inl (-1))
  else if (length f1 =? 0)%nat || (MAX_NICKLEN <? length f1)%nat then
    senderror n (str "Nickname must be between 1 and " ++ itoa (Z.of_nat MAX_NICKLEN) ++ str " characters.") ;; ret (inl (-1))
  else if (length f0 =? 0)%nat || (MAX_IDLEN <? length f0)%nat then
    senderror n (str "Login id must be between 1 and " ++ itoa (Z.of_nat MAX_IDLEN) ++ str " characters.") ;; ret (inl (-1))
  else if negb (forallb is_alnum f0) then
    senderror n (str "Login id must contain only alphanumeric characters.") ;; ret (inl (-1))
  else
    perms <- get_perms n f0 ;;
    if perms <? 0 then ret (inl perms)
    else if negb (Z.land perms PERM_DENY =? 0) then senderror n (str "Login denied.") ;; ret (inl (-1))
    else
      when (negb (perms =? PERM_NULL))
        (sendstatus n (str "Permissions") (if negb (Z.land perms PERM_SLOWMSGS =? 0) then str "slowmsgs" else [])) ;;
      u <- user_at n ;;
      d <- denied n (ucaseit (f0 ++ str "@" ++ u_nodeid u)) ;;
      ret (if d : bool then inl (-1) else inr perms).

(** The group asked for, at most [MAX_NICKLEN + 3] bytes of it. *)
Definition login_group (f2 : cstring) : cstring :=
  if (length f2 =? 0)%nat then str "1" else strncpy f2 (MAX_NICKLEN + 3).

(** The group of a user, for a name after an at sign. *)
Definition group_of_user (n : Z) (which_group : cstring) : M st (option cstring) :=
  if starts_with "@" which_group then
    target_user <- gets (λ s, find_user (tail which_group) (u_tab s)) ;;
    if target_user <? 0 then ret None
    else
      ut <- user_at target_user ;;
      gi <- gets (λ s, find_group (u_group ut) (g_tab s)) ;;
      g <- group_at gi ;;
      u <- user_at n ;;
      ret (if ((g_visibility g =? SUPERSECRET) || (g_visibility g =? SECRET)) && negb (named_admin u)
           then None else Some (u_group ut))
  else ret (Some which_group).

(** A user who is known, but must prove it, with a password that may have come
    with the packet. *)
Definition login_prove (n : Z) : M st Z :=
  u <- user_at n ;;
  r <- (if negb (is_empty (u_password u)) then nickwrite n (u_password u) true else ret (-2)) ;;
  if r =? 0 then ret 0 else tell_unproved n ;; ret (-2).

Definition login_standing (n : Z) : M st unit :=
  u <- user_at n ;;
  r <- nicklookup (- n) (u_nickname u) ;;
  r <- (if r =? -2 then login_prove n else ret r) ;;
  if r =? 0 then
    u <- user_at n ;;
    when (negb (streq (u_realname u) (str "registered"))) (recognise n)
  else when (negb (r =? -2)) (
    sendstatus n (str "No-Pass") (str "Your nickname does not have a password.") ;;
    sendstatus n (str "No-Pass") (str "For help type /m server ?")).

Definition tell_invitations (n : Z) : M st unit :=
  u <- user_at n ;;
  for_each (zseq (Z.of_nat MAX_GROUPS)) (λ i,
    g <- group_at i ;;
    b <- invited u g ;;
    when b (sends_cmdout n (str "Invited to: " ++ g_name g))).

(** The users who asked to be told are told. *)
Definition notify_on (n : Z) : M st unit :=
  u <- user_at n ;;
  let one := user_address u in
  let three := ucaseit (u_nickname u) in
  for_each (zseq (Z.of_nat MAX_USERS)) (λ j,
    uj <- user_at j ;;
    when (negb (n =? j) && (LOGIN_COMPLETE <=? u_login uj)) (
      a <- lift (names_match three (u_n_notifies uj)) ;;
      b <- (if a : bool then ret true else lift (names_match one (u_s_notifies uj))) ;;
      when b (
        gi <- gets (λ s, find_group (u_group u) (g_tab s)) ;;
        g <- group_at gi ;;
        when (negb (g_visibility g =? SUPERSECRET))
          (sendstatus j (str "Notify-On")
             (take 254 (u_nickname u ++ str " (" ++ one ++ str ") has just signed on")))))).

Definition more_signons (t : server_stats) : server_stats :=
  Stats (start_time t) (signons t + 1) (boots t) (idleboots t) (idlemods t) (drops t).

(** The entry of a user whose login has begun. *)
Definition pending_user (now : Z) (u : user) : user :=
  with_new_lists (set_u_t_sent now (set_u_t_recv now (set_u_t_on now (set_u_login LOGIN_PENDING u)))).

(** A regular login after the checks; [password] is [fields[4]]. *)
Definition login_enter (n TheTime : Z) (f0 f1 : cstring) (password : option cstring) (which_group : cstring) (perms : Z) : M st Z :=
  let nick := filternickname f1 in
  u <- user_at n ;;
  fill_user_entry n (Some f0) (Some (u_nodeid u)) (Some nick) password (Some []) (Some []) LOGIN_FALSE 0 0 perms ;;
  a <- check_auth n ;;
  if strcaseeq nick (str "admin") && negb a then
    senderror n (str "Nickname already in use.") ;; ret (-1)
  else
    send_loginok n ;;
    _ <- s_motd n 2 ;;
    wg <- group_of_user n which_group ;;
    match wg with
    | None => senderror n (str "User not found or is in a secret or invisible group.") ;; ret (-1)
    | Some which_group =>
        upd_user n (pending_user TheTime) ;;
        u <- user_at n ;;
        sends_cmdout n (str "Welcome to ICB " ++ u_nickname u) ;;
        login_standing n ;;
        tell_invitations n ;;
        u <- user_at n ;;
        when (negb (streq (u_realname u) (str "registered")))
          (for_each (zseq (Z.of_nat MAX_GROUPS)) (talk_report n)) ;;
        r <- s_change n 3 which_group ;;
        if r <? 0 then ret (-1)
        else
          upd_user n (set_u_login LOGIN_COMPLETE) ;;
          bump more_signons ;;
          notify_on n ;;
          ret 0
    end.

Definition loginmsg (n : Z) (pkt : cstring) : M st Z :=
  u <- user_at n ;;
  if LOGIN_FALSE <? u_login u then senderror n (str "Already logged in.") ;; ret 1
  else
    upd_user n (set_u_login LOGIN_FALSE) ;;
    TheTime <- time ;;
    '(fs, num_fields) <- split_m pkt ;;
    if num_fields <? 4 then ret (-1)
    else
      f0 <- field fs 0 ;;
      f1 <- field fs 1 ;;
      f2 <- field fs 2 ;;
      f3 <- field fs 3 ;;
      if strcaseeq f3 (str "w") then _ <- s_who n 2 [] ;; ret (-1)
      else if strcaseeq f3 (str "wg") then
        (** the group is copied over the nickname before it, with two NULs *)
        if is_empty f2 then _ <- s_who n 2 [] ;; ret (-1)
        else if (length f1 <=? length f2)%nat then ub
        else _ <- s_who n 2 f2 ;; ret (-1)
      else if strcaseeq f3 (str "login") then
        c <- login_checks n f0 f1 ;;
        match c with
        | inl r => ret r
        | inr perms =>
            password <- password_field fs ;;
            login_enter n TheTime f0 f1 password (login_group f2) perms
        end
      else senderror n (str "Unknown login type " ++ [x22] ++ f3 ++ [x22]) ;; ret (-1).

(** ** Open messages *)

(** Three messages in one second in group 1.  The group's name is copied to
    [fields[1]], which is that of an earlier packet. *)
Definition spam_check (n TheTime : Z) : M st unit :=
  u <- user_at n ;;
  when (streq (u_group u) (str "1")) (
    c <- int_at (λ s, u_recv_count (glob s)) n ;;
    set_int (λ s, u_recv_count (glob s)) set_u_recv_count n (c + 1) ;;
    if u_t_recv u =? TheTime then
      when (2 <? c + 1) (
        sendstatus n (str "Boot") (str "No spamming in group 1.") ;;
        _ <- s_status_group 1 true n (str "Boot") (u_nickname u ++ str " was auto-booted for spamming.") ;;
        stale_field 1 ;;
        modify (set_is_booting 1) ;;
        _ <- s_change n 2 (str "ICB") ;;
        modify (set_is_booting 0))
    else set_int (λ s, u_recv_count (glob s)) set_u_recv_count n 0).

(** The message goes to the group, if the group lets it. *)
Definition open_to_group (n : Z) (text : cstring) : M st unit :=
  u <- user_at n ;;
  gi <- gets (λ s, find_group (u_group u) (g_tab s)) ;;
  g <- group_at gi ;;
  if g_volume g =? QUIET then senderror n (str "Open messages not permitted in quiet groups.")
  else if (g_control g =? CONTROLLED) && negb (g_mod g =? n) && negb (may_talk u g) then
    senderror n (str "You do not have permission to send open messages in this group.") ;;
    um <- user_at (g_mod g) ;;
    sendstatus n (str "INFO") (str "Use " ++ [x22] ++ str "/m " ++ u_nickname um ++ str " may i talk?" ++ [x22] ++ str " to request permission.")
  else
    k <- gets (λ s, count_users_in_group (g_name g) (u_tab s)) ;;
    if k <? 2 then senderror n (str "No one else in group!")
    else _ <- s_send_group n text ;; ret tt.

(** Before the login the message for the log shows [fields[0]]. *)
Definition openmsg (n : Z) (pkt : cstring) : M st unit :=
  u <- user_at n ;;
  if LOGIN_COMPLETE <=? u_login u then
    when (negb (is_empty (u_awaymsg u))) (sendstatus n (str "Away") (str "Your away is still set...")) ;;
    TheTime <- time ;;
    spam_check n TheTime ;;
    upd_user n (set_u_t_recv TheTime) ;;
    '(fs, k) <- split_m pkt ;;
    when (k =? 1) (f0 <- field fs 0 ;; open_to_group n f0)
  else vmdb_stale MSG_INFO.

(** ** Commands *)

Definition run_command (n argc which : Z) (f1 : cstring) : option (M st Z) :=
  if which =? 0 then Some (s_drop n argc f1)
  else if which =? 18 then Some (s_restart n argc f1)
  else if which =? 1 then Some (s_shutdown n argc f1)
  else if which =? 2 then Some (s_wall n argc f1)
  else if which =? 3 then Some (s_beep n argc f1)
  else if which =? 4 then Some (s_cancel n argc f1)
  else if which =? 5 then Some (s_change n argc f1)
  else if which =? 6 then Some (s_invite n argc f1)
  else if which =? 7 then Some (s_pass n argc f1)
  else if which =? 8 then Some (s_boot n argc f1)
  else if which =? 9 then Some (s_status n argc f1)
  else if which =? 10 then Some (s_topic n argc f1)
  else if which =? 11 then Some (s_motd n argc)
  else if which =? 12 then Some (s_personal n argc f1)
  else if which =? 13 then Some (s_echoback n argc f1)
  else if which =? 14 then Some (s_name n argc f1)
  else if which =? 15 then Some (s_version n argc)
  else if which =? 16 then Some (s_who n argc f1)
  else if which =? 17 then Some (s_info n argc f1)
  else if which =? 19 then Some (s_news n argc f1)
  else if (which =? 20) || (which =? 21) then Some (s_hush n argc f1)
  else if which =? 22 then Some (s_help n argc)
  else if which =? 23 then Some (s_exclude n argc f1)
  else if which =? 24 then Some (s_shuttime n argc)
  else if which =? 25 then Some (s_notify n argc f1)
  else if which =? 27 then Some (s_ping n argc f1)
  else if which =? 26 then Some (s_talk n argc f1)
  else if which =? 28 then Some (s_nobeep n argc f1)
  else if which =? 29 then Some (s_away n argc f1)
  else if which =? 30 then Some (s_noaway n argc)
  else if which =? 31 then Some (s_log n argc f1)
  else if which =? 32 then Some (s_server_stats n argc f1)
  else None.

(** [cmdmsg]; the line for the log reads the first word of a private message.
    Before the login a line is made from [fields[0]] at any level of the log.
    (The sender of a nested command is logged in.) *)
Definition handle_command (n : Z) (pkt : cstring) : M st unit :=
  u <- user_at n ;;
  if LOGIN_COMPLETE <=? u_login u then
    TheTime <- time ;;
    upd_user n (set_u_t_recv TheTime) ;;
    '(fs, argc) <- split_m pkt ;;
    f0 <- field fs 0 ;;
    f1 <- field fs 1 ;;
    when (streq f0 (str "m")) (_ <- getword_m f1 ;; ret tt) ;;
    match run_command n argc (lookup_cmd f0 command_table) f1 with
    | Some handler => _ <- handler ;; ret tt
    | None =>
        if 0 <=? lookup_cmd f0 auto_table then _ <- s_auto n f0 f1 ;; ret tt
        else sendstatus n (str "Server") (str "Unknown command")
    end
  else stale_field 0.

(** ** Pongs and throttling *)

Definition pong_text (nick : cstring) (diff : Z) : cstring :=
  let hundredths := (diff mod 1000000) / 10000 in
  nick ++ str " client responded in " ++ itoa (diff / 1000000) ++ str "." ++
  (if hundredths <? 10 then str "0" else []) ++ itoa hundredths ++ str " seconds.".

Definition pong (n : Z) : M st unit :=
  u <- user_at n ;;
  when (LOGIN_COMPLETE <=? u_login u) (
    now <- now_usec ;;
    r <- int_at pong_req n ;;
    if negb (r =? -1) then
      t <- int_at ping_time n ;;
      sendstatus r (str "PONG") (pong_text (u_nickname u) (now - t)) ;;
      set_int pong_req set_pong_req n (-1) ;;
      set_int ping_time set_ping_time n 0
    else sendstatus n (str "PONG") (str "You were pinged, but they aren't there to receive your pong.")).

Definition ok2read (n : Z) : M st bool :=
  u <- user_at n ;;
  TheTime <- time ;;
  ret (negb (negb (Z.land (u_perms u) PERM_SLOWMSGS =? 0) && (TheTime - u_t_recv u <? 1))).

(** ** Dispatch *)

Definition refused_types : list (byte * cstring) :=
  [(ICB_M_PERSONAL, str "ICB_M_PERSONAL"); (ICB_M_STATUS, str "ICB_M_STATUS"); (ICB_M_ERROR, str "ICB_M_ERROR");
   (ICB_M_IMPORTANT, str "ICB_M_IMPORTANT"); (ICB_M_EXIT, str "ICB_M_EXIT"); (ICB_M_CMDOUT, str "ICB_M_CMDOUT");
   (ICB_M_PROTO, str "ICB_M_PROTO"); (ICB_M_BEEP, str "ICB_M_BEEP"); (ICB_M_PING, str "ICB_M_PING")].

Definition dispatch_login (n : Z) (pkt : cstring) : M st unit :=
  if MAX_REAL_USERS <=? n then
    senderror n (str "ICB is full.") ;; sendexit n ;; emit (EvDisconnect n)
  else
    r <- loginmsg n pkt ;;
    when (r <? 0) (
      sendexit n ;;
      k <- int_at S_kill n ;;
      set_int S_kill set_S_kill n (k + 1)).

(** [pkt] is the packet after its length byte; the type of an empty one is NUL,
    which also ends the text of the error. *)
Definition dispatch (n : Z) (pkt : cstring) : M st unit :=
  match pkt with
  | [] => senderror n (itoa n ++ str ": Invalid packet type " ++ [x22])
  | c :: pkt' =>
      if Byte.eqb c ICB_M_LOGIN then dispatch_login n pkt'
      else if Byte.eqb c ICB_M_OPEN then openmsg n pkt'
      else if Byte.eqb c ICB_M_COMMAND then handle_command n pkt'
      else if Byte.eqb c ICB_M_PONG then pong n
      else if Byte.eqb c ICB_M_NOOP then ret tt
      else
        match List.find (λ p, Byte.eqb c (fst p)) refused_types with
        | Some (_, name) => senderror n (str "Server doesn't handle " ++ name ++ str " packets")
        | None => senderror n (itoa n ++ str ": Invalid packet type " ++ [x22; c; x22] ++ str " (" ++ pkt ++ str ")")
        end
  end.

Definition s_packet (x : Z) (pkt : cstring) : M st unit := dispatch x (tail pkt).
End msgs.

(** ** The knot

    A private message to the resident user is a command in turn.  Each command
    that is nested in this way is shorter than the message around it, so that
    a depth of [MAX_PKT_LEN] is enough; deeper ones would be undefined. *)
Fixpoint commands `{BuildConfig} `{Host} (depth : nat) : Commands :=
  {| cmdmsg := match depth with O => λ _ _, ub | S d => @handle_command _ _ (commands d) end |}.

Definition icb_commands `{BuildConfig} `{Host} : Commands := commands MAX_PKT_LEN.

(** ** Before the login *)

Section before.
Context `{BuildConfig} `{Host} `{Commands}.
Implicit Types s : st.

Lemma told_cmd_error n t s : arrays_sized s → ∃ s', senderror n t s = Some (tt, s') ∧ told n s s'.
Proof. intros Hs. apply wp_run_unit, wp_told_error; [apply told_refl|done]. Qed.

Lemma told_same n s : ∃ s', @ret st unit tt s = Some (tt, s') ∧ told n s s'.
Proof. exists s. split; [done|apply told_refl]. Qed.
End before.

(** The packets on which, before the login, [fields[0]] of an earlier packet is
    shown: commands, and open messages when the log takes the message. *)
Definition shows_stale `{Host} (pkt : cstring) (s : st) : bool :=
  starts_with ICB_M_COMMAND pkt || starts_with ICB_M_OPEN pkt && (MSG_INFO <=? log_level (glob s)) && log_is_open s.



(** ** Open messages *)

(** Whether the group of a user carries the user's open messages. *)
Definition carries (n : Z) (u : user) (g : group) (ut : list user) : bool :=
  negb (g_volume g =? QUIET) && ((negb (g_control g =? CONTROLLED)) || (g_mod g =? n) || may_talk u g) &&
  (2 <=? count_users_in_group (g_name g) ut).

(** A message that is carried goes to the group. *)
Lemma open_carried_run `{BuildConfig} `{Host} `{Commands} n u g text (s : st) :
  entry_at n (u_tab s) = Some u → entry_at (find_group (u_group u) (g_tab s)) (g_tab s) = Some g →
  carries n u g (u_tab s) = true → open_to_group n text s = (_ <- s_send_group n text ;; ret tt)%icb s.
Proof.
  intros A2 A3. unfold carries, open_to_group. erewrite bind_runs by (by apply user_at_run). erewrite bind_runs by reflexivity.
  erewrite bind_runs by (by apply group_at_run).
  intros ((Hv & Hc)%andb_true_iff & Hk)%andb_true_iff. apply negb_true_iff in Hv. rewrite Hv.
  destruct ((g_control g =? CONTROLLED) && negb (g_mod g =? n) && negb (may_talk u g)) eqn:E.
  { apply andb_true_iff in E as [[E1 E2%negb_true_iff]%andb_true_iff E3%negb_true_iff]. by rewrite E1, E2, E3 in Hc. }
  erewrite bind_runs by reflexivity. apply Z.leb_le in Hk. destruct (Z.ltb_spec (count_users_in_group (g_name g) (u_tab s)) 2); [lia|done].
Qed.

(** A controlled group without a moderator, in which the user may not talk. *)
Definition asks_nobody (u : user) (g : group) : bool :=
  negb (g_volume g =? QUIET) && (g_control g =? CONTROLLED) && (g_mod g =? -1) && negb (may_talk u g).

(** C19: an open message goes to the group exactly when the group is not quiet,
    the sender may talk in it (always, but in a controlled group, where only the
    moderator and those on its talk lists may) and somebody else is there; it
    is then [s_send_group] of the text.  Otherwise only the sender gets a
    message, except that in a controlled group without a moderator, where the
    sender may not talk, the user table is read at index -1. *)
Theorem open_message_carried `{BuildConfig} `{Host} `{Commands} n u g text (s : st) :
  world s → entry_at n (u_tab s) = Some u → entry_at (find_group (u_group u) (g_tab s)) (g_tab s) = Some g →
  if carries n u g (u_tab s) then open_to_group n text s = (_ <- s_send_group n text ;; ret tt)%icb s
  else if asks_nobody u g then open_to_group n text s = None
  else ∃ s', open_to_group n text s = Some (tt, s') ∧ told n s s'.
Proof.
  intros [A1 At] A2 A3. destruct (carries n u g (u_tab s)) eqn:Hc; [by apply (open_carried_run n u g)|].
  assert (0 ≤ n) as Hn by (apply entry_at_lookup in A2; tauto).
  revert Hc. unfold carries, asks_nobody, open_to_group. erewrite bind_runs by (by apply user_at_run).
  erewrite bind_runs by reflexivity. erewrite bind_runs by (by apply group_at_run).
  destruct (g_volume g =? QUIET) eqn:Ev; [intros _; by apply told_cmd_error|]. cbn [negb andb].
  destruct (g_control g =? CONTROLLED) eqn:Ec; cbn [negb andb orb].
  2:{ intros Hk. erewrite bind_runs by reflexivity. apply Z.leb_gt in Hk.
      destruct (Z.ltb_spec (count_users_in_group (g_name g) (u_tab s)) 2); [by apply told_cmd_error|lia]. }
  destruct (Z.eqb_spec (g_mod g) n) as [En|En], (may_talk u g) eqn:Et; cbn [negb andb orb]; rewrite ?andb_false_r.
  1-3: intros Hk; apply Z.leb_gt in Hk; try (destruct (Z.eqb_spec (g_mod g) (-1)); [lia|]); cbn [andb];
    erewrite bind_runs by reflexivity;
    destruct (Z.ltb_spec (count_users_in_group (g_name g) (u_tab s)) 2); [by apply told_cmd_error|lia].
  intros _. destruct (Z.eqb_spec (g_mod g) (-1)) as [Em|Em]; cbn [andb].
  - rewrite Em. erewrite bind_runs by (by apply senderror_run). done.
  - apply wp_run_unit, wp_bind. eapply wp_mono; [apply wp_told_error; [apply told_refl|done]|]. intros ? s1 (es & -> & Hes).
    destruct (t_mod _ _ _ At _ _ A3). destruct (proj2 (entry_at_range (u_tab s) (g_mod g))) as [um Hum].
    { destruct A1 as [-> _]. lia. }
    apply wp_bind. eapply wp_user_at; [done|]. unfold wp. rewrite sendstatus_run by done. etransitivity; [by exists es|].
    eexists. split; [done|]. unfold status_log. rewrite !Forall_app. split; [apply filter_for|]. split; [apply filter_for|apply deliver_for].
Qed.

Lemma open_message_carried_witness :
  @open_to_group demo_build demo_commands 1 (str "hi") demo_state =
  (_ <- @s_send_group demo_build demo_commands 1 (str "hi") ;; ret tt)%icb demo_state.
Proof.
  pose proof (@open_message_carried demo_build demo_host demo_commands 1 (demo_user "bob" "Lobby") (demo_group "Lobby" MODERATED 0)
    (str "hi") demo_state demo_world eq_refl eq_refl) as Hc. exact Hc.
Defined.
