(* ===== verification/Login.v ===== *)
(** * Logging in: the whole path

    The checks of [loginmsg] and what a login does to the tables, composed from
    the results on the account database, the nicknames and the groups. *)

From Stdlib Require Import ZArith Lia String.
From S2P Require Import Config Prelude Utf8 StrUtil Wildmat NameList Lookup CLib Monad Dbm IcbDb State Tables Send GroupCast World Access GroupChange GroupMod GroupStatus Lifecycle UserCmd Who Info Admin Auto Msgs.

Local Open Scope Z_scope.
Local Open Scope icb_monad_scope.

(** ** The checks *)

Lemma perm2val_nonneg s p : perm2val s = Some p → 0 ≤ p.
Proof.
  unfold perm2val. assert (∀ ts acc, 0 ≤ acc → 0 ≤ foldl (λ perm cp, Z.lor perm (perm_bit cp)) acc ts) as Hf.
  { induction ts as [|t ts IH]; intros acc Ha; simpl; [done|]. apply IH. apply Z.lor_nonneg. split; [done|].
    unfold perm_bit. repeat case_if; done. }
  destruct (perm_tokens _ _) as [|t ts]; [done|]. intros [= <-]. by apply (Hf (t :: ts)).
Qed.

Section checks.
Context `{BuildConfig} `{Host} `{Commands}.
Implicit Types s : st.

Lemma scan_perms_nonneg login nodeid addr lines p : scan_perms login nodeid addr lines = Some p → 0 ≤ p.
Proof.
  revert p. induction lines as [|l lines IH]; intros p; cbn [scan_perms]; [by intros [= <-]|].
  destruct (before_nul l) as [|c t]; [apply IH|]. case_if; [apply IH|].
  destruct (perm_line (c :: t)) as [[[[ty a1] a2] pm]|]; [|apply IH].
  case_if; [case_if; [apply perm2val_nonneg|apply IH]|]. case_if; [|apply IH].
  destruct addr; [|apply IH]. case_if; [apply perm2val_nonneg|apply IH].
Qed.

Definition login_address (f0 nodeid : cstring) : cstring := ucaseit (f0 ++ str "@" ++ nodeid).

(** The permission and the deny file can be evaluated for this login. *)
Definition files_ok (n : Z) (f0 nodeid : cstring) : Prop :=
  (∀ addr bytes, peer_ipv4 n = Some addr → text_file PERM_FILE = Some bytes →
     is_Some (scan_perms f0 nodeid addr (fgets_lines bytes [] (BUFSIZ - 1)))) ∧
  (∀ bytes, text_file ACCESS_FILE = Some bytes → is_Some (deny_loop (login_address f0 nodeid) bytes [])).

(** What a login that passes the checks satisfies. *)
Record acceptable (f0 f1 nodeid : cstring) (perms : Z) (ut : list user) : Prop := {
  ac_free : find_user f1 ut < 0;
  ac_nick : f1 ≠ [] ∧ (length f1 ≤ MAX_NICKLEN)%nat;
  ac_id : f0 ≠ [] ∧ (length f0 ≤ MAX_IDLEN)%nat ∧ forallb is_alnum f0 = true;
  ac_perms : 0 ≤ perms ∧ Z.land perms PERM_DENY = 0;
  ac_denied : ∀ bytes, text_file ACCESS_FILE = Some bytes → deny_loop (login_address f0 nodeid) bytes [] = Some None
}.

Lemma wp_get_perms n f0 u s :
  arrays_sized s → entry_at n (u_tab s) = Some u → files_ok n f0 (u_nodeid u) →
  wp (get_perms n f0) (λ p s', told n s s' ∧ -1 ≤ p) s.
Proof.
  intros Hs Hu [Hp _]. unfold get_perms. destruct (peer_ipv4 n) as [addr|] eqn:Ea.
  - destruct (text_file PERM_FILE) as [bytes|] eqn:Ef; [|apply wp_ret; split; [apply told_refl|done]].
    apply wp_bind. eapply wp_user_at; [done|]. destruct (Hp addr bytes eq_refl eq_refl) as [p Ep].
    eapply wp_lift; [done|]. split; [apply told_refl|]. apply scan_perms_nonneg in Ep. lia.
  - apply wp_bind. eapply wp_mono; [apply wp_told_error; [apply told_refl|done]|]. intros ? s' Ht. by apply wp_ret.
Qed.

Lemma wp_denied n one s :
  arrays_sized s → (∀ bytes, text_file ACCESS_FILE = Some bytes → is_Some (deny_loop one bytes [])) →
  wp (denied n one) (λ b s', told n s s' ∧
    (b = false → ∀ bytes, text_file ACCESS_FILE = Some bytes → deny_loop one bytes [] = Some None)) s.
Proof.
  intros Hs Hd. unfold denied. destruct (text_file ACCESS_FILE) as [bytes|] eqn:Ef; [|apply wp_ret; split; [apply told_refl|done]].
  destruct (Hd bytes eq_refl) as [d Ed]. apply wp_bind. eapply wp_lift; [done|]. destruct d as [two|].
  - apply wp_bind. eapply wp_mono; [apply wp_told_error; [apply told_refl|done]|]. intros ? s1 Hs1. apply wp_bind.
    eapply wp_mono; [apply (wp_told_error n _ _ s); [done|by apply (told_sized n s)]|]. intros ? s2 Hs2. by apply wp_ret.
  - apply wp_ret. split; [apply told_refl|]. by intros _ b [= <-].
Qed.

Lemma wp_login_checks n f0 f1 u s :
  arrays_sized s → entry_at n (u_tab s) = Some u → files_ok n f0 (u_nodeid u) →
  wp (login_checks n f0 f1) (λ c s', told n s s' ∧
    match c with inl r => r = -1 | inr perms => acceptable f0 f1 (u_nodeid u) perms (u_tab s) end) s.
Proof.
  intros Hs Hu Hf.
  assert (∀ t, wp (senderror n t ;; ret (inl (-1))) (λ c s', told n s s' ∧
    match c with inl r => r = -1 | inr perms => acceptable f0 f1 (u_nodeid u) perms (u_tab s) end) s) as Hrefuse.
  { intros t. apply wp_bind. eapply wp_mono; [apply wp_told_error; [apply told_refl|done]|]. intros ? s1 Hs1. by apply wp_ret. }
  unfold login_checks. apply wp_bind, wp_gets. destruct (Z.leb_spec 0 (find_user f1 (u_tab s))) as [|Hfree]; [apply Hrefuse|].
  destruct ((length f1 =? 0)%nat || (MAX_NICKLEN <? length f1)%nat) eqn:E1; [apply Hrefuse|].
  destruct ((length f0 =? 0)%nat || (MAX_IDLEN <? length f0)%nat) eqn:E0; [apply Hrefuse|].
  destruct (negb (forallb is_alnum f0)) eqn:Ealn; [apply Hrefuse|].
  apply orb_false_iff in E1 as [E1%Nat.eqb_neq E1'%Nat.ltb_ge], E0 as [E0%Nat.eqb_neq E0'%Nat.ltb_ge]. apply negb_false_iff in Ealn.
  apply wp_bind. eapply wp_mono; [by eapply wp_get_perms|]. intros perms s1 [(es & -> & Hes) Hp].
  destruct (Z.ltb_spec perms 0); [apply wp_ret; split; [by exists es|lia]|].
  destruct (Z.eqb_spec (Z.land perms PERM_DENY) 0) as [Hnd|]; cbn [negb].
  2:{ apply wp_bind. eapply wp_mono; [apply (wp_told_error n _ _ s); [by exists es|done]|]. intros ? s1 Hs1. by apply wp_ret. }
  apply wp_bind. eapply (wp_mono _ (λ _, told n s)).
  { apply wp_when; intros _; [|by exists es]. unfold wp. rewrite sendstatus_run by done. etransitivity; [by exists es|].
    eexists. split; [done|]. unfold status_log. rewrite !Forall_app. split; [apply filter_for|]. split; [apply filter_for|apply deliver_for]. }
  intros ? s2 (es2 & -> & Hes2). apply wp_bind. eapply wp_user_at; [done|]. apply wp_bind.
  eapply wp_mono; [apply (wp_denied n _ (log es2 s)); [done|apply Hf]|]. intros d s3 [Ht3 Hd]. apply wp_ret.
  split; [etransitivity; [|exact Ht3]; by exists es2|]. destruct d; [done|]. split; [done| | |by split|by apply Hd].
  - split; [by destruct f1|lia].
  - split; [by destruct f0|]. split; [lia|done].
Qed.
End checks.

(** ** What a login does *)

(** The message of the day, with the database open or not. *)
Lemma acc_motd `{BuildConfig} `{Host} `{Commands} n bytes temp f nb es Q (s s1 : st) :
  env_ok host_db → acc_to f nb es s s1 → arrays_sized s → all_short f →
  (∀ es' s2, acc_to f nb es' s s2 → Q tt s2) → wp (motd_loop n bytes temp) Q s1.
Proof.
  intros HE Ha Hs Hf HQ. remember (length bytes) as k eqn:Ek. assert (length bytes ≤ k)%nat as Hk by lia. clear Ek.
  revert bytes temp es s1 Hk Ha. induction k as [|k IH]; intros [|c bytes] temp es s1 Hk Ha; cbn [motd_loop]; try (simpl in Hk; lia);
    try (by eapply HQ). simpl in Hk. case_if.
  - destruct bytes as [|c' bytes]; [by eapply HQ|]. simpl in Hk. case_if; [|eapply IH; [lia|done]].
    apply wp_bind. eapply (acc_get_str HE); [done|intros v; apply Hf|]. intros s2 A2. eapply IH; [lia|done].
  - case_if; [|eapply IH; [lia|done]]. apply wp_bind. eapply acc_cmdout; [done|done|]. intros s2 A2. eapply IH; [lia|done].
Qed.

Lemma tab_entry {A} n (u' : A) l l' :
  length l' = length l → (∀ m, m ≠ n → entry_at m l' = entry_at m l) → entry_at n l' = Some u' → l' = entry_set n u' l.
Proof.
  intros Hl Ho Hn. apply list_eq. intros i. rewrite <-!entry_at_nat. destruct (decide (Z.of_nat i = n)) as [->|Hne].
  - rewrite Hn, entry_set_at; [done|]. apply entry_at_range. rewrite <-Hl. apply entry_at_range. by rewrite Hn.
  - rewrite entry_set_ne by done. by apply Ho.
Qed.

Section enter.
Context `{BuildConfig} `{Host} `{Commands}.
Context (HE : env_ok host_db).
Implicit Types s : st.

(** Only the entry of user [n] may differ, in the password and the mark of
    registration, and groups that waited for their moderator may be given back. *)
Record settling (n : Z) (u : user) (s s' : st) : Prop := {
  se_world : world s';
  se_user : ∃ u', u_tab s' = entry_set n u' (u_tab s) ∧ retouched u u';
  se_groups : ∀ j g', entry_at j (g_tab s') = Some g' → ∃ g, entry_at j (g_tab s) = Some g ∧ (g' = g ∨ g' = regained n g)
}.

Lemma settling_acc n u f nb es s s' :
  world s → entry_at n (u_tab s) = Some u → acc_to f nb es s s' → settling n u s s'.
Proof.
  intros Hw Hu Ha. pose proof (acc_fields _ _ _ _ _ Ha) as (Eu & Eg & _). split; [by eapply acc_world| |].
  - exists u. split; [by rewrite entry_set_same|apply retouched_refl].
  - rewrite Eg. eauto.
Qed.

Lemma settling_settled n u r s s' :
  world s → entry_at n (u_tab s) = Some u → settled n u r s s' → settling n u s s'.
Proof.
  intros [Hs _] Hu (gt & f' & nb' & es' & Ha & Ht & Hg). pose proof (acc_fields _ _ _ _ _ Ha) as (Eu & Eg & _ & Hs').
  cbn [u_tab g_tab set_u_tab set_g_tab] in Eu, Eg. split.
  - split; [|by rewrite Eu, Eg]. apply Hs'. destruct Hs as (?&?&?&?&?). unfold arrays_sized. simpl. by rewrite length_entry_set.
  - exists (known_as r u). split; [done|]. unfold known_as. repeat case_if; [done| |done]. apply retouched_refl.
  - rewrite Eg. destruct (r =? 0); [|rewrite Hg; eauto]. intros j g' Hj.
    destruct (given_back_inv _ _ _ _ _ _ _ Hg Hj) as (g & Hj0 & [->|[_ ->]]); eauto.
Qed.

Lemma settling_auth n u pw f s r s' :
  world s → entry_at n (u_tab s) = Some u → auth_result n u pw true f s r s' → settling n u s s'.
Proof.
  intros [[El _] _] Hu (Hw' & Ho & u' & f' & nb' & Hu' & _ & _ & Hre & Hc). split; [done| |].
  - exists u'. split; [|done]. apply tab_entry; [|done|done]. destruct Hw' as [[-> _] _]. by rewrite El.
  - destruct (until_nul <$> f _) as [v|].
    + case_decide; [|destruct Hc as (_ & _ & _ & ->); eauto]. destruct Hc as (_ & _ & _ & _ & Hg).
      intros j g' Hj. destruct (given_back_inv _ _ _ _ _ _ _ Hg Hj) as (g & Hj0 & [->|[_ ->]]); eauto.
    + destruct Hc as [-> _]. eauto.
Qed.

Lemma settling_told n u s s' s'' : settling n u s s' → told n s' s'' → settling n u s s''.
Proof. intros [? ? ?] (es & -> & _). by split. Qed.

Lemma wp_login_prove n u f nb es s s1 :
  acc_to f nb es s s1 → world s → nb ≤ 2 ^ 26 → all_short f → entry_at n (u_tab s) = Some u → u_nickname u ≠ [] →
  (length (u_nickname u) ≤ MAX_NICKLEN)%nat →
  wp (login_prove n) (λ r s', settling n u s s' ∧
    (r = -2 ∨ r = 0 ∧ ∃ u', entry_at n (u_tab s') = Some u' ∧ u_realname u' = str "registered")) s1.
Proof.
  intros Ha Hw Hnb Hf Hu Hne Hl. pose proof Hw as [Hs Ht]. pose proof (acc_fields _ _ _ _ _ Ha) as (Eu & Eg & _).
  unfold login_prove. apply wp_bind. eapply acc_user; [done|done|]. apply wp_bind.
  destruct (u_password u) as [|p0 ps] eqn:Epw; cbn [is_empty negb].
  { apply wp_ret. cbn [Z.eqb]. apply wp_bind. eapply wp_tell_unproved; [done|done|done|]. intros es2 s2 A2.
    apply wp_ret. split; [by eapply settling_acc|by left]. }
  assert (world s1) as Hw1 by (by eapply acc_world). rewrite <-Eu in Hu.
  eapply wp_mono; [eapply (wp_nickwrite HE n u (p0 :: ps) true f nb s1); [done|by eapply acc_ready|done|done|done|done| |done]|].
  { unfold nick_ok. change MAX_NICKLEN with 12%nat in Hl. lia. }
  intros r s2 Hres. pose proof (settling_auth n u _ f s1 r s2 Hw1 Hu Hres) as Hse1.
  assert (settling n u s s2) as Hse.
  { destruct Hse1 as [? ? Hg]. split; [done|by rewrite <-Eu|]. intros j g' Hj. destruct (Hg j g' Hj) as (g & Hj0 & ?). rewrite <-Eg. eauto. }
  destruct Hres as (Hw2 & _ & u' & f' & nb' & Hu' & Hr' & _ & _ & Hc).
  destruct (Z.eqb_spec r 0) as [->|Hr0].
  - apply wp_ret. split; [done|]. right. split; [done|]. exists u'. split; [done|].
    destruct (until_nul <$> f _) as [v|]; [case_decide; by destruct Hc as (? & ? & ?)|]. by destruct Hc as (_ & ? & _).
  - apply wp_bind. eapply (wp_tell_unproved n u' f' nb'); [by apply acc_start|apply Hw2|done|]. intros es3 s3 A3. apply wp_ret.
    split; [|by left]. pose proof (acc_fields _ _ _ _ _ A3) as (Eu3 & Eg3 & _). destruct Hse as [? ? ?].
    split; [by eapply acc_world|by rewrite Eu3|by rewrite Eg3].
Qed.

Lemma wp_login_standing n u f nb es s s1 :
  acc_to f nb es s s1 → world s → nb ≤ 2 ^ 26 → all_short f → 0 < n → entry_at n (u_tab s) = Some u → u_nickname u ≠ [] →
  (length (u_nickname u) ≤ MAX_NICKLEN)%nat → wp (login_standing n) (λ _, settling n u s) s1.
Proof.
  intros Ha Hw Hnb Hf Hn Hu Hne Hl. pose proof Hw as [Hs _]. unfold login_standing. apply wp_bind. eapply acc_user; [done|done|].
  apply wp_bind. eapply (wp_nicklookup_auth n _ u f nb es); [done..|]. intros s2 A2. set (r := standing _ _ _).
  apply wp_bind. destruct (Z.eqb_spec r (-2)) as [Er|Hr].
  - eapply wp_mono; [by eapply (wp_login_prove n u f nb es s s2)|]. intros r' s3 [Hse [->|(-> & u' & Hu' & Ereg)]]; cbn [Z.eqb Pos.eqb].
    + by apply wp_ret.
    + apply wp_bind. eapply wp_user_at; [done|]. rewrite Ereg. by apply wp_ret.
  - apply wp_ret. destruct (Z.eqb_spec r 0) as [E0|Hr0].
    + apply wp_bind. eapply acc_user; [done|done|]. apply wp_when; intros _; [|by eapply settling_acc].
      eapply wp_mono; [by eapply (wp_recognise HE n u f nb es s s2)|]. intros ? s3 Hse. exact (settling_settled n u 0 s s3 Hw Hu Hse).
    + destruct (Z.eqb_spec r (-2)); [done|]. cbn [negb when]. apply wp_bind. eapply acc_sendstatus; [done|done|]. intros s3 A3.
      eapply acc_sendstatus; [done|done|]. intros s4 A4. by eapply settling_acc.
Qed.
End enter.

Section arrive.
Context `{BuildConfig} `{Host} `{Commands}.
Context (HE : env_ok host_db).
Implicit Types s : st.

Lemma wp_tell_invitations n u s :
  world s → patterns_ok (u_tab s) (g_tab s) → entry_at n (u_tab s) = Some u → wp (tell_invitations n) (λ _, told n s) s.
Proof.
  intros [Hs Ht] [_ Hp] Hu. unfold tell_invitations. apply wp_bind. eapply wp_user_at; [done|].
  apply (wp_for_zseq (λ _, told n s)); [lia|apply told_refl|]. intros i s1 Hi (es & -> & Hes).
  destruct (proj2 (entry_at_range (g_tab s) i)) as [g Hg]; [rewrite (t_groups _ _ _ Ht); lia|].
  apply wp_bind. eapply wp_group_at; [done|]. apply wp_bind. unfold wp at 1. rewrite invited_run by (by eapply Hp).
  apply wp_when; intros _; [|by exists es]. apply (wp_told_cmdout n _ _ s); [by exists es|done].
Qed.

Lemma wp_tell_talks n u s :
  world s → entry_at n (u_tab s) = Some u → wp (for_each (zseq (Z.of_nat MAX_GROUPS)) (talk_report n)) (λ _, told n s) s.
Proof.
  intros [Hs Ht] Hu. apply (wp_for_zseq (λ _, told n s)); [lia|apply told_refl|]. intros i s1 Hi (es & -> & Hes).
  destruct (proj2 (entry_at_range (g_tab s) i)) as [g Hg]; [rewrite (t_groups _ _ _ Ht); lia|]. unfold talk_report.
  apply wp_bind. eapply wp_user_at; [done|]. apply wp_bind. eapply wp_group_at; [done|].
  apply wp_when; intros _; [|by exists es]. apply (wp_told_cmdout n _ _ s); [by exists es|done].
Qed.

Lemma wp_notify_on n u s :
  world s → (∀ j v, j ≠ n → entry_at j (u_tab s) = Some v → searchable (u_n_notifies v) ∧ searchable (u_s_notifies v)) →
  entry_at n (u_tab s) = Some u → u_group u ≠ [] → wp (notify_on n) (λ _ s', ∃ es, s' = log es s) s.
Proof.
  intros [Hs Ht] Hno Hu Hg. destruct (find_home _ _ _ _ _ Ht Hu Hg) as (g & Hgi & _). unfold notify_on.
  apply wp_bind. eapply wp_user_at; [done|]. apply wp_logs; [lia|]. intros j es Hj.
  destruct (proj2 (entry_at_range (u_tab s) j)) as [uj Huj]; [destruct Hs as [-> _]; lia|].
  apply wp_bind. eapply wp_user_at; [done|]. apply wp_when; [|by eexists]. intros [Hne%negb_true_iff _]%andb_true_iff.
  apply Z.eqb_neq in Hne. destruct (Hno j uj) as [Hn1 Hn2]; [congruence|done|].
  destruct (Hn1 (ucaseit (u_nickname u))) as [a Ea], (Hn2 (user_address u)) as [b Eb].
  apply wp_bind. eapply wp_lift; [done|]. apply wp_bind.
  eapply (wp_mono _ (λ _ s', s' = log es s)); [destruct a; [done|by eapply wp_lift]|]. intros c s1 ->.
  apply wp_when; [|by eexists]. intros _. apply wp_bind, wp_gets, wp_bind. eapply wp_group_at; [done|].
  apply wp_when; [|by eexists]. intros _. apply wp_sendstatus; [done|]. intros es1. rewrite log_log. by eexists.
Qed.

(** The outcome of a login that has passed the checks: refused, with the user
    in no group, or complete. *)
Definition login_outcome (n : Z) (nick name : cstring) (s : st) (r : Z) (s' : st) : Prop :=
  world s' ∧ ∃ u', u_tab s' = entry_set n u' (u_tab s) ∧ u_nickname u' = nick ∧
    ((r = -1 ∧ u_group u' = [] ∧ u_login u' ≠ LOGIN_COMPLETE) ∨
     (r = 0 ∧ u_login u' = LOGIN_COMPLETE ∧ casefold (u_group u') = casefold name)).

(** The last part: joining the group and telling the others. *)
Lemma wp_join n u wg s :
  world s → patterns_ok (u_tab s) (g_tab s) → entry_at n (u_tab s) = Some u →
  (∀ j v, j ≠ n → entry_at j (u_tab s) = Some v → searchable (u_n_notifies v) ∧ searchable (u_s_notifies v)) →
  u_group u = [] → u_login u = LOGIN_PENDING → starts_with "@" wg = false →
  wp (r <- s_change n 3 wg ;;
      if r <? 0 then ret (-1)
      else upd_user n (set_u_login LOGIN_COMPLETE) ;; bump more_signons ;; notify_on n ;; ret 0)
    (login_outcome n (u_nickname u) (filtergroupname (requested_group wg).1) s) s.
Proof.
  intros Hw Hp Hu Hno Hgr Hlog Hat. set (name := filtergroupname _). apply wp_bind.
  change (s_change n 3 wg) with (s_change_to 1 n wg true). eapply wp_mono; [by apply (wp_change_plain 1 n u wg true)|]. fold name.
  intros r s1 (Hw1 & _ & [(-> & Eu & _)|(-> & _ & Hne & u1 & Eu & Eg & En)]); cbn [Z.ltb Z.compare].
  { apply wp_ret. split; [done|]. exists u. split; [by rewrite Eu, entry_set_same|]. split; [done|]. left.
    split; [done|]. split; [done|]. by rewrite Hlog. }
  assert (entry_at n (u_tab s1) = Some u1) as Hu1 by (rewrite Eu; apply entry_set_at; by rewrite Hu).
  apply wp_bind. eapply wp_upd_user; [done|]. set (u2 := set_u_login LOGIN_COMPLETE u1).
  assert (world (set_u_tab (entry_set n u2 (u_tab s1)) s1)) as Hw2 by (by eapply world_upd_user).
  apply wp_bind, wp_modify, wp_bind. eapply wp_mono; [apply (wp_notify_on n u2)|].
  - exact Hw2.
  - intros j v Hj. cbn [u_tab set_u_tab set_stats]. rewrite entry_set_ne, Eu, entry_set_ne by done. by apply Hno.
  - apply entry_set_at. by rewrite Hu1.
  - cbn. intros E. rewrite E, Hgr in *. by destruct Hne.
  - intros ? s3 (es & ->). apply wp_ret. split; [exact Hw2|]. exists u2. cbn. rewrite Eu, entry_set_twice.
    split; [done|]. split; [done|]. by right.
Qed.

(** The entry of a user as the packet of the login fills it. *)
Definition login_user (now : Z) (f0 nick : cstring) (password : option cstring) (perms : Z) (u : user) : user :=
  pending_user now (filled_user (Some f0) (Some (u_nodeid u)) (Some nick) password (Some []) (Some []) LOGIN_FALSE 0 0 perms u).

Lemma patterns_settling n u s s' :
  settling n u s s' → patterns_ok (u_tab s) (g_tab s) → searchable (u_pri_s_hushed u) → searchable (u_pri_n_hushed u) →
  patterns_ok (u_tab s') (g_tab s').
Proof.
  intros [_ (u' & Eu & Hre) Hg] [Hp1 Hp2] H1' H2'. split.
  - rewrite Eu. intros i v [(-> & -> & _)|[_ Hv]]%entry_set_inv; [|by eapply Hp1]. rewrite Hre. by split.
  - intros j g' Hj. destruct (Hg j g' Hj) as (g & Hj0 & [->| ->]); exact (Hp2 j g Hj0).
Qed.

Lemma wp_send_loginok n Q s : arrays_sized s → (∀ es, Q tt (log es s)) → wp (send_loginok n) Q s.
Proof. intros Hs HQ. unfold wp, send_loginok. rewrite send_packet_run; [apply HQ|done|discriminate|discriminate]. Qed.

(** The part between the checks and the group, from the filled entry [u] on. *)
Lemma wp_login_greet n u now wg f nb es s s1 :
  acc_to f nb es s s1 → world s → nb ≤ 2 ^ 26 → all_short f → 0 < n → entry_at n (u_tab s) = Some u →
  u_nickname u ≠ [] → (length (u_nickname u) ≤ MAX_NICKLEN)%nat → u_group u = [] → starts_with "@" wg = false →
  patterns_ok (u_tab s) (g_tab s) → notifies_ok (u_tab s) →
  wp (upd_user n (pending_user now) ;;
      u <- user_at n ;;
      sends_cmdout n (str "Welcome to ICB " ++ u_nickname u) ;;
      login_standing n ;;
      tell_invitations n ;;
      u <- user_at n ;;
      when (negb (streq (u_realname u) (str "registered"))) (for_each (zseq (Z.of_nat MAX_GROUPS)) (talk_report n)) ;;
      r <- s_change n 3 wg ;;
      if r <? 0 then ret (-1)
      else upd_user n (set_u_login LOGIN_COMPLETE) ;; bump more_signons ;; notify_on n ;; ret 0)
    (login_outcome n (u_nickname u) (filtergroupname (requested_group wg).1) s) s1.
Proof.
  intros Ha Hw Hnb Hf Hn Hu Hne Hl Hgr Hat Hp Hno. pose proof Hw as [Hs Ht].
  set (u2 := pending_user now u). set (sb := set_u_tab (entry_set n u2 (u_tab s)) s).
  assert (world sb) as Hwb by (by eapply world_upd_user).
  assert (entry_at n (u_tab sb) = Some u2) as Hub by (apply entry_set_at; by rewrite Hu).
  assert (patterns_ok (u_tab sb) (g_tab sb)) as Hpb.
  { destruct Hp as [Hp1 Hp2]. split; [|done]. intros i v [(-> & -> & _)|[_ Hv]]%entry_set_inv; [|by eapply Hp1].
    split; intros nm; by exists false. }
  apply wp_bind. eapply acc_upd_user; [done|done|]. intros s2 A2. fold u2 sb in A2. apply wp_bind. eapply acc_user; [done|done|].
  apply wp_bind. eapply acc_cmdout; [done|apply Hwb|]. intros s3 A3. apply wp_bind.
  eapply wp_mono; [by eapply (wp_login_standing HE n u2 f nb _ sb s3)|]. intros [] s4 Hse. pose proof Hse as [Hw4 (u4 & Eu4 & Hre) _].
  assert (entry_at n (u_tab s4) = Some u4) as Hu4 by (rewrite Eu4; apply entry_set_at; by rewrite Hub).
  assert (patterns_ok (u_tab s4) (g_tab s4)) as Hp4.
  { eapply patterns_settling; [done|done|intros nm; by exists false|intros nm; by exists false]. }
  apply wp_bind. eapply wp_mono; [by eapply wp_tell_invitations|]. intros ? s5 (es5 & -> & _).
  apply wp_bind. eapply wp_user_at; [done|]. apply wp_bind.
  eapply (wp_mono _ (λ _ s', ∃ es, s' = log es s4)).
  { apply wp_when; intros _; [|by exists es5]. eapply wp_mono; [by eapply (wp_tell_talks n u4 (log es5 s4))|].
    intros ? s6 (es6 & -> & _). rewrite log_log. by eexists. }
  intros ? s6 (es6 & ->). eapply wp_mono; [apply (wp_join n u4 wg (log es6 s4))|].
  - exact Hw4.
  - exact Hp4.
  - exact Hu4.
  - intros j v Hj. cbn [u_tab log set_events]. rewrite Eu4, entry_set_ne by done. cbn [u_tab sb set_u_tab].
    rewrite entry_set_ne by done. apply Hno.
  - by rewrite Hre.
  - by rewrite Hre.
  - done.
  - intros r s7 (Hw7 & u7 & Eu7 & En & Hc). split; [done|]. exists u7. cbn [u_tab log set_events] in Eu7.
    rewrite Eu4 in Eu7. cbn [u_tab sb set_u_tab] in Eu7. rewrite !entry_set_twice in Eu7. split; [done|]. split; [|done].
    by rewrite En, Hre.
Qed.

Lemma wp_login_enter n u now f0 f1 pw wg perms f nb s :
  world s → patterns_ok (u_tab s) (g_tab s) → notifies_ok (u_tab s) → db_ready f nb s → nb ≤ 2 ^ 26 → all_short f →
  0 < n → entry_at n (u_tab s) = Some u → u_group u = [] → f1 ≠ [] → (length f1 ≤ MAX_NICKLEN)%nat → starts_with "@" wg = false →
  wp (login_enter n now f0 f1 pw wg perms) (login_outcome n (filternickname f1) (filtergroupname (requested_group wg).1) s) s.
Proof.
  intros Hw Hp Hno Hr Hnb Hf Hn Hu Hgr Hne Hl Hat. pose proof Hw as [Hs Ht]. unfold login_enter.
  apply wp_bind. eapply wp_user_at; [done|]. apply wp_bind. eapply wp_upd_user; [done|]. set (u1 := filled_user _ _ _ _ _ _ _ _ _ _ u).
  set (s1 := set_u_tab (entry_set n u1 (u_tab s)) s).
  assert (entry_at n (u_tab s1) = Some u1) as Hu1 by (apply entry_set_at; by rewrite Hu).
  assert (u_nickname u1 = filternickname f1) as En.
  { cbn. apply take_ge. unfold filternickname. rewrite length_map. change MAX_NICKLEN with 12%nat in *. simpl. lia. }
  assert (world s1) as Hw1 by (eapply world_upd_user; [done|done|by rewrite Hgr]).
  apply wp_bind. unfold check_auth. apply wp_bind. eapply wp_user_at; [exact Hu1|]. apply wp_ret. case_if.
  { apply wp_bind, wp_senderror; [apply Hw1|]. intros es. apply wp_ret. split; [exact Hw1|]. exists u1. split; [done|]. split; [done|].
    left. by repeat split. }
  apply wp_bind, wp_send_loginok; [apply Hw1|]. intros es. apply wp_bind.
  eapply (wp_mono _ (λ _ s', ∃ es, acc_to f nb es s1 s')).
  { unfold s_motd. apply wp_bind. assert (acc_to f nb es s1 (log es s1)) as A1.
    { pose proof (acc_log f nb [] es s1 s1 (acc_start f nb s1 Hr)) as A. exact A. }
    destruct (text_file ICBDMOTD).
    - eapply acc_motd; [done|exact A1|apply Hw1|done|]. intros es' s2 A2. apply wp_ret. by exists es'.
    - eapply acc_senderror; [exact A1|apply Hw1|]. intros s2 A2. apply wp_ret. by eexists. }
  intros ? s2 (es2 & A2). apply wp_bind. unfold group_of_user. rewrite Hat. apply wp_ret. rewrite <-En.
  eapply wp_mono; [apply (wp_login_greet n u1 now wg f nb es2 s1 s2)|]; try done.
  - rewrite En. unfold filternickname. by destruct f1.
  - rewrite En. unfold filternickname. by rewrite length_map.
  - destruct Hp as [Hp1 Hp2]. split; [|done]. intros i v [(-> & -> & _)|[_ Hv]]%entry_set_inv; [|by eapply Hp1]. by apply (Hp1 n u).
  - intros i v [(-> & -> & _)|[_ Hv]]%entry_set_inv; [|by eapply Hno]. by apply (Hno n u).
  - intros r s3 (Hw3 & u3 & Eu3 & Hc). split; [done|]. exists u3. cbn [u_tab s1 set_u_tab] in Eu3. by rewrite entry_set_twice in Eu3.
Qed.
End arrive.


(** *** A login *)

Definition login_packet (id nick grp kind : String.string) : cstring :=
  str id ++ SEP ++ str nick ++ SEP ++ str grp ++ SEP ++ str kind.

(** A server with an account database in which slot 2 is free. *)
Definition login_state : st := set_userdb ready_db demo_state.


(** The nickname is compared with those in use before it is filtered: "a b" is
    free when "a_b" is in use, and becomes "a_b". *)
Definition nick_state : st := set_u_tab (entry_set 1 (demo_user "a_b" "Lobby") (u_tab login_state)) login_state.
Example login_takes_nickname_in_use :
  match @loginmsg demo_build demo_host demo_commands 2 (login_packet "dan" "a b" "Lobby" "login") nick_state with
  | Some (r, s') => r = 0 ∧ u_nickname <$> entry_at 1 (u_tab s') = Some (str "a_b") ∧ u_nickname <$> entry_at 2 (u_tab s') = Some (str "a_b")
  | None => False
  end.
Proof. vm_compute. repeat split. Qed.

(** The group of a user may be asked for by the user's nickname; one's own has
    been entered by then, without a group, and the group table is read at
    index -1. *)
Example login_own_group_undefined :
  @loginmsg demo_build demo_host demo_commands 2 (login_packet "dan" "dan" "@dan" "login") login_state = None ∧
  is_Some (@loginmsg demo_build demo_host demo_commands 2 (login_packet "dan" "dan" "@bob" "login") login_state).
Proof. vm_compute. split; [reflexivity|by eexists]. Qed.

(** A login without a password is defined as long as no packet had one: then
    the entry of the array of fields that is taken for it points to what an
    earlier packet has left. *)
Example login_with_stale_password :
  is_Some (@loginmsg demo_build demo_host demo_commands 2 (login_packet "dan" "dan" "Lobby" "login") login_state) ∧
  @loginmsg demo_build demo_host demo_commands 2 (login_packet "dan" "dan" "Lobby" "login") (set_fields_set 5 login_state) = None ∧
  is_Some (@loginmsg demo_build demo_host demo_commands 2 (login_packet "dan" "dan" "Lobby" "login" ++ SEP) (set_fields_set 5 login_state)).
Proof. vm_compute. split; [by eexists|]. split; [reflexivity|by eexists]. Qed.

(** Every word of the deny file counts as a pattern, the reasons included. *)
Example reason_denies :
  deny_loop (str "DAN@HOST") (str "root@localhost" ++ [TAB] ++ str ":for * reasons" ++ [NEWLINE]) [] =
  Some (Some (str "reasons")).
Proof. reflexivity. Qed.
