(* ===== verification/Typing.v ===== *)
(** * Every handler is well typed

    The declarations of server.h as an invariant: texts fit their arrays with
    the terminator, name lists their limits, states and switches are among their
    values, indices inside the tables; and whatever was handed to the packet
    server is a packet of legal size for a connection.  Every handler keeps it,
    on every path that completes, whatever the command line is. *)

From Stdlib Require Import ZArith Lia String.
From S2P Require Import Config Prelude Utf8 StrUtil Wildmat NameList Lookup CLib Monad Dbm IcbDb State Tables Send GroupCast World Access GroupChange GroupMod GroupStatus Lifecycle UserCmd Who Info Admin Auto Msgs.

Local Open Scope Z_scope.
Local Open Scope icb_monad_scope.

Create HintDb typed discriminated.
#[export] Hint Constants Opaque : typed.

(** ** The types *)

Definition fits {A} (l : list A) (max : nat) : Prop := (length l ≤ max)%nat.

Record user_ok (u : user) : Prop := {
  uo_loginid : fits (u_loginid u) MAX_IDLEN;
  uo_nodeid : fits (u_nodeid u) MAX_NODELEN;
  uo_nickname : fits (u_nickname u) MAX_NICKLEN;
  uo_password : fits (u_password u) MAX_PASSWDLEN;
  uo_realname : fits (u_realname u) MAX_REALLEN;
  uo_group : fits (u_group u) MAX_GROUPLEN;
  uo_awaymsg : fits (u_awaymsg u) MAX_AWAY_LEN;
  uo_login : LOGIN_FALSE ≤ u_login u ≤ LOGIN_COMPLETE;
  uo_echoback : 0 ≤ u_echoback u ≤ 2;
  uo_nobeep : 0 ≤ u_nobeep u ≤ 2;
  uo_pri_n : fits (u_pri_n_hushed u) MAX_HUSHED;
  uo_pub_n : fits (u_pub_n_hushed u) MAX_HUSHED;
  uo_pri_s : fits (u_pri_s_hushed u) MAX_HUSHED;
  uo_pub_s : fits (u_pub_s_hushed u) MAX_HUSHED;
  uo_n_notifies : fits (u_n_notifies u) MAX_NOTIFIES;
  uo_s_notifies : fits (u_s_notifies u) MAX_NOTIFIES
}.

Section typing.
Context `{BuildConfig}.

Definition slot (n : Z) : Prop := 0 ≤ n < Z.of_nat MAX_USERS.
Definition slot_or_none (n : Z) : Prop := -1 ≤ n < Z.of_nat MAX_USERS.

Record group_ok (g : group) : Prop := {
  go_name : fits (g_name g) MAX_GROUPLEN;
  go_topic : fits (g_topic g) MAX_TOPICLEN;
  go_visibility : VISIBLE ≤ g_visibility g ≤ SUPERSECRET;
  go_control : PUBLIC ≤ g_control g ≤ CONTROLLED;
  go_volume : QUIET ≤ g_volume g ≤ LOUD;
  go_mod : slot_or_none (g_mod g);
  go_missingmod : fits (g_missingmod g) MAX_NICKLEN;
  go_n_invites : fits (g_n_invites g) MAX_INVITES;
  go_nr_invites : fits (g_nr_invites g) MAX_INVITES;
  go_s_invites : fits (g_s_invites g) MAX_INVITES;
  go_sr_invites : fits (g_sr_invites g) MAX_INVITES;
  go_n_bars : fits (g_n_bars g) MAX_INVITES;
  go_n_nr_bars : fits (g_n_nr_bars g) MAX_INVITES;
  go_s_bars : fits (g_s_bars g) MAX_INVITES;
  go_s_nr_bars : fits (g_s_nr_bars g) MAX_INVITES;
  go_n_talk : fits (g_n_talk g) MAX_INVITES;
  go_nr_talk : fits (g_nr_talk g) MAX_INVITES;
  go_size : 0 ≤ g_size g ≤ MAX_REAL_USERS;
  go_idleboot : 0 ≤ g_idleboot g ≤ INT_MAX;
  go_idleboot_msg : fits (g_idleboot_msg g) (IDLEBOOT_MSG_LEN - 1);
  go_idlemod : 1 ≤ g_idlemod g ≤ MAX_IDLE_MOD
}.

(** A packet that is sent has a legal size and a connection to go to. *)
Definition event_ok (e : event) : Prop :=
  match e with
  | EvSend to pkt => 0 ≤ to < MAX_REAL_USERS ∧ (1 ≤ length pkt ≤ MAX_PKT_LEN - 2)%nat
  | _ => True
  end.

Definition array_ok (l : list Z) : Prop := length l = MAX_USERS.

Record well_typed (s : st) : Prop := {
  wt_users : length (u_tab s) = MAX_USERS;
  wt_groups : length (g_tab s) = MAX_GROUPS;
  wt_user : Forall user_ok (u_tab s);
  wt_group : Forall group_ok (g_tab s);
  wt_S_kill : array_ok (S_kill s);
  wt_lpriv : array_ok (lpriv_id s) ∧ Forall slot_or_none (lpriv_id s);
  wt_pong : array_ok (pong_req s) ∧ Forall slot_or_none (pong_req s);
  wt_ping : array_ok (ping_time s);
  wt_counts : array_ok (u_recv_count (glob s));
  wt_events : Forall event_ok (events s)
}.

(** The judgement of this file. *)
Definition typed {A} (P : A → Prop) (m : M st A) : Prop := yields well_typed P m.

Lemma forall_entry_set {A} (P : A → Prop) n x l : Forall P l → P x → Forall P (entry_set n x l).
Proof. intros Hl Hx. unfold entry_set. destruct (n <? 0); [done|]. by apply Forall_insert. Qed.

(** ** The accessors *)

Lemma ty_user_at n : typed (λ u, user_ok u ∧ slot n) (user_at n).
Proof.
  intros s u s' Hs. unfold user_at, bind, getS, lift. destruct (entry_at n (u_tab s)) as [v|] eqn:E; [|done].
  intros [= <- <-]. split; [done|]. split.
  - apply entry_at_lookup in E as [_ E]. eapply Forall_lookup_1; [apply Hs|done].
  - assert (is_Some (entry_at n (u_tab s))) as Hr%entry_at_range by eauto. by rewrite (wt_users _ Hs) in Hr.
Qed.

Lemma ty_group_at n : typed (λ g, group_ok g ∧ 0 ≤ n < Z.of_nat MAX_GROUPS) (group_at n).
Proof.
  intros s u s' Hs. unfold group_at, bind, getS, lift. destruct (entry_at n (g_tab s)) as [v|] eqn:E; [|done].
  intros [= <- <-]. split; [done|]. split.
  - apply entry_at_lookup in E as [_ E]. eapply Forall_lookup_1; [apply Hs|done].
  - assert (is_Some (entry_at n (g_tab s))) as Hr%entry_at_range by eauto. by rewrite (wt_groups _ Hs) in Hr.
Qed.

Lemma ty_upd_user n f : (∀ u, user_ok u → user_ok (f u)) → typed (λ _, slot n) (upd_user n f).
Proof.
  intros Hf. eapply yields_bind; [apply ty_user_at|]. intros u [Hu Hn]. apply yields_modify; [|done].
  intros s Hs. destruct Hs. split; try done; cbn.
  - by rewrite length_entry_set.
  - by apply forall_entry_set; [|apply Hf].
Qed.

Lemma ty_upd_group n f : (∀ g, group_ok g → group_ok (f g)) → typed (λ _, True) (upd_group n f).
Proof.
  intros Hf. eapply yields_bind; [apply ty_group_at|]. intros u [Hu _]. apply yields_modify; [|done].
  intros s Hs. destruct Hs. split; try done; cbn.
  - by rewrite length_entry_set.
  - by apply forall_entry_set; [|apply Hf].
Qed.

(** An update that only together with the next one keeps the types. *)
Lemma ty_upd_user_twice {A} (P : A → Prop) n f g (k : M st A) :
  (∀ u, user_ok u → user_ok (g (f u))) → typed P k → typed P (upd_user n f ;; upd_user n g ;; k).
Proof.
  intros Hfg Hk s a s' Hs. unfold upd_user at 1, bind at 1 2, user_at at 1, getS at 1, lift at 1, bind at 1.
  destruct (entry_at n (u_tab s)) as [u|] eqn:E; [|done]. unfold modify at 1.
  intros Hr. apply (yields_bind well_typed (λ _, slot n) P _ (λ _, k) (ty_upd_user n (λ u, g (f u)) Hfg) (λ _ _, Hk) s a s' Hs).
  unfold bind, upd_user, user_at, bind, getS, lift, modify in Hr |- *. rewrite E.
  cbn in Hr. rewrite entry_set_at in Hr by eauto. cbn in Hr. unfold set_u_tab in Hr |- *. cbn in Hr |- *.
  by rewrite entry_set_twice in Hr.
Qed.

Lemma ty_int_at a n : (∀ s, well_typed s → array_ok (a s)) → typed (λ _, slot n) (int_at a n).
Proof.
  intros Ha s u s' Hs. unfold int_at, bind, getS, lift. destruct (entry_at n (a s)) as [v|] eqn:E; [|done].
  intros [= <- <-]. split; [done|].
  assert (is_Some (entry_at n (a s))) as Hr%entry_at_range by eauto. by rewrite (Ha _ Hs) in Hr.
Qed.

Lemma ty_int_at_slot a n :
  (∀ s, well_typed s → Forall slot_or_none (a s)) → typed slot_or_none (int_at a n).
Proof.
  intros Ha s u s' Hs. unfold int_at, bind, getS, lift. destruct (entry_at n (a s)) as [v|] eqn:E; [|done].
  intros [= <- <-]. split; [done|]. apply entry_at_lookup in E as [_ E]. eapply Forall_lookup_1; [by apply Ha|done].
Qed.

Lemma ty_set_int a seta n v :
  (∀ s, well_typed s → well_typed (seta (entry_set n v (a s)) s)) → typed (λ _, True) (set_int a seta n v).
Proof.
  intros Hset. eapply (yields_bind well_typed (λ _, True)).
  - intros s x s' Hs. unfold int_at, bind, getS, lift. destruct (entry_at n (a s)); [|done]. by intros [= <- <-].
  - intros _ _. by apply yields_modify.
Qed.
End typing.

Notation ok := (typed (λ _, True)).

(** ** The rules, for the judgement *)

Section rules.
Context `{BuildConfig}.

Lemma ty_mono {A} (P Q : A → Prop) m : typed P m → (∀ a, P a → Q a) → typed Q m.
Proof. apply yields_mono. Qed.
Lemma ty_ret {A} (P : A → Prop) a : P a → typed P (ret a).
Proof. apply yields_ret. Qed.
Lemma ty_ret_eq {A} (a : A) : typed (eq a) (ret a).
Proof. apply yields_ret_eq. Qed.
Lemma ty_bind {A B} (P : A → Prop) (Q : B → Prop) m (f : A → M st B) :
  typed P m → (∀ a, P a → typed Q (f a)) → typed Q (bind m f).
Proof. apply yields_bind. Qed.
Lemma ty_ub {A} (P : A → Prop) : typed P ub.
Proof. apply yields_ub. Qed.
Lemma ty_getS : typed well_typed getS.
Proof. apply yields_getS. Qed.
Lemma ty_gets {A} (f : st → A) : ok (gets f).
Proof. by apply yields_gets. Qed.
Lemma ty_modify f : (∀ s, well_typed s → well_typed (f s)) → ok (modify f).
Proof. intros Hf. by apply yields_modify. Qed.
Lemma ty_lift {A} (o : option A) : typed (λ a, o = Some a) (lift o).
Proof. by apply yields_lift. Qed.
Lemma ty_when (b : bool) m : (b = true → ok m) → ok (when b m).
Proof. intros Hm. by apply yields_when. Qed.
Lemma ty_for_each {A} (l : list A) body : (∀ x, x ∈ l → ok (body x)) → ok (for_each l body).
Proof. apply yields_for_each. Qed.
Lemma ty_with_userdb {A} (m : M icbdb A) : ok (with_userdb m).
Proof.
  intros s a s' Hs. unfold with_userdb. destruct (m (userdb s)) as [[x d]|]; [|done].
  intros [= <- <-]. split; [|done]. by destruct Hs.
Qed.
Lemma ty_emit e : event_ok e → ok (emit e).
Proof. intros He. apply ty_modify. intros s []. split; try done. cbn. apply Forall_app. by rewrite Forall_singleton. Qed.

Lemma ty_find_user name : typed slot_or_none (gets (λ s, find_user name (u_tab s))).
Proof. apply yields_gets. intros s Hs. unfold slot_or_none. rewrite <-(wt_users _ Hs). apply find_user_range. Qed.
Lemma ty_least_idle p : typed slot_or_none (gets (λ s, least_idle p (u_tab s))).
Proof. apply yields_gets. intros s Hs. unfold slot_or_none. rewrite <-(wt_users _ Hs). apply least_idle_range. Qed.

Lemma ty_lpriv_at n : typed slot_or_none (int_at lpriv_id n).
Proof. apply ty_int_at_slot. intros s Hs. apply Hs. Qed.
Lemma ty_pong_at n : typed slot_or_none (int_at pong_req n).
Proof. apply ty_int_at_slot. intros s Hs. apply Hs. Qed.
Lemma ty_kill_at n : typed (λ _, slot n) (int_at S_kill n).
Proof. apply ty_int_at. intros s Hs. apply Hs. Qed.
Lemma ty_ping_at n : typed (λ _, slot n) (int_at ping_time n).
Proof. apply ty_int_at. intros s Hs. apply Hs. Qed.
Lemma ty_count_at n : typed (λ _, slot n) (int_at (λ s, u_recv_count (glob s)) n).
Proof. apply ty_int_at. intros s Hs. apply Hs. Qed.

Lemma array_ok_set n v l : array_ok l → array_ok (entry_set n v l).
Proof. unfold array_ok. by rewrite length_entry_set. Qed.

Lemma ty_set_lpriv n v : slot_or_none v → ok (set_int lpriv_id set_lpriv_id n v).
Proof.
  intros Hv. apply ty_set_int. intros s []. split; try done. cbn. split; [by apply array_ok_set, wt_lpriv0|].
  by apply forall_entry_set; [apply wt_lpriv0|].
Qed.
Lemma ty_set_pong n v : slot_or_none v → ok (set_int pong_req set_pong_req n v).
Proof.
  intros Hv. apply ty_set_int. intros s []. split; try done. cbn. split; [by apply array_ok_set, wt_pong0|].
  by apply forall_entry_set; [apply wt_pong0|].
Qed.
Lemma ty_set_kill n v : ok (set_int S_kill set_S_kill n v).
Proof. apply ty_set_int. intros s []. split; try done. by apply array_ok_set. Qed.
Lemma ty_set_ping n v : ok (set_int ping_time set_ping_time n v).
Proof. apply ty_set_int. intros s []. split; try done. by apply array_ok_set. Qed.
Lemma ty_set_count n v : ok (set_int (λ s, u_recv_count (glob s)) set_u_recv_count n v).
Proof. apply ty_set_int. intros s []. split; try done. by apply array_ok_set. Qed.

(** The globals that no type depends on. *)
Lemma ty_set_is_booting z : ok (modify (set_is_booting z)).
Proof. apply ty_modify. by intros s []. Qed.
Lemma ty_set_curtime z : ok (modify (set_curtime z)).
Proof. apply ty_modify. by intros s []. Qed.
Lemma ty_set_stats f : ok (modify (λ s, set_stats (f s) s)).
Proof. apply ty_modify. by intros s []. Qed.
Lemma ty_set_TimeToDie z : ok (modify (set_TimeToDie z)).
Proof. apply ty_modify. by intros s []. Qed.
Lemma ty_set_ShutdownNotify f : ok (modify (λ s, set_ShutdownNotify (f s) s)).
Proof. apply ty_modify. by intros s []. Qed.
Lemma ty_new_stats t : ok (modify (set_stats t)).
Proof. apply ty_modify. by intros s []. Qed.
Lemma ty_new_ShutdownNotify z : ok (modify (set_ShutdownNotify z)).
Proof. apply ty_modify. by intros s []. Qed.
Lemma ty_set_log_level z : ok (modify (set_log_level z)).
Proof. apply ty_modify. by intros s []. Qed.
Lemma ty_set_fields k : ok (set_fields k).
Proof. apply ty_modify. by intros s []. Qed.
Lemma ty_stale_field `{Host} i : ok (stale_field i).
Proof. intros s a s' Hs [_ ->]%stale_field_inv. by split. Qed.
End rules.

#[export] Hint Resolve ty_ret_eq ty_getS ty_gets ty_lift ty_user_at ty_group_at ty_with_userdb ty_find_user ty_least_idle
  ty_lpriv_at ty_pong_at ty_kill_at ty_ping_at ty_count_at ty_set_lpriv ty_set_pong ty_set_kill ty_set_ping ty_set_count
  ty_set_is_booting ty_set_curtime ty_set_stats ty_set_TimeToDie ty_set_ShutdownNotify ty_new_stats ty_new_ShutdownNotify ty_set_log_level
  ty_set_fields ty_stale_field
  ty_upd_user ty_upd_group ty_emit : typed.

#[export] Hint Extern 1 (typed (λ _, True) ub) => apply ty_ub : typed.

(** ** Lengths *)

Lemma fits_nil {A} n : fits (@nil A) n.
Proof. unfold fits. simpl. lia. Qed.
Lemma fits_take {A} n m (l : list A) : (n ≤ m)%nat → fits (take n l) m.
Proof. unfold fits. rewrite length_take. lia. Qed.
Lemma fits_take_fits {A} n m (l : list A) : fits l m → fits (take n l) m.
Proof. unfold fits. rewrite length_take. lia. Qed.
Lemma fits_strncpy s n m : (n ≤ m)%nat → fits (strncpy s n) m.
Proof. unfold fits, strncpy. rewrite length_take. lia. Qed.
Lemma fits_filternickname s n : fits s n → fits (filternickname s) n.
Proof. unfold fits, filternickname. by rewrite length_map. Qed.
Lemma fits_filtergroupname s n : fits s n → fits (filtergroupname s) n.
Proof. unfold fits, filtergroupname. by rewrite length_map. Qed.
Lemma fits_copy_field n old src : fits old n → fits (copy_user_field (n + 1) old src) n.
Proof.
  unfold fits, copy_user_field. destruct (_ =? 0)%nat; [done|]. destruct src; simpl; [|lia]. rewrite length_take. lia.
Qed.

Lemma fits_mru_remove x l n : fits l n → fits (mru_remove x l) n.
Proof.
  unfold fits. revert n. induction l as [|y l IH]; intros n; simpl; [done|]. destruct (strcaseeq x y); simpl; [lia|].
  destruct n; [lia|]. intros Hl. specialize (IH n). lia.
Qed.
Lemma mru_remove_found x y l : List.find (strcaseeq x) l = Some y → (S (length (mru_remove x l)) = length l)%nat.
Proof. induction l as [|z l IH]; simpl; [done|]. destruct (strcaseeq x z); [done|]. intros E. simpl. by rewrite IH. Qed.
Lemma fits_mru_put x l n : (1 ≤ n)%nat → fits l n → fits (mru_put n x l) n.
Proof.
  unfold fits, mru_put. intros Hn Hl. destruct (List.find _ l) eqn:E; simpl.
  - apply mru_remove_found in E. lia.
  - destruct (Nat.ltb_spec (length l) n); [lia|]. rewrite length_take. lia.
Qed.
Lemma fits_mru_delete x l n : fits l n → fits (fst (mru_delete x l)) n.
Proof. unfold mru_delete. destruct (mru_present x l); [apply fits_mru_remove|done]. Qed.

#[export] Hint Resolve fits_nil fits_take_fits fits_filternickname fits_filtergroupname fits_copy_field fits_mru_remove
  fits_mru_delete : typed.
#[export] Hint Resolve uo_loginid uo_nodeid uo_nickname uo_password uo_realname uo_group uo_awaymsg go_name go_topic
  go_missingmod go_mod : typed.
#[export] Hint Extern 1 (fits (take _ _) _) => apply fits_take; lia : typed.
#[export] Hint Extern 1 (fits (strncpy _ _) _) => apply fits_strncpy; lia : typed.
#[export] Hint Extern 1 (fits (mru_put _ _ _) _) => apply fits_mru_put; [unfold MAX_INVITES, MAX_HUSHED, MAX_NOTIFIES; lia|] : typed.
#[export] Hint Extern 1 (fits (str _) _) => apply Nat.leb_le; reflexivity : typed.

(** What remains after the rules: ranges and lengths. *)
Ltac ty_bools :=
  repeat match goal with
  | H : (_ && _) = true |- _ => apply andb_true_iff in H as [? ?]
  | H : (_ || _) = false |- _ => apply orb_false_iff in H as [? ?]
  | H : (_ <=? _) = true |- _ => apply Z.leb_le in H
  | H : (_ <=? _) = false |- _ => apply Z.leb_gt in H
  | H : (_ <? _) = true |- _ => apply Z.ltb_lt in H
  | H : (_ <? _) = false |- _ => apply Z.ltb_ge in H
  | H : (_ =? _) = true |- _ => apply Z.eqb_eq in H
  end.
Ltac ty_ranges := ty_bools; unfold slot, slot_or_none, LOGIN_FALSE, LOGIN_PENDING, LOGIN_COMPLETE, VISIBLE, SECRET, SUPERSECRET,
  PUBLIC, MODERATED, RESTRICTED, CONTROLLED, QUIET, NORMAL, LOUD, INT_MAX, MAX_IDLE_MOD, DEF_IDLE_BOOT, DEF_IDLE_MOD in *; lia.
#[export] Hint Extern 3 (slot _) => ty_ranges : typed.
#[export] Hint Extern 3 (slot_or_none _) => ty_ranges : typed.
Ltac ty_record := match goal with
  | H : user_ok _ |- user_ok _ => destruct H; split; cbn -[take strncpy mru_put mru_delete mru_remove str]
  | H : group_ok _ |- group_ok _ => destruct H; split; cbn -[take strncpy mru_put mru_delete mru_remove str]
  end; first [assumption | solve [eauto with typed] | ty_ranges].
#[export] Hint Extern 4 (user_ok _) => solve [ty_record] : typed.
#[export] Hint Extern 4 (group_ok _) => solve [ty_record] : typed.
#[export] Hint Extern 1 (event_ok _) => exact I : typed.

(** A computation is typed rule by rule; a call by its hint. *)
Ltac ty_conj H := cbv beta in H; lazymatch type of H with _ ∧ _ => destruct H as [? ?] | True => clear H | _ = ?x => try (subst x) | _ => idtac end.
Ltac ty_step :=
  lazymatch goal with
  | |- typed _ (let _ := _ in _) => cbv zeta
  | |- typed _ (bind _ _) =>
      first [eapply ty_bind; [solve [eauto 4 with typed]|let a := fresh "a" in let Ha := fresh in intros a Ha; ty_conj Ha]
            |apply (ty_bind (λ _, True)); [|intros ? _]]
  | |- typed _ (when _ _) => apply ty_when; intros ?
  | |- typed _ (for_each _ _) => apply ty_for_each; intros ? ?
  | |- typed _ (ret _) => apply ty_ret; try exact I
  | |- typed _ ub => apply ty_ub
  | |- typed _ (if ?b then _ else _) => destruct b eqn:?
  | |- typed _ (match ?x with _ => _ end) => destruct x eqn:?
  end.
Ltac ty := repeat first [lazymatch goal with |- typed _ ub => apply ty_ub end | solve [eapply ty_mono; [eauto 4 with typed|intros; first [exact I|assumption|tauto]]] | ty_step].

(** ** The commands behind a private message to the resident user *)

Class TypedCommands `{BuildConfig} `{Commands} : Prop := ty_cmdmsg : ∀ n pkt, ok (cmdmsg n pkt).
#[export] Hint Resolve ty_cmdmsg : typed.
