(* ===== verification/TypedSend.v ===== *)
(** * Types of the senders and of the tables

    Every function of send.c, users.c, groups.c and the broadcasts, listings
    and small commands of s_group.c keeps the types of [Typing]. *)

From Stdlib Require Import ZArith Lia String.
From S2P Require Import Config Prelude Utf8 StrUtil Wildmat NameList Lookup CLib Monad Dbm IcbDb State Tables Send GroupCast World Access GroupChange GroupMod GroupStatus Lifecycle UserCmd Who Info Admin Auto Msgs Typing.

Local Open Scope Z_scope.
Local Open Scope icb_monad_scope.

(** ** Sending *)

Section handlers.
Context `{BuildConfig} `{Host} `{Commands} `{!TypedCommands}.

Lemma ty_filtered src len : ok (filtered src len).
Proof. unfold filtered. ty. Qed.
#[local] Hint Resolve ty_filtered : typed.

Lemma ty_client f from to pkt :
  (∀ a b, ok (f a b)) → 0 ≤ to < MAX_REAL_USERS → pkt ≠ [] → ok (doSend_client f from to pkt).
Proof.
  intros Hf Hto Hp. unfold doSend_client. cbv zeta. destruct (_ <? _)%nat eqn:E; [ty|].
  apply Nat.ltb_ge in E. ty. eapply ty_mono; [|done]. apply ty_emit. split; [done|].
  change (MAX_PKT_LEN - 1)%nat with 255%nat in E. change (MAX_PKT_LEN - 2)%nat with 254%nat. destruct pkt; [done|]. simpl in *. lia.
Qed.
#[local] Hint Resolve ty_client : typed.
Lemma packet_nonempty c b : packet c b ≠ [].
Proof. done. Qed.
#[local] Hint Resolve packet_nonempty : typed.
#[local] Hint Extern 2 (0 ≤ _ < MAX_REAL_USERS) => ty_bools; lia : typed.
#[local] Hint Extern 1 (_ :: _ ≠ []) => done : typed.
Lemma ty_plain f from to c b : (∀ a b, ok (f a b)) → ok (doSend_plain f from to (packet c b)).
Proof. intros Hf. unfold doSend_plain. ty. Qed.
#[local] Hint Resolve ty_plain : typed.
Lemma ty_senderror to m : ok (senderror to m).
Proof. unfold senderror. ty. Qed.
#[local] Hint Resolve ty_senderror : typed.
Lemma ty_sendstatus to c m : ok (sendstatus to c m).
Proof. unfold sendstatus. ty. Qed.
#[local] Hint Resolve ty_sendstatus : typed.
Lemma ty_server_message from pkt : ok (server_message from pkt).
Proof. unfold server_message. ty. Qed.
#[local] Hint Resolve ty_server_message : typed.
Lemma ty_doSend_personal from to c b : ok (doSend_personal from to (packet c b)).
Proof. unfold doSend_personal. ty. Qed.
#[local] Hint Resolve ty_doSend_personal : typed.
Lemma ty_sendperson from to m : ok (sendperson from to m).
Proof. unfold sendperson. ty. Qed.
#[local] Hint Resolve ty_sendperson : typed.
Lemma ty_autoBeep to : ok (autoBeep to).
Proof. unfold autoBeep, time. ty. Qed.
#[local] Hint Resolve ty_autoBeep : typed.
Lemma ty_doSend from to c b : ok (doSend from to (packet c b)).
Proof. unfold doSend. ty. Qed.
#[local] Hint Resolve ty_doSend : typed.
Lemma ty_sendopen from to m : ok (sendopen from to m).
Proof. unfold sendopen. ty. Qed.
Lemma ty_sendexit to : ok (sendexit to).
Proof. unfold sendexit. ty. Qed.
Lemma ty_sendping to who : ok (sendping to who).
Proof. unfold sendping. ty. Qed.
Lemma ty_sends_cmdout to m : ok (sends_cmdout to m).
Proof. unfold sends_cmdout. ty. Qed.
Lemma ty_send_person_stored to f m : ok (send_person_stored to f m).
Proof. unfold send_person_stored. ty. Qed.
#[local] Hint Resolve ty_sendopen ty_sendexit ty_sendping ty_sends_cmdout ty_send_person_stored : typed.
Lemma ty_sendbeep from to : ok (sendbeep from to).
Proof. unfold sendbeep. ty. Qed.
Lemma ty_s_new_user n secure : ok (s_new_user n secure).
Proof. unfold s_new_user. ty. Qed.
Lemma ty_send_loginok to : ok (send_loginok to).
Proof. unfold send_loginok. ty. Qed.
Lemma ty_sendimport to c m : ok (sendimport to c m).
Proof. unfold sendimport. ty. Qed.
Lemma ty_user_wline to a b c d e f g h : ok (user_wline to a b c d e f g h).
Proof. unfold user_wline. ty. Qed.
Lemma ty_user_whead to : ok (user_whead to).
Proof. unfold user_whead. ty. Qed.
#[local] Hint Resolve ty_sendbeep ty_s_new_user ty_send_loginok ty_sendimport ty_user_wline ty_user_whead : typed.

(** ** Tables *)

Lemma ty_check_auth n : ok (check_auth n).
Proof. unfold check_auth. ty. Qed.
Lemma ty_nickwritetime n c : ok (nickwritetime n c).
Proof. unfold nickwritetime, time. ty. Qed.
#[local] Hint Resolve ty_check_auth ty_nickwritetime : typed.
Lemma user_ok_cleared u : user_ok (cleared_user u).
Proof. split; cbn; first [apply fits_nil|ty_ranges]. Qed.
#[local] Hint Resolve user_ok_cleared : typed.
Lemma ty_clear_user_item n : ok (clear_user_item n).
Proof. unfold clear_user_item. ty. Qed.
#[local] Hint Resolve ty_clear_user_item : typed.
Lemma user_ok_filled a b c d e f l eb nb p u :
  LOGIN_FALSE ≤ l ≤ LOGIN_COMPLETE → 0 ≤ eb ≤ 2 → 0 ≤ nb ≤ 2 → user_ok u → user_ok (filled_user a b c d e f l eb nb p u).
Proof. intros Hl He Hn Hu. destruct Hu. split; solve [assumption|by apply fits_copy_field]. Qed.
Lemma ty_fill_user_entry n a b c d e f l eb nb p :
  LOGIN_FALSE ≤ l ≤ LOGIN_COMPLETE → 0 ≤ eb ≤ 2 → 0 ≤ nb ≤ 2 → ok (fill_user_entry n a b c d e f l eb nb p).
Proof.
  intros. unfold fill_user_entry. eapply ty_mono; [|done]. apply ty_upd_user. intros. by apply user_ok_filled.
Qed.
Lemma user_ok_new_lists u : user_ok u → user_ok (with_new_lists u).
Proof. intros []. split; cbn; first [assumption|apply fits_nil]. Qed.
#[local] Hint Resolve user_ok_new_lists : typed.
Lemma ty_clear_users : ok clear_users.
Proof. unfold clear_users. ty. Qed.
Lemma group_ok_cleared : group_ok cleared_group.
Proof.
  split; cbn; try apply fits_nil; unfold slot_or_none, MAX_REAL_USERS, INT_MAX, DEF_IDLE_BOOT, DEF_IDLE_MOD, MAX_IDLE_MOD;
    pose proof MAX_USERS_min; ty_ranges.
Qed.
#[local] Hint Resolve group_ok_cleared : typed.
Lemma ty_clear_group_item n : ok (clear_group_item n).
Proof. unfold clear_group_item. ty. Qed.
#[local] Hint Resolve ty_clear_users ty_clear_group_item : typed.
Lemma ty_init_groups : ok init_groups.
Proof. unfold init_groups. ty. Qed.
#[local] Hint Resolve ty_init_groups : typed.

(** ** Groups *)

Lemma ty_status_group k t n c m : ok (s_status_group k t n c m).
Proof. unfold s_status_group. ty. Qed.
Lemma ty_hears a b c u : ok (hears a b c u).
Proof. unfold hears. ty. Qed.
Lemma ty_getword w : ok (getword_m w).
Proof. unfold getword_m. ty. Qed.
#[local] Hint Resolve ty_status_group ty_hears ty_getword : typed.
Lemma ty_send_group n f : ok (s_send_group n f).
Proof. unfold s_send_group. ty. Qed.
Lemma ty_exclude n a f : ok (s_exclude n a f).
Proof. unfold s_exclude. ty. Qed.
Lemma ty_add_item n i b : ok (add_item n i b).
Proof. unfold add_item. ty. Qed.
#[local] Hint Resolve ty_send_group ty_exclude ty_add_item : typed.
Lemma ty_add_names n h s b i l line : ok (add_names n h s b i l line).
Proof. revert i line. induction l as [|cp l IH]; intros i line; cbn [add_names]; ty. Qed.
#[local] Hint Resolve ty_add_names : typed.
Lemma ty_list_two n h l lr : ok (list_two n h l lr).
Proof. unfold list_two. ty. Qed.
#[local] Hint Resolve ty_list_two : typed.
Lemma ty_list_invites n gi : ok (list_invites n gi).
Proof. unfold list_invites. ty. Qed.
Lemma ty_dump_table n : ok (dump_table n).
Proof. unfold dump_table. ty. Qed.
Lemma ty_set_name n gi name : ok (set_name n gi name).
Proof. unfold set_name. ty. Qed.
Lemma ty_topic n a f : ok (s_topic n a f).
Proof. unfold s_topic. ty. Qed.
Lemma ty_talk_delete w gi : ok (talk_delete w gi).
Proof. unfold talk_delete. ty. Qed.
Lemma ty_talk_report n gi : ok (talk_report n gi).
Proof. unfold talk_report. ty. Qed.
#[local] Hint Resolve ty_list_invites ty_dump_table ty_set_name ty_topic ty_talk_delete ty_talk_report : typed.
End handlers.

#[export] Hint Resolve ty_filtered ty_client packet_nonempty ty_plain ty_senderror ty_sendstatus
  ty_server_message ty_doSend_personal ty_sendperson ty_autoBeep ty_doSend ty_sendopen ty_sendexit ty_sendping
  ty_sends_cmdout ty_send_person_stored ty_sendbeep ty_s_new_user ty_send_loginok ty_sendimport ty_user_wline
  ty_user_whead ty_check_auth ty_nickwritetime user_ok_cleared ty_clear_user_item user_ok_new_lists
  group_ok_cleared ty_clear_users ty_clear_group_item ty_init_groups ty_status_group ty_hears ty_getword
  ty_send_group ty_exclude ty_add_item ty_add_names ty_list_two ty_list_invites ty_dump_table ty_set_name
  ty_topic ty_talk_delete ty_talk_report : typed.
#[export] Hint Extern 2 (0 ≤ _ < MAX_REAL_USERS) => ty_bools; lia : typed.
#[export] Hint Extern 1 (_ :: _ ≠ []) => done : typed.
