(* ===== verification/TypedGroup.v ===== *)
(** * Types of the group commands

    Every function that changes or moderates a group (s_group.c) keeps the
    types of [Typing]. *)

From Stdlib Require Import ZArith Lia String.
From S2P Require Import Config Prelude Utf8 StrUtil Wildmat NameList Lookup CLib Monad Dbm IcbDb State Tables Send GroupCast World Access GroupChange GroupMod GroupStatus Lifecycle UserCmd Who Info Admin Auto Msgs Typing TypedSend.

Local Open Scope Z_scope.
Local Open Scope icb_monad_scope.

(** ** Changing the group *)

Section handlers.
Context `{BuildConfig} `{Host} `{Commands} `{!TypedCommands}.

Lemma ty_invited u g : ok (invited u g).
Proof. unfold invited. ty. Qed.
Lemma ty_probe n u g t : slot n → ok (probe n u g t).
Proof. unfold probe. intros. ty. Qed.
#[local] Hint Resolve ty_invited ty_probe : typed.
Lemma ty_restricted_refuses n gi u t : slot n → ok (restricted_refuses n gi u t).
Proof. unfold restricted_refuses. intros. ty. Qed.
Lemma ty_full_refuses n gi u t : slot n → ok (full_refuses n gi u t).
Proof. unfold full_refuses. intros. ty. Qed.
#[local] Hint Resolve ty_restricted_refuses ty_full_refuses : typed.
Lemma ty_enter_group n gi og l : ok (enter_group n gi og l).
Proof. unfold enter_group, time. ty. Qed.
Lemma group_ok_created n name vis g :
  slot n → fits name MAX_GROUPLEN → VISIBLE ≤ vis ≤ SUPERSECRET → group_ok g → group_ok (created_group n name vis g).
Proof.
  intros Hn Hf Hv Hg. unfold created_group. destruct (strcaseeq BOOT_GROUP name); [|destruct (strcaseeq IDLE_GROUP name);
    [|destruct (strcaseeq (str "1") name)]]; ty_record.
Qed.
#[local] Hint Resolve ty_enter_group group_ok_created : typed.
Lemma ty_change_to n name vis l :
  fits name MAX_GROUPLEN → VISIBLE ≤ vis ≤ SUPERSECRET → ok (change_to n name vis l).
Proof. unfold change_to. intros. ty. Qed.
#[local] Hint Resolve ty_change_to : typed.
Lemma requested_group_ok f1 :
  fits (fst (requested_group f1)) MAX_GROUPLEN ∧ VISIBLE ≤ snd (requested_group f1) ≤ SUPERSECRET.
Proof.
  unfold requested_group. cbv zeta. repeat case_match; cbn [fst snd]; (split; [|ty_ranges]); apply fits_strncpy;
    repeat match goal with H : (_ <? _)%nat = true |- _ => apply Nat.ltb_lt in H end; lia.
Qed.
Lemma ty_change_again fuel n f1 l : ok (s_change_to fuel n f1 l).
Proof.
  revert f1 l. induction fuel as [|fuel IH]; intros f1 l; cbn [s_change_to]; pose proof (requested_group_ok f1) as [Hf Hv];
    destruct (requested_group f1) as [name vis]; cbn [fst snd] in *; ty.
Qed.
#[local] Hint Resolve ty_change_again : typed.
Lemma ty_change n a f : ok (s_change n a f).
Proof. unfold s_change. ty. Qed.
#[local] Hint Resolve ty_change : typed.

(** ** Moderating *)

Lemma ty_flag_loop {F} sw fuel w (f : F) : ok (flag_loop sw fuel w f).
Proof. revert w f. induction fuel as [|fuel IH]; intros w f; cbn [flag_loop]; ty. Qed.
#[local] Hint Resolve ty_flag_loop : typed.
Lemma ty_parse_flags sw w : ok (parse_flags sw w).
Proof. unfold parse_flags. ty. Qed.
#[local] Hint Resolve ty_parse_flags : typed.
Lemma group_ok_cancel_nick w g g' : cancel_nick w g = Some g' → group_ok g → group_ok g'.
Proof. unfold cancel_nick. intros E Hg. repeat case_match; simplify_eq; ty_record. Qed.
Lemma group_ok_cancel_site w g g' : cancel_site w g = Some g' → group_ok g → group_ok g'.
Proof. unfold cancel_site. intros E Hg. repeat case_match; simplify_eq; ty_record. Qed.
#[local] Hint Resolve group_ok_cancel_nick group_ok_cancel_site : typed.
Lemma ty_cancel n a f : ok (s_cancel n a f).
Proof.
  unfold s_cancel. ty; repeat case_match; simplify_eq; (eapply ty_mono; [apply ty_upd_group|done]); intros; eauto with typed.
Qed.
Lemma group_ok_add_invite m r w g : group_ok g → group_ok (add_invite m r w g).
Proof. unfold add_invite. intros Hg. repeat case_match; try done; ty_record. Qed.
#[local] Hint Resolve group_ok_add_invite : typed.
Lemma ty_invite n a f : ok (s_invite n a f).
Proof. unfold s_invite. ty. Qed.
Lemma ty_admin_or_mod n gi : ok (admin_or_mod n gi).
Proof. unfold admin_or_mod. ty. Qed.
Lemma ty_group_status n gi c m : ok (group_status n gi c m).
Proof. unfold group_status. ty. Qed.
#[local] Hint Resolve ty_cancel ty_invite ty_admin_or_mod ty_group_status : typed.
Lemma ty_pass n a f : ok (s_pass n a f).
Proof. unfold s_pass. ty. Qed.
Lemma ty_boot n a f : ok (s_boot n a f).
Proof. unfold s_boot. ty. Qed.
Lemma ty_talk_clear l : ok (talk_clear l).
Proof. induction l as [|[|c w] l IH]; cbn [talk_clear]; ty. Qed.
#[local] Hint Resolve ty_pass ty_boot ty_talk_clear : typed.
Lemma ty_talk n a f : ok (s_talk n a f).
Proof. unfold s_talk. ty. Qed.
#[local] Hint Resolve ty_talk : typed.

(** ** Settings *)

Lemma ty_status_show n : ok (status_show n).
Proof. unfold status_show. ty. Qed.
#[local] Hint Resolve ty_status_show : typed.
Lemma group_ok_clear_invites g : group_ok g → group_ok (clear_invites g).
Proof. unfold clear_invites. intros Hg. ty_record. Qed.
Lemma group_ok_clear_bars g : group_ok g → group_ok (clear_bars g).
Proof. unfold clear_bars. intros Hg. ty_record. Qed.
Lemma group_ok_control v g : PUBLIC ≤ v ≤ CONTROLLED → group_ok g → group_ok (set_g_control v g).
Proof. intros Hv Hg. ty_record. Qed.
Lemma ty_invite_members gi : ok (invite_members gi).
Proof. unfold invite_members. ty. apply ty_upd_group. intros g Hg. case_match; ty_record. Qed.
#[local] Hint Resolve ty_invite_members group_ok_clear_invites group_ok_clear_bars group_ok_control : typed.
#[local] Hint Extern 2 (PUBLIC ≤ _ ≤ CONTROLLED) => ty_ranges : typed.
Lemma ty_opt_restrict gi : ok (opt_restrict gi).
Proof. unfold opt_restrict. ty. Qed.
Lemma ty_opt_moderate gi : ok (opt_moderate gi).
Proof. unfold opt_moderate. ty. Qed.
Lemma ty_opt_control gi : ok (opt_control gi).
Proof. unfold opt_control. ty. Qed.
Lemma ty_opt_public gi nick : ok (opt_public gi nick).
Proof. unfold opt_public. ty. Qed.
Lemma ty_opt_size n gi nick p1 : ok (opt_size n gi nick p1).
Proof. unfold opt_size. ty. Qed.
Lemma ty_minutes p : typed (λ v, v ≤ INT_MAX) (minutes p).
Proof. unfold minutes. cbv zeta. destruct (_ && _) eqn:E; [|apply ty_ub]. apply ty_ret. ty_ranges. Qed.
#[local] Hint Resolve ty_minutes : typed.
Lemma ty_opt_idleboot n gi nick p1 : ok (opt_idleboot n gi nick p1).
Proof. unfold opt_idleboot. ty. Qed.
Lemma ty_skip fuel p1 : ok (skip_to_end fuel p1).
Proof. revert p1. induction fuel as [|fuel IH]; intros p1; cbn [skip_to_end]; ty. Qed.
#[local] Hint Resolve ty_skip : typed.
Lemma ty_opt_idleboot_msg n gi p1 : ok (opt_idleboot_msg n gi p1).
Proof.
  unfold opt_idleboot_msg. ty. apply ty_upd_group. intros g Hg.
  destruct Hg. split; try assumption. cbn [g_idleboot_msg set_g_idleboot_msg]. unfold fits.
  match goal with H : (IDLEBOOT_MSG_LEN <=? _)%nat = false |- _ => apply Nat.leb_gt in H end. lia.
Qed.
Lemma ty_opt_idlemod n gi nick p1 : ok (opt_idlemod n gi nick p1).
Proof. unfold opt_idlemod. ty. Qed.
Lemma ty_opt_name n gi nick p1 : ok (opt_name n gi nick p1).
Proof. unfold opt_name. ty. Qed.
Lemma ty_opt_set gi f t : (∀ g, group_ok g → group_ok (f g)) → ok (opt_set gi f t).
Proof. intros Hf. unfold opt_set. ty. Qed.
Lemma ty_keep_p1 p m : ok m → ok (keep_p1 p m).
Proof. intros Hm. unfold keep_p1. ty. Qed.
#[local] Hint Resolve ty_opt_restrict ty_opt_moderate ty_opt_control ty_opt_public ty_opt_size ty_opt_idleboot
  ty_opt_idleboot_msg ty_opt_idlemod ty_opt_name ty_opt_set ty_keep_p1 : typed.
Lemma ty_status_option n gi hm p1 p2 : ok (status_option n gi hm p1 p2).
Proof. unfold status_option. ty. Qed.
#[local] Hint Resolve ty_status_option : typed.
Lemma ty_status_loop fuel n gi hm p1 : ok (status_loop fuel n gi hm p1).
Proof. revert p1. induction fuel as [|fuel IH]; intros p1; cbn [status_loop]; ty. Qed.
#[local] Hint Resolve ty_status_loop : typed.
Lemma ty_status n a f : ok (s_status n a f).
Proof. unfold s_status. ty. Qed.
#[local] Hint Resolve ty_status : typed.
End handlers.

#[export] Hint Resolve ty_invited ty_probe ty_restricted_refuses ty_full_refuses ty_enter_group
  group_ok_created ty_change_to ty_change_again ty_change ty_flag_loop ty_parse_flags group_ok_cancel_nick
  group_ok_cancel_site group_ok_add_invite ty_cancel ty_invite ty_admin_or_mod ty_group_status ty_pass ty_boot
  ty_talk_clear ty_talk ty_status_show ty_invite_members group_ok_clear_invites group_ok_clear_bars
  group_ok_control ty_minutes ty_skip ty_opt_restrict ty_opt_moderate ty_opt_control ty_opt_public ty_opt_size
  ty_opt_idleboot ty_opt_idleboot_msg ty_opt_idlemod ty_opt_name ty_opt_set ty_keep_p1 ty_status_option
  ty_status_loop ty_status : typed.
#[export] Hint Extern 2 (PUBLIC ≤ _ ≤ CONTROLLED) => ty_ranges : typed.
