(* ===== verification/TypedUser.v ===== *)
(** * Types of the accounts, the users and the sweep

    Every function of access.c, ipcf.c, s_user.c, s_person.c and s_beep.c keeps
    the types of [Typing]. *)

From Stdlib Require Import ZArith Lia String.
From S2P Require Import Config Prelude Utf8 StrUtil Wildmat NameList Lookup CLib Monad Dbm IcbDb State Tables Send GroupCast World Access GroupChange GroupMod GroupStatus Lifecycle UserCmd Who Info Admin Auto Msgs Typing TypedSend TypedGroup.

Local Open Scope Z_scope.
Local Open Scope icb_monad_scope.

Section handlers.
Context `{BuildConfig} `{Host} `{Commands} `{!TypedCommands}.

(** ** Accounts (access.c) *)

Lemma ty_gettime : ok gettime.
Proof. unfold gettime, time. ty. Qed.
Lemma ty_time : ok time.
Proof. unfold time. ty. Qed.
Lemma ty_db_open : ok db_open.
Proof. unfold db_open. ty. Qed.
Lemma ty_db_close : ok db_close.
Proof. unfold db_close. ty. Qed.
Lemma ty_db_get_str n a : ok (db_get_str n a).
Proof. unfold db_get_str. ty. Qed.
Lemma ty_db_get_int n a : ok (db_get_int n a).
Proof. unfold db_get_int. ty. Qed.
Lemma ty_db_set n a v : ok (db_set n a v).
Proof. unfold db_set. ty. Qed.
Lemma ty_db_delete n a : ok (db_delete n a).
Proof. unfold db_delete. ty. Qed.
#[local] Hint Resolve ty_gettime ty_time ty_db_open ty_db_close ty_db_get_str ty_db_get_int ty_db_set ty_db_delete : typed.
Lemma ty_setsecure n v : ok (setsecure n v).
Proof. unfold setsecure. ty. Qed.
Lemma ty_valuser u p : ok (valuser u p).
Proof. unfold valuser. ty. Qed.
Lemma ty_nickdelete n p : ok (nickdelete n p).
Proof. unfold nickdelete. ty. Qed.
Lemma ty_nickwritemsg n u m : ok (nickwritemsg n u m).
Proof. unfold nickwritemsg. ty. Qed.
Lemma ty_nickckmsg n : ok (nickckmsg n).
Proof. unfold nickckmsg. ty. Qed.
Lemma ty_read_one n k i : ok (read_one n k i).
Proof. unfold read_one. ty. Qed.
#[local] Hint Resolve ty_setsecure ty_valuser ty_nickdelete ty_nickwritemsg ty_nickckmsg ty_read_one : typed.
Lemma ty_nickreadmsg n : ok (nickreadmsg n).
Proof. unfold nickreadmsg. ty. Qed.
Lemma ty_nickchinfo n t d m msg : ok (nickchinfo n t d m msg).
Proof. unfold nickchinfo. ty. Qed.
Lemma ty_nickchpass n o p : ok (nickchpass n o p).
Proof. unfold nickchpass. ty. Qed.
Lemma ty_regain_mod n i : ok (regain_mod n i).
Proof. unfold regain_mod. ty. Qed.
#[local] Hint Resolve ty_nickreadmsg ty_nickchinfo ty_nickchpass ty_regain_mod : typed.
Lemma ty_regain_mods n : ok (regain_mods n).
Proof. unfold regain_mods. ty. Qed.
Lemma ty_tell_messages n : ok (tell_messages n).
Proof. unfold tell_messages. ty. Qed.
Lemma ty_mark_registered n : ok (mark_registered n).
Proof. unfold mark_registered. ty. Qed.
Lemma fits_cut p : fits (cut_password p) MAX_PASSWDLEN.
Proof. by apply fits_take. Qed.
#[local] Hint Resolve ty_regain_mods ty_tell_messages ty_mark_registered fits_cut : typed.
Lemma ty_nickwrite n p v : ok (nickwrite n p v).
Proof. unfold nickwrite. ty. Qed.
Lemma ty_line_fits l : ok (line_fits l).
Proof. unfold line_fits. ty. Qed.
#[local] Hint Resolve ty_nickwrite ty_line_fits : typed.
Lemma ty_show_pair n a b c d e f g : ok (show_pair n a b c d e f g).
Proof. unfold show_pair. ty. Qed.
Lemma ty_show_if n a b c : ok (show_if n a b c).
Proof. unfold show_if. ty. Qed.
Lemma ty_show_addr n s t : ok (show_addr n s t).
Proof. revert t. induction s as [|c s IH]; intros t; cbn [show_addr]; ty. Qed.
Lemma ty_show_text fuel n l p s w c t : ok (show_text fuel n l p s w c t).
Proof. revert p s w c t. induction fuel as [|fuel IH]; intros p s w c t; cbn [show_text]; ty. Qed.
#[local] Hint Resolve ty_show_pair ty_show_if ty_show_addr ty_show_text : typed.
Lemma ty_show_account n a b c : ok (show_account n a b c).
Proof. unfold show_account. ty. Qed.
#[local] Hint Resolve ty_show_account : typed.
Lemma ty_nicklookup n t : ok (nicklookup n t).
Proof. unfold nicklookup. ty. Qed.
#[local] Hint Resolve ty_nicklookup : typed.

(** ** Lost connections and the sweep (ipcf.c) *)

Lemma ty_bump f : ok (bump f).
Proof. unfold bump. ty. Qed.
Lemma ty_icbexit : ok icbexit.
Proof. unfold icbexit. ty. Qed.
Lemma ty_notify_off n u : ok (notify_off n u).
Proof. unfold notify_off. ty. Qed.
#[local] Hint Resolve ty_bump ty_icbexit ty_notify_off : typed.
Lemma ty_lost_mod m r t : fits t MAX_NICKLEN → ok (lost_mod m r t).
Proof. unfold lost_mod. intros. ty. Qed.
#[local] Hint Resolve ty_lost_mod : typed.
Lemma ty_lost_mods fuel n r t : fits t MAX_NICKLEN → ok (lost_mods fuel n r t).
Proof. intros Ht. induction fuel as [|fuel IH]; cbn [lost_mods]; ty. Qed.
#[local] Hint Resolve ty_lost_mods : typed.
Lemma ty_lost_user n : ok (s_lost_user n).
Proof. unfold s_lost_user. ty. Qed.
Lemma ty_warn_shutdown t b k m : ok (warn_shutdown t b k m).
Proof. unfold warn_shutdown. ty. Qed.
Lemma ty_kill_pending : ok kill_pending.
Proof. unfold kill_pending. ty. Qed.
Lemma ty_check_idle_mod t i : ok (check_idle_mod t i).
Proof. unfold check_idle_mod. ty. Qed.
Lemma ty_pass_mod t i : ok (pass_mod t i).
Proof. unfold pass_mod. ty. Qed.
Lemma ty_let_go i j : ok (let_go i j).
Proof. unfold let_go. ty. Qed.
#[local] Hint Resolve ty_lost_user ty_warn_shutdown ty_kill_pending ty_check_idle_mod ty_pass_mod ty_let_go : typed.
Lemma ty_idle_boot t i : ok (idle_boot t i).
Proof. unfold idle_boot. ty. Qed.
#[local] Hint Resolve ty_idle_boot : typed.
Lemma ty_didpoll n : ok (s_didpoll n).
Proof. unfold s_didpoll. ty. Qed.
#[local] Hint Resolve ty_didpoll : typed.

(** ** Users (s_user.c, s_person.c, s_beep.c) *)

Lemma ty_toggle_name n get set max w q c f l (added : M st unit) :
  (1 ≤ max)%nat → (∀ u, user_ok u → fits (get u) max) → (∀ u l, user_ok u → fits l max → user_ok (set l u)) →
  ok added → ok (toggle_name n get set max w q c f l added).
Proof.
  intros Hmax Hget Hset Hadd. unfold toggle_name. ty;
    (eapply ty_mono; [apply ty_upd_user|done]); intros v Hv; apply Hset; try done;
    [by apply fits_mru_delete, Hget|by apply fits_mru_put; [|apply Hget]].
Qed.
Lemma ty_send_names n c l : ok (send_names n c l).
Proof. unfold send_names. ty. Qed.
#[local] Hint Resolve ty_send_names : typed.
Lemma ty_list_hushed n : ok (list_hushed n).
Proof. unfold list_hushed. ty. Qed.
#[local] Hint Resolve ty_list_hushed : typed.
#[local] Hint Resolve uo_pri_n uo_pub_n uo_pri_s uo_pub_s uo_n_notifies uo_s_notifies : typed.
#[local] Hint Extern 1 (typed _ (toggle_name _ _ _ _ _ _ _ _ _ _)) => apply ty_toggle_name; [unfold MAX_HUSHED, MAX_NOTIFIES; lia|eauto 2 with typed|intros; ty_record|ty] : typed.
Lemma ty_hush_who n w m p o q : ok (hush_who n w m p o q).
Proof. unfold hush_who. ty. Qed.
#[local] Hint Resolve ty_hush_who : typed.
Lemma ty_hush n a f : ok (s_hush n a f).
Proof. unfold s_hush. ty. Qed.
Lemma ty_list_notifies n : ok (list_notifies n).
Proof. unfold list_notifies. ty. Qed.
#[local] Hint Resolve ty_hush ty_list_notifies : typed.
Lemma ty_notify n a f : ok (s_notify n a f).
Proof. unfold s_notify. ty. Qed.
Lemma ty_tell_unproved n : ok (tell_unproved n).
Proof. unfold tell_unproved. ty. Qed.
Lemma ty_recognise n : ok (recognise n).
Proof. unfold recognise. ty. Qed.
#[local] Hint Resolve ty_notify ty_tell_unproved ty_recognise : typed.
Lemma ty_settle_nick n : ok (settle_nick n).
Proof. unfold settle_nick. ty. Qed.
#[local] Hint Resolve ty_settle_nick : typed.
Lemma ty_name n a f : ok (s_name n a f).
Proof. unfold s_name. ty. Qed.
Lemma ty_echoback n a f : ok (s_echoback n a f).
Proof. unfold s_echoback. ty. Qed.
Lemma ty_nobeep n a f : ok (s_nobeep n a f).
Proof. unfold s_nobeep. ty. Qed.
Lemma ty_now_usec : ok now_usec.
Proof. unfold now_usec. ty. Qed.
#[local] Hint Resolve ty_name ty_echoback ty_nobeep ty_now_usec : typed.
Lemma ty_ping n a f : slot n → ok (s_ping n a f).
Proof. unfold s_ping. intros. ty. Qed.
Lemma ty_noaway n a : ok (s_noaway n a).
Proof. unfold s_noaway. ty. Qed.
Lemma ty_away n a f : ok (s_away n a f).
Proof. unfold s_away. ty. Qed.
Lemma ty_away_handle n d : ok (away_handle n d).
Proof. unfold away_handle. ty. Qed.
#[local] Hint Resolve ty_ping ty_noaway ty_away ty_away_handle : typed.
Lemma ty_personal n a f : ok (s_personal n a f).
Proof. unfold s_personal. ty. Qed.
Lemma ty_beep n a f : ok (s_beep n a f).
Proof. unfold s_beep. ty. Qed.
#[local] Hint Resolve ty_personal ty_beep : typed.
End handlers.

#[export] Hint Resolve ty_gettime ty_time ty_db_open ty_db_close ty_db_get_str ty_db_get_int ty_db_set
  ty_db_delete ty_setsecure ty_valuser ty_nickdelete ty_nickwritemsg ty_nickckmsg ty_read_one ty_nickreadmsg
  ty_nickchinfo ty_nickchpass ty_regain_mod ty_regain_mods ty_tell_messages ty_mark_registered fits_cut
  ty_nickwrite ty_line_fits ty_show_pair ty_show_if ty_show_addr ty_show_text ty_show_account ty_nicklookup
  ty_bump ty_icbexit ty_notify_off ty_lost_mod ty_lost_mods ty_lost_user ty_warn_shutdown ty_kill_pending
  ty_check_idle_mod ty_pass_mod ty_let_go ty_idle_boot ty_didpoll ty_send_names ty_list_hushed uo_pri_n
  uo_pub_n uo_pri_s uo_pub_s uo_n_notifies uo_s_notifies ty_hush_who ty_hush ty_list_notifies ty_notify
  ty_tell_unproved ty_recognise ty_settle_nick ty_name ty_echoback ty_nobeep ty_now_usec ty_ping ty_noaway
  ty_away ty_away_handle ty_personal ty_beep : typed.
#[export] Hint Extern 1 (typed _ (toggle_name _ _ _ _ _ _ _ _ _ _)) => apply ty_toggle_name; [unfold MAX_HUSHED, MAX_NOTIFIES; lia|eauto 2 with typed|intros; ty_record|ty] : typed.
