(* ===== verification/TypedPacket.v ===== *)
(** * Types of the listings, the files and the packets

    Every function of s_who.c, s_motd.c, s_news.c, s_info.c, s_stats.c,
    s_admin.c, s_auto.c, msgs.c and dispatch.c keeps the types of [Typing]. *)

From Stdlib Require Import ZArith Lia String.
From S2P Require Import Config Prelude Utf8 StrUtil Wildmat NameList Lookup CLib Monad Dbm IcbDb State Tables Send GroupCast World Access GroupChange GroupMod GroupStatus Lifecycle UserCmd Who Info Admin Auto Msgs Typing TypedSend TypedGroup TypedUser.

Local Open Scope Z_scope.
Local Open Scope icb_monad_scope.

Section handlers.
Context `{BuildConfig} `{Host} `{Commands} `{!TypedCommands}.

(** ** Listings (s_who.c) *)

Lemma ty_pgm_short n w : ok (pgm_short n w).
Proof.
  unfold pgm_short. ty.
  match goal with |- ok (_ _ ?k ?l) => generalize l; generalize k end.
  match goal with us : list (Z * user) |- _ => induction us as [|[i u] us IH]; intros k l; [ty|] end. ty.
Qed.
Lemma ty_pgm_long n w : ok (pgm_long n w).
Proof. unfold pgm_long. ty. Qed.
#[local] Hint Resolve ty_pgm_short ty_pgm_long : typed.
Lemma ty_print_group_members n w f : ok (print_group_members n w f).
Proof. unfold print_group_members. ty. Qed.
Lemma ty_who_invited u g : ok (who_invited u g).
Proof. unfold who_invited. ty. Qed.
Lemma ty_option_char l i : ok (option_char l i).
Proof. unfold option_char. ty. Qed.
Lemma ty_mod_text g : ok (mod_text g).
Proof. unfold mod_text. ty. Qed.
#[local] Hint Resolve ty_print_group_members ty_who_invited ty_option_char ty_mod_text : typed.
Lemma ty_print_group_header n g : ok (print_group_header n g).
Proof. unfold print_group_header. ty. Qed.
#[local] Hint Resolve ty_print_group_header : typed.
Lemma ty_doOne n f t : ok (doOne n f t).
Proof. unfold doOne. ty. Qed.
Lemma ty_listed m u ig : ok (listed m u ig).
Proof. unfold listed. ty. Qed.
#[local] Hint Resolve ty_doOne ty_listed : typed.
Lemma ty_filter_m {A} (p : A → M st bool) l : (∀ x, ok (p x)) → ok (filter_m p l).
Proof. intros Hp. induction l as [|x l IH]; cbn [filter_m]; ty. Qed.
#[local] Hint Resolve ty_filter_m : typed.
Lemma ty_doAll n f : ok (doAll n f).
Proof. unfold doAll. ty. Qed.
#[local] Hint Resolve ty_doAll : typed.
Lemma ty_who n a f : ok (s_who n a f).
Proof. unfold s_who. ty. Qed.
#[local] Hint Resolve ty_who : typed.

(** ** Files and facts (s_motd.c, s_news.c, s_info.c and others) *)

Lemma ty_show_file k n b t : ok (show_file k n b t).
Proof. revert t. induction b as [|c b IH]; intros t; cbn [show_file]; ty. Qed.
#[local] Hint Resolve ty_show_file : typed.
Lemma ty_help n a : ok (s_help n a).
Proof. unfold s_help. ty. Qed.
Lemma ty_motd_loop n b t : ok (motd_loop n b t).
Proof.
  revert t. induction b as [b IH] using (induction_ltof1 _ length); unfold ltof in IH.
  intros t. destruct b as [|c b]; cbn [motd_loop]; [ty|]. assert (∀ t, ok (motd_loop n b t)) as IHb by (apply IH; simpl; lia).
  destruct b as [|d b]; [ty|]. assert (∀ t, ok (motd_loop n b t)) as IHd by (apply IH; simpl; lia). ty.
Qed.
#[local] Hint Resolve ty_help ty_motd_loop : typed.
Lemma ty_motd n a : ok (s_motd n a).
Proof. unfold s_motd. ty. Qed.
Lemma ty_news_item n b i : ok (news_item n b i).
Proof. unfold news_item. ty. Qed.
#[local] Hint Resolve ty_motd ty_news_item : typed.
Lemma ty_news_items n l b : ok (news_items n l b).
Proof. revert b. induction l as [|i l IH]; intros b; cbn [news_items]; ty. Qed.
#[local] Hint Resolve ty_news_items : typed.
Lemma ty_news n a f : ok (s_news n a f).
Proof. unfold s_news. ty. Qed.
Lemma ty_info n a f : ok (s_info n a f).
Proof. unfold s_info. ty. Qed.
Lemma ty_version n a : ok (s_version n a).
Proof. unfold s_version. ty. Qed.
Lemma ty_double q : ok (double_to_int q).
Proof. unfold double_to_int. ty. Qed.
#[local] Hint Resolve ty_news ty_info ty_version ty_double : typed.
Lemma ty_shuttime n a : ok (s_shuttime n a).
Proof. unfold s_shuttime. ty. Qed.
Lemma ty_server_stats n a f : ok (s_server_stats n a f).
Proof. unfold s_server_stats. ty. Qed.
#[local] Hint Resolve ty_shuttime ty_server_stats : typed.

(** ** The administrator and the resident user (s_admin.c, s_auto.c) *)

Lemma ty_announce c m : ok (announce c m).
Proof. unfold announce. ty. Qed.
#[local] Hint Resolve ty_announce : typed.
Lemma ty_log n a f : ok (s_log n a f).
Proof. unfold s_log. ty. Qed.
Lemma ty_drop n a f : ok (s_drop n a f).
Proof. unfold s_drop. ty. Qed.
Lemma ty_shutdown_time a b : ok (shutdown_time a b).
Proof. unfold shutdown_time. ty. Qed.
#[local] Hint Resolve ty_log ty_drop ty_shutdown_time : typed.
Lemma ty_shutdown n a f : ok (s_shutdown n a f).
Proof. unfold s_shutdown. ty. Qed.
Lemma ty_restart n a f : ok (s_restart n a f).
Proof. unfold s_restart. ty. Qed.
Lemma ty_wall n a f : ok (s_wall n a f).
Proof. unfold s_wall. ty. Qed.
Lemma ty_change_info n a b c d e : ok (change_info n a b c d e).
Proof. unfold change_info. ty. Qed.
#[local] Hint Resolve ty_shutdown ty_restart ty_wall ty_change_info : typed.
Lemma ty_auto_command n w f : ok (auto_command n w f).
Proof. unfold auto_command. ty. Qed.
#[local] Hint Resolve ty_auto_command : typed.
Lemma ty_auto n f g : ok (s_auto n f g).
Proof. unfold s_auto. ty. Qed.
#[local] Hint Resolve ty_auto : typed.

(** ** Packets (msgs.c, dispatch.c) *)

Lemma ty_split_m p : ok (split_m p).
Proof. unfold split_m. ty. Qed.
Lemma ty_field fs i : ok (field fs i).
Proof. unfold field. ty. Qed.
Lemma ty_password_field fs : ok (password_field fs).
Proof. unfold password_field. ty. Qed.
Lemma ty_vmdb_stale l : ok (vmdb_stale l).
Proof. unfold vmdb_stale. ty. Qed.
Lemma ty_get_perms n l : ok (get_perms n l).
Proof. unfold get_perms. ty. Qed.
Lemma ty_denied n o : ok (denied n o).
Proof. unfold denied. ty. Qed.
#[local] Hint Resolve ty_split_m ty_field ty_password_field ty_vmdb_stale ty_get_perms ty_denied : typed.
Lemma ty_login_checks n a b : ok (login_checks n a b).
Proof. unfold login_checks. ty. Qed.
Lemma ty_group_of_user n w : ok (group_of_user n w).
Proof. unfold group_of_user. ty. Qed.
Lemma ty_login_prove n : ok (login_prove n).
Proof. unfold login_prove. ty. Qed.
#[local] Hint Resolve ty_login_checks ty_group_of_user ty_login_prove : typed.
Lemma ty_login_standing n : ok (login_standing n).
Proof. unfold login_standing. ty. Qed.
Lemma ty_tell_invitations n : ok (tell_invitations n).
Proof. unfold tell_invitations. ty. Qed.
Lemma ty_notify_on n : ok (notify_on n).
Proof. unfold notify_on. ty. Qed.
Lemma user_ok_pending t u : user_ok u → user_ok (pending_user t u).
Proof. intros Hu. unfold pending_user. apply user_ok_new_lists. ty_record. Qed.
#[local] Hint Resolve ty_login_standing ty_tell_invitations ty_notify_on user_ok_pending : typed.
#[local] Hint Extern 1 (typed _ (fill_user_entry _ _ _ _ _ _ _ _ _ _ _)) => apply ty_fill_user_entry; ty_ranges : typed.
Lemma ty_login_enter n t a b p w q : ok (login_enter n t a b p w q).
Proof. unfold login_enter. ty. Qed.
#[local] Hint Resolve ty_login_enter : typed.
Lemma ty_loginmsg n p : ok (loginmsg n p).
Proof. unfold loginmsg. ty. Qed.
Lemma ty_spam_check n t : ok (spam_check n t).
Proof. unfold spam_check. ty. Qed.
Lemma ty_open_to_group n t : ok (open_to_group n t).
Proof. unfold open_to_group. ty. Qed.
#[local] Hint Resolve ty_loginmsg ty_spam_check ty_open_to_group : typed.
Lemma ty_openmsg n p : ok (openmsg n p).
Proof. unfold openmsg. ty. Qed.
Lemma ty_run_command n a w f m : slot n → run_command n a w f = Some m → ok m.
Proof.
  intros Hn. unfold run_command. repeat (destruct (_ =? _); [intros [= <-]; auto with typed|]).
  all: repeat (destruct (_ || _); [intros [= <-]; auto with typed|]).
  all: repeat (destruct (_ =? _); [intros [= <-]; auto with typed|]). done.
Qed.
#[local] Hint Resolve ty_openmsg ty_run_command : typed.
Lemma ty_handle_command n p : ok (handle_command n p).
Proof. unfold handle_command. ty. Qed.
Lemma ty_pong n : ok (pong n).
Proof. unfold pong. ty. Qed.
Lemma ty_ok2read n : ok (ok2read n).
Proof. unfold ok2read. ty. Qed.
Lemma ty_dispatch_login n p : ok (dispatch_login n p).
Proof. unfold dispatch_login. ty. Qed.
#[local] Hint Resolve ty_handle_command ty_pong ty_ok2read ty_dispatch_login : typed.
Lemma ty_dispatch n p : ok (dispatch n p).
Proof. unfold dispatch. ty. Qed.
#[local] Hint Resolve ty_dispatch : typed.
Lemma ty_packet n p : ok (s_packet n p).
Proof. unfold s_packet. ty. Qed.
#[local] Hint Resolve ty_packet : typed.
End handlers.

#[export] Hint Resolve ty_pgm_short ty_pgm_long ty_print_group_members ty_who_invited ty_option_char
  ty_mod_text ty_print_group_header ty_doOne ty_listed ty_filter_m ty_doAll ty_who ty_show_file ty_help
  ty_motd_loop ty_motd ty_news_item ty_news_items ty_news ty_info ty_version ty_double ty_shuttime
  ty_server_stats ty_announce ty_log ty_drop ty_shutdown_time ty_shutdown ty_restart ty_wall ty_change_info
  ty_auto_command ty_auto ty_split_m ty_field ty_password_field ty_vmdb_stale ty_get_perms ty_denied ty_login_checks ty_group_of_user
  ty_login_prove ty_login_standing ty_tell_invitations ty_notify_on user_ok_pending ty_login_enter ty_loginmsg
  ty_spam_check ty_open_to_group ty_openmsg ty_run_command ty_handle_command ty_pong ty_ok2read
  ty_dispatch_login ty_dispatch ty_packet : typed.
#[export] Hint Extern 1 (typed _ (fill_user_entry _ _ _ _ _ _ _ _ _ _ _)) => apply ty_fill_user_entry; ty_ranges : typed.
