(* ===== verification/Dump.v ===== *)
(** * The dump of the state and its reload (server/icbutil.c, pktserv.c)

    On SIGUSR1 and before a restart the server writes its poll set and its
    tables to a text file, a number or a text to a line; on SIGUSR2 and after a
    restart it reads them back with [fscanf] and [fgets].  The file, the two
    port variables of pktserv.c, the poll set and the tables are the state of a
    process. *)

From Stdlib Require Import ZArith Lia String.
From S2P Require Import Config Prelude Utf8 StrUtil Wildmat NameList Lookup CLib Monad Dbm IcbDb PktBuffers SslSocket PktSocket PktServ State Tables Send GroupCast World Access Lifecycle Typing.

Local Open Scope Z_scope.
Local Open Scope icb_monad_scope.

Definition NL : byte := x0a.

(** A process: the packet server with the tables above it, the variables
    [port_fd] and [sslport_fd] (which nothing but a reload sets), and the dump
    file, if there is one. *)
Record process : Type := Process {
  p_net : net st;
  port_fd : Z;
  sslport_fd : Z;
  dumpfile : option cstring
}.

Definition tables_of (p : process) : st := upper (p_net p).

(** ** Writing *)

(** ["%d\n"], ["%ld\n"] and ["%sX\n"]. *)
Definition dump_int (z : Z) : cstring := itoa z ++ [NL].
Definition dump_text (t : cstring) : cstring := t ++ str "X" ++ [NL].
(** The count of a name list, and its names from the head on. *)
Definition dump_names (l : list cstring) : cstring :=
  dump_int (Z.of_nat (length l)) ++ mjoin (dump_text <$> l).

Definition dump_sockets (p : process) : cstring :=
  mjoin (dump_int <$> pktserv_dumpsockets (p_net p)) ++ dump_int (port_fd p) ++ dump_int (sslport_fd p).

Definition dump_user (u : user) : cstring :=
  dump_text (u_loginid u) ++ dump_text (u_nodeid u) ++ dump_text (u_nickname u) ++ dump_text (u_password u) ++
  dump_text (u_realname u) ++ dump_text (u_group u) ++ dump_text (u_awaymsg u) ++
  dump_int (u_lastaway u) ++ dump_int (u_lastawaytime u) ++ dump_int (u_login u) ++ dump_int (u_echoback u) ++
  dump_int (u_nobeep u) ++ dump_int (u_perms u) ++ dump_int (u_t_notify u) ++ dump_int (u_t_on u) ++
  dump_int (u_t_sent u) ++ dump_int (u_t_recv u) ++ dump_int (u_t_group u) ++
  dump_names (u_pri_n_hushed u) ++ dump_names (u_pub_n_hushed u) ++ dump_names (u_pri_s_hushed u) ++
  dump_names (u_pub_s_hushed u) ++ dump_names (u_n_notifies u) ++ dump_names (u_s_notifies u).

Definition dump_group (g : group) : cstring :=
  dump_text (g_name g) ++ dump_text (g_topic g) ++ dump_int (g_visibility g) ++ dump_int (g_control g) ++
  dump_int (g_mod g) ++ dump_int (g_modtimeout g) ++ dump_text (g_missingmod g) ++ dump_int (g_volume g) ++
  dump_names (g_n_invites g) ++ dump_names (g_nr_invites g) ++ dump_names (g_s_invites g) ++
  dump_names (g_sr_invites g) ++ dump_names (g_n_bars g) ++ dump_names (g_n_nr_bars g) ++
  dump_names (g_s_bars g) ++ dump_names (g_s_nr_bars g) ++ dump_names (g_n_talk g) ++ dump_names (g_nr_talk g) ++
  dump_int (g_size g) ++ dump_int (g_idleboot g) ++ dump_text (g_idleboot_msg g) ++ dump_int (g_idlemod g).

Definition dump_tables (s : st) : cstring :=
  mjoin (dump_int <$> S_kill s) ++ mjoin (dump_user <$> u_tab s) ++ mjoin (dump_group <$> g_tab s).

(** [icbdump]; [writable] says whether the file can be opened. *)
Definition icbdump (writable : bool) (p : process) : process :=
  if writable then
    Process (p_net p) (port_fd p) (sslport_fd p) (Some (dump_sockets p ++ dump_tables (tables_of p)))
  else p.

(** ** Reading *)

(** The reload: the rest of the file, the variables [j], [k] and [name] of
    [icbload], unset at first, and the process. *)
Record loading : Type := Loading {
  l_file : cstring;
  l_j : option Z;
  l_k : option Z;
  l_name : option cstring;
  l_proc : process
}.

Definition set_file (x : cstring) (l : loading) : loading := Loading x (l_j l) (l_k l) (l_name l) (l_proc l).
Definition set_j (x : Z) (l : loading) : loading := Loading (l_file l) (Some x) (l_k l) (l_name l) (l_proc l).
Definition set_k (x : Z) (l : loading) : loading := Loading (l_file l) (l_j l) (Some x) (l_name l) (l_proc l).
Definition set_name_buf (x : cstring) (l : loading) : loading := Loading (l_file l) (l_j l) (l_k l) (Some x) (l_proc l).
Definition set_proc (x : process) (l : loading) : loading := Loading (l_file l) (l_j l) (l_k l) (l_name l) x.

Definition set_net (x : net st) (p : process) : process := Process x (port_fd p) (sslport_fd p) (dumpfile p).
Definition set_port_fd (x : Z) (p : process) : process := Process (p_net p) x (sslport_fd p) (dumpfile p).
Definition set_sslport_fd (x : Z) (p : process) : process := Process (p_net p) (port_fd p) x (dumpfile p).
Definition set_dumpfile (x : option cstring) (p : process) : process := Process (p_net p) (port_fd p) (sslport_fd p) x.
Definition set_upper (x : st) (n : net st) : net st :=
  Net _ (cbufs n) (g_pollset n) (g_pollsetsize n) (accepts n) (closed n) x.

(** The process with other tables. *)
Definition with_tables (s : st) (p : process) : process := set_net (set_upper s (p_net p)) p.

Definition in_net {A} (m : M (net st) A) : M loading A := λ l,
  match m (p_net (l_proc l)) with
  | Some (a, n) => Some (a, set_proc (set_net n (l_proc l)) l)
  | None => None
  end.
Definition in_tables {A} (m : M st A) : M loading A := in_net (λ n,
  match m (upper n) with Some (a, s) => Some (a, set_upper s n) | None => None end).

(** *** fscanf and fgets *)

Fixpoint skip_digits (s : cstring) : cstring :=
  match s with c :: s' => if is_digit c then skip_digits s' else s | [] => [] end.

(** The directives ["%ld\n"]: white space, a sign, digits, and white space
    again, the blanks at the start of the next line included.  Without a digit
    the directive fails and reads no further. *)
Definition scan_num (s : cstring) : option Z * cstring :=
  let s := skip_space s in
  let '(neg, s) :=
    match s with
    | c :: s' => if Byte.eqb c "-" then (true, s') else if Byte.eqb c "+" then (false, s') else (false, s)
    | [] => (false, s)
    end in
  match s with
  | c :: _ =>
      if is_digit c then
        let v := read_digits 0 s in
        (Some (Z.max LONG_MIN (Z.min LONG_MAX (if neg : bool then - v else v))), skip_space (skip_digits s))
      else (None, s)
  | [] => (None, s)
  end.

Definition scan_long : M loading (option Z) := λ l,
  let '(v, rest) := scan_num (l_file l) in Some (v, set_file rest l).
(** ["%d"] keeps the low 32 bits. *)
Definition scan_int : M loading (option Z) := v <- scan_long ;; ret (to_int <$> v).

Definition get_j : M loading Z := l <- getS ;; lift (l_j l).
Definition get_k : M loading Z := l <- getS ;; lift (l_k l).
Definition scan_j : M loading unit :=
  v <- scan_int ;; match v with Some z => modify (set_j z) | None => ret tt end.
Definition scan_k : M loading unit :=
  v <- scan_long ;; match v with Some z => modify (set_k z) | None => ret tt end.

(** At most [n] bytes, up to the end of the line. *)
Fixpoint take_line (n : nat) (s : cstring) : cstring * cstring :=
  match n, s with
  | S n', c :: s' =>
      if Byte.eqb c NL then ([c], s') else let '(t, rest) := take_line n' s' in (c :: t, rest)
  | _, _ => ([], s)
  end.

(** [fgets(name, sizeof(name), dump)]; at the end of the file [name] stays. *)
Definition fgets_name : M loading unit := λ l,
  match l_file l with
  | [] => Some (tt, l)
  | _ :: _ => let '(t, rest) := take_line 255 (l_file l) in Some (tt, set_name_buf t (set_file rest l))
  end.

(** The first [strlen(name) - 2] bytes of [name]; the count is unsigned. *)
Definition cut_name : M loading cstring :=
  l <- getS ;; name <- lift (l_name l) ;;
  let t := until_nul name in
  if (length t <? 2)%nat then ub else ret (take (length t - 2) t).

(** *** The parts of the reload *)

(** [strncpy] and the terminator, into a field for [max] bytes and a NUL. *)
Definition load_text (max : nat) (store : cstring → M st unit) : M loading unit :=
  fgets_name ;; t <- cut_name ;;
  if (max <? length t)%nat then ub else in_tables (store t).

Definition load_int (store : Z → M st unit) : M loading unit := scan_j ;; j <- get_j ;; in_tables (store j).
Definition load_long (store : Z → M st unit) : M loading unit := scan_k ;; k <- get_k ;; in_tables (store k).

Fixpoint load_loop (n : nat) (put : cstring → M st unit) : M loading unit :=
  match n with
  | O => ret tt
  | S n' => fgets_name ;; t <- cut_name ;; in_tables (put t) ;; load_loop n' put
  end.
(** [for (; j > 0; j--)]; a name fits the 256 bytes of [name2]. *)
Definition load_names (put : cstring → M st unit) : M loading unit :=
  scan_j ;; j <- get_j ;; load_loop (Z.to_nat j) put ;; when (0 <? j) (modify (set_j 0)).

(** Conversion to [short] keeps the low 16 bits. *)
Definition to_short (z : Z) : Z := (z + 2 ^ 15) mod 2 ^ 16 - 2 ^ 15.

Section code.
Context `{BuildConfig} `{Host} `{Commands}.
(** Whether memory is available. *)
Context (mem : bool).

(** [add_pollfd] where [g_pollsetsize] may exceed the array: the search may not
    pass the end of the array. *)
Definition add_loaded_pollfd (fd : Z) : M (net st) unit := λ n,
  if (g_pollsetsize n <=? length (g_pollset n))%nat || existsb (λ p, p_fd p =? fd) (g_pollset n)
  then (_ <- add_pollfd mem fd ;; ret tt) n else None.

(** The loop over the sockets.  [add_pollfd] may move its end; every time it
    does, a number has been read. *)
Fixpoint load_sockets (fuel : nat) (i : nat) (k : Z) : M loading unit :=
  match fuel with
  | O => ub
  | S fuel' =>
      l <- getS ;;
      if (i <? g_pollsetsize (p_net (l_proc l)))%nat then
        v <- scan_int ;;
        let k := default k v in
        in_net (add_loaded_pollfd k) ;;
        load_sockets fuel' (S i) k
      else ret tt
  end.

(** A negative size, which no dump has, is not followed. *)
Definition pktserv_loadsockets : M loading unit :=
  v <- scan_int ;; k <- lift v ;;
  if k <? 0 then ub else
  in_net (modify (λ n, set_pollset (g_pollset n) (Z.to_nat k) n)) ;;
  l <- getS ;;
  load_sockets (Z.to_nat k + length (l_file l) + 1) 0 k ;;
  v <- scan_int ;;
  match v with Some z => modify (λ l, set_proc (set_port_fd z (l_proc l)) l) | None => ret tt end ;;
  v <- scan_int ;;
  match v with Some z => modify (λ l, set_proc (set_sslport_fd z (l_proc l)) l) | None => ret tt end.

(** All lists of a user were made for [MAX_HUSHED] names by [clear_users]. *)
Definition load_user (i : Z) : M loading unit :=
  load_text MAX_IDLEN (λ t, upd_user i (set_u_loginid t)) ;;
  load_text MAX_NODELEN (λ t, upd_user i (set_u_nodeid t)) ;;
  load_text MAX_NICKLEN (λ t, upd_user i (set_u_nickname t)) ;;
  load_text MAX_PASSWDLEN (λ t, upd_user i (set_u_password t)) ;;
  load_text MAX_REALLEN (λ t, upd_user i (set_u_realname t)) ;;
  load_text MAX_GROUPLEN (λ t, upd_user i (set_u_group t)) ;;
  load_text MAX_AWAY_LEN (λ t, upd_user i (set_u_awaymsg t)) ;;
  load_int (λ j, upd_user i (set_u_lastaway j)) ;;
  (scan_k ;; j <- get_j ;; in_tables (upd_user i (set_u_lastawaytime j))) ;;
  load_int (λ j, upd_user i (set_u_login j)) ;;
  load_int (λ j, upd_user i (set_u_echoback j)) ;;
  load_int (λ j, upd_user i (set_u_nobeep j)) ;;
  load_long (λ k, upd_user i (set_u_perms k)) ;;
  load_int (λ j, upd_user i (set_u_t_notify j)) ;;
  load_long (λ k, upd_user i (set_u_t_on k)) ;;
  load_long (λ k, upd_user i (set_u_t_sent k)) ;;
  load_long (λ k, upd_user i (set_u_t_recv k)) ;;
  load_long (λ k, upd_user i (set_u_t_group k)) ;;
  load_names (λ t, upd_user i (λ u, set_u_pri_n_hushed (mru_put MAX_HUSHED t (u_pri_n_hushed u)) u)) ;;
  load_names (λ t, upd_user i (λ u, set_u_pub_n_hushed (mru_put MAX_HUSHED t (u_pub_n_hushed u)) u)) ;;
  load_names (λ t, upd_user i (λ u, set_u_pri_s_hushed (mru_put MAX_HUSHED t (u_pri_s_hushed u)) u)) ;;
  load_names (λ t, upd_user i (λ u, set_u_pub_s_hushed (mru_put MAX_HUSHED t (u_pub_s_hushed u)) u)) ;;
  load_names (λ t, upd_user i (λ u, set_u_n_notifies (mru_put MAX_HUSHED t (u_n_notifies u)) u)) ;;
  load_names (λ t, upd_user i (λ u, set_u_s_notifies (mru_put MAX_HUSHED t (u_s_notifies u)) u)).

Definition load_group (i : Z) : M loading unit :=
  load_text MAX_GROUPLEN (λ t, upd_group i (set_g_name t)) ;;
  load_text MAX_TOPICLEN (λ t, upd_group i (set_g_topic t)) ;;
  load_int (λ j, upd_group i (set_g_visibility j)) ;;
  load_int (λ j, upd_group i (set_g_control j)) ;;
  load_int (λ j, upd_group i (set_g_mod j)) ;;
  load_long (λ k, upd_group i (set_g_modtimeout k)) ;;
  load_text MAX_NICKLEN (λ t, upd_group i (set_g_missingmod t)) ;;
  load_int (λ j, upd_group i (set_g_volume j)) ;;
  load_names (λ t, upd_group i (λ g, set_g_n_invites (mru_put MAX_INVITES t (g_n_invites g)) g)) ;;
  load_names (λ t, upd_group i (λ g, set_g_nr_invites (mru_put MAX_INVITES t (g_nr_invites g)) g)) ;;
  load_names (λ t, upd_group i (λ g, set_g_s_invites (mru_put MAX_INVITES t (g_s_invites g)) g)) ;;
  load_names (λ t, upd_group i (λ g, set_g_sr_invites (mru_put MAX_INVITES t (g_sr_invites g)) g)) ;;
  load_names (λ t, upd_group i (λ g, set_g_n_bars (mru_put MAX_INVITES t (g_n_bars g)) g)) ;;
  load_names (λ t, upd_group i (λ g, set_g_n_nr_bars (mru_put MAX_INVITES t (g_n_nr_bars g)) g)) ;;
  load_names (λ t, upd_group i (λ g, set_g_s_bars (mru_put MAX_INVITES t (g_s_bars g)) g)) ;;
  load_names (λ t, upd_group i (λ g, set_g_s_nr_bars (mru_put MAX_INVITES t (g_s_nr_bars g)) g)) ;;
  load_names (λ t, upd_group i (λ g, set_g_n_talk (mru_put MAX_INVITES t (g_n_talk g)) g)) ;;
  load_names (λ t, upd_group i (λ g, set_g_nr_talk (mru_put MAX_INVITES t (g_nr_talk g)) g)) ;;
  load_int (λ j, upd_group i (set_g_size j)) ;;
  load_int (λ j, upd_group i (set_g_idleboot j)) ;;
  load_text (IDLEBOOT_MSG_LEN - 1) (λ t, upd_group i (set_g_idleboot_msg t)) ;;
  load_int (λ j, upd_group i (set_g_idlemod j)).

Definition load_kills : M loading unit :=
  for_each (zseq (Z.of_nat MAX_USERS)) (λ i,
    load_long (λ k, set_int S_kill set_S_kill i (to_short k))).

(** What [icbload] does once the tables are cleared. *)
Definition load_state : M loading unit :=
  pktserv_loadsockets ;;
  load_kills ;;
  for_each (zseq (Z.of_nat MAX_USERS)) load_user ;;
  for_each (zseq (Z.of_nat MAX_GROUPS)) load_group.

(** [icbload]; the file is removed at the end. *)
Definition icbload : M process unit := λ p,
  match dumpfile p with
  | None => Some (tt, p)
  | Some text =>
      match (in_tables (init_groups ;; clear_users) ;; load_state) (Loading text None None None p) with
      | Some (_, l) => Some (tt, set_dumpfile None (l_proc l))
      | None => None
      end
  end.

Definition on_tables {A} (m : M st A) : M process A := λ p,
  match m (upper (p_net p)) with
  | Some (a, s) => Some (a, with_tables s p)
  | None => None
  end.

(** [main] with -R, from the tables on: the tables are cleared and loaded and
    the users are told, then the arrays of the pings are cleared. *)
Definition restarted (quiet : bool) : M process unit :=
  on_tables (init_groups ;; clear_users) ;;
  icbload ;;
  on_tables (for_each (zseq (Z.of_nat MAX_USERS)) (λ i,
    u <- user_at i ;;
    when ((LOGIN_FALSE <? u_login u) && (negb quiet || strcaseeq (u_nickname u) (str "admin")))
      (sendimport i (if quiet then str "Quiet-Restart" else str "Restart") (str "Server is back up."))) ;;
    init_arrays).
End code.

(** ** Lines *)

(** A text that one call of [fgets] reads back. *)
Definition text_ok (t : cstring) : Prop := NL ∉ t ∧ x00 ∉ t ∧ (length t ≤ 253)%nat.
(** What the white space at the end of a directive leaves alone. *)
Definition solid (s : cstring) : Prop := skip_space s = s.
(** A text that may follow a number. *)
Definition line_ok (t : cstring) : Prop := text_ok t ∧ solid t.

Definition is_int (z : Z) : Prop := INT_MIN ≤ z ≤ INT_MAX.
Definition is_long (z : Z) : Prop := LONG_MIN ≤ z ≤ LONG_MAX.

Lemma print_nat_app fuel n acc acc' : print_nat fuel n (acc ++ acc') = print_nat fuel n acc ++ acc'.
Proof.
  revert n acc. induction fuel as [|fuel IH]; intros n acc; cbn [print_nat]; [done|].
  destruct (n <? 10); [done|]. apply (IH _ (_ :: acc)).
Qed.

Lemma skip_digits_print fuel n acc : skip_digits (print_nat fuel n acc) = skip_digits acc.
Proof.
  revert n acc. induction fuel as [|fuel IH]; intros n acc; cbn [print_nat]; [done|].
  pose proof (Z.mod_pos_bound n 10 ltac:(lia)) as Hm. destruct (digit_char _ Hm) as [E _].
  destruct (n <? 10); [|rewrite IH]; cbn [skip_digits]; by rewrite E.
Qed.

Lemma read_digits_dump n rest : 0 ≤ n < 10 ^ 20 → read_digits 0 (print_nat 20 n (NL :: rest)) = n.
Proof. intros Hn. destruct (read_print 20 n (NL :: rest) 0 Hn) as (k & _ & ->); [lia|]. cbn. lia. Qed.

Lemma scan_num_int z rest : is_long z → scan_num (dump_int z ++ rest) = (Some z, skip_space rest).
Proof.
  unfold is_long, LONG_MIN, LONG_MAX. intros Hz. unfold dump_int, itoa.
  rewrite <-app_assoc. cbn [app]. unfold scan_num. destruct (Z.ltb_spec z 0).
  - cbn [app]. rewrite <-print_nat_app. cbn [app skip_space]. change (is_space "-") with false; cbn iota.
    change (Byte.eqb "-" "-") with true; cbn iota. destruct (print_nat_head 20 (- z) (NL :: rest)) as (d & s & E & Hd); [lia|lia|].
    pose proof (read_digits_dump (- z) rest ltac:(lia)) as Hr. pose proof (skip_digits_print 20 (- z) (NL :: rest)) as Hk.
    rewrite E in *. destruct (digit_char d Hd) as [-> _]. rewrite Hr, Hk. change (skip_digits (NL :: rest)) with (NL :: rest).
    change (skip_space (NL :: rest)) with (skip_space rest). do 2 f_equal. unfold LONG_MIN, LONG_MAX. lia.
  - rewrite <-print_nat_app. cbn [app]. destruct (print_nat_head 20 z (NL :: rest)) as (d & s & E & Hd); [lia|lia|].
    pose proof (read_digits_dump z rest ltac:(lia)) as Hr. pose proof (skip_digits_print 20 z (NL :: rest)) as Hk.
    rewrite E in *. destruct (digit_not_special d Hd) as (E1 & E2 & E3). cbn [skip_space]. rewrite E1, E2, E3.
    destruct (digit_char d Hd) as [-> _]. rewrite Hr, Hk. change (skip_digits (NL :: rest)) with (NL :: rest).
    change (skip_space (NL :: rest)) with (skip_space rest). do 2 f_equal. unfold LONG_MIN, LONG_MAX. lia.
Qed.

Lemma solid_int z rest : solid (dump_int z ++ rest).
Proof.
  unfold solid, dump_int, itoa. rewrite <-app_assoc. cbn [app]. destruct (Z.ltb_spec z 0); [done|].
  rewrite <-print_nat_app. cbn [app]. destruct (print_nat_head 20 z (NL :: rest)) as (d & s & -> & Hd); [lia|lia|].
  cbn [skip_space]. by destruct (digit_not_special d Hd) as (-> & _).
Qed.

Lemma solid_text t rest : solid t → solid (dump_text t ++ rest).
Proof.
  unfold solid, dump_text. destruct t as [|c t]; [done|]. cbn [skip_space app]. destruct (is_space c) eqn:Ec; [|done].
  intros E. exfalso. assert (length (skip_space t) ≤ length t)%nat.
  { clear. induction t as [|c t IH]; cbn; [done|]. destruct (is_space c); cbn; lia. }
  rewrite E in H. cbn in H. lia.
Qed.

Lemma solid_names l rest : solid (dump_names l ++ rest).
Proof. unfold dump_names. rewrite <-app_assoc. apply solid_int. Qed.

Lemma take_line_text n t rest :
  NL ∉ t → (length t + 2 ≤ n)%nat → take_line n (dump_text t ++ rest) = (t ++ str "X" ++ [NL], rest).
Proof.
  unfold dump_text. revert n. induction t as [|c t IH]; intros n Ht Hn; cbn [length] in Hn.
  - destruct n as [|[|n]]; [lia|lia|done].
  - destruct n as [|n]; [lia|]. cbn [app take_line]. destruct (Byte.eqb c NL) eqn:Ec.
    { apply Byte.byte_dec_bl in Ec. subst c. set_solver. }
    rewrite IH by (set_solver || lia). done.
Qed.

Lemma until_nul_text t : x00 ∉ t → until_nul (t ++ str "X" ++ [NL]) = t ++ str "X" ++ [NL].
Proof. intros Ht. apply until_nul_id. rewrite !not_elem_of_app. split; [done|]. split; vm_compute; set_solver. Qed.

(** The names are put into the new list from the head of the old one on, which
    reverses them, and if they are too many the first ones are lost. *)
Definition reload_names (max : nat) (l : list cstring) : list cstring := foldl (λ l t, mru_put max t l) [] l.

(** ** Reading a record back

    [reads r file l]: the record under consideration is [r] and the file is
    still to be read from [file] on.  The record is anywhere in the tables:
    [upd] updates it and [wr] says what the tables are when it has a value. *)

Section record.
Context {R : Type} (upd : (R → R) → M st unit) (wr : R → st) (p : process).
Context (Hupd : ∀ f r, upd f (wr r) = Some (tt, wr (f r))).

Definition reads (r : R) (file : cstring) (l : loading) : Prop :=
  l_file l = file ∧ l_proc l = with_tables (wr r) p.

Lemma reads_upd f r file l : reads r file l → wp (in_tables (upd f)) (λ _ l', reads (f r) file l' ∧ l_j l' = l_j l) l.
Proof.
  intros [Ef Ep]. unfold wp, in_tables, in_net. rewrite Ep. cbn. rewrite Hupd. by split.
Qed.

(** The next line, cut. *)
Lemma reads_line {B} (k : cstring → M loading B) Q r t rest l :
  text_ok t → reads r (dump_text t ++ rest) l → (∀ l', reads r rest l' → wp (k t) Q l') →
  wp (fgets_name ;; t' <- cut_name ;; k t') Q l.
Proof.
  intros (Hn & H0 & Hl) [Ef Ep] HQ. apply wp_bind. unfold wp at 1, fgets_name. rewrite Ef.
  rewrite take_line_text by (done || lia).
  destruct (dump_text t ++ rest) as [|c s] eqn:E.
  { destruct t; discriminate E. }
  apply wp_bind. unfold cut_name. apply wp_bind, wp_getS, wp_bind. eapply wp_lift; [done|]. cbv zeta.
  rewrite until_nul_text by done. assert (length (t ++ str "X" ++ [NL]) = length t + 2)%nat as El by (by rewrite length_app).
  destruct (Nat.ltb_spec (length (t ++ str "X" ++ [NL])) 2); [lia|]. apply wp_ret.
  rewrite take_app_length' by lia. apply HQ. by split.
Qed.

Lemma reads_text max f r t rest l :
  text_ok t → (length t ≤ max)%nat → reads r (dump_text t ++ rest) l →
  wp (load_text max (λ t, upd (f t))) (λ _, reads (f t r) rest) l.
Proof.
  intros Ht Hm Hl. unfold load_text. eapply reads_line; [done|done|]. intros l' Hl'.
  destruct (Nat.ltb_spec max (length t)); [lia|]. eapply wp_mono; [by apply reads_upd|]. by intros [] ? [].
Qed.

Lemma reads_scan r z rest l :
  is_long z → solid rest → reads r (dump_int z ++ rest) l →
  wp scan_long (λ v l', v = Some z ∧ reads r rest l' ∧ l_j l' = l_j l ∧ l_k l' = l_k l) l.
Proof.
  intros Hz Hs [Ef Ep]. unfold wp, scan_long. rewrite Ef, scan_num_int by done. by rewrite Hs.
Qed.

Lemma reads_scan_k r z rest l :
  is_long z → solid rest → reads r (dump_int z ++ rest) l →
  wp scan_k (λ _ l', l_k l' = Some z ∧ reads r rest l' ∧ l_j l' = l_j l) l.
Proof.
  intros Hz Hs Hl. apply wp_bind. eapply wp_mono; [by eapply reads_scan|]. intros v l' (-> & Hl' & Ej & _).
  apply wp_modify. by split.
Qed.

Lemma reads_scan_j r z rest l :
  is_int z → solid rest → reads r (dump_int z ++ rest) l →
  wp scan_j (λ _ l', l_j l' = Some z ∧ reads r rest l') l.
Proof.
  intros Hz Hs Hl. apply wp_bind. unfold scan_int. apply wp_bind. eapply wp_mono.
  { eapply reads_scan; [|done..]. unfold is_int, is_long, INT_MIN, INT_MAX, LONG_MIN, LONG_MAX in *. lia. }
  intros v l' (-> & Hl' & _). apply wp_ret.
  change (to_int <$> Some z) with (Some (to_int z)). rewrite to_int_id by done. apply wp_modify. by split.
Qed.

Lemma reads_int f r z rest l :
  is_int z → solid rest → reads r (dump_int z ++ rest) l →
  wp (load_int (λ j, upd (f j))) (λ _ l', reads (f z r) rest l' ∧ l_j l' = Some z) l.
Proof.
  intros Hz Hs Hl. apply wp_bind. eapply wp_mono; [by eapply reads_scan_j|]. intros [] l' [Ej Hl'].
  apply wp_bind, wp_bind, wp_getS. eapply wp_lift; [done|]. eapply wp_mono; [by apply reads_upd|].
  intros [] l2 [? E]. rewrite E. done.
Qed.

Lemma reads_long f r z rest l :
  is_long z → solid rest → reads r (dump_int z ++ rest) l →
  wp (load_long (λ k, upd (f k))) (λ _, reads (f z r) rest) l.
Proof.
  intros Hz Hs Hl. apply wp_bind. eapply wp_mono; [by eapply reads_scan_k|]. intros [] l' (Ek & Hl' & _).
  apply wp_bind, wp_bind, wp_getS. eapply wp_lift; [done|]. eapply wp_mono; [by apply reads_upd|].
  by intros [] l2 [? _].
Qed.

(** A number into [k], while the old [j] is stored. *)
Lemma reads_stale f r z j rest l :
  is_long z → solid rest → l_j l = Some j → reads r (dump_int z ++ rest) l →
  wp (scan_k ;; j <- get_j ;; in_tables (upd (f j))) (λ _, reads (f j r) rest) l.
Proof.
  intros Hz Hs Ej Hl. apply wp_bind. eapply wp_mono; [by eapply reads_scan_k|]. intros [] l' (_ & Hl' & E).
  rewrite Ej in E. apply wp_bind, wp_bind, wp_getS. eapply wp_lift; [done|].
  eapply wp_mono; [by apply reads_upd|]. by intros [] l2 [? _].
Qed.

Lemma reads_loop f r ns rest l :
  Forall text_ok ns → reads r (mjoin (dump_text <$> ns) ++ rest) l →
  wp (load_loop (length ns) (λ t, upd (f t))) (λ _, reads (foldl (λ r t, f t r) r ns) rest) l.
Proof.
  revert r l. induction ns as [|t ns IH]; intros r l Hns Hl; cbn [load_loop length]; [by apply wp_ret|].
  apply Forall_cons in Hns as [Ht Hns]. cbn in Hl. rewrite <-app_assoc in Hl.
  eapply reads_line; [done|done|]. intros l' Hl'. apply wp_bind. eapply wp_mono; [by apply reads_upd|].
  intros [] l2 [Hl2 _]. by apply IH.
Qed.

(** A name list that [get] and [set] access. *)
Context (get : R → list cstring) (set : list cstring → R → R).
Context (set_get : ∀ r, set (get r) r = r) (get_set : ∀ x r, get (set x r) = x) (set_set : ∀ x y r, set y (set x r) = set y r).

Lemma foldl_put max ns r :
  foldl (λ r t, set (mru_put max t (get r)) r) r ns = set (foldl (λ l t, mru_put max t l) (get r) ns) r.
Proof.
  revert r. induction ns as [|t ns IH]; intros r; cbn; [by rewrite set_get|]. by rewrite IH, get_set, set_set.
Qed.

Lemma reads_names max r ns rest l :
  Forall line_ok ns → is_int (Z.of_nat (length ns)) → solid rest → get r = [] → reads r (dump_names ns ++ rest) l →
  wp (load_names (λ t, upd (λ r, set (mru_put max t (get r)) r))) (λ _, reads (set (reload_names max ns) r) rest) l.
Proof.
  intros Hns Hi Hs Hr Hl. unfold dump_names in Hl. rewrite <-app_assoc in Hl. apply wp_bind. eapply wp_mono.
  { eapply reads_scan_j; [done| |done]. destruct Hns as [|t ns Ht _]; [done|]. cbn. rewrite <-app_assoc. apply solid_text, Ht. }
  intros [] l' [Ej Hl']. apply wp_bind, wp_bind, wp_getS. eapply wp_lift; [done|]. apply wp_bind.
  rewrite Nat2Z.id. eapply wp_mono; [eapply reads_loop; [|done]|].
  { eapply Forall_impl; [done|]. by intros t []. }
  intros [] l2 [Ef Ep]. rewrite foldl_put, Hr in Ep. apply wp_when; intros _; [|by split]. apply wp_modify. by split.
Qed.
End record.

(** ** What a dump can carry *)

Record user_dumpable (u : user) : Prop := {
  ud_ok : user_ok u;
  ud_loginid : line_ok (u_loginid u);
  ud_texts : Forall text_ok [u_nodeid u; u_nickname u; u_password u; u_realname u; u_group u; u_awaymsg u];
  ud_ints : Forall is_int [u_lastaway u; u_t_notify u];
  ud_longs : Forall is_long [u_lastawaytime u; u_perms u; u_t_on u; u_t_sent u; u_t_recv u; u_t_group u];
  ud_lists : Forall (Forall line_ok) [u_pri_n_hushed u; u_pub_n_hushed u; u_pri_s_hushed u; u_pub_s_hushed u;
    u_n_notifies u; u_s_notifies u]
}.

Record group_dumpable `{BuildConfig} (g : group) : Prop := {
  gd_ok : group_ok g;
  gd_lines : Forall line_ok [g_name g; g_missingmod g; g_idleboot_msg g];
  gd_topic : text_ok (g_topic g);
  gd_mod : is_int (g_mod g);
  gd_size : is_int (g_size g);
  gd_modtimeout : is_long (g_modtimeout g);
  gd_lists : Forall (Forall line_ok) [g_n_invites g; g_nr_invites g; g_s_invites g; g_sr_invites g; g_n_bars g;
    g_n_nr_bars g; g_s_bars g; g_s_nr_bars g; g_n_talk g; g_nr_talk g]
}.

(** What comes back: [lastawaytime] is [lastaway], [secure] is not dumped. *)
Definition reload_user (u : user) : user :=
  User (u_loginid u) (u_nodeid u) (u_nickname u) (u_password u) (u_realname u) (u_group u) (u_awaymsg u)
    (u_lastaway u) (u_lastaway u) (u_login u) (u_echoback u) (u_nobeep u) (u_perms u) (u_t_notify u) (u_t_on u)
    (u_t_sent u) (u_t_recv u) (u_t_group u) 0
    (reload_names MAX_HUSHED (u_pri_n_hushed u)) (reload_names MAX_HUSHED (u_pub_n_hushed u))
    (reload_names MAX_HUSHED (u_pri_s_hushed u)) (reload_names MAX_HUSHED (u_pub_s_hushed u))
    (reload_names MAX_HUSHED (u_n_notifies u)) (reload_names MAX_HUSHED (u_s_notifies u)).

Definition reload_group (g : group) : group :=
  let put := reload_names MAX_INVITES in
  Group (g_name g) (g_topic g) (g_visibility g) (g_control g) (g_volume g) (g_mod g) (g_missingmod g) (g_modtimeout g)
    (put (g_n_invites g)) (put (g_nr_invites g)) (put (g_s_invites g)) (put (g_sr_invites g)) (put (g_n_bars g))
    (put (g_n_nr_bars g)) (put (g_s_bars g)) (put (g_s_nr_bars g)) (put (g_n_talk g)) (put (g_nr_talk g))
    (g_size g) (g_idleboot g) (g_idleboot_msg g) (g_idlemod g).

(** Distinct names that fit are kept, in the opposite order. *)
Lemma reload_names_rev max l :
  NoDup (casefold <$> l) → (length l ≤ max)%nat → reload_names max l = reverse l.
Proof.
  unfold reload_names. intros Hnd Hl.
  assert (∀ acc, NoDup (casefold <$> (reverse l ++ acc)) → (length l + length acc ≤ max)%nat →
    foldl (λ l t, mru_put max t l) acc l = reverse l ++ acc) as Hg.
  { clear Hnd Hl. induction l as [|t l IH]; intros acc Hnd Hl; [done|]. cbn [foldl]. rewrite reverse_cons, <-app_assoc.
    rewrite reverse_cons, <-app_assoc in Hnd. cbn [app] in Hnd |- *. cbn [length] in Hl.
    assert (mru_put max t acc = t :: acc) as ->; [|apply IH; [done|cbn; lia]].
    unfold mru_put. destruct (List.find (strcaseeq t) acc) as [x|] eqn:E.
    - exfalso. apply List.find_some in E as [Hx Ex%strcaseeq_casefold].
      rewrite fmap_app, fmap_cons in Hnd. apply NoDup_app in Hnd as (_ & _ & Hnd). apply NoDup_cons in Hnd as [Hn _].
      apply Hn. rewrite Ex. apply list_elem_of_fmap_2. by apply list_elem_of_In.
    - destruct (Nat.ltb_spec (length acc) max); [done|lia]. }
  rewrite Hg; rewrite ?app_nil_r; [done| |cbn; lia]. rewrite fmap_reverse. rewrite reverse_Permutation. done.
Qed.

(** A table entry under consideration. *)
Definition user_in (i : Z) (s : st) (u : user) : st := set_u_tab (entry_set i u (u_tab s)) s.
Definition group_in (i : Z) (s : st) (g : group) : st := set_g_tab (entry_set i g (g_tab s)) s.

Lemma upd_user_in i s f u :
  is_Some (entry_at i (u_tab s)) → upd_user i f (user_in i s u) = Some (tt, user_in i s (f u)).
Proof.
  intros Hi. erewrite upd_user_run by (by apply entry_set_at). unfold user_in. cbn. by rewrite entry_set_twice.
Qed.
Lemma upd_group_in i s f g :
  is_Some (entry_at i (g_tab s)) → upd_group i f (group_in i s g) = Some (tt, group_in i s (f g)).
Proof.
  intros Hi. erewrite upd_group_run by (by apply entry_set_at). unfold group_in. cbn. by rewrite entry_set_twice.
Qed.

(** Open the lists of facts about a record. *)
Ltac open_facts :=
  repeat match goal with
  | H : Forall _ (_ :: _) |- _ => apply Forall_cons in H as [? ?]
  | H : line_ok _ |- _ => let H1 := fresh in let H2 := fresh in pose proof (proj1 H) as H1; pose proof (proj2 H) as H2; revert H
  end; intros.
Ltac is_number := unfold is_int, is_long, fits, INT_MIN, INT_MAX, LONG_MIN, LONG_MAX, MAX_HUSHED, MAX_NOTIFIES, MAX_INVITES,
  LOGIN_FALSE, LOGIN_COMPLETE, VISIBLE, SUPERSECRET, PUBLIC, CONTROLLED, QUIET, LOUD, MAX_IDLE_MOD in *; lia.
Ltac solid_next := first [done | apply solid_int | apply solid_names | by apply solid_text].
(** One directive of the reload. *)
Ltac read_next Hu Hl :=
  rewrite <-?app_assoc in Hl; try (match goal with |- wp (bind _ _) _ _ => apply wp_bind end); eapply wp_mono;
  [first [ refine (reads_text _ _ _ Hu _ _ _ _ _ _ _ _ Hl); [done|done]
         | refine (reads_long _ _ _ Hu _ _ _ _ _ _ _ Hl); [first [done|is_number]|solid_next]
         | refine (reads_names _ _ _ Hu _ _ _ _ _ _ _ _ _ _ _ _ _ _ Hl);
             [by intros []|done|done|done|is_number|solid_next|reflexivity] ]
  |clear Hl; intros [] ? Hl].
Ltac read_int Hu Hl :=
  rewrite <-?app_assoc in Hl; try (match goal with |- wp (bind _ _) _ _ => apply wp_bind end); eapply wp_mono;
  [refine (reads_int _ _ _ Hu _ _ _ _ _ _ _ Hl); [first [done|is_number]|solid_next]|clear Hl; intros [] ? [Hl _]].

Lemma load_user_reads i p u u0 rest l :
  is_Some (entry_at i (u_tab (tables_of p))) → user_dumpable u → solid rest → blank u0 →
  reads (user_in i (tables_of p)) p u0 (dump_user u ++ rest) l →
  wp (load_user i) (λ _, reads (user_in i (tables_of p)) p (reload_user u) rest) l.
Proof.
  intros Hi [[] Hlog Ht Hz Hlo Hls] Hrest H0 Hl. pose proof (λ f u, upd_user_in i (tables_of p) f u Hi) as Hu.
  rewrite H0 in Hl. open_facts. unfold dump_user in Hl. unfold load_user.
  do 7 read_next Hu Hl.
  rewrite <-?app_assoc in Hl. apply wp_bind. eapply wp_mono.
  { refine (reads_int _ _ _ Hu _ _ _ _ _ _ _ Hl); [done|apply solid_int]. }
  clear Hl. intros [] l1 [Hl Ej].
  rewrite <-?app_assoc in Hl. apply wp_bind. eapply wp_mono.
  { refine (reads_stale _ _ _ Hu _ _ _ _ _ _ _ _ Ej Hl); [done|apply solid_int]. }
  clear Hl. intros [] l2 Hl.
  do 3 read_int Hu Hl. read_next Hu Hl. read_int Hu Hl. do 10 read_next Hu Hl. exact Hl.
Qed.

Lemma load_group_reads `{BuildConfig} i p g rest l :
  is_Some (entry_at i (g_tab (tables_of p))) → group_dumpable g → solid rest →
  reads (group_in i (tables_of p)) p cleared_group (dump_group g ++ rest) l →
  wp (load_group i) (λ _, reads (group_in i (tables_of p)) p (reload_group g) rest) l.
Proof.
  intros Hi [[] Hln Hto Hmo Hsz Hmt Hls] Hrest Hl. pose proof (λ f g, upd_group_in i (tables_of p) f g Hi) as Hu.
  open_facts. unfold dump_group in Hl. unfold load_group.
  do 2 read_next Hu Hl. do 3 read_int Hu Hl. do 2 read_next Hu Hl. read_int Hu Hl. do 10 read_next Hu Hl.
  do 2 read_int Hu Hl. read_next Hu Hl. read_int Hu Hl. exact Hl.
Qed.

(** ** Reading the tables back *)

Lemma with_tables_id p : with_tables (tables_of p) p = p.
Proof. by destruct p as [[] ? ? ?]. Qed.

Lemma user_in_id i s u : entry_at i (u_tab s) = Some u → user_in i s u = s.
Proof. intros E. unfold user_in. rewrite entry_set_same by done. by destruct s. Qed.
Lemma group_in_id i s g : entry_at i (g_tab s) = Some g → group_in i s g = s.
Proof. intros E. unfold group_in. rewrite entry_set_same by done. by destruct s. Qed.

Lemma entry_set_frontier {A} (done rest : list A) (x y : A) :
  entry_set (Z.of_nat (length done)) y (done ++ x :: rest) = (done ++ [y]) ++ rest.
Proof.
  unfold entry_set. destruct (Z.ltb_spec (Z.of_nat (length done)) 0); [lia|]. rewrite Nat2Z.id.
  rewrite insert_app_r_alt, Nat.sub_diag by done. by rewrite <-app_assoc.
Qed.

(** A table that [getT] and [setT] access, of whose entries each is dumped and
    loaded; the entries are [fresh] before. *)
Section table.
Context {R : Type} (getT : st → list R) (setT : list R → st → st).
Context (get_setT : ∀ t s, getT (setT t s) = t) (set_setT : ∀ t t' s, setT t (setT t' s) = setT t s).
Context (set_getT : ∀ s, setT (getT s) s = s).
Context (dump_one : R → cstring) (reload_one : R → R) (good fresh : R → Prop) (load_one : Z → M loading unit).
Context (one_ok : ∀ i p x r rest l,
  entry_at i (getT (tables_of p)) = Some r → fresh r → good x → solid rest →
  l_file l = dump_one x ++ rest → l_proc l = p →
  wp (load_one i) (λ _ l', l_file l' = rest ∧
    l_proc l' = with_tables (setT (entry_set i (reload_one x) (getT (tables_of p))) (tables_of p)) p) l).
Context (one_solid : ∀ x rest, good x → solid (dump_one x ++ rest)).

Lemma solid_table xs rest : Forall good xs → solid rest → solid (mjoin (dump_one <$> xs) ++ rest).
Proof. intros Hxs Hr. destruct Hxs as [|x xs Hx _]; [done|]. cbn. rewrite <-app_assoc. by apply one_solid. Qed.

Lemma load_table xs p rest l :
  length (getT (tables_of p)) = length xs → Forall fresh (getT (tables_of p)) → Forall good xs → solid rest →
  l_file l = mjoin (dump_one <$> xs) ++ rest → l_proc l = p →
  wp (for_each (zseq (Z.of_nat (length xs))) load_one)
    (λ _ l', l_file l' = rest ∧ l_proc l' = with_tables (setT (reload_one <$> xs) (tables_of p)) p) l.
Proof.
  intros Hlen Hf Hg Hr Ef Ep. set (t0 := getT (tables_of p)) in *.
  eapply wp_mono; [apply (wp_for_zseq (λ i l', ∃ k, i = Z.of_nat k ∧
    l_file l' = mjoin (dump_one <$> drop k xs) ++ rest ∧
    l_proc l' = with_tables (setT ((reload_one <$> take k xs) ++ drop k t0) (tables_of p)) p))|].
  - lia.
  - exists 0%nat. rewrite !drop_0. split; [done|]. split; [done|]. change (l_proc l = with_tables (setT t0 (tables_of p)) p).
    unfold t0. by rewrite set_getT, with_tables_id.
  - intros i l' Hi (k & -> & Ef' & Ep'). destruct (lookup_lt_is_Some_2 xs k) as [x Hx]; [lia|].
    destruct (lookup_lt_is_Some_2 t0 k) as [r Hr0]; [lia|].
    rewrite (drop_S xs x k Hx) in Ef'. cbn in Ef'. rewrite <-app_assoc in Ef'.
    assert (length (reload_one <$> take k xs) = k) as Hk by (rewrite length_fmap, length_take; lia).
    rewrite (drop_S t0 r k Hr0) in Ep'. eapply wp_mono.
    { refine (one_ok (Z.of_nat k) _ x r _ _ _ _ _ _ Ef' Ep').
      - cbn. rewrite get_setT, entry_at_nat, lookup_app_r, Hk, Nat.sub_diag by lia. done.
      - by apply (Forall_lookup_1 _ _ _ _ Hf Hr0).
      - by apply (Forall_lookup_1 _ _ _ _ Hg Hx).
      - apply solid_table; [by apply Forall_drop|done]. }
    intros [] l2 [Ef2 Ep2]. exists (S k). split; [lia|]. split; [done|]. rewrite Ep2. cbn. rewrite get_setT, set_setT.
    rewrite <-Hk at 1. rewrite entry_set_frontier, (take_S_r _ _ _ Hx), fmap_app. done.
  - intros [] l' (k & Hk & Ef' & Ep'). assert (k = length xs) as -> by lia. split.
    + by rewrite Ef', drop_all.
    + by rewrite Ep', (drop_ge t0), firstn_all, app_nil_r by lia.
Qed.
End table.

(** *** The poll set *)

Lemma load_sockets_run mem fuel i k net0 p rest l :
  pollset_ok net0 → Forall is_int (fds net0) → solid rest → (length (fds net0) < i + fuel)%nat → (i ≤ length (fds net0))%nat →
  l_proc l = set_net net0 p → l_file l = mjoin (dump_int <$> drop i (fds net0)) ++ rest →
  wp (load_sockets mem fuel i k) (λ _ l', l_file l' = rest ∧ ∃ ps,
    l_proc l' = set_net (set_pollset ps (g_pollsetsize net0) net0) p ∧
    fds (set_pollset ps (g_pollsetsize net0) net0) = fds net0) l.
Proof.
  revert i k net0 l. induction fuel as [|fuel IH]; intros i k net0 l Hok Hint Hs Hfuel Hi Ep Ef; [lia|].
  assert (length (fds net0) = g_pollsetsize net0) as Hlen.
  { unfold fds, active. rewrite length_map, length_take. destruct Hok. lia. }
  cbn [load_sockets]. apply wp_bind, wp_getS. rewrite Ep. cbn [p_net set_net].
  destruct (Nat.ltb_spec i (g_pollsetsize net0)) as [Hlt|Hge].
  - destruct (lookup_lt_is_Some_2 (fds net0) i) as [fd Hfd]; [lia|].
    rewrite (drop_S _ _ _ Hfd) in Ef. cbn in Ef. rewrite <-app_assoc in Ef.
    assert (is_int fd) as Hfi by (by apply (Forall_lookup_1 _ _ _ _ Hint Hfd)).
    apply wp_bind. unfold scan_int. apply wp_bind. unfold wp at 1, scan_long. rewrite Ef, scan_num_int.
    2:{ is_number. }
    apply wp_ret. change (to_int <$> Some fd) with (Some (to_int fd)). rewrite to_int_id by done. cbn [default from_option id].
    apply wp_bind. unfold in_net at 1, wp at 1. cbn [l_proc set_file]. rewrite Ep. cbn [p_net set_net].
    unfold add_loaded_pollfd. replace (g_pollsetsize net0 <=? length (g_pollset net0))%nat with true.
    2:{ symmetry. apply Nat.leb_le, Hok. }
    cbn [orb]. unfold bind at 1, add_pollfd.
    destruct (poll_index net0 fd) as [q|] eqn:Eq.
    2:{ apply poll_index_None in Eq. exfalso. apply Eq. by eapply list_elem_of_lookup_2. }
    cbn. pose proof (fds_set_events net0 q POLLIN) as Hf. set (ps := PktServ.set_events q POLLIN (g_pollset net0)) in *.
    set (net1 := set_pollset ps (g_pollsetsize net0) net0).
    assert (fds net1 = fds net0) as Hf1 by exact Hf.
    assert (pollset_ok net1) as Hok1.
    { split; [|rewrite Hf1; apply Hok]. cbn. unfold ps, PktServ.set_events. rewrite length_alter. apply Hok. }
    eapply wp_mono.
    { apply (IH (S i) fd net1); rewrite ?Hf1; try done; try lia. cbn.
      destruct (solid_table dump_int (λ _, True) (λ x rest _, solid_int x rest) (drop (S i) (fds net0)) rest); [|done|done].
      by apply Forall_true. }
    intros [] l' (Ef' & ps' & Ep' & Hf'). split; [done|]. exists ps'. rewrite Hf1 in Hf'. by split.
  - apply wp_ret. rewrite drop_ge in Ef by lia. split; [done|]. exists (g_pollset net0). split; [|done].
    rewrite Ep. unfold set_pollset. by destruct net0.
Qed.

(** ** The reload *)

Section reload.
Context `{BuildConfig} `{Host} `{Commands}.

(** The clearing, when it completes, leaves blank slots and cleared groups. *)
Lemma clearing_done s s1 :
  arrays_sized s → length (g_tab s) = MAX_GROUPS → (init_groups ;; clear_users) s = Some (tt, s1) →
  arrays_sized s1 ∧ g_tab s1 = replicate MAX_GROUPS cleared_group ∧ Forall blank (u_tab s1).
Proof.
  intros Hs Hg. destruct (wp_run_unit _ _ _ (wp_init_groups s Hg)) as (s0 & Hr & ->). erewrite bind_runs by exact Hr.
  set (s0 := set_g_tab _ s). intros Hc.
  assert (arrays_sized s1 ∧ g_tab s1 = g_tab s0 ∧
    ∀ j u, entry_at j (u_tab s1) = Some u → j < Z.of_nat MAX_USERS → blank u) as (Hs1 & Eg & Hb).
  { refine (for_zseq_inv (λ i s', arrays_sized s' ∧ g_tab s' = g_tab s0 ∧
      ∀ j u, entry_at j (u_tab s') = Some u → j < i → blank u) _ _ s0 s1 _ _ _ Hc); [lia| |].
    2:{ split; [done|]. split; [done|]. intros j u [? _]%entry_at_lookup. lia. }
    clear Hc. intros i s2 s3 Hi (Hs2 & Eg2 & Hb2) Hrun.
    destruct (proj2 (entry_at_range (u_tab s2) i)) as [u Hu]; [destruct Hs2 as [-> _]; lia|].
    erewrite bind_runs in Hrun by (by apply upd_user_run). set (s2' := set_u_tab _ s2) in Hrun.
    assert (entry_at i (u_tab s2') = Some (with_new_lists u)) as Hu2 by (apply entry_set_at; by rewrite Hu).
    assert (arrays_sized s2') as Hs2'.
    { destruct Hs2 as (?&?&?&?&?). unfold arrays_sized, s2'. cbn. by rewrite length_entry_set. }
    destruct (clear_user_item_ok i s2' (with_new_lists u) Hs2' Hu2) as (d & c & Hrun').
    { intros v Hv Hlog. rewrite Hu2 in Hv. injection Hv as <-. unfold clear_user_item in Hrun.
      erewrite bind_runs in Hrun by (by apply user_at_run). apply Z.ltb_lt in Hlog. rewrite Hlog in Hrun.
      unfold when, bind at 1 2 in Hrun. destruct (nickwritetime i 1 s2') as [[r s4]|]; [done|discriminate]. }
    rewrite Hrun' in Hrun. injection Hrun as <-. split.
    { destruct Hs2' as (?&?&?&?&?). unfold arrays_sized, forget. cbn. by rewrite !length_fmap, !length_entry_set. }
    split; [done|]. intros j v Hv Hj. cbn in Hv. rewrite entry_set_twice in Hv.
    apply entry_set_inv in Hv as [(-> & -> & _)|[Hne Hv]]; [done|]. apply (Hb2 j v Hv). lia. }
  split; [done|]. split; [done|]. apply Forall_lookup_2. intros j u Hu. apply (Hb (Z.of_nat j) u).
  - by rewrite entry_at_nat.
  - apply lookup_lt_Some in Hu. destruct Hs1 as [Hl _]. lia.
Qed.

Definition is_short (z : Z) : Prop := - 2 ^ 15 ≤ z < 2 ^ 15.
Lemma to_short_id z : is_short z → to_short z = z.
Proof. unfold is_short, to_short. intros Hz. rewrite Z.mod_small by lia. lia. Qed.

(** What is dumped can be read back. *)
Record dumpable (p : process) : Prop := {
  d_pollset : pollset_ok (p_net p);
  d_size : is_int (Z.of_nat (g_pollsetsize (p_net p)));
  d_fds : Forall is_int (fds (p_net p));
  d_ports : is_int (port_fd p) ∧ is_int (sslport_fd p);
  d_kill : length (S_kill (tables_of p)) = MAX_USERS ∧ Forall is_short (S_kill (tables_of p));
  d_users : length (u_tab (tables_of p)) = MAX_USERS ∧ Forall user_dumpable (u_tab (tables_of p));
  d_groups : length (g_tab (tables_of p)) = MAX_GROUPS ∧ Forall group_dumpable (g_tab (tables_of p))
}.

Lemma load_kills_ok p ks rest l :
  length (S_kill (tables_of p)) = MAX_USERS → length ks = MAX_USERS → Forall is_short ks → solid rest →
  l_file l = mjoin (dump_int <$> ks) ++ rest → l_proc l = p →
  wp load_kills (λ _ l', l_file l' = rest ∧ l_proc l' = with_tables (set_S_kill ks (tables_of p)) p) l.
Proof.
  intros Hl Hk Hs Hr Ef Ep. unfold load_kills. rewrite <-Hk. eapply wp_mono.
  { apply (load_table S_kill set_S_kill) with (dump_one := dump_int) (reload_one := id) (good := is_short) (fresh := λ _, True) (xs := ks) (p := p) (rest := rest); try done.
    - by intros [].
    - clear. intros i p x r rest l Hr _ Hx Hs Ef Ep. set (wr z := set_S_kill (entry_set i z (S_kill (tables_of p))) (tables_of p)).
      apply wp_bind. eapply wp_mono.
      { eapply (reads_scan_k wr p r x rest l); [|done|].
        - unfold is_short, is_long, LONG_MIN, LONG_MAX in *. lia.
        - split; [done|]. unfold wr. rewrite entry_set_same by done. rewrite Ep, <-with_tables_id at 1. f_equal.
          by destruct (tables_of p). }
      intros [] l' (Ek & [Ef' Ep'] & _). apply wp_bind, wp_bind, wp_getS. eapply wp_lift; [done|].
      unfold wp, in_tables, in_net. rewrite Ep'. cbn. erewrite set_int_run.
      2:{ unfold wr. cbn. rewrite entry_set_at by eauto. eauto. }
      unfold wr. cbn. rewrite entry_set_twice, to_short_id by done. by split.
    - intros x rest' _. apply solid_int.
    - congruence.
    - by apply Forall_true. }
  intros [] l' [Ef' Ep']. by rewrite list_fmap_id in Ep'.
Qed.

Lemma load_users_ok p us rest l :
  length (u_tab (tables_of p)) = MAX_USERS → Forall blank (u_tab (tables_of p)) →
  length us = MAX_USERS → Forall user_dumpable us → solid rest →
  l_file l = mjoin (dump_user <$> us) ++ rest → l_proc l = p →
  wp (for_each (zseq (Z.of_nat MAX_USERS)) load_user)
    (λ _ l', l_file l' = rest ∧ l_proc l' = with_tables (set_u_tab (reload_user <$> us) (tables_of p)) p) l.
Proof.
  intros Hl Hb Hu Hd Hr Ef Ep. rewrite <-Hu.
  apply (load_table u_tab set_u_tab) with (dump_one := dump_user) (good := user_dumpable) (fresh := blank);
    try done; [by intros []| |intros x rest' Hx; unfold dump_user; rewrite <-app_assoc; apply solid_text, Hx|congruence].
  clear. intros i p x r rest l Hr Hb Hx Hs Ef Ep. eapply wp_mono.
  { eapply (load_user_reads i p x r); [by rewrite Hr|done|exact Hs|done|]. split; [exact Ef|].
    by rewrite user_in_id, with_tables_id. }
  by intros [] l' [].
Qed.

Lemma load_groups_ok p gs rest l :
  g_tab (tables_of p) = replicate MAX_GROUPS cleared_group →
  length gs = MAX_GROUPS → Forall group_dumpable gs → solid rest →
  l_file l = mjoin (dump_group <$> gs) ++ rest → l_proc l = p →
  wp (for_each (zseq (Z.of_nat MAX_GROUPS)) load_group)
    (λ _ l', l_file l' = rest ∧ l_proc l' = with_tables (set_g_tab (reload_group <$> gs) (tables_of p)) p) l.
Proof.
  intros Hl Hg Hd Hr Ef Ep. rewrite <-Hg.
  apply (load_table g_tab set_g_tab) with (dump_one := dump_group) (good := group_dumpable) (fresh := (.= cleared_group));
    try done.
  - by intros [].
  - clear. intros i p x r rest l Hr Hb Hx Hs Ef Ep. eapply wp_mono.
    { eapply (load_group_reads i p x); [by rewrite Hr|done|exact Hs|]. split; [exact Ef|].
      by rewrite group_in_id, with_tables_id by (by rewrite Hr, Hb). }
    by intros [] l' [].
  - intros x rest' Hx. unfold dump_group. rewrite <-app_assoc. apply solid_text.
    pose proof (gd_lines _ Hx) as Hln. apply Forall_cons in Hln as [Hln _]. apply Hln.
  - rewrite Hl, Hg. apply length_replicate.
  - rewrite Hl. by apply Forall_replicate.
Qed.

Lemma solid_dump_groups gs : Forall group_dumpable gs → solid (mjoin (dump_group <$> gs)).
Proof.
  intros Hg. rewrite <-(app_nil_r (mjoin _)). apply (solid_table dump_group group_dumpable); [|done|done].
  intros x rest Hx. unfold dump_group. rewrite <-app_assoc. apply solid_text.
  pose proof (gd_lines _ Hx) as Hln. apply Forall_cons in Hln as [Hln _]. apply Hln.
Qed.
Lemma solid_dump_users us rest : Forall user_dumpable us → solid rest → solid (mjoin (dump_user <$> us) ++ rest).
Proof.
  intros Hu Hr. apply (solid_table dump_user user_dumpable); [|done|done].
  intros x rest' Hx. unfold dump_user. rewrite <-app_assoc. apply solid_text, Hx.
Qed.
Lemma solid_dump_ints zs rest : solid rest → solid (mjoin (dump_int <$> zs) ++ rest).
Proof. intros Hr. apply (solid_table dump_int (λ _, True)); [by intros; apply solid_int|by apply Forall_true|done]. Qed.

(** The poll set of a process that watches the descriptors of the dump. *)
Lemma loadsockets_ok mem p p1 rest l :
  dumpable p → pollset_ok (p_net p1) → fds (p_net p1) = fds (p_net p) → solid rest →
  l_file l = dump_sockets p ++ rest → l_proc l = p1 →
  wp (pktserv_loadsockets mem) (λ _ l', l_file l' = rest ∧ ∃ ps,
    l_proc l' = Process (set_pollset ps (g_pollsetsize (p_net p1)) (p_net p1)) (port_fd p) (sslport_fd p) (dumpfile p1) ∧
    fds (set_pollset ps (g_pollsetsize (p_net p1)) (p_net p1)) = fds (p_net p)) l.
Proof.
  intros Hd Hok Hf Hr Ef Ep. destruct (d_ports _ Hd) as [Hp1 Hp2]. pose proof (d_size _ Hd) as Hsz.
  assert (∀ q : process, pollset_ok (p_net q) → length (fds (p_net q)) = g_pollsetsize (p_net q)) as Hlen.
  { intros q [Hq _]. unfold fds, active. rewrite length_map, length_take. lia. }
  assert (g_pollsetsize (p_net p1) = g_pollsetsize (p_net p)) as Esz.
  { rewrite <-!Hlen by (done || apply Hd). by rewrite Hf. }
  assert (∀ z rest l (Q : option Z → loading → Prop), is_int z → solid rest → l_file l = dump_int z ++ rest →
    Q (Some z) (set_file rest l) → wp scan_int Q l) as Hscan.
  { clear. intros z rest l Q Hz Hs E HQ. apply wp_bind. unfold wp at 1, scan_long. rewrite E, scan_num_int, Hs by is_number.
    apply wp_ret. change (to_int <$> Some z) with (Some (to_int z)). by rewrite to_int_id. }
  unfold dump_sockets, pktserv_dumpsockets in Ef. cbn [fmap list_fmap mjoin list_join] in Ef. rewrite <-!app_assoc in Ef.
  change (map p_fd (take (g_pollsetsize (p_net p)) (g_pollset (p_net p)))) with (fds (p_net p)) in Ef.
  apply wp_bind. eapply Hscan; [exact Hsz| |exact Ef|]; [apply solid_dump_ints, solid_int|].
  apply wp_bind. eapply wp_lift; [done|]. destruct (Z.ltb_spec (Z.of_nat (g_pollsetsize (p_net p))) 0); [lia|].
  apply wp_bind. unfold wp at 1, in_net, modify. cbn [l_proc set_file]. rewrite Ep, Nat2Z.id, <-Esz.
  assert (set_pollset (g_pollset (p_net p1)) (g_pollsetsize (p_net p1)) (p_net p1) = p_net p1) as -> by (by destruct p1 as [[]]).
  assert (set_net (p_net p1) p1 = p1) as -> by (by destruct p1).
  apply wp_bind, wp_getS, wp_bind. eapply wp_mono.
  { eapply (load_sockets_run mem _ 0 _ (p_net p1) p1); [done| | | |lia| |].
    - rewrite Hf. apply Hd.
    - apply (solid_int (port_fd p) (dump_int (sslport_fd p) ++ rest)).
    - rewrite Hlen by done. lia.
    - cbn. by destruct p1.
    - cbn. rewrite Hf. reflexivity. }
  intros [] l2 [Ef2 (ps & Ep2 & Hps)]. apply wp_bind. eapply Hscan; [exact Hp1|apply solid_int|exact Ef2|].
  apply wp_bind, wp_modify, wp_bind. eapply Hscan; [exact Hp2|exact Hr|reflexivity|]. apply wp_modify.
  split; [done|]. exists ps. rewrite Hps, Hf. split; [|done]. cbn. by rewrite Ep2.
Qed.

Lemma load_state_ok mem p p1 l :
  dumpable p → pollset_ok (p_net p1) → fds (p_net p1) = fds (p_net p) →
  arrays_sized (tables_of p1) → Forall blank (u_tab (tables_of p1)) →
  g_tab (tables_of p1) = replicate MAX_GROUPS cleared_group →
  l_file l = dump_sockets p ++ dump_tables (tables_of p) → l_proc l = p1 →
  wp (load_state mem) (λ _ l', ∃ ps,
    l_proc l' = Process (set_upper (set_g_tab (reload_group <$> g_tab (tables_of p)) (set_u_tab (reload_user <$> u_tab (tables_of p))
        (set_S_kill (S_kill (tables_of p)) (tables_of p1)))) (set_pollset ps (g_pollsetsize (p_net p1)) (p_net p1)))
      (port_fd p) (sslport_fd p) (dumpfile p1) ∧
    fds (set_pollset ps (g_pollsetsize (p_net p1)) (p_net p1)) = fds (p_net p)) l.
Proof.
  intros Hd Hok Hf Hs Hb Hg Ef Ep. destruct (d_kill _ Hd) as [Hk1 Hk2]. destruct (d_users _ Hd) as [Hu1 Hu2].
  destruct (d_groups _ Hd) as [Hg1 Hg2]. destruct Hs as (Hsu & Hsk & _). unfold dump_tables in Ef.
  pose proof (solid_dump_groups _ Hg2) as Sg. pose proof (solid_dump_users _ _ Hu2 Sg) as Su.
  apply wp_bind. eapply wp_mono; [eapply (loadsockets_ok mem p p1); [done..|by apply solid_dump_ints|exact Ef|exact Ep]|].
  clear l Ef Ep. intros [] l (Ef & ps & Ep & Hps). apply wp_bind.
  eapply wp_mono; [eapply load_kills_ok; [|exact Hk1|exact Hk2|exact Su|exact Ef|exact Ep]; exact Hsk|].
  clear l Ef Ep. intros [] l (Ef & Ep). apply wp_bind.
  eapply wp_mono; [eapply load_users_ok; [| |exact Hu1|exact Hu2|exact Sg| |exact Ep]; [exact Hsu|exact Hb|exact Ef]|].
  clear l Ef Ep. intros [] l (Ef & Ep).
  eapply wp_mono; [eapply (load_groups_ok _ _ []); [|exact Hg1|exact Hg2|done| |exact Ep]; [exact Hg|by rewrite app_nil_r]|].
  intros [] l' [_ Ep']. exists ps. split; [exact Ep'|exact Hps].
Qed.

Lemma icbload_run mem text s1 p1 l :
  dumpfile p1 = Some text → (init_groups ;; clear_users) (tables_of p1) = Some (tt, s1) →
  load_state mem (Loading text None None None (with_tables s1 p1)) = Some (tt, l) →
  icbload mem p1 = Some (tt, set_dumpfile None (l_proc l)).
Proof.
  intros Ed Hc Hr. unfold icbload. rewrite Ed. erewrite bind_runs.
  2:{ unfold in_tables, in_net. cbn [l_proc]. unfold tables_of in Hc. rewrite Hc. reflexivity. }
  change (set_proc _ _) with (Loading text None None None (with_tables s1 p1)). by rewrite Hr.
Qed.

(** Without the array of the poll set a reload of any descriptor is undefined. *)
Lemma loadsockets_undefined mem p p1 rest l :
  is_int (Z.of_nat (g_pollsetsize (p_net p))) → (0 < g_pollsetsize (p_net p))%nat → g_pollset (p_net p1) = [] →
  l_file l = dump_sockets p ++ rest → l_proc l = p1 → pktserv_loadsockets mem l = None.
Proof.
  intros Hsz Hpos He Ef Ep. unfold dump_sockets, pktserv_dumpsockets in Ef.
  cbn [fmap list_fmap mjoin list_join] in Ef. rewrite <-!app_assoc in Ef.
  unfold pktserv_loadsockets, scan_int, bind at 1 2, scan_long. rewrite Ef, scan_num_int by is_number.
  cbn. rewrite to_int_id by done. destruct (Z.ltb_spec (Z.of_nat (g_pollsetsize (p_net p))) 0); [lia|].
  unfold bind, in_net, modify, getS, lift. cbn. rewrite Nat2Z.id, Nat.add_1_r. cbn [load_sockets].
  unfold bind at 1, getS at 1. cbn [l_proc set_proc set_net set_pollset p_net g_pollsetsize].
  destruct (Nat.ltb_spec 0 (g_pollsetsize (p_net p))); [|lia].
  unfold bind, scan_int, scan_long, bind. cbn [l_file set_file set_proc].
  destruct (scan_num _) as [v r]. cbn. unfold in_net, add_loaded_pollfd. cbn. rewrite Ep, He. cbn [length existsb].
  destruct (Nat.leb_spec (g_pollsetsize (p_net p)) 0); [lia|done].
Qed.
Lemma icbload_undefined mem p p1 rest :
  is_int (Z.of_nat (g_pollsetsize (p_net p))) → (0 < g_pollsetsize (p_net p))%nat → g_pollset (p_net p1) = [] →
  dumpfile p1 = Some (dump_sockets p ++ rest) → icbload mem p1 = None.
Proof.
  intros Hsz Hpos He Ed. unfold icbload. rewrite Ed. unfold bind at 1, in_tables, in_net. cbn [l_proc].
  destruct (bind init_groups _ (upper (p_net p1))) as [[[] s2]|]; [|done]. unfold load_state, bind at 1.
  erewrite (loadsockets_undefined mem p); [done|done|done| |done|done]. done.
Qed.
End reload.

(** C20: the dump of a server whose texts have no newline or NUL and no white
    space where a number stands before them, read back by a process that
    watches the same descriptors, gives the same tables, whatever has happened
    to that process in between: the reload completes, and every text, number,
    switch, time and index is as it was, with the exceptions that
    [reload_user] and [reload_group] name. Name lists are put together again in
    the opposite order, a notify list within the limit of the hush lists;
    [lastawaytime] gets the value of [lastaway]; [secure] is cleared. The poll
    set and the ports are kept and the file is removed. *)
Theorem dump_load_roundtrip `{BuildConfig} `{Host} (mem : bool) (p p1 : process) (s1 : st) :
  dumpable p → pollset_ok (p_net p1) → fds (p_net p1) = fds (p_net p) →
  arrays_sized (tables_of p1) → length (g_tab (tables_of p1)) = MAX_GROUPS →
  (init_groups ;; clear_users) (tables_of p1) = Some (tt, s1) →
  dumpfile p1 = dumpfile (icbdump true p) →
  ∃ p', icbload mem p1 = Some (tt, p') ∧ dumpfile p' = None ∧
    fds (p_net p') = fds (p_net p) ∧ port_fd p' = port_fd p ∧ sslport_fd p' = sslport_fd p ∧
    tables_of p' = set_g_tab (reload_group <$> g_tab (tables_of p)) (set_u_tab (reload_user <$> u_tab (tables_of p))
      (set_S_kill (S_kill (tables_of p)) s1)).
Proof.
  intros Hd Hok Hf Hs Hg Hc Ed. unfold icbdump in Ed; cbn [dumpfile] in Ed. destruct (clearing_done _ _ Hs Hg Hc) as (Hs1 & Hg1 & Hb1).
  destruct (wp_run_unit _ _ _ (load_state_ok mem p (with_tables s1 p1)
    (Loading (dump_sockets p ++ dump_tables (tables_of p)) None None None (with_tables s1 p1))
    Hd Hok Hf Hs1 Hb1 Hg1 eq_refl eq_refl)) as (l & Hr & ps & Ep & Hps).
  eexists. split; [by eapply icbload_run|]. rewrite Ep. by split_and!.
Qed.

(** C39: after a restart the program runs into undefined behaviour: the
    process that was started with -R has not allocated its poll set when it
    reads the dump, sets the size of the poll set to the number of descriptors
    in the dump, and then searches that many entries behind the null pointer
    for the first descriptor.  (Every dump holds the listening socket.) *)
Theorem restart_undefined `{BuildConfig} `{Host} `{Commands} (mem quiet : bool) (p p1 : process) :
  is_int (Z.of_nat (g_pollsetsize (p_net p))) → (0 < g_pollsetsize (p_net p))%nat → g_pollset (p_net p1) = [] →
  dumpfile p1 = dumpfile (icbdump true p) → restarted mem quiet p1 = None.
Proof.
  intros Hsz Hpos He Ed. unfold icbdump in Ed; cbn [dumpfile] in Ed. unfold restarted, bind at 1.
  destruct (on_tables _ p1) as [[[] p2]|] eqn:E; [|done]. unfold on_tables in E.
  destruct (bind init_groups _ (upper (p_net p1))) as [[[] s1]|]; [|done]. injection E as <-. unfold bind at 1.
  by rewrite (icbload_undefined mem p (with_tables s1 p1) _ Hsz Hpos He Ed).
Qed.

(** A server that watches two descriptors, before and after it has forgotten
    its users. *)
#[local] Instance text_ok_dec t : Decision (text_ok t).
Proof. unfold text_ok. apply _. Defined.
#[local] Instance line_ok_dec t : Decision (line_ok t).
Proof. unfold line_ok, solid. apply _. Defined.

Definition hushing_user : user :=
  set_u_pri_n_hushed [str "cat"; str "amy"] (set_u_lastaway 3 (set_u_lastawaytime 990 (demo_user "bob" "Lobby"))).
Definition dumped_state : st := set_u_tab (entry_set 1 hushing_user (u_tab demo_state)) demo_state.
Definition forgotten_state : st := set_u_tab (replicate 5 no_user) demo_state.
Definition demo_process (s : st) (file : option cstring) : process :=
  Process (Net _ [] [Pollfd 3 POLLIN 0; Pollfd 4 POLLIN 0; junk_pollfd] 2 [] [] s) 0 0 file.

Ltac by_deciding := apply (bool_decide_unpack _); vm_compute; exact I.

Lemma cleared_group_dumpable : @group_dumpable demo_build cleared_group.
Proof. split; [split; unfold fits, slot_or_none|..]; unfold is_int, is_long; by_deciding. Qed.

Lemma demo_dumpable : @dumpable demo_build (demo_process dumped_state None).
Proof.
  split; unfold pollset_ok, is_short, is_int, is_long; try by_deciding.
  - split; [done|]. repeat apply Forall_cons_2; [..|apply Forall_nil_2];
      (split; [split; unfold fits|..]; unfold is_int, is_long; by_deciding).
  - split; [done|]. apply Forall_app_2; [|apply Forall_replicate, cleared_group_dumpable].
    repeat apply Forall_cons_2; [..|apply Forall_nil_2];
      (split; [split; unfold fits, slot_or_none|..]; unfold is_int, is_long; by_deciding).
Qed.

Definition demo_dump : option cstring := dumpfile (icbdump true (demo_process dumped_state None)).
Lemma demo_forgotten f :
  pollset_ok (p_net (demo_process forgotten_state f)) ∧ arrays_sized (H := demo_build) (tables_of (demo_process forgotten_state f)) ∧
  length (g_tab (tables_of (demo_process forgotten_state f))) = MAX_GROUPS ∧
  fds (p_net (demo_process forgotten_state f)) = fds (p_net (demo_process dumped_state None)) ∧
  dumpfile (demo_process forgotten_state f) = f.
Proof. split; [unfold pollset_ok; by_deciding|]. by repeat split. Qed.

Lemma dump_load_roundtrip_witness :
  ∃ p', @icbload demo_build demo_host true (demo_process forgotten_state demo_dump) = Some (tt, p') ∧
    u_tab (tables_of p') = reload_user <$> u_tab dumped_state.
Proof.
  destruct (demo_forgotten demo_dump) as (H1 & H2 & H3 & H4 & H5).
  destruct ((@init_groups ;; @clear_users demo_build demo_host) forgotten_state) as [[[] s1]|] eqn:E; [|vm_compute in E; discriminate].
  destruct (@dump_load_roundtrip demo_build demo_host true (demo_process dumped_state None)
    (demo_process forgotten_state demo_dump) s1 demo_dumpable H1 H4 H2 H3 E H5) as (p' & Hr & _ & _ & _ & _ & Et).
  exists p'. split; [exact Hr|]. by rewrite Et.
Defined.

Lemma restart_undefined_witness :
  @restarted demo_build demo_host demo_commands true false
    (Process (Net _ [] [] 0 [] [] forgotten_state) 0 0 demo_dump) = None.
Proof.
  apply (@restart_undefined demo_build demo_host demo_commands true false (demo_process dumped_state None));
    [unfold is_int; by_deciding|cbn; lia|done|done].
Defined.
