(* ===== verification/Places.v ===== *)
(** * Who is where: an abstract machine of users and groups

    Seen from the names in the two tables only, the server is a small machine:
    a place has the group of each user ([homes]) and the name of each group
    ([rooms], empty for a free entry).  Its steps are the five things that can
    happen to the names: a user enters a group, opens one, leaves, and a group
    is renamed; a group that its last user leaves disappears.  The invariant of
    the machine is proved here; that the server implements it is shown in
    [Moves] and [Rooms]. *)

From Stdlib Require Import ZArith Lia String.
From stdpp Require Import relations.
From S2P Require Import Config Prelude Utf8 StrUtil NameList CLib Monad Dbm IcbDb State Tables Send World.

Local Open Scope Z_scope.

Record places : Type := Places { homes : list cstring; rooms : list cstring }.

(** The room with a name, -1 for none; letters match in either case. *)
Definition find_room (name : cstring) (rs : list cstring) : Z :=
  match name with
  | [] => -1
  | _ :: _ => first_index (λ r, strcaseeq r name) rs
  end.

Definition occupied (name : cstring) (hs : list cstring) : bool :=
  match name with
  | [] => false
  | _ :: _ => existsb (λ h, strcaseeq h name) hs
  end.

(** A room that nobody is in disappears. *)
Definition vacate (j : Z) (hs rs : list cstring) : list cstring :=
  match entry_at j rs with
  | Some r => if occupied r hs then rs else entry_set j [] rs
  | None => rs
  end.

(** User [n], who is at [h], goes to [r]. *)
Definition move (n : Z) (h r : cstring) (p : places) : places :=
  let hs := entry_set n r (homes p) in Places hs (vacate (find_room h (rooms p)) hs (rooms p)).

(** The users below [real] who are at [old] are at [new]. *)
Definition rename (real : Z) (old new : cstring) (hs : list cstring) : list cstring :=
  imap (λ i h, if (Z.of_nat i <? real) && strcaseeq h old then new else h) hs.

Section machine.
(** The number of real users; the resident user comes after them. *)
Context (real : Z).

Inductive step : places → places → Prop :=
| step_enter n j h r p :
    entry_at n (homes p) = Some h → entry_at j (rooms p) = Some r → r ≠ [] → find_room h (rooms p) ≠ j →
    step p (move n h r p)
| step_open n e h r hs rs :
    entry_at n hs = Some h → entry_at e rs = Some [] → r ≠ [] → group_name_ok r → find_room r rs < 0 →
    find_room h (entry_set e r rs) ≠ e →
    step (Places hs rs) (move n h r (Places hs (entry_set e r rs)))
| step_reopen n e h r hs rs :
    entry_at n hs = Some h → entry_at e rs = Some [] → r ≠ [] → group_name_ok r → find_room r rs < 0 →
    find_room h (entry_set e r rs) = e →
    step (Places hs rs) (Places hs (entry_set e r rs))
| step_leave n h p :
    entry_at n (homes p) = Some h → step p (move n h [] p)
| step_rename n j h old new hs rs :
    n < real → entry_at n hs = Some h → entry_at j rs = Some old → old ≠ [] → casefold h = casefold old →
    new ≠ [] → group_name_ok new → (find_room new rs < 0 ∨ find_room new rs = j) →
    step (Places hs rs) (Places (rename real old new hs) (entry_set j new rs)).

(** Rooms have proper names that differ in more than case, somebody is in each
    of them, and every real user who is somewhere is in one of them. *)
Record orderly (p : places) : Prop := {
  o_name : ∀ j r, entry_at j (rooms p) = Some r → group_name_ok r;
  o_len : ∀ i h, entry_at i (homes p) = Some h → (length h ≤ MAX_GROUPLEN)%nat;
  o_unique : ∀ i j a b, entry_at i (rooms p) = Some a → entry_at j (rooms p) = Some b →
    a ≠ [] → casefold a = casefold b → i = j;
  o_home : ∀ i h, entry_at i (homes p) = Some h → i < real → h ≠ [] →
    ∃ j r, entry_at j (rooms p) = Some r ∧ casefold r = casefold h;
  o_live : ∀ j r, entry_at j (rooms p) = Some r → r ≠ [] →
    ∃ i h, entry_at i (homes p) = Some h ∧ casefold h = casefold r
}.

(** The same while room [exc] may be empty. *)
Definition orderly_but (exc : Z) (p : places) : Prop :=
  (∀ j r, entry_at j (rooms p) = Some r → group_name_ok r) ∧
  (∀ i h, entry_at i (homes p) = Some h → (length h ≤ MAX_GROUPLEN)%nat) ∧
  (∀ i j a b, entry_at i (rooms p) = Some a → entry_at j (rooms p) = Some b →
    a ≠ [] → casefold a = casefold b → i = j) ∧
  (∀ i h, entry_at i (homes p) = Some h → i < real → h ≠ [] →
    ∃ j r, entry_at j (rooms p) = Some r ∧ casefold r = casefold h) ∧
  (∀ j r, entry_at j (rooms p) = Some r → r ≠ [] → j ≠ exc →
    ∃ i h, entry_at i (homes p) = Some h ∧ casefold h = casefold r).

Lemma orderly_all p : orderly_but (-1) p → orderly p.
Proof.
  intros (H1 & H2 & H3 & H4 & H5). split; try done. intros j r Hj Hr. apply (H5 j r Hj Hr).
  apply entry_at_lookup in Hj. lia.
Qed.
Lemma orderly_weaken e p : orderly p → orderly_but e p.
Proof. intros [H1 H2 H3 H4 H5]. split_and!; try done. eauto. Qed.

Lemma casefold_nonempty a b : casefold a = casefold b → a ≠ [] → b ≠ [].
Proof. intros E Ha ->. by destruct a. Qed.

Lemma find_room_missing name rs :
  find_room name rs < 0 ↔ name = [] ∨ ∀ j r, entry_at j rs = Some r → casefold r ≠ casefold name.
Proof.
  unfold find_room. destruct name as [|c name]; [split; [by left|lia]|]. rewrite first_index_none. split.
  - intros Hm. right. intros j r [_ Hr]%entry_at_lookup E. apply strcaseeq_casefold in E.
    rewrite (Hm r) in E; [done|by eapply list_elem_of_lookup_2].
  - intros [?|Hm]; [done|]. intros r [k Hk]%list_elem_of_lookup. specialize (Hm (Z.of_nat k) r).
    rewrite entry_at_nat in Hm. specialize (Hm Hk). destruct (strcaseeq r _) eqn:E; [|done].
    by apply strcaseeq_casefold in E.
Qed.

Lemma find_room_unique p exc name j r :
  orderly_but exc p → entry_at j (rooms p) = Some r → casefold r = casefold name → name ≠ [] →
  find_room name (rooms p) = j.
Proof.
  intros (_ & _ & Hu & _) Hr E Hn. unfold find_room. destruct name as [|c name]; [done|].
  apply (first_index_unique _ _ _ r); [done|by apply strcaseeq_casefold|].
  intros k y Hy Ey%strcaseeq_casefold. apply (Hu k j y r); [done|done|by eapply casefold_nonempty|congruence].
Qed.

Lemma occupied_spec name hs :
  occupied name hs = true ↔ name ≠ [] ∧ ∃ i h, entry_at i hs = Some h ∧ casefold h = casefold name.
Proof.
  unfold occupied. destruct name as [|c name]; [by split; [|intros []]|]. rewrite existsb_exists. split.
  - intros (h & Hh & E%strcaseeq_casefold). split; [done|]. apply list_elem_of_In, list_elem_of_lookup in Hh as [i Hi].
    exists (Z.of_nat i), h. by rewrite entry_at_nat.
  - intros (_ & i & h & [_ Hh]%entry_at_lookup & E). exists h. split; [|by apply strcaseeq_casefold].
    apply list_elem_of_In. by eapply list_elem_of_lookup_2.
Qed.

Lemma vacate_inv j hs rs k r :
  entry_at k (vacate j hs rs) = Some r →
  (k = j ∧ r = []) ∨ (entry_at k rs = Some r ∧ (k = j → r ≠ [] → occupied r hs = true)).
Proof.
  unfold vacate. destruct (entry_at j rs) as [x|] eqn:Ex.
  - destruct (occupied x hs) eqn:Eo.
    + intros Hr. right. split; [done|]. intros -> _. congruence.
    + intros [(-> & -> & _)|[Hne Hr]]%entry_set_inv; [by left|right; by split].
  - intros Hr. right. split; [done|]. intros ->. congruence.
Qed.

Lemma vacate_keep j hs rs k r i h :
  entry_at k rs = Some r → entry_at i hs = Some h → casefold h = casefold r → r ≠ [] →
  entry_at k (vacate j hs rs) = Some r.
Proof.
  intros Hr Hh E Hne. unfold vacate. destruct (entry_at j rs) as [x|] eqn:Ex; [|done].
  destruct (occupied x hs) eqn:Eo; [done|]. rewrite entry_set_ne; [done|]. intros ->. rewrite Hr in Ex.
  injection Ex as <-. assert (occupied r hs = true); [|congruence]. apply occupied_spec. eauto.
Qed.

(** A user moves to room [exc], which may have been empty, or nowhere. *)
Lemma orderly_move exc p n h r :
  orderly_but exc p → entry_at n (homes p) = Some h →
  (r = [] ∧ exc = -1 ∨ r ≠ [] ∧ entry_at exc (rooms p) = Some r) → orderly (move n h r p).
Proof.
  intros Ho Hn Hto. pose proof Ho as (O1 & O2 & O3 & O4 & O5). apply orderly_all. unfold move.
  set (hs := entry_set n r (homes p)). assert (entry_at n hs = Some r) as Hn' by (apply entry_set_at; by rewrite Hn).
  assert (∀ k x, entry_at k (vacate (find_room h (rooms p)) hs (rooms p)) = Some x → x ≠ [] → entry_at k (rooms p) = Some x) as Hold.
  { intros k x [[_ ->]|[Hx _]]%vacate_inv; done. }
  split_and!; cbn [homes rooms].
  - intros j x [[_ ->]|[Hx _]]%vacate_inv; [split; [cbn; lia|constructor]|by eapply O1].
  - intros i x [(-> & -> & _)|[_ Hx]]%entry_set_inv; [|by eapply O2].
    destruct Hto as [[-> _]|[_ Hr]]; [cbn; lia|]. by destruct (O1 _ _ Hr).
  - intros i j a b Ha Hb Hne E. apply (O3 i j a b); [by apply Hold|apply Hold; [done|by eapply casefold_nonempty]|done|done].
  - intros i x Hx Hi Hxn. destruct (decide (i = n)) as [->|Hne].
    + rewrite Hn' in Hx. injection Hx as <-. destruct Hto as [[? _]|[_ Hr]]; [done|]. exists exc, r. split; [|done].
      by eapply vacate_keep.
    + pose proof Hx as Hx'. unfold hs in Hx'. rewrite entry_set_ne in Hx' by done.
      destruct (O4 i x Hx' Hi Hxn) as (j & y & Hy & E). exists j, y. split; [|done].
      eapply vacate_keep; [done|exact Hx|done|]. by eapply casefold_nonempty.
  - intros j x Hx Hxn _. destruct (vacate_inv _ _ _ _ _ Hx) as [[_ ->]|[Hx' Hocc]]; [done|].
    destruct (decide (j = find_room h (rooms p))) as [Ej|Hj].
    { by destruct (proj1 (occupied_spec _ _) (Hocc Ej Hxn)) as (_ & ?). }
    destruct (decide (j = exc)) as [->|Hje].
    { destruct Hto as [[_ ->]|[_ Hr]]; [by apply entry_at_lookup in Hx' as [? _]|]. rewrite Hr in Hx'. injection Hx' as <-.
      by exists n, r. }
    destruct (O5 j x Hx' Hxn Hje) as (i & y & Hy & E). destruct (decide (i = n)) as [->|Hin].
    + exfalso. rewrite Hn in Hy. injection Hy as <-. apply Hj. symmetry. eapply find_room_unique; [done|done|done|].
      by eapply casefold_nonempty.
    + exists i, y. split; [|done]. unfold hs. by rewrite entry_set_ne.
Qed.

(** A free entry gets the name of a room that does not exist. *)
Lemma orderly_create hs rs e r :
  orderly (Places hs rs) → entry_at e rs = Some [] → r ≠ [] → group_name_ok r → find_room r rs < 0 →
  orderly_but e (Places hs (entry_set e r rs)).
Proof.
  intros [O1 O2 O3 O4 O5] He Hr Hok [?|Hm]%find_room_missing; [done|]. cbn in *. split_and!; cbn [homes rooms]; try done.
  - intros j x [(-> & -> & _)|[_ Hx]]%entry_set_inv; [done|by eapply O1].
  - intros i j a b [(-> & -> & _)|[Hi Ha]]%entry_set_inv [(-> & -> & _)|[Hj Hb]]%entry_set_inv Hne E; [done| | |by eapply O3].
    + exfalso. by eapply Hm.
    + exfalso. by eapply Hm.
  - intros i h Hh Hi Hne. destruct (O4 i h Hh Hi Hne) as (j & x & Hx & E). exists j, x. split; [|done].
    rewrite entry_set_ne; [done|]. intros <-. rewrite He in Hx. injection Hx as <-. by destruct h.
  - intros j x [(-> & -> & _)|[_ Hx]]%entry_set_inv Hne Hje; [done|by eapply O5].
Qed.

Lemma rename_at old new hs i :
  entry_at i (rename real old new hs) =
  (λ h, if (i <? real) && strcaseeq h old then new else h) <$> entry_at i hs.
Proof.
  unfold entry_at, rename. destruct (Z.ltb_spec i 0); [done|]. rewrite list_lookup_imap, Z2Nat.id by lia. done.
Qed.

Lemma orderly_rename n j h old new hs rs :
  orderly (Places hs rs) → n < real → entry_at n hs = Some h → entry_at j rs = Some old → old ≠ [] →
  casefold h = casefold old → new ≠ [] → group_name_ok new → (find_room new rs < 0 ∨ find_room new rs = j) →
  orderly (Places (rename real old new hs) (entry_set j new rs)).
Proof.
  intros Ho Hn Hh Hj Hold Ec Hnew Hok Hfree. pose proof Ho as [O1 O2 O3 O4 O5]. cbn in *.
  assert (∀ k x, entry_at k rs = Some x → casefold x = casefold new → k = j) as Honly.
  { intros k x Hx E. pose proof (find_room_unique _ (-1) new k x (orderly_weaken _ _ Ho) Hx E Hnew) as Hf. cbn in Hf.
    rewrite Hf in Hfree. destruct Hfree; [|done]. apply entry_at_lookup in Hx. lia. }
  split; cbn [homes rooms].
  - intros k x [(-> & -> & _)|[_ Hx]]%entry_set_inv; [done|by eapply O1].
  - intros i x. rewrite rename_at. destruct (entry_at i hs) as [y|] eqn:Ey; [|done]. cbn. intros [= <-].
    case_if; [apply Hok|by eapply O2].
  - intros i k a b [(-> & -> & _)|[Hi Ha]]%entry_set_inv [(-> & -> & _)|[Hk Hb]]%entry_set_inv Hne E; [done| | |by eapply O3].
    + exfalso. apply Hk. by eapply Honly.
    + exfalso. apply Hi. by eapply Honly.
  - intros i x. rewrite rename_at. destruct (entry_at i hs) as [y|] eqn:Ey; [|done]. cbn. intros [= <-] Hi Hne.
    destruct (Z.ltb_spec i real); [|lia]. cbn [andb] in *. destruct (strcaseeq y old) eqn:Eo.
    + exists j, new. split; [|done]. apply entry_set_at. by rewrite Hj.
    + destruct (O4 i y Ey Hi Hne) as (k & x & Hx & E). exists k, x. split; [|done].
      rewrite entry_set_ne; [done|]. intros <-. rewrite Hj in Hx. injection Hx as <-.
      assert (strcaseeq y old = true); [by apply strcaseeq_casefold|congruence].
  - intros k x [(-> & -> & _)|[Hk Hx]]%entry_set_inv Hne.
    + exists n, new. rewrite rename_at, Hh. cbn. destruct (Z.ltb_spec n real); [|lia].
      by rewrite (proj2 (strcaseeq_casefold h old)).
    + destruct (O5 k x Hx Hne) as (i & y & Hy & E). exists i, y. rewrite rename_at, Hy. cbn.
      destruct (strcaseeq y old) eqn:Eo; [|by rewrite andb_false_r]. apply strcaseeq_casefold in Eo. exfalso.
      apply Hk. symmetry. apply (O3 j k old x); [done|done|done|congruence].
Qed.

(** Every step keeps the order. *)
Lemma step_orderly p p' : step p p' → orderly p → orderly p'.
Proof.
  intros Hs Ho. destruct Hs.
  - eapply (orderly_move j); [by apply orderly_weaken|done|by right].
  - eapply (orderly_move e); [by apply orderly_create|done|]. right. split; [done|]. by apply entry_set_at; eauto.
  - assert (orderly_but e (Places hs (entry_set e r rs))) as Hb by (by apply orderly_create).
    destruct Hb as (B1 & B2 & B3 & B4 & B5). split; try done. cbn [rooms homes] in *.
    intros j x Hx Hne. destruct (decide (j = e)) as [->|Hj]; [|by eapply B5]. exists n, h. split; [done|].
    unfold find_room in *. destruct h as [|c h]; [apply entry_at_lookup in Hx; lia|].
    destruct (first_index_entry (λ r, strcaseeq r (c :: h)) (entry_set e r rs)) as (y & Hy & Ey).
    { apply entry_at_lookup in Hx. lia. }
    match goal with H : first_index _ _ = e |- _ => rewrite H in Hy end. rewrite Hx in Hy. injection Hy as <-. symmetry.
    by apply strcaseeq_casefold.
  - eapply (orderly_move (-1)); [by apply orderly_weaken|done|by left].
  - by eapply orderly_rename.
Qed.

Lemma steps_orderly p p' : rtc step p p' → orderly p → orderly p'.
Proof. induction 1; [done|]. intros Ho. eauto using step_orderly. Qed.
End machine.
