(* ===== verification/Kept.v ===== *)
(** * What leaves everybody where they are

    Most of what the server does concerns messages, settings, accounts and
    times; it leaves the group of every user and the name of every group as
    they are.  [kept] says so of a computation, whether it completes or not
    depends on nothing here; a lemma for each handler, by the rules. *)

From Stdlib Require Import ZArith Lia String.
From S2P Require Import Config Prelude Utf8 StrUtil Wildmat NameList Lookup CLib Monad Dbm IcbDb State Tables Send GroupCast World Access GroupChange GroupMod GroupStatus Lifecycle UserCmd Who Info Admin Auto Msgs Places.

Local Open Scope Z_scope.
Local Open Scope icb_monad_scope.

Create HintDb kept discriminated.
#[export] Hint Constants Opaque : kept.

(** The names of a state. *)
Definition places_of (s : st) : places := Places (u_group <$> u_tab s) (g_name <$> g_tab s).

(** The user is where it was, and is not logged out. *)
Definition same_home (u u' : user) : Prop :=
  u_group u' = u_group u ∧ (u_login u' ≤ LOGIN_FALSE → u_login u ≤ LOGIN_FALSE).
Definition keep (s s' : st) : Prop :=
  Forall2 same_home (u_tab s) (u_tab s') ∧ g_name <$> g_tab s' = g_name <$> g_tab s.

#[export] Instance same_home_pre : PreOrder same_home.
Proof. split; [done|]. intros u v w [E1 L1] [E2 L2]. split; [congruence|auto]. Qed.
#[export] Instance keep_pre : PreOrder keep.
Proof.
  split; [done|]. intros s1 s2 s3 [H1 E1] [H2 E2]. split; [by transitivity (u_tab s2)|congruence].
Qed.

Notation kept := (preserves keep).

Lemma keep_places s s' : keep s s' → places_of s' = places_of s.
Proof.
  intros [Hu Hg]. unfold places_of. f_equal; [|done]. induction Hu as [|u u' l l' [E _] _ IH]; [done|].
  cbn. by rewrite E, IH.
Qed.

(** ** Rules *)

Lemma kept_modify f : (∀ s, u_tab (f s) = u_tab s ∧ g_tab (f s) = g_tab s) → kept (modify f).
Proof. intros Hf. apply (preserves_modify keep). intros s. destruct (Hf s) as [E1 E2]. unfold keep. by rewrite E1, E2. Qed.

Lemma forall2_entry_set {A} (R : A → A → Prop) `{!Reflexive R} n x y l :
  entry_at n l = Some x → R x y → Forall2 R l (entry_set n y l).
Proof.
  intros [Hn Hx]%entry_at_lookup Hxy. unfold entry_set. destruct (Z.ltb_spec n 0); [lia|].
  rewrite <-(list_insert_id l (Z.to_nat n) x) at 1 by done. by apply Forall2_insert.
Qed.

Lemma kept_upd_user n f : (∀ u, same_home u (f u)) → kept (upd_user n f).
Proof.
  intros Hf s [] s'. unfold upd_user, bind, user_at, bind, getS, lift, modify.
  destruct (entry_at n (u_tab s)) as [u|] eqn:E; [|done]. intros [= <-]. split; [|done]. cbn.
  by apply (forall2_entry_set same_home _ u).
Qed.

Lemma kept_upd_group n f : (∀ g, g_name (f g) = g_name g) → kept (upd_group n f).
Proof.
  intros Hf s [] s'. unfold upd_group, bind, group_at, bind, getS, lift, modify.
  destruct (entry_at n (g_tab s)) as [g|] eqn:E; [|done]. intros [= <-]. split; [done|]. cbn.
  apply entry_at_lookup in E as [Hn E]. unfold entry_set. destruct (n <? 0); [done|].
  rewrite list_fmap_insert, Hf. apply list_insert_id. by rewrite list_lookup_fmap, E.
Qed.

Lemma kept_user_at n : kept (user_at n).
Proof. unfold user_at. apply (preserves_bind keep); [apply (preserves_getS keep)|]. intros s. apply (preserves_lift keep). Qed.
Lemma kept_group_at n : kept (group_at n).
Proof. unfold group_at. apply (preserves_bind keep); [apply (preserves_getS keep)|]. intros s. apply (preserves_lift keep). Qed.
Lemma kept_int_at a n : kept (int_at a n).
Proof. unfold int_at. apply (preserves_bind keep); [apply (preserves_getS keep)|]. intros s. apply (preserves_lift keep). Qed.
Lemma kept_set_int a seta n v :
  (∀ l s, u_tab (seta l s) = u_tab s ∧ g_tab (seta l s) = g_tab s) → kept (set_int a seta n v).
Proof.
  intros Hs. unfold set_int. apply (preserves_bind keep); [apply kept_int_at|]. intros _. apply kept_modify. intros s. apply Hs.
Qed.
Lemma kept_with_userdb {A} (m : M icbdb A) : kept (with_userdb m).
Proof. intros s a s'. unfold with_userdb. destruct (m (userdb s)) as [[x d]|]; [|done]. by intros [= _ <-]. Qed.
Lemma kept_emit e : kept (emit e).
Proof. by apply kept_modify. Qed.
Lemma kept_set_fields k : kept (set_fields k).
Proof. by apply kept_modify. Qed.
Lemma kept_stale_field `{Host} i : kept (stale_field i).
Proof. intros s a s' [_ ->]%stale_field_inv. reflexivity. Qed.
Lemma kept_when b m : kept m → kept (when b m).
Proof. intros Hm. apply (preserves_when keep). by intros _. Qed.

#[export] Hint Resolve kept_user_at kept_group_at kept_int_at kept_with_userdb kept_emit kept_set_fields kept_stale_field : kept.
#[export] Hint Extern 1 (preserves keep (ret _)) => apply (preserves_ret keep) : kept.
#[export] Hint Extern 1 (preserves keep ub) => apply (preserves_ub keep) : kept.
#[export] Hint Extern 1 (preserves keep getS) => apply (preserves_getS keep) : kept.
#[export] Hint Extern 1 (preserves keep (gets _)) => apply (preserves_gets keep) : kept.
#[export] Hint Extern 1 (preserves keep (lift _)) => apply (preserves_lift keep) : kept.
#[export] Hint Extern 1 (preserves keep (modify _)) => apply kept_modify; intros []; split; reflexivity : kept.
#[export] Hint Extern 1 (preserves keep (set_int _ _ _ _)) => apply kept_set_int; intros ? []; split; reflexivity : kept.
#[export] Hint Extern 1 (preserves keep (upd_user _ _)) =>
  apply kept_upd_user; intros []; split; cbn; first [reflexivity|unfold LOGIN_FALSE, LOGIN_COMPLETE; lia] : kept.
#[export] Hint Extern 1 (preserves keep (upd_group _ _)) => apply kept_upd_group; intros ?; first [reflexivity|unfold add_invite; repeat case_match; reflexivity] : kept.

Ltac kp_step :=
  lazymatch goal with
  | |- preserves _ (let _ := _ in _) => cbv zeta
  | |- preserves _ (bind _ _) => apply (preserves_bind keep); [|intros ?]
  | |- preserves _ (when _ _) => apply kept_when
  | |- preserves _ (for_each _ _) => apply (preserves_for_each keep); intros ?
  | |- preserves _ (for_acc _ _ _) => apply (preserves_for_acc keep); intros ? ?
  | |- preserves _ (if ?b then _ else _) => destruct b
  | |- preserves _ (match ?x with _ => _ end) => destruct x
  end.
Ltac kp := repeat first [solve [eauto 2 with kept nocore] | kp_step].

(** ** Sending *)

Section handlers.
Context `{BuildConfig} `{Host} `{Commands}.

Lemma kp_filtered src len : kept (filtered src len).
Proof. unfold filtered. kp. Qed.
#[local] Hint Resolve kp_filtered : kept.
Lemma kp_client f from to pkt : (∀ a b, kept (f a b)) → kept (doSend_client f from to pkt).
Proof. intros Hf. unfold doSend_client. kp. Qed.
#[local] Hint Resolve kp_client : kept.
Lemma kp_plain f from to pkt : (∀ a b, kept (f a b)) → kept (doSend_plain f from to pkt).
Proof. intros Hf. unfold doSend_plain. kp. Qed.
#[local] Hint Resolve kp_plain : kept.
Lemma kp_senderror to m : kept (senderror to m).
Proof. unfold senderror. kp. Qed.
#[local] Hint Resolve kp_senderror : kept.
(** A packet that is neither a beep nor a private message. *)
Lemma kp_doSend from to c b :
  Byte.eqb c ICB_M_BEEP = false → Byte.eqb c ICB_M_PERSONAL = false → kept (doSend from to (packet c b)).
Proof.
  intros E1 E2. unfold doSend. assert (packet c b = c :: take 253 b) as -> by reflexivity.
  destruct (to <? 0); [kp|]. destruct (MAX_REAL_USERS <=? to); [|kp]. rewrite E1, E2. kp.
Qed.
#[local] Hint Extern 1 (preserves keep (doSend _ _ (packet _ _))) => apply kp_doSend; reflexivity : kept.
(** A packet for a connection is handed over as it is. *)
Lemma kp_doSend_personal_real from to pkt : to < MAX_REAL_USERS → kept (doSend_personal from to pkt).
Proof. intros Hto. unfold doSend_personal. destruct (Z.leb_spec MAX_REAL_USERS to); [lia|]. kp. Qed.
Lemma kp_doSend_real from to pkt : to < MAX_REAL_USERS → kept (doSend from to pkt).
Proof. intros Hto. unfold doSend. destruct (Z.leb_spec MAX_REAL_USERS to); [lia|]. kp. Qed.
#[local] Hint Resolve kp_doSend_personal_real : kept.
#[local] Hint Resolve kp_doSend_real : kept.
Lemma kp_sendstatus to c m : kept (sendstatus to c m).
Proof. unfold sendstatus. kp. Qed.
#[local] Hint Resolve kp_sendstatus : kept.
Lemma kp_sendopen from to m : kept (sendopen from to m).
Proof. unfold sendopen. kp. Qed.
#[local] Hint Resolve kp_sendopen : kept.
Lemma kp_sendexit to : kept (sendexit to).
Proof. unfold sendexit. kp. Qed.
#[local] Hint Resolve kp_sendexit : kept.
Lemma kp_sendping to who : kept (sendping to who).
Proof. unfold sendping. kp. Qed.
#[local] Hint Resolve kp_sendping : kept.
Lemma kp_sends_cmdout to m : kept (sends_cmdout to m).
Proof. unfold sends_cmdout. kp. Qed.
#[local] Hint Resolve kp_sends_cmdout : kept.
Lemma kp_s_new_user n secure : kept (s_new_user n secure).
Proof. unfold s_new_user. kp. Qed.
#[local] Hint Resolve kp_s_new_user : kept.
Lemma kp_send_loginok to : kept (send_loginok to).
Proof. unfold send_loginok. kp. Qed.
#[local] Hint Resolve kp_send_loginok : kept.
Lemma kp_sendimport to c m : kept (sendimport to c m).
Proof. unfold sendimport. kp. Qed.
#[local] Hint Resolve kp_sendimport : kept.
Lemma kp_user_wline to a b c d e f g h : kept (user_wline to a b c d e f g h).
Proof. unfold user_wline. kp. Qed.
#[local] Hint Resolve kp_user_wline : kept.
Lemma kp_user_whead to : kept (user_whead to).
Proof. unfold user_whead. kp. Qed.
#[local] Hint Resolve kp_user_whead : kept.

Lemma kp_time : kept time.
Proof. unfold time. kp. Qed.
#[local] Hint Resolve kp_time : kept.
Lemma kp_sendperson_real from to m : to < MAX_REAL_USERS → kept (sendperson from to m).
Proof. intros Hto. unfold sendperson. kp. Qed.
#[local] Hint Resolve kp_sendperson_real : kept.
Lemma kp_autoBeep to : to < MAX_REAL_USERS → kept (autoBeep to).
Proof. intros Hto. unfold autoBeep. kp. Qed.
#[local] Hint Resolve kp_autoBeep : kept.
Lemma kp_send_person_stored to a m : to < MAX_REAL_USERS → kept (send_person_stored to a m).
Proof. intros Hto. unfold send_person_stored. kp. Qed.
#[local] Hint Resolve kp_send_person_stored : kept.
Lemma kp_sendbeep from to : from < MAX_REAL_USERS → kept (sendbeep from to).
Proof.
  intros Hn. unfold sendbeep. kp. unfold doSend.
  match goal with |- context [packet ICB_M_BEEP ?b] => assert (packet ICB_M_BEEP b = ICB_M_BEEP :: take 253 b) as -> by reflexivity end.
  destruct (to <? 0); [kp|]. destruct (MAX_REAL_USERS <=? to); [|kp].
  assert (Byte.eqb ICB_M_BEEP ICB_M_BEEP = true) as -> by reflexivity. kp.
Qed.
#[local] Hint Resolve kp_sendbeep : kept.

(** ** Tables *)

Lemma kp_check_auth n : kept (check_auth n).
Proof. unfold check_auth. kp. Qed.
#[local] Hint Resolve kp_check_auth : kept.
Lemma kp_nickwritetime n c : kept (nickwritetime n c).
Proof. unfold nickwritetime, time. kp. Qed.
#[local] Hint Resolve kp_nickwritetime : kept.

(** ** Groups *)

Lemma kp_status_group k t n c m : kept (s_status_group k t n c m).
Proof. unfold s_status_group. kp. Qed.
#[local] Hint Resolve kp_status_group : kept.
Lemma kp_hears a b c u : kept (hears a b c u).
Proof. unfold hears. kp. Qed.
#[local] Hint Resolve kp_hears : kept.
Lemma kp_getword w : kept (getword_m w).
Proof. unfold getword_m. kp. Qed.
#[local] Hint Resolve kp_getword : kept.
Lemma kp_send_group n f : kept (s_send_group n f).
Proof. unfold s_send_group. kp. Qed.
#[local] Hint Resolve kp_send_group : kept.
Lemma kp_exclude n a f : kept (s_exclude n a f).
Proof. unfold s_exclude. kp. Qed.
#[local] Hint Resolve kp_exclude : kept.
Lemma kp_add_item n i b : kept (add_item n i b).
Proof. unfold add_item. kp. Qed.
#[local] Hint Resolve kp_add_item : kept.
Lemma kp_add_names n h s b i l line : kept (add_names n h s b i l line).
Proof. revert i line. induction l as [|cp l IH]; intros i line; cbn [add_names]; kp. Qed.
#[local] Hint Resolve kp_add_names : kept.
Lemma kp_list_two n h l lr : kept (list_two n h l lr).
Proof. unfold list_two. kp. Qed.
#[local] Hint Resolve kp_list_two : kept.
Lemma kp_list_invites n gi : kept (list_invites n gi).
Proof. unfold list_invites. kp. Qed.
#[local] Hint Resolve kp_list_invites : kept.
Lemma kp_dump_table n : kept (dump_table n).
Proof. unfold dump_table. kp. Qed.
#[local] Hint Resolve kp_dump_table : kept.
Lemma kp_topic n a f : kept (s_topic n a f).
Proof. unfold s_topic. kp. Qed.
#[local] Hint Resolve kp_topic : kept.
Lemma kp_talk_delete w gi : kept (talk_delete w gi).
Proof. unfold talk_delete. kp. Qed.
#[local] Hint Resolve kp_talk_delete : kept.
Lemma kp_talk_report n gi : kept (talk_report n gi).
Proof. unfold talk_report. kp. Qed.
#[local] Hint Resolve kp_talk_report : kept.
Lemma kp_invited u g : kept (invited u g).
Proof. unfold invited. kp. Qed.
#[local] Hint Resolve kp_invited : kept.
Lemma kp_probe n u g t : kept (probe n u g t).
Proof. unfold probe. kp. Qed.
#[local] Hint Resolve kp_probe : kept.
Lemma kp_restricted_refuses n gi u t : kept (restricted_refuses n gi u t).
Proof. unfold restricted_refuses. kp. Qed.
#[local] Hint Resolve kp_restricted_refuses : kept.
Lemma kp_full_refuses n gi u t : kept (full_refuses n gi u t).
Proof. unfold full_refuses. kp. Qed.
#[local] Hint Resolve kp_full_refuses : kept.

(** ** Moderating *)

Lemma kp_flag_loop {F} sw fuel w (f : F) : kept (flag_loop sw fuel w f).
Proof. revert w f. induction fuel as [|fuel IH]; intros w f; cbn [flag_loop]; kp. Qed.
#[local] Hint Resolve kp_flag_loop : kept.
Lemma kp_parse_flags sw w : kept (parse_flags sw w).
Proof. unfold parse_flags. kp. Qed.
#[local] Hint Resolve kp_parse_flags : kept.
Lemma kp_invite n a f : kept (s_invite n a f).
Proof. unfold s_invite. kp. Qed.
#[local] Hint Resolve kp_invite : kept.
Lemma kp_admin_or_mod n gi : kept (admin_or_mod n gi).
Proof. unfold admin_or_mod. kp. Qed.
#[local] Hint Resolve kp_admin_or_mod : kept.
Lemma kp_group_status n gi c m : kept (group_status n gi c m).
Proof. unfold group_status. kp. Qed.
#[local] Hint Resolve kp_group_status : kept.
Lemma kp_pass n a f : kept (s_pass n a f).
Proof. unfold s_pass. kp. Qed.
#[local] Hint Resolve kp_pass : kept.
Lemma kp_talk_clear l : kept (talk_clear l).
Proof. induction l as [|[|c w] l IH]; cbn [talk_clear]; kp. Qed.
#[local] Hint Resolve kp_talk_clear : kept.
Lemma kp_talk n a f : kept (s_talk n a f).
Proof. unfold s_talk. kp. Qed.
#[local] Hint Resolve kp_talk : kept.

(** ** Settings *)

Lemma kp_status_show n : kept (status_show n).
Proof. unfold status_show. kp. Qed.
#[local] Hint Resolve kp_status_show : kept.
Lemma kp_invite_members gi : kept (invite_members gi).
Proof. unfold invite_members. kp. Qed.
#[local] Hint Resolve kp_invite_members : kept.
Lemma kp_opt_restrict gi : kept (opt_restrict gi).
Proof. unfold opt_restrict. kp. Qed.
#[local] Hint Resolve kp_opt_restrict : kept.
Lemma kp_opt_moderate gi : kept (opt_moderate gi).
Proof. unfold opt_moderate. kp. Qed.
#[local] Hint Resolve kp_opt_moderate : kept.
Lemma kp_opt_control gi : kept (opt_control gi).
Proof. unfold opt_control. kp. Qed.
#[local] Hint Resolve kp_opt_control : kept.
Lemma kp_opt_public gi nick : kept (opt_public gi nick).
Proof. unfold opt_public. kp. Qed.
#[local] Hint Resolve kp_opt_public : kept.
Lemma kp_opt_size n gi nick p1 : kept (opt_size n gi nick p1).
Proof. unfold opt_size. kp. Qed.
#[local] Hint Resolve kp_opt_size : kept.
Lemma kp_minutes p : kept (minutes p).
Proof. unfold minutes. kp. Qed.
#[local] Hint Resolve kp_minutes : kept.
Lemma kp_opt_idleboot n gi nick p1 : kept (opt_idleboot n gi nick p1).
Proof. unfold opt_idleboot. kp. Qed.
#[local] Hint Resolve kp_opt_idleboot : kept.
Lemma kp_skip fuel p1 : kept (skip_to_end fuel p1).
Proof. revert p1. induction fuel as [|fuel IH]; intros p1; cbn [skip_to_end]; kp. Qed.
#[local] Hint Resolve kp_skip : kept.
Lemma kp_opt_idleboot_msg n gi p1 : kept (opt_idleboot_msg n gi p1).
Proof. unfold opt_idleboot_msg. kp. Qed.
#[local] Hint Resolve kp_opt_idleboot_msg : kept.
Lemma kp_opt_idlemod n gi nick p1 : kept (opt_idlemod n gi nick p1).
Proof. unfold opt_idlemod. kp. Qed.
#[local] Hint Resolve kp_opt_idlemod : kept.

(** ** Accounts (access.c) *)

Lemma kp_gettime : kept gettime.
Proof. unfold gettime, time. kp. Qed.
#[local] Hint Resolve kp_gettime : kept.
Lemma kp_db_open : kept db_open.
Proof. unfold db_open. kp. Qed.
#[local] Hint Resolve kp_db_open : kept.
Lemma kp_db_close : kept db_close.
Proof. unfold db_close. kp. Qed.
#[local] Hint Resolve kp_db_close : kept.
Lemma kp_db_get_str n a : kept (db_get_str n a).
Proof. unfold db_get_str. kp. Qed.
#[local] Hint Resolve kp_db_get_str : kept.
Lemma kp_db_get_int n a : kept (db_get_int n a).
Proof. unfold db_get_int. kp. Qed.
#[local] Hint Resolve kp_db_get_int : kept.
Lemma kp_db_set n a v : kept (db_set n a v).
Proof. unfold db_set. kp. Qed.
#[local] Hint Resolve kp_db_set : kept.
Lemma kp_db_delete n a : kept (db_delete n a).
Proof. unfold db_delete. kp. Qed.
#[local] Hint Resolve kp_db_delete : kept.
Lemma kp_setsecure n v : kept (setsecure n v).
Proof. unfold setsecure. kp. Qed.
#[local] Hint Resolve kp_setsecure : kept.
Lemma kp_valuser u p : kept (valuser u p).
Proof. unfold valuser. kp. Qed.
#[local] Hint Resolve kp_valuser : kept.
Lemma kp_nickdelete n p : kept (nickdelete n p).
Proof. unfold nickdelete. kp. Qed.
#[local] Hint Resolve kp_nickdelete : kept.
Lemma kp_nickwritemsg n u m : kept (nickwritemsg n u m).
Proof. unfold nickwritemsg. kp. Qed.
#[local] Hint Resolve kp_nickwritemsg : kept.
Lemma kp_nickckmsg n : kept (nickckmsg n).
Proof. unfold nickckmsg. kp. Qed.
#[local] Hint Resolve kp_nickckmsg : kept.
Lemma kp_read_one n k i : n < MAX_REAL_USERS → kept (read_one n k i).
Proof. intros Hn. unfold read_one. kp. Qed.
#[local] Hint Resolve kp_read_one : kept.
Lemma kp_nickreadmsg n : n < MAX_REAL_USERS → kept (nickreadmsg n).
Proof. intros Hn. unfold nickreadmsg. kp. Qed.
#[local] Hint Resolve kp_nickreadmsg : kept.
Lemma kp_nickchinfo n t d m msg : kept (nickchinfo n t d m msg).
Proof. unfold nickchinfo. kp. Qed.
#[local] Hint Resolve kp_nickchinfo : kept.
Lemma kp_nickchpass n o p : kept (nickchpass n o p).
Proof. unfold nickchpass. kp. Qed.
#[local] Hint Resolve kp_nickchpass : kept.
Lemma kp_regain_mod n i : kept (regain_mod n i).
Proof. unfold regain_mod. kp. Qed.
#[local] Hint Resolve kp_regain_mod : kept.
Lemma kp_regain_mods n : kept (regain_mods n).
Proof. unfold regain_mods. kp. Qed.
#[local] Hint Resolve kp_regain_mods : kept.
Lemma kp_tell_messages n : kept (tell_messages n).
Proof. unfold tell_messages. kp. Qed.
#[local] Hint Resolve kp_tell_messages : kept.
Lemma kp_mark_registered n : kept (mark_registered n).
Proof. unfold mark_registered. kp. Qed.
#[local] Hint Resolve kp_mark_registered : kept.
Lemma kp_nickwrite n p v : kept (nickwrite n p v).
Proof. unfold nickwrite. kp. Qed.
#[local] Hint Resolve kp_nickwrite : kept.
Lemma kp_line_fits l : kept (line_fits l).
Proof. unfold line_fits. kp. Qed.
#[local] Hint Resolve kp_line_fits : kept.
Lemma kp_show_pair n a b c d e f g : kept (show_pair n a b c d e f g).
Proof. unfold show_pair. kp. Qed.
#[local] Hint Resolve kp_show_pair : kept.
Lemma kp_show_if n a b c : kept (show_if n a b c).
Proof. unfold show_if. kp. Qed.
#[local] Hint Resolve kp_show_if : kept.
Lemma kp_show_addr n s t : kept (show_addr n s t).
Proof. revert t. induction s as [|c s IH]; intros t; cbn [show_addr]; kp. Qed.
#[local] Hint Resolve kp_show_addr : kept.
Lemma kp_show_text fuel n l p s w c t : kept (show_text fuel n l p s w c t).
Proof. revert p s w c t. induction fuel as [|fuel IH]; intros p s w c t; cbn [show_text]; kp. Qed.
#[local] Hint Resolve kp_show_text : kept.
Lemma kp_show_account n a b c : kept (show_account n a b c).
Proof. unfold show_account. kp. Qed.
#[local] Hint Resolve kp_show_account : kept.
Lemma kp_nicklookup n t : kept (nicklookup n t).
Proof. unfold nicklookup. kp. Qed.
#[local] Hint Resolve kp_nicklookup : kept.

(** ** Lost connections and the sweep (ipcf.c) *)

Lemma kp_bump f : kept (bump f).
Proof. unfold bump. kp. Qed.
#[local] Hint Resolve kp_bump : kept.
Lemma kp_icbexit : kept icbexit.
Proof. unfold icbexit. kp. Qed.
#[local] Hint Resolve kp_icbexit : kept.
Lemma kp_notify_off n u : kept (notify_off n u).
Proof. unfold notify_off. kp. Qed.
#[local] Hint Resolve kp_notify_off : kept.
Lemma kp_lost_mod m r t : kept (lost_mod m r t).
Proof. unfold lost_mod. kp. Qed.
#[local] Hint Resolve kp_lost_mod : kept.
Lemma kp_lost_mods fuel n r t : kept (lost_mods fuel n r t).
Proof. induction fuel as [|fuel IH]; cbn [lost_mods]; kp. Qed.
#[local] Hint Resolve kp_lost_mods : kept.
Lemma kp_warn_shutdown t b k m : kept (warn_shutdown t b k m).
Proof. unfold warn_shutdown. kp. Qed.
#[local] Hint Resolve kp_warn_shutdown : kept.
Lemma kp_kill_pending : kept kill_pending.
Proof. unfold kill_pending. kp. Qed.
#[local] Hint Resolve kp_kill_pending : kept.
Lemma kp_check_idle_mod t i : kept (check_idle_mod t i).
Proof. unfold check_idle_mod. kp. Qed.
#[local] Hint Resolve kp_check_idle_mod : kept.
Lemma kp_pass_mod t i : kept (pass_mod t i).
Proof. unfold pass_mod. kp. Qed.
#[local] Hint Resolve kp_pass_mod : kept.
Lemma kp_let_go i j : kept (let_go i j).
Proof. unfold let_go. kp. Qed.
#[local] Hint Resolve kp_let_go : kept.

(** ** Users (s_user.c, s_person.c, s_beep.c) *)

Lemma kp_send_names n c l : kept (send_names n c l).
Proof. unfold send_names. kp. Qed.
#[local] Hint Resolve kp_send_names : kept.
Lemma kp_list_hushed n : kept (list_hushed n).
Proof. unfold list_hushed. kp. Qed.
#[local] Hint Resolve kp_list_hushed : kept.
Lemma kp_toggle_name n get set max w q c f l (added : M st unit) : 
  (∀ v u, same_home u (set v u)) → kept added → kept (toggle_name n get set max w q c f l added).
Proof. intros Hs Ha. unfold toggle_name. kp; apply kept_upd_user; intros; apply Hs. Qed.
#[local] Hint Extern 1 (preserves keep (toggle_name _ _ _ _ _ _ _ _ _ _)) => apply kp_toggle_name; [intros ? []; split; [reflexivity|auto]|kp] : kept.
Lemma kp_hush_who n w m p o q : kept (hush_who n w m p o q).
Proof. unfold hush_who. kp. Qed.
#[local] Hint Resolve kp_hush_who : kept.
Lemma kp_hush n a f : kept (s_hush n a f).
Proof. unfold s_hush. kp. Qed.
#[local] Hint Resolve kp_hush : kept.
Lemma kp_list_notifies n : kept (list_notifies n).
Proof. unfold list_notifies. kp. Qed.
#[local] Hint Resolve kp_list_notifies : kept.
Lemma kp_notify n a f : kept (s_notify n a f).
Proof. unfold s_notify. kp. Qed.
#[local] Hint Resolve kp_notify : kept.
Lemma kp_tell_unproved n : kept (tell_unproved n).
Proof. unfold tell_unproved. kp. Qed.
#[local] Hint Resolve kp_tell_unproved : kept.
Lemma kp_recognise n : kept (recognise n).
Proof. unfold recognise. kp. Qed.
#[local] Hint Resolve kp_recognise : kept.
Lemma kp_settle_nick n : kept (settle_nick n).
Proof. unfold settle_nick. kp. Qed.
#[local] Hint Resolve kp_settle_nick : kept.
Lemma kp_name n a f : kept (s_name n a f).
Proof. unfold s_name. kp. Qed.
#[local] Hint Resolve kp_name : kept.
Lemma kp_echoback n a f : kept (s_echoback n a f).
Proof. unfold s_echoback. kp. Qed.
#[local] Hint Resolve kp_echoback : kept.
Lemma kp_nobeep n a f : kept (s_nobeep n a f).
Proof. unfold s_nobeep. kp. Qed.
#[local] Hint Resolve kp_nobeep : kept.
Lemma kp_now_usec : kept now_usec.
Proof. unfold now_usec. kp. Qed.
#[local] Hint Resolve kp_now_usec : kept.
Lemma kp_ping n a f : kept (s_ping n a f).
Proof. unfold s_ping. kp. Qed.
#[local] Hint Resolve kp_ping : kept.
Lemma kp_noaway n a : kept (s_noaway n a).
Proof. unfold s_noaway. kp. Qed.
#[local] Hint Resolve kp_noaway : kept.
Lemma kp_away n a f : kept (s_away n a f).
Proof. unfold s_away. kp. Qed.
#[local] Hint Resolve kp_away : kept.
Lemma kp_away_handle n d : kept (away_handle n d).
Proof. unfold away_handle. kp. Qed.
#[local] Hint Resolve kp_away_handle : kept.

Lemma kp_beep n a f : n < MAX_REAL_USERS → kept (s_beep n a f).
Proof. intros Hn. unfold s_beep. kp. Qed.
#[local] Hint Resolve kp_beep : kept.

(** ** Listings (s_who.c) *)

Lemma kp_pgm_short n w : kept (pgm_short n w).
Proof.
  unfold pgm_short. kp.
  match goal with |- kept (_ _ ?k ?l) => generalize l; generalize k end.
  match goal with us : list (Z * user) |- _ => induction us as [|[i u] us IH]; intros k l; [kp|] end. kp.
Qed.
#[local] Hint Resolve kp_pgm_short : kept.
Lemma kp_pgm_long n w : kept (pgm_long n w).
Proof. unfold pgm_long. kp. Qed.
#[local] Hint Resolve kp_pgm_long : kept.
Lemma kp_print_group_members n w f : kept (print_group_members n w f).
Proof. unfold print_group_members. kp. Qed.
#[local] Hint Resolve kp_print_group_members : kept.
Lemma kp_who_invited u g : kept (who_invited u g).
Proof. unfold who_invited. kp. Qed.
#[local] Hint Resolve kp_who_invited : kept.
Lemma kp_option_char l i : kept (option_char l i).
Proof. unfold option_char. kp. Qed.
#[local] Hint Resolve kp_option_char : kept.
Lemma kp_mod_text g : kept (mod_text g).
Proof. unfold mod_text. kp. Qed.
#[local] Hint Resolve kp_mod_text : kept.
Lemma kp_print_group_header n g : kept (print_group_header n g).
Proof. unfold print_group_header. kp. Qed.
#[local] Hint Resolve kp_print_group_header : kept.
Lemma kp_doOne n f t : kept (doOne n f t).
Proof. unfold doOne. kp. Qed.
#[local] Hint Resolve kp_doOne : kept.
Lemma kp_listed m u ig : kept (listed m u ig).
Proof. unfold listed. kp. Qed.
#[local] Hint Resolve kp_listed : kept.
Lemma kp_filter_m {A} (p : A → M st bool) l : (∀ x, kept (p x)) → kept (filter_m p l).
Proof. intros Hp. induction l as [|x l IH]; cbn [filter_m]; kp. Qed.
#[local] Hint Resolve kp_filter_m : kept.
Lemma kp_doAll n f : kept (doAll n f).
Proof. unfold doAll. kp. Qed.
#[local] Hint Resolve kp_doAll : kept.
Lemma kp_who n a f : kept (s_who n a f).
Proof. unfold s_who. kp. Qed.
#[local] Hint Resolve kp_who : kept.

(** ** Files and facts (s_motd.c, s_news.c, s_info.c and others) *)

Lemma kp_show_file k n b t : kept (show_file k n b t).
Proof. revert t. induction b as [|c b IH]; intros t; cbn [show_file]; kp. Qed.
#[local] Hint Resolve kp_show_file : kept.
Lemma kp_help n a : kept (s_help n a).
Proof. unfold s_help. kp. Qed.
#[local] Hint Resolve kp_help : kept.
Lemma kp_motd_loop n b t : kept (motd_loop n b t).
Proof.
  revert t. induction b as [b IH] using (induction_ltof1 _ length); unfold ltof in IH.
  intros t. destruct b as [|c b]; cbn [motd_loop]; [kp|]. assert (∀ t, kept (motd_loop n b t)) as IHb by (apply IH; simpl; lia).
  destruct b as [|d b]; [kp|]. assert (∀ t, kept (motd_loop n b t)) as IHd by (apply IH; simpl; lia). kp.
Qed.
#[local] Hint Resolve kp_motd_loop : kept.
Lemma kp_motd n a : kept (s_motd n a).
Proof. unfold s_motd. kp. Qed.
#[local] Hint Resolve kp_motd : kept.
Lemma kp_news_item n b i : kept (news_item n b i).
Proof. unfold news_item. kp. Qed.
#[local] Hint Resolve kp_news_item : kept.
Lemma kp_news_items n l b : kept (news_items n l b).
Proof. revert b. induction l as [|i l IH]; intros b; cbn [news_items]; kp. Qed.
#[local] Hint Resolve kp_news_items : kept.
Lemma kp_news n a f : kept (s_news n a f).
Proof. unfold s_news. kp. Qed.
#[local] Hint Resolve kp_news : kept.
Lemma kp_info n a f : kept (s_info n a f).
Proof. unfold s_info. kp. Qed.
#[local] Hint Resolve kp_info : kept.
Lemma kp_version n a : kept (s_version n a).
Proof. unfold s_version. kp. Qed.
#[local] Hint Resolve kp_version : kept.
Lemma kp_double q : kept (double_to_int q).
Proof. unfold double_to_int. kp. Qed.
#[local] Hint Resolve kp_double : kept.
Lemma kp_shuttime n a : kept (s_shuttime n a).
Proof. unfold s_shuttime. kp. Qed.
#[local] Hint Resolve kp_shuttime : kept.
Lemma kp_server_stats n a f : kept (s_server_stats n a f).
Proof. unfold s_server_stats. kp. Qed.
#[local] Hint Resolve kp_server_stats : kept.

(** ** The administrator and the resident user (s_admin.c, s_auto.c) *)

Lemma kp_announce c m : kept (announce c m).
Proof. unfold announce. kp. Qed.
#[local] Hint Resolve kp_announce : kept.
Lemma kp_log n a f : kept (s_log n a f).
Proof. unfold s_log. kp. Qed.
#[local] Hint Resolve kp_log : kept.
Lemma kp_drop n a f : kept (s_drop n a f).
Proof. unfold s_drop. kp. Qed.
#[local] Hint Resolve kp_drop : kept.
Lemma kp_shutdown_time a b : kept (shutdown_time a b).
Proof. unfold shutdown_time. kp. Qed.
#[local] Hint Resolve kp_shutdown_time : kept.
Lemma kp_shutdown n a f : kept (s_shutdown n a f).
Proof. unfold s_shutdown. kp. Qed.
#[local] Hint Resolve kp_shutdown : kept.
Lemma kp_restart n a f : kept (s_restart n a f).
Proof. unfold s_restart. kp. Qed.
#[local] Hint Resolve kp_restart : kept.
Lemma kp_wall n a f : kept (s_wall n a f).
Proof. unfold s_wall. kp. Qed.
#[local] Hint Resolve kp_wall : kept.
Lemma kp_change_info n a b c d e : kept (change_info n a b c d e).
Proof. unfold change_info. kp. Qed.
#[local] Hint Resolve kp_change_info : kept.

Lemma kp_auto_command n w f : n < MAX_REAL_USERS → kept (auto_command n w f).
Proof. intros Hn. unfold auto_command. kp. Qed.
#[local] Hint Resolve kp_auto_command : kept.
Lemma kp_auto n f g : n < MAX_REAL_USERS → kept (s_auto n f g).
Proof. intros Hn. unfold s_auto. kp. Qed.
#[local] Hint Resolve kp_auto : kept.

(** ** Packets (msgs.c, dispatch.c) *)

Lemma kp_split_m p : kept (split_m p).
Proof. unfold split_m. kp. Qed.
#[local] Hint Resolve kp_split_m : kept.
Lemma kp_field fs i : kept (field fs i).
Proof. unfold field. kp. Qed.
#[local] Hint Resolve kp_field : kept.
Lemma kp_password_field fs : kept (password_field fs).
Proof. unfold password_field. kp. Qed.
Lemma kp_vmdb_stale l : kept (vmdb_stale l).
Proof. unfold vmdb_stale. kp. Qed.
#[local] Hint Resolve kp_password_field kp_vmdb_stale : kept.
Lemma kp_get_perms n l : kept (get_perms n l).
Proof. unfold get_perms. kp. Qed.
#[local] Hint Resolve kp_get_perms : kept.
Lemma kp_denied n o : kept (denied n o).
Proof. unfold denied. kp. Qed.
#[local] Hint Resolve kp_denied : kept.
Lemma kp_login_checks n a b : kept (login_checks n a b).
Proof. unfold login_checks. kp. Qed.
#[local] Hint Resolve kp_login_checks : kept.
Lemma kp_group_of_user n w : kept (group_of_user n w).
Proof. unfold group_of_user. kp. Qed.
#[local] Hint Resolve kp_group_of_user : kept.
Lemma kp_login_prove n : kept (login_prove n).
Proof. unfold login_prove. kp. Qed.
#[local] Hint Resolve kp_login_prove : kept.
Lemma kp_login_standing n : kept (login_standing n).
Proof. unfold login_standing. kp. Qed.
#[local] Hint Resolve kp_login_standing : kept.
Lemma kp_tell_invitations n : kept (tell_invitations n).
Proof. unfold tell_invitations. kp. Qed.
#[local] Hint Resolve kp_tell_invitations : kept.
Lemma kp_notify_on n : kept (notify_on n).
Proof. unfold notify_on. kp. Qed.
#[local] Hint Resolve kp_notify_on : kept.
Lemma kp_open_to_group n t : kept (open_to_group n t).
Proof. unfold open_to_group. kp. Qed.
#[local] Hint Resolve kp_open_to_group : kept.
Lemma kp_pong n : kept (pong n).
Proof. unfold pong. kp. Qed.
#[local] Hint Resolve kp_pong : kept.
Lemma kp_ok2read n : kept (ok2read n).
Proof. unfold ok2read. kp. Qed.
#[local] Hint Resolve kp_ok2read : kept.
End handlers.

#[export] Hint Resolve kp_filtered kp_client kp_plain kp_senderror kp_doSend_personal_real kp_doSend_real
  kp_sendstatus kp_sendopen kp_sendexit kp_sendping kp_sends_cmdout kp_s_new_user kp_send_loginok kp_sendimport
  kp_user_wline kp_user_whead kp_time kp_sendperson_real kp_autoBeep kp_send_person_stored kp_sendbeep
  kp_check_auth kp_nickwritetime kp_status_group kp_hears kp_getword kp_send_group kp_exclude kp_add_item
  kp_add_names kp_list_two kp_list_invites kp_dump_table kp_topic kp_talk_delete kp_talk_report kp_invited
  kp_probe kp_restricted_refuses kp_full_refuses kp_flag_loop kp_parse_flags kp_invite kp_admin_or_mod
  kp_group_status kp_pass kp_talk_clear kp_talk kp_status_show kp_invite_members kp_opt_restrict
  kp_opt_moderate kp_opt_control kp_opt_public kp_opt_size kp_minutes kp_opt_idleboot kp_skip
  kp_opt_idleboot_msg kp_opt_idlemod kp_gettime kp_db_open kp_db_close kp_db_get_str kp_db_get_int kp_db_set
  kp_db_delete kp_setsecure kp_valuser kp_nickdelete kp_nickwritemsg kp_nickckmsg kp_read_one kp_nickreadmsg
  kp_nickchinfo kp_nickchpass kp_regain_mod kp_regain_mods kp_tell_messages kp_mark_registered kp_nickwrite
  kp_line_fits kp_show_pair kp_show_if kp_show_addr kp_show_text kp_show_account kp_nicklookup kp_bump
  kp_icbexit kp_notify_off kp_lost_mod kp_lost_mods kp_warn_shutdown kp_kill_pending kp_check_idle_mod
  kp_pass_mod kp_let_go kp_send_names kp_list_hushed kp_hush_who kp_hush kp_list_notifies kp_notify
  kp_tell_unproved kp_recognise kp_settle_nick kp_name kp_echoback kp_nobeep kp_now_usec kp_ping kp_noaway
  kp_away kp_away_handle kp_beep kp_pgm_short kp_pgm_long kp_print_group_members kp_who_invited kp_option_char
  kp_mod_text kp_print_group_header kp_doOne kp_listed kp_filter_m kp_doAll kp_who kp_show_file kp_help
  kp_motd_loop kp_motd kp_news_item kp_news_items kp_news kp_info kp_version kp_double kp_shuttime
  kp_server_stats kp_announce kp_log kp_drop kp_shutdown_time kp_shutdown kp_restart kp_wall kp_change_info
  kp_auto_command kp_auto kp_split_m kp_field kp_password_field kp_vmdb_stale kp_get_perms kp_denied kp_login_checks kp_group_of_user
  kp_login_prove kp_login_standing kp_tell_invitations kp_notify_on kp_open_to_group kp_pong kp_ok2read : kept.
#[export] Hint Extern 1 (preserves keep (doSend _ _ (packet _ _))) => apply kp_doSend; reflexivity : kept.
#[export] Hint Extern 1 (preserves keep (toggle_name _ _ _ _ _ _ _ _ _ _)) => apply kp_toggle_name; [intros ? []; split; [reflexivity|auto]|kp] : kept.
