(* ===== verification/Moves.v ===== *)
(** * How the handlers move users and groups

    Every handler, seen from the names of the two tables only, makes steps of
    the machine of [Places], or none.  [run] is a Hoare judgement on the names:
    from places [p] every completed run ends in places that satisfy the
    postcondition.  [moves] says that a handler makes steps only; most of them
    are [kept] and make none. *)

From Stdlib Require Import ZArith Lia String.
From stdpp Require Import relations.
From S2P Require Import Config Prelude Utf8 StrUtil Wildmat NameList Lookup CLib Monad Dbm IcbDb State Tables Send GroupCast World Access GroupChange GroupMod GroupStatus Lifecycle UserCmd Who Info Admin Auto Msgs Places Kept.

Local Open Scope Z_scope.
Local Open Scope icb_monad_scope.

Create HintDb moves discriminated.
#[export] Hint Constants Opaque : moves.

(** ** The judgements *)

(** A group name fits its array, and who is logged out is nowhere. *)
Definition user_settled (u : user) : Prop :=
  (length (u_group u) ≤ MAX_GROUPLEN)%nat ∧ (u_login u ≤ LOGIN_FALSE → u_group u = []).
Definition settled (s : st) : Prop := Forall user_settled (u_tab s).

(** Users known to be logged in. *)
Definition logged (L : list Z) (s : st) : Prop :=
  ∀ n, n ∈ L → ∃ u, entry_at n (u_tab s) = Some u ∧ LOGIN_FALSE < u_login u.

Definition run {A} (L : list Z) (p : places) (m : M st A) (Q : A → places → Prop) : Prop :=
  ∀ s a s', settled s → logged L s → places_of s = p → m s = Some (a, s') → settled s' ∧ Q a (places_of s').

Lemma keep_entry s s' n u : keep s s' → entry_at n (u_tab s) = Some u →
  ∃ u', entry_at n (u_tab s') = Some u' ∧ same_home u u'.
Proof.
  intros [Hu _] [Hn E]%entry_at_lookup. eapply Forall2_lookup_l in E as (u' & E & Hs); [|done].
  exists u'. split; [|done]. by apply entry_at_lookup.
Qed.
Lemma keep_logged L s s' : keep s s' → logged L s → logged L s'.
Proof.
  intros Hk HL n Hn. destruct (HL n Hn) as (u & Hu & E). destruct (keep_entry _ _ _ _ Hk Hu) as (u' & Hu' & _ & Hl).
  exists u'. split; [done|]. destruct (Z.lt_ge_cases LOGIN_FALSE (u_login u')) as [?|Hge]; [done|]. apply Hl in Hge. lia.
Qed.
Lemma keep_settled s s' : keep s s' → settled s → settled s'.
Proof.
  intros [Hu _] Hs. unfold settled in *. induction Hu as [|u u' l l' [E L] _ IH]; [constructor|].
  inversion Hs as [|? ? [Hl Hn] Hs']; subst. constructor; [|by apply IH]. split; rewrite E; auto.
Qed.

Lemma entry_at_fmap {A B} (f : A → B) i l : entry_at i (f <$> l) = f <$> entry_at i l.
Proof. unfold entry_at. destruct (i <? 0); [done|]. apply list_lookup_fmap. Qed.
Lemma entry_at_neg {A} i (l : list A) : i < 0 → entry_at i l = None.
Proof. intros Hi. unfold entry_at. by destruct (Z.ltb_spec i 0); [|lia]. Qed.
Lemma entry_set_fmap {A B} (f : A → B) i x l : f <$> entry_set i x l = entry_set i (f x) (f <$> l).
Proof. unfold entry_set. destruct (i <? 0); [done|]. apply list_fmap_insert. Qed.

(** The rules follow a computation from its first call on. *)
Section rules.
Context {B : Type} (L : list Z) (p : places) (Q : B → places → Prop).

Lemma run_mono (m : M st B) (Q' : B → places → Prop) :
  run L p m Q' → (∀ a p', Q' a p' → Q a p') → run L p m Q.
Proof. intros Hm HQ s a s' Hs HL Hp E. destruct (Hm s a s' Hs HL Hp E). auto. Qed.
Lemma run_forget (m : M st B) : run [] p m Q → run L p m Q.
Proof. intros Hm s a s' Hs _. apply Hm; [done|]. by intros n ?%not_elem_of_nil. Qed.
Lemma run_ret (b : B) : Q b p → run L p (ret b) Q.
Proof. intros HQ s x s' Hs _ <- [= <- <-]. by split. Qed.
Lemma run_end (m : M st B) : run L p (bind m ret) Q → run L p m Q.
Proof.
  intros Hm s a s' Hs HL Hp E. apply (Hm s a s' Hs HL Hp). unfold bind. by rewrite E.
Qed.
Lemma run_ub : run L p ub Q.
Proof. done. Qed.

Section bind.
Context {A : Type} (f : A → M st B).

Lemma run_kept (m : M st A) : kept m → (∀ a, run L p (f a) Q) → run L p (bind m f) Q.
Proof.
  intros Hm Hf s b s' Hs HL <-. unfold bind. destruct (m s) as [[a s1]|] eqn:E; [|done]. apply Hm in E.
  apply Hf; [by eapply keep_settled|by eapply keep_logged|by apply keep_places].
Qed.
Lemma run_gets (g : st → A) :
  (∀ s, settled s → places_of s = p → run L p (f (g s)) Q) → run L p (bind (gets g) f) Q.
Proof. intros Hf s b s' Hs HL Hp. unfold bind, gets. by apply Hf. Qed.
Lemma run_then (m : M st A) Q' :
  run L p m Q' → (∀ a p', Q' a p' → run [] p' (f a) Q) → run L p (bind m f) Q.
Proof.
  intros Hm Hf s b s' Hs HL Hp. unfold bind. destruct (m s) as [[a s1]|] eqn:E; [|done].
  destruct (Hm s a s1 Hs HL Hp E) as [Hs1 HQ']. eapply Hf; [done..|by intros n ?%not_elem_of_nil|done].
Qed.
End bind.

Lemma run_assoc {A C} (m : M st A) (g : A → M st C) (f : C → M st B) :
  run L p (bind m (λ a, bind (g a) f)) Q → run L p (bind (bind m g) f) Q.
Proof.
  intros Hm s b s' Hs HL Hp E. apply (Hm s b s' Hs HL Hp). revert E. unfold bind.
  by destruct (m s) as [[a s1]|].
Qed.
Lemma run_when (c : bool) (m : M st unit) (f : unit → M st B) :
  (c = true → run L p (bind m f) Q) → (c = false → run L p (f tt) Q) → run L p (bind (when c m) f) Q.
Proof. destruct c; intros Ht Hf; [by apply Ht|]. intros s b s' Hs HL Hp. by apply Hf. Qed.

Lemma run_user_at n (f : user → M st B) :
  (∀ u, entry_at n (homes p) = Some (u_group u) → user_settled u → (n ∈ L → LOGIN_FALSE < u_login u) →
     run (if LOGIN_FALSE <? u_login u then n :: L else L) p (f u) Q) →
  run L p (bind (user_at n) f) Q.
Proof.
  intros Hf s b s' Hs HL <-. unfold user_at, bind, getS, lift. destruct (entry_at n (u_tab s)) as [u|] eqn:E; [|done].
  apply Hf; [unfold places_of; cbn [homes]; by rewrite entry_at_fmap, E| | |done| |done].
  - apply entry_at_lookup in E as [_ E]. by eapply Forall_lookup_1.
  - intros Hn. destruct (HL n Hn) as (v & Hv & Hl). congruence.
  - destruct (Z.ltb_spec LOGIN_FALSE (u_login u)); [|done]. intros k [->|Hk]%elem_of_cons; [by exists u|by apply HL].
Qed.
Lemma run_see_user n (f : user → M st B) :
  (∀ u, entry_at n (homes p) = Some (u_group u) → user_settled u → (n ∈ L → LOGIN_FALSE < u_login u) →
     run L p (f u) Q) →
  run L p (bind (user_at n) f) Q.
Proof.
  intros Hf. apply run_user_at. intros u Hu Hs Hl. case_match; [|by apply Hf].
  intros s a s' Hset HL. apply Hf; [done..|]. intros k Hk. apply HL. by right.
Qed.
Lemma run_group_at n (f : group → M st B) :
  (∀ g, entry_at n (rooms p) = Some (g_name g) → run L p (f g) Q) → run L p (bind (group_at n) f) Q.
Proof.
  intros Hf s b s' Hs HL <-. unfold group_at, bind, getS, lift. destruct (entry_at n (g_tab s)) as [g|] eqn:E; [|done].
  apply Hf; [|done..]. unfold places_of. cbn [rooms]. by rewrite entry_at_fmap, E.
Qed.
(** The user may be logged out by the change only if nothing relies on it. *)
Lemma run_upd_user n g (f : unit → M st B) :
  (∀ u, entry_at n (homes p) = Some (u_group u) → user_settled u → (n ∈ L → LOGIN_FALSE < u_login u) →
     user_settled (g u) ∧
     run (if LOGIN_FALSE <? u_login (g u) then n :: L else filter (λ i, i ≠ n) L)
       (Places (entry_set n (u_group (g u)) (homes p)) (rooms p)) (f tt) Q) →
  run L p (bind (upd_user n g) f) Q.
Proof.
  intros Hf s b s' Hs HL <-. unfold upd_user, bind, user_at, bind, getS, lift, modify.
  destruct (entry_at n (u_tab s)) as [u|] eqn:E; [|done].
  assert (entry_at n (homes (places_of s)) = Some (u_group u)) as Eh.
  { unfold places_of. cbn [homes]. by rewrite entry_at_fmap, E. }
  destruct (Hf u Eh) as [Hg Hf'].
  { apply entry_at_lookup in E as [_ E]. by eapply Forall_lookup_1. }
  { intros Hn. destruct (HL n Hn) as (v & Hv & Hl). congruence. }
  apply Hf'.
  - unfold settled in *. cbn [u_tab set_u_tab]. unfold entry_set. destruct (n <? 0); [done|]. by apply Forall_insert.
  - intros k Hk. cbn [u_tab set_u_tab]. destruct (decide (k = n)) as [->|Hne].
    + exists (g u). split; [by apply entry_set_at; eauto|]. destruct (Z.ltb_spec LOGIN_FALSE (u_login (g u))); [done|].
      apply list_elem_of_filter in Hk as [? _]. done.
    + rewrite entry_set_ne by done. apply HL. case_match; [by apply elem_of_cons in Hk as [->|?]|].
      by apply list_elem_of_filter in Hk as [_ ?].
  - unfold places_of. cbn [u_tab g_tab set_u_tab homes rooms]. by rewrite entry_set_fmap.
Qed.
Lemma run_upd_group n g (f : unit → M st B) :
  (∀ x, entry_at n (rooms p) = Some (g_name x) →
     run L (Places (homes p) (entry_set n (g_name (g x)) (rooms p))) (f tt) Q) →
  run L p (bind (upd_group n g) f) Q.
Proof.
  intros Hf s b s' Hs HL <-. unfold upd_group, bind, group_at, bind, getS, lift, modify.
  destruct (entry_at n (g_tab s)) as [x|] eqn:E; [|done]. apply (Hf x); [|done|done|].
  - unfold places_of. cbn [rooms]. by rewrite entry_at_fmap, E.
  - unfold places_of. cbn [u_tab g_tab set_g_tab homes rooms]. by rewrite entry_set_fmap.
Qed.
End rules.

Lemma run_for_each {A} (I : places → Prop) p (l : list A) body :
  I p → (∀ x p, I p → run [] p (body x) (λ _, I)) → run [] p (for_each l body) (λ _, I).
Proof.
  intros Hp Hb. revert p Hp. induction l as [|x l IH]; intros p Hp; cbn [for_each]; [by apply run_ret|].
  eapply run_then; [by apply Hb|]. auto.
Qed.
Lemma run_for_zseq (I : Z → places → Prop) p n body :
  0 ≤ n → I 0 p → (∀ i p, 0 ≤ i < n → I i p → run [] p (body i) (λ _, I (i + 1))) →
  run [] p (for_each (zseq n) body) (λ _, I n).
Proof.
  intros Hn Hp Hb s [] s' Hs HL <- E.
  refine (for_zseq_inv (λ k s, settled s ∧ I k (places_of s)) n body s s' Hn _ _ E); [|by split].
  intros i s1 s2 Hi [Hs1 HI] E'. eapply (Hb i _ Hi HI); [done|by intros k ?%not_elem_of_nil|done|done].
Qed.

(** What the searches find. *)
Lemma first_index_fmap {A B} (f : A → B) (q : B → bool) l : first_index q (f <$> l) = first_index (λ x, q (f x)) l.
Proof.
  unfold first_index. assert (find_index q (f <$> l) = find_index (λ x, q (f x)) l) as ->; [|done].
  induction l as [|x l IH]; cbn; [done|]. by rewrite IH.
Qed.
Lemma find_group_room name s : find_group name (g_tab s) = find_room name (rooms (places_of s)).
Proof. unfold find_group, find_room, places_of. cbn [rooms]. destruct name; [done|]. by rewrite first_index_fmap. Qed.
Lemma count_occupied name s : (0 <? count_users_in_group name (u_tab s)) = occupied name (homes (places_of s)).
Proof.
  apply eq_bool_prop_intro. rewrite !Is_true_true, Z.ltb_lt, count_users_pos, occupied_spec. split.
  - intros (Hn & u & [i Hi]%list_elem_of_lookup & E). split; [done|]. exists (Z.of_nat i), (u_group u).
    by rewrite entry_at_nat; unfold places_of; cbn [homes]; rewrite list_lookup_fmap, Hi.
  - intros (Hn & i & h & Hh & E). split; [done|]. cbn in Hh. rewrite entry_at_fmap in Hh.
    destruct (entry_at i (u_tab s)) as [u|] eqn:Eu; [|done]. injection Hh as <-. exists u. split; [|done].
    apply entry_at_lookup in Eu as [_ Eu]. by eapply list_elem_of_lookup_2.
Qed.

Section searches.
Context {B : Type} (L : list Z) (p : places) (Q : B → places → Prop).

Lemma run_find_group name (f : Z → M st B) :
  run L p (f (find_room name (rooms p))) Q → run L p (bind (gets (λ s, find_group name (g_tab s))) f) Q.
Proof. intros Hf. apply run_gets. intros s _ <-. by rewrite find_group_room. Qed.
Lemma run_count name (f : Z → M st B) :
  (∀ k, (0 <? k) = occupied name (homes p) → run L p (f k) Q) →
  run L p (bind (gets (λ s, count_users_in_group name (u_tab s))) f) Q.
Proof. intros Hf. apply run_gets. intros s _ <-. apply Hf, count_occupied. Qed.
Lemma run_find_empty (f : Z → M st B) :
  (∀ e, 0 ≤ e → entry_at e (rooms p) = Some [] → run L p (f e) Q) → (∀ e, e < 0 → run L p (f e) Q) →
  run L p (bind (gets (λ s, find_empty_group (g_tab s))) f) Q.
Proof.
  intros Hf Hneg. apply run_gets. intros s _ <-. unfold find_empty_group.
  destruct (Z.lt_ge_cases (first_index (λ g, (length (g_name g) =? 0)%nat) (g_tab s)) 0) as [?|Hge]; [by apply Hneg|].
  apply Hf; [done|]. destruct (first_index_entry _ _ Hge) as (g & Hg & E). unfold places_of. cbn [rooms].
  rewrite entry_at_fmap, Hg. cbn. by apply Nat.eqb_eq, nil_length_inv in E as ->.
Qed.
End searches.

(** Steps of the machine. *)
Section moves.
Context `{BuildConfig}.

Definition advance (s s' : st) : Prop :=
  settled s → settled s' ∧ rtc (step MAX_REAL_USERS) (places_of s) (places_of s').

#[export] Instance advance_pre : PreOrder advance.
Proof.
  split; [intros s Hs; by split|]. intros s1 s2 s3 H1 H2 Hs. destruct (H1 Hs) as [Hs2 R1]. destruct (H2 Hs2) as [? R2].
  split; [done|]. by etransitivity.
Qed.

Notation moves := (preserves advance).

Lemma kept_moves {A} (m : M st A) : kept m → moves m.
Proof. intros Hm s a s' E%Hm Hs. split; [by eapply keep_settled|]. by rewrite (keep_places _ _ E). Qed.
Lemma moves_of_run {A} (m : M st A) :
  (∀ p, run [] p m (λ _ p', rtc (step MAX_REAL_USERS) p p')) → moves m.
Proof. intros Hm s a s' E Hs. eapply Hm; [done|by intros n ?%not_elem_of_nil|done|done]. Qed.
Lemma run_moves {A} L p (m : M st A) Q :
  moves m → (∀ a p', rtc (step MAX_REAL_USERS) p p' → Q a p') → run L p m Q.
Proof. intros Hm HQ s a s' Hs _ <- E. destruct (Hm s a s' E Hs) as [? ?]. auto. Qed.
Lemma moves_when b m : moves m → moves (when b m).
Proof. intros Hm. by apply (preserves_when advance). Qed.
End moves.

Notation moves := (preserves advance).

Ltac kp_done := solve [kp].
(** One call of a computation that is not [kept]; the calls that are go away. *)
Ltac rn_step :=
  lazymatch goal with
  | |- run _ _ (let _ := _ in _) _ => cbv zeta
  | |- run _ _ (bind (let _ := _ in _) _) _ => cbv zeta
  | |- run _ _ (bind (bind _ _) _) _ => apply run_assoc
  | |- run _ _ (bind (ret ?a) ?f) _ => change (bind (ret a) f) with (f a); cbv beta
  | |- run _ _ (bind (user_at _) _) _ => apply run_see_user; intros ? ? ? ?
  | |- run _ _ (bind (group_at _) _) _ => apply run_group_at; intros ? ?
  | |- run _ _ (bind (gets (λ s, find_group _ (g_tab s))) _) _ => apply run_find_group
  | |- run _ _ (bind (gets (λ s, count_users_in_group _ (u_tab s))) _) _ => apply run_count; intros ? ?
  | |- run _ _ ub _ => apply run_ub
  end.
Ltac rn_kept := apply run_kept; [kp_done|intros ?].
Ltac rn := repeat first [rn_step|rn_kept].
Ltac rn_if :=
  match goal with
  | |- run _ _ (if ?b then _ else _) _ => destruct b eqn:?
  | |- run _ _ (bind (if ?b then _ else _) _) _ => destruct b eqn:?
  end.
Ltac rn_end := solve [rn; first [by apply run_ret|apply run_end, run_kept; [kp_done|intros ?; by apply run_ret]]].

Section handlers.
Context `{BuildConfig} `{Host} `{Commands}.
Implicit Types p : places.

(** ** Entering a group *)

Lemma occupied_fold a b hs : casefold a = casefold b → occupied a hs = occupied b hs.
Proof.
  intros E. apply eq_bool_prop_intro. rewrite !Is_true_true, !occupied_spec. split.
  - intros (Hn & i & h & Hh & Eh). split; [by eapply casefold_nonempty|]. exists i, h. split; [done|congruence].
  - intros (Hn & i & h & Hh & Eh). split; [by eapply casefold_nonempty|]. exists i, h. split; [done|congruence].
Qed.

Lemma run_enter_group L p n ngi ogi ls h r :
  n ∈ L → entry_at n (homes p) = Some h → entry_at ngi (rooms p) = Some r → ogi = find_room h (rooms p) →
  run L p (enter_group n ngi ogi ls) (λ _ p', p' = move n h r p).
Proof.
  intros Hn Hh Hr ->. unfold enter_group. rn. rewrite Hr in *. simplify_eq.
  match goal with |- run _ _ (if ?b then _ else _) _ => destruct b eqn:El; [apply run_ub|] end.
  apply Nat.ltb_ge in El. apply run_upd_user. intros u Hu Hs Hlog. specialize (Hlog Hn). split.
  { split; [done|]. cbn. lia. }
  cbn [u_group set_u_group u_login]. destruct (Z.ltb_spec LOGIN_FALSE (u_login u)); [|lia].
  rn. apply run_forget. unfold move, vacate. cbn [homes rooms]. apply run_when; intros Hge; rn.
  2: { apply run_ret. by rewrite entry_at_neg by lia. }
  cbn [rooms homes] in *. match goal with E : entry_at _ _ = Some (g_name ?og) |- _ => rewrite E end.
  match goal with E : (0 <? ?k) = occupied _ _ |- context [0 <? ?k] => rewrite E end.
  destruct (occupied _ _).
  - rn. by apply run_ret.
  - apply run_upd_group. intros x Hx. cbn. by apply run_ret.
Qed.

(** A group that has just been created refuses nobody. *)
Lemma run_created L p e n name vis (f : unit → M st Z) Q :
  (∀ s g, settled s → logged L s → places_of s = Places (homes p) (entry_set e name (rooms p)) →
     entry_at e (g_tab s) = Some g → g_control g ≠ RESTRICTED → g_control g = PUBLIC ∨ g_mod g = n →
     ∀ a s', f tt s = Some (a, s') → settled s' ∧ Q a (places_of s')) →
  run L p (bind (upd_group e (created_group n name vis)) f) Q.
Proof.
  intros Hf s a s' Hs HL <-. unfold upd_group, bind, group_at, bind, getS, lift, modify.
  destruct (entry_at e (g_tab s)) as [x|] eqn:E; [|done].
  destruct (created_group_facts n name vis x) as (Fn & Fc & Fm & _ & _).
  apply (Hf _ (created_group n name vis x)); [done|done| |by apply entry_set_at; eauto|done|tauto].
  unfold places_of. cbn [u_tab g_tab set_g_tab homes rooms]. by rewrite entry_set_fmap, Fn.
Qed.

Lemma restricted_open n e u name g s :
  entry_at e (g_tab s) = Some g → g_control g ≠ RESTRICTED → restricted_refuses n e u name s = Some (false, s).
Proof.
  intros Hg Hc. unfold restricted_refuses. erewrite bind_runs by (by apply group_at_run).
  by destruct (Z.eqb_spec (g_control g) RESTRICTED).
Qed.
Lemma full_open n e u name g s :
  entry_at e (g_tab s) = Some g → g_control g = PUBLIC ∨ g_mod g = n → full_refuses n e u name s = Some (false, s).
Proof.
  intros Hg Hc. unfold full_refuses. erewrite bind_runs by (by apply group_at_run).
  destruct (negb _ && negb (g_control g =? PUBLIC) && _) eqn:E; [|done]. erewrite bind_runs by done.
  destruct Hc as [Ec|Em]; [by rewrite Ec, andb_false_r in E|]. by rewrite Em, Z.eqb_refl, andb_false_r.
Qed.

Lemma find_room_entry name rs :
  0 ≤ find_room name rs → ∃ r, entry_at (find_room name rs) rs = Some r ∧ r ≠ [] ∧ casefold r = casefold name.
Proof.
  intros Hge. unfold find_room in *. destruct name as [|c name]; [lia|].
  destruct (first_index_entry _ _ Hge) as (r & Hr & E%strcaseeq_casefold). exists r. split; [done|]. split; [|done].
  by eapply casefold_nonempty.
Qed.

Lemma run_change_to L p n name vis ls :
  n ∈ L → group_name_ok name → name ≠ [] →
  run L p (change_to n name vis ls) (λ _ p', rtc (step MAX_REAL_USERS) p p').
Proof.
  intros Hn Hok Hne. unfold change_to. apply run_user_at. intros u Hu Hs Hlog. specialize (Hlog Hn).
  destruct (Z.ltb_spec LOGIN_FALSE (u_login u)); [|lia]. assert (n ∈ n :: L) as Hn' by (by left).
  generalize dependent (n :: L). clear L Hn. intros L Hn. rn. destruct (Z.leb_spec 0 (find_room name (rooms p))) as [Hf|Hf].
  - rn. destruct (Z.ltb_spec (find_room name (rooms p)) 0); [lia|]. rn.
    rn_if; [rn_end|]. rn. rn_if; [rn_end|].
    destruct (Z.eqb_spec (find_room name (rooms p)) (find_room (u_group u) (rooms p))) as [E|E]; cbn [negb].
    { rn. by apply run_ret. }
    destruct (find_room_entry _ _ Hf) as (r & Hr & Hrn & _).
    eapply run_mono; [by eapply run_enter_group|]. intros _ p' ->. apply rtc_once. by eapply step_enter.
  - apply run_assoc, run_find_empty; [|intros e He; destruct (Z.ltb_spec e 0); [|lia]; rn_end].
    intros e Hge He. destruct (Z.ltb_spec e 0); [lia|]. apply run_assoc, run_created.
    intros s g Hset HL Hp Hg Hc Hm x s'. change (bind (ret e) ?k s) with (k e s). cbv beta.
    destruct (Z.ltb_spec e 0); [lia|]. erewrite bind_runs by (by eapply restricted_open).
    unfold bind at 1, gets. rewrite find_group_room, Hp. cbn [rooms]. erewrite bind_runs by (by eapply full_open).
    set (q := Places (homes p) (entry_set e name (rooms p))) in *.
    match goal with |- ?m s = _ → _ => enough (run L q m (λ _ p', rtc (step MAX_REAL_USERS) p p')) as Hr by (by apply Hr) end.
    assert (p = Places (homes p) (rooms p)) as Ep by (by destruct p).
    destruct (Z.eqb_spec e (find_room (u_group u) (entry_set e name (rooms p)))) as [E|E]; cbn [negb].
    + rn. apply run_ret. apply rtc_once. rewrite Ep. by eapply step_reopen.
    + eapply run_mono; [eapply run_enter_group; [done|exact Hu|by apply entry_set_at; eauto|done]|].
      intros _ p' ->. apply rtc_once. rewrite Ep. by eapply step_open.
Qed.

Lemma run_change_named L p n f ls :
  n ∈ L →
  run L p (let '(n_g_n, visibility) := requested_group f in
           if (length n_g_n <? 1)%nat then senderror n (str "Group name too short.") ;; ret (-1)
           else change_to n (filtergroupname n_g_n) visibility ls) (λ _ p', rtc (step MAX_REAL_USERS) p p').
Proof.
  intros Hn. pose proof (requested_group_length f) as Hl. destruct (requested_group f) as [name vis]. cbn in Hl.
  destruct (Nat.ltb_spec (length name) 1); [rn; by apply run_ret|].
  apply run_change_to; [done|by apply filtergroupname_ok|]. destruct name; [cbn in *; lia|done].
Qed.

Lemma run_change_at L p fuel n f ls :
  n ∈ L → run L p (s_change_to fuel n f ls) (λ _ p', rtc (step MAX_REAL_USERS) p p').
Proof.
  revert L p f ls. induction fuel as [|fuel IH]; intros L p f ls Hn; cbn [s_change_to].
  all: rn_if; [|rn_if; [rn_end|by apply run_change_named]].
  all: rn; rn_if; [rn_end|rn]; rn_if; [rn_end|]; try done. by apply IH.
Qed.

Lemma run_change L p n argc f : n ∈ L → run L p (s_change n argc f) (λ _ p', rtc (step MAX_REAL_USERS) p p').
Proof. intros Hn. unfold s_change. repeat rn_if; [by apply run_change_at..|rn_end]. Qed.

(** ** Renaming a group *)

Lemma rename_none old new hs : rename 0 old new hs = hs.
Proof.
  unfold rename. apply list_eq. intros i. rewrite list_lookup_imap.
  destruct (Z.ltb_spec (Z.of_nat i) 0); [lia|]. by destruct (hs !! i).
Qed.
Lemma rename_next k old new hs h :
  entry_at k hs = Some h →
  rename (k + 1) old new hs =
  if strcaseeq h old then entry_set k new (rename k old new hs) else rename k old new hs.
Proof.
  intros [Hk Hh]%entry_at_lookup. unfold rename, entry_set. destruct (Z.ltb_spec k 0); [lia|].
  apply list_eq. intros i. rewrite list_lookup_imap. destruct (decide (i = Z.to_nat k)) as [->|Hik].
  - rewrite Hh, Z2Nat.id by lia. destruct (Z.ltb_spec k (k + 1)); [|lia]. cbn [fmap option_fmap option_map andb].
    destruct (strcaseeq h old) eqn:E.
    + rewrite list_lookup_insert_eq; [done|]. rewrite length_imap. by eapply lookup_lt_Some.
    + rewrite list_lookup_imap, Hh, Z2Nat.id by lia. cbn. by rewrite E, andb_false_r.
  - assert ((Z.of_nat i <? k + 1) = (Z.of_nat i <? k)) as ->.
    { destruct (Z.ltb_spec (Z.of_nat i) (k + 1)), (Z.ltb_spec (Z.of_nat i) k); lia. }
    destruct (strcaseeq h old); [rewrite list_lookup_insert_ne by lia|]; by rewrite list_lookup_imap.
Qed.

Lemma run_rename p old new :
  old ≠ [] → (length new ≤ MAX_GROUPLEN)%nat →
  run [] p (for_each (zseq MAX_REAL_USERS) (λ i,
      u <- user_at i ;; when (strcaseeq (u_group u) old) (upd_user i (set_u_group new))))
    (λ _ p', p' = Places (rename MAX_REAL_USERS old new (homes p)) (rooms p)).
Proof.
  intros Hold Hnew. pose proof MAX_USERS_min.
  eapply run_mono; [apply (run_for_zseq (λ k p', p' = Places (rename k old new (homes p)) (rooms p)))|done].
  - unfold MAX_REAL_USERS. lia.
  - rewrite rename_none. by destruct p.
  - intros i q Hi ->. apply run_user_at. cbn [homes rooms]. intros u Hu Hs _. rewrite rename_at in Hu.
    destruct (Z.ltb_spec i i); [lia|]. destruct (entry_at i (homes p)) as [h|] eqn:Eh; [|done].
    cbn in Hu. injection Hu as Eu. rewrite (rename_next _ _ _ _ _ Eh), Eu.
    apply run_end, run_when; [|intros ->; by apply run_ret]. intros Eg. rewrite Eg.
    apply run_upd_user. intros v Hv Hsv _. split; [split; [done|]|by apply run_ret].
    intros Hl. exfalso. cbn [homes] in Hv. rewrite rename_at, Eh in Hv. destruct (Z.ltb_spec i i); [lia|]. cbn in Hv.
    injection Hv as Ev. apply Hsv in Hl. rewrite <-Ev, Eu in Hl. rewrite Hl in Eg.
    apply strcaseeq_casefold in Eg. by destruct old.
Qed.

(** User [n] is in room [gi]. *)
Definition in_room (n gi : Z) p : Prop :=
  ∃ h r, entry_at n (homes p) = Some h ∧ entry_at gi (rooms p) = Some r ∧ r ≠ [] ∧ casefold h = casefold r.
Definition stays (n gi : Z) p p' : Prop := rtc (step MAX_REAL_USERS) p p' ∧ in_room n gi p'.

Lemma run_stay {A} n gi p (m : M st A) : in_room n gi p → kept m → run [] p m (λ _, stays n gi p).
Proof. intros Hi Hm. apply run_end, run_kept; [done|]. intros a. apply run_ret. by split. Qed.

Lemma run_set_name n gi p name :
  n < MAX_REAL_USERS → in_room n gi p → Forall (λ c, name_char OKGROUPCHARS c = true) name →
  run [] p (set_name n gi name) (λ _, stays n gi p).
Proof.
  intros Hn Hin Hc. unfold set_name. destruct name as [|c0 name]; [by apply run_stay; [|kp]|].
  cbv zeta. set (new := take MAX_GROUPLEN (c0 :: name)).
  rn_if; [by apply run_stay; [|kp]|]. rn. rn_if; [by apply run_stay; [|kp]|].
  destruct Hin as (h & r & Hh & Hr & Hrn & Ec). rn. rewrite Hr in *. simplify_eq.
  assert (length new ≤ MAX_GROUPLEN)%nat as Hl by (unfold new; rewrite length_take; lia).
  eapply run_then; [by apply run_rename|]. intros _ q ->. apply run_upd_group. intros x Hx. cbn [homes rooms] in *.
  apply run_ret. cbn [g_name set_g_name]. split.
  - apply rtc_once. destruct p as [hs rs]. cbn [homes rooms] in *. eapply (step_rename _ n gi h); try done.
    + split; [done|]. by apply Forall_take.
    + match goal with E : _ && _ = false |- _ => rename E into Eb end.
      apply andb_false_iff in Eb as [Eb|Eb]; [left; by apply Z.leb_gt|right; by apply negb_false_iff, Z.eqb_eq in Eb].
  - exists new, new. cbn [homes rooms]. rewrite rename_at, Hh. cbn [fmap option_fmap option_map].
    destruct (Z.ltb_spec n MAX_REAL_USERS); [|lia]. rewrite (proj2 (strcaseeq_casefold h _) Ec).
    repeat split; try done. by apply entry_set_at; eauto.
Qed.

Lemma run_opt_name n gi p nick (p1 : cstring) :
  n < MAX_REAL_USERS → in_room n gi p → run [] p (opt_name n gi nick p1) (λ _, stays n gi p).
Proof.
  intros Hn Hin. unfold opt_name. rn. eapply run_then; [apply run_set_name; [done|done|]|].
  - apply Forall_forall. intros c Hc%list_elem_of_fmap. destruct Hc as (d & -> & _). by apply filter_name_char_ok.
  - intros r q Hq. by apply run_ret.
Qed.

Lemma run_status_option n gi p hm (p1 p2 : cstring) :
  n < MAX_REAL_USERS → in_room n gi p → run [] p (status_option n gi hm p1 p2) (λ _, stays n gi p).
Proof.
  intros Hn Hin. unfold status_option. rn. cbv zeta.
  assert (∀ m : M st (cstring * option cstring), kept m → run [] p m (λ _, stays n gi p)) as Hk by (intros; by apply run_stay).
  destruct (needs_mod _) as [what|]; [destruct hm|]; [|apply Hk; kp|];
    repeat (rn_if; [lazymatch goal with
      | |- run _ _ (opt_name _ _ _ _) _ => exact (run_opt_name n gi p _ _ Hn Hin)
      | |- _ => apply Hk; unfold keep_p1, opt_set; kp
      end|]); apply Hk; kp.
Qed.

Lemma run_status_loop fuel n gi p hm (p1 : cstring) :
  n < MAX_REAL_USERS → in_room n gi p → run [] p (status_loop fuel n gi hm p1) (λ _, stays n gi p).
Proof.
  intros Hn. revert p p1. induction fuel as [|fuel IH]; intros p p1 Hin; cbn [status_loop]; rn.
  - destruct a; [by apply run_ret|apply run_ub].
  - destruct a; [by apply run_ret|]. eapply run_then; [by apply run_status_option|]. intros r q [Hpq Hq].
    apply run_kept; [kp|]. intros _. eapply run_mono; [by apply IH|]. intros _ q' [Hqq' Hq']. split; [|done].
    by etransitivity.
Qed.

Lemma moves_status n argc f : n < MAX_REAL_USERS → moves (s_status n argc f).
Proof.
  intros Hn. apply moves_of_run. intros p. unfold s_status. rn_if; [|rn_end]. destruct f as [|c f]; [rn_end|].
  rn. cbv zeta. destruct (fixed_group _); [rn_end|]. rn_if; [rn_end|].
  eapply run_then; [apply run_status_loop; [done|]|intros _ q [? _]; by apply run_ret].
  match goal with E : entry_at (find_room ?h ?rs) ?rs = Some _ |- _ => assert (0 ≤ find_room h rs) as Hge by (by apply entry_at_lookup in E as [? _]) end.
  destruct (find_room_entry _ _ Hge) as (r & Hr & Hrn & Ec). by eexists _, r.
Qed.

(** ** Invitations that are taken back *)

Lemma cancel_nick_name who g g' : cancel_nick who g = Some g' → g_name g' = g_name g.
Proof. unfold cancel_nick. repeat case_match; intros; by simplify_eq. Qed.
Lemma cancel_site_name who g g' : cancel_site who g = Some g' → g_name g' = g_name g.
Proof. unfold cancel_site. repeat case_match; intros; by simplify_eq. Qed.

(** A group entry that was read before is written back with other lists. *)
Lemma run_write_back {B} L p n g (f : unit → M st B) Q :
  entry_at n (rooms p) = Some (g_name g) → run L p (f tt) Q → run L p (bind (upd_group n (λ _, g)) f) Q.
Proof. intros Hg Hf. apply run_upd_group. intros x _. rewrite (entry_set_same _ _ _ Hg). by destruct p. Qed.

Lemma moves_cancel n argc f : moves (s_cancel n argc f).
Proof.
  apply moves_of_run. intros p. unfold s_cancel. rn_if; [|rn_end]. rn. destruct a as [[who fl]|]; [|rn_end].
  rn. rn_if; [|rn_end].
  destruct (if _ =? 0 then cancel_nick _ _ else None) as [g'|] eqn:E1.
  { case_match; [|done]. apply run_write_back; [by rewrite (cancel_nick_name _ _ _ E1)|rn_end]. }
  destruct (if _ =? 1 then cancel_site _ _ else None) as [g'|] eqn:E2; [|rn_end].
  case_match; [|done]. apply run_write_back; [by rewrite (cancel_site_name _ _ _ E2)|rn_end].
Qed.

(** ** Carried to another group by somebody else *)

Lemma settled_logged p u g :
  user_settled u → entry_at (find_room (u_group u) (rooms p)) (rooms p) = Some g → (LOGIN_FALSE <? u_login u) = true.
Proof.
  intros [_ Hs] [Hf _]%entry_at_lookup. apply Z.ltb_lt. destruct (Z.lt_ge_cases LOGIN_FALSE (u_login u)) as [?|Hl]; [done|].
  rewrite Hs in Hf by done. cbn in Hf. lia.
Qed.

(** The moderator's victim is in the moderator's group, hence logged in. *)
Lemma moves_boot n argc f : moves (s_boot n argc f).
Proof.
  apply moves_of_run. intros p. unfold s_boot. rn_if; [|rn_end]. apply run_see_user. intros u Hu _ _.
  rn. rn_if; [rn_end|]. apply run_kept; [kp|]. intros user. cbv zeta. apply run_kept; [kp|]. intros dest. rn_if; [rn_end|].
  rn_if; [rn_end|]. destruct (match get_tail f with [] => _ | _ => _ end) as [r k].
  assert (∀ m : M st Z, run [] p m (λ _ p', rtc (step MAX_REAL_USERS) p p') →
    run [] p (match r, negb (k =? 0) with Some e, true => senderror n (fmt_text e) ;; ret 0 | _, _ => m end)
      (λ _ p', rtc (step MAX_REAL_USERS) p p')) as Hcase.
  { intros m Hm. destruct r; [|done]. rn_if; [rn_end|done]. }
  apply Hcase. apply run_user_at. intros ud Hud Hs _. apply run_find_group. rn_if; [|rn_end].
  apply run_group_at. intros g Hg. rewrite (settled_logged p ud _ Hs Hg). set (L := [dest]).
  assert (run L p (text <- lift (boot_text (u_nickname ud) (get_tail f) k) ;;
      group_status n (find_room (u_group ud) (rooms p)) (str "Boot") text ;;
      sendstatus dest (str "Boot") (u_nickname u ++ str " booted you.") ;;
      modify (set_is_booting 1) ;; _ <- s_change dest 2 BOOT_GROUP ;; modify (set_is_booting 0) ;;
      modify (λ s, set_stats (let t := stats s in
        Stats (start_time t) (signons t) (boots t + 1) (idleboots t) (idlemods t) (drops t)) s) ;; ret 0)
    (λ _ p', rtc (step MAX_REAL_USERS) p p')) as Hrest.
  { rn. eapply run_then; [apply run_change; by left|]. intros x q Hq. rn_end. }
  destruct (cancel_nick _ g) as [g'|] eqn:E; [|done].
  apply run_assoc, run_write_back; [by rewrite (cancel_nick_name _ _ _ E)|]. apply run_kept; [kp|by intros _].
Qed.

(** The change of a user's group alone. *)
Lemma run_go {B} L p n g (f : unit → M st B) Q r :
  (∀ u, u_group (g u) = r) → (length r ≤ MAX_GROUPLEN)%nat → (∀ u, u_login (g u) ≤ LOGIN_FALSE → r = []) →
  run [] (Places (entry_set n r (homes p)) (rooms p)) (f tt) Q → run L p (bind (upd_user n g) f) Q.
Proof.
  intros Hg Hl Hin Hf. apply run_upd_user. intros u _ _ _. rewrite Hg. split; [|by apply run_forget].
  split; rewrite Hg; [done|]. apply Hin.
Qed.

Lemma run_clear_user p n :
  run [] p (clear_user_item n) (λ _ p', p' = Places (entry_set n [] (homes p)) (rooms p)).
Proof.
  unfold clear_user_item. rn. apply (run_go _ _ _ _ _ _ []); [done|cbn; lia|done|]. rn_end.
Qed.

(** ** A lost connection *)

Lemma moves_lost_user n : moves (s_lost_user n).
Proof.
  apply moves_of_run. intros p. unfold s_lost_user. rn_if; [rn_end|]. apply run_see_user. intros u Hu [Hl Hs] _.
  destruct (Z.eqb_spec (u_login u) LOGIN_FALSE) as [El|_].
  { eapply run_then; [apply run_clear_user|]. intros x q ->. rewrite Hs in Hu by lia.
    rewrite entry_set_same by done. destruct p. rn_end. }
  rn. eapply run_then; [apply run_clear_user|]. intros x q ->. apply run_find_group. cbn [rooms].
  assert (strncpy (u_group u) MAX_GROUPLEN = u_group u) as -> by (unfold strncpy; by apply take_ge).
  assert (rtc (step MAX_REAL_USERS) p (move n (u_group u) [] p)) as Hleave by (by apply rtc_once, step_leave).
  unfold move, vacate in Hleave. destruct (Z.ltb_spec (find_room (u_group u) (rooms p)) 0) as [Hf|Hf].
  { rewrite entry_at_neg in Hleave by done. rn_end. }
  destruct (find_room_entry _ _ Hf) as (r & Hr & _ & Ec). rewrite Hr in Hleave.
  rn. cbn [homes rooms] in *. match goal with E : (0 <? _) = occupied _ _ |- _ => rewrite E, (occupied_fold _ r) by done end.
  destruct (occupied r _); [rn_end|]. apply run_upd_group. intros g Hg. rn_end.
Qed.

(** ** The sweep *)

Lemma run_idle_boot p now i :
  run [] p (idle_boot now i) (λ _ p', rtc (step MAX_REAL_USERS) p p').
Proof.
  unfold idle_boot. apply run_user_at. intros u Hu _ _. apply run_end, run_when; [|intros _; by apply run_ret].
  intros Hlog%Z.leb_le. destruct (Z.ltb_spec LOGIN_FALSE (u_login u)) as [_|Hbad]; [|unfold LOGIN_FALSE, LOGIN_COMPLETE in *; lia].
  rn. apply run_when; [intros _; rn|intros _; by apply run_ret].
  apply run_when; [intros _; rn|intros _; by apply run_ret].
  apply run_when; [intros _; rn|intros _; by apply run_ret].
  eapply run_then; [apply run_change; by left|]. intros x q Hq. rn_end.
Qed.

Lemma moves_didpoll n : moves (s_didpoll n).
Proof.
  apply moves_of_run. intros p. unfold s_didpoll. rn_if; [rn_end|]. rn. rn_if; [rn_end|]. rn.
  apply (run_for_each (λ q, rtc (step MAX_REAL_USERS) p q)); [done|]. intros i q Hq.
  eapply run_mono; [apply run_idle_boot|]. intros x q' ?. by etransitivity.
Qed.

(** ** Logging in *)

(** A user who logs in is nowhere, and enters with everything else settled. *)
Lemma run_login_enter L p n now f0 f1 pw wg perms :
  entry_at n (homes p) = Some [] →
  run L p (login_enter n now f0 f1 pw wg perms) (λ _ p', rtc (step MAX_REAL_USERS) p p').
Proof.
  intros Hh. unfold login_enter. rn. apply (run_go _ _ _ _ _ _ []); [done|cbn; lia|done|].
  rewrite (entry_set_same _ _ _ Hh). assert (Places (homes p) (rooms p) = p) as -> by (by destruct p).
  rn. rn_if; [rn_end|]. rn. match goal with |- run _ _ (match ?o with _ => _ end) _ => destruct o as [g|] end; [|rn_end].
  apply run_upd_user. intros v Hv [Hl Hs] _. rewrite Hh in Hv. injection Hv as Ev. split.
  { split; [done|]. cbn. by rewrite <-Ev. }
  assert (Places (entry_set n (u_group (pending_user now v)) (homes p)) (rooms p) = p) as ->.
  { change (u_group (pending_user now v)) with (u_group v). rewrite <-Ev, (entry_set_same _ _ _ Hh). by destruct p. }
  change (LOGIN_FALSE <? u_login (pending_user now v)) with true. cbv iota. rn.
  eapply run_then; [apply run_change; by left|]. intros x q Hq. rn_if; rn_end.
Qed.

Lemma moves_loginmsg n pkt : moves (loginmsg n pkt).
Proof.
  apply moves_of_run. intros p. unfold loginmsg. apply run_see_user. intros u Hu [_ Hs] _. rn_if; [rn_end|].
  match goal with E : _ = false |- _ => apply Z.ltb_ge in E; specialize (Hs E) end. rewrite Hs in Hu.
  apply run_upd_user. intros v Hv [Hl Hsv] _. rewrite Hu in Hv. injection Hv as Ev. split.
  { split; [done|]. cbn. by rewrite <-Ev. }
  cbn [u_group set_u_login]. rewrite <-Ev, (entry_set_same _ _ _ Hu). apply run_forget.
  assert (Places (homes p) (rooms p) = p) as -> by (by destruct p). rn. destruct a0 as [fs k]. rn_if; [rn_end|]. rn.
  rn_if; [rn_end|]. rn_if; [repeat first [rn_end|rn_if]|]. rn_if; [|rn_end]. rn.
  match goal with |- run _ _ (match ?c with _ => _ end) _ => destruct c as [r|perms] end; [rn_end|].
  rn_kept. by apply run_login_enter.
Qed.

(** ** Messages and commands *)

Lemma moves_spam_check n now : moves (spam_check n now).
Proof.
  apply moves_of_run. intros p. unfold spam_check. apply run_user_at. intros u Hu [_ Hs] _.
  apply run_end, run_when; [|intros _; rn_end]. intros Eg%streq_eq.
  destruct (Z.ltb_spec LOGIN_FALSE (u_login u)) as [_|Hl]; [|by rewrite Hs in Eg].
  rn. rn_if; [|rn_end]. apply run_when; [|intros _; rn_end]. intros _. rn.
  eapply run_then; [apply run_change; by left|]. intros x q Hq. rn_end.
Qed.
End handlers.

Ltac mv_step :=
  lazymatch goal with
  | |- preserves _ (let _ := _ in _) => cbv zeta
  | |- preserves _ (bind _ _) => apply (preserves_bind advance); [|intros ?]
  | |- preserves _ (when _ _) => apply moves_when
  | |- preserves _ (if ?b then _ else _) => destruct b
  | |- preserves _ (match ?x with _ => _ end) => destruct x
  end.
Ltac mv := repeat first [solve [eauto 2 with moves nocore]|apply kept_moves; kp_done|mv_step].

(** What a command run on behalf of a real user does. *)
Class MoveCommands `{BuildConfig} `{Commands} : Prop :=
  cmdmsg_moves : ∀ n pkt, n < MAX_REAL_USERS → moves (cmdmsg n pkt).

Section commands.
Context `{BuildConfig} `{Host} `{Commands} `{!MoveCommands}.

#[local] Hint Resolve cmdmsg_moves moves_status moves_boot moves_cancel moves_lost_user moves_loginmsg moves_spam_check
  moves_didpoll : moves.

Lemma moves_sendperson from to m : from < MAX_REAL_USERS → moves (sendperson from to m).
Proof. intros Hn. unfold sendperson, doSend_personal, server_message. mv. Qed.
#[local] Hint Resolve moves_sendperson : moves.
Lemma moves_personal n argc f : n < MAX_REAL_USERS → moves (s_personal n argc f).
Proof. intros Hn. unfold s_personal. mv. Qed.
#[local] Hint Resolve moves_personal : moves.
Lemma moves_openmsg n pkt : moves (openmsg n pkt).
Proof. unfold openmsg. mv. Qed.
#[local] Hint Resolve moves_openmsg : moves.

(** Only the change of group relies on the user being logged in. *)
Lemma run_run_command L p n argc which f m :
  n < MAX_REAL_USERS → n ∈ L → run_command n argc which f = Some m →
  run L p m (λ _ p', rtc (step MAX_REAL_USERS) p p').
Proof.
  intros Hn HL. unfold run_command.
  repeat (case_match; [intros [= <-];
    lazymatch goal with
    | |- run _ _ (s_change _ _ _) _ => by apply run_change
    | |- _ => apply run_moves; [mv|by auto]
    end|]). done.
Qed.

Lemma moves_handle_command n pkt : n < MAX_REAL_USERS → moves (handle_command n pkt).
Proof.
  intros Hn. apply moves_of_run. intros p. unfold handle_command. apply run_user_at. intros u Hu _ _.
  destruct (Z.leb_spec LOGIN_COMPLETE (u_login u)) as [Hlog|_]; [|apply run_end; rn; rn_end].
  destruct (Z.ltb_spec LOGIN_FALSE (u_login u)) as [_|Hbad]; [|unfold LOGIN_FALSE, LOGIN_COMPLETE in *; lia].
  rn. match goal with |- run _ _ (bind (let '(_, _) := ?x in _) _) _ => destruct x as [fs argc] | |- run _ _ (let '(_, _) := ?x in _) _ => destruct x as [fs argc] end. rn.
  match goal with |- context [run_command n argc ?w ?f] => destruct (run_command n argc w f) as [m|] eqn:Em end.
  - eapply run_then; [eapply run_run_command; [done| |exact Em]; by left|]. intros x q Hq. rn_end.
  - rn_end.
Qed.

Lemma moves_dispatch n pkt : n < MAX_REAL_USERS → moves (dispatch n pkt).
Proof.
  intros Hn. pose proof (moves_handle_command n). unfold dispatch, dispatch_login. mv.
Qed.
End commands.
