(* ===== verification/Streams.v ===== *)
(** * What a client receives (pktserv/pktsocket.c, server/send.c)

    The bytes that the server has written on a connection and those that wait in
    its send queue are its stream.  Reading leaves the stream alone, writing
    moves bytes from the queue to the wire, and sending adds a packet or
    nothing; so the stream is always a sequence of whole packets, as long as
    the queue is not thrown away by a disconnection. *)

From Stdlib Require Import ZArith Lia.
From S2P Require Import Config Prelude PktBuffers SslSocket PktSocket.

Local Open Scope Z_scope.

(** A packet as [doSend] hands it to [pktserv_send]: the length byte, the
    packet and its NUL. *)
Definition wire (pkt : list byte) : list byte := to_uchar (Z.of_nat (length pkt) + 1) :: pkt ++ [x00].

(** What the length byte can count. *)
Definition legal (pkt : list byte) : Prop := (1 ≤ length pkt ≤ MAX_PKT_LEN - 2)%nat.

Definition stream (c : cbuf) (k : kernel) : list byte := k_out k ++ pending c.
Definition framed (c : cbuf) (k : kernel) : Prop :=
  ∃ ps, Forall legal ps ∧ stream c k = concat (map wire ps).

(** States without anything to write. *)
Definition silent (x : SocketState) : Prop :=
  x = WANT_SSL_ACCEPT ∨ x = WANT_RAW_DISCONNECT ∨ x = DISCONNECTED.

Record conn_ok (c : cbuf) (k : kernel) : Prop := {
  co_disp : c_disp c ≠ IGNORE;
  co_framed : framed c k ∨ (c_state c = WANT_DISCONNECT ∨ c_state c = WANT_RAW_DISCONNECT) ∧ c_wlist c = [];
  co_silent : silent (c_state c) → c_wlist c = [];
  co_fresh : c_state c = WANT_SSL_ACCEPT ∨ c_state c = DISCONNECTED → k_out k = []
}.

(** ** Reading and writing *)

Section io.
Implicit Types (c : cbuf) (k : kernel).

Lemma sock_write_stream c bs k r c' k' :
  sock_write c bs k = Some (r, c', k') →
  same_but_state c c' ∧
  match r with Bytes x => x = take (length x) bs ∧ k_out k' = k_out k ++ x | _ => k_out k' = k_out k end.
Proof.
  intros E. destruct (c_is_ssl c) eqn:Es; [destruct (c_ssl_con c) eqn:Ec|].
  - destruct (sock_write_spec c bs k) as (r1 & c1 & k1 & E1 & H1 & _ & H2); [by intros _|]. simplify_eq/=. done.
  - unfold sock_write, sslsocket_write in E. by rewrite Es, Ec in E.
  - destruct (sock_write_spec c bs k) as (r1 & c1 & k1 & E1 & H1 & _ & H2); [by intros ?; congruence|]. simplify_eq/=. done.
Qed.

(** The states in which writing ends. *)
Definition after_write (x : SocketState) : Prop :=
  x = WANT_HEADER ∨ x = WANT_WRITE ∨ x = WANT_SSL_WRITE ∨ x = WANT_DISCONNECT.

Lemma write_loop_stream l c k r c' k' :
  c_wlist c = l → write_loop l c k = Some (r, c', k') →
  stream c' k' = stream c k ∧ c_fd c' = c_fd c ∧ c_disp c' = c_disp c ∧ after_write (c_state c').
Proof.
  unfold after_write. revert c k. induction l as [|m l IH]; intros c k Hl; cbn [write_loop].
  { intros [= <- <- <-]. unfold stream, pending. cbn. auto 10. }
  destruct (sock_write c (m_rest m) k) as [[[x c1] k1]|] eqn:E; [|done].
  apply sock_write_stream in E as [(y & ->) Hx]. destruct x as [bs| |].
  - destruct Hx as [Hb Ho]. cbn [c_is_ssl set_state]. destruct (c_is_ssl c && (length bs =? 0)%nat) eqn:E0.
    { apply andb_true_iff in E0 as [_ ->%Nat.eqb_eq%nil_length_inv]. intros [= <- <- <-].
      unfold stream, pending. cbn. rewrite Ho, app_nil_r. auto 10. }
    destruct (Nat.ltb_spec (length bs) (length (m_rest m))) as [Hlt|Hge].
    + intros [= <- <- <-]. unfold stream, pending. cbn. rewrite Hl, Ho, <-app_assoc. split_and!; auto. cbn. f_equal.
      rewrite app_assoc. f_equal. rewrite Hb at 1. apply take_drop.
    + intros E. apply IH in E as (H1 & H2 & H3 & H4); [|done]. split_and!; try done. rewrite H1. unfold stream, pending.
      cbn. rewrite Hl, Ho, <-app_assoc. cbn. do 2 f_equal. rewrite Hb. by apply take_ge.
  - intros [= <- <- <-]. unfold stream, pending. cbn. rewrite Hx. auto 10.
  - intros [= <- <- <-]. unfold stream, pending. cbn. rewrite Hx. auto 10.
Qed.

Lemma pktsocket_write_stream c k r c' k' :
  pktsocket_write c k = Some (r, c', k') →
  stream c' k' = stream c k ∧ c_fd c' = c_fd c ∧ c_disp c' = c_disp c ∧ (c' = c ∨ after_write (c_state c')).
Proof.
  unfold pktsocket_write. case_match; [intros [= _ <- <-]; auto 10|].
  intros (H1 & H2 & H3 & H4)%write_loop_stream; auto 10.
Qed.

Lemma sock_read_stream c n k r c' k' :
  sock_read c n k = Some (r, c', k') →
  k_out k' = k_out k ∧ ∃ x, c' = set_state x c ∧ (¬ silent x ∨ x = c_state c).
Proof.
  assert (∃ x, c = set_state x c ∧ (¬ silent x ∨ x = c_state c)) as Hc by (exists (c_state c); destruct c; auto).
  unfold sock_read. destruct (c_is_ssl c).
  - unfold sslsocket_read, SSL_read. destruct (negb _); [done|].
    assert (∀ p, ∃ x, ssl_done p c = set_state x c ∧ (¬ silent x ∨ x = c_state c)) as Hd.
    { intros p. unfold ssl_done. eexists. split; [reflexivity|]. left. unfold silent. repeat case_match; intuition discriminate. }
    assert (∀ e a, ∃ x, (ssl_failed e a c).2 = set_state x c ∧ (¬ silent x ∨ x = c_state c)) as Hf.
    { intros e a. unfold ssl_failed, silent. destruct e; cbn; try exact Hc; (eexists; split; [reflexivity|]; left; intuition discriminate). }
    destruct (t_read (k_tls k)) as [|t l]; cbn [tr_data tr_error tr_again tr_pending].
    + specialize (Hf SSL_ERROR_WANT_READ false). destruct (ssl_failed _ _ c). intros [= _ <- <-]. done.
    + specialize (Hf (tr_error t) (tr_again t)). destruct (take n (tr_data t)).
      * destruct (ssl_failed _ _ c). intros [= _ <- <-]. done.
      * intros [= _ <- <-]. by split.
  - unfold k_read. destruct n, (k_in k) as [|[] ?]; intros [= _ <- <-]; done.
Qed.
End io.

(** ** Connections *)

Section conns.
Implicit Types (c : cbuf) (k : kernel).

(** A connection that is in use. *)
Record active c k : Prop := {
  ac_disp : c_disp c ≠ IGNORE;
  ac_framed : framed c k;
  ac_state : ¬ silent (c_state c)
}.

Lemma active_ok c k : active c k → conn_ok c k.
Proof. intros [Hd Hf Hs]. split; [done|by left|done|]. unfold silent in Hs. tauto. Qed.

Lemma conn_ok_framed c k :
  conn_ok c k → c_state c ≠ WANT_DISCONNECT → c_state c ≠ WANT_RAW_DISCONNECT → framed c k.
Proof. intros [_ [Hf|[[?|?] _]] _ _] H1 H2; done. Qed.

Lemma framed_nil c k : c_wlist c = [] → k_out k = [] → framed c k.
Proof. intros Hw Ho. exists []. split; [constructor|]. unfold stream, pending. by rewrite Hw, Ho. Qed.

Lemma framed_stream c k c' k' : stream c' k' = stream c k → framed c k → framed c' k'.
Proof. intros E (ps & Hl & Hs). exists ps. split; [done|congruence]. Qed.

Lemma framed_snoc c k c' k' pkt :
  stream c' k' = stream c k ++ wire pkt → legal pkt → framed c k → framed c' k'.
Proof.
  intros E Hp (ps & Hl & Hs). exists (ps ++ [pkt]). split; [by apply Forall_app_2; [|constructor]|].
  rewrite E, Hs, map_app, concat_app. cbn. by rewrite app_nil_r.
Qed.

Lemma read_header_stream mem c k r :
  read_header mem c k = Some r →
  let '(c', k') := match r with inl (_, c', k') => (c', k') | inr ck => ck end in
  k_out k' = k_out k ∧ c_wlist c' = c_wlist c ∧ c_fd c' = c_fd c ∧ c_disp c' = c_disp c ∧
  (¬ silent (c_state c') ∨ c_state c' = c_state c).
Proof.
  unfold read_header. destruct (msgbuf_alloc _ _ _) as [m|].
  2:{ intros [= <-]. cbn. split_and!; auto. left. unfold silent. cbn. intuition discriminate. }
  destruct (sock_read _ 1 k) as [[[x c1] k1]|] eqn:E; [|done].
  apply sock_read_stream in E as (Ho & y & -> & Hy). assert (¬ silent WANT_DISCONNECT) as Hw by (unfold silent; intuition discriminate).
  destruct x as [[|b bs]| |].
  - intros [= <-]. unfold read_nothing. destruct (c_is_ssl _); cbn; auto 10.
  - case_match; intros [= <-]; cbn; auto 10.
  - intros [= <-]. cbn. auto 10.
  - intros [= <-]. cbn. auto 10.
Qed.

Lemma read_body_stream c k r c' k' :
  read_body c k = Some (r, c', k') →
  k_out k' = k_out k ∧ c_wlist c' = c_wlist c ∧ c_fd c' = c_fd c ∧ c_disp c' = c_disp c ∧
  (¬ silent (c_state c') ∨ c_state c' = c_state c).
Proof.
  unfold read_body. destruct (c_rbuf c) as [m|]; [|done].
  destruct (sock_read c _ k) as [[[x c1] k1]|] eqn:E; [|done]. apply sock_read_stream in E as (Ho & y & -> & Hy).
  assert (¬ silent WANT_DISCONNECT ∧ ¬ silent WANT_READ ∧ ¬ silent COMPLETE_PACKET) as (? & ? & ?)
    by (unfold silent; intuition discriminate).
  destruct x as [[|b bs]| |].
  - unfold read_nothing. case_match; intros [= _ <- <-]; cbn; auto 10.
  - intros [= _ <- <-]. cbn. split_and!; auto. case_match; auto.
  - intros [= _ <- <-]. cbn. auto 10.
  - intros [= _ <- <-]. cbn. auto 10.
Qed.

Lemma pktsocket_read_stream mem c k r c' k' :
  pktsocket_read mem c k = Some (r, c', k') →
  stream c' k' = stream c k ∧ c_fd c' = c_fd c ∧ c_disp c' = c_disp c ∧ (¬ silent (c_state c') ∨ c_state c' = c_state c).
Proof.
  unfold pktsocket_read, stream, pending. case_decide.
  - destruct (read_header mem c k) as [[[[x c1] k1]|[c1 k1]]|] eqn:E; [| |done].
    + intros [= _ <- <-]. destruct (read_header_stream _ _ _ _ E) as (-> & -> & H1 & H2 & H3). done.
    + destruct (read_header_stream _ _ _ _ E) as (H1 & H2 & H3 & H4 & H5).
      intros (-> & -> & H3' & H4' & H5')%read_body_stream. rewrite H1, H2. split_and!; [done|congruence|congruence|].
      destruct H5' as [?| ->]; auto.
  - intros (-> & -> & H3 & H4 & H5)%read_body_stream. auto.
Qed.

(** A connection that is read. *)
Lemma active_read mem c k r c' k' : active c k → pktsocket_read mem c k = Some (r, c', k') → active c' k'.
Proof.
  intros [Hd Hf Hs] (E & _ & H2 & H3)%pktsocket_read_stream.
  split; [congruence|by eapply framed_stream|by destruct H3 as [?| ->]].
Qed.

Lemma after_write_active x : after_write x → ¬ silent x.
Proof. unfold after_write, silent. intros [->|[->|[->| ->]]]; intuition discriminate. Qed.

Lemma active_write c k r c' k' : active c k → pktsocket_write c k = Some (r, c', k') → active c' k'.
Proof.
  intros [Hd Hf Hs] (E & _ & H2 & H3)%pktsocket_write_stream.
  split; [congruence|by eapply framed_stream|]. destruct H3 as [->|?]; [done|by apply after_write_active].
Qed.

(** What the server may do to a connection while it is called: the stream is
    only added to, by whole packets. *)
Definition evolves (ck ck' : cbuf * kernel) : Prop :=
  c_fd ck'.1 = c_fd ck.1 ∧ c_disp ck'.1 = c_disp ck.1 ∧ (¬ silent (c_state ck.1) → ¬ silent (c_state ck'.1)) ∧
  (conn_ok ck.1 ck.2 → conn_ok ck'.1 ck'.2 ∧
     ∃ ps, Forall legal ps ∧ stream ck'.1 ck'.2 = stream ck.1 ck.2 ++ concat (map wire ps)).

#[global] Instance evolves_pre : PreOrder evolves.
Proof.
  split.
  - intros ck. split_and!; try done. intros Hc. split; [done|]. exists []. split; [constructor|]. cbn. by rewrite app_nil_r.
  - intros x y z (F1 & D1 & A1 & H1) (F2 & D2 & A2 & H2). split_and!; [congruence..|auto|]. intros Hc. destruct (H1 Hc) as (Hy & ps & L1 & S1).
    destruct (H2 Hy) as (Hz & qs & L2 & S2). split; [done|]. exists (ps ++ qs). split; [by apply Forall_app_2|].
    by rewrite S2, S1, map_app, concat_app, <-app_assoc.
Qed.

Lemma evolves_active c k c' k' : evolves (c, k) (c', k') → active c k → active c' k'.
Proof.
  intros (_ & Hd & Hs & H) Hc. destruct (H (active_ok _ _ Hc)) as (Hc' & qs & Hq & Eq). cbn in *.
  destruct Hc as [Hi (ps & Hl & E) Hn]. split; [congruence| |auto]. exists (ps ++ qs).
  split; [by apply Forall_app_2|]. by rewrite Eq, E, map_app, concat_app.
Qed.

(** A connection that is going to be closed. *)
Definition leaving (x : SocketState) : Prop := x = WANT_DISCONNECT ∨ x = WANT_RAW_DISCONNECT.

(** [pktserv_send] puts the packet on the stream, as a whole, exactly when the
    connection is not going to be closed, its queue has room and there is
    memory; whatever the kernel takes of it. *)
Lemma pktserv_send_stream mem c k pkt r c' k' :
  pktserv_send mem c k pkt = Some (r, c', k') →
  c_fd c' = c_fd c ∧ c_disp c' = c_disp c ∧ (leaving (c_state c) ∧ c' = c ∧ k' = k ∨ ¬ leaving (c_state c) ∧ after_write (c_state c')) ∧
  stream c' k' = stream c k ++
    (if bool_decide (leaving (c_state c)) || (Z.of_nat MAX_SENDPACKET_QUEUE <=? c_wlist_size c) || negb mem then [] else pkt).
Proof.
  unfold pktserv_send. fold (leaving (c_state c)). destruct (decide (leaving (c_state c))) as [Hd|Hd].
  { intros [= <- <- <-]. rewrite bool_decide_true by done. cbn. rewrite app_nil_r. auto 10. }
  assert (after_write WANT_WRITE ∧ after_write WANT_DISCONNECT) as [Hw Hx] by (unfold after_write; auto).
  rewrite bool_decide_false by done. cbn [orb c_wlist_size set_state].
  destruct (Z.of_nat MAX_SENDPACKET_QUEUE <=? c_wlist_size c).
  { intros [= <- <- <-]. cbn. rewrite app_nil_r. auto 10. }
  destruct mem; cbn [msgbuf_alloc orb negb]; [|intros [= <- <- <-]; cbn; rewrite app_nil_r; auto 10].
  match goal with |- context [pktsocket_write ?x k] => set (c1 := x) end.
  assert (stream c1 k = stream c k ++ pkt) as Es.
  { unfold stream, pending. cbn. rewrite map_app, concat_app. cbn. by rewrite app_nil_r, app_assoc. }
  destruct (pktsocket_write c1 k) as [[[x c2] k2]|] eqn:E; [|done].
  apply pktsocket_write_stream in E as (E & H1 & H2 & H3). rewrite <-Es, <-E.
  case_match; intros [= <- <- <-]; cbn; split_and!; auto. right. split; [done|]. by destruct H3 as [->|?].
Qed.

Lemma evolves_send mem c k pkt r c' k' :
  legal pkt → pktserv_send mem c k (wire pkt) = Some (r, c', k') → evolves (c, k) (c', k').
Proof.
  intros Hp (H1 & H2 & H3 & H4)%pktserv_send_stream. split_and!; [done..| |].
  { cbn. intros Hs. destruct H3 as [(_ & -> & _)|[_ ?%after_write_active]]; done. }
  cbn [fst snd]. intros Hc.
  assert (∃ ps, Forall legal ps ∧ stream c' k' = stream c k ++ concat (map wire ps)) as Hps.
  { destruct (_ || negb mem) in H4; [by exists []|]. exists [pkt]. split; [by apply Forall_singleton|].
    cbn. by rewrite app_nil_r. }
  split; [|done]. destruct H3 as [(_ & -> & ->)|[Hl Hs]]; [done|].
  apply active_ok. split; [rewrite H2; apply Hc| |by apply after_write_active].
  destruct Hps as (ps & L & E). destruct (conn_ok_framed c k Hc) as (qs & L' & E'); [by intros ?; apply Hl; left|by intros ?; apply Hl; right|].
  exists (qs ++ ps). split; [by apply Forall_app_2|]. by rewrite E, E', map_app, concat_app.
Qed.

Lemma evolves_disconnect c k : evolves (c, k) (pktserv_disconnect c, k).
Proof.
  split_and!; [done..| |]; [unfold silent; cbn; intuition discriminate|]. cbn [fst snd]. intros Hc. split.
  - split; [apply Hc| | |]; cbn.
    + destruct (co_framed _ _ Hc) as [Hf|[_ ?]]; auto.
    + unfold silent. intuition discriminate.
    + intuition discriminate.
  - exists []. split; [constructor|]. cbn. by rewrite app_nil_r.
Qed.

(** *** A client that takes [n] more packets

    Its connection works, and its queue and its retries leave room, whether the
    socket takes all, some or nothing for now. *)
Record ready (n : nat) c k : Prop := {
  rd_state : ¬ leaving (c_state c);
  rd_clear : c_is_ssl c = false;
  rd_count : c_wlist_size c = Z.of_nat (length (c_wlist c));
  rd_queue : (length (c_wlist c) + n ≤ MAX_SENDPACKET_QUEUE)%nat;
  rd_retries : 0 ≤ c_retries c ∧ c_retries c + Z.of_nat n ≤ Z.of_nat MAX_SENDPACKET_RETRIES + 1;
  rd_works : WError ∉ k_wr k
}.

Lemma write_loop_ready l c k :
  c_wlist c = l → c_is_ssl c = false → c_wlist_size c = Z.of_nat (length l) → 0 ≤ c_retries c → WError ∉ k_wr k →
  ∃ c' k', write_loop l c k = Some (0, c', k') ∧ ¬ leaving (c_state c') ∧ c_is_ssl c' = false ∧
    c_wlist_size c' = Z.of_nat (length (c_wlist c')) ∧ (length (c_wlist c') ≤ length l)%nat ∧
    0 ≤ c_retries c' ≤ c_retries c + 1 ∧ WError ∉ k_wr k'.
Proof.
  assert (¬ leaving WANT_HEADER ∧ ¬ leaving WANT_WRITE) as [Hh Hw] by (unfold leaving; intuition discriminate).
  revert c k. induction l as [|m l IH]; intros c k Hl Hc Hn Hr Hk; cbn [write_loop].
  { do 2 eexists. split; [reflexivity|]. cbn. rewrite Hl. split_and!; try done; lia. }
  unfold sock_write, k_write. rewrite Hc. destruct (k_wr k) as [|w ws] eqn:Ek.
  { do 2 eexists. split; [reflexivity|]. cbn. rewrite Hl, Hn, Ek. split_and!; try done; lia. }
  apply not_elem_of_cons in Hk as [Hk1 Hk2]. destruct w as [q| |]; [| |done].
  - cbn [c_is_ssl]. rewrite Hc. cbn [andb]. case_match eqn:Elt.
    + do 2 eexists. split; [reflexivity|]. cbn. split_and!; try done; lia.
    + destruct (IH (set_retries 0 (set_wlist l (c_wlist_size c - 1) c)) (Kernel (k_in k) ws (k_out k ++ take q (m_rest m)) (k_tls k)))
        as (c' & k' & E & H1 & H2 & H3 & H4 & H5 & H6); [done|done|cbn; cbn in Hn; lia|done|done|].
      exists c', k'. split; [exact E|]. cbn in *. split_and!; try done; lia.
  - do 2 eexists. split; [reflexivity|]. cbn. rewrite Hl, Hn. split_and!; try done; lia.
Qed.

Lemma send_ready n c k pkt :
  ready (S n) c k → ∃ c' k', pktserv_send true c k pkt = Some (0, c', k') ∧ ready n c' k' ∧ stream c' k' = stream c k ++ pkt.
Proof.
  intros [H1 H2 H3 H4 H5 H6]. assert (∃ c' k', pktserv_send true c k pkt = Some (0, c', k') ∧ ready n c' k') as (c' & k' & E & Hr).
  { unfold pktserv_send. fold (leaving (c_state c)). rewrite decide_False by done. cbn [c_wlist_size set_state].
    destruct (Z.leb_spec (Z.of_nat MAX_SENDPACKET_QUEUE) (c_wlist_size c)); [lia|]. cbn [msgbuf_alloc].
    unfold pktsocket_write. cbn [c_retries set_state set_wlist].
    destruct (Z.ltb_spec (Z.of_nat MAX_SENDPACKET_RETRIES) (c_retries c)); [lia|]. cbn [c_wlist set_state set_wlist].
    edestruct write_loop_ready as (c' & k' & -> & G1 & G2 & G3 & G4 & G5 & G6);
      [reflexivity|exact H2|cbn; rewrite length_app; cbn; lia|cbn; lia|exact H6|].
    exists c', k'. split; [done|]. cbn in G5. rewrite length_app in G4. cbn in G4. split; try done; lia. }
  exists c', k'. split; [done|]. split; [done|]. apply pktserv_send_stream in E as (_ & _ & _ & ->).
  rewrite bool_decide_false by done. destruct (Z.leb_spec (Z.of_nat MAX_SENDPACKET_QUEUE) (c_wlist_size c)); [lia|done].
Qed.
End conns.
