(* ===== verification/Server.v ===== *)
(** * The server as a whole

    What main.c ties together: the state of a new process, the start, and the
    callbacks that the packet server makes, one after the other, as long as the
    program has not ended.  The states that can come up in this way are the
    reachable ones; the last theorem says that all of them are well typed. *)

From Stdlib Require Import ZArith Lia String.
From S2P Require Import Config Prelude Utf8 StrUtil Wildmat NameList Lookup CLib Monad Dbm IcbDb State Tables Send GroupCast World Access GroupChange GroupMod GroupStatus Lifecycle UserCmd Who Info Admin Auto Msgs Typing TypedSend TypedGroup TypedUser TypedPacket.

Local Open Scope Z_scope.
Local Open Scope icb_monad_scope.

(** What happens to the process: the five callbacks of the packet server, in
    the order of their registration, and the clock. *)
Inductive input : Type :=
| Idle (n : Z)
| Dispatch (n : Z) (pkt : cstring)
| NewClient (n secure : Z)
| LostClient (n : Z)
| Ok2Read (n : Z)
| Clock (now : Z).

Definition zero_user : user :=
  User [] [] [] [] [] [] [] 0 0 0 0 0 0 0 0 0 0 0 0 [] [] [] [] [] [].
Definition zero_group : group := Group [] [] 0 0 0 0 [] 0 [] [] [] [] [] [] [] [] [] [] 0 0 [] 0.
Definition zero_groups : list group := replicate MAX_GROUPS zero_group.

Section server.
Context `{BuildConfig} `{Host}.
#[local] Existing Instance icb_commands.

Definition serve (i : input) : M st unit :=
  match i with
  | Idle n => s_didpoll n
  | Dispatch n pkt => s_packet n pkt
  | NewClient n secure => s_new_user n secure
  | LostClient n => _ <- s_lost_user n ;; ret tt
  | Ok2Read n => _ <- ok2read n ;; ret tt
  | Clock now => modify (set_clock now)
  end.

(** The variables of a new process, at time [now], with a database that has
    not been opened. *)
Definition new_process (now : Z) (d : icbdb) (level : Z) : st :=
  let zeros := replicate MAX_USERS 0 in
  St (replicate MAX_USERS zero_user) zero_groups zeros zeros zeros zeros 0
    (Stats now 0 0 0 0 0) now 0 d [] (Globals (-1) 0 zeros 0 level 0).

Inductive reached : st → Prop :=
| reached_start now d level s : startup (new_process now d level) = Some (tt, s) → reached s
| reached_serve i s s' : reached s → EvExit ∉ events s → serve i s = Some (tt, s') → reached s'.

(** The same as a program: a list of inputs, up to the end of the process. *)
Fixpoint serve_all (l : list input) : M st unit :=
  match l with
  | [] => ret tt
  | i :: l' =>
      es <- gets events ;;
      if bool_decide (EvExit ∈ es) then ret tt else serve i ;; serve_all l'
  end.

Lemma reached_serve_all l s s' : reached s → serve_all l s = Some (tt, s') → reached s'.
Proof.
  revert s. induction l as [|i l IH]; intros s Hs; cbn [serve_all]; [by intros [= <-]|].
  unfold bind at 1, gets. case_bool_decide as He; [by intros [= <-]|]. unfold bind.
  destruct (serve i s) as [[[] s1]|] eqn:E; [|done]. apply IH. by eapply reached_serve.
Qed.

(** From the start of the process. *)
Definition run (l : list input) : M st unit := startup ;; serve_all l.

Lemma reached_run l now d level s : run l (new_process now d level) = Some (tt, s) → reached s.
Proof.
  unfold run, bind. generalize (reached_start now d level).
  destruct (startup _) as [[[] s0]|]; [|done]. intros Hs Hr. eapply reached_serve_all, Hr. by apply Hs.
Qed.

(** ** The commands *)

Lemma commands_typed depth : @TypedCommands _ (commands depth).
Proof.
  induction depth as [|d IH]; intros n pkt; [apply ty_ub|]. change (ok (@handle_command _ _ (commands d) n pkt)).
  apply ty_handle_command.
Qed.

Lemma icb_commands_typed : TypedCommands.
Proof. apply commands_typed. Qed.
#[local] Hint Resolve icb_commands_typed : typed.

Lemma ty_serve i : ok (serve i).
Proof.
  destruct i; cbn [serve]; try solve [ty]. apply ty_modify. by intros s [].
Qed.

(** ** The start *)

(** Everything but the groups, which the start clears first. *)
Definition but_groups (s : st) : Prop := length (g_tab s) = MAX_GROUPS ∧ well_typed (set_g_tab (replicate MAX_GROUPS cleared_group) s).

Lemma ty_icb_group n : ok (fill_group_entry n (str "ICB") (str "...here to serve you!") SUPERSECRET RESTRICTED NICKSERV QUIET).
Proof.
  unfold fill_group_entry. cbn [orb]. destruct (_ || _); [apply ty_ub|]. apply ty_upd_group. intros g Hg.
  destruct Hg. split; try assumption; cbn; try (apply Nat.leb_le; reflexivity); unfold slot_or_none, NICKSERV; ty_ranges.
Qed.

(** The resident user is filled in with the time where the login state should
    be, which the next assignment puts right. *)
Lemma ty_resident now :
  ok (fill_user_entry NICKSERV (Some (str "server")) (Some thishost) (Some (str "Server")) (Some [])
        (Some (str "ICB")) (Some []) now 0 1 PERM_NULL ;;
      upd_user NICKSERV (λ u,
        set_u_realname (str "registered") (set_u_t_recv now (set_u_t_on now (set_u_login LOGIN_COMPLETE u)))) ;;
      fill_group_entry 0 (str "ICB") (str "...here to serve you!") SUPERSECRET RESTRICTED NICKSERV QUIET ;;
      _ <- nickwritetime NICKSERV 0 ;; ret tt).
Proof.
  unfold fill_user_entry. apply ty_upd_user_twice.
  - intros u Hu.
    pose proof (user_ok_filled (Some (str "server")) (Some thishost) (Some (str "Server")) (Some []) (Some (str "ICB")) (Some [])
      LOGIN_COMPLETE 0 1 PERM_NULL u) as Hf.
    destruct Hf; [ty_ranges|lia|lia|done|]. split; try assumption. cbn. apply Nat.leb_le. reflexivity.
  - eapply ty_bind; [apply ty_icb_group|]. intros _ _. ty.
Qed.

Lemma ty_init_tables s a s' : but_groups s → init_tables s = Some (a, s') → well_typed s'.
Proof.
  intros [Hg Hs]. unfold init_tables.
  destruct (wp_run_unit _ _ _ (wp_init_groups s Hg)) as (s1 & Hr & ->). erewrite bind_runs by exact Hr.
  match goal with |- ?m _ = _ → _ => assert (ok m) as Hm end; [|intros E; by eapply Hm].
  pose proof ty_resident. ty.
Qed.

Lemma ty_init_arrays : ok init_arrays.
Proof. unfold init_arrays. ty. Qed.

Lemma zeros_typed ut gt now d level :
  length ut = MAX_USERS → length gt = MAX_GROUPS → Forall user_ok ut → Forall group_ok gt →
  let zeros := replicate MAX_USERS 0 in
  well_typed (St ut gt zeros zeros zeros zeros 0 (Stats now 0 0 0 0 0) now 0 d [] (Globals (-1) 0 zeros 0 level 0)).
Proof.
  intros Hut Hgt Hu Hg zeros. pose proof MAX_USERS_min.
  assert (array_ok zeros) as Ha by apply length_replicate.
  assert (Forall slot_or_none zeros) as Hf by (apply Forall_replicate; unfold slot_or_none; lia).
  by split.
Qed.

Lemma zero_user_ok : user_ok zero_user.
Proof. split; cbn; first [apply fits_nil|ty_ranges]. Qed.

Lemma length_zero_groups : length zero_groups = MAX_GROUPS.
Proof. apply length_replicate. Qed.

Lemma new_process_but_groups now d level : but_groups (new_process now d level).
Proof.
  split; [apply length_zero_groups|].
  refine (zeros_typed (replicate MAX_USERS zero_user) (replicate MAX_GROUPS cleared_group) now d level _ _ _ _).
  - apply length_replicate.
  - apply length_replicate.
  - apply Forall_replicate, zero_user_ok.
  - apply Forall_replicate, group_ok_cleared.
Qed.

Lemma ty_startup s a s' : but_groups s → startup s = Some (a, s') → well_typed s'.
Proof.
  intros Hs. unfold startup, bind. destruct (init_tables s) as [[[] s1]|] eqn:E; [|done]. intros Hr.
  apply ty_init_tables in E; [|done]. by eapply ty_init_arrays.
Qed.

Lemma reached_typed s : reached s → well_typed s.
Proof.
  induction 1 as [now d level s Hr|i s s' _ IH _ Hr]; [eapply ty_startup, Hr; apply new_process_but_groups|by eapply ty_serve].
Qed.
End server.

(** C3: whatever arrives, in whatever order, at a server that was started on a
    zeroed process: in every state that can be reached every text fits its array
    with the terminator, every name list is within its limit, every state,
    switch and setting is among its values, every stored index is in its table,
    the tables have their sizes, and everything that was ever handed to the
    packet server is a packet of 1 to 254 bytes for the connection of a real
    user. *)
Theorem reachable_states_typed `{BuildConfig} `{Host} (s : st) : reached s → well_typed s.
Proof. apply reached_typed. Qed.

(** A run: two clients connect and log in to the same group, and one of them
    says hello; the last packet carries it to the other. *)
Definition demo_login (n : Z) (id nick : String.string) : input :=
  Dispatch n (" "%byte :: ICB_M_LOGIN :: str id ++ SEP ++ str nick ++ SEP ++ str "Lobby" ++ SEP ++ str "login" ++ SEP ++ []).
Definition demo_inputs : list input :=
  [NewClient 1 0; demo_login 1 "amy" "Amy"; Clock 1005; NewClient 2 0; demo_login 2 "bob" "Bob"; Idle 0;
   Dispatch 2 (" "%byte :: ICB_M_OPEN :: str "hello")].
Definition demo_db : icbdb := Icbdb None 0 false [] (Disk None None).

Definition says_hello (r : option (unit * st)) : bool :=
  match r with
  | Some (_, s) => bool_decide (last (events s) = Some (EvSend 1 (ICB_M_OPEN :: str "Bob" ++ SEP ++ str "hello")))
  | None => false
  end.

Example demo_says_hello : says_hello (@run demo_build demo_host demo_inputs (@new_process demo_build 1000 demo_db 0)) = true.
Proof. vm_compute. reflexivity. Qed.

Lemma reachable_states_typed_witness :
  ∃ s, @reached demo_build demo_host s ∧ last (events s) = Some (EvSend 1 (ICB_M_OPEN :: str "Bob" ++ SEP ++ str "hello")) ∧
    @well_typed demo_build s.
Proof.
  pose proof demo_says_hello as Hh. destruct (run _ _) as [[[] s]|] eqn:E; [|done]. apply reached_run in E.
  exists s. split; [done|]. split; [by apply bool_decide_eq_true in Hh|]. by apply (@reachable_states_typed demo_build demo_host).
Defined.
