(* ===== verification/Rooms.v ===== *)
(** * The server moves users and groups as the abstract machine does

    The packets of real users, whatever they hold and in whatever order they
    come, lead from the places after the start through steps of the machine of
    [Places] only; so the order of the machine is an invariant of the server.
    The runs at the end show the two ways out of it. *)

From Stdlib Require Import ZArith Lia String.
From stdpp Require Import relations.
From S2P Require Import Config Prelude Utf8 StrUtil Wildmat NameList Lookup CLib Monad Dbm IcbDb State Tables Send GroupCast World Access GroupChange GroupMod GroupStatus Lifecycle UserCmd Who Info Admin Auto Msgs Typing Places Kept Moves Server.

Local Open Scope Z_scope.
Local Open Scope icb_monad_scope.

Section rooms.
Context `{BuildConfig} `{Host}.
#[local] Existing Instance icb_commands.

(** Packets come from real users, not from a connection in the last slot. *)
Definition genuine (i : input) : Prop :=
  match i with Dispatch n _ => n < MAX_REAL_USERS | _ => True end.

Inductive reached_real : st → Prop :=
| real_start now d level s : startup (new_process now d level) = Some (tt, s) → reached_real s
| real_serve i s s' :
    reached_real s → genuine i → EvExit ∉ events s → serve i s = Some (tt, s') → reached_real s'.

(** The resident user is alone, in room ICB. *)
Definition start_places : places :=
  Places (entry_set NICKSERV (str "ICB") (replicate MAX_USERS []))
    (entry_set 0 (str "ICB") (replicate MAX_GROUPS [])).

(** ** Every callback makes steps *)

Lemma commands_move depth : @MoveCommands _ (commands depth).
Proof.
  induction depth as [|d IH]; intros n pkt Hn; [by apply preserves_ub|].
  change (preserves advance (@handle_command _ _ (commands d) n pkt)). by apply moves_handle_command.
Qed.

Lemma icb_commands_move : MoveCommands.
Proof. apply commands_move. Qed.

Lemma moves_serve i : genuine i → preserves advance (serve i).
Proof.
  pose proof icb_commands_move. pose proof moves_dispatch. pose proof moves_lost_user. pose proof moves_didpoll.
  destruct i; intros Hi; cbn [serve genuine] in *; unfold s_packet; mv.
Qed.

(** ** The start *)

Lemma world_orderly s : world s → orderly MAX_REAL_USERS (places_of s).
Proof.
  intros [Hs Ht]. unfold places_of. split; cbn [homes rooms].
  - intros j r. rewrite entry_at_fmap. intros (g & Hg & ->)%fmap_Some. by eapply t_name.
  - intros i h. rewrite entry_at_fmap. intros (u & Hu & ->)%fmap_Some. by eapply t_ulen.
  - intros i j a b. rewrite !entry_at_fmap. intros (g & Hg & ->)%fmap_Some (g' & Hg' & ->)%fmap_Some. by eapply t_unique.
  - intros i h. rewrite entry_at_fmap. intros (u & Hu & ->)%fmap_Some _ Hne.
    destruct (t_home _ _ _ Ht i u Hu Hne) as (j & g & Hg & E). exists j, (g_name g). by rewrite entry_at_fmap, Hg.
  - intros j r. rewrite entry_at_fmap. intros (g & Hg & ->)%fmap_Some Hne.
    destruct (t_live _ _ _ Ht j g Hg Hne) as (i & u & Hu & E); [intros ->; by apply entry_at_lookup in Hg as [? _]|].
    exists i, (u_group u). by rewrite entry_at_fmap, Hu.
Qed.

Lemma wp_startup s :
  arrays_sized s → length (g_tab s) = MAX_GROUPS → (∀ u, u ∈ u_tab s → u_login u = LOGIN_FALSE) →
  wp startup (λ _, started s) s.
Proof.
  intros Hs Hg Hl. unfold startup. apply wp_bind. eapply wp_mono; [by apply wp_init_tables|].
  intros [] s1 A1. by apply wp_init_arrays.
Qed.

Lemma zeros_sized ut gt now d level :
  length ut = MAX_USERS → let zeros := replicate MAX_USERS 0 in
  arrays_sized (St ut gt zeros zeros zeros zeros 0 (Stats now 0 0 0 0 0) now 0 d [] (Globals (-1) 0 zeros 0 level 0)).
Proof. intros Hut zeros. assert (length zeros = MAX_USERS) by apply length_replicate. by repeat split. Qed.

Lemma new_process_start now d level : wp startup (λ _, started (new_process now d level)) (new_process now d level).
Proof.
  apply wp_startup.
  - apply (zeros_sized (replicate MAX_USERS zero_user) zero_groups). apply length_replicate.
  - apply length_zero_groups.
  - intros u [i Hi]%list_elem_of_lookup. by apply lookup_replicate in Hi as [-> _].
Qed.

Lemma rooms_of k g c : g_name <$> entry_set 0 g (replicate k c) = entry_set 0 (g_name g) (replicate k (g_name c)).
Proof. by rewrite entry_set_fmap, fmap_replicate. Qed.

(** Everybody but the resident user is nowhere. *)
Lemma homes_of (ut : list user) k v :
  length ut = k → entry_at NICKSERV ut = Some v → (∀ i u, entry_at i ut = Some u → i ≠ NICKSERV → blank u) →
  u_group <$> ut = entry_set NICKSERV (u_group v) (replicate k []).
Proof.
  intros Hl Hv Hb. apply list_eq. intros i. rewrite list_lookup_fmap, <-(entry_at_nat (entry_set _ _ _)).
  destruct (ut !! i) as [u|] eqn:Hu; cbn [fmap option_fmap option_map].
  - pose proof (lookup_lt_Some _ _ _ Hu) as Hlt. rewrite <-entry_at_nat in Hu.
    destruct (decide (Z.of_nat i = NICKSERV)) as [E|E].
    + rewrite E, Hv in Hu. injection Hu as <-. rewrite E. symmetry. apply entry_set_at, entry_at_range.
      rewrite length_replicate. lia.
    + rewrite entry_set_ne, entry_at_nat, (Hb _ _ Hu E) by done. rewrite lookup_replicate_2; [done|lia].
  - rewrite entry_at_nat. apply lookup_ge_None in Hu. symmetry. apply lookup_ge_None.
    rewrite length_entry_set, length_replicate. lia.
Qed.

Lemma started_settled s0 s : started s0 s → settled s.
Proof.
  intros (_ & _ & _ & Hb & v & Hv & Hlog & _ & Ev).
  apply Forall_forall. intros u [i Hi]%list_elem_of_lookup. rewrite <-entry_at_nat in Hi.
  destruct (decide (Z.of_nat i = NICKSERV)) as [E|E].
  - rewrite E, Hv in Hi. injection Hi as <-. split; rewrite Ev, ?Hlog; [by apply Nat.leb_le|done].
  - rewrite (Hb _ _ Hi E). split; [by apply Nat.leb_le|done].
Qed.

Lemma start_rooms : g_name <$> start_groups = entry_set 0 (str "ICB") (replicate MAX_GROUPS []).
Proof. exact (rooms_of MAX_GROUPS icb_group cleared_group). Qed.

Lemma started_places s0 s : started s0 s → places_of s = start_places.
Proof.
  intros ((Hl & _) & Eg & _ & Hb & v & Hv & _ & _ & Ev). unfold places_of, start_places.
  rewrite (homes_of _ _ v Hl Hv Hb), Ev, Eg, start_rooms. reflexivity.
Qed.

Lemma startup_started s0 s :
  wp startup (λ _, started s0) s0 → startup s0 = Some (tt, s) → settled s ∧ places_of s = start_places.
Proof.
  unfold wp. intros Hw E. rewrite E in Hw. split; [by eapply started_settled|by eapply started_places].
Qed.

Lemma reached_settled s :
  reached_real s → settled s ∧ rtc (step MAX_REAL_USERS) start_places (places_of s).
Proof.
  induction 1 as [now d level s E|i s s' _ [IHs IHp] Hi _ E].
  - destruct (startup_started _ _ (new_process_start now d level) E) as [Hs ->]. by split.
  - destruct (moves_serve i Hi s tt s' E IHs) as [Hs' Hp]. split; [done|]. by etransitivity.
Qed.

Lemma wp_start_orderly s0 : wp startup (λ _, started s0) s0 → orderly MAX_REAL_USERS start_places.
Proof.
  intros (a & s & _ & Hst)%wp_run. rewrite <-(started_places _ _ Hst). by eapply world_orderly, started_world.
Qed.
Lemma start_orderly : orderly MAX_REAL_USERS start_places.
Proof. exact (wp_start_orderly _ (new_process_start 0 (Icbdb None 0 false [] (Disk None None)) 0)). Qed.

(** What the order says about the tables. *)
Lemma orderly_tables s :
  settled s → orderly MAX_REAL_USERS (places_of s) →
  (∀ i u, entry_at i (u_tab s) = Some u → i < MAX_REAL_USERS → u_group u ≠ [] →
     LOGIN_FALSE < u_login u ∧
     ∃ g, entry_at (find_group (u_group u) (g_tab s)) (g_tab s) = Some g ∧ casefold (g_name g) = casefold (u_group u)) ∧
  (∀ j g, entry_at j (g_tab s) = Some g → g_name g ≠ [] →
     group_name_ok (g_name g) ∧ 0 < count_users_in_group (g_name g) (u_tab s) ∧ find_group (g_name g) (g_tab s) = j).
Proof.
  intros Hs Ho. pose proof Ho as [O1 O2 O3 O4 O5]. split.
  - intros i u Hu Hi Hne. assert (entry_at i (homes (places_of s)) = Some (u_group u)) as Hh.
    { unfold places_of. cbn [homes]. by rewrite entry_at_fmap, Hu. }
    destruct (O4 i _ Hh Hi Hne) as (j & r & Hr & E).
    assert (find_group (u_group u) (g_tab s) = j) as ->.
    { rewrite find_group_room. by eapply find_room_unique; [apply (orderly_weaken _ (-1))|..]. }
    split.
    + apply Z.lt_nge. intros Hl. apply Hne. apply entry_at_lookup in Hu as [_ Hu].
      by apply (Forall_lookup_1 _ _ _ _ Hs Hu).
    + unfold places_of in Hr. cbn [rooms] in Hr. rewrite entry_at_fmap in Hr.
      destruct (entry_at j (g_tab s)) as [g|]; [|done]. injection Hr as <-. eauto.
  - intros j g Hg Hne. assert (entry_at j (rooms (places_of s)) = Some (g_name g)) as Hr.
    { unfold places_of. cbn [rooms]. by rewrite entry_at_fmap, Hg. }
    split; [by eapply O1|]. split.
    + apply Z.ltb_lt. rewrite count_occupied. apply occupied_spec. split; [done|]. by eapply O5.
    + rewrite find_group_room. by eapply find_room_unique; [apply (orderly_weaken _ (-1))|..].
Qed.

Lemma reached_serve_real l s s' :
  reached_real s → Forall genuine l → serve_all l s = Some (tt, s') → reached_real s'.
Proof.
  intros Hs Hl. revert s Hs. induction Hl as [|i l Hi _ IH]; intros s Hs; cbn [serve_all]; [by intros [= <-]|].
  unfold bind at 1, gets. case_bool_decide as He; [by intros [= <-]|]. unfold bind.
  destruct (serve i s) as [[[] s1]|] eqn:E; [|done]. apply IH. by eapply real_serve.
Qed.

Lemma reached_run_real l now d level s :
  Forall genuine l → Server.run l (new_process now d level) = Some (tt, s) → reached_real s.
Proof.
  intros Hl. unfold Server.run, bind. generalize (real_start now d level).
  destruct (startup _) as [[[] s0]|]; [|done]. intros Hs Hr. eapply reached_serve_real, Hr; [by apply Hs|done].
Qed.
End rooms.

(** C4: the server implements the machine of users and groups.  Whatever
    real users send, in whatever order connections come, go and time passes: the
    places of users and groups in a reached state are reached by the machine
    from the places after the start, and serving one more input makes the machine
    make steps, that is, only what entering, opening, leaving and renaming a group
    may do to the two tables' names. *)
Theorem server_refines_places `{BuildConfig} `{Host} (i : input) (s s' : st) :
  reached_real s → genuine i → EvExit ∉ events s → serve i s = Some (tt, s') →
  rtc (step MAX_REAL_USERS) start_places (places_of s) ∧ rtc (step MAX_REAL_USERS) (places_of s) (places_of s').
Proof.
  intros Hs Hi _ E. destruct (reached_settled s Hs) as [Hset Hp]. split; [done|]. by eapply moves_serve.
Qed.

(** C5: in every state that the packets of real users can lead to, a real
    user who is in a group is logged in and its group exists, at the index at
    which the handlers look for it; every group has a proper name, somebody is in
    it, and no other group has its name, letters compared in either case. *)
Theorem groups_are_orderly `{BuildConfig} `{Host} (s : st) :
  reached_real s →
  (∀ i u, entry_at i (u_tab s) = Some u → i < MAX_REAL_USERS → u_group u ≠ [] →
     LOGIN_FALSE < u_login u ∧
     ∃ g, entry_at (find_group (u_group u) (g_tab s)) (g_tab s) = Some g ∧ casefold (g_name g) = casefold (u_group u)) ∧
  (∀ j g, entry_at j (g_tab s) = Some g → g_name g ≠ [] →
     group_name_ok (g_name g) ∧ 0 < count_users_in_group (g_name g) (u_tab s) ∧ find_group (g_name g) (g_tab s) = j).
Proof.
  intros Hr. destruct (reached_settled s Hr) as [Hs Hp]. apply orderly_tables; [done|].
  eapply steps_orderly; [exact Hp|apply start_orderly].
Qed.

(** ** Runs *)

Definition demo_command (n : Z) (cmd arg : String.string) : input :=
  Dispatch n (" "%byte :: ICB_M_COMMAND :: str cmd ++ SEP ++ str arg).
Definition demo_open (n : Z) (text : String.string) : input := Dispatch n (" "%byte :: ICB_M_OPEN :: str text).

(** Where the users are and which groups there are after a run. *)
Definition after_run (l : list input) : option (list cstring * list cstring) :=
  match @Server.run demo_build demo_host l (@new_process demo_build 1000 demo_db 0) with
  | Some (_, s) => Some (u_group <$> u_tab s, List.filter (λ r, negb (is_empty r)) (g_name <$> g_tab s))
  | None => None
  end.

(** Two users in one group; one of them renames it and goes to another. *)
Definition demo_moves : list input :=
  [NewClient 1 0; demo_login 1 "amy" "Amy"; NewClient 2 0; demo_login 2 "bob" "Bob";
   demo_command 1 "status" "name Salon"; demo_command 1 "g" "Den"].

Example demo_moves_run :
  after_run demo_moves = Some ([[]; str "Den"; str "Salon"; []; str "ICB"], [str "ICB"; str "Salon"; str "Den"]).
Proof. vm_compute. reflexivity. Qed.

(** A run, and what a test says of its state and of one more input. *)
Definition last_input (h : Host) (l : list input) (i : input) (test : st → option (unit * st) → bool) : bool :=
  match @Server.run demo_build h l (@new_process demo_build 1000 demo_db 0) with
  | Some (_, s) => negb (bool_decide (EvExit ∈ events s)) && test s (@serve demo_build h i s)
  | None => false
  end.

Lemma last_input_state h l i test :
  last_input h l i test = true → Forall (@genuine demo_build) l →
  ∃ s, @reached_real demo_build h s ∧ EvExit ∉ events s ∧ test s (@serve demo_build h i s) = true.
Proof.
  unfold last_input. intros Ht Hl. destruct (Server.run _ _) as [[[] s]|] eqn:E; [|done].
  apply (@reached_run_real demo_build h) in E; [|done]. apply andb_true_iff in Ht as [He Ht]. exists s.
  split; [done|]. split; [by case_bool_decide|done].
Qed.

(** Amy of the first run goes to Den. *)
Definition to_den (s : st) (r : option (unit * st)) : bool :=
  match r with
  | Some (_, s') => bool_decide (u_group <$> u_tab s' = [[]; str "Den"; str "Salon"; []; str "ICB"])
  | None => false
  end.

Example demo_to_den : last_input demo_host (take 5 demo_moves) (demo_command 1 "g" "Den") to_den = true.
Proof. vm_compute. reflexivity. Qed.

Lemma demo_genuine : Forall (@genuine demo_build) (take 5 demo_moves).
Proof. repeat constructor; apply Z.ltb_lt; reflexivity. Qed.

Lemma server_refines_places_witness :
  ∃ s s', @reached_real demo_build demo_host s ∧
    u_group <$> u_tab s' = [[]; str "Den"; str "Salon"; []; str "ICB"] ∧
    rtc (step (@MAX_REAL_USERS demo_build)) (@start_places demo_build) (places_of s) ∧
    rtc (step (@MAX_REAL_USERS demo_build)) (places_of s) (places_of s').
Proof.
  destruct (last_input_state _ _ _ _ demo_to_den demo_genuine) as (s & Hs & He & Ht).
  destruct (serve _ s) as [[[] s']|] eqn:E; [|done]. exists s, s'. split; [done|].
  split; [by apply bool_decide_eq_true in Ht|].
  apply (@server_refines_places demo_build demo_host (demo_command 1 "g" "Den")); [done| |done|done].
  apply Z.ltb_lt. reflexivity.
Defined.

Lemma groups_are_orderly_witness :
  ∃ s, @reached_real demo_build demo_host s ∧
    ∀ i u, entry_at i (u_tab s) = Some u → i < @MAX_REAL_USERS demo_build → u_group u ≠ [] → LOGIN_FALSE < u_login u.
Proof.
  destruct (last_input_state _ _ _ _ demo_to_den demo_genuine) as (s & Hs & _). exists s. split; [done|].
  intros i u Hu Hi Hne. by destruct (@groups_are_orderly demo_build demo_host s Hs) as [Hu' _]; destruct (Hu' i u Hu Hi Hne).
Defined.

(** ** The two ways out *)

(** Three quick messages in group 1 carry a user to ICB, which is restricted;
    when the resident moderator has been idle for long enough, the sweep makes
    that user the moderator, who renames the group.  (The boot writes to
    [fields[1]] of an earlier packet, so that it needs storage that can be used
    after it was freed.) *)
Definition demo_spam : list input :=
  [NewClient 1 0;
   Dispatch 1 (" "%byte :: ICB_M_LOGIN :: str "amy" ++ SEP ++ str "Amy" ++ SEP ++ str "1" ++ SEP ++ str "login" ++ SEP);
   demo_open 1 "a"; demo_open 1 "a"; demo_open 1 "a"; Clock 4700; demo_open 1 "a"; Idle 0;
   demo_command 1 "status" "name Foo"].

(** The resident user is in a group that does not exist, and the last input had
    no defined behaviour. *)
Definition lost_home (s : st) (r : option (unit * st)) : bool :=
  match r with
  | Some _ => false
  | None =>
      bool_decide (u_group <$> last (u_tab s) = Some (str "ICB")) && (find_group (str "ICB") (g_tab s) =? -1)
  end.

Example demo_lost_home : last_input kept_host demo_spam (demo_command 1 "g" "@server") lost_home = true.
Proof. vm_compute. reflexivity. Qed.

(** The group of the resident user can be taken from it by an ordinary user;
    to ask for the resident's group is undefined behaviour from then on (the
    entry of the group table at index -1 is read), provided that the write to
    [fields[1]], which the boot makes, does no harm. *)
Theorem resident_group_lost :
  ∃ s, @reached_real demo_build kept_host s ∧ EvExit ∉ events s ∧
    u_group <$> last (u_tab s) = Some (str "ICB") ∧ find_group (str "ICB") (g_tab s) = -1 ∧
    @serve demo_build kept_host (demo_command 1 "g" "@server") s = None.
Proof.
  destruct (last_input_state _ _ _ _ demo_lost_home) as (s & Hs & He & Ht).
  { repeat constructor; apply Z.ltb_lt; reflexivity. }
  exists s. unfold lost_home in Ht. destruct (serve _ s) as [?|] eqn:E; [done|].
  apply andb_true_iff in Ht as [Hh%bool_decide_eq_true Hf%Z.eqb_eq]. done.
Qed.

(** A connection in the last slot is the resident user, without a login: it
    takes the resident to a new group and renames it, and its next message is
    undefined behaviour. *)
Definition demo_last_slot : list input :=
  [NewClient 4 0; demo_command 4 "g" "Lobby"; demo_command 4 "status" "name Foo"].

Example demo_last_slot_run :
  after_run demo_last_slot = Some ([[]; []; []; []; str "Lobby"], [str "Foo"]) ∧
  after_run (demo_last_slot ++ [demo_open 4 "hi"]) = None.
Proof. split; vm_compute; reflexivity. Qed.
