(* ===== verification/Boot.v ===== *)
(** * How the program starts (server/main.c)

    [main] up to its loop, over what the system answers: the options, the limit
    of descriptors, the log file, the ports, the TLS context, the process left
    behind, the tables.  It ends, goes on with the dump of the server that it
    takes the place of ([Dump]), or serves. *)

From Stdlib Require Import ZArith Lia String.
From S2P Require Import Config Prelude CLib Monad IcbDb Options SslConf PktBuffers SslSocket PktSocket PktServ Ports State Tables World Lifecycle Server Rooms.

Local Open Scope Z_scope.
Local Open Scope icb_monad_scope.

Notation prog := (net st).

Definition set_upper (u : st) (s : prog) : prog :=
  Net _ (cbufs s) (g_pollset s) (g_pollsetsize s) (accepts s) (closed s) u.

Definition ICBPEMFILE : cstring := str "./icbd.pem".

(** What the program is given: its arguments and whether [getopt] permutes them;
    whether there is memory for the copy of the arguments; whether the limit can
    be set; the descriptor of the log file, if it can be opened; the answers for
    the two ports; the results of the TLS library; whether this is the parent
    after the [fork]. *)
Record system : Type := System {
  sy_argv : list cstring;
  sy_permutes : bool;
  sy_save : bool;
  sy_limit : bool;
  sy_log : option Z;
  sy_port : port_env;
  sy_ssl : ssl_env;
  sy_sslport : port_env;
  sy_parent : bool
}.

Inductive outcome : Type := Exited (code : Z) | Reloading (o : options) | Serving (o : options).

Section code.
Context `{BuildConfig} `{Host} (mem : bool).

(** The packet server after [pktserv_init], with the connections that will come. *)
Definition first_net (acc : list accept_slot) (u : st) : prog := Net _ (cbufs_init None) [] 0 acc [] u.

(** A port that must be opened: [None] when the program goes on. *)
Definition must_open (e : port_env) (is_ssl : bool) : M prog (option outcome) :=
  r <- pktserv_addport mem e is_ssl ;;
  match r with
  | None => ret (Some (Exited (-1)))
  | Some r => ret (if r <? 0 then Some (Exited (-1)) else None)
  end.

Definition open_ssl (sy : system) : M prog (option outcome) :=
  match init_ssl ICBPEMFILE (sy_ssl sy) (SslState None 0 []) with
  | None => ub
  | Some (r, _) => if negb (r =? 0) then ret (Some (Exited (-1))) else must_open (sy_sslport sy) true
  end.

(** The branch of a start that is no restart, with the arrays after it. *)
Definition main_fresh (sy : system) (o : options) : M prog outcome :=
  if (0 <=? o_log_level o) && bool_decide (sy_log sy = None) then ret (Exited 1)
  else
    e <- must_open (sy_port sy) false ;;
    match e with
    | Some e => ret e
    | None =>
        e <- (if o_sslport o =? 0 then ret None else open_ssl sy) ;;
        match e with
        | Some e => ret e
        | None =>
            if (o_fork o =? 0) && sy_parent sy then ret (Exited 0)
            else
              u <- gets upper ;;
              '(_, u') <- lift (startup u) ;;
              modify (set_upper u') ;;
              ret (Serving o)
        end
    end.

Definition main (sy : system) (acc : list accept_slot) (now : Z) (d : icbdb) : option (outcome * prog) :=
  let start := first_net acc in
  if negb (sy_save sy) then Some (Exited 1, start (new_process now d 0))
  else
    match parse_args (sy_permutes sy) (tail (sy_argv sy)) with
    | None => Some (Exited (-1), start (new_process now d 0))
    | Some o =>
        let s := start (new_process now d (o_log_level o)) in
        if negb (sy_limit sy) then Some (Exited 1, s)
        else if negb (o_restart o =? 0) then Some (Reloading o, s)
        else main_fresh sy o s
    end.

(** ** What it takes to serve *)

(** The descriptors that a port may be given. *)
Definition offered (e : port_env) : list Z := match pe_addrs e with Some l => sockets l | None => [] end.

(** What [pktserv_addport] returns. *)
Definition port_result (e : port_env) : option Z :=
  match pe_addrs e with
  | None => Some (-1)
  | Some l =>
      match (span_failing (candidates l)).2 ≫= ad_socket with
      | None => Some (-1)
      | Some fd =>
          if negb (pe_nonblock e) then Some (-1)
          else if negb (pe_cloexec e) then None
          else if Z.of_nat MAX_USERS <=? fd then Some (-1) else Some fd
      end
  end.
Definition port_works (e : port_env) : Prop := ∃ fd, port_result e = Some fd ∧ 0 ≤ fd.

Definition context_works (e : ssl_env) : Prop := r_new e = true ∧ 0 < r_key e ∧ 0 < r_cert e ∧ r_check e = true.

(** The state of the packet server while ports are opened. *)
Definition sound (s : prog) : Prop := length (cbufs s) = MAX_USERS ∧ pollset_ok s.

Lemma candidates_offered l w fd : (span_failing (candidates l)).2 = Some w → ad_socket w = Some fd → fd ∈ sockets l.
Proof.
  intros Hw Hfd. assert (w ∈ candidates l) as Hin.
  { revert Hw. induction (candidates l) as [|a l' IH]; cbn; [done|]. destruct (works a); cbn; [intros [= ->]; by left|].
    destruct (span_failing l') as [f w']. cbn in *. intros ->. right. by apply IH. }
  apply list_elem_of_omap. exists w. split; [|done]. unfold candidates in Hin.
  apply elem_of_app in Hin as [Hin|Hin]; by apply list_elem_of_filter in Hin as [_ Hin].
Qed.

Lemma addport_result e is_ssl s :
  sound s → Forall (λ fd, 0 ≤ fd) (offered e) →
  ∃ s', pktserv_addport mem e is_ssl s = Some (port_result e, s') ∧ sound s' ∧ upper s' = upper s.
Proof.
  intros Hs Ho. unfold pktserv_addport, port_result, offered in *. destruct (pe_addrs e) as [l|]; [|by exists s].
  pose proof (bound_socket_spec l s) as Hb. pose proof (candidates_offered l) as Hc.
  destruct (span_failing (candidates l)) as [f w]. cbn [snd] in *. erewrite bind_runs by exact Hb. clear Hb. set (s1 := set_closed _ s).
  assert (sound s1 ∧ upper s1 = upper s) as [Hs1 Hu1] by (split; [exact Hs|done]).
  destruct w as [w|]; cbn [mbind option_bind]; [|by exists s1]. destruct (ad_socket w) as [fd|] eqn:Ew; [|by exists s1].
  assert (0 ≤ fd) as Hfd. { rewrite Forall_forall in Ho. apply Ho. by eapply Hc. }
  destruct (pe_nonblock e); cbn [negb]; [|eexists; by split_and!]. destruct (pe_cloexec e); cbn [negb]; [|eexists; by split_and!].
  unfold addport_register. destruct (Z.leb_spec (Z.of_nat MAX_USERS) fd); [eexists; by split_and!|].
  destruct (lookup_lt_is_Some_2 (cbufs s1) (Z.to_nat fd)) as [[c k] Hl]; [destruct Hs1 as [-> _]; lia|].
  assert (at_fd s1 fd (c, k)) as Ha by done. unfold bind at 1 2 3. erewrite upd_cbuf_at by exact Ha.
  set (s2 := set_cbufs _ s1). assert (pollset_ok s2) as Hok2 by apply Hs1.
  destruct (add_pollfd_ok mem s2 fd Hok2) as (r & s3 & E3 & Hok3 & Hcb & Hu & _). unfold bind. rewrite E3.
  exists s3. split; [done|]. split; [|by rewrite Hu]. split; [|done]. rewrite Hcb. cbn. rewrite length_insert. apply Hs.
Qed.

Lemma must_open_result e is_ssl s :
  sound s → Forall (λ fd, 0 ≤ fd) (offered e) →
  ∃ r s', must_open e is_ssl s = Some (r, s') ∧ sound s' ∧ upper s' = upper s ∧
    (r = None ∧ port_works e ∨ r = Some (Exited (-1)) ∧ ¬ port_works e).
Proof.
  intros Hs Ho. destruct (addport_result e is_ssl s Hs Ho) as (s' & E & Hs' & Hu). unfold must_open, bind. rewrite E.
  unfold port_works. destruct (port_result e) as [fd|].
  - do 2 eexists. split; [done|]. split_and!; try done. destruct (Z.ltb_spec fd 0); [right|left; eauto].
    split; [done|]. intros (fd' & [= <-] & ?). lia.
  - do 2 eexists. split; [done|]. split_and!; try done. right. split; [done|]. by intros (? & [=] & _).
Qed.

Lemma open_ssl_result sy s :
  sound s → Forall (λ fd, 0 ≤ fd) (offered (sy_sslport sy)) →
  ∃ r s', open_ssl sy s = Some (r, s') ∧ sound s' ∧ upper s' = upper s ∧
    (r = None ∧ context_works (sy_ssl sy) ∧ port_works (sy_sslport sy) ∨
     r = Some (Exited (-1)) ∧ ¬ (context_works (sy_ssl sy) ∧ port_works (sy_sslport sy))).
Proof.
  intros Hs Ho. unfold open_ssl. destruct (init_ssl_result ICBPEMFILE (sy_ssl sy) (SslState None 0 [])) as [x ->].
  assert (r_new (sy_ssl sy) && (0 <? r_key (sy_ssl sy)) && (0 <? r_cert (sy_ssl sy)) && r_check (sy_ssl sy) = true ↔ context_works (sy_ssl sy)) as Hc.
  { unfold context_works. rewrite !andb_true_iff, !Z.ltb_lt. tauto. }
  destruct (_ && r_check (sy_ssl sy)); cbn [negb Z.eqb].
  - destruct (must_open_result (sy_sslport sy) true s Hs Ho) as (r & s' & -> & H1 & H2 & H3).
    exists r, s'. split_and!; try done. destruct Hc as [Hc _]. specialize (Hc eq_refl). tauto.
  - do 2 eexists. split; [reflexivity|]. split_and!; try done. right. split; [done|]. intros [Hx _]. by apply Hc in Hx.
Qed.

(** What a start that is no restart needs. *)
Definition fresh_serves (sy : system) (o : options) : Prop :=
  (0 ≤ o_log_level o → is_Some (sy_log sy)) ∧ port_works (sy_port sy) ∧
  (o_sslport o ≠ 0 → context_works (sy_ssl sy) ∧ port_works (sy_sslport sy)) ∧
  (o_fork o = 0 → sy_parent sy = false).

Lemma main_fresh_result sy o s u' :
  sound s → Forall (λ fd, 0 ≤ fd) (offered (sy_port sy) ++ offered (sy_sslport sy)) → startup (upper s) = Some (tt, u') →
  ∃ r s', main_fresh sy o s = Some (r, s') ∧
    (r = Serving o ∧ fresh_serves sy o ∧ upper s' = u' ∨ (r = Exited 0 ∨ r = Exited 1 ∨ r = Exited (-1)) ∧ ¬ fresh_serves sy o).
Proof.
  intros Hs [Ho1 Ho2]%Forall_app Hu. unfold main_fresh, fresh_serves.
  destruct ((0 <=? o_log_level o) && bool_decide (sy_log sy = None)) eqn:El.
  { apply andb_true_iff in El as [Hl%Z.leb_le Hn%bool_decide_eq_true]. do 2 eexists. split; [reflexivity|]. right.
    split; [by auto|]. intros [Hx _]. specialize (Hx Hl). rewrite Hn in Hx. by destruct Hx. }
  assert (0 ≤ o_log_level o → is_Some (sy_log sy)) as Hlog.
  { intros Hl%Z.leb_le. rewrite Hl in El. apply bool_decide_eq_false in El. by apply not_eq_None_Some. }
  destruct (must_open_result (sy_port sy) false s Hs Ho1) as (r1 & s1 & E1 & Hs1 & Hu1 & H1). erewrite bind_runs by exact E1.
  destruct H1 as [[-> H1]|[-> H1]]; [|do 2 eexists; split; [reflexivity|]; right; split; [by auto|tauto]].
  assert (∃ r2 s2, (if o_sslport o =? 0 then ret None else open_ssl sy) s1 = Some (r2, s2) ∧ upper s2 = upper s1 ∧
    let P := o_sslport o ≠ 0 → context_works (sy_ssl sy) ∧ port_works (sy_sslport sy) in
    (r2 = None ∧ P ∨ r2 = Some (Exited (-1)) ∧ ¬ P)) as (r2 & s2 & E2 & Hu2 & H2).
  { destruct (Z.eqb_spec (o_sslport o) 0) as [Hz|Hz]; [do 2 eexists; split; [reflexivity|]; split; [done|]; left; by split|].
    destruct (open_ssl_result sy s1 Hs1 Ho2) as (r2 & s2 & E2 & _ & Hu2 & H2). exists r2, s2. split; [done|]. split; [done|].
    cbn zeta. destruct H2 as [[-> [? ?]]|[-> ?]]; [left|right]; (split; [done|]); tauto. }
  erewrite bind_runs by exact E2. cbn zeta in H2.
  destruct H2 as [[-> H2]|[-> H2]]; [|do 2 eexists; split; [reflexivity|]; right; split; [by auto|tauto]].
  destruct ((o_fork o =? 0) && sy_parent sy) eqn:Ef.
  { apply andb_true_iff in Ef as [Hz%Z.eqb_eq Hp]. do 2 eexists. split; [reflexivity|]. right. split; [by auto|].
    intros (_ & _ & _ & Hx). specialize (Hx Hz). congruence. }
  unfold bind, gets, lift. rewrite Hu2, Hu1, Hu. do 2 eexists. split; [reflexivity|]. left. split; [done|]. split; [|done].
  split_and!; [done..|]. intros Hz. rewrite Hz in Ef. done.
Qed.
End code.

Lemma first_net_sound `{BuildConfig} acc u : sound (first_net acc u).
Proof. split; [cbn; by rewrite length_map, length_replicate|]. split; [cbn; lia|constructor]. Qed.

(** A program that exits before it comes to serving. *)
Lemma main_exits `{BuildConfig} `{Host} now d (code : Z) (s : prog) (ready : options → Prop) (P Q : options → Prop) (R : options → Prop) :
  code = 0 ∨ code = 1 ∨ code = -1 → (∀ o, ¬ ready o) →
  ∃ r s', Some (Exited code, s) = Some (r, s') ∧
    (∀ o, r = Serving o ↔ ready o ∧ P o ∧ Q o) ∧ (∀ o, r = Reloading o ↔ ready o ∧ R o) ∧
    (∀ o, r = Serving o → startup (new_process now d (o_log_level o)) = Some (tt, upper s')) ∧
    (∀ c, r = Exited c → c = 0 ∨ c = 1 ∨ c = -1).
Proof.
  intros Hc Hr. do 2 eexists. split; [reflexivity|]. split_and!; [| |done|by intros c [= <-]].
  - intros o. split; [done|]. by intros [?%Hr _].
  - intros o. split; [done|]. by intros [?%Hr _].
Qed.

(** ** Main properties *)

(** C11: the program always gets to one of its ends: it serves exactly when its
    arguments can be parsed and do not ask for a restart, the descriptors can be
    limited, the log file can be opened (unless the level is negative), the port
    can be opened and, if one was asked for, the port for TLS with a key and a
    certificate that belong together; and this is the child, when it forks.  It
    then has the tables of a new server with the level of its arguments.  A
    restart it was asked for it takes up; in every other case it exits. *)
Theorem main_correct `{BuildConfig} `{Host} mem sy acc now d :
  Forall (λ fd, 0 ≤ fd) (offered (sy_port sy) ++ offered (sy_sslport sy)) →
  ∃ r s, main mem sy acc now d = Some (r, s) ∧
    let ready o := sy_save sy = true ∧ parse_args (sy_permutes sy) (tail (sy_argv sy)) = Some o ∧ sy_limit sy = true in
    (∀ o, r = Serving o ↔ ready o ∧ o_restart o = 0 ∧ fresh_serves sy o) ∧
    (∀ o, r = Reloading o ↔ ready o ∧ o_restart o ≠ 0) ∧
    (∀ o, r = Serving o → startup (new_process now d (o_log_level o)) = Some (tt, upper s)) ∧
    (∀ code, r = Exited code → code = 0 ∨ code = 1 ∨ code = -1).
Proof.
  intros Ho. unfold main. destruct (sy_save sy); cbn [negb]; [|apply main_exits; [by auto|intros o (? & _); done]].
  destruct (parse_args _ _) as [o|]; [|apply main_exits; [by auto|intros o (_ & ? & _); done]].
  destruct (sy_limit sy); cbn [negb]; [|apply main_exits; [by auto|intros o' (_ & _ & ?); done]].
  destruct (Z.eqb_spec (o_restart o) 0) as [Hz|Hz]; cbn [negb].
  - destruct (proj1 (wp_run _ _ _) (new_process_start now d (o_log_level o))) as ([] & u & Hu & _).
    destruct (main_fresh_result mem sy o (first_net acc (new_process now d (o_log_level o))) u) as (r & s & -> & H1);
      [apply first_net_sound|done|exact Hu|].
    exists r, s. split; [done|]. cbn zeta. split_and!; intros o'.
    + clear Hu. split; [|intros [(_ & [= <-] & _) [_ Hf]]; by destruct H1 as [(? & _)|[_ []]]].
      intros ->. by destruct H1 as [([= ->] & ? & _)|[[?|[?|?]] _]].
    + clear Hu. split; [|by intros [(_ & [= <-] & _) ?]]. intros ->. by destruct H1 as [([=] & _)|[[?|[?|?]] _]].
    + intros ->. destruct H1 as [([= ->] & _ & ->)|[[?|[?|?]] _]]; [exact Hu|discriminate..].
    + clear Hu. intros ->. destruct H1 as [([=] & _)|[[[= ->]|[[= ->]|[= ->]]] _]]; auto.
  - do 2 eexists. split; [reflexivity|]. cbn zeta. split_and!; intros o'; [|split|done|done].
    + split; [done|]. by intros [(_ & [= <-] & _) [? _]].
    + by intros [= <-].
    + by intros [(_ & [= <-] & _) _].
Qed.

(** A server that is started with TLS, on descriptors 3 and 4. *)
Definition demo_port (fd : Z) : port_env := PortEnv (Some [Address AF_INET (Some fd) true true]) true true.
Definition demo_ssl : ssl_env := SslEnv true true true true true true 1 1 true.
Definition demo_system (args : list String.string) : system :=
  System (str "icbd" :: map str args) true true true (Some 5) (demo_port 3) demo_ssl (demo_port 4) false.

Lemma main_correct_witness :
  ∃ s o, @main demo_build demo_host true (demo_system ["-s"; "-l"; "2"]%string) [] 1000 demo_db = Some (Serving o, s) ∧
    o_sslport o = DEFAULT_SSLPORT ∧ fds s = [3; 4].
Proof.
  destruct (@main_correct demo_build demo_host true (demo_system ["-s"; "-l"; "2"]%string) [] 1000 demo_db) as (r & s & E & H1 & _).
  - repeat (apply Forall_cons; split; [lia|]). constructor.
  - exists s, (Options 2 None 0 0 0 0 DEFAULT_PORT DEFAULT_SSLPORT).
    assert (r = Serving (Options 2 None 0 0 0 0 DEFAULT_PORT DEFAULT_SSLPORT)) as ->.
    { apply H1. split; [by split_and!|]. split; [done|]. split_and!; [by eauto|exists 3; by split_and!| |done].
      intros _. split; [by split_and!|exists 4; by split_and!]. }
    split; [exact E|]. split; [reflexivity|].
    assert (match @main demo_build demo_host true (demo_system ["-s"; "-l"; "2"]%string) [] 1000 demo_db with
            | Some (_, s) => fds s | None => [] end = [3; 4]) as Hf by (vm_compute; reflexivity).
    rewrite E in Hf. exact Hf.
Defined.
