(* ===== verification/Program.v ===== *)
(** * The program: the packet server with the server proper behind it (server/main.c)

    [callbacks] are the five functions that main.c registers.  Each runs a
    handler of the server on the tables and then, in order, makes the calls of
    [pktserv_send] and [pktserv_disconnect] that the handler logged; no handler
    looks at what those do, so that it is the same as making them at once.  The
    program starts, opens its ports and makes turns of the main loop, until it
    exits.  The kernel may do anything: which events [poll] reports, which
    connections come in, what arrives on them and what they take. *)

From Stdlib Require Import ZArith Lia String.
From S2P Require Import Config Prelude Utf8 StrUtil Wildmat NameList Lookup CLib Monad Dbm IcbDb PktBuffers SslSocket PktSocket PktServ TlsServ State Tables Send GroupCast World Access GroupChange GroupMod GroupStatus Lifecycle UserCmd Who Info Admin Auto Msgs Typing Streams Places Kept Moves Server Rooms Ports Options SslConf Boot.

Local Open Scope Z_scope.
Local Open Scope icb_monad_scope.

Section program.
Context `{BuildConfig} `{Host}.
#[local] Existing Instance icb_commands.
(** Whether memory is available. *)
Context (mem : bool).

(** What a handler asked of the packet server. *)
Definition perform (e : event) : M prog unit :=
  match e with
  | EvSend to pkt => _ <- net_send mem to (wire pkt) ;; ret tt
  | EvDisconnect fd => net_disconnect fd
  | EvOverread => ub
  | EvExit => ret tt
  end.

(** A call of the server; nothing happens once the program has ended. *)
Definition upcall {A} (m : M st A) : M prog (option A) :=
  u <- gets upper ;;
  if bool_decide (EvExit ∈ events u) then ret None
  else
    '(a, u') <- lift (m u) ;;
    modify (set_upper u') ;;
    for_each (drop (length (events u)) (events u')) perform ;;
    ret (Some a).

Definition callbacks : PktServ.callbacks (U := st) :=
  Callbacks
    (Some (_ <- upcall (s_didpoll 0) ;; ret tt))
    (Some (λ fd pkt, _ <- upcall (s_packet fd (until_nul pkt)) ;; ret tt))
    (Some (λ fd (is_ssl : bool), _ <- upcall (s_new_user fd (if is_ssl then 1 else 0)) ;; ret tt))
    (Some (λ fd, _ <- upcall (s_lost_user fd) ;; ret tt))
    (Some (λ fd, r <- upcall (ok2read fd) ;; ret (default false r))).

End program.

(** A connection that comes in is new, and its descriptor is one of [slot]. *)
Definition new_conn (slot : Z → Prop) (a : accept_slot) : Prop :=
  match a with AConn fd _ k => slot fd ∧ k_out k = [] | _ => True end.

Section live.
Context `{BuildConfig} `{Host} (slot : Z → Prop).

(** The states of the program and its [loopcount] between two turns of the
    main loop, when the descriptors it is given are those of [slot]. *)
Inductive live : prog → Z → Prop :=
| live_start mem sy acc now d o s :
    Forall (new_conn slot) acc → Forall slot (offered (sy_port sy) ++ offered (sy_sslport sy)) →
    main mem sy acc now d = Some (Serving o, s) → live s 0
| live_turn s n mem fuel pret eintr revs s' n' :
    live s n → EvExit ∉ events (upper s) →
    run_once mem (callbacks mem) fuel pret eintr revs n s = Some (Some (s', n')) → live s' n'
| live_clock s n now :
    live s n → EvExit ∉ events (upper s) → live (set_upper (set_clock now (upper s)) s) n.
End live.

(** ** The invariant *)

Section invariant.
Context `{BuildConfig} `{Host} (slot : Z → Prop) (R : st → Prop).
#[local] Existing Instance icb_commands.

(** An input that the program can pass to the server. *)
Definition permitted (i : input) : Prop := match i with Dispatch n _ => slot n | _ => True end.

Record pinv (s : prog) : Prop := {
  pi_len : length (cbufs s) = MAX_USERS;
  pi_poll : pollset_ok s;
  pi_slots : Forall (λ p, slot (p_fd p)) (g_pollset s);
  pi_acc : Forall (new_conn slot) (accepts s);
  pi_upper : R (upper s);
  pi_conns : Forall (λ ck, conn_ok ck.1 ck.2) (cbufs s)
}.

Definition pinv_at (fd : Z) (s : prog) : Prop := pinv s ∧ ∃ c k, at_fd s fd (c, k) ∧ active c k.

Hypothesis slot0 : slot 0.
Hypothesis R_typed : ∀ u, R u → well_typed u.
Hypothesis R_serve : ∀ i u u', R u → permitted i → EvExit ∉ events u → serve i u = Some (tt, u') → R u'.

Notation keeps P m := (yields P (λ _, True) m).

(** *** Connections *)

Lemma conn_inv fd (s s' : prog) ck : conn fd s = Some (ck, s') → s' = s ∧ at_fd s fd ck.
Proof.
  unfold conn, at_fd. destruct (Z.ltb_spec fd 0); [done|]. destruct (cbufs s !! _) eqn:E; [|done].
  by intros [= -> ->].
Qed.

Lemma at_conn_ok s fd c k : pinv s → at_fd s fd (c, k) → conn_ok c k.
Proof. intros Hs [_ Hl]. exact (Forall_lookup_1 _ _ _ _ (pi_conns _ Hs) Hl). Qed.

Lemma pinv_cbufs l s : pinv s → length l = MAX_USERS → Forall (λ ck, conn_ok ck.1 ck.2) l → pinv (set_cbufs l s).
Proof. intros [] Hl Hc. by split. Qed.

Lemma pinv_set fd c k s : pinv s → conn_ok c k → pinv (set_cbufs (<[Z.to_nat fd := (c, k)]> (cbufs s)) s).
Proof.
  intros Hs Hc. apply pinv_cbufs; [done|rewrite length_insert; apply Hs|]. apply Forall_insert; [apply Hs|done].
Qed.

Lemma ks_conn fd : yields pinv (λ ck, conn_ok ck.1 ck.2) (conn fd).
Proof. intros s [c k] s' Hs [-> Ha]%conn_inv. split; [done|]. by eapply at_conn_ok. Qed.

Lemma ks_set_conn fd c k : conn_ok c k → keeps pinv (set_conn fd (c, k)).
Proof. intros Hc. apply yields_modify; [|done]. intros s Hs. by apply pinv_set. Qed.

Lemma ks_upd_cbuf fd f : (∀ c k, conn_ok c k → conn_ok (f c) k) → keeps pinv (upd_cbuf fd f).
Proof. intros Hf. eapply yields_bind; [apply ks_conn|]. intros [c k] Hc. by apply ks_set_conn, Hf. Qed.

Lemma ka_conn fd : yields (pinv_at fd) (λ ck, active ck.1 ck.2) (conn fd).
Proof.
  intros s [c k] s' (Hs & c' & k' & Ha & Hc) [-> Ha']%conn_inv. split; [by split; eauto|].
  destruct Ha as [_ Ha], Ha' as [_ Ha']. rewrite Ha in Ha'. by injection Ha' as <- <-.
Qed.

Lemma ka_set_conn fd c k : active c k → keeps (pinv_at fd) (set_conn fd (c, k)).
Proof.
  intros Hc. apply yields_modify; [|done]. intros s (Hs & c' & k' & Ha & _).
  split; [by apply pinv_set, active_ok|]. exists c, k. split; [by eapply at_set|done].
Qed.

Lemma ka_upd_cbuf fd f : (∀ c k, active c k → active (f c) k) → keeps (pinv_at fd) (upd_cbuf fd f).
Proof. intros Hf. eapply yields_bind; [apply ka_conn|]. intros [c k] Hc. by apply ka_set_conn, Hf. Qed.

(** *** The poll set *)

Lemma ks_add_pollfd mem fd : slot fd → keeps pinv (add_pollfd mem fd).
Proof.
  intros Hfd s r s' Hs E. split; [|done].
  destruct (add_pollfd_ok mem s fd (pi_poll _ Hs)) as (r1 & s1 & E1 & Hok & Hcb & Hup & _).
  rewrite E1 in E. injection E as <- <-.
  assert (accepts s1 = accepts s ∧ Forall (λ p, slot (p_fd p)) (g_pollset s1)) as [Ea Hp].
  { assert (∀ i f l, (∀ p, slot (p_fd (f p))) ∨ (∀ p, p_fd (f p) = p_fd p) → Forall (λ p, slot (p_fd p)) l →
      Forall (λ p, slot (p_fd p)) (alter f i l)) as Halt.
    { intros i f l Hf Hl. apply Forall_alter; [done|]. intros p _ Hp. destruct Hf as [Hf|Hf]; [done|by rewrite Hf]. }
    assert (∀ n, Forall (λ p, slot (p_fd p)) (replicate n junk_pollfd)) as Hj by (intros n; by apply Forall_replicate).
    pose proof (pi_slots _ Hs) as Hsl. revert E1. unfold add_pollfd, set_events. destruct (poll_index s fd).
    - intros [= <- <-]. split; [done|]. apply Halt; [by right|done].
    - repeat case_match; intros [= <- <-]; (split; [done|]); cbn; try done;
        (apply Halt; [by right|]; apply Halt; [by left|]); simplify_eq; auto; by apply Forall_app_2. }
  split; [by rewrite Hcb; apply Hs|done|done|rewrite Ea; apply Hs|rewrite Hup; apply Hs|rewrite Hcb; apply Hs].
Qed.

Lemma ks_delete_pollfd fd : keeps pinv (delete_pollfd fd).
Proof.
  intros s r s' Hs E. split; [|done].
  destruct (delete_pollfd_ok s fd (pi_poll _ Hs)) as (s1 & E1 & Hok & Hcb & Hup & _).
  rewrite E1 in E. injection E as <- <-.
  assert (accepts s1 = accepts s ∧ Forall (λ p, slot (p_fd p)) (g_pollset s1)) as [Ea Hp].
  { pose proof (pi_slots _ Hs) as Hsl. revert E1. unfold delete_pollfd. destruct (poll_index s fd); intros [= <-]; [|done].
    split; [done|]. cbn. repeat apply Forall_app_2; auto using Forall_take, Forall_drop. }
  split; [by rewrite Hcb; apply Hs|done|done|rewrite Ea; apply Hs|rewrite Hup; apply Hs|rewrite Hcb; apply Hs].
Qed.

(** *** Calls of the server *)

(** All that a call can change of the packet server. *)
Definition called (s s' : prog) : Prop :=
  Forall2 evolves (cbufs s) (cbufs s') ∧ g_pollset s' = g_pollset s ∧ g_pollsetsize s' = g_pollsetsize s ∧ accepts s' = accepts s.

#[local] Instance called_pre : PreOrder called.
Proof.
  split; [done|]. intros s1 s2 s3 (H1 & E1 & F1 & G1) (H2 & E2 & F2 & G2).
  split_and!; [by transitivity (cbufs s2)|congruence..].
Qed.

Lemma called_set fd ck ck' s : at_fd s fd ck → evolves ck ck' → called s (set_cbufs (<[Z.to_nat fd := ck']> (cbufs s)) s).
Proof.
  intros [_ Hl] He. split_and!; try done. cbn. rewrite <-(list_insert_id (cbufs s) (Z.to_nat fd) ck) at 1 by done.
  by apply Forall2_insert.
Qed.

Lemma perform_called mem e s s' :
  event_ok e → perform mem e s = Some (tt, s') → called s s' ∧ upper s' = upper s.
Proof.
  destruct e as [to pkt|fd| |]; cbn [perform event_ok]; intros He; try (intros [= <-]; done).
  - unfold net_send, bind. destruct (conn to s) as [[[c k] s1]|] eqn:E; [|done]. apply conn_inv in E as [-> Ha].
    destruct (pktserv_send mem c k (wire pkt)) as [[[r c'] k']|] eqn:Es; cbn [lift]; [|done].
    intros [= <-]. split; [|done]. apply (called_set _ _ _ _ Ha). eapply evolves_send; [exact (proj2 He)|exact Es].
  - unfold net_disconnect, upd_cbuf, bind. destruct (conn fd s) as [[[c k] s1]|] eqn:E; [|done].
    apply conn_inv in E as [-> Ha]. intros [= <-]. split; [|done]. apply (called_set _ _ _ _ Ha), evolves_disconnect.
Qed.

Lemma performs_called mem es s s' :
  Forall event_ok es → for_each es (perform mem) s = Some (tt, s') → called s s' ∧ upper s' = upper s.
Proof.
  revert s. induction es as [|e es IH]; intros s He; cbn [for_each]; [by intros [= <-]|].
  apply Forall_cons in He as [He Hes]. unfold bind. destruct (perform mem e s) as [[[] s1]|] eqn:E; [|done].
  apply perform_called in E as [H1 E1]; [|done]. intros (H2 & E2)%IH; [|done]. split; [by etransitivity|congruence].
Qed.

Lemma called_pinv s s' : pinv s → called s s' → R (upper s') → pinv s'.
Proof.
  intros Hs (Hc & Ep & Es & Ea) Hu. split; [| | | |done|].
  - rewrite <-(Forall2_length _ _ _ Hc). apply Hs.
  - destruct (pi_poll _ Hs) as [H1 H2]. unfold pollset_ok, fds, PktServ.active in *. by rewrite Ep, Es.
  - rewrite Ep. apply Hs.
  - rewrite Ea. apply Hs.
  - pose proof (pi_conns _ Hs) as Hok. revert Hc Hok. induction 1 as [|x y l l' He _ IH]; [constructor|].
    intros [Hx Hl]%Forall_cons. apply Forall_cons. split; [|by apply IH]. destruct He as (_ & _ & _ & He). by apply He.
Qed.

Lemma called_at s s' fd c k : called s s' → at_fd s fd (c, k) → active c k → ∃ c' k', at_fd s' fd (c', k') ∧ active c' k'.
Proof.
  intros (Hc & _) [Hpos Hl] Ha. eapply Forall2_lookup_l in Hc as ([c' k'] & Hl' & He); [|done].
  exists c', k'. split; [done|]. by eapply evolves_active.
Qed.

Lemma upcall_called {A} mem i (m : M st A) s a s' :
  permitted i → (∀ u x u', m u = Some (x, u') → serve i u = Some (tt, u')) → R (upper s) →
  upcall mem m s = Some (a, s') → called s s' ∧ R (upper s').
Proof.
  intros Hi Hm Hu. unfold upcall, bind, gets. case_bool_decide as He; [by intros [= _ <-]|].
  unfold lift. destruct (m (upper s)) as [[x u']|] eqn:E; [|done]. cbn [modify].
  apply Hm in E. assert (R u') as Hu' by by eapply R_serve.
  destruct (for_each _ _ _) as [[[] s1]|] eqn:E1; [|done]. intros [= _ <-].
  apply performs_called in E1 as [H1 H2].
  - split; [|by rewrite H2]. destruct H1 as (? & ? & ? & ?). by split_and!.
  - apply Forall_drop. by apply wt_events, R_typed.
Qed.

Lemma ks_upcall {A} mem i (m : M st A) :
  permitted i → (∀ u x u', m u = Some (x, u') → serve i u = Some (tt, u')) → keeps pinv (upcall mem m).
Proof.
  intros Hi Hm s a s' Hs E. destruct (upcall_called _ _ _ _ _ _ Hi Hm (pi_upper _ Hs) E). split; [|done]. by eapply called_pinv.
Qed.

Lemma ka_upcall {A} mem i (m : M st A) fd :
  permitted i → (∀ u x u', m u = Some (x, u') → serve i u = Some (tt, u')) → keeps (pinv_at fd) (upcall mem m).
Proof.
  intros Hi Hm s a s' (Hs & c & k & Ha & Hc) E. destruct (upcall_called _ _ _ _ _ _ Hi Hm (pi_upper _ Hs) E).
  split; [|done]. split; [by eapply called_pinv|by eapply called_at].
Qed.

(** The calls that main.c registers, under either invariant. *)
Section registered.
Context (P : prog → Prop) (Hup : ∀ A mem i (m : M st A),
  permitted i → (∀ u x u', m u = Some (x, u') → serve i u = Some (tt, u')) → keeps P (upcall mem m)).

Lemma serve_runs {A} (m : M st A) : ∀ u x u', m u = Some (x, u') → (_ <- m ;; ret tt) u = Some (tt, u').
Proof. intros u x u' E. unfold bind. by rewrite E. Qed.

Lemma k_new_client mem fd (is_ssl : bool) : keeps P (_ <- upcall mem (s_new_user fd (if is_ssl then 1 else 0)) ;; ret tt).
Proof.
  eapply yields_bind; [|intros _ _; by apply yields_ret].
  by apply (Hup _ mem (NewClient fd (if is_ssl then 1 else 0))); [|intros u [] u'].
Qed.
Lemma k_lost_client mem fd : keeps P (_ <- upcall mem (s_lost_user fd) ;; ret tt).
Proof.
  eapply yields_bind; [|intros _ _; by apply yields_ret]. apply (Hup _ mem (LostClient fd)); [done|]. apply serve_runs.
Qed.
Lemma k_ok2read mem fd : keeps P (r <- upcall mem (ok2read fd) ;; ret (default false r)).
Proof.
  eapply yields_bind; [|intros ? _; by apply yields_ret]. apply (Hup _ mem (Ok2Read fd)); [done|]. apply serve_runs.
Qed.
Lemma k_dispatch mem fd pkt : slot fd → keeps P (_ <- upcall mem (s_packet fd (until_nul pkt)) ;; ret tt).
Proof.
  intros Hfd. eapply yields_bind; [|intros _ _; by apply yields_ret].
  by apply (Hup _ mem (Dispatch fd (until_nul pkt))); [|intros u [] u'].
Qed.
Lemma k_idle mem : keeps P (_ <- upcall mem (s_didpoll 0) ;; ret tt).
Proof.
  eapply yields_bind; [|intros _ _; by apply yields_ret]. by apply (Hup _ mem (Idle 0)); [|intros u [] u'].
Qed.
End registered.

(** *** The state machine *)

Lemma conn_ok_accept c k x c' k' :
  conn_ok c k → c_state c = WANT_SSL_ACCEPT → sslsocket_accept c k = (x, c', k') → conn_ok c' k'.
Proof.
  intros Hc Hst. assert (c_wlist c = [] ∧ k_out k = []) as [Hw Ho] by (split; apply Hc; rewrite Hst; by left).
  unfold sslsocket_accept, SSL_accept. intros E.
  assert (c_wlist c' = [] ∧ k_out k' = [] ∧ c_disp c' = c_disp c) as (Hw' & Ho' & Hd).
  { destruct (_ && _); [by injection E as _ <- <-|]. destruct (t_accept (k_tls k)) as [|[[]|] l]; injection E as _ <- <-; done. }
  split; [rewrite Hd; apply Hc|left; by apply framed_nil|done|done].
Qed.

Section machine.
Context (mem : bool) (fd : Z) (slot_fd : slot fd).

Lemma ka_do_read : keeps (pinv_at fd) (do_read mem fd).
Proof.
  eapply yields_bind; [apply ka_conn|]. intros [c k] Hc.
  eapply yields_bind; [apply (yields_lift _ (λ r, active r.1.2 r.2)); intros [[r c'] k'] E; by eapply active_read|].
  intros [[r c'] k'] Hc'. by apply ka_set_conn.
Qed.

Lemma ka_do_write : keeps (pinv_at fd) (do_write fd).
Proof.
  eapply yields_bind; [apply ka_conn|]. intros [c k] Hc.
  eapply yields_bind; [apply (yields_lift _ (λ r, active r.1.2 r.2)); intros [[r c'] k'] E; by eapply active_write|].
  intros [[r c'] k'] Hc'. by apply ka_set_conn.
Qed.

Lemma active_move c c' k :
  active c k → c_wlist c' = c_wlist c → c_disp c' = c_disp c ∨ c_disp c' = OK → ¬ silent (c_state c') → active c' k.
Proof.
  intros [Hd (ps & Hl & E) Hs] Hw Hd' Hs'. split; [destruct Hd' as [->| ->]; done| |done].
  exists ps. split; [done|]. rewrite <-E. unfold stream, pending. by rewrite Hw.
Qed.

Ltac not_silent := unfold silent; cbn; intuition discriminate.

Lemma ka_read_case readable : keeps (pinv_at fd) (read_case mem (callbacks mem) readable fd).
Proof.
  unfold read_case. eapply (yields_bind _ (λ _, True)).
  - apply yields_when; [|done]. intros _. cbn [cb_ok2read callbacks].
    eapply yields_bind; [apply k_ok2read; intros; by eapply ka_upcall|]. intros ok _.
    apply yields_when; [|done]. intros _. eapply yields_bind; [apply ka_do_read|]. intros _ _.
    eapply yields_bind; [apply ka_conn|]. intros [c k] Hc. cbn [cb_dispatch callbacks].
    destruct (c_state c); try by apply yields_ret.
    eapply yields_bind; [apply (yields_lift _ (λ _, True)); done|]. intros m _.
    eapply yields_bind; [apply k_dispatch; [intros; by eapply ka_upcall|done]|]. intros _ _.
    apply ka_upd_cbuf. intros c' k' Hc'. eapply active_move; [exact Hc'|done|by left|not_silent].
  - intros _ _. eapply yields_bind; [apply ka_conn|]. intros [c k] Hc. destruct (c_wlist c); [by apply yields_ret|].
    apply ka_upd_cbuf. intros c' k' Hc'. eapply active_move; [exact Hc'|done|by left|not_silent].
Qed.

(** What is kept of a connection that is not in use. *)
Lemma ks_handle_disconnect : keeps pinv (handle_disconnect fd).
Proof.
  apply ks_upd_cbuf. intros c k [Hd Hf Hs Ho]. split; cbn; [done|right; auto|done|]. intros [?|?]; discriminate.
Qed.

Lemma ks_accept : keeps pinv (pktsocket_accept mem fd).
Proof.
  unfold pktsocket_accept. eapply yields_bind; [apply ks_conn|]. intros [l kl] Hl.
  eapply yields_bind; [apply (yields_gets _ (Forall (new_conn slot))); intros s Hs; apply Hs|]. intros q Hq.
  eapply yields_bind.
  { apply (yields_modify _ (λ _, True)); [|done]. intros s []. split; try done. cbn. by destruct Hq. }
  intros _ _. assert (∀ d, d ≠ IGNORE → keeps pinv (upd_cbuf fd (set_disp d))) as Hdisp.
  { intros d Hd. apply ks_upd_cbuf. intros c k []. by split. }
  destruct q as [|[| |ns nb k] q]; try by (eapply yields_bind; [by apply Hdisp|]; intros _ _; by apply yields_ret).
  - by apply yields_ret.
  - apply Forall_cons in Hq as [[Hns Hk] _]. eapply yields_bind; [by apply Hdisp|]. intros _ _.
    destruct (Z.of_nat MAX_USERS <=? ns).
    { eapply yields_bind; [|intros _ _; by apply yields_ret].
      apply (yields_modify _ (λ _, True)); [|done]. intros s []. by split. }
    destruct (negb nb); [by apply yields_ret|]. eapply yields_bind; [apply ks_conn|]. intros _ _.
    eapply yields_bind; [apply ks_set_conn|].
    { split; cbn; [done|left; by apply framed_nil|done|done]. }
    intros _ _. eapply yields_bind; [by apply ks_add_pollfd|]. intros r _. by apply yields_ret.
Qed.

Lemma ks_raw_disconnect s c k s' u :
  pinv s → at_fd s fd (c, k) → c_state c = WANT_RAW_DISCONNECT → handle_raw_disconnect fd s = Some (u, s') → pinv s'.
Proof.
  intros Hs Ha Hst. pose proof (at_conn_ok _ _ _ _ Hs Ha) as Hc. assert (c_wlist c = []) as Hw by (apply Hc; rewrite Hst; right; by left).
  unfold handle_raw_disconnect, bind at 1. rewrite (conn_at _ _ _ Ha). unfold bind at 1. cbn [modify]. unfold bind at 1, set_conn, modify.
  set (c1 := set_ssl_con false c). set (s1 := set_cbufs _ _).
  assert (pinv s1) as Hs1.
  { apply (pinv_set fd c1 (k_close k) (set_closed (closed s ++ [c_fd c]) s)); [by destruct Hs; split|].
    split; cbn; [apply Hc|left; by apply framed_nil|done|done]. }
  assert (at_fd s1 fd (c1, k_close k)) as Ha1 by by eapply at_set.
  unfold bind. destruct (delete_pollfd (c_fd c) s1) as [[[] s2]|] eqn:E; [|done].
  pose proof (proj1 (ks_delete_pollfd _ _ _ _ Hs1 E)) as Hs2.
  destruct (delete_pollfd_ok s1 (c_fd c) (pi_poll _ Hs1)) as (s3 & E3 & _ & Hcb & _). rewrite E3 in E. injection E as <-.
  assert (at_fd s3 fd (c1, k_close k)) as Ha3 by (destruct Ha1 as [? ?]; split; [done|by rewrite Hcb]).
  rewrite (upd_cbuf_at _ _ _ _ _ Ha3). intros [= _ <-]. apply pinv_set; [done|].
  split; cbn; [apply Hc|left; by apply framed_nil|done|done].
Qed.

(** A connection whose state shows that it is in use. *)
Lemma pinv_active s c k : pinv s → at_fd s fd (c, k) → ¬ silent (c_state c) → c_state c ≠ WANT_DISCONNECT → pinv_at fd s.
Proof.
  intros Hs Ha Hst Hd. split; [done|]. exists c, k. split; [done|]. pose proof (at_conn_ok _ _ _ _ Hs Ha) as Hc.
  split; [apply Hc| |done]. apply conn_ok_framed; [done..|]. intros E. apply Hst. rewrite E. right. by left.
Qed.

(** One turn: what is kept of a connection in use, and of the others. *)
Lemma ka_upd_state x : ¬ silent x → keeps (pinv_at fd) (upd_cbuf fd (set_state x)).
Proof. intros Hx. apply ka_upd_cbuf. intros c k Hc. eapply active_move; [exact Hc|done|by left|done]. Qed.
Lemma ka_upd_disp : keeps (pinv_at fd) (upd_cbuf fd (set_disp OK)).
Proof. apply ka_upd_cbuf. intros c k Hc. eapply active_move; [exact Hc|done|by right|apply Hc]. Qed.

Lemma turn_active (m : M prog bool) s c k b s' :
  keeps (pinv_at fd) m → pinv s → at_fd s fd (c, k) → ¬ silent (c_state c) → c_state c ≠ WANT_DISCONNECT →
  m s = Some (b, s') → pinv s'.
Proof. intros Hm Hs Ha Hst Hd E. exact (proj1 (proj1 (Hm s b s' (pinv_active s c k Hs Ha Hst Hd) E))). Qed.

Lemma k_end {A B} P (m : M prog B) (a : A) : keeps P m → keeps P (_ <- m ;; ret a).
Proof. intros Hm. eapply yields_bind; [exact Hm|]. intros _ _. by apply yields_ret. Qed.
Lemma k_when P b (m : M prog unit) : keeps P m → keeps P (when b m).
Proof. intros Hm. by apply yields_when. Qed.

Lemma sm_step_pinv r w b s s' : pinv s → sm_step mem (callbacks mem) r w fd s = Some (b, s') → pinv s'.
Proof.
  intros Hs. unfold sm_step. unfold bind at 1. destruct (conn fd s) as [[[c k] s0]|] eqn:E; [|done].
  apply conn_inv in E as [-> Ha]. destruct (c_state c) eqn:Est.
  all: lazymatch type of Est with
    | _ = DISCONNECTED => idtac | _ = WANT_SSL_ACCEPT => idtac | _ = WANT_DISCONNECT => idtac
    | _ = WANT_RAW_DISCONNECT => idtac | _ = LISTEN_SOCKET => idtac | _ = LISTEN_SOCKET_SSL => idtac
    | _ => eapply (turn_active _ s c k _ _); [|done|exact Ha|rewrite Est; not_silent|by rewrite Est]
    end.
  - intros E. refine (proj1 (k_end pinv _ true _ s b s' Hs E)). apply ks_upd_cbuf. intros c' k' []. by split.
  - eapply yields_bind; [apply ka_upd_state; not_silent|]. intros _ _. apply k_end. cbn [call cb_new_client callbacks].
    apply k_new_client. intros. by eapply ka_upcall.
  - eapply yields_bind; [apply k_when, ka_upd_state; not_silent|]. intros _ _. apply k_end, ka_read_case.
  - unfold bind at 1. destruct (r || w); cbn [when]; [|by intros [= _ <-]]. unfold do_ssl_accept, bind.
    rewrite (conn_at _ _ _ Ha). destruct (sslsocket_accept c k) as [[x c'] k'] eqn:E. intros [= _ <-].
    apply pinv_set; [done|]. eapply conn_ok_accept, E; [by eapply at_conn_ok|done].
  - apply k_end, k_when, ka_do_read.
  - apply k_end, k_when, ka_do_write.
  - apply k_end, ka_read_case.
  - apply k_end, ka_read_case.
  - eapply yields_bind; [apply k_when, ka_do_write|]. intros _ _. eapply yields_bind; [apply ka_conn|]. intros [c' k'] _.
    apply k_end, k_when, ka_upd_disp.
  - cbn [call cb_lost_client callbacks]. unfold bind at 1. destruct ((_ <- upcall mem (s_lost_user fd) ;; ret tt) s) as [[[] s1]|] eqn:E1; [|done].
    apply (k_lost_client pinv) in E1 as [Hs1 _]; [|intros; by eapply ks_upcall|done].
    intros E. exact (proj1 (k_end pinv _ true ks_handle_disconnect s1 b s' Hs1 E)).
  - unfold bind. destruct (handle_raw_disconnect fd s) as [[u s1]|] eqn:E; [|done]. intros [= _ <-]. by eapply ks_raw_disconnect.
  - by apply yields_ret.
  - intros E. exact (proj1 (k_end pinv _ false ks_accept s b s' Hs E)).
  - intros E. exact (proj1 (k_end pinv _ false ks_accept s b s' Hs E)).
Qed.
End machine.

(** *** The main loop *)

Section loop.
Context (mem : bool).

Lemma sm_loop_pinv fuel r w fd s s' :
  slot fd → pinv s → sm_loop mem (callbacks mem) fuel r w fd s = Some (Some s') → pinv s'.
Proof.
  intros Hfd. revert s. induction fuel as [|fuel IH]; intros s Hs; cbn [sm_loop];
    destruct (conn fd s) as [[[c k] s1]|] eqn:E; try done; apply conn_inv in E as [-> _];
    case_bool_decide; try done; try (by intros [= <-]).
  destruct (sm_step mem (callbacks mem) r w fd s) as [[[] s1]|] eqn:E; [| |done].
  - apply IH. by eapply sm_step_pinv.
  - intros [= <-]. by eapply sm_step_pinv.
Qed.

Lemma pollfd_pinv fuel p s s' :
  slot (p_fd p) → pinv s → pollfd_state_machine mem (callbacks mem) fuel p s = Some (Some s') → pinv s'.
Proof.
  intros Hp Hs. unfold pollfd_state_machine. case_match; [by intros [= <-]|].
  assert (keeps pinv (upd_cbuf (p_fd p) (set_disp OK))) as Hd by (apply ks_upd_cbuf; intros c k []; by split).
  case_match.
  - match goal with |- context [match ?m s with _ => _ end] => assert (keeps pinv m) as Hm end.
    { eapply yields_bind; [apply ks_conn|]. intros [c k] _. eapply yields_bind.
      - case_bool_decide; [by apply (yields_ret _ (λ _, True))|]. apply k_lost_client. intros. by eapply ks_upcall.
      - intros _ _. apply ks_handle_disconnect. }
    match goal with |- context [match ?m s with _ => _ end] => destruct (m s) as [[[] s1]|] eqn:E end; [|done].
    intros [= <-]. exact (proj1 (Hm s _ s1 Hs E)).
  - destruct (when _ _ s) as [[[] s1]|] eqn:E; [|done]. apply sm_loop_pinv; [done|].
    exact (proj1 (k_when pinv _ _ Hd s _ s1 Hs E)).
Qed.

Lemma pollfds_pinv fuel n i s s' : pinv s → pollfds_loop mem (callbacks mem) fuel n i s = Some (Some s') → pinv s'.
Proof.
  revert i s. induction n as [|n IH]; intros i s Hs; cbn [pollfds_loop]; [by intros [= <-]|].
  destruct (g_pollset s !! i) as [p|] eqn:Ep; [|done].
  destruct (pollfd_state_machine _ _ _ _ _) as [[s1|]|] eqn:E; try done. apply IH. eapply pollfd_pinv, E; [|done].
  exact (Forall_lookup_1 _ _ _ _ (pi_slots _ Hs) Ep).
Qed.

Lemma ks_handle_idle : keeps pinv (handle_idle mem (callbacks mem)).
Proof.
  eapply yields_bind; [cbn [call cb_idle callbacks]; apply k_idle; intros; by eapply ks_upcall|]. intros _ _.
  apply yields_for_each. intros i _. eapply yields_bind; [apply ks_conn|]. intros [c k] Hc.
  rewrite bool_decide_false by apply Hc. by apply yields_ret.
Qed.

(** Only events change. *)
Lemma pinv_events s l :
  map p_fd l = map p_fd (g_pollset s) → pinv s → pinv (set_pollset l (g_pollsetsize s) s).
Proof.
  intros E Hs. pose proof Hs as [Hl [Hp1 Hp2] Hsl Ha Hu Hc].
  assert (length l = length (g_pollset s)) as El by (by rewrite <-(length_map p_fd l), E, length_map).
  split; try done; cbn.
  - split; [cbn; lia|]. unfold fds, PktServ.active in *. cbn. by rewrite <-firstn_map, E, firstn_map.
  - clear -E Hsl. revert l E. induction (g_pollset s) as [|p ps IH]; intros [|q l] E; try done; try by constructor.
    injection E as Eq E. apply Forall_cons in Hsl as [Hp Hsl]. constructor; [by rewrite Eq|by apply IH].
Qed.

Lemma run_once_pinv fuel pret eintr revs n s s' n' :
  pinv s → run_once mem (callbacks mem) fuel pret eintr revs n s = Some (Some (s', n')) → pinv s'.
Proof.
  intros Hs. unfold run_once. set (s1 := poll_fill revs (update_pollfd_events s)).
  assert (pinv s1) as Hs1.
  { apply pinv_events.
    - apply list_eq. intros i. rewrite !list_lookup_fmap, list_lookup_imap. by destruct (g_pollset (update_pollfd_events s) !! i).
    - apply pinv_events; [|done]. rewrite map_app, map_map, (map_ext _ p_fd).
      + by rewrite <-map_app, take_drop.
      + intros p. unfold update_entry. repeat case_match; done. }
  set (pret1 := if _ : bool then 0 else pret). destruct (0 <? pret1).
  - unfold handle_pollfds. destruct (pollfds_loop _ _ _ _ _ _) as [[s2|]|] eqn:E; try done. apply pollfds_pinv in E; [|done].
    case_match; [|by intros [= <- _]]. destruct (handle_idle _ _ s2) as [[u s3]|] eqn:E3; [|done].
    intros [= <- _]. exact (proj1 (ks_handle_idle _ _ _ E E3)).
  - case_match; [|by intros [= <- _]]. destruct (handle_idle _ _ s1) as [[u s3]|] eqn:E3; [|done].
    intros [= <- _]. exact (proj1 (ks_handle_idle _ _ _ Hs1 E3)).
Qed.
End loop.

End invariant.

(** *** The start *)

Section start.
Context `{BuildConfig} `{Host} (slot : Z → Prop).
Hypothesis slot0 : slot 0.

Definition all_framed (s : prog) : Prop := Forall (λ ck, framed ck.1 ck.2) (cbufs s).
(** Before the tables are made nothing is asked of them. *)
Definition opening (u : st) (s : prog) : Prop := pinv slot (λ u', u' = u) s ∧ all_framed s.

Notation keeps P m := (yields P (λ _, True) m).

Lemma ko_addport u mem fd is_ssl : slot fd → keeps (opening u) (addport_register mem fd is_ssl).
Proof.
  intros Hfd s r s' [Hs Hf]. unfold addport_register. case_match.
  { intros [= _ <-]. split; [|done]. split; [by destruct Hs; split|done]. }
  unfold bind at 1, upd_cbuf, bind. destruct (conn fd s) as [[[c k] s1]|] eqn:E; [|done]. apply conn_inv in E as [-> Ha].
  set (c' := Cbuf _ _ _ _ _ _ _ _ _ _ _). unfold set_conn, modify. set (s1 := set_cbufs _ s).
  assert (framed c' k) as Hf' by exact (Forall_lookup_1 _ _ _ _ Hf (proj2 Ha)).
  assert (opening u s1) as [Hs1 Hf1].
  { split; [|by apply Forall_insert]. apply pinv_set; [done|]. apply active_ok. split; [done|done|].
    unfold silent, c'. cbn. destruct is_ssl; intuition discriminate. }
  destruct (add_pollfd mem fd s1) as [[r1 s2]|] eqn:E2; [|done]. intros [= _ <-]. split; [|done].
  split; [exact (proj1 (ks_add_pollfd slot _ slot0 mem fd Hfd _ _ _ Hs1 E2))|].
  destruct (add_pollfd_ok mem s1 fd (pi_poll _ _ _ Hs1)) as (r3 & s3 & E3 & _ & Hcb & _). rewrite E3 in E2. injection E2 as _ <-.
  unfold all_framed. by rewrite Hcb.
Qed.

Lemma opening_closed u s l : opening u s → opening u (set_closed l s).
Proof. intros [[] Hf]. split; [by split|done]. Qed.

Lemma ko_pktserv_addport u mem e is_ssl :
  Forall slot (offered e) → keeps (opening u) (pktserv_addport mem e is_ssl).
Proof.
  intros Ho. unfold pktserv_addport, offered in *. destruct (pe_addrs e) as [l|]; [|by apply yields_ret].
  assert (∀ fd, keeps (opening u) (Ports.close fd)) as Hclose.
  { intros fd. apply yields_modify; [|done]. intros s. apply opening_closed. }
  eapply (yields_bind _ (λ r, ∀ fd, r = Some fd → slot fd)).
  - intros s r s' Hs. rewrite bound_socket_spec. pose proof (candidates_offered l) as Hc.
    destruct (span_failing (candidates l)) as [f w]. intros [= <- <-]. split; [by apply opening_closed|].
    intros fd Hw. destruct w as [w|]; [|done]. rewrite Forall_forall in Ho. apply Ho. by eapply Hc.
  - intros [fd|] Hfd; [|by apply yields_ret]. destruct (pe_nonblock e); cbn [negb].
    + destruct (pe_cloexec e); cbn [negb]; [|by apply yields_ret].
      eapply yields_bind; [by apply ko_addport, Hfd|]. intros r _. by apply yields_ret.
    + eapply yields_bind; [apply Hclose|]. intros _ _. by apply yields_ret.
Qed.

(** The steps of [main] before the tables are made never serve. *)
Notation unfit := (λ r, ∀ o : options, r ≠ Some (Serving o)).

Lemma ko_must_open u mem e is_ssl : Forall slot (offered e) → yields (opening u) unfit (must_open mem e is_ssl).
Proof.
  intros Ho. eapply yields_bind; [by apply ko_pktserv_addport|]. intros [r|] _; apply yields_ret; [by case_match|done].
Qed.

Lemma ko_open_ssl u mem sy : Forall slot (offered (sy_sslport sy)) → yields (opening u) unfit (open_ssl mem sy).
Proof.
  intros Ho. unfold open_ssl. destruct (init_ssl _ _ _) as [[r ?]|]; [|apply yields_ub].
  case_match; [by apply yields_ret|by apply ko_must_open].
Qed.

Lemma opening_first acc u : Forall (new_conn slot) acc → opening u (first_net acc u).
Proof.
  intros Ha. assert (∀ P : cbuf * kernel → Prop, P (cbuf_reset zero_cbuf, Kernel [] [] [] no_tls) →
    Forall P (cbufs (first_net acc u))) as Hall.
  { intros P HP. apply Forall_fmap. by apply Forall_replicate. }
  assert (framed (cbuf_reset zero_cbuf) (Kernel [] [] [] no_tls)) as Hf by by apply framed_nil.
  split; [|by apply Hall]. split; [|by split; [cbn; lia|constructor]|constructor|done|done|].
  - cbn. rewrite length_map. apply length_replicate.
  - apply Hall. split; [done|by left|done|done].
Qed.

(** When [main] serves, the ports were opened and the tables made. *)
Lemma main_serving mem sy acc now d o s :
  Forall (new_conn slot) acc → Forall slot (offered (sy_port sy) ++ offered (sy_sslport sy)) →
  main mem sy acc now d = Some (Serving o, s) →
  ∃ u s0 u', opening u s0 ∧ u = new_process now d (o_log_level o) ∧ startup u = Some (tt, u') ∧ s = set_upper u' s0.
Proof.
  intros Ha [Ho1 Ho2]%Forall_app. unfold main. destruct (sy_save sy); cbn [negb]; [|done].
  destruct (parse_args _ _) as [o'|]; [|done]. destruct (sy_limit sy); cbn [negb]; [|done].
  destruct (o_restart o' =? 0); cbn [negb]; [|done]. set (u := new_process now d (o_log_level o')).
  pose proof (opening_first acc u Ha) as Hs. unfold main_fresh. case_match; [done|]. unfold bind at 1.
  destruct (must_open mem (sy_port sy) false _) as [[r1 s1]|] eqn:E1; [|done].
  destruct (ko_must_open u mem _ _ Ho1 _ _ _ Hs E1) as [Hs1 Hr1]. destruct r1 as [e|]; [intros [= -> _]; by destruct (Hr1 o)|].
  unfold bind at 1. match goal with |- context [match ?m s1 with _ => _ end] => assert (yields (opening u) unfit m) as Hm end.
  { case_match; [by apply yields_ret|by apply ko_open_ssl]. }
  match goal with |- context [match ?m s1 with _ => _ end] => destruct (m s1) as [[r2 s2]|] eqn:E2 end; [|done].
  destruct (Hm _ _ _ Hs1 E2) as [Hs2 Hr2]. destruct r2 as [e|]; [intros [= -> _]; by destruct (Hr2 o)|].
  destruct ((o_fork o' =? 0) && sy_parent sy); [done|]. unfold bind, gets, lift. destruct (startup (upper s2)) as [[[] u']|] eqn:Eu; [|done].
  intros [= -> <-]. assert (upper s2 = u) as Hu by apply Hs2. rewrite Hu in Eu. exists u, s2, u'. split; [exact Hs2|]. split; [reflexivity|]. split; [exact Eu|reflexivity].
Qed.

Context (R : st → Prop).
Hypothesis R_typed : ∀ u, R u → well_typed u.
Hypothesis R_serve : ∀ i u u', R u → permitted slot i → EvExit ∉ events u → serve i u = Some (tt, u') → R u'.
Hypothesis R_start : ∀ now d level u, startup (new_process now d level) = Some (tt, u) → R u.
Hypothesis R_clock : ∀ u now, R u → EvExit ∉ events u → R (set_clock now u).

Lemma live_pinv s n : live slot s n → pinv slot R s.
Proof.
  induction 1 as [mem sy acc now d o s Ha Ho E|s n mem fuel pret eintr revs s' n' _ IH _ E|s n now _ IH He].
  - apply main_serving in E as (u & s0 & u' & [[P1 P2 P3 P4 _ P6] _] & -> & Hu & ->); [|exact Ha|exact Ho].
    split; [exact P1|exact P2|exact P3|exact P4| |exact P6]. eapply R_start. exact Hu.
  - by eapply run_once_pinv.
  - destruct IH. split; try done. by apply R_clock.
Qed.
End start.
Section theorems.
Context `{BuildConfig} `{Host}.
#[local] Existing Instance icb_commands.

Lemma reached_clock u now : reached u → EvExit ∉ events u → reached (set_clock now u).
Proof. intros Hu He. by apply (reached_serve (Clock now) u). Qed.

Lemma live_reached s n : live (λ _, True) s n → pinv (λ _, True) reached s.
Proof.
  apply live_pinv; [done|apply reached_typed| |apply reached_start|apply reached_clock].
  intros i u u' Hu _. by apply reached_serve.
Qed.

Lemma real_reached u : reached_real u → reached u.
Proof.
  induction 1 as [now d level u E|i u u' _ IH _ He E]; [by eapply reached_start|by eapply reached_serve].
Qed.

Lemma live_reached_real s n : live (λ fd, fd < MAX_REAL_USERS) s n → pinv (λ fd, fd < MAX_REAL_USERS) reached_real s.
Proof.
  apply live_pinv.
  - pose proof MAX_USERS_min. unfold MAX_REAL_USERS. lia.
  - intros u Hu. by apply reached_typed, real_reached.
  - intros i u u' Hu Hi He E. by eapply (real_serve i u).
  - apply real_start.
  - intros u now Hu He. by apply (real_serve (Clock now) u).
Qed.
End theorems.

(** ** What clients receive *)

(** The packets for a descriptor among the events. *)
Definition sends (fd : Z) (es : list event) : list cstring :=
  omap (λ e, match e with EvSend to pkt => if decide (to = fd) then Some pkt else None | _ => None end) es.

Section delivery.
Context `{BuildConfig} `{Host}.

Lemma perform_other mem e s s' fd ck :
  at_fd s fd ck → perform mem e s = Some (tt, s') → (∀ pkt, e ≠ EvSend fd pkt) → e ≠ EvDisconnect fd → at_fd s' fd ck.
Proof.
  intros [Hpos Hl]. assert (∀ to ck' (s0 : prog), at_fd s to ck' → to ≠ fd → ∀ x, at_fd (set_cbufs (<[Z.to_nat to := x]> (cbufs s)) s) fd ck) as Hset.
  { intros to ck' _ [Ht _] Hne x. split; [done|]. cbn. rewrite list_lookup_insert_ne by lia. done. }
  destruct e as [to pkt|d| |]; cbn [perform].
  - unfold net_send, bind. destruct (conn to s) as [[[c k] s1]|] eqn:E; [|done]. apply conn_inv in E as [-> Ha].
    destruct (pktserv_send _ _ _ _) as [[[r c'] k']|]; [|done]. intros [= <-] Hs _. eapply Hset; [done|exact Ha|]. intros ->. by apply (Hs pkt).
  - unfold net_disconnect, upd_cbuf, bind. destruct (conn d s) as [[[c k] s1]|] eqn:E; [|done]. apply conn_inv in E as [-> Ha].
    intros [= <-] _ Hd. eapply Hset; [done|exact Ha|]. intros ->. by apply Hd.
  - by intros [= <-].
  - by intros [= <-].
Qed.

Lemma perform_send mem fd pkt s s' c k :
  at_fd s fd (c, k) → perform mem (EvSend fd pkt) s = Some (tt, s') →
  ∃ r c' k', pktserv_send mem c k (wire pkt) = Some (r, c', k') ∧ at_fd s' fd (c', k').
Proof.
  intros Ha. cbn [perform]. unfold net_send, bind. rewrite (conn_at _ _ _ Ha).
  destruct (pktserv_send _ _ _ _) as [[[r c'] k']|]; [|done]. intros [= <-]. exists r, c', k'. split; [done|]. by eapply at_set.
Qed.

(** A client that is ready gets all that it is sent. *)
Lemma performs_deliver fd es s s' c k :
  at_fd s fd (c, k) → EvDisconnect fd ∉ es → ready (length (sends fd es)) c k →
  for_each es (perform true) s = Some (tt, s') →
  ∃ c' k', at_fd s' fd (c', k') ∧ stream c' k' = stream c k ++ concat (map wire (sends fd es)) ∧ ready 0 c' k'.
Proof.
  revert s c k. induction es as [|e es IH]; intros s c k Ha Hd Hr; cbn [for_each].
  { intros [= <-]. exists c, k. cbn. by rewrite app_nil_r. }
  apply not_elem_of_cons in Hd as [Hd1 Hd]. unfold bind. destruct (perform true e s) as [[[] s1]|] eqn:E; [|done].
  assert ((∃ pkt, e = EvSend fd pkt) ∨ ¬ (∃ pkt, e = EvSend fd pkt)) as [[pkt ->]|Hne].
  { destruct e as [to p| | |]; try (by right; intros []). destruct (decide (to = fd)) as [->|Hne]; [left; by exists p|].
    right. by intros [? [= ? _]]. }
  - unfold sends in Hr |- *. cbn [omap list_omap] in Hr |- *. rewrite decide_True in Hr |- * by done. cbn [length] in Hr. fold (sends fd es) in Hr |- *.
    destruct (perform_send _ _ _ _ _ _ _ Ha E) as (r & c1 & k1 & E1 & Ha1).
    destruct (send_ready _ c k (wire pkt) Hr) as (c2 & k2 & E2 & Hr2 & Es). rewrite E1 in E2. injection E2 as _ <- <-.
    intros (c' & k' & Ha' & Es' & Hr')%(IH _ _ _ Ha1 Hd Hr2). exists c', k'. split; [done|]. split; [|done].
    cbn [map concat]. by rewrite Es', Es, <-app_assoc.
  - assert (sends fd (e :: es) = sends fd es) as Eq.
    { unfold sends. cbn. destruct e as [to p| | |]; try done. case_decide; [|done]. subst to. exfalso. apply Hne. by exists p. }
    rewrite Eq in Hr |- *. apply IH; [|done|done]. eapply perform_other; [exact Ha|exact E| |done].
    intros p ->. apply Hne. by exists p.
Qed.
End delivery.

(** ** Main properties *)

(** C6: the program refines the server: whatever the kernel and the clients do,
    the tables are in a state that the server reaches by a sequence of its
    inputs, so that everything that is proved of those states holds in the
    program; and the packet server keeps one entry per descriptor. *)
Theorem program_refines_server `{BuildConfig} `{Host} (s : prog) n :
  live (λ _, True) s n → reached (upper s) ∧ pollset_ok s ∧ length (cbufs s) = MAX_USERS.
Proof. by intros []%live_reached. Qed.

(** The same for a kernel that hands out no descriptor for the slot of the
    resident user: then the groups are in order. *)
Theorem program_groups_orderly `{BuildConfig} `{Host} (s : prog) n :
  live (λ fd, fd < MAX_REAL_USERS) s n → reached_real (upper s) ∧ orderly MAX_REAL_USERS (places_of (upper s)).
Proof.
  intros [_ _ _ _ Hr _]%live_reached_real. split; [done|].
  destruct (reached_settled _ Hr) as [_ Hsteps]. eapply steps_orderly; [exact Hsteps|apply start_orderly].
Qed.

(** C7: whatever the kernel takes and whenever it blocks or fails, the bytes that
    were written on a connection followed by those in its queue are whole
    packets, each with its length byte, 1 to 254 bytes and a NUL; unless the
    connection is being closed and its queue was thrown away. *)
Theorem streams_are_packets `{BuildConfig} `{Host} (s : prog) n fd c k :
  live (λ _, True) s n → at_fd s fd (c, k) →
  framed c k ∨ leaving (c_state c) ∧ c_wlist c = [].
Proof. intros Hs%live_reached Ha. exact (co_framed _ _ (at_conn_ok _ _ _ _ _ _ Hs Ha)). Qed.

(** A call of the server delivers what the handler sent: the stream of a
    client that works and has room in its queue grows by exactly the packets
    that the handler logged for it, in order, and the tables are as the handler
    left them. *)
Theorem upcall_delivers `{BuildConfig} `{Host} {A} (m : M st A) (s s' : prog) fd c k r a u' es :
  at_fd s fd (c, k) → m (upper s) = Some (a, u') → events u' = events (upper s) ++ es →
  EvExit ∉ events (upper s) → EvDisconnect fd ∉ es → ready (length (sends fd es)) c k → Forall event_ok es →
  upcall true m s = Some (r, s') →
  r = Some a ∧ upper s' = u' ∧
  ∃ c' k', at_fd s' fd (c', k') ∧ stream c' k' = stream c k ++ concat (map wire (sends fd es)).
Proof.
  intros Ha Hm Hev He Hd Hr Hok. unfold upcall, bind, gets. rewrite bool_decide_false by done. unfold lift. rewrite Hm.
  cbn [modify]. rewrite Hev, drop_app_length. destruct (for_each _ _ _) as [[[] s1]|] eqn:E; [|done]. intros [= <- <-].
  assert (at_fd (set_upper u' s) fd (c, k)) as Ha' by exact Ha.
  destruct (performs_deliver fd es _ _ c k Ha' Hd Hr E) as (c' & k' & H1 & H2 & _).
  apply performs_called in E as [_ E]; [|done]. split_and!; [done|done|]. by exists c', k'.
Qed.

(** A list of turns: what [poll] returns and reports. *)
Fixpoint turns `{BuildConfig} `{Host} (l : list (Z * list Z)) (s : prog) (n : Z) : option (prog * Z) :=
  match l with
  | [] => Some (s, n)
  | (pret, revs) :: l =>
      if bool_decide (EvExit ∈ events (upper s)) then Some (s, n)
      else
        match run_once true (callbacks true) 9 pret false revs n s with
        | Some (Some (s', n')) => turns l s' n'
        | _ => None
        end
  end.

Lemma live_turns `{BuildConfig} `{Host} slot l s n s' n' :
  live slot s n → turns l s n = Some (s', n') → live slot s' n'.
Proof.
  revert s n. induction l as [|[pret revs] l IH]; intros s n Hs; cbn [turns]; [by intros [= <- <-]|].
  case_bool_decide; [by intros [= <- <-]|]. destruct (run_once _ _ _ _ _ _ _ _) as [[[s1 n1]|]|] eqn:E; try done.
  apply IH. by eapply live_turn.
Qed.

(** ** A run

    Two clients connect, log in to the same group, and one says hello. *)
#[local] Existing Instance demo_build.
#[local] Existing Instance demo_host.
#[local] Existing Instance icb_commands.

Definition typed_in (c : byte) (fields : list String.string) : list byte :=
  frame (c :: concat (map (λ f, str f ++ SEP) fields)).
Definition client (bs : list byte) : kernel := Kernel [Data bs] (replicate 20 (Accept 300)) [] no_tls.
Definition demo_accepts : list accept_slot :=
  [AConn 1 true (client (typed_in ICB_M_LOGIN ["amy"; "Amy"; "Lobby"; "login"]%string));
   AConn 2 true (client (typed_in ICB_M_LOGIN ["bob"; "Bob"; "Lobby"; "login"]%string ++ frame (ICB_M_OPEN :: str "hello")))].
Definition demo_turns : list (Z * list Z) :=
  [(1, [1]); (1, [0; 4]); (1, [0; 5]); (1, [1]); (1, [0; 0; 4]); (1, [0; 0; 5]); (1, [0;0;5])].
Definition demo_start : system :=
  System [str "icbd"; str "-f"] true true true (Some 5) (demo_port 3) demo_ssl (PortEnv None true true) false.
Definition demo_program : option (prog * Z) :=
  match main true demo_start demo_accepts 1000 demo_db with
  | Some (Serving _, s) => turns demo_turns s 0
  | _ => None
  end.

Definition hello : cstring := ICB_M_OPEN :: str "Bob" ++ SEP ++ str "hello".

(** What was written to a client ends with a packet. *)
Definition ends_with (fd : Z) (pkt : cstring) (r : option (prog * Z)) : bool :=
  match r with
  | Some (s, _) =>
      match conn fd s with
      | Some ((c, k), _) => bool_decide (drop (length (k_out k) - length (wire pkt)) (k_out k) = wire pkt)
      | None => false
      end
  | None => false
  end.

Example demo_hello_on_the_wire : ends_with 1 hello demo_program = true.
Proof. vm_compute. reflexivity. Qed.

Lemma demo_live s n : demo_program = Some (s, n) → live (λ fd, fd < MAX_REAL_USERS) s n.
Proof.
  unfold demo_program. destruct (main _ _ _ _ _) as [[[code|o|o] s0]|] eqn:E; [discriminate|discriminate| |discriminate]. apply live_turns.
  eapply live_start; [clear E|clear E|exact E].
  - repeat (apply Forall_cons; split; [by split|]). constructor.
  - apply Forall_singleton. done.
Qed.

Lemma live_any slot s n : live slot s n → live (λ _, True) s n.
Proof.
  induction 1 as [mem sy acc now d o s Ha Hp E|s n mem fuel pret eintr revs s' n' _ IH He E|s n now _ IH He].
  - eapply live_start; [| |exact E].
    + eapply Forall_impl; [exact Ha|]. intros [| |fd b k]; cbn; tauto.
    + eapply Forall_impl; [exact Hp|]. done.
  - by eapply live_turn.
  - by apply live_clock.
Qed.

(** The state at the end of the run. *)
Lemma demo_end : ∃ s n c k, live (λ fd, fd < MAX_REAL_USERS) s n ∧ at_fd s 1 (c, k) ∧
  drop (length (k_out k) - length (wire hello)) (k_out k) = wire hello ∧ ¬ leaving (c_state c).
Proof.
  pose proof demo_hello_on_the_wire as Ht. revert Ht.
  assert (match demo_program with Some (s, _) => match conn 1 s with
    | Some ((c, _), _) => bool_decide (c_state c = WANT_HEADER) | None => false end | None => false end = true) as Hst
    by (vm_compute; reflexivity).
  revert Hst. pose proof demo_live as Hlive. destruct demo_program as [[s n]|]; [|done]. unfold ends_with.
  destruct (conn 1 s) as [[[c k] s1]|] eqn:E; [|done]. intros Hst%bool_decide_eq_true Ht%bool_decide_eq_true.
  apply conn_inv in E as [_ Ha]. exists s, n, c, k. split; [by apply Hlive|]. split; [done|]. split; [done|].
  rewrite Hst. unfold leaving. intuition discriminate.
Qed.

Lemma program_refines_server_witness :
  ∃ s n, live (λ _, True) s n ∧ reached (upper s) ∧ pollset_ok s.
Proof.
  destruct demo_end as (s & n & c & k & Hl & _). apply live_any in Hl. exists s, n.
  destruct (program_refines_server s n Hl) as (H1 & H2 & _). done.
Defined.

Lemma program_groups_orderly_witness :
  ∃ s n, live (λ fd, fd < MAX_REAL_USERS) s n ∧ orderly MAX_REAL_USERS (places_of (upper s)).
Proof.
  destruct demo_end as (s & n & c & k & Hl & _). exists s, n. split; [exact Hl|]. exact (proj2 (program_groups_orderly s n Hl)).
Defined.

Lemma streams_are_packets_witness :
  ∃ s n c k, live (λ _, True) s n ∧ at_fd s 1 (c, k) ∧ framed c k ∧ k_out k ≠ [].
Proof.
  destruct demo_end as (s & n & c & k & Hl & Ha & Hd & Hn). apply live_any in Hl. exists s, n, c, k.
  split; [exact Hl|]. split; [exact Ha|]. split.
  - destruct (streams_are_packets s n 1 c k Hl Ha) as [Hf|[Hf _]]; [exact Hf|]. destruct (Hn Hf).
  - intros E. rewrite E in Hd. discriminate Hd.
Defined.

(** A new client, to be greeted. *)
Definition greeted : prog :=
  put_conn (first_net [] (new_process 1000 demo_db 0)) 1 (accepted_cbuf 1 LISTEN_SOCKET, client []).

Lemma upcall_delivers_witness :
  ∃ r s' c' k', upcall true (s_new_user 1 0) greeted = Some (r, s') ∧ at_fd s' 1 (c', k') ∧
    stream c' k' = wire (ICB_M_PROTO :: str "1" ++ SEP ++ str "localhost" ++ SEP ++ str "icbd").
Proof.
  destruct (upcall true (s_new_user 1 0) greeted) as [[r s']|] eqn:E; [|vm_compute in E; discriminate].
  destruct (upcall_delivers (s_new_user 1 0) greeted s' 1 (accepted_cbuf 1 LISTEN_SOCKET) (client []) r tt
    (set_events [EvSend 1 (ICB_M_PROTO :: str "1" ++ SEP ++ str "localhost" ++ SEP ++ str "icbd")] (new_process 1000 demo_db 0))
    [EvSend 1 (ICB_M_PROTO :: str "1" ++ SEP ++ str "localhost" ++ SEP ++ str "icbd")])
    as (_ & _ & c' & k' & Ha & Hs); [| | | | | | |exact E|].
  - split; [lia|reflexivity].
  - vm_compute. reflexivity.
  - reflexivity.
  - apply not_elem_of_nil.
  - by apply (bool_decide_unpack _).
  - split; [|reflexivity|reflexivity|vm_compute; lia|vm_compute; split; discriminate|by intros Hin%elem_of_replicate_inv].
    unfold leaving. cbn. intuition discriminate.
  - apply Forall_singleton. vm_compute. split; [split; [discriminate|reflexivity]|lia].
  - exists r, s', c', k'. split; [reflexivity|]. split; [exact Ha|exact Hs].
Defined.
