(* ===== verification/Delivery.v ===== *)
(** * An open message, from its packet to the streams of those who hear it

    The parts put together: the dispatcher, the group, the senders and the
    queues of the connections.  A packet with an open message of a user makes
    the stream of everybody who should hear it grow by exactly one packet, and
    leaves everything else of the connections alone. *)

From Stdlib Require Import ZArith Lia String.
From S2P Require Import Config Prelude Utf8 StrUtil NameList CLib Monad Dbm IcbDb PktBuffers SslSocket PktSocket PktServ TlsServ State Tables Send GroupCast World Access GroupChange GroupMod GroupStatus Lifecycle Msgs Streams Server Boot Program.

Local Open Scope Z_scope.
Local Open Scope icb_monad_scope.

(** ** In the tables *)

Section server.
Context `{BuildConfig} `{Host} `{Commands}.
Implicit Types s : st.

(** What the message of [u] in slot [n] sends, in the order of the table. *)
Definition open_events (n : Z) (u : user) (text : cstring) (s : st) : list event :=
  cast_log (λ i ui, if open_to n u i ui then open_log s (u_nickname u) i text else []) (u_tab s).

(** The sender's last packet came now, and it has left [fields[0]]. *)
Definition received (n : Z) (u : user) (s : st) : st :=
  set_fields_set (fields_set (glob s) `max` 1) (set_u_tab (entry_set n (set_u_t_recv (clock s) u) (u_tab s)) s).

Lemma cast_log_set ev n u u' tab :
  entry_at n tab = Some u → ev n u' = ev n u → cast_log ev (entry_set n u' tab) = cast_log ev tab.
Proof.
  intros Hu He. unfold cast_log. f_equal. apply list_fmap_ext. intros _ i _. destruct (decide (n = i)) as [<-|Hne].
  - rewrite entry_set_at by (by rewrite Hu). by rewrite Hu, He.
  - by rewrite entry_set_ne.
Qed.

Lemma count_set name n u u' tab :
  entry_at n tab = Some u → u_group u' = u_group u →
  count_users_in_group name (entry_set n u' tab) = count_users_in_group name tab.
Proof.
  intros [Hn Hl]%entry_at_lookup Hg. unfold count_users_in_group, entry_set. destruct name as [|c name]; [done|]. f_equal.
  destruct (Z.ltb_spec n 0); [lia|]. revert Hl. generalize (Z.to_nat n). clear Hn. induction tab as [|x tab IH]; intros i; [done|].
  destruct i as [|i]; cbn; [intros [= ->]; rewrite Hg; by destruct (strcaseeq _ _)|]. intros Hl. specialize (IH i Hl). cbn in IH. destruct (strcaseeq (u_group x) (c :: name)); cbn; [by f_equal|exact IH].
Qed.

Lemma open_events_received n u text s :
  entry_at n (u_tab s) = Some u → open_events n (set_u_t_recv (clock s) u) text (received n u s) = open_events n u text s.
Proof.
  intros Hu. unfold open_events. change (u_tab (received n u s)) with (entry_set n (set_u_t_recv (clock s) u) (u_tab s)).
  destruct u. erewrite cast_log_set; [reflexivity|exact Hu|reflexivity].
Qed.

Lemma openmsg_run n u g text s :
  arrays_sized s → entry_at n (u_tab s) = Some u → LOGIN_COMPLETE ≤ u_login u → u_awaymsg u = [] → streq (u_group u) (str "1") = false →
  entry_at (find_group (u_group u) (g_tab s)) (g_tab s) = Some g → carries n u g (u_tab s) = true →
  hush_lists_ok s (user_address u) (ucaseit (u_nickname u)) → no_sep text →
  openmsg n text s = Some (tt, log (open_events n u text s) (received n u s)).
Proof.
  intros Hs Hu Hl Ha Hg1 Hg Hc Hh Ht. unfold openmsg. erewrite bind_runs by (by apply user_at_run).
  destruct (Z.leb_spec LOGIN_COMPLETE (u_login u)); [|lia]. rewrite Ha. cbn [when is_empty negb].
  erewrite bind_runs by reflexivity. erewrite bind_runs by reflexivity.
  erewrite (bind_runs _ _ _ tt s).
  2:{ unfold spam_check. erewrite bind_runs by (by apply user_at_run). by rewrite Hg1. }
  erewrite bind_runs by (by apply upd_user_run).
  erewrite (bind_runs (split_m text) _ _ ([text], 1) (received n u s)).
  2:{ unfold split_m. change text with (join [text]) at 1. rewrite split_join; [done|by apply Forall_singleton|cbn; unfold MAX_FIELDS; lia]. }
  cbn [Z.eqb Pos.eqb when]. erewrite bind_runs by reflexivity. set (u' := set_u_t_recv (clock s) u).
  assert (entry_at n (u_tab (received n u s)) = Some u') as Hu' by (apply entry_set_at; by rewrite Hu).
  assert (arrays_sized (received n u s)) as Hs'.
  { destruct Hs. split; [cbn; by rewrite length_entry_set|done]. }
  rewrite (open_carried_run n u' g); [|done| |].
  - erewrite bind_runs; [reflexivity|]. rewrite (send_group_run n u'); [|done|done|].
    + do 3 f_equal. fold (open_events n u' text (received n u s)). apply open_events_received. exact Hu.
    + intros i ui. destruct (decide (n = i)) as [<-|Hne].
      * rewrite Hu'. intros [= <-]. destruct u. exact (Hh n _ Hu).
      * unfold received. cbn. rewrite entry_set_ne by done. destruct u. apply Hh.
  - destruct u. exact Hg.
  - revert Hc. unfold carries. cbn. rewrite (count_set _ n u); [|done|by destruct u]. destruct u. done.
Qed.

(** The users who hear it. *)
Definition hears_open (n : Z) (u : user) (s : st) (i : Z) : Prop :=
  ∃ ui, entry_at i (u_tab s) = Some ui ∧ (i ≠ n ∨ u_echoback u ≠ 0) ∧ casefold (u_group ui) = casefold (u_group u) ∧
    names_match (user_address u) (u_pub_s_hushed ui) = Some false ∧
    names_match (ucaseit (u_nickname u)) (u_pub_n_hushed ui) = Some false ∧
    u_login ui = LOGIN_COMPLETE ∧ reachable s i = true.

Definition open_packet (u : user) (text : cstring) : cstring := ICB_M_OPEN :: u_nickname u ++ SEP ++ text.

Lemma open_events_spec n u text s :
  fits (u_nickname u) 13 → fits text 241 →
  NoDup (open_events n u text s) ∧
  ∀ e, e ∈ open_events n u text s ↔ ∃ i, e = EvSend i (open_packet u text) ∧ hears_open n u s i.
Proof.
  intros Hn Ht. unfold open_events.
  assert (∀ i, open_log s (u_nickname u) i text = if reachable s i then [EvSend i (open_packet u text)] else []) as Hlog.
  { intros i. by rewrite open_log_fits. }
  split.
  - apply cast_log_nodup with (pkt := open_packet u text). intros i ui. case_if; [|by left]. rewrite Hlog. destruct (reachable s i); auto.
  - intros e. rewrite elem_cast_log. split.
    + intros (i & ui & _ & Hui & He). destruct (open_to n u i ui) eqn:E; [|by apply not_elem_of_nil in He].
      rewrite Hlog in He. destruct (reachable s i) eqn:Er; [|by apply not_elem_of_nil in He].
      apply list_elem_of_singleton in He as ->. exists i. split; [done|]. exists ui. split; [done|]. revert E. unfold open_to.
      rewrite !andb_true_iff, orb_true_iff, !negb_true_iff, !Z.eqb_neq, !bool_decide_eq_true, strcaseeq_casefold, Z.eqb_eq. naive_solver.
    + intros (i & -> & ui & Hui & H1' & H2' & H3' & H4' & H5' & Hr). exists i, ui. split; [by eapply reachable_range|]. split; [done|].
      assert (open_to n u i ui = true) as ->; [|rewrite Hlog, Hr; by apply list_elem_of_singleton]. unfold open_to.
      rewrite !andb_true_iff, orb_true_iff, !negb_true_iff, !Z.eqb_neq, !bool_decide_eq_true, strcaseeq_casefold, Z.eqb_eq. naive_solver.
Qed.
End server.

(** ** In the packet server *)

Section queues.
Context `{BuildConfig} `{Host}.

Definition in_reach (pkt : cstring) (s : prog) (e : event) : Prop :=
  ∃ i c k, e = EvSend i pkt ∧ at_fd s i (c, k) ∧ ready 1 c k.

Lemma perform_sent pkt (s : prog) i c k r c1 k1 :
  at_fd s i (c, k) → pktserv_send true c k (wire pkt) = Some (r, c1, k1) →
  perform true (EvSend i pkt) s = Some (tt, set_cbufs (<[Z.to_nat i := (c1, k1)]> (cbufs s)) s).
Proof. intros Ha E. cbn [perform]. unfold net_send, bind. rewrite (conn_at _ _ _ Ha), E. done. Qed.

(** Sending a packet once to each of some clients that can take it. *)
Lemma performs_all pkt es (s : prog) :
  NoDup es → Forall (in_reach pkt s) es →
  ∃ s', for_each es (perform true) s = Some (tt, s') ∧ upper s' = upper s ∧
    ∀ fd c k, at_fd s fd (c, k) → ∃ c' k', at_fd s' fd (c', k') ∧
      (EvSend fd pkt ∈ es → stream c' k' = stream c k ++ wire pkt) ∧ (EvSend fd pkt ∉ es → c' = c ∧ k' = k).
Proof.
  revert s. induction es as [|e es IH]; intros s Hnd Hes; cbn [for_each].
  { exists s. split; [done|]. split; [done|]. intros fd c k Ha. exists c, k. split; [done|]. split; [by intros ?%not_elem_of_nil|done]. }
  apply NoDup_cons in Hnd as [He Hnd]. apply Forall_cons in Hes as [(i & c & k & -> & Ha & Hr) Hes].
  destruct (send_ready 0 c k (wire pkt) Hr) as (c1 & k1 & E & _ & Hst).
  erewrite bind_runs by (by eapply perform_sent). set (s1 := set_cbufs _ s).
  assert (∀ fd ck, fd ≠ i → at_fd s fd ck → at_fd s1 fd ck) as Hother.
  { intros fd ck Hne [Hf Hl]. split; [done|]. destruct Ha as [Hi _]. cbn. rewrite list_lookup_insert_ne by lia. done. }
  destruct (IH s1 Hnd) as (s' & E' & Hu & Hall).
  { rewrite Forall_forall in Hes |- *. intros e Hin. destruct (Hes e Hin) as (j & cj & kj & -> & Hj & Hrj).
    exists j, cj, kj. split; [done|]. split; [|done]. apply Hother; [|done]. by intros ->. }
  exists s'. split; [exact E'|]. split; [exact Hu|]. intros fd cf kf Hf. destruct (decide (fd = i)) as [->|Hne].
  - destruct (Hall i c1 k1) as (c' & k' & Ha' & _ & H2); [by eapply at_set|]. destruct (H2 He) as [-> ->].
    exists c1, k1. destruct Ha as [_ Hl], Hf as [_ Hlf]. rewrite Hl in Hlf. injection Hlf as <- <-.
    split; [done|]. split; [done|]. intros Hn. destruct Hn. by left.
  - destruct (Hall fd cf kf (Hother _ _ Hne Hf)) as (c' & k' & Ha' & H1 & H2). exists c', k'. split; [done|].
    split; [intros [[= ->]|Hin]%elem_of_cons; [done|by apply H1]|]. intros [_ Hn]%not_elem_of_cons. by apply H2.
Qed.
End queues.

(** ** Main property *)

(** A packet of a client, with or without the NUL at its end. *)
Definition packet_of (text : cstring) (nul : bool) : list byte := frame (ICB_M_OPEN :: text ++ (if nul then [x00] else [])).

Lemma packet_text text nul :
  x00 ∉ text → (length text < 241)%nat →
  until_nul (packet_of text nul) = to_uchar (Z.of_nat (S (length (text ++ if nul then [x00] else [])))) :: ICB_M_OPEN :: text.
Proof.
  intros Ht Hl. unfold packet_of, frame. set (n := S _). cbn [until_nul].
  assert (Byte.eqb (to_uchar (Z.of_nat n)) x00 = false) as E.
  { destruct (Byte.eqb _ _) eqn:E; [|done]. apply Byte.byte_dec_bl in E. apply (f_equal uchar) in E.
    rewrite uchar_to_uchar in E. change (uchar x00) with 0 in E. subst n. rewrite length_app in E.
    rewrite Z.mod_small in E by (destruct nul; cbn in *; lia). lia. }
  change (length (ICB_M_OPEN :: text ++ if nul then [x00] else [])) with n. rewrite E. f_equal.
  change (Byte.eqb ICB_M_OPEN x00) with false. cbv iota. f_equal. clear -Ht. induction text as [|b text IH]; [by destruct nul|].
  apply not_elem_of_cons in Ht as [Hb Ht]. cbn. destruct (Byte.eqb b x00) eqn:E; [apply Byte.byte_dec_bl in E; congruence|].
  by rewrite IH.
Qed.

(** What is asked of the sender, the group and those who hear it. *)
Record may_speak `{BuildConfig} `{Host} (n : Z) (u : user) (text : cstring) (t : st) : Prop := {
  ms_sized : arrays_sized t;
  ms_running : EvExit ∉ events t;
  ms_user : entry_at n (u_tab t) = Some u;
  ms_login : LOGIN_COMPLETE ≤ u_login u;
  ms_here : u_awaymsg u = [];
  ms_group1 : streq (u_group u) (str "1") = false;
  ms_carried : ∃ g, entry_at (find_group (u_group u) (g_tab t)) (g_tab t) = Some g ∧ carries n u g (u_tab t) = true;
  ms_hushed : hush_lists_ok t (user_address u) (ucaseit (u_nickname u));
  ms_nickname : fits (u_nickname u) 13;
  ms_text : fits text 241 ∧ no_sep text ∧ x00 ∉ text
}.

(** The dispatch of the packet. *)
Lemma dispatch_delivers `{BuildConfig} `{Host} n u text nul (s : prog) :
  may_speak n u text (upper s) →
  (∀ i, hears_open n u (upper s) i → ∃ c k, at_fd s i (c, k) ∧ ready 1 c k) →
  ∃ s' es, upcall true (@s_packet _ _ icb_commands n (until_nul (packet_of text nul))) s = Some (Some tt, s') ∧
    upper s' = log es (received n u (upper s)) ∧
    ∀ fd c k, at_fd s fd (c, k) → ∃ c' k', at_fd s' fd (c', k') ∧
      (hears_open n u (upper s) fd → stream c' k' = stream c k ++ wire (open_packet u text)) ∧
      (¬ hears_open n u (upper s) fd → c' = c ∧ k' = k).
Proof.
  intros [Hs He Hu Hl Ha Hg1 (g & Hg & Hc) Hh Hn (Ht & Hsep & Hnul)] Hready. set (t := upper s) in *.
  destruct (open_events_spec n u text t Hn Ht) as [Hnd Hes]. set (es := open_events n u text t) in *.
  assert (@s_packet _ _ icb_commands n (until_nul (packet_of text nul)) t = Some (tt, log es (received n u t))) as Hrun.
  { rewrite packet_text by (done || apply Ht). cbn [s_packet tail]. by apply (openmsg_run n u g). }
  destruct (performs_all (open_packet u text) es (set_upper (log es (received n u t)) s)) as (s' & E & Hup & Hall).
  - done.
  - apply Forall_forall. intros e (i & -> & Hi)%Hes. destruct (Hready i Hi) as (c & k & Hck & Hr). by exists i, c, k.
  - exists s', es. split; [|split; [exact Hup|]].
    + unfold upcall, bind, gets. fold t. rewrite bool_decide_false by done. unfold lift. rewrite Hrun. cbn [modify].
      change (events (log es (received n u t))) with (events t ++ es). rewrite drop_app_length, E. done.
    + intros fd c k Hck. destruct (Hall fd c k Hck) as (c' & k' & Ha' & H1 & H2). exists c', k'. split; [done|]. split.
      * intros Hi. apply H1, Hes. by exists fd.
      * intros Hi. apply H2. intros (i & [= <-] & Hx)%Hes. done.
Qed.

(** *** The read *)

(** A packet that comes whole is read whole. *)
Lemma read_whole c k p l :
  c_is_ssl c = false → c_state c = WANT_HEADER → body_ok p → k_in k = Data (frame p) :: l →
  ∃ x m, m_done m = frame p ∧
    pktsocket_read true c k =
      Some (0, set_state COMPLETE_PACKET (set_rbuf (Some m) (set_newmsg false (set_rbuf x c))), Kernel l (k_wr k) (k_out k) (k_tls k)).
Proof.
  intros Hc Hst Hp Hk. unfold pktsocket_read. rewrite decide_True by done. unfold read_header.
  destruct (msgbuf_alloc_true (c_rbuf c) (Z.of_nat MAX_PKT_LEN)) as [m0 ->]. rewrite sock_read_clear by done.
  assert (1 ≤ length p ≤ 254)%nat as Hl by exact Hp. assert (p ≠ []) as Hne by (intros ->; cbn in Hl; lia). pose proof (frame_head p Hp) as Hb.
  unfold frame in *. set (b0 := to_uchar (Z.of_nat (length p))) in *. unfold k_read at 1. rewrite Hk. cbn [take drop].
  rewrite decide_False by exact Hne. cbv zeta. rewrite Hb.
  destruct (Z.ltb_spec (Z.of_nat MAX_PKT_LEN - 1) (Z.of_nat (length p) + 1)) as [Hbig|_]; [unfold MAX_PKT_LEN in Hbig; lia|].
  unfold read_body. cbn [c_rbuf set_newmsg set_rbuf m_len m_done length]. rewrite sock_read_clear by done.
  replace (Z.to_nat (Z.of_nat (length p) + 1) - 1)%nat with (length p) by lia.
  unfold k_read. cbn [k_in]. destruct (length p) as [|n] eqn:El; [lia|]. rewrite <-El, firstn_all, drop_all.
  rewrite decide_True by done. destruct p as [|b p]; [done|]. cbn [drop app]. rewrite Nat.sub_diag.
  eexists (Some _), _. split; [|reflexivity]. done.
Qed.

(** The callback that asks whether to read changes nothing. *)
Lemma upcall_quiet {A} (m : M st A) a (s : prog) :
  EvExit ∉ events (upper s) → m (upper s) = Some (a, upper s) → upcall true m s = Some (Some a, s).
Proof.
  intros He Hm. unfold upcall, bind, gets. rewrite bool_decide_false by done. unfold lift. rewrite Hm. cbn [modify].
  rewrite drop_all. cbn [for_each ret]. by destruct s.
Qed.

Lemma body_ok_open text (nul : bool) : (length text < 241)%nat → body_ok (ICB_M_OPEN :: text ++ (if nul then [x00] else [])).
Proof. intros Hl. unfold body_ok. change MAX_PKT_DATA with 254%nat. cbn. rewrite length_app. destruct nul; cbn; lia. Qed.

(** Changes of the buffer and the state that matter to nobody else. *)
Definition only_reading (c c' : cbuf) : Prop :=
  c_wlist c' = c_wlist c ∧ c_wlist_size c' = c_wlist_size c ∧ c_retries c' = c_retries c ∧ c_is_ssl c' = c_is_ssl c.

Lemma only_reading_ready q c k c' k' :
  only_reading c c' → ¬ leaving (c_state c') → k_wr k' = k_wr k → ready q c k → ready q c' k'.
Proof. intros (E1 & E2 & E3 & E4) Hs Ek []. by split; rewrite ?E1, ?E2, ?E3, ?E4, ?Ek. Qed.

Lemma only_reading_stream c k c' k' : c_wlist c' = c_wlist c → k_out k' = k_out k → stream c' k' = stream c k.
Proof. intros E1 E2. unfold stream, pending. by rewrite E1, E2. Qed.

(** What a step leaves of the streams. *)
Definition streams_same (s s' : prog) : Prop :=
  ∀ fd c k, at_fd s fd (c, k) → ∃ c' k', at_fd s' fd (c', k') ∧ stream c' k' = stream c k.

#[local] Instance streams_same_pre : PreOrder streams_same.
Proof.
  split; [by intros s fd c k Ha; exists c, k|]. intros s1 s2 s3 Hs1 Hs2 fd c k (c1 & k1 & Ha & E1)%Hs1.
  destruct (Hs2 _ _ _ Ha) as (c2 & k2 & Ha2 & E2). exists c2, k2. split; [done|congruence].
Qed.

Lemma streams_same_set (s : prog) fd c k c' k' :
  at_fd s fd (c, k) → c_wlist c' = c_wlist c → k_out k' = k_out k →
  streams_same s (set_cbufs (<[Z.to_nat fd := (c', k')]> (cbufs s)) s).
Proof.
  intros Ha Hw Ho i ci ki [Hi Hl]. destruct (decide (i = fd)) as [->|Hne].
  - exists c', k'. split; [by eapply at_set|]. destruct Ha as [_ Ha]. rewrite Ha in Hl. injection Hl as <- <-. by apply only_reading_stream.
  - exists ci, ki. split; [|done]. split; [done|]. destruct Ha as [Hf _]. cbn. rewrite list_lookup_insert_ne by lia. done.
Qed.

(** *** The end of the turn *)
Lemma read_case_end (s : prog) fd c k :
  at_fd s fd (c, k) →
  ∃ s', ('(c, _) <- conn fd ;; match c_wlist c with [] => ret tt | _ => upd_cbuf fd (set_state WANT_WRITE) end : M prog unit) s = Some (tt, s') ∧
    upper s' = upper s ∧ streams_same s s'.
Proof.
  intros Ha. unfold bind. rewrite (conn_at _ _ _ Ha). destruct (c_wlist c) eqn:Ew; [by exists s|].
  rewrite (upd_cbuf_at _ _ _ _ _ Ha). eexists. split; [reflexivity|]. split; [done|]. by eapply streams_same_set.
Qed.

(** The state with the packet read. *)
Lemma turn_reads (s : prog) n c k p l :
  at_fd s n (c, k) → c_is_ssl c = false → c_state c = WANT_HEADER → body_ok p → k_in k = Data (frame p) :: l →
  ∃ s1 c1 k1 m, do_read true n s = Some (tt, s1) ∧ at_fd s1 n (c1, k1) ∧ c_state c1 = COMPLETE_PACKET ∧ c_rbuf c1 = Some m ∧
    m_done m = frame p ∧ upper s1 = upper s ∧ streams_same s s1 ∧
    (∀ i ci ki q, at_fd s i (ci, ki) → ready q ci ki → ∃ c' k', at_fd s1 i (c', k') ∧ ready q c' k').
Proof.
  intros Ha Hc Hst Hp Hk. destruct (read_whole c k p l Hc Hst Hp Hk) as (x & m & Hm & E).
  unfold do_read, bind. rewrite (conn_at _ _ _ Ha). unfold lift. rewrite E. unfold set_conn, modify.
  set (c1 := set_state COMPLETE_PACKET _). set (k1 := Kernel l _ _ _). eexists _, c1, k1, m.
  split; [reflexivity|]. split; [by eapply at_set|]. split_and!; try done; [by eapply streams_same_set|].
  intros i ci ki q Hi Hr. destruct (decide (i = n)) as [->|Hne].
  - exists c1, k1. split; [by eapply at_set|]. destruct Ha as [_ Ha], Hi as [_ Hi]. rewrite Ha in Hi. injection Hi as <- <-.
    eapply only_reading_ready, Hr; [done| |done]. unfold leaving, c1. cbn. intuition discriminate.
  - exists ci, ki. split; [|done]. destruct Hi as [Hi Hl], Ha as [Hn _]. split; [done|]. cbn. rewrite list_lookup_insert_ne by lia. done.
Qed.

(** The case of the state machine that reads. *)
Lemma read_case_speaks `{BuildConfig} `{Host} n u text nul (s : prog) c k l :
  may_speak n u text (upper s) → ok2read n (upper s) = Some (true, upper s) →
  (∀ i, hears_open n u (upper s) i → ∃ c k, at_fd s i (c, k) ∧ ready 1 c k) →
  at_fd s n (c, k) → c_is_ssl c = false → c_state c = WANT_HEADER → k_in k = Data (packet_of text nul) :: l →
  ∃ s' es, read_case true (callbacks true) true n s = Some (tt, s') ∧ upper s' = log es (received n u (upper s)) ∧
    ∀ fd c k, at_fd s fd (c, k) → ∃ c' k', at_fd s' fd (c', k') ∧
      (hears_open n u (upper s) fd → stream c' k' = stream c k ++ wire (open_packet u text)) ∧
      (¬ hears_open n u (upper s) fd → stream c' k' = stream c k).
Proof.
  intros Hm Hok Hready Ha Hc Hst Hk. pose proof (ms_text _ _ _ _ Hm) as (Ht & _ & _).
  destruct (turn_reads s n c k _ l Ha Hc Hst (body_ok_open text nul (proj2 Ht)) Hk)
    as (s1 & c1 & k1 & m & E1 & Ha1 & Hst1 & Hrb & Hmd & Hu1 & Hss1 & Hr1).
  destruct (dispatch_delivers n u text nul s1) as (s2 & es & E2 & Hu2 & Hall); [by rewrite Hu1| |].
  { intros i Hi. rewrite Hu1 in Hi. destruct (Hready i Hi) as (ci & ki & Hci & Hri). by eapply Hr1. }
  rewrite Hu1 in Hu2, Hall. destruct (Hall n c1 k1 Ha1) as (c2 & k2 & Ha2 & _).
  set (s3 := set_cbufs (<[Z.to_nat n := (set_state WANT_HEADER (set_rbuf None c2), k2)]> (cbufs s2)) s2).
  assert (at_fd s3 n (set_state WANT_HEADER (set_rbuf None c2), k2)) as Ha3 by (by eapply at_set).
  destruct (read_case_end s3 n _ _ Ha3) as (s4 & E4 & Hu4 & Hss4).
  exists s4, es. split; [|split; [by rewrite Hu4|]].
  - unfold read_case. cbn [cb_ok2read cb_dispatch callbacks when]. erewrite bind_runs; [exact E4|].
    erewrite bind_runs by (erewrite bind_runs by (apply upcall_quiet; [apply Hm|exact Hok]); reflexivity). cbn [when default id].
    erewrite bind_runs by exact E1. erewrite bind_runs by exact (conn_at _ _ _ Ha1). cbv beta iota. rewrite Hst1, Hrb.
    erewrite bind_runs by reflexivity. rewrite Hmd. erewrite bind_runs by (erewrite bind_runs by exact E2; reflexivity).
    by rewrite (upd_cbuf_at _ _ _ _ _ Ha2).
  - intros fd cf kf Hf. destruct (Hss1 fd cf kf Hf) as (cf1 & kf1 & Hf1 & Ef1). destruct (Hall fd cf1 kf1 Hf1) as (cf2 & kf2 & Hf2 & H1 & H2).
    assert (streams_same s2 s4) as Hss by (transitivity s3; [by eapply streams_same_set|done]).
    destruct (Hss fd cf2 kf2 Hf2) as (cf4 & kf4 & Hf4 & Ef4). exists cf4, kf4. split; [done|]. rewrite Ef4, <-Ef1. split; [done|].
    intros Hn. by destruct (H2 Hn) as [-> ->].
Qed.

(** ** Main property *)

(** The event that [poll] reports when a client sent something. *)
Definition readable_at (n events : Z) : pollfd := Pollfd n events POLLIN.

(** C1: an open message, end to end.  A client in clear text that is logged in and
    not away, in a group that carries its messages (and is not the one against
    spam), sends the packet; [poll] reports it; then the turn of the state machine completes, and
    the stream of every member of the group who should hear it (logged in,
    connected, having hushed neither the address nor the nickname; the sender
    with echoback only) has grown by exactly one packet with the sender's
    nickname and the text, provided that the members' connections work and have
    room.  The stream of everybody else is as it was, and in the tables only the
    time of the sender's last packet has changed. *)
Theorem open_message_end_to_end `{BuildConfig} `{Host} fuel n u text nul (s : prog) c k l ev :
  may_speak n u text (upper s) → ok2read n (upper s) = Some (true, upper s) →
  (∀ i, hears_open n u (upper s) i → ∃ c k, at_fd s i (c, k) ∧ ready 1 c k) →
  n < Z.of_nat MAX_USERS → at_fd s n (c, k) → c_is_ssl c = false → c_state c = WANT_HEADER →
  k_in k = Data (packet_of text nul) :: l →
  ∃ s' es, pollfd_state_machine true (callbacks true) (S fuel) (readable_at n ev) s = Some (Some s') ∧
    upper s' = log es (received n u (upper s)) ∧
    ∀ fd c k, at_fd s fd (c, k) → ∃ c' k', at_fd s' fd (c', k') ∧
      (hears_open n u (upper s) fd → stream c' k' = stream c k ++ wire (open_packet u text)) ∧
      (¬ hears_open n u (upper s) fd → stream c' k' = stream c k).
Proof.
  intros Hm Hok Hready Hn Ha Hc Hst Hk. unfold pollfd_state_machine. cbn [readable_at p_fd p_revents].
  destruct (Z.leb_spec (Z.of_nat MAX_USERS) n); [lia|]. change (has_bit POLLIN POLLERR || has_bit POLLIN POLLHUP || has_bit POLLIN POLLNVAL) with false.
  change (has_bit POLLIN POLLIN) with true. change (has_bit POLLIN POLLOUT) with false. cbn [orb when].
  rewrite (upd_cbuf_at _ _ _ _ _ Ha). set (s0 := set_cbufs _ s).
  assert (at_fd s0 n (set_disp OK c, k)) as Ha0 by (by eapply at_set).
  assert (streams_same s s0) as Hss0 by (by eapply streams_same_set).
  destruct (read_case_speaks n u text nul s0 (set_disp OK c) k l) as (s' & es & E & Hu & Hall); try done.
  { intros i (ci & ki & Hi & Hr)%Hready. destruct (decide (i = n)) as [->|Hne].
    - exists (set_disp OK c), k. split; [done|]. destruct Ha as [_ Ha], Hi as [_ Hi]. rewrite Ha in Hi. injection Hi as <- <-.
      eapply only_reading_ready, Hr; [done|apply Hr|done].
    - exists ci, ki. split; [|done]. destruct Hi as [Hi Hl], Ha as [Hp _]. split; [done|]. cbn. rewrite list_lookup_insert_ne by lia. done. }
  exists s', es. split; [|split; [exact Hu|]].
  - cbn [sm_loop]. rewrite (conn_at _ _ _ Ha0), bool_decide_true by done. unfold sm_step. erewrite bind_runs by exact (conn_at _ _ _ Ha0).
    cbv beta iota. cbn [c_state set_disp]. rewrite Hst. erewrite bind_runs by exact E. done.
  - intros fd cf kf Hf. destruct (Hss0 fd cf kf Hf) as (cf0 & kf0 & Hf0 & Ef0). destruct (Hall fd cf0 kf0 Hf0) as (c' & k' & Hf' & Hx & Hy).
    exists c', k'. split; [done|]. by rewrite <-Ef0.
Qed.

(** Amy speaks to Bob, in a table where both are connected. *)
Definition speaking : kernel := Kernel [Data (packet_of (str "hi") true)] [] [] no_tls.
Definition listening : cbuf := set_state WANT_HEADER zero_cbuf.
Definition demo_net : prog :=
  put_conn (@first_net demo_build [] demo_state) 0 (listening, speaking).

Lemma demo_may_speak : @may_speak demo_build demo_host 0 (demo_user "amy" "Lobby") (str "hi") demo_state.
Proof.
  split; try done.
  - apply not_elem_of_nil.
  - by exists (demo_group "Lobby" MODERATED 0).
  - apply demo_hush.
  - split; [by apply ascii_clean|vm_compute; lia].
  - split; [split; [by apply ascii_clean|vm_compute; lia]|]. split; by apply (bool_decide_unpack _).
Qed.

Lemma demo_ready i c k : at_fd demo_net i (c, k) → ready 1 c k.
Proof.
  assert (ready 1 listening speaking ∧ ready 1 (cbuf_reset zero_cbuf) (Kernel [] [] [] no_tls)) as [H1 H2].
  { split; (split; cbn; [unfold leaving; intuition discriminate|done|done|unfold MAX_SENDPACKET_QUEUE; lia|
      unfold MAX_SENDPACKET_RETRIES; lia|apply not_elem_of_nil]). }
  intros [Hi Hl]. change (cbufs demo_net) with ((listening, speaking) :: replicate 4 (cbuf_reset zero_cbuf, Kernel [] [] [] no_tls)) in Hl.
  destruct (Z.to_nat i) as [|j]; [by injection Hl as <- <-|]. cbn [lookup list_lookup] in Hl.
  by apply lookup_replicate in Hl as [[= -> ->] _].
Qed.

Lemma open_message_end_to_end_witness :
  ∃ s' c' k', @pollfd_state_machine demo_build st true (@callbacks demo_build demo_host true) 1 (readable_at 0 POLLIN) demo_net = Some (Some s') ∧
    at_fd s' 1 (c', k') ∧ stream c' k' = wire (ICB_M_OPEN :: str "amy" ++ SEP ++ str "hi").
Proof.
  destruct (@open_message_end_to_end demo_build demo_host 0 0 (demo_user "amy" "Lobby") (str "hi") true demo_net listening speaking [] POLLIN)
    as (s' & es & E & _ & Hall).
  - exact demo_may_speak.
  - reflexivity.
  - intros i (ui & Hi & _). assert (0 ≤ i < 5) as Hr by (apply (entry_at_range (u_tab demo_state)); by eexists).
    destruct (lookup_lt_is_Some_2 (cbufs demo_net) (Z.to_nat i)) as [[c k] Hl]; [change (length (cbufs demo_net)) with 5%nat; lia|].
    exists c, k. assert (at_fd demo_net i (c, k)) as Ha by (split; [lia|exact Hl]). split; [exact Ha|]. by eapply demo_ready.
  - reflexivity.
  - by split.
  - reflexivity.
  - reflexivity.
  - reflexivity.
  - destruct (Hall 1 (cbuf_reset zero_cbuf) (Kernel [] [] [] no_tls)) as (c' & k' & Ha & Hs & _); [by split|].
    exists s', c', k'. split; [exact E|]. split; [exact Ha|]. rewrite Hs; [reflexivity|].
    exists (demo_user "bob" "Lobby"). split; [reflexivity|]. split; [left; lia|]. by repeat split.
Defined.
