(* ===== verification/TlsProgram.v ===== *)
(** * A TLS client against the whole program

    What the cases of a TLS connection in the packet server (TlsServ) come to
    for the program: the callbacks are those that main.c registers. *)

From Stdlib Require Import ZArith Lia.
From S2P Require Import Config Prelude Monad PktBuffers SslSocket PktSocket PktServ TlsServ State Tables Send Msgs Boot Program Delivery.

Local Open Scope Z_scope.
Local Open Scope icb_monad_scope.

Section tls.
Context `{BuildConfig} `{Host}.

(** The program takes input from [n] when its server, still running, answers
    that it does; connections do not matter to the answer. *)
Lemma program_willing mem n (s : prog) :
  EvExit ∉ events (upper s) → ok2read n (upper s) = Some (true, upper s) → willing (callbacks mem) n s.
Proof.
  intros He Hok ck. cbn [cb_ok2read callbacks]. unfold bind at 1.
  assert (upcall mem (ok2read n) (put_conn s n ck) = Some (Some true, put_conn s n ck)) as ->; [|done].
  unfold upcall, bind, gets. change (upper (put_conn s n ck)) with (upper s). rewrite bool_decide_false by done.
  unfold lift. rewrite Hok. cbn [modify]. rewrite drop_all. cbn [for_each ret]. by destruct s.
Qed.
End tls.

(** C40: a packet whose length byte comes in a TLS record of its own hangs the
    program.  While the server runs and takes input from the connection, the
    event of the length byte leaves the connection waiting for the rest, the
    event of the rest completes the packet without the server hearing of
    it, and then the next event of any kind on the connection makes the state
    machine loop for ever: no number of turns is enough. *)
Theorem tls_split_packet_hangs_server `{BuildConfig} `{Host} (s : prog) fd c k b p e a p' a' r l p1 p2 fuel :
  at_fd s fd (c, k) → fd < Z.of_nat MAX_USERS → tls_session c → c_state c = IDLE ∨ c_state c = WANT_HEADER →
  c_wlist c = [] → EvExit ∉ events (upper s) → ok2read fd (upper s) = Some (true, upper s) → b ≠ x00 → b ≠ xff →
  t_read (k_tls k) = TRead [b] p e a :: TRead [] p' SSL_ERROR_WANT_READ a' :: r :: l →
  uchar b ≤ Z.of_nat (length (tr_data r)) → event_on fd POLLIN p1 → event_on fd (Z.lor POLLIN POLLOUT) p2 →
  ∃ c2 k2 m, run_events true (callbacks true) (S fuel) [p1; p2] s = Some (Some (put_conn s fd (c2, k2))) ∧
    c_state c2 = COMPLETE_PACKET ∧ c_rbuf c2 = Some m ∧ m_done m = b :: take (Z.to_nat (uchar b)) (tr_data r) ∧
    ∀ p3 n, event_on fd (Z.lor POLLIN POLLOUT) p3 →
      run_events true (callbacks true) n [p3] (put_conn s fd (c2, k2)) = Some None.
Proof.
  intros Ha Hlt Hc Hs Hl He Hok Hb0 Hb1 Hr Hlen Hp1 Hp2.
  by eapply (split_packet_hangs (callbacks true) s fd c k b p e a p' a' r l p1 p2 fuel Ha Hlt Hc Hs Hl);
    [apply program_willing|..].
Qed.

(** Amy's client, in the table where she is logged in, sends a packet of one
    byte this way. *)
Definition split_tls : tls :=
  Tls true [] [TRead [x01] false SSL_ERROR_SSL false; TRead [] false SSL_ERROR_WANT_READ false;
    TRead (str "q") false SSL_ERROR_SSL false] [].
Definition secure_cbuf : cbuf := set_state WANT_HEADER (set_ssl_con true (accepted_cbuf 0 LISTEN_SOCKET_SSL)).
Definition secure_net : prog := put_conn demo_net 0 (secure_cbuf, Kernel [] [] [] split_tls).
Definition readable0 : pollfd := Pollfd 0 1 POLLIN.

Lemma tls_split_packet_hangs_server_witness :
  ∃ c2 k2 m,
    @run_events demo_build st true (@callbacks demo_build demo_host true) 1 [readable0; readable0] secure_net =
      Some (Some (put_conn secure_net 0 (c2, k2))) ∧
    c_state c2 = COMPLETE_PACKET ∧ c_rbuf c2 = Some m ∧ m_done m = [x01; "q"]%byte ∧
    ∀ n, @run_events demo_build st true (@callbacks demo_build demo_host true) n [readable0] (put_conn secure_net 0 (c2, k2)) = Some None.
Proof.
  destruct (@tls_split_packet_hangs_server demo_build demo_host secure_net 0 secure_cbuf (Kernel [] [] [] split_tls)
    x01 false SSL_ERROR_SSL false false false (TRead (str "q") false SSL_ERROR_SSL false) [] readable0 readable0 0)
    as (c2 & k2 & m & H1 & H2 & H3 & H4 & H5); try reflexivity; try done.
  - by right.
  - apply not_elem_of_nil.
  - exists c2, k2, m. split_and!; try done. intros n. by apply H5.
Defined.
